(* ===== verification/_CoqProject ===== *)
-Q . S2P
Prelude.v
Float64.v
NetAddr.v
Cidr.v
CidrSpec.v
Db.v
Report.v
ChangeDetect.v
ChangeSpec.v
Lease.v
LeaseSpec.v
HeartbeatStore.v
Heartbeat.v
HeartbeatSpec.v
Dispatcher.v
Rules.v
RulesSpec.v
RateLimit.v
Transition.v
AgentCommand.v
AgentSpec.v
DeviceStore.v
Json.v
JsonSpec.v
Attributes.v
AttributesSpec.v
DeviceSpec.v
DeviceType.v
StoreRecords.v
StoreSpec.v
ScanAttributes.v
DeviceBridge.v
BridgeSpec.v
StickySpec.v
Wire.v
WireSpec.v
Topology.v
AgentReport.v
AgentReportSpec.v
Peer.v
PeerSpec.v
Flows.v
FlowsSpec.v
ProbeStore.v
Quality.v
QualitySpec.v
ProbeRules.v
ProbeService.v
ProbeServiceSpec.v
ProbeExecutor.v
ProbeEngine.v
ProbeEngineSpec.v
Autogen.v
AutogenSpec.v
ProbeDispatch.v
ProbeDispatchSpec.v
Orchestrator.v
Handlers.v
OrchestratorSpec.v
Reconcile.v
ReconcileSpec.v
Retention.v
RetentionSpec.v
Archive.v
ArchiveSpec.v
TaskRules.v
TaskRulesSpec.v
Scopes.v
ScopesSpec.v
TaskService.v
TaskServiceSpec.v
Frames.v
FramesSpec.v
Discovery.v
DiscoverySpec.v
Sources.v
SourcesSpec.v
