(* ===== verification/Prelude.v ===== *)
(** * MiBee Steward: verification of the Go server

    MiBee Steward (src/, Go) discovers the devices of a set of networks, keeps
    an inventory of them in SQLite, watches whether they are alive, records
    what changes, and notifies people.  This library models the server
    components that decide: which addresses a scan may touch, which inventory
    row a sighting belongs to, what the row says afterwards, whether a device
    is alive, what counts as a change, who is told about it, and which
    requests are let in.

    ** How the parts interact

    A scan task holds a target spec such as ["10.0.0.0/24,10.1.0.1-9"].
    [cidrutil] validates and expands it.  Every host that answers becomes a
    host report; a remote agent sends its reports over a wire format from which
    the center rebuilds them.  The device bridge takes one report: it decides
    the device type, resolves the identity against the devices table (MAC
    first, then address and network), writes the row, emits the change events
    and seeds heartbeat configurations.  The store also keeps the satellite
    tables (services, neighbours, interfaces, routes, sightings, presence).

    When a scan of a network ends, the runner's lost detection compares the
    hosts that answered with the network's lease rows (scan_snapshots), counts
    misses, and flips devices offline.  Networks scanned by remote agents have
    no scan to compare with: the lease sweeper expires and recovers their
    devices by the age of the lease.  Independently the heartbeat service
    probes devices and writes the verdicts to the same devices.status column,
    and its samples to a dedicated time-series store.  All of them report to
    the change recorder, whose change_log rows the watcher fans out to
    subscribers; one subscriber is the notification rule engine, which selects
    rules and hands payloads to the dispatcher, which sends them with retries.
    The probe engine keeps its own alive/failing state per target and vantage
    and records through the same recorder.  Passive discovery watches frames,
    ARP tables, leases and logs, and hands unknown hosts to the same bridge.
    Operators drive agents through a
    command queue.

    ** Files

    - [Prelude] (this file): results as values, machine integers, the part of
      Go's [strings] and [strconv] the sources use, shared list lemmas.
    - [NetAddr]: Go's [net] / [net/netip] as far as used (part of the
      language's library, so modelled and not assumed).
    - [Cidr], [CidrSpec]: internal/cidrutil/cidrutil.go, every function.
    - [Db]: the rows several components share (internal/db/models.go) and the
      text form of timestamps (scannerv2/dbtime.go).
    - [Report]: the host report with its evidence and services
      (scannerv2/evidence.go, repository.go) and the MAC of a report.
    - [ChangeDetect], [ChangeSpec]: internal/changedetect/recorder.go, every
      function.  [DBRecorder] is the table plus the map of last emissions;
      [Watcher] is the subscriber table plus the channels behind it.
    - [Lease], [LeaseSpec]: scannerv2/runner/detect_lost.go and
      lease_sweeper.go.  The state is the tables their statements touch; a
      statement is a function on it.
    - [HeartbeatStore]: service/heartbeat_store.go.  The flush goroutine is a
      step function, one action per [select] case, and the lifecycle
      (Start, Close, cancellation) a step relation around it.
    - [Heartbeat], [HeartbeatSpec]: service/heartbeat.go and
      service/probe/retry.go.
    - [Dispatcher]: service/notification/dispatcher.go and types.go.
    - [Rules], [RulesSpec]: service/notification/rule_engine.go and
      alert_format.go.
    - [RateLimit]: api/middleware/ratelimit.go.
    - [Transition]: service/probetarget/transition.go.
    - [AgentCommand], [AgentSpec]: service/agent_command_service.go with the
      statements of internal/db/agent_commands.sql.go and the handlers of
      api/handler/agent_command.go.
    - [DeviceStore], [DeviceSpec]: the identity part of
      scannerv2/store/sqlite.go: [ResolveDeviceIdentity] and
      [ApplyDeviceIdentity] with everything they call, on a table with its
      UNIQUE and CHECK constraints.
    - [Attributes], [AttributesSpec]: domain/device_attributes.go, the stored
      document of a device with its encoding to, decoding from and merge of JSON
      trees (not the text, so not the replacement of invalid UTF-8).
    - [DeviceType]: runner/device_type_rules.go and the type decision of
      runner/device_bridge.go.
    - [StoreRecords], [StoreSpec]: the satellite tables of
      scannerv2/store/sqlite.go.
    - [ScanAttributes]: runner/scan_attributes.go.
    - [DeviceBridge], [BridgeSpec], [StickySpec]: runner/device_bridge.go, the
      composition of the store, the type decision, the recorder and the
      heartbeat service.
    - [Wire], [WireSpec]: the conversion of reports at the agent
      (service/peer/reporter.go) and at the center (runner/report_convert.go),
      and the extractors of scannerv2/orchestrator.go.
    - [Json], [JsonSpec]: the text of encoding/json (quoting, UTF-8, printing
      and parsing of values), with the round trip of printing and parsing.
    - [Topology]: runner/topology_edges.go, the device-to-device edges of a
      network.
    - [AgentReport], [AgentReportSpec]: api/handler/agent_report.go with
      [ApplyReport] of runner/runner.go: the ingestion of an agent's report,
      the composition of the wire format, the bridge, the leases and the
      topology over one center state.
    - [Peer], [PeerSpec]: service/peer/reporter.go, the reporter of a peer
      center, with its posts as actions that interleave.
    - [Flows], [FlowsSpec]: service/flows (fold.go, service.go), the totals of
      traffic per device and peer.
    - [Float64]: Go's float64 (the executable IEEE specification of the standard
      library) and the monotonicity of its rounding.
    - [ProbeStore]: the tables of the probe subsystem with their constraints.
    - [Quality], [QualitySpec]: service/probetarget/quality.go, the seeding of
      the egress matrix and the verdicts over a window of results.
    - [ProbeRules], [ProbeService], [ProbeServiceSpec]: the rules of
      domain/probe.go for a target and its options, and the operations of
      service/probetarget/service.go on the table.
    - [ProbeExecutor]: service/probetarget/executor*.go, one run of a probe;
      what the network answers is the record [net_world].
    - [ProbeEngine], [ProbeEngineSpec]: service/probetarget/engine.go, due
      times, ticks, manual triggers and the interleaving of runs, and the
      ingestion of the results agents report (dispatcher.go).
    - [Autogen], [AutogenSpec]: service/probetarget/autogen.go, the targets a
      sweep derives from the services of the inventory.
    - [ProbeDispatch], [ProbeDispatchSpec]: service/probetarget/dispatcher.go,
      the probe plans sent to agents through the command queue.
    - [Orchestrator], [Handlers], [OrchestratorSpec]: scannerv2/orchestrator.go
      with registry.go and engine/engine.go (the pipeline of a host scan) and
      the standard service handlers (scannerv2/handler).  Probes, classifiers
      and handlers are records of functions, the repository is a class.
    - [Reconcile], [ReconcileSpec]: scannerv2/reconcile/reconcile.go, devices
      outside the CIDR of their network and the two startup clean-ups.
    - [Retention], [RetentionSpec]: scannerv2/cleanup/cleanup.go with
      [normalizeRetention] of config.go: the retention sweep.  Times are text
      there, as the statements compare them.
    - [Archive], [ArchiveSpec]: service/archive (archive.go, pattern.go), the
      asset archive with its learner of periodic devices.
    - [TaskRules], [TaskRulesSpec]: the validation of scan tasks in
      domain/scanner.go and the port list of scannerv2/probe/ports.go; cron
      expressions are judged by the parameter [cron_ok].
    - [Scopes], [ScopesSpec]: domain/scope.go, authz/scopeql,
      authz/scoperesolver, the grant handlers and the scope middleware.
    - [TaskService], [TaskServiceSpec]: scannerv2/scheduler,
      scannerv2/taskservice and the rows a run writes (scannerv2/runner/runner.go).
      gocron is the map of registered jobs with its contract.
    - [Frames], [FramesSpec]: the readers of LLDP, CDP and ARP frames in
      scannerv2/discovery, on lists of bytes with checked indexing.
    - [Discovery], [DiscoverySpec]: discovery.go and network_resolver.go of the
      same package, the coordinator of passive discovery; where it delivers
      its reports is the class [HostSink], discharged by the device bridge.
    - [Sources], [SourcesSpec]: the sources of passive discovery (arp_cache.go,
      router_arp.go, dhcp_leases.go, conntrack.go, dns_log.go, hostapd.go,
      multicast.go) and the ARP lookup of probe/arp.go.

    Three Go interfaces are classes, so that clients are stated against them:
    [ChangeDetect.ChangeRecorder] (Record), [Lease.LivenessSampler]
    (SampleLiveness), which [HeartbeatService] discharges, and
    [Discovery.HostSink] (Apply).

    ** What the theorems show

    - [CidrSpec]: a CIDR or range expands to exactly its addresses in order;
      nothing reserved is expanded within the stated prefix bound, and beyond
      that bound a block with a reserved interior is accepted; validation and
      expansion agree on finite targets, whose expansion returns; 0.0.0.0/0
      never finishes; partition by agent network
      keeps a contained block together.
    - [DeviceSpec], [StoreSpec]: the write that identity resolution asks for
      succeeds, keeps the table well-formed and settles (the same report is
      then a plain match); a service scan replaces exactly the ports it looked at.
    - [BridgeSpec], [StickySpec]: a report settles and records exactly the
      events the rows before and after call for; a type learned from a
      protocol is never downgraded by quieter scans; one class of report is
      dropped, as the code stands.
    - [AttributesSpec], [WireSpec]: a rescan merges documents member by member;
      a report rebuilt at the center has the addresses, services, verdicts and
      evidence the agent sent.
    - [ChangeSpec]: a diff holds exactly the changed fields; volatile
      attributes are ignored exactly; throttled rows are a cooldown apart and
      only in-window events are dropped; the watcher never panics, bounds its
      buffers and keeps order; the shared lost/recovered bucket and the
      check-then-act race are stated as they are.
    - [LeaseSpec]: exact effect of the stale pass, of the fresh pass and of
      lost detection; which events they emit; decay of flap counters; two
      scenarios in which live devices are declared lost.
    - [HeartbeatStore], [HeartbeatSpec]: after Close the flush loop ends
      under every schedule within a bound on its steps, and loses no row on the
      drain path; the verdict against a contract over histories of probes and
      scan resets; write-back converges without other writers and never
      corrects them; offline backoff probes once per window; seeding is
      idempotent.
    - [Dispatcher], [RulesSpec]: no notification is lost or duplicated between
      workers, queue, delayed set, log and failed log inserts; the retry window
      ends; the row of a cancelled delivery is never written; an event raises
      exactly the alerts its history calls for; loss and recovery pair up.
    - [RateLimit], [Transition]: equivalence with a definition over the full
      history.
    - [AgentSpec]: a scan command is accepted exactly when its targets expand,
      without the exemption, inside the agent's network; the queue
      coalesces; a command's status only moves forward.
    - [AgentReportSpec]: an agent writes only inside the CIDR of its network row
      (with a fresh cache and a readable row); reported hosts have fresh leases; the acknowledgement accounts for every host.
    - [PeerSpec]: the reporter loses no host under any interleaving; the input
      of the state hash determines the covered fields.
    - [FlowsSpec]: the fold is the table of totals, the stored rows account for
      every attributed byte, a pair is announced once.
    - [QualitySpec]: the severe verdicts in counts of probes, bounds of the
      scores through float64 arithmetic, idempotent seeding.
    - [ProbeServiceSpec]: every stored target obeys the rules, and an update
      changes what it names only.
    - [ProbeEngineSpec]: a tick runs exactly the due targets and sets their
      next time; no target has two runs at once under any interleaving; a run
      is recorded as it ended; an agent writes its own track only.
    - [AutogenSpec], [ProbeDispatchSpec]: a sweep touches generated targets
      only and reaches the derived set; after a dispatch with sends that may
      fail, an agent's last plan has the digest of its current one or a send
      failed, and a settled dispatcher is quiet until a refresh.
    - [OrchestratorSpec]: dispatching returns for any handlers and handles a
      service once; strong type signals win in any order; the folding of
      evidence against a reference.
    - [ReconcileSpec]: the clean-ups remove only what they may, under any
      failures and orders, and a second pass removes nothing.
    - [RetentionSpec]: a pass keeps exactly the rows inside the windows, and
      removes a device only when an online row with its MAC stays.
    - [ArchiveSpec]: what a pass may archive and restore, that it misses
      nothing, and, over the life of the table with fault-free blip stages, that
      a restore follows an uninterrupted online stretch.
    - [TaskRulesSpec]: an accepted request expands to at most 4096 addresses
      with 4097 units of fuel; the validation and the probe agree on port lists;
      a stored pipeline reads back.
    - [ScopesSpec]: the SQL predicate of a scope says what the scope says; the
      grant handlers keep the cache exact; under any interleaving a revoked
      grant is honoured for less than the cache time plus one query.
    - [TaskServiceSpec]: the registered jobs are those the rows ask for after
      any sequence of operations; the listing of a scope is complete and agrees
      with the access by id.
    - [FramesSpec]: the frame readers return on every packet and read back what
      was encoded; an ARP sweep asks for the addresses of its network.
    - [DiscoverySpec]: for how long a host is suppressed; the counters follow
      the decisions; a recorded host is known; bounds of the caches; a sighting
      goes to the longest matching network.
    - [SourcesSpec]: a neighbour is reported once per appearance, the lines of a
      log are read once, a lease reads back; the cases in which they are not.

    ** Conventions

    Times are nanoseconds ([Z]); every [time.Now] is an argument.  Columns in
    RFC3339 second precision are seconds.  A Go map is a [gmap]; a table is a
    list of rows in rowid order, or a [gmap] keyed by its unique columns where
    the code only upserts.  Unsigned and signed machine arithmetic wraps where
    the code can reach the bound ([u8], [u32], [i64]).  A JSON column that the
    code reads back is the parsed object.

    Parameters stand for what the server does not implement: [net/url],
    [crypto/sha256], the answers of the network, the notification senders, the
    rule table that is read from YAML.  Whether a
    database statement succeeds is an oracle argument, so error branches are
    ordinary branches of the definitions; statements whose failure the code
    only logs and that the theorems do not distinguish succeed unless a
    constraint of the schema refuses them.

    ** Fuel

    - CIDR expansion: [2^(32-n) + 1] for an IPv4 prefix length [n >= 1]; the
      theorems show that this fuel returns, and that none does for [n = 0].
    - Range expansion: the number of addresses plus one.
    - [trim_space]: the length of the string; each step removes a byte.
    - Frame readers and [strings.Fields]: one more than the number of bytes.
    - Parsing of JSON: twice the length of the text plus two.
    - Delivery attempts: the configured retry count.

    ** Not modelled

    Socket and HTTP I/O (probes, senders, most handlers), SQL parsing and the
    generated query layer beyond the statements used, YAML fingerprint rules,
    cryptography, configuration loading, goroutine and ticker plumbing, and
    the code in other languages (eBPF, the Rust agent, the web UI).  Of the
    store: the evidence log, TLS certificates and the fallback for schemas
    older than the upsert.

    ** Next

    The probes' packet parsers, user and session policy. *)

From Stdlib Require Export Ascii.
From Stdlib Require Sorted.
From stdpp Require Export base gmap strings list pretty numbers.

Declare Scope steward_scope.
Delimit Scope steward_scope with steward.
Open Scope steward_scope.

(** The lemmas that close routine side conditions of the components. *)
Create HintDb steward.

(** * Errors as values

    Go's [(value, error)] results become [result E A]; [error == nil] is [Ok]. *)

Inductive result (E A : Type) : Type :=
| Ok (a : A)
| Err (e : E).
Arguments Ok {E A} _.
Arguments Err {E A} _.

#[export] Instance result_eq_dec {E A} `{!EqDecision E, !EqDecision A} :
  EqDecision (result E A).
Proof. solve_decision. Defined.

Definition is_ok {E A} (r : result E A) : bool :=
  match r with Ok _ => true | Err _ => false end.

Definition rbind {E A B} (r : result E A) (k : A → result E B) : result E B :=
  match r with Ok a => k a | Err e => Err e end.

Notation "'let?' x ':=' r 'in' k" := (rbind r (fun x => k))
  (at level 10, x pattern, r at level 100, k at level 200,
   format "'[v' 'let?'  x  ':='  r  'in' '/' k ']'") : steward_scope.

Lemma rbind_ok {E A B} (r : result E A) (k : A → result E B) b :
  rbind r k = Ok b ↔ ∃ a, r = Ok a ∧ k a = Ok b.
Proof.
  destruct r as [a|e]; simpl; split.
  - intros H. by exists a.
  - by intros (? & [= <-] & ?).
  - done.
  - by intros (? & ? & ?).
Qed.

(** * Machine integers *)

Open Scope Z_scope.

Definition u8 (z : Z) : Z := z `mod` 2 ^ 8.
Definition u16 (z : Z) : Z := z `mod` 2 ^ 16.
Definition u32 (z : Z) : Z := z `mod` 2 ^ 32.
Definition u64 (z : Z) : Z := z `mod` 2 ^ 64.
(** Two's complement 64-bit wrap-around (Go's [int64], and [int] on the
    64-bit targets the project builds for). *)
Definition i64 (z : Z) : Z := (z + 2 ^ 63) `mod` 2 ^ 64 - 2 ^ 63.

Definition max_int64 : Z := 2 ^ 63 - 1.
Definition min_int64 : Z := - 2 ^ 63.

Definition is_byte (z : Z) : Prop := 0 ≤ z < 256.

Lemma u8_range z : is_byte (u8 z).
Proof. unfold is_byte, u8. apply (Z.mod_pos_bound z (2 ^ 8)). lia. Qed.

Lemma u8_id z : is_byte z → u8 z = z.
Proof. unfold is_byte, u8. intros. apply Z.mod_small. lia. Qed.

Lemma i64_range z : min_int64 ≤ i64 z ≤ max_int64.
Proof.
  unfold min_int64, max_int64, i64.
  pose proof (Z.mod_pos_bound (z + 2 ^ 63) (2 ^ 64) ltac:(lia)). lia.
Qed.

Lemma i64_id z : min_int64 ≤ z ≤ max_int64 → i64 z = z.
Proof.
  unfold min_int64, max_int64, i64. intros.
  rewrite Z.mod_small by lia. lia.
Qed.

(** Exhaustive check over the 256 byte values, used to lift a computation on
    one octet to every octet. *)
Lemma byte_forall (P : Z → bool) :
  forallb P (seqZ 0 256) = true → ∀ x, is_byte x → P x = true.
Proof.
  intros Hall x Hx. rewrite forallb_forall in Hall. apply Hall.
  apply list_elem_of_In, elem_of_seqZ. unfold is_byte in Hx. lia.
Qed.

(** * Byte strings: the part of Go's [strings] package the sources use *)

Definition char_eqb (a b : ascii) : bool := bool_decide (a = b).

Definition ascii_Z (c : ascii) : Z := Z.of_N (N_of_ascii c).

Lemma ascii_Z_range c : is_byte (ascii_Z c).
Proof.
  unfold is_byte, ascii_Z. pose proof (N_ascii_bounded c). lia.
Qed.

Definition is_digit (c : ascii) : bool :=
  (48 <=? ascii_Z c) && (ascii_Z c <=? 57).

Fixpoint str_mem (c : ascii) (s : string) : bool :=
  match s with
  | EmptyString => false
  | String a s' => char_eqb a c || str_mem c s'
  end.

(** [strings.SplitN(s, c, 2)] for a one-byte separator: [None] when the
    separator does not occur (the result then has length 1). *)
Fixpoint cut_at (c : ascii) (s : string) : option (string * string) :=
  match s with
  | EmptyString => None
  | String a s' =>
      if char_eqb a c then Some (EmptyString, s')
      else match cut_at c s' with
           | Some (l, r) => Some (String a l, r)
           | None => None
           end
  end.

(** [strings.Split(s, c)] for a one-byte separator. *)
Fixpoint split_on (c : ascii) (s : string) : list string :=
  match s with
  | EmptyString => [EmptyString]
  | String a s' =>
      if char_eqb a c then EmptyString :: split_on c s'
      else match split_on c s' with
           | p :: ps => String a p :: ps
           | [] => [String a EmptyString]
           end
  end.

Fixpoint has_prefix (p s : string) : bool :=
  match p, s with
  | EmptyString, _ => true
  | String a p', String b s' => char_eqb a b && has_prefix p' s'
  | String _ _, EmptyString => false
  end.

Definition has_suffix (suf s : string) : bool :=
  has_prefix (String.rev suf) (String.rev s).

(** [strings.Contains]. *)
Fixpoint contains_str (sub s : string) : bool :=
  has_prefix sub s ||
  match s with
  | EmptyString => false
  | String _ s' => contains_str sub s'
  end.

(** The white space [strings.TrimSpace] removes: the ASCII spaces and the
    UTF-8 encodings of the other [unicode.IsSpace] code points.  The function
    strips one leading occurrence. *)
Definition strip_space (s : string) : option string :=
  match s with
  | String a s1 =>
      let x := ascii_Z a in
      if bool_decide (x ∈ [9; 10; 11; 12; 13; 32]) then Some s1 else
      match s1 with
      | String b s2 =>
          let y := ascii_Z b in
          if (x =? 194) && ((y =? 133) || (y =? 160)) then Some s2 else
          match s2 with
          | String c s3 =>
              let z := ascii_Z c in
              if ((x =? 225) && (y =? 154) && (z =? 128))
                 || ((x =? 226) && (y =? 128) &&
                     (((128 <=? z) && (z <=? 138)) || (z =? 168) || (z =? 169) || (z =? 175)))
                 || ((x =? 226) && (y =? 129) && (z =? 159))
                 || ((x =? 227) && (y =? 128) && (z =? 128))
              then Some s3 else None
          | EmptyString => None
          end
      | EmptyString => None
      end
  | EmptyString => None
  end.

(** The same on the reversed string (the last byte of an encoding first). *)
Definition strip_space_rev (s : string) : option string :=
  match s with
  | String a s1 =>
      let x := ascii_Z a in
      if bool_decide (x ∈ [9; 10; 11; 12; 13; 32]) then Some s1 else
      match s1 with
      | String b s2 =>
          let y := ascii_Z b in
          if (y =? 194) && ((x =? 133) || (x =? 160)) then Some s2 else
          match s2 with
          | String c s3 =>
              let z := ascii_Z c in
              if ((z =? 225) && (y =? 154) && (x =? 128))
                 || ((z =? 226) && (y =? 128) &&
                     (((128 <=? x) && (x <=? 138)) || (x =? 168) || (x =? 169) || (x =? 175)))
                 || ((z =? 226) && (y =? 129) && (x =? 159))
                 || ((z =? 227) && (y =? 128) && (x =? 128))
              then Some s3 else None
          | EmptyString => None
          end
      | EmptyString => None
      end
  | EmptyString => None
  end.

Fixpoint trim_loop (f : string → option string) (fuel : nat) (s : string) : string :=
  match fuel with
  | O => s
  | S fuel' => match f s with Some s' => trim_loop f fuel' s' | None => s end
  end.

(** [strings.TrimSpace].  Each step removes at least one byte, so the length
    bounds the number of steps. *)
Definition trim_space (s : string) : string :=
  let l := trim_loop strip_space (String.length s) s in
  String.rev (trim_loop strip_space_rev (String.length l) (String.rev l)).

(** [strconv.Itoa] / [%d]. *)
Definition itoa (z : Z) : string := pretty z.

(** [strings.ToLower] on ASCII letters; other bytes are kept.  (The only code
    points outside ASCII whose lower case is ASCII are U+0130 and U+212A.) *)
Definition to_lower_char (a : ascii) : ascii :=
  let x := ascii_Z a in
  if (65 <=? x) && (x <=? 90) then ascii_of_N (Z.to_N (x + 32)) else a.

Fixpoint map_string (f : ascii → ascii) (s : string) : string :=
  match s with
  | EmptyString => EmptyString
  | String a s => String (f a) (map_string f s)
  end.

Definition to_lower (s : string) : string := map_string to_lower_char s.

Fixpoint filter_string (f : ascii → bool) (s : string) : string :=
  match s with
  | EmptyString => EmptyString
  | String a s => if f a then String a (filter_string f s) else filter_string f s
  end.

(** Every byte of the string satisfies [f]. *)
Fixpoint forall_string (f : ascii → bool) (s : string) : bool :=
  match s with
  | EmptyString => true
  | String a s => f a && forall_string f s
  end.

(** [strings.Join]. *)
Fixpoint join (sep : string) (l : list string) : string :=
  match l with
  | [] => ""
  | [x] => x
  | x :: xs => x +:+ sep +:+ join sep xs
  end.

(** * Lemmas on byte strings *)

Lemma string_app_nil_r (s : string) : s +:+ "" = s.
Proof. induction s as [|a s IH]; [done|]. by change (String a (s +:+ "") = String a s); f_equal. Qed.

Lemma string_app_assoc (a b c : string) : (a +:+ b) +:+ c = a +:+ b +:+ c.
Proof.
  induction a as [|x a IH]; [done|].
  by change (String x ((a +:+ b) +:+ c) = String x (a +:+ b +:+ c)); f_equal.
Qed.

Lemma string_rev_app_eq (s1 s2 : string) : String.rev_app s1 s2 = String.rev s1 +:+ s2.
Proof.
  revert s2. induction s1 as [|a s1 IH]; intros s2; [done|].
  unfold String.rev. simpl. rewrite (IH (String a s2)), (IH (String a "")).
  by rewrite string_app_assoc.
Qed.

Lemma string_rev_cons a s : String.rev (String a s) = String.rev s +:+ String a "".
Proof. unfold String.rev at 1. simpl. apply string_rev_app_eq. Qed.

Lemma string_rev_app (a b : string) : String.rev (a +:+ b) = String.rev b +:+ String.rev a.
Proof.
  induction a as [|x a IH].
  { change (String.rev "") with "". by rewrite string_app_nil_r. }
  change (String.rev (String x (a +:+ b)) = String.rev b +:+ String.rev (String x a)).
  by rewrite !string_rev_cons, IH, string_app_assoc.
Qed.

Lemma string_rev_involutive (s : string) : String.rev (String.rev s) = s.
Proof. induction s as [|x s IH]; [done|]. by rewrite string_rev_cons, string_rev_app, IH. Qed.

Lemma string_app_length (a b : string) :
  String.length (a +:+ b) = (String.length a + String.length b)%nat.
Proof.
  induction a as [|x a IH]; [done|].
  change (S (String.length (a +:+ b)) = S (String.length a + String.length b)). by rewrite IH.
Qed.

Lemma string_rev_length (s : string) : String.length (String.rev s) = String.length s.
Proof.
  induction s as [|x s IH]; [done|]. rewrite string_rev_cons, string_app_length, IH. simpl. lia.
Qed.

(** A stripping step removes a nonempty prefix. *)
Definition strips (f : string → option string) : Prop :=
  ∀ s s', f s = Some s' → ∃ p, s = p +:+ s' ∧ (String.length s' < String.length s)%nat.

Ltac solve_strips :=
  let a := fresh in let s1 := fresh in let E := fresh in
  intros [|a s1] ? E; [done|]; simpl in E;
  repeat case_match; simplify_eq/=;
  match goal with
  | |- ∃ p, String ?x (String ?y (String ?z ?r)) = p +:+ ?r ∧ _ =>
      exists (String x (String y (String z "")))
  | |- ∃ p, String ?x (String ?y ?r) = p +:+ ?r ∧ _ => exists (String x (String y ""))
  | |- ∃ p, String ?x ?r = p +:+ ?r ∧ _ => exists (String x "")
  end; (split; [done|lia]).

Lemma strip_space_strips : strips strip_space.
Proof. solve_strips. Qed.

Lemma strip_space_rev_strips : strips strip_space_rev.
Proof. solve_strips. Qed.

Lemma trim_loop_suffix f n s : strips f → ∃ p, s = p +:+ trim_loop f n s.
Proof.
  intros Hf. revert s. induction n as [|n IH]; intros s; simpl; [by exists ""|].
  destruct (f s) as [s'|] eqn:E; [|by exists ""].
  destruct (Hf _ _ E) as (p & -> & _), (IH s') as (q & Hq).
  exists (p +:+ q). by rewrite string_app_assoc, <- Hq.
Qed.

Lemma trim_loop_stuck f n s :
  strips f → (String.length s ≤ n)%nat → f "" = None → f (trim_loop f n s) = None.
Proof.
  intros Hf. revert s. induction n as [|n IH]; intros s Hn H0; simpl.
  { destruct s; [done|simpl in Hn; lia]. }
  destruct (f s) as [s'|] eqn:E; [|done].
  destruct (Hf _ _ E) as (p & _ & Hl). apply IH; [lia|done].
Qed.

Lemma trim_loop_fixed f n s : f s = None → trim_loop f n s = s.
Proof. intros H. destruct n; simpl; [done|]. by rewrite H. Qed.

Lemma strip_space_mono a b r : strip_space a = Some r → is_Some (strip_space (a +:+ b)).
Proof.
  destruct a as [|x a]; [done|].
  change (String x a +:+ b) with (String x (a +:+ b)). simpl.
  case_match; [by eexists|]. destruct a as [|y a]; [done|].
  change (String y a +:+ b) with (String y (a +:+ b)). simpl.
  case_match; [by eexists|]. destruct a as [|z a]; [done|].
  change (String z a +:+ b) with (String z (a +:+ b)). simpl.
  case_match; [by eexists|done].
Qed.

Lemma trim_space_idemp s : trim_space (trim_space s) = trim_space s.
Proof.
  unfold trim_space at 2 3.
  set (l := trim_loop strip_space (String.length s) s).
  set (r := trim_loop strip_space_rev (String.length l) (String.rev l)).
  assert (strip_space l = None) as Hl.
  { apply trim_loop_stuck; [apply strip_space_strips|lia|done]. }
  assert (strip_space_rev r = None) as Hr.
  { apply trim_loop_stuck; [apply strip_space_rev_strips| |done].
    rewrite <- (string_rev_length l). lia. }
  destruct (trim_loop_suffix strip_space_rev (String.length l) (String.rev l)
    strip_space_rev_strips) as (p & Hp). fold r in Hp.
  assert (strip_space (String.rev r) = None) as Hl'.
  { destruct (strip_space (String.rev r)) eqn:E; [|done].
    destruct (strip_space_mono _ (String.rev p) _ E) as (t & Ht).
    rewrite <- string_rev_app, <- Hp, string_rev_involutive in Ht. congruence. }
  unfold trim_space. rewrite (trim_loop_fixed strip_space) by done.
  rewrite string_rev_involutive. by rewrite trim_loop_fixed by done.
Qed.

(** The byte order of strings. *)
Lemma leb_cons a s b t :
  String.leb (String a s) (String b t) = true ↔
  (N_of_ascii a < N_of_ascii b)%N ∨ a = b ∧ String.leb s t = true.
Proof.
  unfold String.leb. cbn [String.compare]. unfold Ascii.compare. destruct (N.compare_spec (N_of_ascii a) (N_of_ascii b)) as [E|E|E].
  - assert (a = b) as -> by (rewrite <- (ascii_N_embedding a), <- (ascii_N_embedding b); congruence).
    split; [by right|]. intros [?|[_ ?]]; [lia|done].
  - split; [by left|done].
  - split; [done|]. intros [?|[-> _]]; lia.
Qed.

Lemma leb_trans s t u : String.leb s t = true → String.leb t u = true → String.leb s u = true.
Proof.
  revert t u. induction s as [|a s IH]; intros [|b t] [|c u]; try done.
  rewrite !leb_cons. intros [H1|[-> H1]] [H2|[-> H2]]; [left; lia|by left|by left|right]. split; [done|by eapply IH].
Qed.

Lemma split_on_no_sep c s : str_mem c s = false → split_on c s = [s].
Proof.
  induction s as [|a s IH]; simpl; [done|].
  intros [H1 H2]%orb_false_iff. by rewrite H1, IH.
Qed.

(** * Lists *)

Lemma filter_all {A} (P : A → Prop) `{!∀ x, Decision (P x)} (l : list A) :
  Forall P l → filter P l = l.
Proof. induction 1; simpl; [done|]. rewrite filter_cons_True by done. congruence. Qed.

Lemma filter_none {A} (P : A → Prop) `{!∀ x, Decision (P x)} (l : list A) :
  Forall (fun x => ¬ P x) l → filter P l = [].
Proof. induction 1; simpl; [done|]. by rewrite filter_cons_False. Qed.

(** Facts about tables: deleting rows keeps what holds of the table. *)
Lemma sublist_fmap_mono {A B} (f : A → B) (l k : list A) :
  l `sublist_of` k → (f <$> l) `sublist_of` (f <$> k).
Proof. induction 1; cbn [fmap list_fmap]; by constructor. Qed.

Lemma sublist_filter_mono {A} (P : A → Prop) `{!∀ x, Decision (P x)} (l k : list A) :
  l `sublist_of` k → filter P l `sublist_of` filter P k.
Proof. induction 1; rewrite ?filter_cons; repeat case_decide; by try constructor. Qed.

Lemma Forall_sublist {A} (P : A → Prop) (l k : list A) : l `sublist_of` k → Forall P k → Forall P l.
Proof. intros Hs. rewrite !list.Forall_forall. intros H x Hx. eapply H, elem_of_sublist; done. Qed.

Lemma StronglySorted_sublist {A} (R : A → A → Prop) (l k : list A) :
  l `sublist_of` k → Sorted.StronglySorted R k → Sorted.StronglySorted R l.
Proof.
  induction 1 as [|x l k Hl IH|x l k Hl IH]; [done|..]; intros [HS HF]%Sorted.StronglySorted_inv; [|auto].
  constructor; [auto|]. by eapply Forall_sublist.
Qed.

(** Appending a row to a table keeps a filtered key unique. *)
Lemma NoDup_filter_snoc {A B} (key : A → B) (P : A → Prop) `{!∀ x, Decision (P x)} (l : list A) (c : A) :
  NoDup (key <$> filter P l) → (P c → ∀ c', c' ∈ l → P c' → key c' ≠ key c) →
  NoDup (key <$> filter P (l ++ [c])).
Proof.
  intros Hl Hc. rewrite list.filter_app, filter_cons. case_decide as Hp; [|by rewrite app_nil_r].
  rewrite fmap_app. apply list.NoDup_app. split_and!; [done| |by apply NoDup_singleton].
  intros x (c' & -> & [? ?]%list_elem_of_filter)%list_elem_of_fmap [E|[]%elem_of_nil]%elem_of_cons.
  by eapply Hc.
Qed.

Lemma filter_ext_in {A} (P Q : A → Prop) `{!∀ x, Decision (P x), !∀ x, Decision (Q x)} (l : list A) :
  (∀ x, x ∈ l → P x ↔ Q x) → filter P l = filter Q l.
Proof.
  induction l as [|x l IH]; intros Hx; [done|]. rewrite !filter_cons, IH by (intros; apply Hx; by right).
  specialize (Hx x ltac:(left)). repeat case_decide; tauto.
Qed.

Lemma length_filter_split {A} (P : A → Prop) `{!∀ x, Decision (P x)} (l : list A) :
  (length (filter P l) + length (filter (fun x => ¬ P x) l))%nat = length l.
Proof. induction l as [|x l IH]; [done|]. rewrite !filter_cons. repeat case_decide; cbn; (lia || tauto). Qed.

(** Rows of one key are one row. *)
Lemma NoDup_key {A} (key : A → Z) (l : list A) x y : NoDup (key <$> l) → x ∈ l → y ∈ l → key x = key y → x = y.
Proof.
  intros Hn Hx Hy E. apply list_elem_of_lookup_1 in Hx as [i Hi], Hy as [j Hj].
  assert (i = j) as ->; [|congruence]. eapply NoDup_lookup; [exact Hn|rewrite list_lookup_fmap, Hi; done|].
  rewrite list_lookup_fmap, Hj. cbn. congruence.
Qed.

Lemma elem_of_concat {A} (x : A) ls : x ∈ concat ls ↔ ∃ l, l ∈ ls ∧ x ∈ l.
Proof. rewrite list_elem_of_In, List.in_concat. by setoid_rewrite list_elem_of_In. Qed.

#[export] Hint Resolve sublist_fmap_mono sublist_filter_mono Forall_sublist : steward.
