(* ===== verification/Float64.v ===== *)
(** Go's float64, as far as the sources use it: IEEE binary64 numbers with
    addition, multiplication, division and comparison, rounded to nearest even
    (the executable specification of the standard library), and what rounding
    does to the order of non-negative values.

    A non-negative number is a multiple of [2^-1074]; [val] is that multiple, so
    the lemmas are about integers.  Rounding is monotone and keeps representable
    numbers: a result is at most (at least) a representable bound when the exact
    value is. *)

From S2P Require Import Prelude.
From Stdlib Require Import SpecFloat.

Open Scope Z_scope.

Abbreviation f64 := spec_float.

Definition f_add : f64 → f64 → f64 := SFadd 53 1024.
Definition f_mul : f64 → f64 → f64 := SFmul 53 1024.
Definition f_div : f64 → f64 → f64 := SFdiv 53 1024.
Definition f_ltb : f64 → f64 → bool := SFltb.

(** The conversion of an integer. *)
Definition f_of_Z (z : Z) : f64 := binary_normalize 53 1024 z 0 false.

(** The conversion to [int]: the fraction is dropped. *)
Definition f_trunc (x : f64) : Z :=
  match x with
  | S754_finite s m e => let v := Z.shiftl (Zpos m) e in if s then - v else v
  | _ => 0
  end.

Definition f_zero : f64 := S754_zero false.
Definition f_half : f64 := S754_finite false (2 ^ 52) (-53).
Definition f_hundred : f64 := f_of_Z 100.

(** * Digits *)

Abbreviation digits := Zdigits2.
Abbreviation fexp64 := (fexp 53 1024).

Lemma fexp64_eq x : fexp64 x = Z.max (x - 53) (-1074).
Proof. reflexivity. Qed.

Lemma digits_log2 m : 0 < m → digits m = Z.log2 m + 1.
Proof.
  intros Hm. destruct m as [|p|]; [lia| |lia]. clear Hm. change (digits (Z.pos p)) with (Z.pos (digits2_pos p)).
  assert (∀ p, digits2_pos p = Pos.size p) as -> by (clear p; intros p; induction p as [p IH|p IH|]; cbn; congruence).
  destruct p; cbn; lia.
Qed.

Lemma digits_bounds m : 0 < m → 2 ^ (digits m - 1) ≤ m < 2 ^ digits m.
Proof.
  intros Hm. rewrite digits_log2 by done. pose proof (Z.log2_spec m Hm). rewrite Z.add_simpl_r. done.
Qed.

Lemma digits_pos m : 0 < m → 1 ≤ digits m.
Proof. intros Hm. rewrite digits_log2 by done. pose proof (Z.log2_nonneg m). lia. Qed.

Lemma digits_lt_pow m k : 0 < m → 0 ≤ k → m < 2 ^ k → digits m ≤ k.
Proof. intros Hm Hk H. rewrite digits_log2 by done. apply Z.log2_lt_pow2 in H; lia. Qed.

Lemma digits_ge_pow m k : 0 ≤ k → 2 ^ k ≤ m → k + 1 ≤ digits m.
Proof.
  intros Hk H. assert (0 < m) by (pose proof (Z.pow_pos_nonneg 2 k); lia). rewrite digits_log2 by done.
  apply Z.log2_le_pow2 in H; lia.
Qed.

(** * Shifting with a sticky bit *)

(** The record describes [N / D]: its integer part, whether the rest is at least
    a half, and whether it is neither zero nor a half. *)
Definition located (N D : Z) (mrs : shr_record) : Prop :=
  let rho := N - shr_m mrs * D in
  0 ≤ shr_m mrs ∧ 0 ≤ rho < D ∧ shr_r mrs = (D <=? 2 * rho) ∧ shr_s mrs = negb ((rho =? 0) || (2 * rho =? D)).

Lemma shr_1_located N D mrs : 0 < D → located N D mrs → located N (2 * D) (shr_1 mrs).
Proof.
  intros HD. destruct mrs as [m r s]. unfold located. cbn [shr_m shr_r shr_s]. intros (Hm & Hrho & -> & ->).
  destruct m as [|p|p]; [|destruct p as [p|p|]|lia]; cbn [shr_1 shr_m shr_r shr_s].
  all: rewrite ?(Pos2Z.inj_xI p), ?(Pos2Z.inj_xO p) in *.
  all: split; [lia|]; split; [nia|]; split;
       [symmetry; (apply Z.leb_le; nia) || (apply Z.leb_gt; nia)|].
  all: repeat match goal with |- context [?a <=? ?b] => destruct (Z.leb_spec a b) | |- context [?a =? ?b] => destruct (Z.eqb_spec a b) end; cbn; try reflexivity; exfalso; nia.
Qed.

Lemma iter_located N D mrs p : 0 < D → located N D mrs → located N (D * 2 ^ Zpos p) (iter_pos shr_1 p mrs).
Proof.
  revert D mrs. induction p as [p IH|p IH|]; intros D mrs HD H; cbn [iter_pos].
  - replace (D * 2 ^ Z.pos p~1) with (2 * D * 2 ^ Z.pos p * 2 ^ Z.pos p)
      by (rewrite (Pos2Z.inj_xI p), Z.pow_add_r, Z.mul_comm, Z.pow_twice_r by lia; lia).
    apply IH; [lia|]. apply IH; [lia|]. by apply shr_1_located.
  - replace (D * 2 ^ Z.pos p~0) with (D * 2 ^ Z.pos p * 2 ^ Z.pos p)
      by (rewrite (Pos2Z.inj_xO p), Z.mul_comm, Z.pow_twice_r by lia; lia).
    apply IH; [lia|]. by apply IH.
  - replace (D * 2 ^ 1) with (2 * D) by lia. by apply shr_1_located.
Qed.

Lemma shr_located N D mrs e n :
  0 < D → 0 ≤ n → located N D mrs → located N (D * 2 ^ n) (shr mrs e n).1 ∧ (shr mrs e n).2 = e + n.
Proof.
  intros HD Hn H. destruct n as [|p|p]; cbn [shr fst snd]; [|by split; [apply iter_located|]|lia].
  by rewrite Z.mul_1_r, Z.add_0_r.
Qed.

(** * Rounding *)

Lemma rounded_le N D mrs K : 0 < D → located N D mrs → N ≤ K * D →
  round_nearest_even (shr_m mrs) (loc_of_shr_record mrs) ≤ K.
Proof.
  intros HD. destruct mrs as [m r s]. unfold located. cbn [shr_m shr_r shr_s]. intros (Hm & Hrho & -> & ->) HK.
  cbn [loc_of_shr_record].
  destruct (Z.leb_spec D (2 * (N - m * D))), (Z.eqb_spec (N - m * D) 0), (Z.eqb_spec (2 * (N - m * D)) D); cbn; try nia.
  destruct (Z.even m); nia.
Qed.

Lemma rounded_ge N D mrs K : 0 < D → located N D mrs → K * D ≤ N →
  K ≤ round_nearest_even (shr_m mrs) (loc_of_shr_record mrs).
Proof.
  intros HD. destruct mrs as [m r s]. unfold located. cbn [shr_m shr_r shr_s]. intros (Hm & Hrho & _ & _) HK.
  assert (K ≤ m) by nia.
  cbn [loc_of_shr_record]. destruct r, s; cbn; try lia. destruct (Z.even m); lia.
Qed.

(** The value of a non-negative number, in units of [2^-1074]. *)
Definition val (x : f64) : Z := match x with S754_finite false m e => Zpos m * 2 ^ (e + 1074) | _ => 0 end.

(** Zero, or a positive finite number in canonical form. *)
Definition canon (x : f64) : Prop :=
  match x with
  | S754_zero _ => True
  | S754_finite false m e => e = fexp64 (digits (Zpos m) + e)
  | _ => False
  end.

Lemma canon_exponent m e : canon (S754_finite false m e) → -1074 ≤ e ∧ Zpos m < 2 ^ 53 ∧ (e = -1074 ∨ 2 ^ 52 ≤ Zpos m).
Proof.
  unfold canon. rewrite fexp64_eq. intros H. pose proof (digits_bounds (Zpos m) ltac:(lia)) as [H1 H2]. split; [lia|].
  split.
  - eapply Z.lt_le_trans; [exact H2|]. apply Z.pow_le_mono_r; lia.
  - destruct (Z.eq_dec e (-1074)) as [->|He]; [by left|right]. etransitivity; [|exact H1]. apply Z.pow_le_mono_r; lia.
Qed.

(** The renormalization after rounding. *)
Lemma renormalize M e : 0 ≤ M ≤ 2 ^ 53 → -1074 ≤ e ≤ 960 → (e = -1074 ∨ 2 ^ 52 ≤ M) →
  ∃ r, (let '(mrs, e') := shr_fexp 53 1024 M e loc_Exact in
        match shr_m mrs with
        | Z0 => S754_zero false
        | Zpos m => if e' <=? 1024 - 53 then S754_finite false m e' else S754_infinity false
        | _ => S754_nan
        end) = r ∧ canon r ∧ val r = M * 2 ^ (e + 1074).
Proof.
  intros HM He Hc. unfold shr_fexp. cbn [shr_record_of_loc].
  destruct (Z.eq_dec M 0) as [->|HM0].
  { assert (fexp64 (digits 0 + e) - e = 0) as -> by (rewrite fexp64_eq; cbn [digits]; lia). cbn. by exists (S754_zero false). }
  destruct (Z.eq_dec M (2 ^ 53)) as [->|HM1].
  { assert (fexp64 (digits (2 ^ 53) + e) - e = 1) as -> by (rewrite fexp64_eq; change (digits (2 ^ 53)) with 54; lia).
    cbn -[Z.pow Z.mul Z.add Z.leb]. rewrite (proj2 (Z.leb_le (e + 1) (1024 - 53))) by lia.
    eexists. split; [reflexivity|]. split.
    - change (e + 1 = Z.max (53 + (e + 1) - 53) (-1074)). lia.
    - transitivity (2 ^ 52 * 2 ^ (e + 1 + 1074)); [done|].
      rewrite (Z.add_shuffle0 e 1 1074), (Z.pow_add_r 2 (e + 1074) 1) by lia. change (2 ^ 53) with (2 ^ 52 * 2 ^ 1). ring. }
  assert (digits M ≤ 53) by (apply digits_lt_pow; lia).
  assert (fexp64 (digits M + e) - e = 0) as E.
  { rewrite fexp64_eq. destruct Hc as [->|Hc]; [lia|]. assert (52 + 1 ≤ digits M) by (by apply digits_ge_pow). lia. }
  rewrite E. destruct M as [|m|m]; [lia| |lia]. cbn [shr shr_m]. rewrite (proj2 (Z.leb_le e (1024 - 53))) by lia.
  eexists. split; [reflexivity|]. split; [|done]. unfold canon. lia.
Qed.

(** Rounding of [N / D * 2^e]. *)
Lemma round_spec N D m e l :
  0 < D → located N D (shr_record_of_loc m l) → e ≤ fexp64 (digits m + e) → digits m + e ≤ 1000 →
  let r := binary_round_aux 53 1024 false m e l in
  canon r
  ∧ ∀ c t s, 0 ≤ c < 2 ^ 53 → -1074 ≤ t → 0 ≤ e + s → 0 ≤ t + s →
      (N * 2 ^ (e + s) ≤ D * c * 2 ^ (t + s) → val r ≤ c * 2 ^ (t + 1074))
      ∧ (D * c * 2 ^ (t + s) ≤ N * 2 ^ (e + s) → c * 2 ^ (t + 1074) ≤ val r).
Proof.
  intros HD Hloc He Hov. cbv zeta. remember (binary_round_aux 53 1024 false m e l) as r0 eqn:Er0.
  unfold binary_round_aux, shr_fexp at 1 in Er0.
  set (n := fexp64 (digits m + e) - e). assert (0 ≤ n) as Hn by (subst n; lia).
  destruct (shr_located N D _ e n HD Hn Hloc) as [Hl He'].
  change (fexp64 (digits m + e) - e) with n in Er0.
  destruct (shr (shr_record_of_loc m l) e n) as [mrs e']. cbn [fst snd] in Hl, He'.
  assert (e' = fexp64 (digits m + e)) as Hfe by (subst n; lia). rewrite fexp64_eq in Hfe.
  assert (0 ≤ m) as Hm by (destruct Hloc as [H _]; destruct l as [|[]]; exact H).
  assert (m * D ≤ N < (m + 1) * D) as HN.
  { destruct Hloc as (_ & H & _). assert (shr_m (shr_record_of_loc m l) = m) as E by (by destruct l as [|[]]). rewrite E in H. lia. }
  set (M := round_nearest_even (shr_m mrs) (loc_of_shr_record mrs)).
  assert (0 < D * 2 ^ n) as HD' by (pose proof (Z.pow_pos_nonneg 2 n); nia).
  assert (∀ k, 2 ^ (k + n) = 2 ^ k * 2 ^ n ∨ k < 0) as Hpow by (intros k; destruct (Z.lt_ge_cases k 0); [by right|left; apply Z.pow_add_r; lia]).
  (* the mantissa fits, and is full unless the exponent is the least *)
  assert (0 ≤ M ≤ 2 ^ 53) as HM.
  { split; [apply (rounded_ge N (D * 2 ^ n) mrs 0 HD' Hl); nia|]. apply (rounded_le N (D * 2 ^ n) mrs (2 ^ 53) HD' Hl).
    destruct (Z.eq_dec m 0) as [->|]; [pose proof (Z.pow_pos_nonneg 2 n); nia|].
    pose proof (digits_bounds m ltac:(lia)) as [_ Hd]. pose proof (digits_pos m ltac:(lia)).
    assert (2 ^ digits m ≤ 2 ^ 53 * 2 ^ n) by (rewrite <- Z.pow_add_r by lia; apply Z.pow_le_mono_r; lia). nia. }
  assert (e' = -1074 ∨ 2 ^ 52 ≤ M) as Hfull.
  { destruct (Z.eq_dec e' (-1074)) as [|Hne]; [by left|right]. apply (rounded_ge N (D * 2 ^ n) mrs (2 ^ 52) HD' Hl).
    destruct (Z.eq_dec m 0) as [->|]; [cbn [digits] in Hfe; subst n; rewrite fexp64_eq in *; cbn [digits] in *; lia|].
    pose proof (digits_bounds m ltac:(lia)) as [Hd _].
    assert (2 ^ 52 * 2 ^ n = 2 ^ (digits m - 1)) as E by (rewrite <- Z.pow_add_r by lia; f_equal; lia). nia. }
  destruct (renormalize M e' HM ltac:(lia) Hfull) as (r & Er & Hplain & Hval). fold M in Er0. rewrite Er in Er0. subst r0. split; [done|].
  intros c t s Hc Ht Hes Hts. rewrite Hval.
  destruct (Z.le_gt_cases e' t) as [Hle|Hgt].
  - (* the bound is on the grid *)
    assert (c * 2 ^ (t + 1074) = c * 2 ^ (t - e') * 2 ^ (e' + 1074)) as ->
      by (rewrite <- Z.mul_assoc, <- Z.pow_add_r by lia; do 2 f_equal; lia).
    assert (D * c * 2 ^ (t + s) = c * 2 ^ (t - e') * (D * 2 ^ n) * 2 ^ (e + s)) as ->.
    { replace (t + s) with (t - e' + n + (e + s)) by lia. rewrite !Z.pow_add_r by lia. ring. }
    pose proof (Z.pow_pos_nonneg 2 (e + s)). pose proof (Z.pow_pos_nonneg 2 (e' + 1074)). split; intros H1.
    + apply Z.mul_le_mono_nonneg_r; [lia|]. apply (rounded_le N (D * 2 ^ n) mrs _ HD' Hl). nia.
    + apply Z.mul_le_mono_nonneg_r; [lia|]. apply (rounded_ge N (D * 2 ^ n) mrs _ HD' Hl). nia.
  - (* the bound is below the binade *)
    destruct Hfull as [|Hfull]; [lia|].
    assert (2 ^ (e' + 1074) = 2 ^ (t + 1074) * 2 ^ (e' - t)) as E1 by (rewrite <- Z.pow_add_r by lia; f_equal; lia).
    assert (2 ^ 1 ≤ 2 ^ (e' - t)) by (apply Z.pow_le_mono_r; lia).
    pose proof (Z.pow_pos_nonneg 2 (t + 1074)).
    split; intros H1; [exfalso|rewrite E1; nia].
    destruct (Z.eq_dec m 0) as [->|]; [cbn [digits] in *; subst n; rewrite fexp64_eq in *; cbn [digits] in *; lia|].
    pose proof (digits_bounds m ltac:(lia)) as [Hd _]. pose proof (digits_pos m ltac:(lia)).
    assert (2 ^ (digits m - 1) * 2 ^ (e + s) = 2 ^ (52 + e' + s)) as E2 by (rewrite <- Z.pow_add_r by lia; f_equal; lia).
    assert (2 ^ (53 + t + s) ≤ 2 ^ (52 + e' + s)) by (apply Z.pow_le_mono_r; lia).
    assert (2 ^ (53 + t + s) = 2 ^ 53 * 2 ^ (t + s)) as E3 by (rewrite <- Z.pow_add_r by lia; f_equal; lia).
    pose proof (Z.pow_pos_nonneg 2 (t + s)). pose proof (Z.pow_pos_nonneg 2 (e + s)).
    assert (D * 2 ^ (digits m - 1) * 2 ^ (e + s) ≤ N * 2 ^ (e + s)) as E4 by (apply Z.mul_le_mono_nonneg_r; nia).
    rewrite <- Z.mul_assoc, E2 in E4.
    assert (D * 2 ^ (52 + e' + s) ≤ D * (c * 2 ^ (t + s))) as E5 by lia. apply Z.mul_le_mono_pos_l in E5; [|done].
    assert (c * 2 ^ (t + s) < 2 ^ 53 * 2 ^ (t + s)) by (apply Z.mul_lt_mono_pos_r; lia). lia.
Qed.

(** * Operations *)

Lemma pos_iter_xO p d : Zpos (Pos.iter xO p d) = Zpos p * 2 ^ Zpos d.
Proof.
  induction d as [|d IH] using Pos.peano_ind; [cbn; lia|].
  rewrite Pos.iter_succ, Pos2Z.inj_xO, IH, Pos2Z.inj_succ, Z.pow_succ_r by lia. ring.
Qed.

Lemma shl_align_spec m e e' :
  let '(m', e'') := shl_align m e e' in e'' = Z.min e e' ∧ Zpos m' = Zpos m * 2 ^ (e - e'').
Proof.
  unfold shl_align. destruct (e' - e) as [|d|d] eqn:E; [split; [lia|]; rewrite Z.sub_diag; cbn; lia..|].
  split; [lia|]. rewrite pos_iter_xO. do 2 f_equal. lia.
Qed.

Lemma digits_shift m k : 0 < m → 0 ≤ k → digits (m * 2 ^ k) = digits m + k.
Proof.
  intros Hm Hk. pose proof (Z.pow_pos_nonneg 2 k). rewrite !digits_log2 by nia. rewrite Z.log2_mul_pow2 by done. lia.
Qed.

Lemma located_exact m : 0 ≤ m → located m 1 (shr_record_of_loc m loc_Exact).
Proof. intros Hm. unfold located. cbn. rewrite Z.mul_1_r, Z.sub_diag. by split_and!. Qed.

(** Rounding of [m * 2^e]. *)
Lemma binary_round_spec m e :
  digits (Zpos m) + e ≤ 1000 →
  let r := binary_round 53 1024 false m e in
  canon r
  ∧ ∀ c t s, 0 ≤ c < 2 ^ 53 → -1074 ≤ t → 0 ≤ e + s → 0 ≤ t + s →
      (Zpos m * 2 ^ (e + s) ≤ c * 2 ^ (t + s) → val r ≤ c * 2 ^ (t + 1074))
      ∧ (c * 2 ^ (t + s) ≤ Zpos m * 2 ^ (e + s) → c * 2 ^ (t + 1074) ≤ val r).
Proof.
  intros Hov. unfold binary_round. pose proof (shl_align_spec m e (fexp64 (digits (Zpos m) + e))) as H.
  change (Z.pos (digits2_pos m)) with (digits (Zpos m)). destruct (shl_align _ _ _) as [m' e'']. destruct H as [He Hm].
  assert (digits (Zpos m') + e'' = digits (Zpos m) + e) as Hd by (rewrite Hm, digits_shift by lia; lia).
  pose proof (round_spec (Zpos m') 1 (Zpos m') e'' loc_Exact ltac:(lia) (located_exact (Zpos m') ltac:(lia))
                ltac:(rewrite Hd; lia) ltac:(lia)) as [Hp Hb].
  split; [done|]. intros c t s Hc Ht Hes Hts.
  remember (Z.max 0 (- (e'' + s))) as k eqn:Hk.
  destruct (Hb c t (s + k) Hc Ht ltac:(lia) ltac:(lia)) as [Hu Hl].
  assert (Zpos m' * 2 ^ (e'' + (s + k)) = Zpos m * 2 ^ (e + s) * 2 ^ k) as E1.
  { rewrite Hm, <- !Z.mul_assoc, <- (Z.pow_add_r 2 (e - e'')), <- (Z.pow_add_r 2 (e + s)) by lia. do 2 f_equal. lia. }
  assert (c * 2 ^ (t + (s + k)) = c * 2 ^ (t + s) * 2 ^ k) as E2.
  { rewrite <- Z.mul_assoc, <- Z.pow_add_r by lia. do 2 f_equal. lia. }
  rewrite Z.mul_1_l, E1, E2 in Hu, Hl. pose proof (Z.pow_pos_nonneg 2 k ltac:(lia) ltac:(lia)).
  split; intros Hx; [apply Hu|apply Hl]; apply Z.mul_le_mono_nonneg_r; lia.
Qed.

Lemma f_of_Z_spec n : 0 ≤ n < 2 ^ 53 → canon (f_of_Z n) ∧ val (f_of_Z n) = n * 2 ^ 1074.
Proof.
  intros Hn. destruct n as [|m|m]; [done| |lia].
  assert (digits (Zpos m) ≤ 53) by (apply digits_lt_pow; lia).
  destruct (binary_round_spec m 0 ltac:(lia)) as [Hp Hb]. split; [done|].
  destruct (Hb (Zpos m) 0 0 ltac:(lia) ltac:(lia) ltac:(lia) ltac:(lia)) as [Hu Hl].
  change (val (f_of_Z (Z.pos m))) with (val (binary_round 53 1024 false m 0)).
  apply Z.le_antisymm; [by apply Hu|by apply Hl].
Qed.

Lemma val_nonneg x : 0 ≤ val x.
Proof. destruct x as [| | |[] m e]; cbn; lia. Qed.

Lemma val_digits m e : canon (S754_finite false m e) → 2 ^ (digits (Zpos m) + e + 1073) ≤ val (S754_finite false m e) < 2 ^ (digits (Zpos m) + e + 1074).
Proof.
  intros (He & _)%canon_exponent. unfold val. pose proof (digits_bounds (Zpos m) ltac:(lia)) as [H1 H2].
  pose proof (digits_pos (Zpos m) ltac:(lia)). pose proof (Z.pow_pos_nonneg 2 (e + 1074)).
  assert (2 ^ (digits (Zpos m) + e + 1073) = 2 ^ (digits (Zpos m) - 1) * 2 ^ (e + 1074)) as -> by (rewrite <- Z.pow_add_r by lia; f_equal; lia).
  assert (2 ^ (digits (Zpos m) + e + 1074) = 2 ^ digits (Zpos m) * 2 ^ (e + 1074)) as -> by (rewrite <- Z.pow_add_r by lia; f_equal; lia).
  nia.
Qed.

(** A sum, against a bound that is representable. *)
Lemma f_add_spec K x y :
  K ≤ 2000 → canon x → canon y → val x + val y < 2 ^ K →
  canon (f_add x y)
  ∧ ∀ c t, 0 ≤ c < 2 ^ 53 → -1074 ≤ t →
      (val x + val y ≤ c * 2 ^ (t + 1074) → val (f_add x y) ≤ c * 2 ^ (t + 1074))
      ∧ (c * 2 ^ (t + 1074) ≤ val x + val y → c * 2 ^ (t + 1074) ≤ val (f_add x y)).
Proof.
  intros HK Hx Hy Hov. destruct x as [sx| | |[] mx ex]; try done.
  { assert (val (f_add (S754_zero sx) y) = val y ∧ canon (f_add (S754_zero sx) y)) as [-> ?]
      by (destruct y as [sy| | |[] my ey]; try done; by destruct sx, sy).
    split; [done|]. intros. by rewrite Z.add_0_l. }
  destruct y as [sy| | |[] my ey]; try done; [split; [done|]; intros; by rewrite Z.add_0_r|].
  pose proof (canon_exponent _ _ Hx) as (Hex & _). pose proof (canon_exponent _ _ Hy) as (Hey & _).
  unfold f_add, SFadd. set (ez := Z.min ex ey).
  pose proof (shl_align_spec mx ex ez) as Hax. pose proof (shl_align_spec my ey ez) as Hay.
  destruct (shl_align mx ex ez) as [mx' ex'], (shl_align my ey ez) as [my' ey']. cbn [fst cond_Zopp].
  destruct Hax as [-> Hmx], Hay as [-> Hmy]. cbn [binary_normalize Z.add].
  assert (val (S754_finite false mx ex) + val (S754_finite false my ey) = Zpos (mx' + my') * 2 ^ (ez + 1074)) as E.
  { unfold val. rewrite Pos2Z.inj_add, Z.mul_add_distr_r, Hmx, Hmy, <- !Z.mul_assoc, <- !Z.pow_add_r by lia. do 3 f_equal; lia. }
  rewrite E in Hov |- *.
  destruct (binary_round_spec (mx' + my') ez) as [Hp Hb].
  { pose proof (digits_bounds (Zpos (mx' + my')) ltac:(lia)) as [H1 _]. pose proof (digits_pos (Zpos (mx' + my')) ltac:(lia)).
    assert (2 ^ (digits (Zpos (mx' + my')) - 1 + (ez + 1074)) < 2 ^ K) as H2.
    { rewrite Z.pow_add_r by lia. eapply Z.le_lt_trans; [|exact Hov]. apply Z.mul_le_mono_nonneg_r; [|done].
      apply Z.pow_nonneg. lia. }
    destruct (Z.lt_ge_cases K 0) as [HK0|HK0]; [rewrite (Z.pow_neg_r 2 K) in H2 by done; lia|].
    apply Z.pow_lt_mono_r_iff in H2; lia. }
  split; [done|]. intros c t Hc Ht. apply Hb; lia.
Qed.

Lemma new_location_located N D q r :
  0 < D → 0 ≤ q → N = q * D + r → 0 ≤ r < D → located N D (shr_record_of_loc q (new_location D r)).
Proof.
  intros HD Hq HN Hr. assert (N - q * D = r) as E by lia.
  unfold new_location, new_location_even, new_location_odd. destruct (Z.even D) eqn:Hev.
  - destruct (Z.eqb_spec r 0) as [->|Hr0]; [unfold located; cbn; rewrite E; split_and!; [lia..| |done]; symmetry; apply Z.leb_gt; lia|].
    destruct (Z.compare_spec (2 * r) D); unfold located; cbn [shr_record_of_loc shr_m shr_r shr_s]; rewrite E;
      (split_and!; [lia..| |]); symmetry; rewrite ?negb_true_iff, ?negb_false_iff, ?orb_true_iff, ?orb_false_iff, ?Z.eqb_eq, ?Z.eqb_neq, ?Z.leb_le, ?Z.leb_gt; lia.
  - assert (D ≠ 2 * r) as Hne by (intros ->; by rewrite Z.even_mul in Hev).
    destruct (Z.eqb_spec r 0) as [->|Hr0]; [unfold located; cbn; rewrite E; split_and!; [lia..| |done]; symmetry; apply Z.leb_gt; lia|].
    destruct (Z.compare_spec (2 * r + 1) D); unfold located; cbn [shr_record_of_loc shr_m shr_r shr_s]; rewrite E;
      (split_and!; [lia..| |]); symmetry; rewrite ?negb_true_iff, ?negb_false_iff, ?orb_true_iff, ?orb_false_iff, ?Z.eqb_eq, ?Z.eqb_neq, ?Z.leb_le, ?Z.leb_gt; lia.
Qed.

Lemma digits_mono a b : 0 ≤ a ≤ b → digits a ≤ digits b.
Proof.
  intros H. destruct (Z.eq_dec a 0) as [->|]; [|rewrite !digits_log2 by lia; pose proof (Z.log2_le_mono a b); lia].
  destruct (Z.eq_dec b 0) as [->|]; [done|]. cbn [digits]. pose proof (digits_pos b). lia.
Qed.

(** A quotient. *)
Lemma f_div_spec x y :
  canon x → canon y → 0 < val y → val x ≤ val y * 2 ^ 900 →
  canon (f_div x y)
  ∧ ∀ c t, 0 ≤ c < 2 ^ 53 → -1074 ≤ t →
      (val x * 2 ^ 1074 ≤ val y * (c * 2 ^ (t + 1074)) → val (f_div x y) ≤ c * 2 ^ (t + 1074))
      ∧ (val y * (c * 2 ^ (t + 1074)) ≤ val x * 2 ^ 1074 → c * 2 ^ (t + 1074) ≤ val (f_div x y)).
Proof.
  intros Hx Hy Hpos Hov. destruct y as [| | |[] my ey]; try done.
  destruct x as [sx| | |[] mx ex]; try done.
  { split; [done|]. intros c t Hc Ht. assert (0 ≤ 2 ^ (t + 1074)) by (apply Z.pow_nonneg; lia).
    change (val (f_div (S754_zero sx) (S754_finite false my ey))) with 0. change (val (S754_zero sx)) with 0.
    generalize dependent (val (S754_finite false my ey)). intros v Hv. split; nia. }
  pose proof (val_digits _ _ Hx) as [Hdx _]. pose proof (val_digits _ _ Hy) as [_ Hdy].
  pose proof (canon_exponent _ _ Hx) as (Hex & _). pose proof (canon_exponent _ _ Hy) as (Hey & _).
  pose proof (digits_bounds (Zpos mx) ltac:(lia)) as [Hx1 Hx2]. pose proof (digits_bounds (Zpos my) ltac:(lia)) as [Hy1 Hy2].
  pose proof (digits_pos (Zpos mx) ltac:(lia)). pose proof (digits_pos (Zpos my) ltac:(lia)).
  unfold f_div, SFdiv, SFdiv_core_binary.
  remember (digits (Zpos mx)) as d1 eqn:E1. remember (digits (Zpos my)) as d2 eqn:E2.
  remember (Z.min (fexp64 (d1 + ex - (d2 + ey))) (ex - ey)) as e' eqn:Ee. remember (ex - ey - e') as s eqn:Es.
  assert (match s with Z0 => Z.pos mx | Z.pos _ => Z.shiftl (Z.pos mx) s | Z.neg _ => 0 end = Zpos mx * 2 ^ s) as ->.
  { destruct s; [cbn; lia|rewrite Z.shiftl_mul_pow2 by lia; done|lia]. }
  set (N := Zpos mx * 2 ^ s). pose proof (Z_div_mod N (Zpos my) ltac:(lia)) as Hdm.
  destruct (Z.div_eucl N (Z.pos my)) as [q r]. destruct Hdm as [HN Hr]. cbn [xorb].
  assert (0 < N) as HN0 by (subst N; pose proof (Z.pow_pos_nonneg 2 s ltac:(lia) ltac:(lia)); nia).
  assert (0 ≤ q) as Hq by nia.
  assert (d1 + ex - (d2 + ey) ≤ 902) as Hgap.
  { assert (2 ^ (d1 + ex + 1073) < 2 ^ (d2 + ey + 1074 + 900)) as Hlt.
    { rewrite (Z.pow_add_r 2 (d2 + ey + 1074) 900) by lia. eapply Z.le_lt_trans; [exact Hdx|].
      eapply Z.le_lt_trans; [exact Hov|]. apply Z.mul_lt_mono_pos_r; [reflexivity|exact Hdy]. }
    apply Z.pow_lt_mono_r_iff in Hlt; lia. }
  assert (d1 + s - d2 ≤ digits q) as Hlow.
  { destruct (Z.le_gt_cases (d1 + s - d2) 0) as [|Hk].
    - destruct (Z.eq_dec q 0) as [->|]; [done|]. pose proof (digits_pos q). lia.
    - assert (2 ^ (d1 + s - d2 - 1) ≤ q) as Hqk; [|apply digits_ge_pow in Hqk; lia].
      destruct (Z.le_gt_cases (2 ^ (d1 + s - d2 - 1)) q) as [|Hlt]; [done|exfalso].
      assert (2 ^ (d1 - 1) * 2 ^ s = 2 ^ (d1 + s - d2 - 1) * 2 ^ d2) as E3 by (rewrite <- !Z.pow_add_r by lia; f_equal; lia).
      pose proof (Z.pow_pos_nonneg 2 s ltac:(lia) ltac:(lia)). subst N. nia. }
  assert (digits q ≤ Z.max 0 (d1 + s - d2 + 1)) as Hhigh.
  { destruct (Z.eq_dec q 0) as [->|]; [cbn [digits]; lia|].
    assert (q * 2 ^ (d2 - 1) < 2 ^ (d1 + s)) as Hlt.
    { rewrite Z.pow_add_r by lia. pose proof (Z.pow_pos_nonneg 2 s ltac:(lia) ltac:(lia)). subst N. nia. }
    pose proof (digits_bounds q ltac:(lia)) as [Hq1 _]. pose proof (digits_pos q ltac:(lia)).
    assert (2 ^ (digits q - 1 + (d2 - 1)) < 2 ^ (d1 + s)) as Hlt'.
    { rewrite Z.pow_add_r by lia. eapply Z.le_lt_trans; [|exact Hlt]. apply Z.mul_le_mono_nonneg_r; [apply Z.pow_nonneg; lia|done]. }
    apply Z.pow_lt_mono_r_iff in Hlt'; lia. }
  rewrite fexp64_eq in Ee.
  destruct (round_spec N (Zpos my) q e' (new_location (Zpos my) r)) as [Hp Hb]; [lia| |rewrite fexp64_eq; lia|lia|].
  { apply new_location_located; lia. }
  split; [done|]. intros c t Hc Ht.
  destruct (Hb c t (ey + 2148) Hc Ht ltac:(lia) ltac:(lia)) as [Hu Hl].
  assert (N * 2 ^ (e' + (ey + 2148)) = val (S754_finite false mx ex) * 2 ^ 1074) as EN.
  { subst N. unfold val. rewrite <- !Z.mul_assoc, <- !Z.pow_add_r by lia. do 2 f_equal. lia. }
  assert (Zpos my * c * 2 ^ (t + (ey + 2148)) = val (S754_finite false my ey) * (c * 2 ^ (t + 1074))) as ED.
  { unfold val. replace (t + (ey + 2148)) with (ey + 1074 + (t + 1074)) by lia. rewrite (Z.pow_add_r 2 (ey + 1074)) by lia. ring. }
  rewrite EN, ED in Hu, Hl. by split.
Qed.

(** A product. *)
Lemma f_mul_spec K x y :
  K ≤ 1000 → canon x → canon y → val x * val y < 2 ^ (K + 2148) →
  canon (f_mul x y)
  ∧ ∀ c t, 0 ≤ c < 2 ^ 53 → -1074 ≤ t →
      (val x * val y ≤ c * 2 ^ (t + 1074) * 2 ^ 1074 → val (f_mul x y) ≤ c * 2 ^ (t + 1074))
      ∧ (c * 2 ^ (t + 1074) * 2 ^ 1074 ≤ val x * val y → c * 2 ^ (t + 1074) ≤ val (f_mul x y)).
Proof.
  intros HK Hx Hy Hov.
  assert (val x = 0 ∨ val y = 0 → val (f_mul x y) = 0 ∧ canon (f_mul x y)) as H0.
  { destruct x as [| | |[] mx ex], y as [| | |[] my ey]; try done. intros [Hz|Hz]; exfalso; unfold val in Hz;
      [pose proof (canon_exponent _ _ Hx) as (Hex & _)|pose proof (canon_exponent _ _ Hy) as (Hey & _)].
    - pose proof (Z.pow_pos_nonneg 2 (ex + 1074)). nia.
    - pose proof (Z.pow_pos_nonneg 2 (ey + 1074)). nia. }
  destruct x as [sx| | |[] mx ex]; try done.
  { destruct (H0 (or_introl eq_refl)) as [-> ?]. split; [done|]. intros c t Hc Ht. change (val (S754_zero sx)) with 0.
    assert (0 ≤ 2 ^ (t + 1074)) by (apply Z.pow_nonneg; lia). split; [nia|]. intros Hz. apply (Z.mul_le_mono_pos_r _ 0 (2 ^ 1074)); [reflexivity|exact Hz]. }
  destruct y as [sy| | |[] my ey]; try done.
  { destruct (H0 (or_intror eq_refl)) as [-> ?]. split; [done|]. intros c t Hc Ht. change (val (S754_zero sy)) with 0.
    rewrite Z.mul_0_r. assert (0 ≤ 2 ^ (t + 1074)) by (apply Z.pow_nonneg; lia). split; [nia|].
    intros Hz. apply (Z.mul_le_mono_pos_r _ 0 (2 ^ 1074)); [reflexivity|exact Hz]. }
  clear H0. pose proof (canon_exponent _ _ Hx) as (Hex & _ & Hcx). pose proof (canon_exponent _ _ Hy) as (Hey & _ & Hcy).
  unfold f_mul, SFmul. cbn [xorb].
  assert (val (S754_finite false mx ex) * val (S754_finite false my ey) = Zpos (mx * my) * 2 ^ (ex + ey + 2148)) as E.
  { unfold val. rewrite Pos2Z.inj_mul. replace (ex + ey + 2148) with (ex + 1074 + (ey + 1074)) by lia. rewrite (Z.pow_add_r 2 (ex + 1074)) by lia. ring. }
  pose proof (digits_bounds (Zpos (mx * my)) ltac:(lia)) as [Hd _]. pose proof (digits_pos (Zpos (mx * my)) ltac:(lia)).
  assert (digits (Zpos (mx * my)) + (ex + ey) ≤ 1000) as Hdig.
  { assert (2 ^ (digits (Zpos (mx * my)) - 1 + (ex + ey + 2148)) < 2 ^ (K + 2148)) as H2.
    { rewrite Z.pow_add_r by lia. eapply Z.le_lt_trans; [|exact Hov]. rewrite E. apply Z.mul_le_mono_nonneg_r; [apply Z.pow_nonneg; lia|done]. }
    destruct (Z.lt_ge_cases (K + 2148) 0) as [Hn|Hn]; [rewrite (Z.pow_neg_r 2 (K + 2148)) in H2 by done; lia|].
    apply Z.pow_lt_mono_r_iff in H2; lia. }
  destruct (round_spec (Zpos (mx * my)) 1 (Zpos (mx * my)) (ex + ey) loc_Exact) as [Hp Hb]; [lia|apply located_exact; lia| |done|].
  { rewrite fexp64_eq. destruct Hcx as [->|Hcx]; [destruct Hcy as [->|Hcy]; [lia|]|].
    - assert (52 + 1 ≤ digits (Zpos (mx * my))) by (apply digits_ge_pow; [lia|]; rewrite Pos2Z.inj_mul; nia). lia.
    - assert (52 + 1 ≤ digits (Zpos (mx * my))) by (apply digits_ge_pow; [lia|]; rewrite Pos2Z.inj_mul; nia). lia. }
  split; [done|]. intros c t Hc Ht. destruct (Hb c t 2148 Hc Ht ltac:(lia) ltac:(lia)) as [Hu Hl].
  rewrite E. assert (1 * c * 2 ^ (t + 2148) = c * 2 ^ (t + 1074) * 2 ^ 1074) as ED.
  { rewrite Z.mul_1_l, <- Z.mul_assoc, <- Z.pow_add_r by lia. do 2 f_equal. lia. }
  rewrite ED in Hu, Hl. by split.
Qed.

(** Comparison of canonical numbers is comparison of values. *)
Lemma f_ltb_val x y : canon x → canon y → f_ltb x y = (val x <? val y).
Proof.
  intros Hx Hy. unfold f_ltb, SFltb.
  assert (∀ m e, canon (S754_finite false m e) → 0 < val (S754_finite false m e)) as Hv.
  { intros m e (He & _)%canon_exponent. unfold val. pose proof (Z.pow_pos_nonneg 2 (e + 1074)). nia. }
  destruct x as [sx| | |[] mx ex]; try done; (destruct y as [sy| | |[] my ey]; try done); cbn [SFcompare].
  - specialize (Hv _ _ Hy). symmetry. by apply Z.ltb_lt.
  - specialize (Hv _ _ Hx). symmetry. apply Z.ltb_ge. change (val (S754_zero sy)) with 0. lia.
  - pose proof (canon_exponent _ _ Hx) as (Hex & Hmx & Hcx). pose proof (canon_exponent _ _ Hy) as (Hey & Hmy & Hcy).
    assert (∀ m e m' e', -1074 ≤ e → e < e' → Zpos m < 2 ^ 53 → 2 ^ 52 ≤ Zpos m' → Zpos m * 2 ^ (e + 1074) < Zpos m' * 2 ^ (e' + 1074)) as Hlt.
    { intros m e m' e' H1 H2 H3 H4. replace (e' + 1074) with (e + 1074 + 1 + (e' - e - 1)) by lia.
      rewrite (Z.pow_add_r 2 (e + 1074 + 1)), (Z.pow_add_r 2 (e + 1074)) by lia. 
      pose proof (Z.pow_pos_nonneg 2 (e + 1074) ltac:(lia) ltac:(lia)). pose proof (Z.pow_pos_nonneg 2 (e' - e - 1) ltac:(lia) ltac:(lia)).
      change (2 ^ 1) with 2. change (2 ^ 53) with (2 ^ 52 * 2) in H3. generalize dependent (2 ^ (e + 1074)). generalize dependent (2 ^ (e' - e - 1)).
      intros Q HQ P HP. apply Z.lt_le_trans with (2 ^ 52 * 2 * P).
      - apply Z.mul_lt_mono_pos_r; lia.
      - replace (Z.pos m' * (P * 2 * Q)) with (Z.pos m' * Q * 2 * P) by ring. apply Z.mul_le_mono_nonneg_r; [lia|]. nia. }
    unfold val. destruct (Z.compare_spec ex ey) as [->|He|He].
    + change (Pos.compare_cont Eq mx my) with (Pos.compare mx my). pose proof (Z.pow_pos_nonneg 2 (ey + 1074)).
      destruct (Pos.compare_spec mx my); symmetry; rewrite ?Z.ltb_lt, ?Z.ltb_ge; subst; try lia; nia.
    + symmetry. apply Z.ltb_lt. apply Hlt; [lia|lia|done|]. destruct Hcy; [lia|done].
    + symmetry. apply Z.ltb_ge. apply Z.lt_le_incl, Hlt; [lia|lia|done|]. destruct Hcx; [lia|done].
Qed.
