(* ===== verification/NetAddr.v ===== *)
(** Go's [net] and [net/netip] address layer, as far as the Steward sources
    use it: address values as byte lists, parsing and printing of IPv4 and
    IPv6 literals, masks, CIDR parsing, membership, and the address-class
    predicates.  [Cidr] builds on it. *)

From S2P Require Import Prelude.

Open Scope Z_scope.

(** * Address values

    A [net.IP] is a byte slice of length 4 or 16; [nil] is [None] where a
    function can return it. *)

Abbreviation ip := (list Z).

Abbreviation ip_wf := (Forall is_byte).

Definition v4InV6Prefix : list Z := [0;0;0;0;0;0;0;0;0;0;255;255].

(** [netip.Addr.As16] of an IPv4 address / [net.IPv4]. *)
Definition IPv4 (a b c d : Z) : ip := v4InV6Prefix ++ [a; b; c; d].

Definition IPv4zero : ip := IPv4 0 0 0 0.
Definition IPv4bcast : ip := IPv4 255 255 255 255.
Definition IPv6unspecified : ip := replicate 16 0.
Definition IPv6loopback : ip := replicate 15 0 ++ [1].

Definition bytes_eqb (a b : list Z) : bool := bool_decide (a = b).

Definition To4 (a : ip) : option ip :=
  if (length a =? 4)%nat then Some a
  else if (length a =? 16)%nat && bytes_eqb (take 12 a) v4InV6Prefix
  then Some (drop 12 a)
  else None.

Definition ip_equal (a x : ip) : bool :=
  if (length a =? length x)%nat then bytes_eqb a x
  else if (length a =? 4)%nat && (length x =? 16)%nat
  then bytes_eqb (take 12 x) v4InV6Prefix && bytes_eqb a (drop 12 x)
  else if (length a =? 16)%nat && (length x =? 4)%nat
  then bytes_eqb (take 12 a) v4InV6Prefix && bytes_eqb (drop 12 a) x
  else false.

Definition byte_at (a : ip) (i : nat) : Z := default 0 (a !! i).

Definition IsUnspecified (a : ip) : bool :=
  ip_equal a IPv4zero || ip_equal a IPv6unspecified.

Definition IsLoopback (a : ip) : bool :=
  match To4 a with
  | Some v4 => byte_at v4 0 =? 127
  | None => ip_equal a IPv6loopback
  end.

Definition IsLinkLocalUnicast (a : ip) : bool :=
  match To4 a with
  | Some v4 => (byte_at v4 0 =? 169) && (byte_at v4 1 =? 254)
  | None => (length a =? 16)%nat && (byte_at a 0 =? 254)
            && (Z.land (byte_at a 1) 192 =? 128)
  end.

Definition IsMulticast (a : ip) : bool :=
  match To4 a with
  | Some v4 => Z.land (byte_at v4 0) 240 =? 224
  | None => (length a =? 16)%nat && (byte_at a 0 =? 255)
  end.

(** * Parsing *)

(** [netip.parseIPv4Fields]: state is the fields read so far, the current
    octet and its digit count, and whether the previous byte was a dot
    ([true] at the start, which covers the [i == 0] guard). *)
Fixpoint parseIPv4Fields (s : string) (fields : list Z) (val : Z)
    (digLen : nat) (prevDot : bool) : option (list Z) :=
  match s with
  | EmptyString =>
      if (length fields <? 3)%nat then None else Some (fields ++ [val])
  | String c s' =>
      if is_digit c then
        if (digLen =? 1)%nat && (val =? 0) then None
        else let val' := val * 10 + (ascii_Z c - 48) in
             if 255 <? val' then None
             else parseIPv4Fields s' fields val' (S digLen) false
      else if char_eqb c "."%char then
        if prevDot || match s' with EmptyString => true | _ => false end then None
        else if (length fields =? 3)%nat then None
        else parseIPv4Fields s' (fields ++ [val]) 0 0 true
      else None
  end.

Definition parseIPv4 (s : string) : option ip := parseIPv4Fields s [] 0 0 true.

Definition hex_digit (c : ascii) : option Z :=
  let x := ascii_Z c in
  if (48 <=? x) && (x <=? 57) then Some (x - 48)
  else if (97 <=? x) && (x <=? 102) then Some (x - 97 + 10)
  else if (65 <=? x) && (x <=? 70) then Some (x - 65 + 10)
  else None.

(** One group of [netip.parseIPv6]: the digits read ([off]), the accumulated
    value, and the rest; [None] when a group has more than four digits. *)
Fixpoint parse_group (s : string) (off : nat) (acc : Z) : option (nat * Z * string) :=
  match s with
  | EmptyString => Some (off, acc, s)
  | String c s' =>
      match hex_digit c with
      | None => Some (off, acc, s)
      | Some d =>
          let acc' := acc * 16 + d in
          if (3 <? off)%nat then None
          else if 65535 <? acc' then None
          else parse_group s' (S off) acc'
      end
  end.

(** The group loop of [netip.parseIPv6]: [out] holds the bytes written so far
    (its length is the Go index [i]), [ell] the ellipsis position.  Each
    iteration writes two bytes, so eight iterations fill the address. *)
Fixpoint parseIPv6_loop (fuel : nat) (s : string) (out : list Z)
    (ell : option nat) : option (list Z * option nat * string) :=
  match fuel with
  | O => Some (out, ell, s)
  | S fuel' =>
      match parse_group s 0 0 with
      | None => None
      | Some (off, acc, rest) =>
          if (off =? 0)%nat then None else
          match rest with
          | EmptyString =>
              Some (out ++ [acc / 256; acc `mod` 256], ell, EmptyString)
          | String c rest' =>
              if char_eqb c "."%char then
                if bool_decide (ell = None) && negb (length out =? 12)%nat then None
                else if (16 <? length out + 4)%nat then None
                else match parseIPv4Fields s [] 0 0 true with
                     | None => None
                     | Some v4 => Some (out ++ v4, ell, EmptyString)
                     end
              else
                let out' := out ++ [acc / 256; acc `mod` 256] in
                if negb (char_eqb c ":"%char) then None else
                match rest' with
                | EmptyString => None
                | String c2 rest2 =>
                    if char_eqb c2 ":"%char then
                      match ell with
                      | Some _ => None
                      | None =>
                          match rest2 with
                          | EmptyString => Some (out', Some (length out'), EmptyString)
                          | _ => parseIPv6_loop fuel' rest2 out' (Some (length out'))
                          end
                      end
                    else parseIPv6_loop fuel' rest' out' ell
                end
          end
      end
  end.

(** The tail of [netip.parseIPv6]: unread input, ellipsis expansion. *)
Definition parseIPv6_finish (r : list Z * option nat * string) : option ip :=
  let '(out, ell, s) := r in
  match s with
  | String _ _ => None
  | EmptyString =>
      if (length out <? 16)%nat then
        match ell with
        | None => None
        | Some e => Some (take e out ++ replicate (16 - length out) 0 ++ drop e out)
        end
      else match ell with Some _ => None | None => Some out end
  end.

(** [netip.parseIPv6] on a literal without a zone. *)
Definition parseIPv6 (s : string) : option ip :=
  match s with
  | String a (String b s') =>
      if char_eqb a ":"%char && char_eqb b ":"%char then
        match s' with
        | EmptyString => Some IPv6unspecified
        | _ => parseIPv6_loop 8 s' [] (Some 0%nat) ≫= parseIPv6_finish
        end
      else parseIPv6_loop 8 s [] None ≫= parseIPv6_finish
  | _ => parseIPv6_loop 8 s [] None ≫= parseIPv6_finish
  end.

(** The dispatch of [netip.ParseAddr] on the first ['.'], [':'] or ['%']. *)
Inductive addr_kind := KindV4 | KindV6 | KindNone.

Fixpoint addr_kind_of (s : string) : addr_kind :=
  match s with
  | EmptyString => KindNone
  | String c s' =>
      if char_eqb c "."%char then KindV4
      else if char_eqb c ":"%char then KindV6
      else if char_eqb c "%"%char then KindNone
      else addr_kind_of s'
  end.

(** [netip.ParseAddr] followed by the zone rejection both callers perform
    ([net.parseIP], [net.ParseCIDR]): the parsed bytes, 4 for an IPv4 literal
    and 16 for an IPv6 literal (so the length is [BitLen / 8]). *)
Definition ParseAddr (s : string) : option ip :=
  match addr_kind_of s with
  | KindV4 => parseIPv4 s
  | KindV6 => if str_mem "%"%char s then None else parseIPv6 s
  | KindNone => None
  end.

Definition As16 (a : ip) : ip :=
  if (length a =? 4)%nat then v4InV6Prefix ++ a else a.

(** [net.ParseIP]: always the 16-byte form. *)
Definition ParseIP (s : string) : option ip := As16 <$> ParseAddr s.

(** * Masks and networks *)

Record IPNet := mkIPNet { net_IP : ip; net_Mask : list Z }.

#[export] Instance IPNet_eq_dec : EqDecision IPNet.
Proof. solve_decision. Defined.

(** [net.CIDRMask]: [l] is the byte length. *)
Fixpoint CIDRMask (n : Z) (l : nat) : list Z :=
  match l with
  | O => []
  | S l' => if 8 <=? n then 255 :: CIDRMask (n - 8) l'
            else (255 - Z.shiftr 255 n) :: CIDRMask 0 l'
  end.

(** [net.IPMask.Size] on the masks [CIDRMask] builds: ones and bits;
    [simpleMaskLength] counts the leading one bits and answers [(0,0)] for a
    mask that is not of that form. *)
Fixpoint byte_ones (fuel : nat) (b : Z) : Z :=
  match fuel with
  | O => 0
  | S f => if Z.land b 128 =? 0 then 0
           else 1 + byte_ones f (u8 (Z.shiftl b 1))
  end.

Fixpoint simpleMaskLength (m : list Z) : option Z :=
  match m with
  | [] => Some 0
  | b :: m' =>
      if b =? 255 then Z.add 8 <$> simpleMaskLength m'
      else let n := byte_ones 8 b in
           if (u8 (Z.shiftl b n) =? 0) && forallb (Z.eqb 0) m' then Some n else None
  end.

Definition MaskSize (m : list Z) : Z * Z :=
  match simpleMaskLength m with
  | Some n => (n, 8 * Z.of_nat (length m))
  | None => (0, 0)
  end.

Definition and_bytes (a m : list Z) : list Z := zip_with Z.land a m.

(** [net.IP.Mask]. *)
Definition IPMask (a : ip) (m : list Z) : option ip :=
  let m := if (length m =? 16)%nat && (length a =? 4)%nat
              && forallb (Z.eqb 255) (take 12 m)
           then drop 12 m else m in
  let a := if (length m =? 4)%nat && (length a =? 16)%nat
              && bytes_eqb (take 12 a) v4InV6Prefix
           then drop 12 a else a in
  if (length a =? length m)%nat then Some (and_bytes a m) else None.

(** [net.dtoi]: the value and the number of bytes read. *)
Fixpoint dtoi_loop (s : string) (n : Z) (i : nat) : option (Z * nat) :=
  match s with
  | String c s' =>
      if is_digit c then
        let n' := n * 10 + (ascii_Z c - 48) in
        if 16777215 <=? n' then None else dtoi_loop s' n' (S i)
      else Some (n, i)
  | EmptyString => Some (n, i)
  end.

Definition dtoi (s : string) : option (Z * nat) :=
  match dtoi_loop s 0 0 with
  | Some (n, S i) => Some (n, S i)
  | _ => None
  end.

(** [net.ParseCIDR], reduced to the [*IPNet] result the sources keep. *)
Definition ParseCIDR (s : string) : option IPNet :=
  match cut_at "/"%char s with
  | None => None
  | Some (addr, mask) =>
      match ParseAddr addr, dtoi mask with
      | Some a, Some (n, i) =>
          if negb (i =? String.length mask)%nat
             || (8 * Z.of_nat (length a) <? n) then None
          else let m := CIDRMask n (length a) in
               match IPMask (As16 a) m with
               | Some base => Some (mkIPNet base m)
               | None => None
               end
      | _, _ => None
      end
  end.

(** [net.networkNumberAndMask]. *)
Definition networkNumberAndMask (n : IPNet) : option (ip * list Z) :=
  let number := match To4 (net_IP n) with
                | Some v4 => Some v4
                | None => if (length (net_IP n) =? 16)%nat then Some (net_IP n) else None
                end in
  match number with
  | None => None
  | Some a =>
      if (length (net_Mask n) =? 4)%nat then
        if (length a =? 4)%nat then Some (a, net_Mask n) else None
      else if (length (net_Mask n) =? 16)%nat then
        if (length a =? 4)%nat then Some (a, drop 12 (net_Mask n))
        else Some (a, net_Mask n)
      else None
  end.

(** [net.IPNet.Contains]. *)
Definition Contains (n : IPNet) (a : ip) : bool :=
  let a := default a (To4 a) in
  match networkNumberAndMask n with
  | None => (length a =? 0)%nat
  | Some (nn, m) =>
      (length a =? length nn)%nat && bytes_eqb (and_bytes nn m) (and_bytes a m)
  end.

(** * Printing *)

Definition dotted (a : ip) : string :=
  join "." (itoa <$> a).

Definition hex_char (d : Z) : ascii :=
  ascii_of_N (Z.to_N (if d <? 10 then 48 + d else 97 + (d - 10))).

(** [netip.appendHex]: a 16-bit value without leading zeros. *)
Definition group_hex (x : Z) : string :=
  let d3 := String (hex_char (x / 4096)) "" in
  let d2 := String (hex_char ((x / 256) `mod` 16)) "" in
  let d1 := String (hex_char ((x / 16) `mod` 16)) "" in
  let d0 := String (hex_char (x `mod` 16)) "" in
  (if 4096 <=? x then d3 else "") +:+ (if 256 <=? x then d2 else "")
  +:+ (if 16 <=? x then d1 else "") +:+ d0.

Definition v6u16 (a : ip) (i : nat) : Z :=
  byte_at a (2 * i) * 256 + byte_at a (2 * i + 1).

(** Length of the run of zero groups starting at group [i] (of [k] left). *)
Fixpoint zero_run (a : ip) (i k : nat) : nat :=
  match k with
  | O => 0
  | S k' => if v6u16 a i =? 0 then S (zero_run a (S i) k') else 0
  end.

(** The longest run of at least two zero groups, the first one on a tie. *)
Definition longest_zeros (a : ip) : option (nat * nat) :=
  fold_left (fun best i =>
    let l := zero_run a i (8 - i) in
    let cur := match best with Some (s, e) => (e - s)%nat | None => 0%nat end in
    if (2 <=? l)%nat && (cur <? l)%nat then Some (i, (i + l)%nat) else best)
    (seq 0 8) None.

(** [netip.Addr.appendTo6]. *)
Fixpoint v6_groups (a : ip) (zeros : option (nat * nat)) (fuel i : nat) : string :=
  match fuel with
  | O => ""
  | S fuel' =>
      if (8 <=? i)%nat then ""
      else match zeros with
           | Some (zs, ze) =>
               if (i =? zs)%nat then
                 if (8 <=? ze)%nat then "::"
                 else "::" +:+ group_hex (v6u16 a ze) +:+ v6_groups a zeros fuel' (S ze)
               else (if (0 <? i)%nat then ":" else "")
                    +:+ group_hex (v6u16 a i) +:+ v6_groups a zeros fuel' (S i)
           | None => (if (0 <? i)%nat then ":" else "")
                     +:+ group_hex (v6u16 a i) +:+ v6_groups a zeros fuel' (S i)
           end
  end.

Fixpoint hex_bytes (a : list Z) : string :=
  match a with
  | [] => ""
  | b :: a' => String (hex_char (b / 16)) (String (hex_char (b `mod` 16)) (hex_bytes a'))
  end.

(** [net.IP.String]. *)
Definition ip_string (a : ip) : string :=
  match a with
  | [] => "<nil>"
  | _ => match To4 a with
         | Some v4 => dotted v4
         | None => if (length a =? 16)%nat
                   then v6_groups a (longest_zeros a) 9 0
                   else "?" +:+ hex_bytes a
         end
  end.

(** * Byte lists as big-endian integers *)

Fixpoint be_val (a : list Z) : Z :=
  match a with
  | [] => 0
  | b :: a' => b * 2 ^ (8 * Z.of_nat (length a')) + be_val a'
  end.

Fixpoint be_bytes (l : nat) (v : Z) : list Z :=
  match l with
  | O => []
  | S l' => (v / 2 ^ (8 * Z.of_nat l')) `mod` 256 :: be_bytes l' v
  end.

Lemma be_val_range a : ip_wf a → 0 ≤ be_val a < 2 ^ (8 * Z.of_nat (length a)).
Proof.
  induction 1 as [|b a Hb _ IH]; simpl; [lia|].
  replace (8 * Z.of_nat (S (length a))) with (8 + 8 * Z.of_nat (length a)) by lia.
  rewrite Z.pow_add_r by lia. unfold is_byte in Hb. nia.
Qed.

Lemma length_be_bytes l v : length (be_bytes l v) = l.
Proof. induction l; simpl; congruence. Qed.

Lemma be_bytes_wf l v : ip_wf (be_bytes l v).
Proof.
  induction l as [|l IH]; simpl; constructor; [|done].
  unfold is_byte. apply Z.mod_pos_bound. lia.
Qed.

Lemma be_val_bytes l v : be_val (be_bytes l v) = v `mod` 2 ^ (8 * Z.of_nat l).
Proof.
  induction l as [|l IH]; simpl; [by rewrite Z.mod_1_r|].
  rewrite IH, length_be_bytes.
  replace (8 * Z.of_nat (S l)) with (8 * Z.of_nat l + 8) by lia.
  rewrite Z.pow_add_r, Z.rem_mul_r by lia. change (2 ^ 8) with 256. lia.
Qed.

Lemma be_bytes_add l b v :
  be_bytes l (b * 2 ^ (8 * Z.of_nat l) + v) = be_bytes l v.
Proof.
  assert (∀ k, (k ≤ l)%nat →
    be_bytes k (b * 2 ^ (8 * Z.of_nat l) + v) = be_bytes k v) as H; [|by apply H].
  induction k as [|k IH]; simpl; intros Hk; [done|]. rewrite IH by lia. f_equal.
  replace (8 * Z.of_nat l) with (8 * Z.of_nat k + (8 + 8 * Z.of_nat (l - S k))) by lia.
  rewrite Z.pow_add_r, (Z.pow_add_r 2 8) by lia.
  set (w := 2 ^ (8 * Z.of_nat (l - S k))).
  replace (b * (2 ^ (8 * Z.of_nat k) * (2 ^ 8 * w)) + v)
    with (v + (b * w * 256) * 2 ^ (8 * Z.of_nat k)) by lia.
  rewrite Z.div_add by lia. apply Z.mod_add. lia.
Qed.

Lemma be_bytes_val a : ip_wf a → be_bytes (length a) (be_val a) = a.
Proof.
  induction 1 as [|b a Hb Ha IH]; simpl; [done|].
  rewrite be_bytes_add, IH. f_equal.
  pose proof (be_val_range a Ha) as Hv. unfold is_byte in Hb.
  rewrite Z.div_add_l, Z.div_small by lia. rewrite Z.add_0_r. apply Z.mod_small. lia.
Qed.

Lemma be_val_inj a b :
  ip_wf a → ip_wf b → length a = length b → be_val a = be_val b → a = b.
Proof.
  intros Ha Hb Hl Hv. rewrite <- (be_bytes_val a Ha), <- (be_bytes_val b Hb).
  by rewrite Hl, Hv.
Qed.

(** * Masks as truncation *)

Definition trunc (h v : Z) : Z := v / 2 ^ h * 2 ^ h.

Lemma trunc_le h v : 0 ≤ h → trunc h v ≤ v < trunc h v + 2 ^ h.
Proof.
  intros Hh. unfold trunc.
  pose proof (Z.div_mod v (2 ^ h)) as E. pose proof (Z.mod_pos_bound v (2 ^ h)). lia.
Qed.

Lemma trunc_idemp h v k : 0 ≤ h → 0 ≤ k < 2 ^ h → trunc h (trunc h v + k) = trunc h v.
Proof.
  intros Hh Hk. unfold trunc.
  rewrite Z.div_add_l, (Z.div_small k) by lia. by rewrite Z.add_0_r.
Qed.

Lemma mask_byte n b :
  0 ≤ n < 8 → is_byte b → Z.land b (255 - Z.shiftr 255 n) = trunc (8 - n) b.
Proof.
  intros Hn Hb.
  pose proof (byte_forall (fun b => forallb (fun n =>
    Z.land b (255 - Z.shiftr 255 n) =? trunc (8 - n) b) (seqZ 0 8))
    ltac:(vm_compute; reflexivity) b Hb) as H. cbv beta in H.
  rewrite forallb_forall in H. apply Z.eqb_eq, H, list_elem_of_In, elem_of_seqZ. lia.
Qed.

Lemma land_255 b : is_byte b → Z.land b 255 = b.
Proof.
  intros Hb. change 255 with (Z.ones 8). rewrite Z.land_ones by lia.
  by apply u8_id in Hb.
Qed.

Lemma CIDRMask_length n l : length (CIDRMask n l) = l.
Proof. revert n; induction l; intros n; simpl; [done|]. case_match; simpl; auto. Qed.

Lemma and_CIDRMask a n :
  ip_wf a → 0 ≤ n ≤ 8 * Z.of_nat (length a) →
  be_val (and_bytes a (CIDRMask n (length a)))
  = trunc (8 * Z.of_nat (length a) - n) (be_val a).
Proof.
  intros Ha. revert n. induction Ha as [|b a Hb Ha IH]; intros n Hn.
  { simpl in *. unfold trunc. by rewrite Z.div_0_l by lia. }
  pose proof (be_val_range a Ha) as Hr. simpl in Hn |- *.
  set (L := 8 * Z.of_nat (length a)) in *.
  replace (8 * Z.of_nat (S (length a))) with (L + 8) in * by lia.
  destruct (8 <=? n) eqn:E; simpl; unfold and_bytes;
    rewrite length_zip_with, CIDRMask_length, Nat.min_id; fold L; unfold and_bytes in IH.
  - apply Z.leb_le in E. rewrite IH by lia.
    replace (L - (n - 8)) with (L + 8 - n) by lia. set (h := L + 8 - n).
    rewrite land_255 by done.
    unfold trunc. replace L with (h + (L - h)) by lia.
    rewrite Z.pow_add_r by lia.
    replace (b * (2 ^ h * 2 ^ (L - h)) + be_val a)
      with (b * 2 ^ (L - h) * 2 ^ h + be_val a) by lia.
    rewrite Z.div_add_l by lia. lia.
  - apply Z.leb_gt in E. rewrite IH by lia. rewrite mask_byte by (done || lia).
    assert (trunc (L - 0) (be_val a) = 0) as ->.
    { unfold trunc. rewrite Z.sub_0_r, Z.div_small by lia. lia. }
    unfold trunc. replace (L + 8 - n) with (L + (8 - n)) by lia.
    rewrite (Z.pow_add_r 2 L) by lia.
    assert (0 < 2 ^ (8 - n)) by (apply Z.pow_pos_nonneg; lia).
    rewrite <- Z.div_div by lia.
    rewrite (Z.div_add_l b), (Z.div_small (be_val a)), !Z.add_0_r by lia. lia.
Qed.

Lemma and_CIDRMask_wf a n : ip_wf a → 0 ≤ n → ip_wf (and_bytes a (CIDRMask n (length a))).
Proof.
  intros Ha. revert n. induction Ha as [|b a Hb Ha IH]; intros n Hn; simpl; [constructor|].
  destruct (8 <=? n) eqn:E; simpl; constructor; try (apply IH; lia).
  - by rewrite land_255.
  - apply Z.leb_gt in E. rewrite mask_byte by (done || lia).
    pose proof (trunc_le (8 - n) b). unfold is_byte, trunc in *.
    pose proof (Z.div_pos b (2 ^ (8 - n))). nia.
Qed.

Lemma CIDRMask_0 l : CIDRMask 0 l = replicate l 0.
Proof. induction l; simpl; [done|]. f_equal; done. Qed.

Lemma simpleMaskLength_CIDRMask n l :
  0 ≤ n ≤ 8 * Z.of_nat l → simpleMaskLength (CIDRMask n l) = Some n.
Proof.
  revert n. induction l as [|l IH]; intros n Hn; simpl.
  { f_equal. lia. }
  destruct (8 <=? n) eqn:E.
  - apply Z.leb_le in E. simpl. rewrite IH by lia. simpl. f_equal. lia.
  - apply Z.leb_gt in E. rewrite CIDRMask_0. simpl.
    assert (forallb (Z.eqb 0) (replicate l 0) = true) as Hz.
    { clear. induction l; simpl; auto. }
    assert (n ∈ seqZ 0 8) as Hin by (apply elem_of_seqZ; lia).
    repeat (apply elem_of_cons in Hin; destruct Hin as [->|Hin];
      [vm_compute (byte_ones _ _); vm_compute (_ =? 255);
       simpl; rewrite Hz; reflexivity|]).
    by apply elem_of_nil in Hin.
Qed.

Lemma MaskSize_CIDRMask n l :
  0 ≤ n ≤ 8 * Z.of_nat l → MaskSize (CIDRMask n l) = (n, 8 * Z.of_nat l).
Proof.
  intros Hn. unfold MaskSize. by rewrite simpleMaskLength_CIDRMask, CIDRMask_length.
Qed.

(** * The IPv4 text round trip *)

Definition dig (k : Z) : ascii := ascii_of_N (Z.to_N (48 + k)).

(** The decimal form of an octet, digit by digit. *)
Definition octet (x : Z) (rest : string) : string :=
  if x <? 10 then String (dig x) rest
  else if x <? 100 then String (dig (x / 10)) (String (dig (x `mod` 10)) rest)
  else String (dig (x / 100)) (String (dig ((x / 10) `mod` 10)) (String (dig (x `mod` 10)) rest)).

Lemma octet_app x r s : octet x r +:+ s = octet x (r +:+ s).
Proof. unfold octet. by repeat case_match. Qed.

Lemma itoa_octet x : is_byte x → itoa x = octet x "".
Proof.
  intros Hx.
  pose proof (byte_forall (fun x => String.eqb (itoa x) (octet x ""))
    ltac:(vm_compute; reflexivity) x Hx) as H. by apply String.eqb_eq in H.
Qed.

Lemma dig_spec k : 0 ≤ k < 10 →
  ascii_Z (dig k) = 48 + k ∧ is_digit (dig k) = true ∧
  char_eqb (dig k) "."%char = false ∧ char_eqb (dig k) ":"%char = false ∧
  char_eqb (dig k) "%"%char = false.
Proof.
  intros Hk. assert (k ∈ seqZ 0 10) as Hin by (apply elem_of_seqZ; lia).
  repeat (apply elem_of_cons in Hin; destruct Hin as [->|Hin]; [by vm_compute|]).
  by apply elem_of_nil in Hin.
Qed.

Lemma parse_dig k s fields val n dot :
  0 ≤ k < 10 → n ≠ 1%nat ∨ val ≠ 0 → val * 10 + k ≤ 255 →
  parseIPv4Fields (String (dig k) s) fields val n dot =
  parseIPv4Fields s fields (val * 10 + k) (S n) false.
Proof.
  intros Hk Hn Hv. destruct (dig_spec k Hk) as (E & Hd & _). simpl. rewrite Hd, E.
  replace (48 + k - 48) with k by lia.
  destruct ((n =? 1)%nat && (val =? 0)) eqn:F.
  { apply andb_true_iff in F as [F1%Nat.eqb_eq F2%Z.eqb_eq]. lia. }
  by destruct (Z.ltb_spec 255 (val * 10 + k)); [lia|].
Qed.

Lemma parse_octet x s fields dot : is_byte x →
  ∃ n, (0 < n)%nat ∧
  parseIPv4Fields (octet x s) fields 0 0 dot = parseIPv4Fields s fields x n false.
Proof.
  intros Hx. unfold is_byte in Hx. unfold octet.
  pose proof (Z.div_mod x 10 ltac:(lia)) as D.
  pose proof (Z.mod_pos_bound x 10 ltac:(lia)).
  destruct (Z.ltb_spec x 10) as [E1|E1]; [|destruct (Z.ltb_spec x 100) as [E2|E2]].
  - exists 1%nat. split; [lia|]. by rewrite parse_dig by lia.
  - exists 2%nat. split; [lia|]. rewrite !parse_dig by lia. by f_equal; lia.
  - exists 3%nat. split; [lia|].
    pose proof (Z.div_mod (x / 10) 10 ltac:(lia)) as D2.
    rewrite Z.div_div in D2 by lia. change (10 * 10) with 100 in D2.
    pose proof (Z.mod_pos_bound (x / 10) 10 ltac:(lia)).
    rewrite !parse_dig by lia. by f_equal; lia.
Qed.

Lemma octet_kind x s : is_byte x → addr_kind_of (octet x s) = addr_kind_of s.
Proof.
  intros Hx. unfold is_byte in Hx.
  assert (∀ k t, 0 ≤ k < 10 → addr_kind_of (String (dig k) t) = addr_kind_of t) as H.
  { intros k t Hk. destruct (dig_spec k Hk) as (_ & _ & E1 & E2 & E3).
    simpl. by rewrite E1, E2, E3. }
  pose proof (Z.mod_pos_bound x 10 ltac:(lia)).
  pose proof (Z.mod_pos_bound (x / 10) 10 ltac:(lia)).
  pose proof (Z.div_mod x 10 ltac:(lia)). pose proof (Z.div_mod x 100 ltac:(lia)).
  pose proof (Z.mod_pos_bound x 100 ltac:(lia)).
  unfold octet. destruct (Z.ltb_spec x 10); [|destruct (Z.ltb_spec x 100)];
    rewrite !H by lia; done.
Qed.

Lemma parse_dot s fields val n :
  s ≠ "" → (length fields < 3)%nat →
  parseIPv4Fields (String "."%char s) fields val n false
  = parseIPv4Fields s (fields ++ [val]) 0 0 true.
Proof.
  intros Hs Hl. simpl. destruct s; [done|].
  by destruct (Nat.eqb_spec (length fields) 3); [lia|].
Qed.

Lemma octet_ne x s : octet x s ≠ "".
Proof. unfold octet. by repeat case_match. Qed.

Lemma dotted_octets a b c d : ip_wf [a; b; c; d] →
  dotted [a; b; c; d] = octet a (String "."%char (octet b (String "."%char (octet c (String "."%char (octet d "")))))).
Proof.
  intros H. rewrite !Forall_cons_iff in H; destruct_and!. unfold dotted. simpl.
  rewrite !itoa_octet by done. by rewrite !octet_app.
Qed.

Lemma ip4_inv (a : ip) : length a = 4%nat → ∃ w x y z, a = [w; x; y; z].
Proof.
  destruct a as [|w [|x [|y [|z [|]]]]]; simpl; try done. by intros _; exists w, x, y, z.
Qed.

Lemma ParseAddr_dotted a : ip_wf a → length a = 4%nat → ParseAddr (dotted a) = Some a.
Proof.
  intros Ha Hl. destruct (ip4_inv a Hl) as (w & x & y & z & ->).
  rewrite dotted_octets by done. rewrite !Forall_cons_iff in Ha; destruct_and!.
  unfold ParseAddr. rewrite octet_kind by done. simpl addr_kind_of. unfold parseIPv4.
  destruct (parse_octet w (String "."%char (octet x (String "."%char (octet y (String "."%char (octet z "")))))) [] true)
    as (n1 & _ & ->); [done|].
  rewrite (parse_dot (octet x _)) by (apply octet_ne || (simpl; lia)); cbn [app].
  destruct (parse_octet x (String "."%char (octet y (String "."%char (octet z "")))) [w] true)
    as (n2 & _ & ->); [done|].
  rewrite (parse_dot (octet y _)) by (apply octet_ne || (simpl; lia)); cbn [app].
  destruct (parse_octet y (String "."%char (octet z "")) [w; x] true) as (n3 & _ & ->); [done|].
  rewrite (parse_dot (octet z _)) by (apply octet_ne || (simpl; lia)); cbn [app].
  by destruct (parse_octet z "" [w; x; y] true) as (n4 & _ & ->).
Qed.

Lemma ip_string_4 a : length a = 4%nat → ip_string a = dotted a.
Proof. intros Hl. by destruct (ip4_inv a Hl) as (w & x & y & z & ->). Qed.

Lemma ParseIP_string_4 a :
  ip_wf a → length a = 4%nat → ParseIP (ip_string a) = Some (v4InV6Prefix ++ a).
Proof.
  intros Ha Hl. unfold ParseIP. rewrite ip_string_4, ParseAddr_dotted by done.
  simpl. unfold As16. by rewrite Hl.
Qed.

Lemma To4_4 a : length a = 4%nat → To4 a = Some a.
Proof. intros H. unfold To4. by rewrite H. Qed.

Lemma To4_mapped a : length a = 4%nat → To4 (v4InV6Prefix ++ a) = Some a.
Proof. intros H. destruct (ip4_inv a H) as (w & x & y & z & ->). done. Qed.

(** * Membership in an IPv4 network *)

(** A network as [ParseCIDR] builds it from an IPv4 literal. *)
Definition net4 (base : ip) (n : Z) : IPNet := mkIPNet base (CIDRMask n 4).

Lemma Contains_net4 base n a :
  ip_wf base → length base = 4%nat → ip_wf a → length a = 4%nat → 0 ≤ n ≤ 32 →
  Contains (net4 base n) a = bool_decide (trunc (32 - n) (be_val base) = trunc (32 - n) (be_val a)).
Proof.
  intros Hb Hbl Ha Hal Hn. unfold Contains, networkNumberAndMask, net4.
  cbn [net_IP net_Mask]. rewrite !To4_4 by done. cbn [from_option].
  unfold id. rewrite CIDRMask_length, !Hbl, Hal. cbn [Nat.eqb andb]. rewrite Hbl. cbn [Nat.eqb andb].
  pose proof (and_CIDRMask base n Hb) as E1. pose proof (and_CIDRMask a n Ha) as E2.
  pose proof (and_CIDRMask_wf base n Hb) as W1. pose proof (and_CIDRMask_wf a n Ha) as W2.
  rewrite Hbl in E1, W1. rewrite Hal in E2, W2.
  change (8 * Z.of_nat 4) with 32 in *. unfold bytes_eqb. apply bool_decide_ext.
  rewrite <- E1, <- E2 by lia. split; [by intros ->|].
  apply be_val_inj; [apply W1; lia | apply W2; lia|].
  unfold and_bytes. by rewrite !length_zip_with, Hbl, Hal.
Qed.

Lemma Contains_mapped N a :
  length a = 4%nat → Contains N (v4InV6Prefix ++ a) = Contains N a.
Proof. intros H. unfold Contains. by rewrite To4_mapped, To4_4. Qed.

(** * Parsed addresses are well formed *)

Lemma is_digit_val c : is_digit c = true → 0 ≤ ascii_Z c - 48 ≤ 9.
Proof. unfold is_digit. rewrite andb_true_iff, !Z.leb_le. lia. Qed.

Lemma parseIPv4Fields_wf s fields val n dot a :
  parseIPv4Fields s fields val n dot = Some a →
  ip_wf fields → is_byte val → (length fields ≤ 3)%nat → ip_wf a ∧ length a = 4%nat.
Proof.
  revert fields val n dot. induction s as [|c s IH]; intros fields val n dot; simpl.
  - destruct (Nat.ltb_spec (length fields) 3) as [?|?]; [done|]. intros [= <-] Hf Hv Hl. split.
    + apply Forall_app. auto.
    + rewrite length_app. simpl. lia.
  - destruct (is_digit c) eqn:D.
    + case_match; [done|]. destruct (Z.ltb_spec 255 (val * 10 + (ascii_Z c - 48))); [done|].
      intros H' Hf Hv Hl. eapply IH; [done|done| |done].
      apply is_digit_val in D. unfold is_byte in *. lia.
    + case_match; [|done]. case_match; [done|].
      destruct (Nat.eqb_spec (length fields) 3); [done|]. intros H' Hf Hv Hl.
      eapply IH; [done|by apply Forall_app; auto|unfold is_byte; lia|].
      rewrite length_app. simpl. lia.
Qed.

Lemma parseIPv4_wf s a : parseIPv4 s = Some a → ip_wf a ∧ length a = 4%nat.
Proof.
  intros H. eapply parseIPv4Fields_wf; [done|constructor|unfold is_byte; lia|simpl; lia].
Qed.

Lemma hex_digit_range c d : hex_digit c = Some d → 0 ≤ d < 16.
Proof.
  unfold hex_digit. repeat case_match; rewrite ?andb_true_iff, ?Z.leb_le in *;
    intros; simplify_eq; lia.
Qed.

Lemma parse_group_range s off acc off' acc' r :
  parse_group s off acc = Some (off', acc', r) → 0 ≤ acc < 65536 → 0 ≤ acc' < 65536.
Proof.
  revert off acc. induction s as [|c s IH]; intros off acc; simpl; [by intros [= <- <- <-]|].
  destruct (hex_digit c) as [d|] eqn:E; [|by intros [= <- <- <-]].
  case_match; [done|]. destruct (Z.ltb_spec 65535 (acc * 16 + d)); [done|].
  intros H' Ha. eapply IH; [done|]. apply hex_digit_range in E. lia.
Qed.

Lemma hi_lo_wf acc : 0 ≤ acc < 65536 → ip_wf [acc / 256; acc `mod` 256].
Proof.
  intros H. pose proof (Z.mod_pos_bound acc 256 ltac:(lia)).
  pose proof (Z.div_mod acc 256 ltac:(lia)).
  repeat constructor; unfold is_byte; lia.
Qed.

Definition v6_state_ok (out : list Z) (ell : option nat) : Prop :=
  ip_wf out ∧ (length out ≤ 16)%nat ∧ from_option (fun e => (e ≤ length out)%nat) True ell.

Lemma v6_state_step out ell acc :
  0 ≤ acc < 65536 → v6_state_ok out ell → (length out + 2 ≤ 16)%nat →
  v6_state_ok (out ++ [acc / 256; acc `mod` 256]) ell.
Proof.
  intros Hacc (Hw & Hl & He) Hr. split_and!.
  - apply Forall_app. split; [done|]. by apply hi_lo_wf.
  - rewrite length_app. simpl. lia.
  - destruct ell; simpl in *; [rewrite length_app; lia|done].
Qed.

Lemma parseIPv6_loop_ok fuel s out ell r :
  parseIPv6_loop fuel s out ell = Some r → v6_state_ok out ell →
  (length out + 2 * fuel ≤ 16)%nat →
  let '(out', ell', _) := r in v6_state_ok out' ell'.
Proof.
  revert s out ell. induction fuel as [|fuel IH]; intros s out ell; simpl.
  { by intros [= <-] ?. }
  destruct (parse_group s 0 0) as [[[off acc] rest]|] eqn:G; [|done].
  apply parse_group_range in G; [|lia].
  destruct (off =? 0)%nat; [done|]. destruct rest as [|c rest].
  { intros [= <-] Hs Hf. apply v6_state_step; [done..|lia]. }
  destruct (char_eqb c ".").
  { destruct (bool_decide _ && _); [done|].
    destruct (Nat.ltb_spec 16 (length out + 4)); [done|].
    destruct (parseIPv4Fields s [] 0 0 true) as [v4|] eqn:E; [|done].
    intros [= <-] (Hw & Hl & He) Hf. apply parseIPv4_wf in E as [W4 L4]. split_and!.
    - by apply Forall_app.
    - rewrite length_app. lia.
    - destruct ell; simpl in *; [rewrite length_app; lia|done]. }
  destruct (char_eqb c ":"); simpl; [|done].
  destruct rest as [|c2 rest]; [done|]. intros Hr Hs Hf.
  assert (v6_state_ok (out ++ [acc / 256; acc `mod` 256]) ell) as Hs'
    by (apply v6_state_step; [done..|lia]).
  assert (length (out ++ [acc / 256; acc `mod` 256]) = (length out + 2)%nat) as HL
    by (by rewrite length_app).
  destruct (char_eqb c2 ":").
  - destruct ell; [done|].
    assert (v6_state_ok (out ++ [acc / 256; acc `mod` 256])
      (Some (length (out ++ [acc / 256; acc `mod` 256])))) as Hs2
      by (destruct Hs' as (? & ? & _); split_and!; [done..|simpl; lia]).
    destruct rest; [simplify_eq; done|]. eapply IH; [done|done|lia].
  - eapply IH; [done|done|lia].
Qed.

Lemma parseIPv6_finish_ok out ell s a :
  parseIPv6_finish (out, ell, s) = Some a → v6_state_ok out ell →
  ip_wf a ∧ length a = 16%nat.
Proof.
  intros Hf (Hw & Hl & He). unfold parseIPv6_finish in Hf. destruct s; [|done].
  destruct (Nat.ltb_spec (length out) 16) as [E|E].
  - destruct ell as [e|]; [|done]. simplify_eq. simpl in He. split.
    + rewrite !Forall_app. split; [by apply Forall_take|].
      split; [apply Forall_replicate; unfold is_byte; lia|by apply Forall_drop].
    + rewrite !length_app, length_take, length_replicate, length_drop. lia.
  - destruct ell; simplify_eq. split; [done|lia].
Qed.

Lemma parseIPv6_wf s a : parseIPv6 s = Some a → ip_wf a ∧ length a = 16%nat.
Proof.
  assert (∀ s ell, ell = None ∨ ell = Some 0%nat →
    (parseIPv6_loop 8 s [] ell ≫= parseIPv6_finish) = Some a →
    ip_wf a ∧ length a = 16%nat) as H.
  { intros t ell He H. apply bind_Some in H as ([[out ell'] r] & H1 & H2).
    eapply parseIPv6_finish_ok; [done|]. eapply (parseIPv6_loop_ok _ _ _ _ _ H1).
    - split_and!; [constructor|simpl; lia|]. destruct He as [-> | ->]; simpl; lia.
    - simpl. lia. }
  unfold parseIPv6. intros E. repeat case_match; subst; try (eapply H; [|done]; auto).
  simplify_eq. split; [|done]. apply Forall_replicate. unfold is_byte. lia.
Qed.

Lemma ParseAddr_wf s a : ParseAddr s = Some a →
  ip_wf a ∧ (length a = 4%nat ∨ length a = 16%nat).
Proof.
  unfold ParseAddr. destruct (addr_kind_of s); [|case_match|]; intros H'; try done.
  - apply parseIPv4_wf in H' as []; auto.
  - apply parseIPv6_wf in H' as []; auto.
Qed.

Lemma ParseIP_wf s a : ParseIP s = Some a → ip_wf a ∧ length a = 16%nat.
Proof.
  unfold ParseIP. intros (b & H & ->)%fmap_Some. apply ParseAddr_wf in H as [Hw Hl].
  unfold As16. destruct (Nat.eqb_spec (length b) 4) as [E|E].
  - split; [|by rewrite length_app, E]. apply Forall_app. split; [|done].
    repeat constructor; unfold is_byte; lia.
  - destruct Hl; [done|]. done.
Qed.

Lemma To4_wf a b : ip_wf a → To4 a = Some b → ip_wf b ∧ length b = 4%nat.
Proof.
  intros Hw. unfold To4. destruct (Nat.eqb_spec (length a) 4); [by intros [= <-]|].
  destruct (Nat.eqb_spec (length a) 16) as [E|]; simpl; [|done].
  case_match; intros; simplify_eq. split; [by apply Forall_drop|]. rewrite length_drop. lia.
Qed.

Lemma dtoi_loop_nonneg t acc k m j :
  dtoi_loop t acc k = Some (m, j) → 0 ≤ acc → 0 ≤ m.
Proof.
  revert acc k. induction t as [|c t IH]; intros acc k; simpl; [by intros [= <- <-]|].
  destruct (is_digit c) eqn:Ec; [|by intros [= <- <-]].
  destruct (16777215 <=? _); [done|]. intros H' Ha. eapply IH; [exact H'|].
  apply is_digit_val in Ec. lia.
Qed.

Lemma dtoi_nonneg s n i : dtoi s = Some (n, i) → 0 ≤ n.
Proof.
  unfold dtoi. destruct (dtoi_loop s 0 0) as [[m [|j]]|] eqn:E; [done| |done].
  intros [= <- _]. eapply dtoi_loop_nonneg; [done|lia].
Qed.

Lemma IPMask_v4 a n : length a = 4%nat →
  IPMask (As16 a) (CIDRMask n 4) = Some (and_bytes a (CIDRMask n 4)).
Proof.
  intros Hl. destruct (ip4_inv a Hl) as (w & x & y & z & ->). unfold IPMask.
  rewrite CIDRMask_length. change (4 =? 16)%nat with false. cbn [andb].
  rewrite CIDRMask_length.
  change (length (As16 [w; x; y; z])) with 16%nat.
  change (bytes_eqb (take 12 (As16 [w; x; y; z])) v4InV6Prefix) with true.
  change (drop 12 (As16 [w; x; y; z])) with [w; x; y; z].
  change ((4 =? 4)%nat && (16 =? 16)%nat && true) with true. cbv iota.
  by change (length [w; x; y; z] =? 4)%nat with true.
Qed.

Lemma IPMask_v6 a n b : length a = 16%nat →
  IPMask (As16 a) (CIDRMask n 16) = Some b → length b = 16%nat.
Proof.
  intros Hl. unfold IPMask, As16. rewrite Hl. change (16 =? 4)%nat with false. cbv iota.
  rewrite CIDRMask_length, Hl. change (16 =? 4)%nat with false.
  rewrite andb_false_r. cbn [andb]. rewrite CIDRMask_length.
  change (16 =? 4)%nat with false. cbn [andb]. rewrite Hl. cbn [Nat.eqb]. intros Hb.
  assert (b = and_bytes a (CIDRMask n 16)) as -> by congruence.
  unfold and_bytes. by rewrite length_zip_with, CIDRMask_length, Hl.
Qed.

(** Every IPv4 network [ParseCIDR] returns is a [net4] with an aligned base. *)
Lemma ParseCIDR_v4 s N :
  ParseCIDR s = Some N → length (net_IP N) = 4%nat →
  ∃ base n, N = net4 base n ∧ ip_wf base ∧ length base = 4%nat ∧ 0 ≤ n ≤ 32
            ∧ be_val base = trunc (32 - n) (be_val base).
Proof.
  unfold ParseCIDR. destruct (cut_at "/" s) as [[addr mask]|]; [|done].
  destruct (ParseAddr addr) as [a|] eqn:A; [|done].
  destruct (dtoi mask) as [[n i]|] eqn:D; [|done].
  destruct (negb _ || _) eqn:B; [done|]. apply orb_false_iff in B as [_ B%Z.ltb_ge].
  apply ParseAddr_wf in A as [Hw Hl].
  assert (0 ≤ n) as Hn.
  { by eapply dtoi_nonneg. }
  destruct Hl as [Hl|Hl]; rewrite Hl in *.
  - rewrite IPMask_v4 by done. intros [= <-] _.
    exists (and_bytes a (CIDRMask n 4)), n. split; [done|].
    pose proof (and_CIDRMask a n Hw) as E. pose proof (and_CIDRMask_wf a n Hw) as W.
    rewrite Hl in E, W. change (8 * Z.of_nat 4) with 32 in *.
    split; [by apply W|]. split.
    { unfold and_bytes. by rewrite length_zip_with, CIDRMask_length, Hl. }
    split; [lia|]. rewrite E by lia.
    pose proof (trunc_idemp (32 - n) (be_val a) 0 ltac:(lia)) as T.
    rewrite Z.add_0_r in T. rewrite T; [done|]. split; [lia|]. apply Z.pow_pos_nonneg; lia.
  - destruct (IPMask _ _) as [b|] eqn:E; [|done]. intros <-%(inj Some). cbn [net_IP].
    apply IPMask_v6 in E; [|done]. by rewrite E.
Qed.
