(* ===== verification/Cidr.v ===== *)
(** Package [cidrutil] (src/internal/cidrutil/cidrutil.go): reserved-space
    checks, validation and expansion of scan target specs, and the partition
    of expanded targets by network membership.

    Expansion loops take fuel; [None] means "still running".  An IPv4 block
    with prefix length [n >= 1] needs [2^(32-n) + 1] units
    ([enumerateCIDR_net4]); a range brings its own bound, the address count
    ([enumerateRange_ok]). *)

From S2P Require Import Prelude NetAddr.

Open Scope Z_scope.

(** * Errors: the sentinels, with the text that [fmt.Errorf] wraps around them *)

Inductive cidr_err :=
| ErrEmptyCIDR
| ErrInvalidNetwork (cidr : string)
| ErrInvalidCIDR (cidr : string)
| ErrEmptyTargets
| ErrNoValidTargets
| ErrInvalidTarget (detail : string)
| ErrInvalidIPRange (detail : string)
| ErrIPv6RangeUnsupported (detail : string)
| ErrTargetRangeTooLarge (detail : string)
| ErrReservedTarget (detail : string).

#[export] Instance cidr_err_eq_dec : EqDecision cidr_err.
Proof. solve_decision. Defined.

(** [err.Error()] of the target errors (the ones a caller prints). *)
Definition err_text (e : cidr_err) : string :=
  match e with
  | ErrEmptyCIDR => "cidrutil: cidr is empty"
  | ErrInvalidNetwork c => "cidrutil: invalid network " +:+ c
  | ErrInvalidCIDR c => "cidrutil: invalid cidr " +:+ c
  | ErrEmptyTargets => "targets is empty"
  | ErrNoValidTargets => "no valid targets"
  | ErrInvalidTarget d => "invalid target: " +:+ d
  | ErrInvalidIPRange d => "invalid IP range: " +:+ d
  | ErrIPv6RangeUnsupported d => "IPv6 ranges unsupported: " +:+ d
  | ErrTargetRangeTooLarge d => "target range too large: " +:+ d
  | ErrReservedTarget d => "target in reserved address space: " +:+ d
  end.

(** * Reserved address space *)

Definition reservedClass (a : option ip) : string :=
  match a with
  | None => ""
  | Some a =>
      if IsUnspecified a then "unspecified"
      else if IsLoopback a then "loopback"
      else if IsLinkLocalUnicast a then "link-local unicast"
      else if IsMulticast a then "multicast"
      else if ip_equal a IPv4bcast then "limited broadcast"
      else match To4 a with
           | Some v4 => if 240 <=? byte_at v4 0 then "reserved (240.0.0.0/4)" else ""
           | None => ""
           end
  end.

Definition lastAddress (n : IPNet) : option ip :=
  let '(ones, bits) := MaskSize (net_Mask n) in
  if bits <=? ones then None
  else Some (zip_with (fun b m => Z.lor b (255 - m)) (net_IP n) (net_Mask n)).

Definition is_empty (s : string) : bool :=
  match s with EmptyString => true | _ => false end.

(** [None] is Go's nil error. *)
Definition checkReserved (part : string) (first last : option ip) : option cidr_err :=
  let class := reservedClass first in
  if negb (is_empty class)
  then Some (ErrReservedTarget (part +:+ " is " +:+ class))
  else match last with
       | None => None
       | Some l =>
           let class := reservedClass (Some l) in
           if negb (is_empty class)
           then Some (ErrReservedTarget (part +:+ " overlaps " +:+ class
                        +:+ " (ends at " +:+ ip_string l +:+ ")"))
           else None
       end.

(** * Ranges *)

(** [strconv.Atoi]: optional sign, at least one digit, int64 range. *)
Fixpoint digits_val (s : string) (acc : Z) : option Z :=
  match s with
  | EmptyString => Some acc
  | String c s' => if is_digit c then digits_val s' (acc * 10 + (ascii_Z c - 48)) else None
  end.

Definition atoi (s : string) : option Z :=
  let '(neg, body) :=
    match s with
    | String c s' => if char_eqb c "-"%char then (true, s')
                     else if char_eqb c "+"%char then (false, s') else (false, s)
    | EmptyString => (false, s)
    end in
  match body with
  | EmptyString => None
  | _ => match digits_val body 0 with
         | None => None
         | Some n => let v := if neg then - n else n in
                     if (min_int64 <=? v) && (v <=? max_int64) then Some v else None
         end
  end.

(** [uint32(b0)<<24 | uint32(b1)<<16 | uint32(b2)<<8 | uint32(b3)]. *)
Definition u32_of (a : ip) : Z :=
  Z.lor (Z.lor (Z.lor (Z.shiftl (byte_at a 0) 24) (Z.shiftl (byte_at a 1) 16))
               (Z.shiftl (byte_at a 2) 8)) (byte_at a 3).

Definition rangeBounds (s : string) : result cidr_err (ip * ip) :=
  match cut_at "-"%char s with
  | None => Err (ErrInvalidIPRange s)
  | Some (p0, p1) =>
      let startStr := trim_space p0 in
      let endStr := trim_space p1 in
      match ParseIP startStr with
      | None => Err (ErrInvalidIPRange ("invalid range start " +:+ startStr))
      | Some startIP =>
          match To4 startIP with
          | None => Err (ErrIPv6RangeUnsupported s)
          | Some start4 =>
              let bad := ErrInvalidIPRange ("invalid range end " +:+ endStr) in
              let? end4 :=
                match ParseIP endStr with
                | Some e => Ok (To4 e)
                | None =>
                    match atoi endStr with
                    | None => Err bad
                    | Some n => if (n <? 0) || (255 <? n) then Err bad
                                else Ok (Some (<[3%nat := u8 n]> start4))
                    end
                end in
              match end4 with
              | None => Err bad
              | Some end4 =>
                  if u32_of end4 <? u32_of start4 then Ok (end4, start4)
                  else Ok (start4, end4)
              end
          end
      end
  end.

(** [incIP] carries from the last byte; the list is walked in reverse. *)
Fixpoint inc_rev (r : list Z) : list Z :=
  match r with
  | [] => []
  | b :: r' => let b' := u8 (b + 1) in
               if 0 <? b' then b' :: r' else b' :: inc_rev r'
  end.

Definition incIP (a : ip) : ip := rev (inc_rev (rev a)).

Definition maxRangeIPs : Z := 65536.

Fixpoint range_loop (fuel : nat) (cur : ip) (curU endU : Z) : option (list string) :=
  match fuel with
  | O => None
  | S f =>
      if curU <=? endU then
        if curU =? endU then Some [ip_string cur]
        else let cur' := incIP cur in
             cons (ip_string cur) <$> range_loop f cur' (u32_of cur') endU
      else Some []
  end.

Definition enumerateRange (start end_ : ip) : option (result cidr_err (list string)) :=
  match To4 start, To4 end_ with
  | Some start4, Some end4 =>
      let startU := u32_of start4 in
      let endU := u32_of end4 in
      let count := u32 (endU - startU) + 1 in
      if maxRangeIPs <? count
      then Some (Err (ErrTargetRangeTooLarge
                        (itoa count +:+ " IPs (max " +:+ itoa maxRangeIPs +:+ ")")))
      else Ok <$> range_loop (S (Z.to_nat count)) start4 startU endU
  | _, _ => Some (Err (ErrInvalidIPRange "non-IPv4 range endpoints"))
  end.

(** * CIDR blocks *)

Definition v4ReservedBounds (n : IPNet) : bool * bool :=
  let '(ones, bits) := MaskSize (net_Mask n) in
  if negb (bits =? 32) || (31 <=? ones) then (false, false) else (true, true).

Fixpoint enum_loop (fuel : nat) (n : IPNet) (cur : ip) : option (list string) :=
  match fuel with
  | O => None
  | S f => if Contains n cur
           then cons (ip_string cur) <$> enum_loop f n (incIP cur)
           else Some []
  end.

Definition enumerateCIDR (fuel : nat) (n : IPNet) : option (list string) :=
  let '(ones, bits) := MaskSize (net_Mask n) in
  if ones =? bits then Some [ip_string (net_IP n)]
  else
    (fun ips =>
       let '(skipFirst, skipLast) := v4ReservedBounds n in
       if skipFirst then
         let ips := drop 1 ips in
         if skipLast && (0 <? length ips)%nat then take (length ips - 1) ips else ips
       else ips)
    <$> enum_loop fuel n (default [] (IPMask (net_IP n) (net_Mask n))).

(** * Specs *)

Definition expandSingle (fuel : nat) (t : string) (allowReserved : bool)
    : option (result cidr_err (list string)) :=
  match ParseCIDR t with
  | Some n =>
      match (if allowReserved then None
             else checkReserved t (Some (net_IP n)) (lastAddress n)) with
      | Some e => Some (Err e)
      | None => Ok <$> enumerateCIDR fuel n
      end
  | None =>
      match ParseIP t with
      | Some a =>
          let class := reservedClass (Some a) in
          if negb allowReserved && negb (is_empty class)
          then Some (Err (ErrReservedTarget (t +:+ " is " +:+ class)))
          else Some (Ok [ip_string a])
      | None =>
          if str_mem "-"%char t then
            match rangeBounds t with
            | Err e => Some (Err e)
            | Ok (s, e) =>
                match (if allowReserved then None
                       else checkReserved t (Some s) (Some e)) with
                | Some err => Some (Err err)
                | None => enumerateRange s e
                end
            end
          else Some (Err (ErrInvalidTarget t))
      end
  end.

Fixpoint expand_parts (fuel : nat) (parts : list string) (allowReserved : bool)
    : option (result cidr_err (list string)) :=
  match parts with
  | [] => Some (Ok [])
  | p :: ps =>
      let part := trim_space p in
      if is_empty part then expand_parts fuel ps allowReserved
      else match expandSingle fuel part allowReserved with
           | None => None
           | Some (Err e) => Some (Err e)
           | Some (Ok ips) =>
               (fun r => let? rest := r in Ok (ips ++ rest))
               <$> expand_parts fuel ps allowReserved
           end
  end.

Definition ExpandTargetsFor (fuel : nat) (targets : string) (allowReserved : bool)
    : option (result cidr_err (list string)) :=
  let targets := trim_space targets in
  if is_empty targets then Some (Err ErrEmptyTargets)
  else if str_mem ","%char targets then
    (fun r => let? ips := r in
              match ips with [] => Err ErrNoValidTargets | _ => Ok ips end)
    <$> expand_parts fuel (split_on ","%char targets) allowReserved
  else expandSingle fuel targets allowReserved.

Definition ExpandTargets (fuel : nat) (targets : string) :=
  ExpandTargetsFor fuel targets false.

(** The body of the loop of [ValidateTargetsFor], after the trim and the
    empty-part guard. *)
Definition validate_part (part : string) (allowReserved : bool) : option cidr_err :=
  match ParseCIDR part with
  | Some n => if allowReserved then None
              else checkReserved part (Some (net_IP n)) (lastAddress n)
  | None =>
      match ParseIP part with
      | Some a =>
          let class := reservedClass (Some a) in
          if negb allowReserved && negb (is_empty class)
          then Some (ErrReservedTarget (part +:+ " is " +:+ class)) else None
      | None =>
          if str_mem "-"%char part then
            match rangeBounds part with
            | Err e => Some e
            | Ok (s, e) => if allowReserved then None
                           else checkReserved part (Some s) (Some e)
            end
          else Some (ErrInvalidTarget part)
      end
  end.

Fixpoint validate_parts (parts : list string) (allowReserved : bool) : option cidr_err :=
  match parts with
  | [] => None
  | p :: ps =>
      let part := trim_space p in
      if is_empty part then validate_parts ps allowReserved
      else match validate_part part allowReserved with
           | Some e => Some e
           | None => validate_parts ps allowReserved
           end
  end.

Definition ValidateTargetsFor (targets : string) (allowReserved : bool) : option cidr_err :=
  let targets := trim_space targets in
  if is_empty targets then Some ErrEmptyTargets
  else validate_parts (split_on ","%char targets) allowReserved.

Definition ValidateTargets (targets : string) : option cidr_err :=
  ValidateTargetsFor targets false.

(** * Network membership *)

Definition ParseNetwork (cidr : string) : result cidr_err IPNet :=
  let cidr := trim_space cidr in
  if is_empty cidr then Err ErrEmptyCIDR
  else
    let? cidr :=
      if str_mem "/"%char cidr then Ok cidr
      else match ParseIP cidr with
           | None => Err (ErrInvalidNetwork cidr)
           | Some a => Ok (cidr +:+ (match To4 a with Some _ => "/32" | None => "/128" end))
           end in
    match ParseCIDR cidr with
    | Some n => Ok n
    | None => Err (ErrInvalidCIDR cidr)
    end.

Definition ContainsIP (network : option IPNet) (ipStr : string) : bool :=
  match network with
  | None => false
  | Some n => match ParseIP (trim_space ipStr) with
              | None => false
              | Some a => Contains n a
              end
  end.

(** [network.Contains(net.ParseIP(ip))]: a nil address is the empty slice. *)
Definition contains_str_ip (n : IPNet) (s : string) : bool :=
  Contains n (default [] (ParseIP s)).

Definition PartitionTargets (fuel : nat) (targets : string) (network : option IPNet)
    : option (result cidr_err (list string * list string)) :=
  match network with
  | None => Some (Ok ([], []))
  | Some n =>
      (fun r => let? ips := r in
                Ok (filter (fun s => contains_str_ip n s = true) ips,
                    filter (fun s => contains_str_ip n s = false) ips))
      <$> ExpandTargets fuel targets
  end.

(** * Incrementing an address *)

Lemma be_val_snoc a b : be_val (a ++ [b]) = be_val a * 256 + b.
Proof.
  induction a as [|x a IH]; simpl; [lia|]. rewrite IH, length_app. simpl.
  replace (8 * Z.of_nat (length a + 1)) with (8 * Z.of_nat (length a) + 8) by lia.
  rewrite Z.pow_add_r by lia. lia.
Qed.

Lemma incIP_snoc a b :
  incIP (a ++ [b]) = if 0 <? u8 (b + 1) then a ++ [u8 (b + 1)] else incIP a ++ [u8 (b + 1)].
Proof.
  unfold incIP. rewrite rev_app_distr. simpl. case_match; simpl; [by rewrite rev_involutive|done].
Qed.

Lemma incIP_spec a : ip_wf a →
  ip_wf (incIP a) ∧ length (incIP a) = length a ∧
  be_val (incIP a) = (be_val a + 1) `mod` 2 ^ (8 * Z.of_nat (length a)).
Proof.
  induction a as [|b a IH] using rev_ind.
  { intros _. split_and!; [constructor|done|by rewrite Z.mod_1_r]. }
  rewrite Forall_app, Forall_singleton. intros [Ha Hb].
  destruct (IH Ha) as (W & L & V). rewrite incIP_snoc, be_val_snoc, length_app.
  pose proof (u8_range (b + 1)) as Hu. pose proof (be_val_range a Ha) as Hr.
  simpl (length [b]).
  replace (8 * Z.of_nat (length a + 1)) with (8 * Z.of_nat (length a) + 8) by lia.
  unfold is_byte in Hb. rewrite Z.pow_add_r by lia. change (2 ^ 8) with 256.
  set (M := 2 ^ (8 * Z.of_nat (length a))) in *.
  destruct (Z.ltb_spec 0 (u8 (b + 1))) as [E|E].
  - assert (b < 255) as Hb'.
    { destruct (decide (b = 255)) as [->|]; [|lia].
      assert (u8 (255 + 1) = 0) by reflexivity. lia. }
    rewrite (u8_id (b + 1)) in * by (unfold is_byte; lia). split_and!.
    + apply Forall_app. split; [done|]. apply Forall_singleton. unfold is_byte. lia.
    + by rewrite length_app.
    + rewrite be_val_snoc, Z.mod_small by nia. lia.
  - assert (b = 255) as ->.
    { destruct (decide (b = 255)); [done|]. rewrite u8_id in E by (unfold is_byte; lia). lia. }
    assert (u8 (255 + 1) = 0) as -> by reflexivity. split_and!.
    + apply Forall_app. split; [done|]. by apply Forall_singleton.
    + rewrite length_app, L. done.
    + rewrite be_val_snoc, V.
      replace (be_val a * 256 + 255 + 1) with ((be_val a + 1) * 256) by lia.
      rewrite Z.mul_mod_distr_r by lia. lia.
Qed.

(** * Addresses as 32-bit values *)

Definition ip4 (v : Z) : ip := be_bytes 4 v.

Lemma ip4_be_val a : ip_wf a → length a = 4%nat → ip4 (be_val a) = a.
Proof. intros Hw Hl. unfold ip4. rewrite <- Hl. by apply be_bytes_val. Qed.

Lemma be_val_ip4 v : 0 ≤ v < 2 ^ 32 → be_val (ip4 v) = v.
Proof.
  intros Hv. unfold ip4. rewrite be_val_bytes. change (8 * Z.of_nat 4) with 32.
  by apply Z.mod_small.
Qed.

Lemma ip4_wf v : ip_wf (ip4 v) ∧ length (ip4 v) = 4%nat.
Proof. split; [apply be_bytes_wf|apply length_be_bytes]. Qed.

Lemma incIP_ip4 v : 0 ≤ v < 2 ^ 32 → incIP (ip4 v) = ip4 ((v + 1) `mod` 2 ^ 32).
Proof.
  intros Hv. destruct (ip4_wf v) as [Hw Hl].
  destruct (incIP_spec _ Hw) as (W & L & V). rewrite Hl in L, V.
  change (8 * Z.of_nat 4) with 32 in V. rewrite be_val_ip4 in V by done.
  by rewrite <- V, ip4_be_val.
Qed.

Lemma lor_shiftl_add a k x : 0 ≤ k → 0 ≤ x < 2 ^ k → Z.lor (Z.shiftl a k) x = a * 2 ^ k + x.
Proof.
  intros Hk Hx. rewrite <- Z.shiftl_mul_pow2 by done. symmetry. apply Z.add_nocarry_lor.
  apply Z.bits_inj'. intros m Hm. rewrite Z.land_spec, Z.bits_0.
  destruct (decide (m < k)).
  - by rewrite Z.shiftl_spec_low.
  - rewrite <- (Z.mod_small x (2 ^ k)), Z.mod_pow2_bits_high by lia. apply andb_false_r.
Qed.

Lemma be_val_4 w x y z :
  be_val [w; x; y; z] = w * 16777216 + x * 65536 + y * 256 + z.
Proof. cbn -[Z.mul Z.add Z.pow]. lia. Qed.

Lemma u32_of_be_val a : ip_wf a → length a = 4%nat → u32_of a = be_val a.
Proof.
  intros Hw Hl. destruct (ip4_inv a Hl) as (w & x & y & z & ->).
  rewrite !Forall_cons_iff in Hw. destruct_and!. unfold is_byte in *.
  rewrite be_val_4. unfold u32_of, byte_at. simpl lookup. cbn [default from_option]. unfold id.
  replace 24 with (16 + 8) at 1 by done. rewrite <- (Z.shiftl_shiftl w 16 8) by lia.
  rewrite (Z.shiftl_shiftl w 16 8), (Z.add_comm 16 8), <- (Z.shiftl_shiftl w 8 16) by lia.
  rewrite <- Z.shiftl_lor. rewrite (lor_shiftl_add w 8 x) by lia.
  replace 16 with (8 + 8) by done. rewrite <- Z.shiftl_shiftl, <- Z.shiftl_lor by lia.
  rewrite (lor_shiftl_add _ 8 y), (lor_shiftl_add _ 8 z) by lia. lia.
Qed.

(** * Enumeration of IPv4 blocks *)

Lemma Contains_ip4 base n v :
  ip_wf base → length base = 4%nat → 0 ≤ n ≤ 32 → 0 ≤ v < 2 ^ 32 →
  be_val base = trunc (32 - n) (be_val base) →
  Contains (net4 base n) (ip4 v)
  = bool_decide (be_val base ≤ v < be_val base + 2 ^ (32 - n)).
Proof.
  intros Hw Hl Hn Hv Hal. destruct (ip4_wf v) as [Hw' Hl'].
  rewrite Contains_net4, be_val_ip4 by done. apply bool_decide_ext. rewrite <- Hal. split.
  - intros E. rewrite E. apply trunc_le. lia.
  - intros Hr. replace v with (trunc (32 - n) (be_val base) + (v - be_val base)) by lia.
    rewrite trunc_idemp by lia. done.
Qed.

Definition show4 (v : Z) : string := ip_string (ip4 v).

Section block.
Context (base : ip) (n : Z).
Hypothesis Hw : ip_wf base.
Hypothesis Hl : length base = 4%nat.
Hypothesis Hal : be_val base = trunc (32 - n) (be_val base).

Lemma block_fits : 0 ≤ n ≤ 32 → be_val base + 2 ^ (32 - n) ≤ 2 ^ 32.
Proof.
  intros Hn. pose proof (be_val_range base Hw) as Hr. rewrite Hl in Hr.
  change (8 * Z.of_nat 4) with 32 in Hr.
  assert (2 ^ 32 = 2 ^ n * 2 ^ (32 - n)) as E
    by (rewrite <- Z.pow_add_r by lia; f_equal; lia).
  unfold trunc in Hal. set (q := be_val base / 2 ^ (32 - n)) in *.
  assert (0 < 2 ^ (32 - n)) by (apply Z.pow_pos_nonneg; lia).
  assert (q < 2 ^ n) by nia. nia.
Qed.

(** From offset [k] the loop lists the rest of the block and stops. *)
Lemma enum_loop_block k fuel :
  1 ≤ n ≤ 32 → 0 ≤ k ≤ 2 ^ (32 - n) → (Z.to_nat (2 ^ (32 - n) - k) < fuel)%nat →
  enum_loop fuel (net4 base n) (ip4 ((be_val base + k) `mod` 2 ^ 32))
  = Some (show4 <$> seqZ (be_val base + k) (2 ^ (32 - n) - k)).
Proof.
  intros Hn. pose proof (block_fits ltac:(lia)) as Hfit.
  pose proof (be_val_range base Hw) as Hr. rewrite Hl in Hr.
  change (8 * Z.of_nat 4) with 32 in Hr.
  revert k. induction fuel as [|fuel IH]; intros k Hk Hf; [lia|]. simpl.
  destruct (decide (k = 2 ^ (32 - n))) as [->|Hne].
  - rewrite Z.sub_diag. simpl seqZ. rewrite Contains_ip4; [|done|done|lia| |done].
    2:{ apply Z.mod_pos_bound. lia. }
    rewrite bool_decide_false; [done|]. intros Hc.
    destruct (decide (be_val base + 2 ^ (32 - n) = 2 ^ 32)) as [E|E].
    + rewrite E in Hc. rewrite Z.mod_same in Hc by lia.
      assert (2 ^ (32 - n) < 2 ^ 32) by (apply Z.pow_lt_mono_r; lia). lia.
    + rewrite Z.mod_small in Hc by lia. lia.
  - rewrite (Z.mod_small (be_val base + k)) by lia.
    rewrite Contains_ip4; [|done|done|lia|lia|done].
    rewrite bool_decide_true by lia.
    rewrite incIP_ip4 by lia.
    replace (be_val base + k + 1) with (be_val base + (k + 1)) by lia.
    rewrite IH by lia. simpl.
    rewrite (seqZ_cons (be_val base + k)) by lia. simpl. do 3 f_equal.
    f_equal; lia.
Qed.
End block.

(** The host addresses of an IPv4 block with base value [v] and prefix [n]. *)
Definition hosts4 (v n : Z) : list Z :=
  if n =? 32 then [v]
  else if n =? 31 then seqZ v 2
  else seqZ (v + 1) (2 ^ (32 - n) - 2).

Lemma drop_1_seqZ m len : drop 1 (seqZ m len) = seqZ (m + 1) (len - 1).
Proof.
  destruct (decide (0 < len)).
  - rewrite seqZ_cons by done. simpl. by rewrite drop_0.
  - by rewrite !seqZ_nil by lia.
Qed.

Lemma take_seqZ m len : take (length (seqZ m len) - 1) (seqZ m len) = seqZ m (len - 1).
Proof.
  destruct (decide (0 < len)) as [H|H].
  - replace len with ((len - 1) + 1) at 1 2 by lia.
    rewrite seqZ_app by lia. rewrite length_app, !length_seqZ.
    rewrite take_app_le by (rewrite length_seqZ; lia).
    rewrite take_ge; [done|]. rewrite length_seqZ. lia.
  - by rewrite !seqZ_nil by lia.
Qed.

(** An IPv4 block expands to exactly its host addresses, in order: both
    endpoints are dropped up to /30, kept for /31, and /32 is one host. *)
Lemma enumerateCIDR_net4 base n fuel :
  ip_wf base → length base = 4%nat → be_val base = trunc (32 - n) (be_val base) →
  1 ≤ n ≤ 32 → (Z.to_nat (2 ^ (32 - n)) < fuel)%nat →
  enumerateCIDR fuel (net4 base n) = Some (show4 <$> hosts4 (be_val base) n).
Proof.
  intros Hw Hl Hal Hn Hf. unfold enumerateCIDR, v4ReservedBounds, net4. cbn [net_IP net_Mask].
  rewrite !MaskSize_CIDRMask by lia. change (8 * Z.of_nat 4) with 32. unfold hosts4.
  destruct (Z.eqb_spec n 32) as [->|Hne].
  { simpl. f_equal. unfold show4. by rewrite ip4_be_val. }
  assert (IPMask base (CIDRMask n 4) = Some base) as ->.
  { unfold IPMask. rewrite CIDRMask_length, Hl. cbn [Nat.eqb andb].
    rewrite andb_false_r. cbn [andb]. rewrite Hl, CIDRMask_length. cbn [Nat.eqb]. f_equal.
    pose proof (and_CIDRMask base n Hw) as E. rewrite Hl in E.
    change (8 * Z.of_nat 4) with 32 in E.
    pose proof (and_CIDRMask_wf base n Hw) as W. rewrite Hl in W.
    apply be_val_inj; [apply W; lia|done| |].
    - unfold and_bytes. by rewrite length_zip_with, CIDRMask_length, Hl.
    - rewrite E by lia. by rewrite <- Hal. }
  cbn [default from_option]. unfold id.
  pose proof (enum_loop_block base n Hw Hl Hal 0 fuel) as HE.
  rewrite Z.add_0_r, Z.sub_0_r in HE.
  pose proof (be_val_range base Hw) as Hr. rewrite Hl in Hr.
  change (8 * Z.of_nat 4) with 32 in Hr.
  rewrite Z.mod_small, ip4_be_val in HE by done.
  assert (0 < 2 ^ (32 - n)) by (apply Z.pow_pos_nonneg; lia).
  unfold net4 in HE. rewrite HE by lia. cbn [fmap option_fmap option_map].
  rewrite Z.eqb_refl. cbn [negb orb].
  destruct (Z.leb_spec 31 n) as [E|E].
  - assert (n = 31) as -> by lia. done.
  - destruct (Z.eqb_spec n 31); [lia|].
    assert (4 ≤ 2 ^ (32 - n)) by (apply (Z.pow_le_mono_r 2 2); lia).
    f_equal. cbn [andb].
    change (list_fmap Z string show4) with (fmap (M:=list) show4).
    rewrite <- !fmap_drop, drop_1_seqZ. rewrite !length_fmap.
    destruct (Nat.ltb_spec 0 (length (seqZ (be_val base + 1) (2 ^ (32 - n) - 1)))) as [E2|E2].
    + rewrite <- fmap_take, take_seqZ. do 2 f_equal. lia.
    + rewrite length_seqZ in E2. lia.
Qed.
