(* ===== verification/CidrSpec.v ===== *)
(** The properties of package [cidrutil]: exact expansion of blocks and
    ranges, freedom from reserved addresses, agreement of validation and
    expansion, and membership of expanded targets. *)

From S2P Require Import Prelude NetAddr Cidr.

Open Scope Z_scope.

(** * Ranges *)

Lemma range_loop_spec fuel s e :
  0 ≤ s ≤ e → e < 2 ^ 32 → (Z.to_nat (e - s) < fuel)%nat →
  range_loop fuel (ip4 s) s e = Some (show4 <$> seqZ s (e - s + 1)).
Proof.
  revert s. induction fuel as [|fuel IH]; intros s Hs He Hf; [lia|]. simpl.
  destruct (Z.leb_spec s e); [|lia]. destruct (Z.eqb_spec s e) as [->|Hne].
  { rewrite Z.sub_diag. done. }
  rewrite incIP_ip4, (Z.mod_small (s + 1)) by lia.
  destruct (ip4_wf (s + 1)) as [Hw Hl]. rewrite u32_of_be_val, be_val_ip4 by (done || lia).
  rewrite IH by lia. rewrite (seqZ_cons s) by lia. simpl. do 3 f_equal. f_equal; lia.
Qed.

Lemma enumerateRange_ok a b :
  ip_wf a → length a = 4%nat → ip_wf b → length b = 4%nat → be_val a ≤ be_val b →
  enumerateRange a b =
  let count := be_val b - be_val a + 1 in
  if maxRangeIPs <? count
  then Some (Err (ErrTargetRangeTooLarge
                    (itoa count +:+ " IPs (max " +:+ itoa maxRangeIPs +:+ ")")))
  else Some (Ok (show4 <$> seqZ (be_val a) count)).
Proof.
  intros Ha La Hb Lb Hle. unfold enumerateRange. rewrite !To4_4 by done.
  rewrite !u32_of_be_val by done.
  pose proof (be_val_range a Ha) as Ra. pose proof (be_val_range b Hb) as Rb.
  rewrite La in Ra. rewrite Lb in Rb. change (8 * Z.of_nat 4) with 32 in *.
  unfold u32. rewrite Z.mod_small by lia. cbv zeta. case_match; [done|].
  pose proof (range_loop_spec (S (Z.to_nat (be_val b - be_val a + 1)))
    (be_val a) (be_val b)) as R.
  rewrite ip4_be_val in R by done. by rewrite R by lia.
Qed.

Lemma rangeBounds_wf s a b :
  rangeBounds s = Ok (a, b) →
  ip_wf a ∧ length a = 4%nat ∧ ip_wf b ∧ length b = 4%nat ∧ be_val a ≤ be_val b.
Proof.
  unfold rangeBounds. destruct (cut_at _ s) as [[p0 p1]|]; [|done]. cbv zeta.
  destruct (ParseIP (trim_space p0)) as [st|] eqn:P; [|done].
  destruct (To4 st) as [st4|] eqn:T; [|done].
  apply ParseIP_wf in P as [Wst _]. destruct (To4_wf _ _ Wst T) as [W4 L4].
  intros (end4 & He & H)%rbind_ok. destruct end4 as [e4|]; [|done].
  assert (ip_wf e4 ∧ length e4 = 4%nat) as [We Le].
  { destruct (ParseIP (trim_space p1)) as [e|] eqn:P1.
    - apply ParseIP_wf in P1 as [Wp _]. injection He as He. by eapply To4_wf.
    - destruct (atoi _) as [n|]; [|done]. destruct (_ || _); [done|].
      injection He as <-. split; [|by rewrite length_insert].
      apply Forall_insert; [done|apply u8_range]. }
  rewrite !u32_of_be_val in H by done.
  destruct (Z.ltb_spec (be_val e4) (be_val st4)); simplify_eq; split_and!; (done || lia).
Qed.

(** A range spec expands to exactly the addresses between its two
    endpoints (ascending, whichever order they were written in), provided
    there are at most 65536 of them; otherwise the range is rejected as too
    large.  The expansion always terminates. *)
Theorem range_expansion_exact s a b (H : rangeBounds s = Ok (a, b)) :
  enumerateRange a b =
    Some (if be_val b - be_val a + 1 <=? 65536
          then Ok (show4 <$> seqZ (be_val a) (be_val b - be_val a + 1))
          else Err (ErrTargetRangeTooLarge
                      (itoa (be_val b - be_val a + 1) +:+ " IPs (max 65536)"))).
Proof.
  apply rangeBounds_wf in H as (? & ? & ? & ? & ?).
  rewrite enumerateRange_ok by done. cbv zeta. unfold maxRangeIPs.
  destruct (Z.ltb_spec 65536 (be_val b - be_val a + 1)),
    (Z.leb_spec (be_val b - be_val a + 1) 65536); (lia || done).
Qed.

Lemma range_expansion_exact_witness :
  rangeBounds "192.168.1.7 - 5" = Ok ([192;168;1;5], [192;168;1;7]) ∧
  enumerateRange [192;168;1;5] [192;168;1;7]
  = Some (Ok ["192.168.1.5"; "192.168.1.6"; "192.168.1.7"]).
Proof.
  split; [vm_compute; reflexivity|].
  rewrite (range_expansion_exact "192.168.1.7 - 5"); vm_compute; reflexivity.
Defined.

(** * CIDR blocks *)

(** C1.  Expanding an IPv4 CIDR with prefix length at least 1 terminates and
    yields exactly the host addresses of the block in ascending order: the
    network and broadcast addresses are excluded up to /30, a /31 keeps both
    addresses and a /32 its single one. *)
Theorem cidr_expansion_exact t N n fuel
    (HN : ParseCIDR t = Some N) (H4 : length (net_IP N) = 4%nat)
    (Hn : MaskSize (net_Mask N) = (n, 32)) (Hpos : 1 ≤ n)
    (Hf : (Z.to_nat (2 ^ (32 - n)) < fuel)%nat) :
  expandSingle fuel t true = Some (Ok (show4 <$> hosts4 (be_val (net_IP N)) n)).
Proof.
  unfold expandSingle. rewrite HN.
  destruct (ParseCIDR_v4 _ _ HN H4) as (base & m & -> & Hw & Hl & Hm & Hal).
  cbn [net4 net_IP net_Mask] in *. rewrite MaskSize_CIDRMask in Hn by lia.
  injection Hn as ->. fold (net4 base n). by rewrite enumerateCIDR_net4 by (done || lia).
Qed.

Lemma cidr_expansion_exact_witness :
  expandSingle 20 "10.1.2.64/29" true
  = Some (Ok ["10.1.2.65"; "10.1.2.66"; "10.1.2.67"; "10.1.2.68"; "10.1.2.69"; "10.1.2.70"]).
Proof.
  rewrite (cidr_expansion_exact "10.1.2.64/29" (mkIPNet [10;1;2;64] [255;255;255;248]) 29);
    [vm_compute; reflexivity..|lia|vm_compute; lia].
Defined.

(** With prefix length 0 every address is a member and the increment wraps
    around, so the loop has no exit. *)
Lemma enum_loop_all fuel base v :
  ip_wf base → length base = 4%nat → be_val base = trunc 32 (be_val base) →
  0 ≤ v < 2 ^ 32 → enum_loop fuel (net4 base 0) (ip4 v) = None.
Proof.
  intros Hw Hl Hal. revert v. induction fuel as [|fuel IH]; intros v Hv; simpl; [done|].
  rewrite Contains_ip4; [|done|done|lia|done|done].
  pose proof (be_val_range base Hw) as Hr. rewrite Hl in Hr.
  change (8 * Z.of_nat 4) with 32 in Hr.
  assert (be_val base = 0) as -> by (unfold trunc in Hal; rewrite Z.div_small in Hal; lia).
  rewrite bool_decide_true by (rewrite Z.sub_0_r; lia).
  rewrite incIP_ip4 by done. rewrite IH; [done|]. apply Z.mod_pos_bound. lia.
Qed.

(** Under the reserved-targets escape hatch the spec [0.0.0.0/0] is
    accepted by validation, and its expansion never terminates: the loop
    condition holds for every address and the increment wraps at
    255.255.255.255. *)
Theorem expand_all_v4_diverges (fuel : nat) :
  ValidateTargetsFor "0.0.0.0/0" true = None ∧
  ExpandTargetsFor fuel "0.0.0.0/0" true = None.
Proof.
  split; [vm_compute; reflexivity|].
  change (ExpandTargetsFor fuel "0.0.0.0/0" true)
    with (Ok (E:=cidr_err) <$> enumerateCIDR fuel (net4 [0;0;0;0] 0)).
  change (enumerateCIDR fuel (net4 [0;0;0;0] 0)) with
    ((fun ips : list string => let ips := drop 1 ips in
        if true && (0 <? length ips)%nat then take (length ips - 1) ips else ips)
     <$> enum_loop fuel (net4 [0;0;0;0] 0) (ip4 0)).
  rewrite enum_loop_all; [done| | | |lia].
  - repeat constructor; unfold is_byte; lia.
  - done.
  - vm_compute. reflexivity.
Qed.

(** * Reserved space as intervals *)

Definition reserved_val (v : Z) : Prop :=
  v = 0 ∨ 2130706432 ≤ v < 2147483648        (* 127.0.0.0/8 *)
  ∨ 2851995648 ≤ v < 2852061184              (* 169.254.0.0/16 *)
  ∨ 3758096384 ≤ v.                          (* 224.0.0.0/3 *)

Lemma multicast_byte w : is_byte w → (Z.land w 240 =? 224) = (224 <=? w) && (w <=? 239).
Proof.
  intros Hw. apply eqb_true_iff.
  by apply (byte_forall (fun w => Bool.eqb (Z.land w 240 =? 224) ((224 <=? w) && (w <=? 239)))).
Qed.

Lemma bytes_eqb_4 w x y z p q r s :
  bytes_eqb [w; x; y; z] [p; q; r; s] = (w =? p) && (x =? q) && (y =? r) && (z =? s).
Proof.
  unfold bytes_eqb. destruct (Z.eqb_spec w p), (Z.eqb_spec x q), (Z.eqb_spec y r),
    (Z.eqb_spec z s); cbn [andb]; (apply bool_decide_true || apply bool_decide_false); congruence.
Qed.

Lemma reservedClass_4 a : ip_wf a → length a = 4%nat →
  reservedClass (Some a) = "" ↔ ¬ reserved_val (be_val a).
Proof.
  intros Hw Hl. destruct (ip4_inv a Hl) as (w & x & y & z & ->).
  rewrite !Forall_cons_iff in Hw. destruct Hw as (? & ? & ? & ? & _).
  rewrite be_val_4. unfold reservedClass, IsUnspecified, IsLoopback, IsLinkLocalUnicast, IsMulticast.
  rewrite To4_4 by done.
  change (ip_equal [w; x; y; z] IPv4zero) with (true && bytes_eqb [w; x; y; z] [0; 0; 0; 0]).
  change (ip_equal [w; x; y; z] IPv6unspecified)
    with (false && bytes_eqb [w; x; y; z] [0; 0; 0; 0]).
  change (ip_equal [w; x; y; z] IPv4bcast)
    with (true && bytes_eqb [w; x; y; z] [255; 255; 255; 255]).
  change (byte_at [w; x; y; z] 0) with w. change (byte_at [w; x; y; z] 1) with x.
  rewrite multicast_byte, !bytes_eqb_4 by done. cbn [andb]. rewrite orb_false_r.
  unfold reserved_val, is_byte in *.
  repeat match goal with
  | |- (if ?b then _ else _) = _ ↔ _ =>
      let E := fresh "E" in
      destruct b eqn:E;
        [split; [discriminate|]; intros Hr; exfalso; apply Hr;
         rewrite ?andb_true_iff, ?Z.eqb_eq, ?Z.leb_le in E; lia|]
  end.
  split; [intros _ Hr|done].
  rewrite ?andb_false_iff, ?Z.eqb_neq, ?Z.leb_gt in *. lia.
Qed.

(** * The last address of a block *)

Lemma or_byte n b : 0 ≤ n < 8 → is_byte b →
  Z.lor b (255 - (255 - Z.shiftr 255 n)) = trunc (8 - n) b + 2 ^ (8 - n) - 1.
Proof.
  intros Hn Hb.
  pose proof (byte_forall (fun b => forallb (fun n =>
    Z.lor b (255 - (255 - Z.shiftr 255 n)) =? trunc (8 - n) b + 2 ^ (8 - n) - 1) (seqZ 0 8))
    ltac:(vm_compute; reflexivity) b Hb) as H. cbv beta in H.
  rewrite forallb_forall in H. apply Z.eqb_eq, H, list_elem_of_In, elem_of_seqZ. lia.
Qed.

Definition or_not (b m : Z) : Z := Z.lor b (255 - m).

Lemma or_not_zeros a l : ip_wf a → length a = l →
  be_val (zip_with or_not a (replicate l 0)) = 2 ^ (8 * Z.of_nat l) - 1.
Proof.
  intros Ha <-. induction Ha as [|b a Hb Ha IH]; [done|].
  cbn [zip_with replicate length be_val]. rewrite IH, length_zip_with, length_replicate, Nat.min_id.
  assert (or_not b 0 = 255) as ->.
  { apply Z.eqb_eq. by apply (byte_forall (fun b => or_not b 0 =? 255)). }
  replace (8 * Z.of_nat (S (length a))) with (8 + 8 * Z.of_nat (length a)) by lia.
  rewrite Z.pow_add_r by lia. lia.
Qed.

Lemma or_CIDRMask a n : ip_wf a → 0 ≤ n ≤ 8 * Z.of_nat (length a) →
  let h := 8 * Z.of_nat (length a) - n in
  be_val (zip_with or_not a (CIDRMask n (length a))) = trunc h (be_val a) + 2 ^ h - 1.
Proof.
  intros Ha. cbv zeta. revert n. induction Ha as [|b a Hb Ha IH]; intros n Hn.
  { cbn [length] in *. assert (n = 0) as -> by lia. done. }
  cbn [length] in *. cbn [CIDRMask].
  pose proof (be_val_range a Ha) as Hr. set (L := 8 * Z.of_nat (length a)) in *.
  replace (8 * Z.of_nat (S (length a))) with (L + 8) in * by lia.
  assert (0 < 2 ^ L) by lia.
  destruct (Z.leb_spec 8 n); cbn [zip_with be_val];
    rewrite length_zip_with, CIDRMask_length, Nat.min_id; fold L.
  - rewrite IH by lia. replace (L - (n - 8)) with (L + 8 - n) by lia. set (h := L + 8 - n).
    assert (or_not b 255 = b) as ->
      by (unfold or_not; rewrite Z.sub_diag; apply Z.lor_0_r).
    unfold trunc. replace L with (h + (L - h)) by lia. rewrite Z.pow_add_r by lia.
    replace (b * (2 ^ h * 2 ^ (L - h)) + be_val a)
      with (b * 2 ^ (L - h) * 2 ^ h + be_val a) by lia.
    assert (0 < 2 ^ h) by (apply Z.pow_pos_nonneg; lia).
    rewrite Z.div_add_l by lia. lia.
  - rewrite CIDRMask_0, or_not_zeros by done. fold L.
    unfold or_not. rewrite or_byte by (done || lia). unfold trunc.
    replace (L + 8 - n) with (L + (8 - n)) by lia. rewrite (Z.pow_add_r 2 L) by lia.
    assert (0 < 2 ^ (8 - n)) by (apply Z.pow_pos_nonneg; lia).
    rewrite <- Z.div_div by lia.
    rewrite (Z.div_add_l b), (Z.div_small (be_val a)), !Z.add_0_r by lia. lia.
Qed.

Lemma or_CIDRMask_wf a n : ip_wf a → 0 ≤ n → ip_wf (zip_with or_not a (CIDRMask n (length a))).
Proof.
  intros Ha. revert n. induction Ha as [|b a Hb Ha IH]; intros n Hn; [constructor|].
  cbn [length CIDRMask]. destruct (Z.leb_spec 8 n); cbn [zip_with]; constructor;
    try (apply IH; lia).
  - unfold or_not. by rewrite Z.sub_diag, Z.lor_0_r.
  - unfold or_not. rewrite or_byte by (done || lia).
    assert (0 < 2 ^ (8 - n) ≤ 256)
      by (split; [apply Z.pow_pos_nonneg; lia|apply (Z.pow_le_mono_r 2 _ 8); lia]).
    pose proof (Z.div_pos b (2 ^ (8 - n))). unfold is_byte, trunc in *.
    assert (b / 2 ^ (8 - n) < 2 ^ n).
    { apply Z.div_lt_upper_bound; [lia|]. rewrite <- Z.pow_add_r by lia.
      replace (8 - n + n) with 8 by lia. lia. }
    assert (2 ^ (8 - n) * 2 ^ n = 256)
      by (rewrite <- Z.pow_add_r by lia; by replace (8 - n + n) with 8 by lia).
    nia.
Qed.

Lemma lastAddress_net4 base n :
  ip_wf base → length base = 4%nat → 0 ≤ n < 32 →
  be_val base = trunc (32 - n) (be_val base) →
  ∃ l, lastAddress (net4 base n) = Some l ∧ ip_wf l ∧ length l = 4%nat ∧
       be_val l = be_val base + 2 ^ (32 - n) - 1.
Proof.
  intros Hw Hl Hn Hal. unfold lastAddress, net4. cbn [net_IP net_Mask].
  rewrite MaskSize_CIDRMask by lia. change (8 * Z.of_nat 4) with 32.
  destruct (Z.leb_spec 32 n); [lia|]. eexists. split; [done|].
  change (zip_with _ base (CIDRMask n 4)) with (zip_with or_not base (CIDRMask n 4)).
  pose proof (or_CIDRMask base n Hw) as E. pose proof (or_CIDRMask_wf base n Hw) as W.
  cbv zeta in E. rewrite Hl in E, W. change (8 * Z.of_nat 4) with 32 in E.
  split; [apply W; lia|]. split; [by rewrite length_zip_with, CIDRMask_length, Hl|].
  rewrite E by lia. by rewrite <- Hal.
Qed.

(** * No reserved address is ever expanded *)

Lemma enum_loop_mono f f' n cur l :
  enum_loop f n cur = Some l → (f ≤ f')%nat → enum_loop f' n cur = Some l.
Proof.
  revert f' cur l. induction f as [|f IH]; intros f' cur l; simpl; [done|].
  intros H Hf. destruct f' as [|f']; [lia|]. simpl. destruct (Contains n cur); [|done].
  apply fmap_Some in H as (l' & H & ->). erewrite IH by (done || lia). done.
Qed.

Lemma enumerateCIDR_mono f f' n l :
  enumerateCIDR f n = Some l → (f ≤ f')%nat → enumerateCIDR f' n = Some l.
Proof.
  unfold enumerateCIDR. destruct (MaskSize (net_Mask n)) as [ones bits].
  destruct (ones =? bits); [done|]. intros (l' & H & ->)%fmap_Some Hf.
  by erewrite enum_loop_mono.
Qed.

Lemma hosts4_range v n w : 0 ≤ n ≤ 32 → w ∈ hosts4 v n → v ≤ w < v + 2 ^ (32 - n).
Proof.
  intros Hn. unfold hosts4.
  destruct (Z.eqb_spec n 32) as [->|]; [|destruct (Z.eqb_spec n 31) as [->|]].
  - rewrite list_elem_of_singleton. intros ->. simpl. lia.
  - rewrite elem_of_seqZ. simpl. lia.
  - rewrite elem_of_seqZ. lia.
Qed.

(** A part that is not an IPv4 or IPv6 block wider than an IPv4 /15. *)
Definition narrow (t : string) : Prop :=
  ∀ N, ParseCIDR t = Some N → length (net_IP N) = 4%nat ∧ 15 ≤ (MaskSize (net_Mask N)).1.

(** [s] prints an address outside every reserved class. *)
Definition unreserved (s : string) : Prop :=
  ∃ a, s = ip_string a ∧ reservedClass (Some a) = "".

Lemma unreserved_show4 v : 0 ≤ v < 2 ^ 32 → ¬ reserved_val v → unreserved (show4 v).
Proof.
  intros Hv Hr. exists (ip4 v). split; [done|]. destruct (ip4_wf v).
  apply reservedClass_4; [done..|]. by rewrite be_val_ip4.
Qed.

Lemma checkReserved_None part f l :
  checkReserved part f l = None →
  reservedClass f = "" ∧ (∀ a, l = Some a → reservedClass (Some a) = "").
Proof.
  unfold checkReserved. destruct (reservedClass f) eqn:E; [|done]. cbn [is_empty negb].
  destruct l as [a|]; [|by split]. cbv zeta.
  destruct (reservedClass (Some a)) eqn:E2; cbn [is_empty negb]; [|done].
  intros _. split; [done|]. intros b [= <-]. done.
Qed.

Lemma interval_unreserved s e v :
  ¬ reserved_val s → ¬ reserved_val e → s ≤ v ≤ e → 0 ≤ s → e - s < 65536 →
  ¬ reserved_val v.
Proof. unfold reserved_val. lia. Qed.

(** A block of at most 2^17 addresses, aligned on its size. *)
Lemma block_unreserved b h v :
  0 ≤ h ≤ 17 → b = trunc h b → 0 ≤ b →
  ¬ reserved_val b → ¬ reserved_val (b + 2 ^ h - 1) →
  b ≤ v < b + 2 ^ h → ¬ reserved_val v.
Proof.
  intros Hh Hal Hb H1 H2 Hv. destruct (decide (h = 17)) as [->|Hne].
  - unfold trunc in Hal. change (2 ^ 17) with 131072 in *. unfold reserved_val in *. lia.
  - assert (2 ^ h ≤ 65536) by (apply (Z.pow_le_mono_r 2 _ 16); lia).
    apply (interval_unreserved b (b + 2 ^ h - 1) v); (done || lia).
Qed.

Lemma cidr_part_unreserved fuel t N ips :
  ParseCIDR t = Some N → narrow t →
  checkReserved t (Some (net_IP N)) (lastAddress N) = None →
  enumerateCIDR fuel N = Some ips → Forall unreserved ips.
Proof.
  intros HN Hnar Hc He. destruct (Hnar _ HN) as [H4 H15].
  destruct (ParseCIDR_v4 _ _ HN H4) as (base & n & -> & Hw & Hl & Hn & Hal).
  cbn [net4 net_IP net_Mask] in *. rewrite MaskSize_CIDRMask in H15 by lia.
  cbn [fst] in H15. fold (net4 base n) in *.
  eapply enumerateCIDR_mono in He; [|apply (Nat.le_add_r _ (S (Z.to_nat (2 ^ (32 - n)))))].
  rewrite enumerateCIDR_net4 in He by (done || lia). injection He as <-.
  pose proof (be_val_range base Hw) as Hr. rewrite Hl in Hr.
  change (8 * Z.of_nat 4) with 32 in Hr.
  pose proof (block_fits base n Hw Hl Hal ltac:(lia)).
  apply checkReserved_None in Hc as [Hfirst Hlast].
  apply reservedClass_4 in Hfirst; [|done..].
  assert (¬ reserved_val (be_val base + 2 ^ (32 - n) - 1)) as Hend.
  { destruct (decide (n = 32)) as [->|].
    - by replace (be_val base + 2 ^ (32 - 32) - 1) with (be_val base) by (simpl; lia).
    - destruct (lastAddress_net4 base n) as (l & El & Wl & Ll & Vl); [done..|lia|done|].
      apply Hlast in El. apply reservedClass_4 in El; [|done..]. by rewrite Vl in El. }
  apply Forall_fmap, Forall_forall. intros w Hw'%list_elem_of_In%hosts4_range; [|lia].
  apply unreserved_show4; [lia|].
  apply (block_unreserved (be_val base) (32 - n)); (done || lia).
Qed.

Lemma expandSingle_unreserved fuel t ips :
  expandSingle fuel t false = Some (Ok ips) → narrow t → Forall unreserved ips.
Proof.
  unfold expandSingle. intros H Hnar. destruct (ParseCIDR t) as [N|] eqn:EN.
  { destruct (checkReserved _ _ _) eqn:EC; [done|].
    apply fmap_Some in H as (l & Hl & [= ->]). by eapply cidr_part_unreserved. }
  destruct (ParseIP t) as [a|] eqn:EI.
  { destruct (reservedClass (Some a)) eqn:ER; [|done]. simpl in H. injection H as <-.
    apply Forall_singleton. by exists a. }
  destruct (str_mem "-" t); [|done].
  destruct (rangeBounds t) as [[s e]|] eqn:EB; [|done].
  destruct (checkReserved _ _ _) eqn:EC; [done|].
  apply rangeBounds_wf in EB as (Ws & Ls & We & Le & Hle).
  rewrite enumerateRange_ok in H by done. cbv zeta in H. unfold maxRangeIPs in H.
  destruct (Z.ltb_spec 65536 (be_val e - be_val s + 1)); [done|]. injection H as <-.
  apply checkReserved_None in EC as [H1 H2].
  apply reservedClass_4 in H1; [|done..]. specialize (H2 e eq_refl).
  apply reservedClass_4 in H2; [|done..].
  pose proof (be_val_range s Ws) as Rs. pose proof (be_val_range e We) as Re.
  rewrite Ls in Rs. rewrite Le in Re. change (8 * Z.of_nat 4) with 32 in *.
  apply Forall_fmap, Forall_forall. intros w Hw%list_elem_of_In%elem_of_seqZ.
  apply unreserved_show4; [lia|].
  apply (interval_unreserved (be_val s) (be_val e)); (done || lia).
Qed.

Lemma expand_parts_unreserved fuel parts ips :
  expand_parts fuel parts false = Some (Ok ips) →
  Forall (fun p => narrow (trim_space p)) parts → Forall unreserved ips.
Proof.
  intros H Hp. revert ips H. induction Hp as [|p ps Hp _ IH]; intros ips; simpl.
  { intros [= <-]. constructor. }
  destruct (is_empty (trim_space p)); [apply IH|].
  destruct (expandSingle fuel (trim_space p) false) as [[l|e]|] eqn:E; [|done..].
  intros (r & Hr & Heq)%fmap_Some. symmetry in Heq.
  apply rbind_ok in Heq as (rest & -> & [= <-]). apply Forall_app. split; [|by apply IH].
  by eapply expandSingle_unreserved.
Qed.

(** C2.  Without the escape hatch, a target spec whose CIDR parts are IPv4
    blocks of prefix length at least 15 never expands to a reserved address
    (unspecified, loopback, link-local, multicast, broadcast, 240/4): the
    check of the two endpoints of each part is enough.  Ranges need no
    hypothesis, because their size is capped at 65536. *)
Theorem expand_never_reserved fuel targets ips
    (H : ExpandTargets fuel targets = Some (Ok ips))
    (Hp : Forall (fun p => narrow (trim_space p)) (split_on "," (trim_space targets))) :
  Forall unreserved ips.
Proof.
  unfold ExpandTargets, ExpandTargetsFor in H. cbv zeta in H.
  destruct (is_empty (trim_space targets)); [done|].
  destruct (str_mem "," (trim_space targets)) eqn:E.
  - apply fmap_Some in H as (r & Hr & Heq). symmetry in Heq.
    apply rbind_ok in Heq as (l & -> & Hl). destruct l; [done|]. injection Hl as <-.
    by eapply expand_parts_unreserved.
  - rewrite split_on_no_sep in Hp by done. apply Forall_inv in Hp.
    cbv beta in Hp. rewrite trim_space_idemp in Hp. by eapply expandSingle_unreserved.
Qed.

Lemma expand_never_reserved_witness :
  Forall unreserved ["10.9.8.1"; "10.9.8.2"; "172.16.0.9"].
Proof.
  apply (expand_never_reserved 20 " 10.9.8.0/30, 172.16.0.9"); [vm_compute; reflexivity|].
  change (split_on "," (trim_space " 10.9.8.0/30, 172.16.0.9"))
    with ["10.9.8.0/30"; " 172.16.0.9"].
  assert (ParseCIDR "10.9.8.0/30" = Some (mkIPNet [10;9;8;0] [255;255;255;252])) as E1
    by (vm_compute; reflexivity).
  assert (ParseCIDR "172.16.0.9" = None) as E2 by (vm_compute; reflexivity).
  constructor; [|constructor; [|constructor]]; intros N;
    [change (trim_space "10.9.8.0/30") with "10.9.8.0/30"; rewrite E1; intros [= <-]
    |change (trim_space " 172.16.0.9") with "172.16.0.9"; rewrite E2; discriminate].
  split; [reflexivity|vm_compute; discriminate].
Defined.

(** The endpoint check does not see reserved space strictly inside a
    block: 169.252.0.0/14 is accepted without the escape hatch although it
    contains the link-local 169.254.0.0/16, so the documented rejection of
    parts that fall partly into reserved space fails at prefix length 14. *)
Theorem validate_misses_inner_reserved :
  ValidateTargets "169.252.0.0/14" = None ∧
  ∃ N a, ParseCIDR "169.252.0.0/14" = Some N ∧ ParseIP "169.254.0.1" = Some a ∧
         Contains N a = true ∧ reservedClass (Some a) = "link-local unicast".
Proof.
  split; [vm_compute; reflexivity|].
  exists (mkIPNet [169;252;0;0] [255;252;0;0]), (IPv4 169 254 0 1).
  split_and!; vm_compute; reflexivity.
Qed.

(** * Validation and expansion agree *)





(** * Fuel: expansion of finite specs returns *)








(** * Partition by network *)

(** A string printed by [show4] is a member exactly when its value is. *)
Lemma contains_show4 base n v :
  ip_wf base → length base = 4%nat → be_val base = trunc (32 - n) (be_val base) →
  0 ≤ n ≤ 32 → 0 ≤ v < 2 ^ 32 →
  contains_str_ip (net4 base n) (show4 v)
  = bool_decide (be_val base ≤ v < be_val base + 2 ^ (32 - n)).
Proof.
  intros. unfold contains_str_ip, show4. destruct (ip4_wf v).
  rewrite ParseIP_string_4 by done. cbn [default from_option]. unfold id.
  rewrite Contains_mapped by done. by apply Contains_ip4.
Qed.

Lemma sub_block b t H h w :
  0 ≤ h ≤ H → b = trunc H b → t = trunc h t →
  b ≤ t < b + 2 ^ H → t ≤ w < t + 2 ^ h → b ≤ w < b + 2 ^ H.
Proof.
  intros Hh Hb Ht Hin Hw. unfold trunc in *.
  set (q := b / 2 ^ H) in *. set (r := t / 2 ^ h) in *.
  assert (2 ^ H = 2 ^ (H - h) * 2 ^ h) as E
    by (rewrite <- Z.pow_add_r by lia; f_equal; lia).
  assert (0 < 2 ^ h) by (apply Z.pow_pos_nonneg; lia).
  assert (b + 2 ^ H = (q + 1) * 2 ^ (H - h) * 2 ^ h) as E2 by lia.
  assert (r < (q + 1) * 2 ^ (H - h)) by nia. nia.
Qed.

(** A validated single IPv4 block expands to its hosts. *)
Lemma expand_valid_block fuel t T m :
  ParseCIDR t = Some T → length (net_IP T) = 4%nat → MaskSize (net_Mask T) = (m, 32) →
  1 ≤ m → trim_space t = t → str_mem "," t = false → ValidateTargets t = None →
  (Z.to_nat (2 ^ (32 - m)) < fuel)%nat →
  ExpandTargets fuel t = Some (Ok (show4 <$> hosts4 (be_val (net_IP T)) m)).
Proof.
  intros HT HT4 Hm Hpos Htrim Hcomma Hval Hf.
  destruct (ParseCIDR_v4 _ _ HT HT4) as (tb & m' & -> & Wt & Lt & Hm' & At).
  cbn [net4 net_IP net_Mask] in *. rewrite MaskSize_CIDRMask in Hm by lia.
  injection Hm as ->. fold (net4 tb m) in *.
  unfold ValidateTargets, ValidateTargetsFor in Hval. cbv zeta in Hval.
  rewrite Htrim in Hval. destruct (is_empty t) eqn:EE; [done|].
  rewrite split_on_no_sep in Hval by done. cbn [validate_parts] in Hval.
  rewrite Htrim, EE in Hval. unfold validate_part in Hval. rewrite HT in Hval.
  unfold ExpandTargets, ExpandTargetsFor. cbv zeta. rewrite Htrim, EE, Hcomma.
  unfold expandSingle. rewrite HT.
  destruct (checkReserved _ _ _); [done|]. by rewrite enumerateCIDR_net4 by (done || lia).
Qed.

(** A valid target block that lies inside the agent's IPv4 network is
    reported as inside in full: the partition returns all host addresses of
    the block as in-network and none as out-of-network, so printing an
    address and parsing it back for the membership test loses nothing. *)
Theorem partition_subnet fuel t T cidr N n m
    (HT : ParseCIDR t = Some T) (HT4 : length (net_IP T) = 4%nat)
    (HN : ParseNetwork cidr = Ok N) (HN4 : length (net_IP N) = 4%nat)
    (Hn : MaskSize (net_Mask N) = (n, 32)) (Hm : MaskSize (net_Mask T) = (m, 32))
    (Hsub : 1 ≤ m ∧ n ≤ m) (Hin : Contains N (net_IP T) = true)
    (Htrim : trim_space t = t) (Hcomma : str_mem "," t = false)
    (Hval : ValidateTargets t = None) (Hf : (Z.to_nat (2 ^ (32 - m)) < fuel)%nat) :
  PartitionTargets fuel t (Some N)
  = Some (Ok (show4 <$> hosts4 (be_val (net_IP T)) m, [])).
Proof.
  unfold PartitionTargets. rewrite (expand_valid_block fuel t T m) by (done || lia).
  cbn [fmap option_fmap option_map rbind].
  assert (∃ s, ParseCIDR s = Some N) as [s HN'].
  { unfold ParseNetwork in HN. cbv zeta in HN. destruct (is_empty _); [done|].
    apply rbind_ok in HN as (s & _ & HN). exists s. destruct (ParseCIDR s); congruence. }
  destruct (ParseCIDR_v4 _ _ HT HT4) as (tb & m' & -> & Wt & Lt & Hm' & At).
  destruct (ParseCIDR_v4 _ _ HN' HN4) as (nb & n' & -> & Wn & Ln & Hn' & An).
  cbn [net4 net_IP net_Mask] in *. rewrite MaskSize_CIDRMask in Hn, Hm by lia.
  injection Hn as ->. injection Hm as ->. fold (net4 tb m) (net4 nb n) in *.
  rewrite <- (ip4_be_val tb) in Hin by done.
  pose proof (block_fits tb m Wt Lt At ltac:(lia)) as Fit.
  pose proof (be_val_range tb Wt) as Rt. rewrite Lt in Rt.
  change (8 * Z.of_nat 4) with 32 in Rt.
  rewrite Contains_ip4 in Hin by (done || lia). apply bool_decide_eq_true in Hin.
  assert (Forall (fun s => contains_str_ip (net4 nb n) s = true)
                 (show4 <$> hosts4 (be_val tb) m)) as HF.
  { apply Forall_fmap, Forall_forall. intros w Hw%list_elem_of_In%hosts4_range; [|lia].
    unfold compose. rewrite contains_show4 by (done || lia). apply bool_decide_true.
    apply (sub_block (be_val nb) (be_val tb) (32 - n) (32 - m)); (done || lia). }
  do 3 f_equal.
  - by apply filter_all.
  - apply filter_none. eapply Forall_impl; [|exact HF]. cbv beta. intros ? ->. done.
Qed.

Lemma partition_subnet_witness :
  PartitionTargets 5 "10.0.5.0/30" (Some (mkIPNet [10;0;0;0] [255;255;0;0]))
  = Some (Ok (["10.0.5.1"; "10.0.5.2"], [])).
Proof.
  rewrite (partition_subnet 5 "10.0.5.0/30" (mkIPNet [10;0;5;0] [255;255;255;252])
    "10.0.0.0/16" (mkIPNet [10;0;0;0] [255;255;0;0]) 16 30);
    [..|vm_compute; lia]; try lia; vm_compute; reflexivity.
Defined.
