(* ===== verification/Db.v ===== *)
(** The rows of the SQLite tables the liveness, change and notification
    components share (src/internal/db/models.go), and the canonical text form
    of timestamps.

    Go times are nanoseconds since the epoch ([Z]).  Columns written through
    [DBTime] hold RFC3339 UTC text with second precision, whose lexicographic
    order on four-digit years is the order of the seconds: such a column is a
    number of seconds.  A nullable column is an [option]. *)

From S2P Require Import Prelude Float64.

Open Scope Z_scope.

Definition nanos_per_second : Z := 1000000000.
Definition minute : Z := 60 * nanos_per_second.

(** [scannerv2.DBTime]: formatting in UTC with second precision truncates. *)
Definition DBTime (t : Z) : Z := t / nanos_per_second.

(** [time.Parse(time.RFC3339, s)] of a stored column. *)
Definition parse_db_time (s : Z) : Z := s * nanos_per_second.

(** [time.Time.Format(time.RFC3339)] of a UTC time.  The civil date of a day
    number (days since 1970-01-01), with years counted from March. *)
Definition civil_of_days (days : Z) : Z * Z * Z :=
  let z := days + 719468 in
  let era := z / 146097 in
  let doe := z - era * 146097 in
  let yoe := (doe - doe / 1460 + doe / 36524 - doe / 146096) / 365 in
  let doy := doe - (365 * yoe + yoe / 4 - yoe / 100) in
  let mp := (5 * doy + 2) / 153 in
  let d := doy - (153 * mp + 2) / 5 + 1 in
  let m := if mp <? 10 then mp + 3 else mp - 9 in
  (yoe + era * 400 + (if m <=? 2 then 1 else 0), m, d).

(** A number padded with zeros to two or four digits. *)
Definition pad2 (n : Z) : string := if n <? 10 then "0" +:+ itoa n else itoa n.
Definition pad4 (n : Z) : string :=
  if n <? 10 then "000" +:+ itoa n else if n <? 100 then "00" +:+ itoa n
  else if n <? 1000 then "0" +:+ itoa n else itoa n.

Definition format_RFC3339 (t : Z) : string :=
  let secs := t / nanos_per_second in
  let days := secs / 86400 in
  let s := secs - days * 86400 in
  let '(y, m, d) := civil_of_days days in
  pad4 y +:+ "-" +:+ pad2 m +:+ "-" +:+ pad2 d +:+ "T" +:+
  pad2 (s / 3600) +:+ ":" +:+ pad2 ((s / 60) - (s / 3600) * 60) +:+ ":" +:+ pad2 (s - (s / 60) * 60) +:+ "Z".

Example format_RFC3339_leap : format_RFC3339 (1709210096 * nanos_per_second) = "2024-02-29T12:34:56Z".
Proof. vm_compute. reflexivity. Qed.

Lemma DBTime_mono a b : a ≤ b → DBTime a ≤ DBTime b.
Proof. intros. unfold DBTime. apply Z.div_le_mono; unfold nanos_per_second; lia. Qed.

(** Rounding to whole seconds never makes a stored time later than the
    instant it was taken from, nor a full second earlier. *)
Lemma DBTime_round t : parse_db_time (DBTime t) ≤ t < parse_db_time (DBTime t) + nanos_per_second.
Proof.
  unfold parse_db_time, DBTime, nanos_per_second.
  pose proof (Z.div_mod t 1000000000 ltac:(lia)).
  pose proof (Z.mod_pos_bound t 1000000000 ltac:(lia)). lia.
Qed.

(** The columns of [devices] that the modelled components read or write. *)
Record Device := mkDevice {
  dev_ID : Z;
  dev_DeviceUuid : string;
  dev_Name : string;
  dev_Type : string;
  dev_Brand : string;
  dev_Model : string;
  dev_Status : string;
  dev_IpAddress : string;
  dev_MacAddress : string;
  dev_ScanSource : string;
  dev_OpenPorts : string;
  dev_DetectedServices : string;
  dev_PrometheusUrl : string;
  dev_NodeExporterUrl : string;
  dev_ScanAttributes : string;
  dev_NetworkID : option Z;
  dev_LastSeen : option Z;
  dev_LastScannedAt : option Z;
  dev_OfflineSince : option Z;
  dev_UpdatedAt : Z
}.

#[export] Instance Device_eq_dec : EqDecision Device.
Proof. solve_decision. Defined.

Record ChangeLog := mkChangeLog {
  cl_ID : Z;
  cl_AgentID : option string;
  cl_NetworkID : option Z;
  cl_ChangeType : string;
  cl_EntityType : string;
  cl_EntityID : option Z;
  cl_BeforeData : option string;
  cl_AfterData : option string;
  cl_DetectedAt : Z
}.

#[export] Instance ChangeLog_eq_dec : EqDecision ChangeLog.
Proof. solve_decision. Defined.

Record ScanSnapshot := mkScanSnapshot {
  ss_ID : Z;
  ss_NetworkID : Z;
  ss_TaskID : option Z;
  ss_Ip : string;
  ss_Mac : string;
  ss_DeviceUuid : string;
  ss_MissCount : Z;
  ss_LastSeenAt : Z;
  ss_FlapCount : Z;
  ss_LastFlapAt : option Z
}.

#[export] Instance ScanSnapshot_eq_dec : EqDecision ScanSnapshot.
Proof. solve_decision. Defined.

Record Network := mkNetwork {
  net_ID : Z;
  net_Name : string;
  net_Cidr : option string;
  net_AgentID : option string
}.

Record NotificationRule := mkRule {
  rule_ID : Z;
  rule_Name : string;
  rule_EventType : string;
  rule_ScopeType : string;
  rule_ScopeNetworkID : option Z;
  rule_ScopeDeviceUuid : string;
  rule_ChannelID : Z;
  rule_CooldownMinutes : Z;
  rule_Enabled : Z
}.

Record NotificationChannel := mkChannel {
  ch_ID : Z;
  ch_Name : string;
  ch_Type : string;
  ch_Config : string;
  ch_Enabled : Z
}.

(** A probe target; the time of the last run is in seconds, [None] is the empty
    column of a target that never ran. *)
Record ProbeTarget := mkProbeTarget {
  pt_ID : Z;
  pt_Name : string;
  pt_Module : string;
  pt_Target : string;
  pt_IntervalSeconds : Z;
  pt_TimeoutSeconds : Z;
  pt_Enabled : Z;
  pt_Notes : string;
  pt_LastRunAt : option Z;
  pt_LastStatus : string;
  pt_LastLatencyMs : f64;
  pt_LastError : string;
  pt_Vantage : string;
  pt_Options : string;
  pt_DeviceID : option Z;
  pt_Source : string
}.

(** One row of the result series; agents send the time as text. *)
Record ProbeResult := mkProbeResult {
  pr_ID : Z;
  pr_TargetID : Z;
  pr_Status : string;
  pr_LatencyMs : f64;
  pr_StatusCode : Z;
  pr_ErrorMessage : string;
  pr_TlsVersion : string;
  pr_CertNotAfter : string;
  pr_CertTrusted : Z;
  pr_CheckedAt : string;
  pr_Vantage : string
}.

Record NotificationLog := mkNotificationLog {
  nl_RuleID : option Z;
  nl_ChannelID : option Z;
  nl_Status : string;
  nl_Payload : string;
  nl_ErrorMessage : string
}.

Record HeartbeatConfig := mkHbConfig {
  hc_ID : Z;
  hc_DeviceID : Z;
  hc_Method : string;
  hc_Target : string;
  hc_IntervalSeconds : Z;
  hc_TimeoutSeconds : Z;
  hc_SnmpCommunity : string;
  hc_SnmpOid : string;
  hc_Enabled : Z
}.

Record AgentCommand := mkAgentCommand {
  ac_ID : Z;
  ac_AgentID : string;
  ac_Command : string;
  ac_Payload : string;
  ac_Status : string;
  ac_CreatedAt : Z;
  ac_AcknowledgedAt : option Z;
  ac_Result : option string
}.

#[export] Instance AgentCommand_eq_dec : EqDecision AgentCommand.
Proof. solve_decision. Defined.
