(* ===== verification/Report.v ===== *)
(** What a scan reports about one host (src/internal/service/scannerv2/orchestrator.go
    and evidence.go), and the MAC address it is identified by
    (store/sqlite.go, runner/device_bridge.go). *)

From S2P Require Import Prelude.

Open Scope Z_scope.

(** * Host reports *)

(** The fields of [fp.Evidence] and [fp.ServiceIdentity] (types of the
    fingerprint library) that the sources read. *)
Record Evidence := mkEvidence {
  e_Kind : string;
  e_Port : Z;
  e_RawData : gmap string string
}.

(** The confidence is only compared and copied: it is kept in thousandths. *)
Record ServiceIdentity := mkService {
  s_Service : string;
  s_Port : Z;
  s_Protocol : string;
  s_Confidence : Z;
  s_Metadata : gmap string string
}.

Record HeartbeatSpec := mkSpec {
  sp_Method : string;
  sp_Target : string;
  sp_IntervalSeconds : Z;
  sp_TimeoutSeconds : Z;
  sp_SNMPCommunity : string;
  sp_SNMPOID : string
}.

(** [Device] is represented by its [Fields]; a missing key reads as the empty
    string. *)
Record HostReport := mkReport {
  hr_IP : string;
  hr_Alive : bool;
  hr_RTTMs : Z;
  hr_DeviceFields : gmap string string;
  hr_Evidence : list Evidence;
  hr_Services : list ServiceIdentity;
  hr_Heartbeats : list HeartbeatSpec;
  hr_Passive : bool
}.

Definition rep_field (rep : HostReport) (k : string) : string := default "" (hr_DeviceFields rep !! k).

(** * MAC addresses *)

Definition is_hex_lower (a : ascii) : bool :=
  let x := ascii_Z a in ((48 <=? x) && (x <=? 57)) || ((97 <=? x) && (x <=? 102)).

Definition is_mac_sep (a : ascii) : bool := str_mem a ":- .".

(** The loop that writes the colon form of twelve hexadecimal digits. *)
Fixpoint mac_pairs (s : string) : string :=
  match s with
  | String a (String b EmptyString) => s
  | String a (String b s) => String a (String b (String ":" (mac_pairs s)))
  | _ => s
  end.

Definition NormalizeMAC (s : string) : string :=
  let s := trim_space (to_lower s) in
  if decide (s = "") then ""
  else
    let hex := filter_string (fun a => negb (is_mac_sep a)) s in
    if negb (Nat.eqb (String.length hex) 12) then ""
    else if negb (forall_string is_hex_lower hex) then ""
    else mac_pairs hex.

Fixpoint evidence_mac (es : list Evidence) : string :=
  match es with
  | [] => ""
  | e :: es =>
      if decide (e_Kind e = "mac")
      then let m := NormalizeMAC (default "" (e_RawData e !! "mac")) in
           if decide (m = "") then evidence_mac es else m
      else evidence_mac es
  end.

Definition reportMAC (rep : HostReport) : string :=
  let m := NormalizeMAC (default "" (hr_DeviceFields rep !! "mac")) in
  if decide (m = "") then evidence_mac (hr_Evidence rep) else m.
