(* ===== verification/ChangeDetect.v ===== *)
(** Package [changedetect] (src/internal/changedetect/recorder.go): the device
    diffs that gate change events, the recorder with its cooldown, and the
    watcher that fans recorded rows out to subscribers.

    [encoding/json] enters through three functions: the text of a marshalled
    snapshot, the parse of a JSON object into raw members, and the text of an
    object.  Times are nanoseconds; each [time.Now] is an argument. *)

From S2P Require Import Prelude Db.

Open Scope Z_scope.

(** * Event vocabulary *)

Definition ChangeTypeDeviceAdded : string := "device_added".
Definition ChangeTypeDeviceChanged : string := "device_changed".
Definition ChangeTypeDeviceLost : string := "device_lost".
Definition ChangeTypeDeviceRecovered : string := "device_recovered".
Definition ChangeTypeSpeaksWithNew : string := "speaks_with_new".
Definition ChangeTypeListenPortAdded : string := "listen_port_added".
Definition ChangeTypeDeviceConfigChanged : string := "device_config_changed".
Definition ChangeTypeProbeFailed : string := "probe_failed".
Definition ChangeTypeProbeRecovered : string := "probe_recovered".
Definition ChangeTypeAgentOffline : string := "agent_offline".
Definition ChangeTypeAgentRecovered : string := "agent_recovered".

Definition EntityTypeDevice : string := "device".
Definition EntityTypeProbeTarget : string := "probe_target".
Definition EntityTypeAgent : string := "agent".

Record DeviceSnapshot := mkSnapshot {
  sn_Name : string;
  sn_Type : string;
  sn_Brand : string;
  sn_Model : string;
  sn_MacAddress : string;
  sn_IPAddress : string;
  sn_Status : string;
  sn_OpenPorts : string;
  sn_DetectedServices : string;
  sn_PrometheusURL : string;
  sn_NodeExporterURL : string;
  sn_ScanAttributes : string
}.

#[export] Instance DeviceSnapshot_eq_dec : EqDecision DeviceSnapshot.
Proof. solve_decision. Defined.

Definition SnapshotFromDevice (d : Device) : DeviceSnapshot :=
  mkSnapshot (dev_Name d) (dev_Type d) (dev_Brand d) (dev_Model d) (dev_MacAddress d)
    (dev_IpAddress d) (dev_Status d) (dev_OpenPorts d) (dev_DetectedServices d)
    (dev_PrometheusUrl d) (dev_NodeExporterUrl d) (dev_ScanAttributes d).

(** The dynamic values the callers put into the [any] fields of an event: the
    nil interface, a [*DeviceSnapshot] (possibly a nil pointer), or another
    value with the outcome of marshalling it ([None]: an error). *)
Inductive any_value :=
| AnyNil
| AnySnapshot (p : option DeviceSnapshot)
| AnyJSON (text : option string).

#[export] Instance any_value_eq_dec : EqDecision any_value.
Proof. solve_decision. Defined.

Record ChangeEvent := mkEvent {
  ev_ChangeType : string;
  ev_EntityType : string;
  ev_Severity : string;
  ev_DeviceID : Z;
  ev_NetworkID : option Z;
  ev_AgentID : string;
  ev_Before : any_value;
  ev_After : any_value
}.

#[export] Instance ChangeEvent_eq_dec : EqDecision ChangeEvent.
Proof. solve_decision. Defined.

(** * The [ChangeRecorder] interface

    A recorder of type [R] consumes events.  [NoopRecorder] drops them; the
    trace instance keeps them, which is what the emitters' theorems observe. *)

Class ChangeRecorder (R : Type) := Record_ : R → ChangeEvent → R.

Definition NoopRecorder : Type := unit.

#[export] Instance NoopRecorder_Record : ChangeRecorder NoopRecorder := fun r _ => r.

Definition event_trace : Type := list ChangeEvent.

#[export] Instance event_trace_Record : ChangeRecorder event_trace := fun r e => r ++ [e].

(** * Diffs *)

Section diffs.
Context (json_parse_object : string → option (gmap string string)).
Context (json_object : gmap string string → option string).

Definition volatileScanAttrKeys : list string :=
  ["last_scanned_at"; "last_scan_rtt_ms"; "inferred_type"; "inferred_type_source";
   "inferred_brand"; "inferred_description"; "inferred_location"; "hostname"; "os"].

Definition normalizeScanAttrs (s : string) : string :=
  match s with
  | EmptyString => s
  | String c _ =>
      if negb (char_eqb c "{"%char) then s
      else match json_parse_object s with
           | None => s
           | Some m => default s (json_object (fold_left (fun m k => delete k m) volatileScanAttrKeys m))
           end
  end.

Definition field : Type := string * (DeviceSnapshot → string).

Definition identityFields : list field :=
  [("name", sn_Name); ("type", sn_Type); ("brand", sn_Brand); ("model", sn_Model);
   ("mac_address", sn_MacAddress); ("ip_address", sn_IPAddress)].

Definition classificationFields : list field :=
  [("open_ports", sn_OpenPorts); ("detected_services", sn_DetectedServices);
   ("prometheus_url", sn_PrometheusURL); ("node_exporter_url", sn_NodeExporterURL);
   ("scan_attributes", fun s => normalizeScanAttrs (sn_ScanAttributes s))].

(** A Go map result; [None] is the nil map. *)
Definition diff : Type := option (gmap string (string * string)).

Definition diffFields (before after : DeviceSnapshot) (fields : list field) : diff :=
  let changed := fold_left (fun m (f : field) =>
      let o := f.2 before in let n := f.2 after in
      if decide (o = n) then m else <[f.1 := (o, n)]> m) fields ∅ in
  if decide (changed = ∅) then None else Some changed.

Definition DiffIdentity (before after : DeviceSnapshot) : diff :=
  diffFields before after identityFields.

Definition DiffClassification (before after : DeviceSnapshot) : diff :=
  diffFields before after classificationFields.

(** The union writes the classification entries over the identity ones; a nil
    identity map is first replaced by an empty one. *)
Definition Diff (before after : DeviceSnapshot) : diff :=
  let out := diffFields before after identityFields in
  let cls := diffFields before after classificationFields in
  let m := default ∅ cls ∪ default ∅ out in
  if decide (m = ∅) then None else Some m.
End diffs.

(** * Watcher *)

(** A buffered channel: contents and whether it is closed. *)
Record chan := mkChan { ch_buf : list ChangeLog; ch_closed : bool }.

(** [subscribers] is the key set of the Go map; [chans] is the heap of
    channels ever made, so that closing one is visible to its receiver. *)
Record Watcher := mkWatcher {
  w_chans : gmap nat chan;
  w_subscribers : gset nat
}.

Definition chan_capacity : nat := 64.

Definition NewWatcher : Watcher := mkWatcher ∅ ∅.

Definition Subscribe (w : Watcher) : Watcher * nat :=
  let ch := fresh (dom (w_chans w)) in
  (mkWatcher (<[ch := mkChan [] false]> (w_chans w)) ({[ch]} ∪ w_subscribers w), ch).

(** Closing a closed channel panics ([None]). *)
Definition close_chan (ch : nat) (cs : gmap nat chan) : option (gmap nat chan) :=
  match cs !! ch with
  | Some c => if ch_closed c then None else Some (<[ch := mkChan (ch_buf c) true]> cs)
  | None => None
  end.

Definition Unsubscribe (w : Watcher) (ch : nat) : option Watcher :=
  if decide (ch ∈ w_subscribers w)
  then (fun cs => mkWatcher cs (w_subscribers w ∖ {[ch]})) <$> close_chan ch (w_chans w)
  else Some w.

(** The [select] with a default case: send if there is room, drop otherwise;
    sending on a closed channel panics. *)
Definition try_send (row : ChangeLog) (cs : option (gmap nat chan)) (ch : nat)
    : option (gmap nat chan) :=
  cs ← cs;
  match cs !! ch with
  | Some c =>
      if ch_closed c then None
      else if (length (ch_buf c) <? chan_capacity)%nat
      then Some (<[ch := mkChan (ch_buf c ++ [row]) false]> cs)
      else Some cs
  | None => None
  end.

Definition push (w : Watcher) (row : ChangeLog) : option Watcher :=
  (fun cs => mkWatcher cs (w_subscribers w))
  <$> fold_left (try_send row) (elements (w_subscribers w)) (Some (w_chans w)).

Definition Push (w : Watcher) (row : ChangeLog) : option Watcher := push w row.

(** A receive by the subscriber: the next row, if one is buffered. *)
Definition receive (w : Watcher) (ch : nat) : Watcher * option ChangeLog :=
  match w_chans w !! ch with
  | Some (mkChan (row :: buf) closed) =>
      (mkWatcher (<[ch := mkChan buf closed]> (w_chans w)) (w_subscribers w), Some row)
  | _ => (w, None)
  end.

(** * Recorder *)

Definition dedupKind (changeType : string) : string :=
  if decide (changeType = ChangeTypeDeviceLost ∨ changeType = ChangeTypeDeviceRecovered)
  then "liveness"
  else if decide (changeType = ChangeTypeDeviceChanged) then ChangeTypeDeviceChanged
  else "".

Record DBRecorder := mkRecorder {
  r_cooldown : Z;
  r_lastEmitted : gmap (Z * string) Z;
  r_changeLog : list ChangeLog;      (* the change_log table, oldest first *)
  r_changesTotal : gmap string Z;    (* the Prometheus counter, by type *)
  r_watcher : option Watcher
}.

Definition NewDBRecorder (watcher : option Watcher) (cooldown : Z) : DBRecorder :=
  mkRecorder cooldown ∅ [] ∅ watcher.

Definition shouldEmit (r : DBRecorder) (since : Z) (deviceID : Z) (changeType : string) : bool :=
  if r_cooldown r <=? 0 then true
  else
    let kind := dedupKind changeType in
    if decide (kind = "") then true
    else match r_lastEmitted r !! (deviceID, kind) with
         | Some last => negb (since - last <? r_cooldown r)
         | None => true
         end.

Definition markEmitted (r : DBRecorder) (deviceID : Z) (changeType : string) (now : Z) : DBRecorder :=
  if r_cooldown r <=? 0 then r
  else
    let kind := dedupKind changeType in
    if decide (kind = "") then r
    else mkRecorder (r_cooldown r) (<[(deviceID, kind) := now]> (r_lastEmitted r))
           (r_changeLog r) (r_changesTotal r) (r_watcher r).

Definition ptrString (s : string) : option string := if decide (s = "") then None else Some s.
Definition ptrInt64 (v : Z) : option Z := if v =? 0 then None else Some v.

Section recorder.
Context (json_snapshot : DeviceSnapshot → string).

(** A nil interface is SQL NULL; a nil [*DeviceSnapshot] inside the interface
    is a non-nil value whose JSON text is [null]. *)
Definition marshalSnapshot (v : any_value) : option string :=
  match v with
  | AnyNil => None
  | AnySnapshot None => Some "null"
  | AnySnapshot (Some s) => Some (json_snapshot s)
  | AnyJSON t => t
  end.

(** The row [CreateChangeLog] inserts and returns, under the id SQLite gives it. *)
Definition change_row (id : Z) (ev : ChangeEvent) (now : Z) : ChangeLog :=
  mkChangeLog id (ptrString (ev_AgentID ev))
    (ev_NetworkID ev) (ev_ChangeType ev) (ev_EntityType ev) (ptrInt64 (ev_DeviceID ev))
    (marshalSnapshot (ev_Before ev)) (marshalSnapshot (ev_After ev)) now.

Definition inc_changesTotal (r : DBRecorder) (t : string) : DBRecorder :=
  mkRecorder (r_cooldown r) (r_lastEmitted r) (r_changeLog r)
    (<[t := default 0 (r_changesTotal r !! t) + 1]> (r_changesTotal r)) (r_watcher r).

(** The part of [Record] after the cooldown check: counter, insert, mark,
    push.  [db] is the id the insert returns, [None] when it fails; a [None]
    result is a panic. *)
Definition record_commit (r : DBRecorder) (db : option Z) (now : Z) (ev : ChangeEvent)
    : option DBRecorder :=
  let r := inc_changesTotal r (ev_ChangeType ev) in
  match db with
  | None => Some r
  | Some id =>
    let row := change_row id ev now in
    let r := mkRecorder (r_cooldown r) (r_lastEmitted r) (r_changeLog r ++ [row])
               (r_changesTotal r) (r_watcher r) in
    let r := markEmitted r (ev_DeviceID ev) (ev_ChangeType ev) now in
    match r_watcher r with
    | None => Some r
    | Some w =>
        (fun w => mkRecorder (r_cooldown r) (r_lastEmitted r) (r_changeLog r)
                    (r_changesTotal r) (Some w)) <$> push w row
    end
  end.

(** [DBRecorder.Record]: [since] is the clock read by the cooldown check,
    [now] the one stamped on the row. *)
Definition Record (r : DBRecorder) (db : option Z) (since now : Z) (ev : ChangeEvent)
    : option DBRecorder :=
  if negb (shouldEmit r since (ev_DeviceID ev) (ev_ChangeType ev)) then Some r
  else record_commit r db now ev.
End recorder.
