(* ===== verification/ChangeSpec.v ===== *)
(** What package [changedetect] promises: the diffs report exactly the fields
    that changed, the recorder spaces throttled events by the cooldown and
    loses nothing else, and the watcher never panics and keeps order. *)

From S2P Require Import Prelude Db ChangeDetect.

Open Scope Z_scope.

(** * Diffs *)

Section diff_lemmas.
Context (before after : DeviceSnapshot).

Definition diff_step (m : gmap string (string * string)) (f : field) :=
  if decide (f.2 before = f.2 after) then m else <[f.1 := (f.2 before, f.2 after)]> m.

Lemma diff_step_fold fs m k v :
  NoDup fs.*1 → (∀ f, f ∈ fs → m !! f.1 = None) →
  fold_left diff_step fs m !! k = Some v ↔
    m !! k = Some v ∨
    ∃ f, f ∈ fs ∧ f.1 = k ∧ f.2 before ≠ f.2 after ∧ v = (f.2 before, f.2 after).
Proof.
  revert m. induction fs as [|f fs IH]; intros m Hnd Hm; cbn [fold_left].
  { split; [by left|]. intros [?|(f & Hf & _)]; [done|]. by apply elem_of_nil in Hf. }
  rewrite fmap_cons in Hnd. apply list.NoDup_cons in Hnd as [Hf Hnd].
  assert (Hfresh : m !! f.1 = None) by (apply Hm; set_solver).
  rewrite IH; [|done|].
  2: { intros g Hg. unfold diff_step. case_decide; [apply Hm; set_solver|].
       rewrite lookup_insert_ne; [apply Hm; set_solver|].
       intros Heq. apply Hf. rewrite Heq. by apply list_elem_of_fmap_2. }
  unfold diff_step. case_decide as Hd; split.
  - intros [?|(g & ? & ?)]; [by left|right; exists g; set_solver].
  - intros [?|(g & Hg & Hk & Hne & Hv)]; [by left|].
    apply elem_of_cons in Hg as [->|Hg]; [done|right; by exists g].
  - intros [Hi|(g & ? & ?)]; [|right; exists g; set_solver].
    apply lookup_insert_Some in Hi as [[<- <-]|[? ?]]; [|by left].
    right. exists f. split_and!; [set_solver|done..].
  - intros [Hi|(g & Hg & Hk & Hne & Hv)].
    + left. rewrite lookup_insert_ne; [done|]. intros <-. by rewrite Hfresh in Hi.
    + apply elem_of_cons in Hg as [->|Hg]; [|right; by exists g].
      left. rewrite Hk, lookup_insert_eq. by rewrite Hv.
Qed.

Lemma diffFields_lookup fs k v :
  NoDup fs.*1 →
  default ∅ (diffFields before after fs) !! k = Some v ↔
    ∃ f, f ∈ fs ∧ f.1 = k ∧ f.2 before ≠ f.2 after ∧ v = (f.2 before, f.2 after).
Proof.
  intros Hnd.
  assert (Hd : default ∅ (diffFields before after fs) = fold_left diff_step fs ∅).
  { unfold diffFields. change (fold_left _ fs ∅) with (fold_left diff_step fs ∅).
    cbv zeta. case_decide as He; [|done]. by rewrite He. }
  rewrite Hd, diff_step_fold; [|done|by intros; apply lookup_empty].
  rewrite lookup_empty. naive_solver.
Qed.

Lemma diffFields_Some fs m : diffFields before after fs = Some m → m ≠ ∅.
Proof. unfold diffFields. case_decide; congruence. Qed.

Lemma diffFields_None fs :
  NoDup fs.*1 →
  diffFields before after fs = None ↔ ∀ f, f ∈ fs → f.2 before = f.2 after.
Proof.
  intros Hnd. pose proof (diffFields_lookup fs) as Hl. split.
  - intros HN f Hf. destruct (decide (f.2 before = f.2 after)) as [|Hne]; [done|].
    destruct (Hl f.1 (f.2 before, f.2 after) Hnd) as [_ H].
    rewrite HN in H. cbn in H. discriminate H. by exists f.
  - intros Heq. destruct (diffFields before after fs) as [m|] eqn:HS; [|done].
    exfalso. apply (diffFields_Some _ _ HS). apply map_eq. intros k. rewrite lookup_empty.
    destruct (m !! k) as [v|] eqn:Hk; [|done].
    cbn in Hl. apply Hl in Hk as (f & Hf & _ & Hne & _); [|done]. by destruct Hne; apply Heq.
Qed.
End diff_lemmas.

Lemma identityFields_NoDup : NoDup identityFields.*1.
Proof. refine (bool_decide_unpack _ _). vm_compute. exact I. Qed.

Lemma classificationFields_fst jp jo :
  (classificationFields jp jo).*1 =
  ["open_ports"; "detected_services"; "prometheus_url"; "node_exporter_url"; "scan_attributes"].
Proof. reflexivity. Qed.

Lemma all_fields_NoDup jp jo : NoDup (identityFields ++ classificationFields jp jo).*1.
Proof. rewrite fmap_app, classificationFields_fst. refine (bool_decide_unpack _ _). vm_compute. exact I. Qed.

Lemma classificationFields_NoDup jp jo : NoDup (classificationFields jp jo).*1.
Proof. pose proof (all_fields_NoDup jp jo) as H. rewrite fmap_app in H. by apply list.NoDup_app in H as (_ & _ & H). Qed.

(** The identity part of a snapshot. *)
Definition identity_of (s : DeviceSnapshot) : list string :=
  [sn_Name s; sn_Type s; sn_Brand s; sn_Model s; sn_MacAddress s; sn_IPAddress s].

(** [DiffIdentity], the gate of device_changed events, is nil exactly when
    name, type, brand, model, MAC and IP address are all unchanged, so that
    neither a status flip nor any drift of ports, services or scan attributes
    can open it; otherwise it holds exactly the identity fields that changed,
    with their old and new values. *)
Theorem DiffIdentity_exact before after :
  (DiffIdentity before after = None ↔ identity_of before = identity_of after)
  ∧ ∀ k v, default ∅ (DiffIdentity before after) !! k = Some v ↔
      ∃ f, f ∈ identityFields ∧ f.1 = k ∧ f.2 before ≠ f.2 after
           ∧ v = (f.2 before, f.2 after).
Proof.
  split; [|intros; apply diffFields_lookup, identityFields_NoDup].
  unfold DiffIdentity. rewrite diffFields_None by apply identityFields_NoDup.
  rewrite <- list.Forall_forall. unfold identity_of, identityFields.
  rewrite !list.Forall_cons, list.Forall_nil. cbn. split.
  - intros (-> & -> & -> & -> & -> & -> & _). done.
  - intros H. injection H. auto 10.
Qed.

(** * Volatile scan attributes *)

Section normalize.
Context (json_parse_object : string → option (gmap string string)).
Context (json_object : gmap string string → option string).

Lemma delete_fold_lookup ks (m : gmap string string) k :
  fold_left (fun m k => delete k m) ks m !! k = if decide (k ∈ ks) then None else m !! k.
Proof.
  revert m. induction ks as [|x ks IH]; intros m; cbn [fold_left].
  { rewrite decide_False; [done|set_solver]. }
  rewrite IH. destruct (decide (k ∈ ks)) as [Hk|Hk].
  - rewrite decide_True; set_solver.
  - destruct (decide (k = x)) as [->|Hne].
    + rewrite lookup_delete_eq, decide_True; set_solver.
    + rewrite lookup_delete_ne, decide_False; set_solver.
Qed.

Definition agree_outside_volatile (m1 m2 : gmap string string) : Prop :=
  ∀ k, k ∉ volatileScanAttrKeys → m1 !! k = m2 !! k.

Lemma volatile_fold_eq m1 m2 :
  fold_left (fun m k => delete k m) volatileScanAttrKeys m1 =
  fold_left (fun m k => delete k m) volatileScanAttrKeys m2 ↔ agree_outside_volatile m1 m2.
Proof.
  rewrite map_eq_iff. unfold agree_outside_volatile. split; intros H k; specialize (H k).
  - rewrite !delete_fold_lookup in H. intros Hk. by rewrite !decide_False in H.
  - rewrite !delete_fold_lookup. case_decide; auto.
Qed.

(** For two scan_attributes texts that are JSON objects, the classification
    comparison sees a difference exactly when their members outside the
    volatile keys differ: timestamps, inferred identity echoes and key order
    never count, everything else does.  [encoding/json] is assumed to print
    every object, and distinct objects differently. *)
Theorem normalizeScanAttrs_exact a1 a2 m1 m2 :
  (∀ m, is_Some (json_object m)) → Inj (=) (=) json_object →
  json_parse_object (String "{" a1) = Some m1 →
  json_parse_object (String "{" a2) = Some m2 →
  normalizeScanAttrs json_parse_object json_object (String "{" a1) =
  normalizeScanAttrs json_parse_object json_object (String "{" a2)
  ↔ agree_outside_volatile m1 m2.
Proof.
  intros Htot Hinj H1 H2. unfold normalizeScanAttrs.
  change (negb (char_eqb "{" "{")) with false. cbv iota. rewrite H1, H2.
  rewrite <- volatile_fold_eq.
  set (n1 := fold_left _ _ m1). set (n2 := fold_left _ _ m2).
  destruct (Htot n1) as [t1 E1], (Htot n2) as [t2 E2]. rewrite E1, E2. cbn [default from_option]. change (id t1) with t1. change (id t2) with t2. split.
  - intros Ht. apply Hinj. by rewrite E1, E2, Ht.
  - intros Heq. rewrite Heq in E1. congruence.
Qed.
End normalize.

(** A toy encoding that prints every object, injectively. *)
Definition toy_object (m : gmap string string) : option string :=
  Some (String "{" (pretty (Npos (encode m)))).

Lemma toy_object_inj : Inj (=) (=) toy_object.
Proof.
  intros m1 m2 H. apply (inj encode). unfold toy_object in H.
  injection H as H. apply (inj pretty) in H. congruence.
Qed.

Definition toy_parse (s : string) : option (gmap string string) :=
  if decide (s = "{1") then Some {["ttl" := "64"; "hostname" := "a"]}
  else if decide (s = "{2") then Some {["hostname" := "b"; "ttl" := "64"]}
  else None.

Lemma normalizeScanAttrs_exact_witness :
  normalizeScanAttrs toy_parse toy_object "{1" = normalizeScanAttrs toy_parse toy_object "{2".
Proof.
  apply (normalizeScanAttrs_exact toy_parse toy_object "1" "2"
           {["ttl" := "64"; "hostname" := "a"]} {["hostname" := "b"; "ttl" := "64"]}).
  - intros m. eexists. reflexivity.
  - exact toy_object_inj.
  - reflexivity.
  - reflexivity.
  - intros k Hk. destruct (decide (k = "hostname")) as [->|Hh].
    { exfalso. apply Hk. unfold volatileScanAttrKeys. set_solver. }
    destruct (decide (k = "ttl")) as [->|Ht]; [reflexivity|].
    by rewrite !lookup_insert_ne, !lookup_singleton_ne by congruence.
Defined.

(** * Recorder *)

Section recorder_spec.
Context (json_snapshot : DeviceSnapshot → string).

(** One call of [Record] with what its environment supplies. *)
Record call := mkCall {
  c_db : option Z;       (* the id of the inserted row, [None]: insert failed *)
  c_since : Z;           (* the clock read by the cooldown check *)
  c_now : Z;             (* the clock read for the row *)
  c_ev : ChangeEvent
}.

Fixpoint run_records (r : DBRecorder) (cs : list call) : option DBRecorder :=
  match cs with
  | [] => Some r
  | c :: cs => r' ← Record json_snapshot r (c_db c) (c_since c) (c_now c) (c_ev c); run_records r' cs
  end.

(** Calls made one after the other under a clock that does not go back. *)
Fixpoint sequential (t : Z) (cs : list call) : Prop :=
  match cs with
  | [] => True
  | c :: cs => t ≤ c_since c ∧ c_since c ≤ c_now c ∧ sequential (c_now c) cs
  end.

Definition bucket_of (deviceID : Z) (changeType : string) : option (Z * string) :=
  if decide (dedupKind changeType = "") then None else Some (deviceID, dedupKind changeType).

Definition row_bucket (row : ChangeLog) : option (Z * string) :=
  bucket_of (default 0 (cl_EntityID row)) (cl_ChangeType row).

Definition ev_bucket (ev : ChangeEvent) : option (Z * string) :=
  bucket_of (ev_DeviceID ev) (ev_ChangeType ev).

Lemma row_bucket_change_row id ev now :
  row_bucket (change_row json_snapshot id ev now) = ev_bucket ev.
Proof.
  unfold row_bucket, ev_bucket, change_row, ptrInt64. cbn.
  destruct (ev_DeviceID ev =? 0) eqn:E; [|done]. apply Z.eqb_eq in E. by rewrite E.
Qed.

(** Rows of one bucket, in table order, are at least [c] apart. *)
Definition spaced (c : Z) (log : list ChangeLog) : Prop :=
  ∀ i j ri rj b, (i < j)%nat → log !! i = Some ri → log !! j = Some rj →
    row_bucket ri = Some b → row_bucket rj = Some b → c ≤ cl_DetectedAt rj - cl_DetectedAt ri.

(** What holds of a recorder at clock [t]: [lastEmitted] is, per bucket, the
    time of its latest row. *)
Record recorder_inv (c : Z) (r : DBRecorder) : Prop := mkInv {
  inv_cooldown : r_cooldown r = c;
  inv_rows : ∀ row b, row ∈ r_changeLog r → row_bucket row = Some b →
    ∃ last, r_lastEmitted r !! b = Some last ∧ cl_DetectedAt row ≤ last;
  inv_last : ∀ b last, r_lastEmitted r !! b = Some last →
    ∃ row, row ∈ r_changeLog r ∧ row_bucket row = Some b ∧ cl_DetectedAt row = last;
  inv_spaced : spaced c (r_changeLog r)
}.

Lemma recorder_inv_new c w : recorder_inv c (NewDBRecorder w c).
Proof.
  split; cbn; [done| | |].
  - intros row b H. by apply elem_of_nil in H.
  - intros b last H. by rewrite lookup_empty in H.
  - intros i j ri rj b _ H. by rewrite lookup_nil in H.
Qed.

(** The check and the mark, in terms of buckets. *)
Lemma shouldEmit_bucket r since d ty :
  0 < r_cooldown r →
  shouldEmit r since d ty = true ↔
    ∀ b last, bucket_of d ty = Some b → r_lastEmitted r !! b = Some last →
      r_cooldown r ≤ since - last.
Proof.
  intros Hc. unfold shouldEmit, bucket_of.
  destruct (Z.leb_spec (r_cooldown r) 0) as [|_]; [lia|]. cbv zeta.
  case_decide as Hk; [split; [discriminate 2|done]|].
  destruct (r_lastEmitted r !! (d, dedupKind ty)) as [l|] eqn:El.
  - destruct (Z.ltb_spec (since - l) (r_cooldown r)); cbn; split; try done.
    + intros H'. specialize (H' _ _ eq_refl El). lia.
    + intros _ b last [= <-]. rewrite El. intros [= <-]. lia.
  - split; [|done]. intros _ b last [= <-]. by rewrite El.
Qed.

Definition mark_bucket (b : option (Z * string)) (now : Z) (m : gmap (Z * string) Z) :=
  match b with None => m | Some b => <[b := now]> m end.

Lemma markEmitted_bucket r d ty now :
  0 < r_cooldown r →
  markEmitted r d ty now =
  mkRecorder (r_cooldown r) (mark_bucket (bucket_of d ty) now (r_lastEmitted r))
    (r_changeLog r) (r_changesTotal r) (r_watcher r).
Proof.
  intros Hc. unfold markEmitted, bucket_of. destruct (Z.leb_spec (r_cooldown r) 0); [lia|].
  cbv zeta. case_decide; [by destruct r|done].
Qed.

(** The two outcomes of the part after the check. *)
Lemma record_commit_inv r r' db now ev :
  record_commit json_snapshot r db now ev = Some r' →
  match db with
  | None => r_changeLog r' = r_changeLog r ∧ r_lastEmitted r' = r_lastEmitted r
            ∧ r_watcher r' = r_watcher r
  | Some id => r_changeLog r' = r_changeLog r ++ [change_row json_snapshot id ev now]
      ∧ (0 < r_cooldown r →
         r_lastEmitted r' = mark_bucket (ev_bucket ev) now (r_lastEmitted r))
  end ∧ r_cooldown r' = r_cooldown r.
Proof.
  unfold record_commit. destruct db as [id|]; [|intros [= <-]; done].
  set (r2 := mkRecorder _ _ _ _ _). intros H.
  set (r3 := markEmitted r2 (ev_DeviceID ev) (ev_ChangeType ev) now) in *.
  assert (Hr3 : r_changeLog r3 = r_changeLog r2 ∧ r_cooldown r3 = r_cooldown r2 ∧
    (0 < r_cooldown r → r_lastEmitted r3 = mark_bucket (ev_bucket ev) now (r_lastEmitted r))).
  { split_and!; [| |intros Hc; unfold r3; by rewrite markEmitted_bucket].
    all: unfold r3, markEmitted; cbv zeta; destruct (r_cooldown r2 <=? 0); [done|];
      by case_decide. }
  destruct Hr3 as (Hl & Hcd & Hm).
  cbv zeta in H. destruct (r_watcher r3) as [w|].
  - destruct (push w _); [|done]. injection H as <-. cbn. by rewrite Hl, Hcd.
  - injection H as <-. by rewrite Hl, Hcd.
Qed.

(** All rows were stamped by [t]. *)
Definition stamped_by (t : Z) (r : DBRecorder) : Prop :=
  ∀ row, row ∈ r_changeLog r → cl_DetectedAt row ≤ t.

Lemma spaced_snoc c log row :
  spaced c log →
  (∀ r' b, r' ∈ log → row_bucket r' = Some b → row_bucket row = Some b →
     c ≤ cl_DetectedAt row - cl_DetectedAt r') →
  spaced c (log ++ [row]).
Proof.
  intros Hs Hn i j ri rj b Hij Hi Hj Hbi Hbj.
  pose proof (lookup_lt_Some _ _ _ Hj) as Hlen. rewrite length_app in Hlen. cbn in Hlen.
  assert (Hi' : log !! i = Some ri) by (rewrite lookup_app_l in Hi; [done|lia]).
  destruct (decide (j < length log)%nat) as [Hlt|Hge].
  - rewrite lookup_app_l in Hj by done. by eapply (Hs i j).
  - assert (j = length log) as -> by lia. rewrite list_lookup_middle in Hj by done.
    injection Hj as <-. eapply Hn; [|done..]. by eapply list_elem_of_lookup_2.
Qed.

Lemma record_commit_preserves c r r' db since now ev :
  0 < c → recorder_inv c r → stamped_by since r → since ≤ now →
  shouldEmit r since (ev_DeviceID ev) (ev_ChangeType ev) = true →
  record_commit json_snapshot r db now ev = Some r' →
  recorder_inv c r' ∧ stamped_by now r'.
Proof.
  intros Hc [Hcd Hrows Hlast Hsp] Hst Hnow Hse H.
  apply record_commit_inv in H as [H Hcd'].
  destruct db as [id|].
  2: { destruct H as (Hl & Hm & _). split.
       - split; [congruence|rewrite Hl, Hm; done..|by rewrite Hl].
       - intros row. rewrite Hl. intros Hr. specialize (Hst _ Hr). lia. }
  destruct H as [Hl Hm]. specialize (Hm ltac:(lia)).
  rewrite shouldEmit_bucket in Hse by lia. fold (ev_bucket ev) in Hse.
  set (row := change_row json_snapshot id ev now) in *.
  assert (Hb : row_bucket row = ev_bucket ev) by apply row_bucket_change_row.
  split.
  2: { intros r0. rewrite Hl, elem_of_app, list_elem_of_singleton.
       intros [Hr| ->]; [specialize (Hst _ Hr); lia|cbn; lia]. }
  split; [congruence| | |].
  - intros r0 b. rewrite Hl, Hm, elem_of_app, list_elem_of_singleton. intros Hr Hrb.
    destruct (decide (ev_bucket ev = Some b)) as [He|Hne].
    + rewrite He. cbn [mark_bucket]. rewrite lookup_insert_eq. exists now. split; [done|].
      destruct Hr as [Hr| ->]; [specialize (Hst _ Hr); lia|cbn; lia].
    + destruct Hr as [Hr| ->]; [|congruence].
      destruct (Hrows _ _ Hr Hrb) as (l & El & Hle). exists l. split; [|done].
      destruct (ev_bucket ev) as [b'|]; cbn [mark_bucket]; [|done].
      rewrite lookup_insert_ne; congruence.
  - intros b l. rewrite Hm, Hl. setoid_rewrite elem_of_app. setoid_rewrite list_elem_of_singleton.
    destruct (ev_bucket ev) as [b'|] eqn:Eb; cbn [mark_bucket].
    2: { intros Hb'. destruct (Hlast _ _ Hb') as (r0 & ? & ? & ?). exists r0. auto. }
    intros [[<- <-]|[Hne Hb']]%lookup_insert_Some; [exists row; auto|].
    destruct (Hlast _ _ Hb') as (r0 & ? & ? & ?). exists r0. auto.
  - rewrite Hl. apply spaced_snoc; [done|]. intros r0 b Hr Hrb Hrow.
    destruct (Hrows _ _ Hr Hrb) as (l & El & Hle).
    rewrite Hb in Hrow. specialize (Hse _ _ Hrow El). change (cl_DetectedAt row) with now. lia.
Qed.

Lemma run_records_inv c cs r r' t :
  0 < c → recorder_inv c r → stamped_by t r → sequential t cs →
  run_records r cs = Some r' → recorder_inv c r'.
Proof.
  intros Hc. revert r t. induction cs as [|k cs IH]; intros r t Hi Hst Hseq H.
  { by injection H as <-. }
  destruct Hseq as (H1 & H2 & Hseq). cbn [run_records] in H.
  destruct (Record _ _ _ _ _ _) as [r1|] eqn:Er; [|done].
  assert (Hst' : stamped_by (c_since k) r) by (intros row Hr; specialize (Hst _ Hr); lia).
  unfold Record in Er. destruct (shouldEmit r _ _ _) eqn:Es; cbn [negb] in Er.
  - eapply record_commit_preserves in Er as [Hi' Hst'']; [|done..]. eauto.
  - injection Er as <-. eapply IH; [done| |done|done].
    intros row Hr. specialize (Hst' _ Hr). lia.
Qed.

(** Under a positive cooldown, however [Record] is called (any events, any
    insert failures) one call after the other, two change_log rows of the same
    device and throttled kind are never closer than the cooldown. *)
Theorem record_cooldown_spacing cooldown w t cs r :
  0 < cooldown → sequential t cs →
  run_records (NewDBRecorder w cooldown) cs = Some r →
  spaced cooldown (r_changeLog r).
Proof.
  intros Hc Hs H. eapply run_records_inv in H; [|done|apply recorder_inv_new| |done].
  - apply H.
  - intros row Hr. by apply elem_of_nil in Hr.
Qed.

(** What one [Record] does with an event whose insert would succeed.
    Either the event's row is appended, or it is dropped unseen, and the
    latter happens only to a throttled kind whose bucket holds a recorded row
    younger than the cooldown: no change is lost outside the window, and
    unthrottled kinds (device_added, probe, agent, config events) never are. *)
Theorem record_lost_only_in_window cooldown r id since now ev r' :
  recorder_inv cooldown r →
  Record json_snapshot r (Some id) since now ev = Some r' →
  r_changeLog r' = r_changeLog r ++ [change_row json_snapshot id ev now]
  ∨ r' = r ∧ 0 < cooldown ∧ ∃ b row, ev_bucket ev = Some b ∧ row ∈ r_changeLog r
      ∧ row_bucket row = Some b ∧ since - cl_DetectedAt row < cooldown.
Proof.
  intros [Hcd Hrows Hlast _] H. unfold Record in H.
  destruct (shouldEmit r since _ _) eqn:Es; cbn [negb] in H.
  { left. apply record_commit_inv in H as [[Hl _] _]. done. }
  right. injection H as <-. split; [done|].
  assert (0 < cooldown) as Hc.
  { unfold shouldEmit in Es. destruct (Z.leb_spec (r_cooldown r) 0); [done|lia]. }
  split; [done|]. unfold ev_bucket.
  unfold shouldEmit in Es. destruct (Z.leb_spec (r_cooldown r) 0); [done|].
  cbv zeta in Es. unfold bucket_of. case_decide as Hk; [done|].
  destruct (r_lastEmitted r !! _) as [l|] eqn:El; [|done].
  destruct (Hlast _ _ El) as (row & Hr & Hb & Hd).
  eexists _, row. split_and!; [done..|].
  destruct (Z.ltb_spec (since - l) (r_cooldown r)); [lia|done].
Qed.
End recorder_spec.

Definition ev_kind (ty : string) (dev : Z) : ChangeEvent :=
  mkEvent ty EntityTypeDevice "" dev None "" AnyNil AnyNil.

Lemma record_cooldown_spacing_witness :
  ∃ r, run_records (fun _ => "{}") (NewDBRecorder None (15 * minute))
         [mkCall (Some 1) 0 1 (ev_kind ChangeTypeDeviceChanged 7);
          mkCall (Some 2) 5 6 (ev_kind ChangeTypeDeviceChanged 7);
          mkCall (Some 2) (15 * minute + 1) (15 * minute + 2) (ev_kind ChangeTypeDeviceChanged 7)]
       = Some r ∧ length (r_changeLog r) = 2%nat ∧ spaced (15 * minute) (r_changeLog r).
Proof.
  eexists. split_and!; [reflexivity|reflexivity|].
  apply (record_cooldown_spacing (fun _ => "{}") (15 * minute) None 0
         [mkCall (Some 1) 0 1 (ev_kind ChangeTypeDeviceChanged 7);
          mkCall (Some 2) 5 6 (ev_kind ChangeTypeDeviceChanged 7);
          mkCall (Some 2) (15 * minute + 1) (15 * minute + 2) (ev_kind ChangeTypeDeviceChanged 7)]).
  - reflexivity.
  - cbn. unfold minute, nanos_per_second. lia.
  - reflexivity.
Defined.

Lemma record_lost_only_in_window_witness :
  ∃ r', Record (fun _ => "{}") (NewDBRecorder None (15 * minute)) (Some 1) 0 1
          (ev_kind ChangeTypeDeviceLost 7) = Some r'
  ∧ (r_changeLog r' = [change_row (fun _ => "{}") 1 (ev_kind ChangeTypeDeviceLost 7) 1]
     ∨ r' = NewDBRecorder None (15 * minute) ∧ 0 < 15 * minute ∧ ∃ b row,
         ev_bucket (ev_kind ChangeTypeDeviceLost 7) = Some b ∧ row ∈ []
         ∧ row_bucket row = Some b ∧ 0 - cl_DetectedAt row < 15 * minute).
Proof.
  eexists. split; [reflexivity|].
  apply (record_lost_only_in_window (fun _ => "{}") (15 * minute)
           (NewDBRecorder None (15 * minute)) 1 0 1 (ev_kind ChangeTypeDeviceLost 7)).
  - apply recorder_inv_new.
  - reflexivity.
Defined.

(** Device_lost and device_recovered share one bucket, so the recovery
    that follows a recorded loss within the cooldown is dropped and the
    recorder does not change at all: change_log keeps the device lost. *)
Theorem recovered_suppressed_after_lost js r id since now ev r1 db2 since2 now2 ev2 :
  0 < r_cooldown r →
  ev_ChangeType ev = ChangeTypeDeviceLost →
  ev_ChangeType ev2 = ChangeTypeDeviceRecovered →
  ev_DeviceID ev2 = ev_DeviceID ev →
  shouldEmit r since (ev_DeviceID ev) (ev_ChangeType ev) = true →
  Record js r (Some id) since now ev = Some r1 →
  since2 - now < r_cooldown r →
  Record js r1 db2 since2 now2 ev2 = Some r1.
Proof.
  intros Hc Ht1 Ht2 Hd Hs H Hlt. unfold Record in H. rewrite Hs in H. cbn [negb] in H.
  apply record_commit_inv in H as [[_ Hm] Hcd]. specialize (Hm Hc).
  unfold Record. destruct (shouldEmit r1 _ _ _) eqn:Es; [|done].
  rewrite shouldEmit_bucket in Es by lia. exfalso.
  assert (Hb : bucket_of (ev_DeviceID ev2) (ev_ChangeType ev2) = Some (ev_DeviceID ev, "liveness"))
    by (rewrite Ht2, Hd; reflexivity).
  assert (Hb1 : ev_bucket ev = Some (ev_DeviceID ev, "liveness"))
    by (unfold ev_bucket; rewrite Ht1; reflexivity).
  specialize (Es _ now Hb). rewrite Hm, Hb1 in Es. cbn [mark_bucket] in Es.
  rewrite lookup_insert_eq in Es. specialize (Es eq_refl). lia.
Qed.

Lemma recovered_suppressed_after_lost_witness :
  ∃ r1, Record (fun _ => "{}") (NewDBRecorder None (15 * minute)) (Some 1) 0 1
          (ev_kind ChangeTypeDeviceLost 7) = Some r1
  ∧ Record (fun _ => "{}") r1 (Some 2) (14 * minute) (14 * minute)
      (ev_kind ChangeTypeDeviceRecovered 7) = Some r1.
Proof.
  eexists. split; [reflexivity|].
  apply (recovered_suppressed_after_lost (fun _ => "{}") (NewDBRecorder None (15 * minute))
           1 0 1 (ev_kind ChangeTypeDeviceLost 7)); reflexivity.
Defined.

(** * Watcher *)

Inductive wop :=
| OpSubscribe
| OpUnsubscribe (ch : nat)
| OpPush (row : ChangeLog)
| OpReceive (ch : nat).

(** The watcher with, per channel, the rows pushed while it was subscribed and
    the rows its reader took. *)
Record wstate := mkWState {
  ws_w : Watcher;
  ws_sent : nat → list ChangeLog;
  ws_recv : nat → list ChangeLog
}.

Definition wstep (s : wstate) (o : wop) : option wstate :=
  match o with
  | OpSubscribe => Some (mkWState (Subscribe (ws_w s)).1 (ws_sent s) (ws_recv s))
  | OpUnsubscribe ch => (fun w => mkWState w (ws_sent s) (ws_recv s)) <$> Unsubscribe (ws_w s) ch
  | OpPush row =>
      (fun w => mkWState w
         (fun ch => if decide (ch ∈ w_subscribers (ws_w s)) then ws_sent s ch ++ [row] else ws_sent s ch)
         (ws_recv s)) <$> Push (ws_w s) row
  | OpReceive ch =>
      let (w, x) := receive (ws_w s) ch in
      Some (mkWState w (ws_sent s)
        (fun c => if decide (c = ch) then ws_recv s c ++ option_list x else ws_recv s c))
  end.

Fixpoint wrun (s : wstate) (os : list wop) : option wstate :=
  match os with [] => Some s | o :: os => s' ← wstep s o; wrun s' os end.

Definition winit : wstate := mkWState NewWatcher (fun _ => []) (fun _ => []).

(** A channel's reader has seen, or will find buffered, an in-order selection
    of what was pushed to it, all of it as long as that fits the buffer. *)
Definition chan_ok (sent recv : list ChangeLog) (c : chan) : Prop :=
  (length (ch_buf c) ≤ chan_capacity)%nat
  ∧ recv ++ ch_buf c `sublist_of` sent
  ∧ ((length sent ≤ chan_capacity)%nat → recv ++ ch_buf c = sent).

Record winv (s : wstate) : Prop := mkWInv {
  winv_open : ∀ ch, ch ∈ w_subscribers (ws_w s) ↔ ∃ b, w_chans (ws_w s) !! ch = Some (mkChan b false);
  winv_ok : ∀ ch c, w_chans (ws_w s) !! ch = Some c → chan_ok (ws_sent s ch) (ws_recv s ch) c;
  winv_fresh : ∀ ch, w_chans (ws_w s) !! ch = None → ws_sent s ch = [] ∧ ws_recv s ch = []
}.

Definition send_chan (row : ChangeLog) (c : chan) : chan :=
  if (length (ch_buf c) <? chan_capacity)%nat then mkChan (ch_buf c ++ [row]) false else c.

Lemma chan_ok_send sent recv row b :
  chan_ok sent recv (mkChan b false) →
  chan_ok (sent ++ [row]) recv (send_chan row (mkChan b false)).
Proof.
  intros (Hb & Hs & Ha). unfold send_chan; cbn [ch_buf] in *.
  destruct (Nat.ltb_spec (length b) chan_capacity) as [Hlt|Hge]; unfold chan_ok; cbn [ch_buf].
  - rewrite !length_app, app_assoc. cbn [length]. split_and!; [lia| |].
    + apply sublist_app; [done|reflexivity].
    + intros Hl. rewrite Ha; [done|lia].
  - split_and!; [done| |].
    + by apply sublist_inserts_r.
    + rewrite length_app. cbn [length]. intros Hl.
      apply sublist_length in Hs. rewrite length_app in Hs. lia.
Qed.

(** The fan-out loop sends to each subscribed channel once. *)
Lemma push_fold row l cs :
  NoDup l → (∀ ch, ch ∈ l → ∃ b, cs !! ch = Some (mkChan b false)) →
  ∃ cs', fold_left (try_send row) l (Some cs) = Some cs' ∧
    ∀ ch, cs' !! ch = (if decide (ch ∈ l) then send_chan row <$> cs !! ch else cs !! ch).
Proof.
  revert cs. induction l as [|x l IH]; intros cs Hnd Hop; cbn [fold_left].
  { exists cs. split; [done|]. intros ch. rewrite decide_False; [done|set_solver]. }
  apply list.NoDup_cons in Hnd as [Hx Hnd].
  destruct (Hop x ltac:(set_solver)) as [b Hb].
  assert (Hts : try_send row (Some cs) x = Some (<[x := send_chan row (mkChan b false)]> cs)).
  { unfold try_send, send_chan. cbn [mbind option_bind]. rewrite Hb. cbn [ch_closed ch_buf].
    destruct (length b <? chan_capacity)%nat; [done|]. by rewrite insert_id. }
  rewrite Hts. destruct (IH (<[x := send_chan row (mkChan b false)]> cs) Hnd) as (cs' & -> & Hcs).
  { intros ch Hch. rewrite lookup_insert_ne by set_solver. apply Hop. set_solver. }
  exists cs'. split; [done|]. intros ch. rewrite Hcs.
  destruct (decide (ch = x)) as [->|Hne].
  - rewrite decide_False, decide_True by set_solver. by rewrite lookup_insert_eq, Hb.
  - rewrite lookup_insert_ne by done. destruct (decide (ch ∈ l)).
    + by rewrite decide_True by set_solver.
    + by rewrite decide_False by set_solver.
Qed.

Lemma send_chan_closed row c : ch_closed c = false → ch_closed (send_chan row c) = false.
Proof. unfold send_chan. by destruct (length (ch_buf c) <? chan_capacity)%nat. Qed.

Lemma winv_Push s row : winv s → ∃ s', wstep s (OpPush row) = Some s' ∧ winv s'.
Proof.
  intros [Hop Hok Hfr]. destruct s as [[cs subs] sent recv]; cbn in *.
  destruct (push_fold row (elements subs) cs) as (cs' & Hf & Hcs); [apply NoDup_elements| |].
  { intros ch Hch. apply Hop. set_solver. }
  unfold Push, push. cbn. rewrite Hf. eexists; split; [reflexivity|].
  assert (Hcs2 : ∀ ch, cs' !! ch = if decide (ch ∈ subs) then send_chan row <$> cs !! ch else cs !! ch).
  { intros ch. rewrite Hcs. destruct (decide (ch ∈ subs)).
    - by rewrite decide_True by set_solver.
    - by rewrite decide_False by set_solver. }
  split; cbn.
  - intros ch. rewrite Hcs2. case_decide as Hin; [|by rewrite <- Hop].
    split; [|done]. intros _. destruct (proj1 (Hop ch) Hin) as [b ->]. cbn.
    destruct (send_chan row (mkChan b false)) as [b' cl] eqn:E. exists b'.
    pose proof (send_chan_closed row (mkChan b false) eq_refl) as Hcl. rewrite E in Hcl.
    cbn in Hcl. by rewrite Hcl.
  - intros ch c. rewrite Hcs2. case_decide as Hin; [|apply Hok].
    destruct (proj1 (Hop ch) Hin) as [b Hb]. rewrite Hb. intros [= <-].
    apply chan_ok_send. by apply Hok.
  - intros ch. rewrite Hcs2. case_decide as Hin; [|apply Hfr].
    destruct (proj1 (Hop ch) Hin) as [b ->]. done.
Qed.

Lemma winv_Subscribe s : winv s → ∃ s', wstep s OpSubscribe = Some s' ∧ winv s'.
Proof.
  intros [Hop Hok Hfr]. destruct s as [[cs subs] sent recv]; cbn in *.
  eexists; split; [reflexivity|]. set (n := fresh (dom cs)).
  assert (Hn : cs !! n = None) by (apply not_elem_of_dom, is_fresh).
  split; cbn.
  - intros ch. destruct (decide (ch = n)) as [->|Hne].
    + rewrite lookup_insert_eq. split; [by eexists|set_solver].
    + rewrite lookup_insert_ne by done. rewrite <- Hop. set_solver.
  - intros ch c. destruct (decide (ch = n)) as [->|Hne].
    + rewrite lookup_insert_eq. intros [= <-]. destruct (Hfr _ Hn) as [-> ->].
      split_and!; cbn; [lia|done|done].
    + rewrite lookup_insert_ne by done. apply Hok.
  - intros ch. destruct (decide (ch = n)) as [->|Hne]; [by rewrite lookup_insert_eq|].
    rewrite lookup_insert_ne by done. apply Hfr.
Qed.

Lemma winv_Unsubscribe s ch : winv s → ∃ s', wstep s (OpUnsubscribe ch) = Some s' ∧ winv s'.
Proof.
  intros [Hop Hok Hfr]. destruct s as [[cs subs] sent recv]; cbn in *.
  unfold Unsubscribe, close_chan; cbn. case_decide as Hin.
  2: { eexists. split; [reflexivity|by split]. }
  destruct (proj1 (Hop ch) Hin) as [b Hb]. rewrite Hb. cbn. eexists; split; [reflexivity|].
  split; cbn.
  - intros c. destruct (decide (c = ch)) as [->|Hne].
    + rewrite lookup_insert_eq. split; [set_solver|intros [? ?]; congruence].
    + rewrite lookup_insert_ne, <- Hop by done. set_solver.
  - intros c k. destruct (decide (c = ch)) as [->|Hne].
    + rewrite lookup_insert_eq. intros [= <-]. apply (Hok _ _ Hb).
    + rewrite lookup_insert_ne by done. apply Hok.
  - intros c. destruct (decide (c = ch)) as [->|Hne]; [by rewrite lookup_insert_eq|].
    rewrite lookup_insert_ne by done. apply Hfr.
Qed.

Lemma winv_Receive s ch : winv s → ∃ s', wstep s (OpReceive ch) = Some s' ∧ winv s'.
Proof.
  intros [Hop Hok Hfr]. destruct s as [[cs subs] sent recv]; cbn in *.
  unfold receive; cbn.
  assert (Hnil : winv (mkWState (mkWatcher cs subs) sent
            (fun c => if decide (c = ch) then recv c ++ [] else recv c))).
  { split; cbn; intros; [apply Hop|..].
    all: case_decide; rewrite ?app_nil_r; auto. }
  destruct (cs !! ch) as [[[|row buf] cl]|] eqn:E; try (eexists; split; [reflexivity|done]).
  eexists; split; [reflexivity|]. split; cbn.
  - intros c. destruct (decide (c = ch)) as [->|Hne].
    + rewrite lookup_insert_eq, Hop, E. naive_solver.
    + rewrite lookup_insert_ne by done. apply Hop.
  - intros c k. destruct (decide (c = ch)) as [->|Hne].
    + rewrite lookup_insert_eq. intros [= <-]. destruct (Hok _ _ E) as (Hb & Hs & Ha).
      cbn in *. unfold chan_ok; cbn. rewrite <- app_assoc. cbn. split_and!; [lia|done|done].
    + rewrite lookup_insert_ne by done. apply Hok.
  - intros c. destruct (decide (c = ch)) as [->|Hne]; [by rewrite lookup_insert_eq|].
    rewrite lookup_insert_ne by done. apply Hfr.
Qed.

Lemma winv_run os s : winv s → ∃ s', wrun s os = Some s' ∧ winv s'.
Proof.
  revert s. induction os as [|o os IH]; intros s Hs; cbn [wrun]; [by eexists|].
  assert (∃ s', wstep s o = Some s' ∧ winv s') as (s' & -> & Hs').
  { destruct o; [by apply winv_Subscribe|by apply winv_Unsubscribe|by apply winv_Push
                |by apply winv_Receive]. }
  by apply IH.
Qed.

(** Whatever the order of subscribing, unsubscribing (twice, or a foreign
    channel), pushing and reading, the watcher never panics on a closed
    channel, never holds more than 64 rows per subscriber, and each reader
    gets an in-order selection of the rows pushed while it was subscribed,
    with nothing missing among the first 64. *)
Theorem watcher_safe os :
  ∃ s, wrun winit os = Some s ∧
    (∀ ch, ch ∈ w_subscribers (ws_w s) ↔ ∃ b, w_chans (ws_w s) !! ch = Some (mkChan b false)) ∧
    ∀ ch c, w_chans (ws_w s) !! ch = Some c → chan_ok (ws_sent s ch) (ws_recv s ch) c.
Proof.
  destruct (winv_run os winit) as (s & -> & [? ? ?]); [|by exists s].
  split; cbn; intros.
  - rewrite lookup_empty. split; [set_solver|intros [? ?]; done].
  - by rewrite lookup_empty in *.
  - done.
Qed.

(** * Concurrent recording

    [shouldEmit] and [markEmitted] take the mutex one after the other, with the
    insert between them: two [Record] calls may both pass the check. *)

(** The cooldown check and its mark are separate critical sections, so two
    overlapping [Record] calls for one device and kind are both recorded,
    with no spacing at all: the dedup holds of sequential calls only. *)
Theorem concurrent_records_both_written js cooldown dev t :
  0 < cooldown →
  let r0 := NewDBRecorder None cooldown in
  let ev := ev_kind ChangeTypeDeviceChanged dev in
  shouldEmit r0 t dev ChangeTypeDeviceChanged = true ∧   (* first caller checks *)
  shouldEmit r0 t dev ChangeTypeDeviceChanged = true ∧   (* second caller checks *)
  ∃ r1 r2, record_commit js r0 (Some 1) t ev = Some r1 ∧ record_commit js r1 (Some 2) t ev = Some r2
    ∧ length (r_changeLog r2) = 2%nat ∧ (¬ spaced cooldown (r_changeLog r2)).
Proof.
  intros Hc r0 ev.
  assert (Hs : shouldEmit r0 t dev ChangeTypeDeviceChanged = true).
  { apply shouldEmit_bucket; [done|]. intros b last _. intros H. cbn in H. by rewrite lookup_empty in H. }
  split_and!; [done..|]. eexists _, _. split_and!.
  - unfold record_commit, ev. rewrite markEmitted_bucket by done. reflexivity.
  - unfold record_commit. rewrite markEmitted_bucket by done. reflexivity.
  - reflexivity.
  - intros Hsp. specialize (Hsp 0%nat 1%nat _ _ (dev, ChangeTypeDeviceChanged)
      ltac:(lia) eq_refl eq_refl). rewrite !row_bucket_change_row in Hsp.
    specialize (Hsp eq_refl eq_refl). cbn in Hsp. lia.
Qed.

Lemma concurrent_records_both_written_witness :
  ∃ r1 r2,
    record_commit (fun _ => "{}") (NewDBRecorder None minute) (Some 1) 5
      (ev_kind ChangeTypeDeviceChanged 7) = Some r1 ∧
    record_commit (fun _ => "{}") r1 (Some 2) 5 (ev_kind ChangeTypeDeviceChanged 7) = Some r2
    ∧ length (r_changeLog r2) = 2%nat ∧ ¬ spaced minute (r_changeLog r2).
Proof.
  apply (concurrent_records_both_written (fun _ => "{}") minute 7 5). reflexivity.
Defined.
