(* ===== verification/Lease.v ===== *)
(** Liveness of scanned devices from their lease rows: lost detection after a
    scan (src/internal/service/scannerv2/runner/detect_lost.go) and the
    background lease sweeper of agent networks (runner/lease_sweeper.go).

    The state is the tables the statements touch, the change recorder and the
    heartbeat sampler, both optional as in the code.  A database fault is an
    oracle [ok] that says of each statement whether it succeeds.  A SELECT
    without ORDER BY returns rows in table order, snapshots before devices. *)

From S2P Require Import Prelude Db Report ChangeDetect.

Open Scope Z_scope.

(** * The sampler interface

    What the heartbeat service offers the runner: one liveness verdict of a
    device, with its source. *)

Class LivenessSampler (S : Type) := SampleLiveness_ : S → Z → string → string → S.

Definition sample_trace : Type := list (Z * string * string).

#[export] Instance sample_trace_Sample : LivenessSampler sample_trace :=
  fun s id verdict source => s ++ [(id, verdict, source)].

(** * State *)

Record store (R S : Type) := mkStore {
  st_devices : list Device;
  st_snapshots : list ScanSnapshot;
  st_networks : list Network;
  st_nextSnapshotID : Z;
  st_changeRecorder : option R;
  st_heartbeat : option S
}.
Arguments mkStore {R S} _ _ _ _ _ _.
Arguments st_devices {R S} _.
Arguments st_snapshots {R S} _.
Arguments st_networks {R S} _.
Arguments st_nextSnapshotID {R S} _.
Arguments st_changeRecorder {R S} _.
Arguments st_heartbeat {R S} _.

(** The statements that can fail, with the row they concern. *)
Inductive stmt :=
| QGetDevice (id : Z) | QUuidByMac (mac : string) | QUuidByIPNet (ip : string) | QUuidByIP (ip : string)
| UUpsertSnapshot (ip : string) | ULastSeen (uuid : string) | QDeviceByUuid (uuid : string)
| UIncrementMiss | QListLost | UMarkOffline (id : Z)
| QStale | QRecoverable | QOrphaned | QFresher (snap : Z) | UDissociate (snap : Z)
| UFlap (snap : Z) | URecover (id : Z) | UDecay.

Definition dev_liveness (d : Device) (status : string) (lastSeen lastScanned offlineSince : option Z)
    (updatedAt : Z) : Device :=
  mkDevice (dev_ID d) (dev_DeviceUuid d) (dev_Name d) (dev_Type d) (dev_Brand d) (dev_Model d)
    status (dev_IpAddress d) (dev_MacAddress d) (dev_ScanSource d) (dev_OpenPorts d)
    (dev_DetectedServices d) (dev_PrometheusUrl d) (dev_NodeExporterUrl d) (dev_ScanAttributes d)
    (dev_NetworkID d) lastSeen lastScanned offlineSince updatedAt.

Definition snap_set_uuid (s : ScanSnapshot) (uuid : string) : ScanSnapshot :=
  mkScanSnapshot (ss_ID s) (ss_NetworkID s) (ss_TaskID s) (ss_Ip s) (ss_Mac s) uuid
    (ss_MissCount s) (ss_LastSeenAt s) (ss_FlapCount s) (ss_LastFlapAt s).

Definition snap_set_flap (s : ScanSnapshot) (flap : Z) (at_ : Z) : ScanSnapshot :=
  mkScanSnapshot (ss_ID s) (ss_NetworkID s) (ss_TaskID s) (ss_Ip s) (ss_Mac s) (ss_DeviceUuid s)
    (ss_MissCount s) (ss_LastSeenAt s) flap (Some at_).

Definition snap_set_miss (s : ScanSnapshot) (miss : Z) : ScanSnapshot :=
  mkScanSnapshot (ss_ID s) (ss_NetworkID s) (ss_TaskID s) (ss_Ip s) (ss_Mac s) (ss_DeviceUuid s)
    miss (ss_LastSeenAt s) (ss_FlapCount s) (ss_LastFlapAt s).

(** UPDATE … WHERE id = ? *)
Definition on_device (id : Z) (f : Device → Device) (d : Device) : Device :=
  if decide (dev_ID d = id) then f d else d.

Definition on_snapshot (id : Z) (f : ScanSnapshot → ScanSnapshot) (s : ScanSnapshot) : ScanSnapshot :=
  if decide (ss_ID s = id) then f s else s.

(** The statement shared by the three places that declare a device gone: the
    CASE keeps the stamp of a device that was already offline. *)
Definition mark_offline (now : Z) (d : Device) : Device :=
  dev_liveness d "offline" (dev_LastSeen d) (dev_LastScannedAt d)
    (if decide (dev_Status d = "offline") then dev_OfflineSince d else Some (DBTime now))
    (DBTime now).

Definition mark_online (now : Z) (d : Device) : Device :=
  dev_liveness d "online" (Some (DBTime now)) (Some (DBTime now)) None (DBTime now).

(** ORDER BY last_seen DESC LIMIT 1: NULL sorts last, the first row of the
    table wins among equals. *)
Definition last_seen_lt (a b : option Z) : bool :=
  match a, b with
  | None, Some _ => true
  | Some x, Some y => x <? y
  | _, None => false
  end.

Fixpoint most_recent (best : option Device) (ds : list Device) : option Device :=
  match ds with
  | [] => best
  | d :: ds =>
      match best with
      | None => most_recent (Some d) ds
      | Some b => most_recent (if last_seen_lt (dev_LastSeen b) (dev_LastSeen d) then Some d else Some b) ds
      end
  end.

Section runner.
Context {R S : Type} `{!ChangeRecorder R, !LivenessSampler S}.
Context (ok : stmt → bool).

Notation st := (store R S).

Definition with_devices (s : st) (f : list Device → list Device) : st :=
  mkStore (f (st_devices s)) (st_snapshots s) (st_networks s) (st_nextSnapshotID s)
    (st_changeRecorder s) (st_heartbeat s).

Definition with_snapshots (s : st) (f : list ScanSnapshot → list ScanSnapshot) : st :=
  mkStore (st_devices s) (f (st_snapshots s)) (st_networks s) (st_nextSnapshotID s)
    (st_changeRecorder s) (st_heartbeat s).

(** [rn.changeRecorder.Record], nothing when the recorder is nil. *)
Definition emit (s : st) (ev : ChangeEvent) : st :=
  mkStore (st_devices s) (st_snapshots s) (st_networks s) (st_nextSnapshotID s)
    ((fun r => Record_ r ev) <$> st_changeRecorder s) (st_heartbeat s).

Definition sample (s : st) (id : Z) (verdict source : string) : st :=
  mkStore (st_devices s) (st_snapshots s) (st_networks s) (st_nextSnapshotID s)
    (st_changeRecorder s) ((fun h => SampleLiveness_ h id verdict source) <$> st_heartbeat s).

Definition snapshotDevice (s : st) (id : Z) : option DeviceSnapshot :=
  if ok (QGetDevice id)
  then SnapshotFromDevice <$> head (filter (fun d => dev_ID d = id) (st_devices s))
  else None.

Definition recordDeviceLost (s : st) (id : Z) (networkID : option Z) (agentID : string) : st :=
  emit s (mkEvent ChangeTypeDeviceLost EntityTypeDevice "" id networkID agentID
            (AnySnapshot (snapshotDevice s id)) AnyNil).

Definition recordDeviceRecovered (s : st) (id : Z) (networkID : option Z) (agentID : string)
    (before : option DeviceSnapshot) : st :=
  emit s (mkEvent ChangeTypeDeviceRecovered EntityTypeDevice "" id networkID agentID
            (AnySnapshot before) (AnySnapshot (snapshotDevice s id))).

(** * Lost detection (detect_lost.go) *)

Definition resolveDeviceUUIDForIP (s : st) (mac ip : string) (networkID : option Z) : string :=
  let pick q ds := if ok q then dev_DeviceUuid <$> most_recent None ds else None in
  let byIP := default "" (pick (QUuidByIP ip) (filter (fun d => dev_IpAddress d = ip) (st_devices s))) in
  let u := if decide (mac = "") then ""
           else default "" (pick (QUuidByMac mac) (filter (fun d => dev_MacAddress d = mac) (st_devices s))) in
  if decide (u = "") then
    match networkID with
    | Some n =>
        match pick (QUuidByIPNet ip) (filter (fun d => dev_IpAddress d = ip ∧ dev_NetworkID d = Some n) (st_devices s)) with
        | Some u => u
        | None => byIP
        end
    | None => byIP
    end
  else u.

(** INSERT … ON CONFLICT(network_id, ip) DO UPDATE.  [None] is an error. *)
Definition upsertScanSnapshot (s : st) (networkID : Z) (taskID : option Z) (ip mac devUUID : string)
    (lastSeen : Z) : option st :=
  if negb (ok (UUpsertSnapshot ip)) then None
  else if existsb (fun r => (ss_NetworkID r =? networkID) && (ss_Ip r =? ip)%string) (st_snapshots s)
  then Some (with_snapshots s (map (fun r =>
         if (ss_NetworkID r =? networkID) && (ss_Ip r =? ip)%string then
           mkScanSnapshot (ss_ID r) (ss_NetworkID r) taskID (ss_Ip r)
             (if decide (mac = "") then ss_Mac r else mac)
             (if decide (devUUID = "") then ss_DeviceUuid r else devUUID)
             0 (DBTime lastSeen) (ss_FlapCount r) (ss_LastFlapAt r)
         else r)))
  else Some (mkStore (st_devices s)
         (st_snapshots s ++ [mkScanSnapshot (st_nextSnapshotID s) networkID taskID ip mac devUUID 0
                               (DBTime lastSeen) 0 None])
         (st_networks s) (st_nextSnapshotID s + 1) (st_changeRecorder s) (st_heartbeat s)).

(** One iteration of the loop over the reports. *)
Definition record_alive (netID taskID now : Z) (s : st) (rep : HostReport) : st :=
  let mac := reportMAC rep in
  let taskIDPtr := if 0 <? taskID then Some taskID else None in
  let devUUID := resolveDeviceUUIDForIP s mac (hr_IP rep) (Some netID) in
  let s := default s (upsertScanSnapshot s netID taskIDPtr (hr_IP rep) mac devUUID now) in
  if decide (devUUID = "") then s
  else if negb (ok (ULastSeen devUUID)) then s
  else
    let s := with_devices s (map (fun d =>
      if decide (dev_DeviceUuid d = devUUID)
      then dev_liveness d (dev_Status d) (Some (DBTime now)) (dev_LastScannedAt d) (dev_OfflineSince d) (dev_UpdatedAt d)
      else d)) in
    if negb (ok (QDeviceByUuid devUUID)) then s
    else match head (filter (fun d => dev_DeviceUuid d = devUUID) (st_devices s)) with
         | Some d => sample s (dev_ID d) "online" "scan"
         | None => s
         end.

Definition RecordAliveSnapshots (s : st) (networkID : option Z) (taskID now : Z)
    (reports : list HostReport) : st * gset string :=
  match networkID with
  | None => (s, ∅)
  | Some netID =>
      fold_left (fun (acc : st * gset string) rep =>
        if negb (hr_Alive rep) || bool_decide (hr_IP rep = "") then acc
        else (record_alive netID taskID now acc.1 rep, {[hr_IP rep]} ∪ acc.2)) reports (s, ∅)
  end.

Definition batchIncrementMiss (s : st) (netID : Z) (aliveIPs : gset string) : option st :=
  if negb (ok UIncrementMiss) then None
  else if decide (aliveIPs = ∅)
  then Some (with_snapshots s (map (fun r =>
         if ss_NetworkID r =? netID then snap_set_miss r (ss_MissCount r + 1) else r)))
  else Some (with_snapshots s (map (fun r =>
         if (ss_NetworkID r =? netID) && bool_decide (ss_Ip r ∉ aliveIPs)
         then snap_set_miss r (ss_MissCount r + 1) else r))).

(** The device ids of the rows of ListLostSnapshots. *)
Definition ListLostSnapshots (s : st) (networkID missCount : Z) : list Z :=
  r ← st_snapshots s;
  if (ss_NetworkID r =? networkID) && (missCount <=? ss_MissCount r)
  then dev_ID <$> filter (fun d => dev_IpAddress d = ss_Ip r
         ∧ (dev_NetworkID d = Some (ss_NetworkID r) ∨ dev_NetworkID d = None)
         ∧ dev_Status d = "online") (st_devices s)
  else [].

Definition try_mark_offline (s : st) (now id : Z) : st :=
  if ok (UMarkOffline id) then with_devices s (map (on_device id (mark_offline now))) else s.

Definition declare_lost (netID now : Z) (agentID : string) (s : st) (id : Z) : st :=
  let s := try_mark_offline s now id in
  let s := recordDeviceLost s id (Some netID) agentID in
  sample s id "offline" "scan".

Definition LostThreshold (lostThreshold : Z) : Z := if 0 <? lostThreshold then lostThreshold else 2.

(** [now1] is the clock of step 1, [now2] the one of step 3. *)
Definition DetectLost (lostThreshold : Z) (s : st) (networkID : option Z) (taskID now1 now2 : Z)
    (reports : list HostReport) (agentID : string) : st :=
  match networkID with
  | None => s
  | Some netID =>
      let (s, aliveIPs) := RecordAliveSnapshots s networkID taskID now1 reports in
      let s := default s (batchIncrementMiss s netID aliveIPs) in
      let threshold := LostThreshold lostThreshold in
      if negb (ok QListLost) then s
      else fold_left (declare_lost netID now2 agentID) (ListLostSnapshots s netID threshold) s
  end.

(** * Lease sweeper (lease_sweeper.go) *)

Record staleAgentSnapshot := mkSas {
  sas_ID : Z;
  sas_NetworkID : Z;
  sas_IP : string;
  sas_Mac : string;
  sas_LastSeenAt : Z;
  sas_DeviceID : Z;
  sas_FlapCount : Z;
  sas_LastFlapAt : option Z;
  sas_DeviceUUID : string
}.

(** The ON clause shared by the sweeper's queries. *)
Definition lease_join (r : ScanSnapshot) (d : Device) : Prop :=
  (ss_DeviceUuid r ≠ "" ∧ dev_DeviceUuid d = ss_DeviceUuid r ∧ dev_NetworkID d = Some (ss_NetworkID r))
  ∨ (ss_DeviceUuid r = "" ∧ dev_IpAddress d = ss_Ip r
     ∧ (dev_NetworkID d = Some (ss_NetworkID r) ∨ dev_NetworkID d = None)).

#[export] Instance lease_join_dec r d : Decision (lease_join r d).
Proof. unfold lease_join. apply _. Defined.

(** The JOIN with networks (their ids are the primary key) and the filter on
    [agent_id]. *)
Definition agent_network (s : st) (id : Z) : Prop :=
  ∃ n, n ∈ st_networks s ∧ net_ID n = id ∧ net_AgentID n ≠ None ∧ net_AgentID n ≠ Some "".

#[export] Instance agent_network_dec s id : Decision (agent_network s id).
Proof.
  refine (cast_if (decide (Exists (fun n => net_ID n = id ∧ net_AgentID n ≠ None
    ∧ net_AgentID n ≠ Some "") (st_networks s)))); rewrite list.Exists_exists in *;
    unfold agent_network; naive_solver.
Defined.

Definition sas_of (r : ScanSnapshot) (d : Device) : staleAgentSnapshot :=
  mkSas (ss_ID r) (ss_NetworkID r) (ss_Ip r) (ss_Mac r) (parse_db_time (ss_LastSeenAt r)) (dev_ID d)
    (ss_FlapCount r) (parse_db_time <$> ss_LastFlapAt r) (ss_DeviceUuid r).

(** [querySnapshots] with one of the two SELECTs, [fresh] choosing which. *)
Definition querySnapshots (s : st) (fresh : bool) (cutoff : Z) : list staleAgentSnapshot :=
  if negb (ok (if fresh then QRecoverable else QStale)) then []
  else
    r ← st_snapshots s;
    d ← st_devices s;
    if decide (lease_join r d ∧ agent_network s (ss_NetworkID r)
               ∧ Bool.eqb (DBTime cutoff <=? ss_LastSeenAt r) fresh = true
               ∧ dev_Status d = (if fresh then "offline" else "online"))
    then [sas_of r d] else [].

Definition hasFresherLease (s : st) (l : staleAgentSnapshot) (cutoff : Z) : bool :=
  ok (QFresher (sas_ID l))
  && existsb (fun r => (ss_DeviceUuid r =? sas_DeviceUUID l)%string && (ss_NetworkID r =? sas_NetworkID l)
       && negb (ss_ID r =? sas_ID l) && (DBTime cutoff <=? ss_LastSeenAt r)) (st_snapshots s).

Definition flapThreshold : Z := 4.
Definition flapStablePeriod : Z := 30 * minute.

(** One iteration of expireStale's loop; the second component is [seen]. *)
Definition expire_row (cutoff now : Z) (acc : st * gset Z) (l : staleAgentSnapshot) : st * gset Z :=
  let (s, seen) := acc in
  if decide (sas_DeviceID l ∈ seen) then acc
  else if negb (bool_decide (sas_DeviceUUID l = "")) && hasFresherLease s l cutoff then
    (if ok (UDissociate (sas_ID l))
     then with_snapshots s (map (on_snapshot (sas_ID l) (fun r => snap_set_uuid r "")))
     else s, seen)
  else
    let seen := {[sas_DeviceID l]} ∪ seen in
    let s := if ok (UFlap (sas_ID l))
             then with_snapshots s (map (on_snapshot (sas_ID l)
                    (fun r => snap_set_flap r (ss_FlapCount r + 1) (DBTime now))))
             else s in
    let s := try_mark_offline s now (sas_DeviceID l) in
    let flapping := flapThreshold <=? sas_FlapCount l + 1 in
    let s := if flapping then s
             else recordDeviceLost s (sas_DeviceID l) (Some (sas_NetworkID l)) "lease" in
    (sample s (sas_DeviceID l) "offline" "lease", seen).

Definition expireStale (s : st) (cutoff now : Z) : st * nat :=
  let stale := querySnapshots s false cutoff in
  ((fold_left (expire_row cutoff now) stale (s, ∅)).1, length stale).

(** The counter a recovery leaves: halved after a quiet period, else bumped. *)
Definition effective_flap (now : Z) (l : staleAgentSnapshot) : Z :=
  match sas_LastFlapAt l with
  | Some t => if flapStablePeriod <=? now - t then Z.quot (sas_FlapCount l) 2 else sas_FlapCount l + 1
  | None => sas_FlapCount l + 1
  end.

Definition recover_row (now : Z) (s : st) (l : staleAgentSnapshot) : st :=
  let before := snapshotDevice s (sas_DeviceID l) in
  if negb (ok (URecover (sas_DeviceID l))) then s
  else
    let s := with_devices s (map (on_device (sas_DeviceID l) (mark_online now))) in
    let effectiveFlapCount := effective_flap now l in
    let s := if ok (UFlap (sas_ID l))
             then with_snapshots s (map (on_snapshot (sas_ID l)
                    (fun r => snap_set_flap r effectiveFlapCount (DBTime now))))
             else s in
    let s := sample s (sas_DeviceID l) "online" "lease" in
    match before with
    | Some b =>
        if bool_decide (sn_Status b = "offline") && negb (flapThreshold <=? effectiveFlapCount)
        then recordDeviceRecovered s (sas_DeviceID l) (Some (sas_NetworkID l)) "lease" before
        else s
    | None => s
    end.

Definition recoverFresh (s : st) (cutoff now : Z) : st * nat :=
  let recoverable := querySnapshots s true cutoff in
  (fold_left (recover_row now) recoverable s, length recoverable).

(** The correlated subquery of the orphan query: some lease row references the
    device (scan_snapshots.network_id is NOT NULL). *)
Definition referenced (s : st) (d : Device) : Prop :=
  ∃ r, r ∈ st_snapshots s ∧ dev_NetworkID d = Some (ss_NetworkID r) ∧
    ((ss_DeviceUuid r ≠ "" ∧ ss_DeviceUuid r = dev_DeviceUuid d)
     ∨ (ss_DeviceUuid r = "" ∧ ss_Ip r = dev_IpAddress d)).

#[export] Instance referenced_dec s d : Decision (referenced s d).
Proof.
  refine (cast_if (decide (Exists (fun r => dev_NetworkID d = Some (ss_NetworkID r) ∧
    ((ss_DeviceUuid r ≠ "" ∧ ss_DeviceUuid r = dev_DeviceUuid d)
     ∨ (ss_DeviceUuid r = "" ∧ ss_Ip r = dev_IpAddress d))) (st_snapshots s))));
    rewrite list.Exists_exists in *; unfold referenced; naive_solver.
Defined.

Definition orphaned (s : st) (cutoff : Z) (d : Device) : Prop :=
  match dev_NetworkID d with
  | None => False
  | Some n => agent_network s n ∧ dev_Status d = "online" ∧ dev_ScanSource d = "scanner_v2"
      ∧ last_seen_lt (dev_LastSeen d) (Some (DBTime cutoff)) = true ∧ dev_LastSeen d ≠ None
      ∧ ¬ referenced s d
  end.

#[export] Instance orphaned_dec s cutoff d : Decision (orphaned s cutoff d).
Proof. unfold orphaned. destruct (dev_NetworkID d); apply _. Defined.

Definition orphan_row (now : Z) (s : st) (o : Device) : st :=
  if negb (ok (UMarkOffline (dev_ID o))) then s
  else
    let s := with_devices s (map (on_device (dev_ID o) (mark_offline now))) in
    let s := recordDeviceLost s (dev_ID o) (dev_NetworkID o) "lease" in
    sample s (dev_ID o) "offline" "lease".

Definition expireOrphaned (s : st) (cutoff now : Z) : st * nat :=
  if negb (ok QOrphaned) then (s, 0%nat)
  else
    let orphans := filter (orphaned s cutoff) (st_devices s) in
    (fold_left (orphan_row now) orphans s, length orphans).

Definition decay_row (stamp cutoff : Z) (r : ScanSnapshot) : ScanSnapshot :=
  match ss_LastFlapAt r with
  | Some t => if (0 <? ss_FlapCount r) && (t <? cutoff)
              then snap_set_flap r (Z.quot (ss_FlapCount r) 2) stamp else r
  | None => r
  end.

(** [now1] computes the cutoff, [now2] is stamped. *)
Definition decayQuietFlaps (s : st) (now1 now2 : Z) : st :=
  if negb (ok UDecay) then s
  else with_snapshots s (map (decay_row (DBTime now2) (DBTime (now1 - flapStablePeriod)))).

(** The clocks one pass reads, in order. *)
Record sweep_clock := mkClock { ck_cutoff : Z; ck_expire : Z; ck_recover : Z; ck_orphan : Z; ck_decay1 : Z; ck_decay2 : Z }.

Definition sweepOnce (ttl : Z) (ck : sweep_clock) (s : st) : st :=
  let cutoff := ck_cutoff ck - ttl in
  let s := (expireStale s cutoff (ck_expire ck)).1 in
  let s := (recoverFresh s cutoff (ck_recover ck)).1 in
  let s := (expireOrphaned s cutoff (ck_orphan ck)).1 in
  decayQuietFlaps s (ck_decay1 ck) (ck_decay2 ck).
End runner.

(** [NewLeaseSweeper]'s defaults: interval and ttl. *)
Definition NewLeaseSweeper (interval ttl : Z) : Z * Z :=
  (if interval <=? 0 then 60 * nanos_per_second else interval,
   if ttl <=? 0 then 5 * minute else ttl).
