(* ===== verification/LeaseSpec.v ===== *)
(** Properties of lost detection and of the lease sweeper. *)

From S2P Require Import Prelude Db Report ChangeDetect Lease.

Open Scope Z_scope.

(** * Shared facts about the statements *)

(** The columns of a lease row that the sweeper's joins read. *)
Definition snap_core (r : ScanSnapshot) : Z * Z * string * string * Z :=
  (ss_ID r, ss_NetworkID r, ss_Ip r, ss_DeviceUuid r, ss_LastSeenAt r).

(** The columns of a device no liveness statement writes. *)
Definition dev_core (d : Device) : Z * string * string * option Z * string :=
  (dev_ID d, dev_DeviceUuid d, dev_IpAddress d, dev_NetworkID d, dev_ScanSource d).

Lemma snap_core_eq r r' :
  snap_core r = snap_core r' ↔ ss_ID r = ss_ID r' ∧ ss_NetworkID r = ss_NetworkID r' ∧ ss_Ip r = ss_Ip r'
    ∧ ss_DeviceUuid r = ss_DeviceUuid r' ∧ ss_LastSeenAt r = ss_LastSeenAt r'.
Proof. unfold snap_core. split; [intros [= -> -> -> -> ->]; done|intros (-> & -> & -> & -> & ->); done]. Qed.

Lemma lease_join_core r r' d d' :
  snap_core r = snap_core r' → dev_core d = dev_core d' → lease_join r d → lease_join r' d'.
Proof.
  rewrite snap_core_eq. intros (_ & Hn & Hi & Hu & _). unfold dev_core. intros [= _ Hdu Hdi Hdn _].
  unfold lease_join. by rewrite Hn, Hi, Hu, Hdu, Hdi, Hdn.
Qed.

Lemma on_device_core id f d : dev_core (f d) = dev_core d → dev_core (on_device id f d) = dev_core d.
Proof. unfold on_device. by case_decide. Qed.

Lemma mark_offline_core now d : dev_core (mark_offline now d) = dev_core d.
Proof. done. Qed.

Lemma mark_online_core now d : dev_core (mark_online now d) = dev_core d.
Proof. done. Qed.

Lemma fmap_map_core {A B} (g : A → B) (f : A → A) (l : list A) :
  (∀ x, g (f x) = g x) → g <$> map f l = g <$> l.
Proof. intros H. induction l as [|x l IH]; [done|]. cbn. by rewrite H, <- IH. Qed.

(** Lists related row by row: a row of one has its counterpart in the other. *)
Lemma fmap_eq_elem {A B} (g : A → B) (l l' : list A) x :
  g <$> l = g <$> l' → x ∈ l → ∃ y, y ∈ l' ∧ g y = g x.
Proof.
  intros Heq Hx. assert (Hg : g x ∈ g <$> l') by (rewrite <- Heq; by apply list_elem_of_fmap_2).
  apply list_elem_of_fmap in Hg as (y & Hy & Hin). by exists y.
Qed.

Lemma NoDup_fmap_elem_eq {A B} (g : A → B) (l : list A) x y :
  NoDup (g <$> l) → x ∈ l → y ∈ l → g x = g y → x = y.
Proof.
  induction l as [|z l IH]; intros Hnd Hx Hy Hg; [by apply elem_of_nil in Hx|].
  cbn in Hnd. apply list.NoDup_cons in Hnd as [Hz Hnd].
  apply elem_of_cons in Hx as [->|Hx], Hy as [->|Hy]; [done| | |auto].
  - destruct Hz. rewrite Hg. by apply list_elem_of_fmap_2.
  - destruct Hz. rewrite <- Hg. by apply list_elem_of_fmap_2.
Qed.

#[export] Hint Resolve mark_offline_core mark_online_core on_device_core : steward.

Lemma map_seen_step id (seen : gset Z) now ds :
  id ∉ seen →
  map (on_device id (mark_offline now))
    (map (fun d => if decide (dev_ID d ∈ seen) then mark_offline now d else d) ds) =
  map (fun d => if decide (dev_ID d ∈ {[id]} ∪ seen) then mark_offline now d else d) ds.
Proof.
  intros Hid. rewrite map_map. apply map_ext. intros d. unfold on_device.
  destruct (decide (dev_ID d ∈ seen)) as [Hs|Hs].
  - cbn [mark_offline dev_liveness dev_ID]. rewrite decide_False by congruence.
    by rewrite decide_True by set_solver.
  - destruct (decide (dev_ID d = id)) as [He|He].
    + by rewrite decide_True by set_solver.
    + by rewrite decide_False by set_solver.
Qed.

Section sweeper.
Context {R S : Type} `{!ChangeRecorder R, !LivenessSampler S}.
Context (ok : stmt → bool) (all_ok : ∀ q, ok q = true).

Notation st := (store R S).

(** Primary keys. *)
Record store_wf (s : st) : Prop := mkWf {
  wf_devices : NoDup (dev_ID <$> st_devices s);
  wf_snapshots : NoDup (ss_ID <$> st_snapshots s)
}.

Definition agent_lease (s : st) (r : ScanSnapshot) (d : Device) : Prop :=
  r ∈ st_snapshots s ∧ lease_join r d ∧ agent_network s (ss_NetworkID r).

(** What the two SELECTs return. *)
Lemma elem_of_querySnapshots s fresh cutoff l :
  l ∈ querySnapshots ok s fresh cutoff ↔
  ∃ r d, l = sas_of r d ∧ d ∈ st_devices s ∧ agent_lease s r d
    ∧ (if fresh then DBTime cutoff ≤ ss_LastSeenAt r else ss_LastSeenAt r < DBTime cutoff)
    ∧ dev_Status d = (if fresh then "offline" else "online").
Proof.
  unfold querySnapshots. rewrite all_ok. cbn [negb]. rewrite list_elem_of_bind. split.
  - intros (r & Hl & Hr). apply list_elem_of_bind in Hl as (d & Hl & Hd).
    case_decide as H; [|by apply elem_of_nil in Hl]. apply list_elem_of_singleton in Hl as ->.
    destruct H as (Hj & Ha & Hf & Hs). exists r, d. split_and!; [done|done|done| |done].
    destruct fresh, (Z.leb_spec (DBTime cutoff) (ss_LastSeenAt r)); done.
  - intros (r & d & -> & Hd & (Hr & Hj & Ha) & Hf & Hs). exists r. split; [|done].
    apply list_elem_of_bind. exists d. split; [|done].
    rewrite decide_True; [by apply list_elem_of_singleton|]. split_and!; [done|done| |done].
    destruct fresh, (Z.leb_spec (DBTime cutoff) (ss_LastSeenAt r)); done || lia.
Qed.

(** A lease whose device holds another lease, inside the TTL, in the same
    network: a remnant left behind by a roam. *)
Definition roamed (s : st) (cutoff : Z) (r : ScanSnapshot) : Prop :=
  ss_DeviceUuid r ≠ "" ∧ ∃ r', r' ∈ st_snapshots s ∧ ss_DeviceUuid r' = ss_DeviceUuid r
    ∧ ss_NetworkID r' = ss_NetworkID r ∧ ss_ID r' ≠ ss_ID r ∧ DBTime cutoff ≤ ss_LastSeenAt r'.

(** The loop's guard, evaluated on the state [s]. *)
Definition guarded (s : st) (cutoff : Z) (l : staleAgentSnapshot) : bool :=
  negb (bool_decide (sas_DeviceUUID l = "")) && hasFresherLease ok s l cutoff.

Lemma guarded_roamed s cutoff r d : guarded s cutoff (sas_of r d) = true ↔ roamed s cutoff r.
Proof.
  unfold guarded, hasFresherLease, roamed. rewrite all_ok. cbn [sas_of sas_DeviceUUID sas_NetworkID sas_ID].
  rewrite !andb_true_iff, negb_true_iff, bool_decide_eq_false, existsb_exists.
  split; [intros (Hu & _ & r' & Hin & H)|intros (Hu & r' & Hin & ? & ? & ? & ?)]; (split; [done|]).
  - rewrite !andb_true_iff, negb_true_iff, Z.eqb_neq, Z.leb_le, Z.eqb_eq, String.eqb_eq in H.
    exists r'. rewrite list_elem_of_In. naive_solver.
  - split; [done|]. exists r'. rewrite <- list_elem_of_In. split; [done|].
    rewrite !andb_true_iff, negb_true_iff, Z.eqb_neq, Z.leb_le, Z.eqb_eq, String.eqb_eq. naive_solver.
Qed.

(** The rows inside the TTL, as the guard sees them. *)
Definition fresh_cores (s : st) (cutoff : Z) :=
  filter (fun c => DBTime cutoff ≤ c.2) (snap_core <$> st_snapshots s).

Lemma guarded_fresh_cores s s' cutoff l :
  fresh_cores s cutoff = fresh_cores s' cutoff → guarded s cutoff l = guarded s' cutoff l.
Proof.
  intros Heq. unfold guarded, hasFresherLease. f_equal. f_equal.
  assert (Hgo : ∀ t t' : st, fresh_cores t cutoff = fresh_cores t' cutoff →
    existsb (fun r => (ss_DeviceUuid r =? sas_DeviceUUID l)%string && (ss_NetworkID r =? sas_NetworkID l)
       && negb (ss_ID r =? sas_ID l) && (DBTime cutoff <=? ss_LastSeenAt r)) (st_snapshots t) = true →
    existsb (fun r => (ss_DeviceUuid r =? sas_DeviceUUID l)%string && (ss_NetworkID r =? sas_NetworkID l)
       && negb (ss_ID r =? sas_ID l) && (DBTime cutoff <=? ss_LastSeenAt r)) (st_snapshots t') = true).
  { intros t t' He. rewrite !existsb_exists. intros (r & Hr & H). apply list_elem_of_In in Hr.
    assert (Hle : DBTime cutoff ≤ ss_LastSeenAt r) by (apply andb_true_iff in H as [_ H]; lia).
    assert (Hc : snap_core r ∈ fresh_cores t cutoff).
    { apply list_elem_of_filter. split; [done|]. by apply list_elem_of_fmap_2. }
    rewrite He in Hc. apply list_elem_of_filter in Hc as [_ Hc].
    apply list_elem_of_fmap in Hc as (r' & Hcore & Hr'). exists r'. rewrite <- list_elem_of_In.
    split; [done|]. apply snap_core_eq in Hcore as (<- & <- & _ & <- & <-). done. }
  apply eq_bool_prop_intro. rewrite !Is_true_true. by split; apply Hgo.
Qed.

(** Rows keep their id and their last sighting throughout a pass. *)
Definition snap_key (r : ScanSnapshot) : Z * Z := (ss_ID r, ss_LastSeenAt r).

Lemma fresh_cores_map (ss : list ScanSnapshot) cutoff g :
  (∀ r, r ∈ ss → ss_LastSeenAt (g r) = ss_LastSeenAt r) →
  (∀ r, r ∈ ss → DBTime cutoff ≤ ss_LastSeenAt r → snap_core (g r) = snap_core r) →
  filter (fun c => DBTime cutoff ≤ c.2) (snap_core <$> map g ss) =
  filter (fun c => DBTime cutoff ≤ c.2) (snap_core <$> ss).
Proof.
  induction ss as [|r ss IH]; intros Hk Hf; [done|]. cbn [map fmap list_fmap].
  rewrite !filter_cons, IH by (intros; (apply Hk || apply Hf); set_solver).
  assert (Hl : ss_LastSeenAt (g r) = ss_LastSeenAt r) by (apply Hk; set_solver).
  change (snap_core (g r)).2 with (ss_LastSeenAt (g r)). change (snap_core r).2 with (ss_LastSeenAt r).
  rewrite Hl. case_decide; [|done]. by rewrite Hf by set_solver.
Qed.

(** A row found by its id among the rows of the pass is the row the query saw. *)
Lemma snap_key_stale (s0 s : st) r r1 :
  store_wf s0 → snap_key <$> st_snapshots s = snap_key <$> st_snapshots s0 →
  r ∈ st_snapshots s0 → r1 ∈ st_snapshots s → ss_ID r1 = ss_ID r → ss_LastSeenAt r1 = ss_LastSeenAt r.
Proof.
  intros [_ Hnd] Hk Hr Hr1 Hid. destruct (fmap_eq_elem _ _ _ _ Hk Hr1) as (r2 & Hr2 & Heq).
  injection Heq as Hid2 Hls. rewrite <- Hls. f_equal.
  apply (NoDup_fmap_elem_eq ss_ID (st_snapshots s0)); congruence.
Qed.

Record expire_inv (s0 : st) (cutoff now : Z) (ls : list staleAgentSnapshot) (acc : st * gset Z) : Prop := {
  ei_networks : st_networks acc.1 = st_networks s0;
  ei_keys : snap_key <$> st_snapshots acc.1 = snap_key <$> st_snapshots s0;
  ei_fresh : fresh_cores acc.1 cutoff = fresh_cores s0 cutoff;
  ei_devices : st_devices acc.1 =
    map (fun d => if decide (dev_ID d ∈ acc.2) then mark_offline now d else d) (st_devices s0);
  ei_seen : ∀ id, id ∈ acc.2 ↔ ∃ l, l ∈ ls ∧ sas_DeviceID l = id ∧ guarded s0 cutoff l = false
}.

(** The state after one row that is expired, in one piece. *)
Lemma expire_row_expired cutoff now s seen l :
  sas_DeviceID l ∉ seen → guarded s cutoff l = false →
  let acc := expire_row ok cutoff now (s, seen) l in
  acc.2 = {[sas_DeviceID l]} ∪ seen
  ∧ st_networks acc.1 = st_networks s
  ∧ st_snapshots acc.1 = map (on_snapshot (sas_ID l)
      (fun r => snap_set_flap r (ss_FlapCount r + 1) (DBTime now))) (st_snapshots s)
  ∧ st_devices acc.1 = map (on_device (sas_DeviceID l) (mark_offline now)) (st_devices s).
Proof.
  intros Hs Hg. unfold expire_row. rewrite decide_False by done.
  fold (guarded s cutoff l). rewrite Hg. unfold try_mark_offline. rewrite !all_ok.
  destruct (flapThreshold <=? _); done.
Qed.

Lemma expire_row_inv s0 cutoff now ls acc l :
  store_wf s0 → l ∈ querySnapshots ok s0 false cutoff →
  expire_inv s0 cutoff now ls acc →
  expire_inv s0 cutoff now (ls ++ [l]) (expire_row ok cutoff now acc l).
Proof.
  intros Hwf Hl [Hn Hk Hf Hd Hs]. destruct acc as [s seen]; cbn [fst snd] in *.
  apply elem_of_querySnapshots in Hl as (r & d & Hlr & Hdin & (Hr & _) & Hst & _).
  assert (Hg : guarded s cutoff l = guarded s0 cutoff l) by by apply guarded_fresh_cores.
  assert (Hseen : ∀ b, guarded s0 cutoff l = b → ∀ id,
    (∃ k, k ∈ ls ++ [l] ∧ sas_DeviceID k = id ∧ guarded s0 cutoff k = false)
    ↔ id ∈ seen ∨ (sas_DeviceID l = id ∧ b = false)).
  { intros b <- id. rewrite Hs. setoid_rewrite elem_of_app. setoid_rewrite list_elem_of_singleton.
    naive_solver. }
  assert (Hcore : ∀ f, (∀ x, ss_LastSeenAt (f x) = ss_LastSeenAt x) →
    filter (fun c => DBTime cutoff ≤ c.2) (snap_core <$> map (on_snapshot (sas_ID l) f) (st_snapshots s))
    = fresh_cores s cutoff).
  { intros f Hfl. apply fresh_cores_map; intros x Hx; unfold on_snapshot; case_decide as He; auto.
    intros Hle. exfalso. rewrite Hlr in He.
    rewrite (snap_key_stale s0 s r x Hwf Hk Hr Hx He) in Hle. lia. }
  assert (Hkeys : ∀ f, (∀ x, snap_key (f x) = snap_key x) →
    snap_key <$> map (on_snapshot (sas_ID l) f) (st_snapshots s) = snap_key <$> st_snapshots s0).
  { intros f Hfk. rewrite fmap_map_core; [done|]. intros x. unfold on_snapshot. case_decide; auto. }
  destruct (decide (sas_DeviceID l ∈ seen)) as [Hin|Hin].
  { unfold expire_row. rewrite decide_True by done. split; cbn [fst snd]; try done.
    intros id. rewrite (Hseen _ eq_refl). naive_solver. }
  destruct (guarded s0 cutoff l) eqn:Eg.
  - unfold expire_row. rewrite decide_False by done. fold (guarded s cutoff l). rewrite Hg, all_ok.
    split; cbn [fst snd]; try done.
    + by apply Hkeys.
    + rewrite <- Hf. by apply Hcore.
    + intros id. rewrite (Hseen _ eq_refl). naive_solver.
  - destruct (expire_row_expired cutoff now s seen l Hin Hg) as (E2 & En & Es & Ed).
    split; rewrite ?E2, ?En, ?Es, ?Ed; try done.
    + by apply Hkeys.
    + unfold fresh_cores at 1. rewrite Es, <- Hf. by apply Hcore.
    + rewrite Hd. by apply map_seen_step.
    + intros id. rewrite (Hseen _ eq_refl). set_solver.
Qed.

Lemma expire_loop_inv s0 cutoff now ls :
  store_wf s0 → (∀ l, l ∈ ls → l ∈ querySnapshots ok s0 false cutoff) →
  expire_inv s0 cutoff now ls (fold_left (expire_row ok cutoff now) ls (s0, ∅)).
Proof.
  intros Hwf. induction ls as [|l ls IH] using rev_ind; intros Hls.
  - split; cbn; try done.
    + symmetry. rewrite <- (map_id (st_devices s0)) at 2. apply map_ext. intros d.
      by rewrite decide_False by set_solver.
    + intros id. split; [set_solver|]. intros (l & H & _). by apply elem_of_nil in H.
  - rewrite fold_left_app. cbn [fold_left]. apply expire_row_inv; [done|apply Hls; set_solver|].
    apply IH. intros k Hk. apply Hls. set_solver.
Qed.

(** A device leaves the online state: it is online, and some lease of it in an
    agent network is past the TTL and is not the remnant of a roam. *)
Definition expires (s : st) (cutoff : Z) (d : Device) : Prop :=
  dev_Status d = "online" ∧
  ∃ r, agent_lease s r d ∧ ss_LastSeenAt r < DBTime cutoff ∧ ¬ roamed s cutoff r.

Lemma expire_seen s cutoff d :
  store_wf s → d ∈ st_devices s →
  (∃ l, l ∈ querySnapshots ok s false cutoff ∧ sas_DeviceID l = dev_ID d ∧ guarded s cutoff l = false)
  ↔ expires s cutoff d.
Proof.
  intros [Hwd _] Hd. unfold expires. split.
  - intros (l & Hl & Hid & Hg).
    apply elem_of_querySnapshots in Hl as (r & d' & -> & Hd' & Hlease & Hst & Hs).
    assert (d' = d) as -> by (apply (NoDup_fmap_elem_eq dev_ID (st_devices s)); done).
    split; [done|]. exists r. split_and!; [done|done|].
    rewrite <- (guarded_roamed s cutoff r d), Hg. done.
  - intros (Hs & r & Hlease & Hst & Hro). exists (sas_of r d). split_and!; [|done|].
    + apply elem_of_querySnapshots. by exists r, d.
    + apply not_true_iff_false. by rewrite guarded_roamed.
Qed.

(** C31.  With no database fault, the stale pass flips offline exactly the
    online devices one of whose leases in an agent network is past the TTL
    and is not the remnant of a roam (the same device holding a lease inside
    the TTL in the same network); every other device row is left as it was. *)
Theorem expireStale_exact s cutoff now :
  store_wf s →
  Forall2 (fun d d' => (expires s cutoff d ∧ d' = mark_offline now d)
                     ∨ (¬ expires s cutoff d ∧ d' = d))
    (st_devices s) (st_devices (expireStale ok s cutoff now).1).
Proof.
  intros Hwf. unfold expireStale. cbn [fst].
  destruct (expire_loop_inv s cutoff now _ Hwf (fun l H => H)) as [_ _ _ Hd Hs].
  rewrite Hd. change @map with @list_fmap. apply Forall2_fmap_r, Forall_Forall2_diag, list.Forall_forall.
  intros d Hin. pose proof (expire_seen s cutoff d Hwf Hin) as He. rewrite <- Hs in He.
  unfold compose. case_decide; [left|right]; tauto.
Qed.

(** * Recovery *)

Lemma mark_online_idemp now d : mark_online now (mark_online now d) = mark_online now d.
Proof. done. Qed.

Lemma recover_row_effect now s l :
  let s' := recover_row ok now s l in
  st_devices s' = map (on_device (sas_DeviceID l) (mark_online now)) (st_devices s)
  ∧ snap_core <$> st_snapshots s' = snap_core <$> st_snapshots s
  ∧ st_networks s' = st_networks s.
Proof.
  unfold recover_row. rewrite !all_ok. cbn [negb].
  assert (Hc : snap_core <$> map (on_snapshot (sas_ID l) (fun r =>
      snap_set_flap r (effective_flap now l) (DBTime now))) (st_snapshots s) = snap_core <$> st_snapshots s).
  { apply fmap_map_core. intros r. unfold on_snapshot. by case_decide. }
  destruct (snapshotDevice ok s (sas_DeviceID l)) as [b|]; [|done].
  by destruct (bool_decide (sn_Status b = "offline") && _).
Qed.

Definition set_online (ids : list Z) (now : Z) (d : Device) : Device :=
  if decide (dev_ID d ∈ ids) then mark_online now d else d.

Lemma recover_loop_effect now ls s :
  let s' := fold_left (recover_row ok now) ls s in
  st_devices s' = map (set_online (sas_DeviceID <$> ls) now) (st_devices s)
  ∧ snap_core <$> st_snapshots s' = snap_core <$> st_snapshots s
  ∧ st_networks s' = st_networks s.
Proof.
  revert s. induction ls as [|l ls IH]; intros s; cbn [fold_left].
  { split_and!; [|done|done]. rewrite <- (map_id (st_devices s)) at 1. apply map_ext.
    intros d. unfold set_online. by rewrite decide_False by set_solver. }
  destruct (recover_row_effect now s l) as (Hd & Hs & Hn).
  destruct (IH (recover_row ok now s l)) as (Hd' & Hs' & Hn').
  split_and!; [|congruence..]. rewrite Hd', Hd, map_map. apply map_ext. intros d.
  unfold set_online, on_device. cbn [fmap list_fmap].
  destruct (decide (dev_ID d = sas_DeviceID l)) as [He|He].
  - rewrite (decide_True (P := dev_ID d ∈ _ :: _)) by set_solver.
    case_decide; [apply mark_online_idemp|done].
  - destruct (decide (dev_ID d ∈ sas_DeviceID <$> ls)).
    + by rewrite decide_True by set_solver.
    + by rewrite decide_False by set_solver.
Qed.

(** A device with a lease inside the TTL in an agent network. *)
Definition alive_lease (s : st) (cutoff : Z) (d : Device) : Prop :=
  ∃ r, agent_lease s r d ∧ DBTime cutoff ≤ ss_LastSeenAt r.

(** Two states that agree on the columns the joins read. *)
Definition same_cores (s s' : st) : Prop :=
  snap_core <$> st_snapshots s = snap_core <$> st_snapshots s' ∧ st_networks s = st_networks s'.

Lemma alive_lease_core s s' cutoff d d' :
  same_cores s s' → dev_core d = dev_core d' → alive_lease s cutoff d → alive_lease s' cutoff d'.
Proof.
  intros [Hs Hn] Hd (r & (Hr & Hj & Ha) & Hl).
  destruct (fmap_eq_elem _ _ _ _ Hs Hr) as (r' & Hr' & Hc). exists r'.
  pose proof Hc as Hc'. apply snap_core_eq in Hc' as (_ & Hnet & _ & _ & Hls).
  split; [split_and!|congruence]; [done|by eapply lease_join_core|].
  unfold agent_network in *. by rewrite <- Hn, Hnet.
Qed.

Lemma recoverFresh_online s cutoff now d :
  let s' := (recoverFresh ok s cutoff now).1 in
  d ∈ st_devices s' → alive_lease s' cutoff d → dev_Status d ≠ "offline".
Proof.
  unfold recoverFresh. cbn [fst]. set (ls := querySnapshots ok s true cutoff).
  destruct (recover_loop_effect now ls s) as (Hd & Hs & Hn). intros Hin Ha.
  rewrite Hd in Hin. apply list_elem_of_In, in_map_iff in Hin as (d0 & <- & Hin).
  apply list_elem_of_In in Hin. unfold set_online in *.
  destruct (decide (dev_ID d0 ∈ sas_DeviceID <$> ls)) as [|Hni]; [done|].
  intros Hoff. apply Hni. eapply alive_lease_core in Ha as (r & Hlease & Hfr);
    [|by split; [apply Hs|apply Hn]|reflexivity].
  apply list_elem_of_fmap. exists (sas_of r d0). split; [done|].
  apply elem_of_querySnapshots. by exists r, d0.
Qed.

(** * Orphans and decay *)

Lemma orphan_row_effect now s o :
  let s' := orphan_row ok now s o in
  st_devices s' = map (on_device (dev_ID o) (mark_offline now)) (st_devices s)
  ∧ st_snapshots s' = st_snapshots s ∧ st_networks s' = st_networks s.
Proof. unfold orphan_row. rewrite all_ok. done. Qed.

Lemma orphan_loop_effect now os s :
  let s' := fold_left (orphan_row ok now) os s in
  st_snapshots s' = st_snapshots s ∧ st_networks s' = st_networks s
  ∧ ∀ d, d ∈ st_devices s' → dev_ID d ∉ dev_ID <$> os → d ∈ st_devices s.
Proof.
  revert s. induction os as [|o os IH]; intros s; cbn [fold_left]; [done|].
  destruct (orphan_row_effect now s o) as (Hd & Hs & Hn).
  destruct (IH (orphan_row ok now s o)) as (Hs' & Hn' & Hd').
  split_and!; [congruence..|]. intros d Hin Hni. cbn [fmap list_fmap] in Hni.
  specialize (Hd' d Hin ltac:(set_solver)). rewrite Hd in Hd'.
  apply list_elem_of_In, in_map_iff in Hd' as (d0 & <- & H0). unfold on_device in *.
  case_decide as He; [|by apply list_elem_of_In].
  exfalso. apply Hni. change (dev_ID d0 ∈ dev_ID o :: (dev_ID <$> os)). set_solver.
Qed.

Lemma alive_not_orphaned s cutoff cutoff' d : alive_lease s cutoff d → ¬ orphaned s cutoff' d.
Proof.
  intros (r & (Hr & Hj & _) & _) Ho. unfold orphaned in Ho.
  destruct (dev_NetworkID d) as [n|] eqn:Hn; [|done]. destruct Ho as (_ & _ & _ & _ & _ & Hnr).
  apply Hnr. exists r. unfold lease_join in Hj. naive_solver.
Qed.

Lemma orphan_loop_core now os s d :
  d ∈ st_devices (fold_left (orphan_row ok now) os s) → ∃ d0, d0 ∈ st_devices s ∧ dev_core d0 = dev_core d.
Proof.
  revert s. induction os as [|o os IH]; intros s Hd; cbn [fold_left] in Hd; [by exists d|].
  destruct (IH _ Hd) as (d1 & Hd1 & <-).
  destruct (orphan_row_effect now s o) as (Hds & _). rewrite Hds in Hd1.
  apply list_elem_of_In, in_map_iff in Hd1 as (d0 & <- & H0). exists d0.
  split; [by apply list_elem_of_In|]. symmetry. auto with steward.
Qed.

Lemma decay_row_core stamp cutoff r : snap_core (decay_row stamp cutoff r) = snap_core r.
Proof. unfold decay_row. destruct (ss_LastFlapAt r); [|done]. by destruct (_ && _). Qed.

(** After a sweep with no database fault, whatever the tables held before
    and whatever clocks it read, no device with a lease inside the TTL in an
    agent network is left offline: the orphan backstop, which runs last,
    never undoes the recovery. *)
Theorem sweep_leaves_no_fresh_offline ttl ck s d :
  store_wf s →
  let s' := sweepOnce ok ttl ck s in
  d ∈ st_devices s' → alive_lease s' (ck_cutoff ck - ttl) d → dev_Status d ≠ "offline".
Proof.
  intros Hwf s'. unfold s', sweepOnce, decayQuietFlaps. rewrite all_ok. cbn [negb].
  set (cutoff := ck_cutoff ck - ttl).
  set (s1 := (expireStale ok s cutoff (ck_expire ck)).1).
  set (s2 := (recoverFresh ok s1 cutoff (ck_recover ck)).1).
  unfold expireOrphaned. rewrite all_ok. cbn [negb fst].
  set (os := filter (orphaned s2 cutoff) (st_devices s2)).
  destruct (orphan_loop_effect (ck_orphan ck) os s2) as (Hs & Hn & Hd).
  set (s3 := fold_left (orphan_row ok (ck_orphan ck)) os s2) in *.
  intros Hin Ha.
  assert (Ha2 : alive_lease s2 cutoff d).
  { eapply (alive_lease_core _ s2); [|reflexivity|exact Ha]. split; [|exact Hn].
    cbn [st_snapshots with_snapshots]. rewrite fmap_map_core; [by rewrite Hs|apply decay_row_core]. }
  assert (Hd2 : NoDup (dev_ID <$> st_devices s2)).
  { unfold s2, recoverFresh. cbn [fst].
    destruct (recover_loop_effect (ck_recover ck) (querySnapshots ok s1 true cutoff) s1) as (-> & _).
    rewrite fmap_map_core; [|intros x; unfold set_online; by case_decide].
    unfold s1, expireStale. cbn [fst].
    destruct (expire_loop_inv s cutoff (ck_expire ck) _ Hwf (fun l H => H)) as [_ _ _ -> _].
    rewrite fmap_map_core; [apply Hwf|intros x; by case_decide]. }
  destruct (decide (dev_ID d ∈ dev_ID <$> os)) as [Ho|Ho].
  - apply list_elem_of_fmap in Ho as (o & Hid & Ho). apply list_elem_of_filter in Ho as [Ho Hoin].
    exfalso. eapply (alive_not_orphaned s2 cutoff cutoff o); [|exact Ho].
    assert (∃ d0, d0 ∈ st_devices s2 ∧ dev_core d0 = dev_core d) as (d0 & Hd0 & Hc).
    { eapply (orphan_loop_core (ck_orphan ck) os). exact Hin. }
    assert (d0 = o) as ->.
    { apply (NoDup_fmap_elem_eq dev_ID (st_devices s2)); [done..|]. unfold dev_core in Hc. congruence. }
    by eapply (alive_lease_core s2 s2); [|symmetry; exact Hc|].
  - apply (recoverFresh_online s1 cutoff (ck_recover ck)); [by apply Hd|exact Ha2].
Qed.
End sweeper.

(** * The events of the stale pass *)

Section expire_events.
Context {S : Type} `{!LivenessSampler S}.
Context (ok : stmt → bool) (all_ok : ∀ q, ok q = true).

Notation st := (store event_trace S).

Lemma filter_id_unique (ds : list Device) d :
  NoDup (dev_ID <$> ds) → d ∈ ds → filter (fun x => dev_ID x = dev_ID d) ds = [d].
Proof.
  induction ds as [|x ds IH]; intros Hnd Hd; [by apply elem_of_nil in Hd|].
  cbn in Hnd. apply list.NoDup_cons in Hnd as [Hx Hnd]. rewrite filter_cons.
  apply elem_of_cons in Hd as [->|Hd].
  - rewrite decide_True by done. f_equal. apply filter_none, list.Forall_forall. intros y Hy He.
    apply Hx. rewrite <- He. by apply list_elem_of_fmap_2.
  - rewrite decide_False; [by apply IH|]. intros He. apply Hx. rewrite He. by apply list_elem_of_fmap_2.
Qed.

(** A device_lost event of the pass, with the device and the lease behind it. *)
Definition lost_event (s0 : st) (cutoff now : Z) (ev : ChangeEvent) : Prop :=
  ev_ChangeType ev = ChangeTypeDeviceLost ∧ ∃ d r,
    d ∈ st_devices s0 ∧ dev_ID d = ev_DeviceID ev ∧ expires s0 cutoff d ∧ agent_lease s0 r d
    ∧ ss_FlapCount r + 1 < flapThreshold
    ∧ ev_Before ev = AnySnapshot (Some (SnapshotFromDevice (mark_offline now d))).

Record events_inv (s0 : st) (cutoff now : Z) (acc : st * gset Z) (evs : list ChangeEvent) : Prop := {
  vi_trace : ∀ tr, st_changeRecorder s0 = Some tr → st_changeRecorder acc.1 = Some (tr ++ evs);
  vi_seen : ∀ ev, ev ∈ evs → ev_DeviceID ev ∈ acc.2;
  vi_nodup : NoDup (ev_DeviceID <$> evs);
  vi_lost : ∀ ev, ev ∈ evs → lost_event s0 cutoff now ev
}.

Lemma expire_row_events s0 cutoff now ls acc evs l :
  store_wf s0 → l ∈ querySnapshots ok s0 false cutoff →
  expire_inv ok s0 cutoff now ls acc → events_inv s0 cutoff now acc evs →
  ∃ evs', events_inv s0 cutoff now (expire_row ok cutoff now acc l) evs'.
Proof.
  intros Hwf Hl Hi [Ht Hsn Hnd Hlost]. destruct acc as [s seen]; cbn [fst snd] in *.
  destruct (decide (sas_DeviceID l ∈ seen)) as [Hin|Hin].
  { exists evs. unfold expire_row. by rewrite decide_True. }
  destruct (guarded ok s cutoff l) eqn:Eg.
  { exists evs. unfold expire_row. rewrite decide_False by done.
    fold (guarded ok s cutoff l). rewrite Eg. by destruct (ok (UDissociate (sas_ID l))). }
  destruct (expire_row_expired ok all_ok cutoff now s seen l Hin Eg) as (E2 & _ & _ & Ed).
  assert (Hg0 : guarded ok s0 cutoff l = false).
  { rewrite <- Eg. symmetry. apply guarded_fresh_cores. apply (ei_fresh _ _ _ _ _ _ Hi). }
  pose proof Hl as Hl'. apply elem_of_querySnapshots in Hl' as (r & d & -> & Hd & Hlease & Hst & Hs);
    [|done].
  assert (Hexp : expires s0 cutoff d).
  { split; [done|]. exists r. split_and!; [done..|].
    rewrite <- (guarded_roamed ok all_ok s0 cutoff r d), Hg0. done. }
  set (ev := mkEvent ChangeTypeDeviceLost EntityTypeDevice "" (dev_ID d) (Some (ss_NetworkID r)) "lease"
    (AnySnapshot (Some (SnapshotFromDevice (mark_offline now d)))) AnyNil).
  destruct (Z.leb_spec flapThreshold (ss_FlapCount r + 1)) as [Hfl|Hfl].
  - exists evs. split; [|intros e He; rewrite E2; set_solver|done|done].
    intros tr Htr. unfold expire_row. rewrite decide_False by done.
    fold (guarded ok s cutoff (sas_of r d)). rewrite Eg. unfold try_mark_offline. rewrite !all_ok.
    cbn [sas_of sas_FlapCount]. rewrite (proj2 (Z.leb_le _ _) Hfl). cbn. by rewrite (Ht tr).
  - exists (evs ++ [ev]). split; rewrite ?E2.
    + intros tr Htr. unfold expire_row. rewrite decide_False by done.
      fold (guarded ok s cutoff (sas_of r d)). rewrite Eg. unfold try_mark_offline. rewrite !all_ok.
      cbn [sas_of sas_FlapCount]. rewrite (proj2 (Z.leb_gt _ _) Hfl). cbn [fst].
      unfold sample, recordDeviceLost, emit. cbn [st_changeRecorder with_devices with_snapshots].
      rewrite (Ht tr Htr). unfold event_trace_Record, Record_. cbn [fmap option_fmap option_map].
      rewrite <- app_assoc. do 3 f_equal. unfold ev. cbn [sas_DeviceID sas_NetworkID sas_of]. do 2 f_equal.
      unfold snapshotDevice. rewrite all_ok. cbn [st_devices with_devices with_snapshots].
      pose proof (ei_devices _ _ _ _ _ _ Hi) as Hdv. cbn [fst snd] in Hdv. rewrite Hdv, map_seen_step by done.
      assert (Hu : filter (fun x => dev_ID x = dev_ID d)
        (map (fun d0 => if decide (dev_ID d0 ∈ {[dev_ID d]} ∪ seen) then mark_offline now d0 else d0)
          (st_devices s0)) = [mark_offline now d]); [|by rewrite Hu].
      apply (filter_id_unique _ (mark_offline now d)).
      * rewrite fmap_map_core; [apply Hwf|]. intros x. by case_decide.
      * apply list_elem_of_In, in_map_iff. exists d. rewrite decide_True by set_solver.
        split; [done|by apply list_elem_of_In].
    + intros e. rewrite elem_of_app, list_elem_of_singleton. intros [He| ->]; [|cbn]; set_solver.
    + rewrite fmap_app. apply list.NoDup_app. split_and!; [done| |apply NoDup_singleton].
      intros id Hid. apply list_elem_of_fmap in Hid as (e & -> & He). cbn.
      rewrite list_elem_of_singleton. intros Heq. apply Hin. cbn. rewrite <- Heq. by apply Hsn.
    + intros e. rewrite elem_of_app, list_elem_of_singleton. intros [He| ->]; [by apply Hlost|].
      split; [done|]. by exists d, r.
Qed.

(** The stale pass emits at most one event per device; each is a
    device_lost of a device that this very pass flips offline, whose lease has
    had fewer than three transitions (from the fourth on the device counts as
    flapping and stays silent).  Its before snapshot is read after the flip,
    so it already says offline. *)
Theorem expireStale_events s cutoff now tr :
  store_wf s → st_changeRecorder s = Some tr →
  ∃ evs, st_changeRecorder (expireStale ok s cutoff now).1 = Some (tr ++ evs)
    ∧ NoDup (ev_DeviceID <$> evs) ∧ ∀ ev, ev ∈ evs → lost_event s cutoff now ev.
Proof.
  intros Hwf Htr. unfold expireStale. cbn [fst].
  assert (H : ∀ ls, (∀ l, l ∈ ls → l ∈ querySnapshots ok s false cutoff) →
    ∃ evs, events_inv s cutoff now (fold_left (expire_row ok cutoff now) ls (s, ∅)) evs).
  { intros ls. induction ls as [|l ls IH] using rev_ind; intros Hls.
    - exists []. split; cbn.
      + intros tr' Htr'. by rewrite app_nil_r.
      + intros ev He. by apply elem_of_nil in He.
      + apply NoDup_nil_2.
      + intros ev He. by apply elem_of_nil in He.
    - assert (Hls' : ∀ k, k ∈ ls → k ∈ querySnapshots ok s false cutoff)
        by (intros k Hk; apply Hls; set_solver).
      destruct (IH Hls') as [evs Hev]. rewrite fold_left_app. cbn [fold_left].
      eapply expire_row_events; [done|apply Hls; set_solver|by apply expire_loop_inv|exact Hev]. }
  destruct (H _ (fun l H => H)) as [evs [Ht _ Hnd Hl]]. exists evs. auto.
Qed.
End expire_events.

(** * Decay of the flap counter *)

(** Passes at the clocks [ts], each a full stable period after the last flap
    stamp (in seconds) as the query measures it. *)
Fixpoint quiet_from (t : Z) (ts : list Z) : Prop :=
  match ts with
  | [] => True
  | u :: ts => t < DBTime (u - flapStablePeriod) ∧ quiet_from (DBTime u) ts
  end.

Definition decay_passes (r : ScanSnapshot) (ts : list Z) : ScanSnapshot :=
  fold_left (fun r t => decay_row (DBTime t) (DBTime (t - flapStablePeriod)) r) ts r.

Lemma decay_passes_zero r ts : ss_FlapCount r = 0 → decay_passes r ts = r.
Proof.
  intros Hz. induction ts as [|t ts IH]; [done|]. cbn. unfold decay_row at 2. rewrite Hz. cbn.
  by destruct (ss_LastFlapAt r).
Qed.

Lemma decay_passes_pow ts : ∀ r t,
  0 ≤ ss_FlapCount r → ss_LastFlapAt r = Some t → quiet_from t ts →
  ss_FlapCount (decay_passes r ts) = ss_FlapCount r / 2 ^ Z.of_nat (length ts).
Proof.
  induction ts as [|u ts IH]; intros r t Hc Hl Hq.
  { cbn. by rewrite Z.div_1_r. }
  destruct Hq as [Hu Hq]. cbn [length]. rewrite Nat2Z.inj_succ, Z.pow_succ_r by lia.
  rewrite <- Z.div_div by lia. destruct (decide (ss_FlapCount r = 0)) as [Hz|Hz].
  { rewrite decay_passes_zero by done. rewrite Hz. done. }
  cbn [decay_passes fold_left]. unfold decay_row at 2. rewrite Hl.
  rewrite (proj2 (Z.ltb_lt 0 _)), (proj2 (Z.ltb_lt t _)) by lia. cbn [andb].
  fold (decay_passes (snap_set_flap r (Z.quot (ss_FlapCount r) 2) (DBTime u)) ts).
  rewrite Z.quot_div_nonneg by lia. rewrite (IH _ (DBTime u)); [done| |done|done].
  cbn. apply Z.div_pos; lia.
Qed.

Section decay.
Context {R S : Type} `{!ChangeRecorder R, !LivenessSampler S}.
Context (ok : stmt → bool) (all_ok : ∀ q, ok q = true).

Lemma decay_fold_snapshots ts (s : store R S) :
  st_snapshots (fold_left (fun s t => decayQuietFlaps ok s t t) ts s)
  = map (fun r => decay_passes r ts) (st_snapshots s).
Proof.
  revert s. induction ts as [|t ts IH]; intros s; cbn [fold_left].
  { symmetry. apply map_id. }
  rewrite IH. unfold decayQuietFlaps. rewrite all_ok. cbn [negb with_snapshots st_snapshots].
  by rewrite map_map.
Qed.

(** A lease that stops flapping earns its events back: each decay pass that
    comes a stable period after the previous stamp halves the counter, so
    after [n] of them it is the original divided by [2^n], and once the
    original is below [2^(n+1)] the next loss of the device is below the
    suppression threshold. *)
Theorem quiet_flaps_decay s ts i r t :
  st_snapshots s !! i = Some r → 0 ≤ ss_FlapCount r → ss_LastFlapAt r = Some t → quiet_from t ts →
  ∃ r', st_snapshots (fold_left (fun s t => decayQuietFlaps (R:=R) (S:=S) ok s t t) ts s) !! i = Some r'
    ∧ snap_core r' = snap_core r
    ∧ ss_FlapCount r' = ss_FlapCount r / 2 ^ Z.of_nat (length ts)
    ∧ (ss_FlapCount r < 2 ^ (Z.of_nat (length ts) + 1) → ss_FlapCount r' + 1 < flapThreshold).
Proof.
  intros Hr Hc Hl Hq. rewrite decay_fold_snapshots.
  exists (decay_passes r ts). pose proof (decay_passes_pow ts r t Hc Hl Hq) as Hp. split_and!.
  - change @map with @list_fmap. by rewrite list_lookup_fmap, Hr.
  - unfold decay_passes. clear. revert r. induction ts as [|u ts IH]; intros r; [done|].
    cbn [fold_left]. by rewrite IH, decay_row_core.
  - done.
  - intros Hlt. rewrite Hp. rewrite Z.pow_add_r, Z.pow_1_r in Hlt by lia.
    assert (ss_FlapCount r / 2 ^ Z.of_nat (length ts) < 2) by (apply Z.div_lt_upper_bound; lia).
    unfold flapThreshold. lia.
Qed.
End decay.

(** * Lost detection *)

Section detect.
Context {R S : Type} `{!ChangeRecorder R, !LivenessSampler S}.
Context (ok : stmt → bool) (all_ok : ∀ q, ok q = true).

Notation st := (store R S).

(** The addresses a scan saw alive. *)
Definition alive_ip (reports : list HostReport) (ip : string) : Prop :=
  ∃ rep, rep ∈ reports ∧ hr_Alive rep = true ∧ hr_IP rep = ip ∧ ip ≠ "".

(** A lease row as lost detection identifies it. *)
Definition snap_id (r : ScanSnapshot) : Z * Z * string := (ss_ID r, ss_NetworkID r, ss_Ip r).

(** What the liveness statements of a scan leave alone in a device. *)
Definition dev_status (d : Device) := (dev_core d, dev_Status d).

Record alive_inv (s0 : st) (n : Z) (acc : st * gset string) : Prop := {
  ai_alive : ∀ r, r ∈ st_snapshots acc.1 → ss_NetworkID r = n → ss_Ip r ∈ acc.2 → ss_MissCount r = 0;
  ai_absent : ∀ r, r ∈ st_snapshots acc.1 → ss_NetworkID r = n → ss_Ip r ∉ acc.2 → r ∈ st_snapshots s0;
  ai_other : filter (fun r => ss_NetworkID r ≠ n) (st_snapshots acc.1)
             = filter (fun r => ss_NetworkID r ≠ n) (st_snapshots s0);
  ai_devices : dev_status <$> st_devices acc.1 = dev_status <$> st_devices s0
}.

Lemma filter_map_id {A} (P : A → Prop) `{!∀ x, Decision (P x)} f (l : list A) :
  (∀ x, P x → f x = x) → (∀ x, P (f x) → P x) → filter P (map f l) = filter P l.
Proof.
  intros H1 H2. induction l as [|x l IH]; [done|]. cbn [map]. rewrite !filter_cons, IH.
  destruct (decide (P x)) as [Hx|Hx].
  - by rewrite (H1 x Hx), decide_True.
  - by rewrite decide_False by (intros Hf; by apply Hx, H2).
Qed.

Lemma record_alive_snapshots n taskID now (s : st) rep :
  ∃ s1, upsertScanSnapshot ok s n (if 0 <? taskID then Some taskID else None) (hr_IP rep) (reportMAC rep)
          (resolveDeviceUUIDForIP ok s (reportMAC rep) (hr_IP rep) (Some n)) now = Some s1
    ∧ st_snapshots (record_alive ok n taskID now s rep) = st_snapshots s1
    ∧ dev_status <$> st_devices (record_alive ok n taskID now s rep) = dev_status <$> st_devices s.
Proof.
  unfold record_alive.
  set (u := upsertScanSnapshot _ _ _ _ _ _ _ _). set (dv := resolveDeviceUUIDForIP _ _ _ _ _).
  assert (∃ s1, u = Some s1 ∧ st_devices s1 = st_devices s) as (s1 & Hu & Hd).
  { unfold u, upsertScanSnapshot. rewrite all_ok. cbn [negb]. destruct (existsb _ _); by eexists. }
  exists s1. split; [done|]. rewrite Hu. cbn [default from_option]. change (id s1) with s1.
  case_decide; [by rewrite Hd|]. rewrite !all_ok. cbn [negb].
  assert (Hst : dev_status <$> map (fun d => if decide (dev_DeviceUuid d = dv)
      then dev_liveness d (dev_Status d) (Some (DBTime now)) (dev_LastScannedAt d) (dev_OfflineSince d) (dev_UpdatedAt d)
      else d) (st_devices s1) = dev_status <$> st_devices s).
  { rewrite Hd. apply fmap_map_core. intros d. by case_decide. }
  destruct (head _); done.
Qed.

Lemma upsert_alive_inv s0 n taskID now acc rep :
  hr_IP rep ≠ "" → alive_inv s0 n acc →
  alive_inv s0 n (record_alive ok n taskID now acc.1 rep, {[hr_IP rep]} ∪ acc.2).
Proof.
  intros Hip [Ha Hb Ho Hd]. destruct acc as [s seen]; cbn [fst snd] in *.
  destruct (record_alive_snapshots n taskID now s rep) as (s1 & Hu & Hs & Hdv).
  unfold upsertScanSnapshot in Hu. rewrite all_ok in Hu. cbn [negb] in Hu.
  set (f := fun r => (ss_NetworkID r =? n) && (ss_Ip r =? hr_IP rep)%string) in *.
  assert (Hf : ∀ r, f r = true ↔ ss_NetworkID r = n ∧ ss_Ip r = hr_IP rep).
  { intros r. unfold f. by rewrite andb_true_iff, Z.eqb_eq, String.eqb_eq. }
  destruct (existsb f (st_snapshots s)) eqn:Ex; injection Hu as <-;
    cbn [st_snapshots with_snapshots] in Hs.
  - split; cbn [fst snd]; rewrite ?Hs, ?Hdv; try done.
    + intros r Hr Hn Hin. apply list_elem_of_In, in_map_iff in Hr as (r0 & <- & Hr0).
      apply list_elem_of_In in Hr0. fold (f r0) in *. destruct (f r0) eqn:E; [done|].
      apply not_true_iff_false in E. rewrite Hf in E.
      apply Ha; [done..|]. set_solver.
    + intros r Hr Hn Hin. apply list_elem_of_In, in_map_iff in Hr as (r0 & <- & Hr0).
      apply list_elem_of_In in Hr0. fold (f r0) in *. destruct (f r0) eqn:E.
      * apply Hf in E as [_ E]. cbn in Hin. set_solver.
      * apply Hb; [done..|set_solver].
    + rewrite <- Ho. apply filter_map_id; intros r; fold (f r).
      * intros Hn. destruct (f r) eqn:E; [|done]. apply Hf in E as [? _]. done.
      * destruct (f r); done.
  - split; cbn [fst snd]; rewrite ?Hs, ?Hdv; try done.
    + intros r. rewrite elem_of_app, list_elem_of_singleton. intros [Hr| ->] Hn Hin; [|done].
      apply Ha; [done..|]. assert (ss_Ip r ≠ hr_IP rep) as Hne; [|set_solver].
      intros He. apply not_true_iff_false in Ex. apply Ex, existsb_exists. exists r.
      split; [by apply list_elem_of_In|by apply Hf].
    + intros r. rewrite elem_of_app, list_elem_of_singleton. intros [Hr| ->] Hn Hin.
      * apply Hb; [done..|set_solver].
      * cbn in Hin. set_solver.
    + rewrite list.filter_app, Ho. rewrite filter_cons_False by (cbn; lia). by rewrite filter_nil, app_nil_r.
Qed.

Lemma RecordAliveSnapshots_inv s n taskID now reports :
  let acc := RecordAliveSnapshots ok s (Some n) taskID now reports in
  alive_inv s n acc ∧ ∀ ip, ip ∈ acc.2 ↔ alive_ip reports ip.
Proof.
  unfold RecordAliveSnapshots. induction reports as [|rep reports IH] using rev_ind.
  { cbn. split; [split; cbn; set_solver|]. intros ip. split; [set_solver|].
    intros (rep & H & _). by apply elem_of_nil in H. }
  rewrite fold_left_app. cbn [fold_left]. destruct IH as [Hi Hal].
  set (acc := fold_left _ reports (s, ∅)) in *.
  assert (Hsnoc : ∀ ip, alive_ip (reports ++ [rep]) ip ↔
    alive_ip reports ip ∨ (hr_Alive rep = true ∧ hr_IP rep = ip ∧ ip ≠ "")).
  { intros ip. unfold alive_ip. setoid_rewrite elem_of_app. setoid_rewrite list_elem_of_singleton. split.
    - intros (x & [Hx| ->] & H); [left; by exists x|by right].
    - intros [(x & Hx & H)|H]; [exists x|exists rep]; auto. }
  destruct (hr_Alive rep) eqn:Ea; cbn [negb orb].
  2: { split; [done|]. intros ip. rewrite Hsnoc, <- Hal. naive_solver. }
  destruct (bool_decide (hr_IP rep = "")) eqn:Eb.
  - apply bool_decide_eq_true in Eb. split; [done|]. intros ip. rewrite Hsnoc, <- Hal. naive_solver.
  - apply bool_decide_eq_false in Eb. split; [by apply upsert_alive_inv|].
    intros ip. cbn [snd]. rewrite Hsnoc, elem_of_union, Hal, elem_of_singleton. naive_solver.
Qed.

Lemma batchIncrementMiss_inv s0 n acc (alive : string → Prop) :
  alive_inv s0 n acc → (∀ ip, ip ∈ acc.2 ↔ alive ip) →
  ∃ s1, batchIncrementMiss ok acc.1 n acc.2 = Some s1
    ∧ st_devices s1 = st_devices acc.1
    ∧ filter (fun r => ss_NetworkID r ≠ n) (st_snapshots s1) = filter (fun r => ss_NetworkID r ≠ n) (st_snapshots s0)
    ∧ ∀ r', r' ∈ st_snapshots s1 → ss_NetworkID r' = n →
        (alive (ss_Ip r') ∧ ss_MissCount r' = 0)
        ∨ (¬ alive (ss_Ip r') ∧ ∃ r, r ∈ st_snapshots s0 ∧ snap_id r' = snap_id r
             ∧ ss_MissCount r' = ss_MissCount r + 1).
Proof.
  intros [Ha Hb Ho Hd] Hal. unfold batchIncrementMiss. rewrite all_ok. cbn [negb].
  set (g := fun r => if (ss_NetworkID r =? n) && bool_decide (ss_Ip r ∉ acc.2)
                     then snap_set_miss r (ss_MissCount r + 1) else r).
  assert (Hg : ∀ t, (if decide (acc.2 = ∅)
      then Some (with_snapshots t (map (fun r =>
             if ss_NetworkID r =? n then snap_set_miss r (ss_MissCount r + 1) else r)))
      else Some (with_snapshots t (map g))) = Some (with_snapshots (R:=R) (S:=S) t (map g))).
  { intros t. case_decide as He; [|done]. f_equal. unfold with_snapshots. f_equal. apply map_ext.
    intros r. unfold g. rewrite bool_decide_eq_true_2 by set_solver. by rewrite andb_true_r. }
  exists (with_snapshots acc.1 (map g)). split_and!; [apply Hg|done| |].
  - rewrite <- Ho. cbn. apply filter_map_id; intros r; unfold g.
    + intros Hn. by rewrite (proj2 (Z.eqb_neq _ _) Hn).
    + by destruct (_ && _).
  - intros r' Hr' Hn. cbn in Hr'. apply list_elem_of_In, in_map_iff in Hr' as (r & <- & Hr).
    apply list_elem_of_In in Hr. unfold g in *. rewrite <- Hal.
    destruct (ss_NetworkID r =? n) eqn:En; cbn [andb] in *; [|apply Z.eqb_neq in En; done].
    apply Z.eqb_eq in En. case_bool_decide as Hin.
    + right. split; [done|]. exists r. split_and!; [by apply Hb|done|done].
    + left. split; [by destruct (decide (ss_Ip r ∈ acc.2))|]. apply Ha; [done..|].
      by destruct (decide (ss_Ip r ∈ acc.2)).
Qed.

Lemma declare_lost_effect n now agent (s : st) id :
  st_devices (declare_lost ok n now agent s id) = map (on_device id (mark_offline now)) (st_devices s)
  ∧ st_snapshots (declare_lost ok n now agent s id) = st_snapshots s.
Proof. unfold declare_lost, try_mark_offline. by rewrite all_ok. Qed.

(** What the loop does to the status of a device. *)
Definition lost_status (ids : list Z) (x : Z * string * string * option Z * string * string) :=
  if decide (x.1.1.1.1.1 ∈ ids) then (x.1, "offline") else x.

Lemma declare_lost_loop n now agent ids (s : st) :
  let s' := fold_left (declare_lost ok n now agent) ids s in
  dev_status <$> st_devices s' = lost_status ids <$> (dev_status <$> st_devices s)
  ∧ st_snapshots s' = st_snapshots s.
Proof.
  revert s. induction ids as [|id ids IH]; intros s; cbn [fold_left].
  { split; [|done]. rewrite <- list_fmap_compose. apply list_fmap_ext. intros _ d _.
    unfold compose, lost_status. by rewrite decide_False by set_solver. }
  destruct (declare_lost_effect n now agent s id) as [Hd Hs].
  destruct (IH (declare_lost ok n now agent s id)) as [Hd' Hs']. split; [|congruence].
  rewrite Hd', Hd. change @map with @list_fmap. rewrite <- !list_fmap_compose.
  apply list_fmap_ext. intros _ d _. unfold compose, lost_status, on_device.
  change (dev_status d).1.1.1.1.1 with (dev_ID d).
  destruct (decide (dev_ID d = id)) as [He|He].
  - rewrite (decide_True (P := dev_ID d ∈ id :: ids)) by set_solver. by case_decide.
  - change (dev_status d).1.1.1.1.1 with (dev_ID d). destruct (decide (dev_ID d ∈ ids)).
    + by rewrite decide_True by set_solver.
    + by rewrite decide_False by set_solver.
Qed.

(** A lease row of network [n] at the device's address has used up its grace. *)
Definition grace_over (s : st) (n threshold : Z) (d : Device) : Prop :=
  ∃ r, r ∈ st_snapshots s ∧ ss_NetworkID r = n ∧ threshold ≤ ss_MissCount r
    ∧ dev_IpAddress d = ss_Ip r ∧ (dev_NetworkID d = Some n ∨ dev_NetworkID d = None).

Lemma elem_of_ListLost (s : st) n threshold id :
  id ∈ ListLostSnapshots s n threshold ↔
  ∃ d, d ∈ st_devices s ∧ dev_ID d = id ∧ dev_Status d = "online" ∧ grace_over s n threshold d.
Proof.
  unfold ListLostSnapshots, grace_over. rewrite list_elem_of_bind. split.
  - intros (r & Hid & Hr). destruct (_ && _) eqn:E; [|by apply elem_of_nil in Hid].
    apply andb_true_iff in E as [En Em]. apply Z.eqb_eq in En. apply Z.leb_le in Em.
    apply list_elem_of_fmap in Hid as (d & -> & Hd). apply list_elem_of_filter in Hd as [(? & ? & ?) Hd].
    exists d. split_and!; [done..|]. exists r. rewrite <- En. done.
  - intros (d & Hd & <- & Hs & r & Hr & Hn & Hm & Hip & Hnet). exists r. split; [|done].
    rewrite (proj2 (Z.eqb_eq _ _) Hn), (proj2 (Z.leb_le _ _) Hm). cbn [andb].
    apply list_elem_of_fmap_2, list_elem_of_filter. rewrite Hn. done.
Qed.

(** What one scan of network [n] does, with no database fault.  Lease rows of
    the network at addresses seen alive restart at zero, every other row of
    the network gains exactly one miss, rows of other networks are not
    touched; a device changes status only from online to offline, only when a
    row at its address has reached the threshold, and no online device with
    such a row is left. *)
Theorem DetectLost_grace thr (s : st) n taskID now1 now2 reports agent :
  store_wf s →
  let s' := DetectLost ok thr s (Some n) taskID now1 now2 reports agent in
  (∀ r', r' ∈ st_snapshots s' → ss_NetworkID r' = n →
     (alive_ip reports (ss_Ip r') ∧ ss_MissCount r' = 0)
     ∨ (¬ alive_ip reports (ss_Ip r') ∧ ∃ r, r ∈ st_snapshots s ∧ snap_id r' = snap_id r
          ∧ ss_MissCount r' = ss_MissCount r + 1))
  ∧ filter (fun r => ss_NetworkID r ≠ n) (st_snapshots s') = filter (fun r => ss_NetworkID r ≠ n) (st_snapshots s)
  ∧ (∀ d', d' ∈ st_devices s' → ∃ d, d ∈ st_devices s ∧ dev_core d' = dev_core d
       ∧ (dev_Status d' = dev_Status d
          ∨ dev_Status d = "online" ∧ dev_Status d' = "offline" ∧ grace_over s' n (LostThreshold thr) d'))
  ∧ ∀ d', d' ∈ st_devices s' → grace_over s' n (LostThreshold thr) d' → dev_Status d' ≠ "online".
Proof.
  intros Hwf s'. unfold s', DetectLost.
  destruct (RecordAliveSnapshots_inv s n taskID now1 reports) as [Hi Hal].
  destruct (RecordAliveSnapshots ok s (Some n) taskID now1 reports) as [sa alive]. 
  destruct (batchIncrementMiss_inv s n (sa, alive) (alive_ip reports) Hi Hal) as (s1 & Hb & Hd1 & Ho & Hm).
  cbn [fst snd] in *. rewrite Hb. cbn [default from_option]. change (id s1) with s1.
  rewrite all_ok. cbn [negb]. set (ids := ListLostSnapshots s1 n (LostThreshold thr)).
  destruct (declare_lost_loop n now2 agent ids s1) as [Hds Hss].
  set (s2 := fold_left (declare_lost ok n now2 agent) ids s1) in *.
  assert (Hgr : ∀ d d', dev_core d' = dev_core d →
    grace_over s1 n (LostThreshold thr) d → grace_over s2 n (LostThreshold thr) d').
  { unfold grace_over, dev_core. rewrite Hss. intros d d' [= _ _ -> -> _]. done. }
  assert (Hgr' : ∀ d d', dev_core d' = dev_core d →
    grace_over s2 n (LostThreshold thr) d' → grace_over s1 n (LostThreshold thr) d).
  { unfold grace_over, dev_core. rewrite Hss. intros d d' [= _ _ -> -> _]. done. }
  assert (Hst1 : dev_status <$> st_devices s1 = dev_status <$> st_devices s).
  { rewrite Hd1. apply Hi. }
  assert (Hnd1 : NoDup (dev_ID <$> st_devices s1)).
  { replace (dev_ID <$> st_devices s1) with ((fun x => x.1.1.1.1.1) <$> (dev_status <$> st_devices s1))
      by (rewrite <- list_fmap_compose; done).
    rewrite Hst1, <- list_fmap_compose. apply Hwf. }
  assert (Hback : ∀ d', d' ∈ st_devices s2 → ∃ d1, d1 ∈ st_devices s1 ∧ dev_core d' = dev_core d1 ∧
    (if decide (dev_ID d1 ∈ ids) then dev_Status d' = "offline" else dev_Status d' = dev_Status d1)).
  { intros d' Hd'. assert (He : dev_status d' ∈ lost_status ids <$> (dev_status <$> st_devices s1))
      by (rewrite <- Hds; by apply list_elem_of_fmap_2).
    apply list_elem_of_fmap in He as (x & Hx & He). apply list_elem_of_fmap in He as (d1 & -> & He).
    exists d1. split; [done|]. unfold lost_status in Hx. change (dev_status d1).1.1.1.1.1 with (dev_ID d1) in Hx.
    case_decide; injection Hx; intros; unfold dev_core; split; congruence. }
  split_and!.
  - rewrite Hss. exact Hm.
  - rewrite Hss. exact Ho.
  - intros d' Hd'. destruct (Hback d' Hd') as (d1 & Hin1 & Hc & Hs).
    destruct (fmap_eq_elem _ _ _ _ Hst1 Hin1) as (d & Hd & Hst). injection Hst; intros Hstat _ _ _ _ _.
    exists d. assert (dev_core d' = dev_core d) as Hcd by (unfold dev_status in Hst; congruence).
    split_and!; [done..|]. case_decide as Hid; [right|left; congruence].
    apply elem_of_ListLost in Hid as (d2 & Hd2 & He & Hon & Hg).
    assert (d2 = d1) as -> by (by apply (NoDup_fmap_elem_eq dev_ID (st_devices s1))).
    split_and!; [congruence|done|exact (Hgr d1 d' Hc Hg)].
  - intros d' Hd' Hg Hon. destruct (Hback d' Hd') as (d1 & Hin1 & Hc & Hs).
    case_decide as Hid; [congruence|]. apply Hid, elem_of_ListLost. exists d1.
    split_and!; [done|done|congruence|exact (Hgr' d1 d' Hc Hg)].
Qed.
End detect.

(** * Concrete states *)

Definition mk_dev (id : Z) (uuid ip status : string) (net lastSeen : Z) : Device :=
  mkDevice id uuid "host" "server" "" "" status ip "" "scanner_v2" "" "" "" "" "" (Some net)
    (Some lastSeen) None None lastSeen.

Definition mk_snap (id : Z) (ip uuid : string) (miss lastSeen flap : Z) (lastFlap : option Z) : ScanSnapshot :=
  mkScanSnapshot id 1 None ip "" uuid miss lastSeen flap lastFlap.

Definition agent_net : Network := mkNetwork 1 "lab" (Some "10.0.0.0/24") (Some "agent-1").

Definition all_fine : stmt → bool := fun _ => true.

(** Device 7 was last sighted at second 100, device 8 at second 1000. *)
Definition lab : store event_trace sample_trace :=
  mkStore [mk_dev 7 "u7" "10.0.0.7" "online" 1 100; mk_dev 8 "u8" "10.0.0.8" "offline" 1 100]
    [mk_snap 1 "10.0.0.7" "u7" 0 100 0 None; mk_snap 2 "10.0.0.8" "u8" 0 1000 5 (Some 900)]
    [agent_net] 3 (Some []) (Some []).

Definition at_ (sec : Z) : Z := sec * nanos_per_second.

Definition clock_at (sec : Z) : sweep_clock := mkClock (at_ sec) (at_ sec) (at_ sec) (at_ sec) (at_ sec) (at_ sec).

Lemma lab_wf : store_wf lab.
Proof. split; refine (bool_decide_unpack _ _); vm_compute; exact I. Qed.

Lemma expireStale_exact_witness :
  Forall2 (fun d d' => (expires lab (at_ 1000 - 5 * minute) d ∧ d' = mark_offline (at_ 1000) d)
                     ∨ (¬ expires lab (at_ 1000 - 5 * minute) d ∧ d' = d))
    (st_devices lab) (st_devices (expireStale all_fine lab (at_ 1000 - 5 * minute) (at_ 1000)).1)
  ∧ map dev_Status (st_devices (expireStale all_fine lab (at_ 1000 - 5 * minute) (at_ 1000)).1)
    = ["offline"; "offline"].
Proof.
  split; [|vm_compute; reflexivity].
  apply (expireStale_exact all_fine (fun _ => eq_refl) lab). exact lab_wf.
Defined.

Definition lab_swept : store event_trace sample_trace := sweepOnce all_fine (5 * minute) (clock_at 1000) lab.

Definition dev8_swept : Device := mark_online (at_ 1000) (mk_dev 8 "u8" "10.0.0.8" "offline" 1 100).

Lemma sweep_leaves_no_fresh_offline_witness : dev_Status dev8_swept ≠ "offline".
Proof.
  apply (sweep_leaves_no_fresh_offline all_fine (fun _ => eq_refl) (5 * minute) (clock_at 1000) lab dev8_swept).
  - exact lab_wf.
  - assert (H : st_devices (sweepOnce all_fine (5 * minute) (clock_at 1000) lab) =
      [mark_offline (at_ 1000) (mk_dev 7 "u7" "10.0.0.7" "online" 1 100); dev8_swept])
      by (vm_compute; reflexivity).
    rewrite H. right. left.
  - exists (mk_snap 2 "10.0.0.8" "u8" 0 1000 6 (Some 1000)). split; [split_and!|].
    + assert (H : st_snapshots (sweepOnce all_fine (5 * minute) (clock_at 1000) lab) =
        [mk_snap 1 "10.0.0.7" "u7" 0 100 1 (Some 1000); mk_snap 2 "10.0.0.8" "u8" 0 1000 6 (Some 1000)])
        by (vm_compute; reflexivity).
      rewrite H. right. left.
    + left. by split_and!.
    + exists agent_net. split_and!; [left|done|done|done].
    + vm_compute. discriminate.
Defined.

Lemma expireStale_events_witness :
  ∃ evs, st_changeRecorder (expireStale all_fine lab (at_ 1000 - 5 * minute) (at_ 1000)).1 = Some ([] ++ evs)
    ∧ NoDup (ev_DeviceID <$> evs) ∧ ∀ ev, ev ∈ evs → lost_event lab (at_ 1000 - 5 * minute) (at_ 1000) ev.
Proof. apply (expireStale_events all_fine (fun _ => eq_refl) lab); [exact lab_wf|reflexivity]. Defined.

Lemma quiet_flaps_decay_witness :
  ∃ r', st_snapshots (fold_left (fun s t => decayQuietFlaps all_fine s t t) [at_ 3000; at_ 5000] lab) !! 1%nat = Some r'
    ∧ snap_core r' = snap_core (mk_snap 2 "10.0.0.8" "u8" 0 1000 5 (Some 900))
    ∧ ss_FlapCount r' = 5 / 2 ^ 2
    ∧ (5 < 2 ^ (2 + 1) → ss_FlapCount r' + 1 < flapThreshold).
Proof.
  apply (quiet_flaps_decay all_fine (fun _ => eq_refl) lab [at_ 3000; at_ 5000] 1
           (mk_snap 2 "10.0.0.8" "u8" 0 1000 5 (Some 900)) 900).
  - reflexivity.
  - cbn. lia.
  - reflexivity.
  - split_and!; vm_compute; done.
Defined.

(** A scan that reports only the host at 10.0.0.8. *)
Definition only_8 : list HostReport := [mkReport "10.0.0.8" true 0 ∅ [] [] [] false].

Definition lab_scanned : store event_trace sample_trace :=
  DetectLost all_fine 2 lab (Some 1) 1 (at_ 1000) (at_ 1000) only_8 "".

Lemma DetectLost_grace_witness :
  (ss_MissCount <$> st_snapshots lab_scanned) = [1; 0]
  ∧ filter (fun r => ss_NetworkID r ≠ 1) (st_snapshots lab_scanned)
    = filter (fun r => ss_NetworkID r ≠ 1) (st_snapshots lab).
Proof.
  split; [vm_compute; reflexivity|].
  exact (proj1 (proj2 (DetectLost_grace all_fine (fun _ => eq_refl) 2 lab 1 1 (at_ 1000) (at_ 1000)
                         only_8 "" lab_wf))).
Defined.

(** Lost detection is given the reports of a scan but not its targets, so two
    scans of one host, in the default configuration, declare every other
    online device of the network lost: here device 7, which neither scan
    targeted, goes offline and a device_lost is recorded for it. *)
Theorem narrow_scans_lose_unscanned_devices :
  let s1 := DetectLost all_fine 0 lab (Some 1) 1 (at_ 1000) (at_ 1000) only_8 "" in
  let s2 := DetectLost all_fine 0 s1 (Some 1) 1 (at_ 1010) (at_ 1010) only_8 "" in
  map dev_Status (st_devices s1) = ["online"; "offline"]
  ∧ map dev_Status (st_devices s2) = ["offline"; "offline"]
  ∧ (map (fun e => (ev_ChangeType e, ev_DeviceID e)) <$> st_changeRecorder s2)
    = Some [(ChangeTypeDeviceLost, 7)].
Proof. split_and!; vm_compute; reflexivity. Qed.

(** Device 9 answers at 10.0.0.19; its row still carries the old primary
    address 10.0.0.9, whose lease went stale. *)
Definition multihomed : store event_trace sample_trace :=
  mkStore [mk_dev 9 "u9" "10.0.0.9" "online" 1 1000]
    [mk_snap 1 "10.0.0.9" "u9" 0 100 0 None; mk_snap 2 "10.0.0.19" "u9" 0 2000 0 None]
    [agent_net] 3 (Some []) (Some []).

(** The roam guard clears the remnant's uuid, and a lease without uuid joins
    by address and skips the guard.  A live device whose row still carries the
    remnant's address is therefore left alone by the first sweep but declared
    lost and recovered again by each sweep after it. *)
Theorem dissociated_remnant_flaps :
  let sweep s sec := sweepOnce all_fine (5 * minute) (clock_at sec) s in
  let events s := map (fun e => (ev_ChangeType e, ev_DeviceID e)) <$> st_changeRecorder s in
  let s1 := sweep multihomed 1000 in
  let s2 := sweep s1 1060 in
  let s3 := sweep s2 1120 in
  events s1 = Some []
  ∧ events s2 = Some [(ChangeTypeDeviceLost, 9); (ChangeTypeDeviceRecovered, 9)]
  ∧ events s3 = Some [(ChangeTypeDeviceLost, 9); (ChangeTypeDeviceRecovered, 9);
                      (ChangeTypeDeviceLost, 9); (ChangeTypeDeviceRecovered, 9)]
  ∧ map dev_Status (st_devices s3) = ["online"].
Proof. split_and!; vm_compute; reflexivity. Qed.
