(* ===== verification/HeartbeatStore.v ===== *)
(** The dedicated time-series store (src/internal/service/heartbeat_store.go):
    two bounded buffers, the flush loop that commits them in batches, the
    Start/Close lifecycle, and the reads of the liveness series.

    The flush goroutine is a step function: each case of its [select] is one
    action, enabled as in Go (several may be, and the scheduler chooses), and
    so is each round of the drain on shutdown, during which producers may go on.
    Rows are polymorphic where the two series are treated alike.  A commit
    under a cancelled context fails; otherwise the oracle [ok] decides.
    [LatencyMs] is kept in microseconds, the number it is computed from. *)

From S2P Require Import Prelude Db.

Open Scope Z_scope.

Record resultRow := mkResultRow {
  rr_DeviceID : Z;
  rr_ConfigID : Z;
  rr_Status : string;
  rr_LatencyUs : Z;
  rr_ErrorMessage : string;
  rr_CheckedAt : Z
}.

Record livenessRow := mkLivenessRow {
  lr_DeviceID : Z;
  lr_Status : string;
  lr_Source : string;
  lr_CheckedAt : Z
}.

Definition flushBatchSize : nat := 200.
Definition channelBuffer : nat := 1024.

(** * One series: channel, batch, table *)

(** [bf_table] is the rows of the table in insertion order. *)
Record buffered (A : Type) := mkBuffered {
  bf_ch : list A;
  bf_batch : list A;
  bf_table : list A
}.
Arguments mkBuffered {A} _ _ _.
Arguments bf_ch {A} _.
Arguments bf_batch {A} _.
Arguments bf_table {A} _.

Section series.
Context {A : Type}.
Context (ok : list A → bool).

Definition empty_buffered : buffered A := mkBuffered [] [] [].

(** [Enqueue] and [EnqueueLiveness]: send or drop. *)
Definition enqueue (r : A) (b : buffered A) : buffered A :=
  if (length (bf_ch b) <? channelBuffer)%nat
  then mkBuffered (bf_ch b ++ [r]) (bf_batch b) (bf_table b)
  else b.

(** [commitBatch] and [commitLivenessBatch]: one transaction, all rows or none. *)
Definition commitBatch (cancelled : bool) (rows : list A) (table : list A) : list A * bool :=
  if negb cancelled && ok rows then (table ++ rows, true) else (table, false).

(** [flushResults] and [flushLiveness]: the batch is emptied whether or not the
    commit succeeded. *)
Definition flush (cancelled : bool) (b : buffered A) : buffered A :=
  match bf_batch b with
  | [] => b
  | rows => mkBuffered (bf_ch b) [] (commitBatch cancelled rows (bf_table b)).1
  end.

(** One receive of the loop, [cancelled] being the state of the context the
    commit runs under. *)
Definition receive_flush (cancelled : bool) (b : buffered A) : option (buffered A) :=
  match bf_ch b with
  | [] => None
  | r :: ch =>
      let b := mkBuffered ch (bf_batch b ++ [r]) (bf_table b) in
      Some (if (flushBatchSize <=? length (bf_batch b))%nat then flush cancelled b else b)
  end.

End series.

(** * The store and its goroutine *)

(** Where the goroutine is: in its [select], in the first or the second loop of
    the shutdown drain, or gone. *)
Inductive loop_state := LoopAbsent | LoopRunning | LoopDrainResults | LoopDrainLiveness | LoopDone.

#[export] Instance loop_state_eq_dec : EqDecision loop_state.
Proof. solve_decision. Defined.

Record HeartbeatStore := mkHbStore {
  hs_results : buffered resultRow;
  hs_liveness : buffered livenessRow;
  hs_started : bool;
  hs_closed : bool;
  hs_ctx_cancelled : bool;       (* the loop's context *)
  hs_loop : loop_state;          (* LoopDone: [done] is closed *)
  hs_db_closed : bool
}.

(** The state [OpenHeartbeatStore] returns on an empty file. *)
Definition OpenHeartbeatStore : HeartbeatStore :=
  mkHbStore empty_buffered empty_buffered false false false LoopAbsent false.

Definition with_results (s : HeartbeatStore) (b : buffered resultRow) : HeartbeatStore :=
  mkHbStore b (hs_liveness s) (hs_started s) (hs_closed s) (hs_ctx_cancelled s) (hs_loop s) (hs_db_closed s).

Definition with_liveness (s : HeartbeatStore) (b : buffered livenessRow) : HeartbeatStore :=
  mkHbStore (hs_results s) b (hs_started s) (hs_closed s) (hs_ctx_cancelled s) (hs_loop s) (hs_db_closed s).

Definition Enqueue (r : resultRow) (s : HeartbeatStore) : HeartbeatStore :=
  with_results s (enqueue r (hs_results s)).

Definition EnqueueLiveness (r : livenessRow) (s : HeartbeatStore) : HeartbeatStore :=
  with_liveness s (enqueue r (hs_liveness s)).

Definition Start (s : HeartbeatStore) : HeartbeatStore :=
  if hs_started s || hs_closed s then s
  else mkHbStore (hs_results s) (hs_liveness s) true (hs_closed s) (hs_ctx_cancelled s) LoopRunning (hs_db_closed s).

(** [Close] up to the wait: mark closed and cancel a started loop.  The flag
    says whether the caller must wait for [done]. *)
Definition close_begin (s : HeartbeatStore) : HeartbeatStore * bool :=
  if hs_closed s then (s, false)
  else (mkHbStore (hs_results s) (hs_liveness s) (hs_started s) true
          (hs_ctx_cancelled s || hs_started s) (hs_loop s) (hs_db_closed s), hs_started s).

(** The rest of [Close]; [None] while it blocks on [done]. *)
Definition close_end (wait : bool) (s : HeartbeatStore) : option HeartbeatStore :=
  if wait && negb (bool_decide (hs_loop s = LoopDone)) then None
  else Some (mkHbStore (hs_results s) (hs_liveness s) (hs_started s) (hs_closed s) (hs_ctx_cancelled s)
               (hs_loop s) true).

Inductive store_action :=
| AEnqueue (r : resultRow)
| AEnqueueLiveness (r : livenessRow)
| AStart
| ACancelParent               (* the context given to Start is cancelled *)
| ACloseBegin
| ALoopResult                 (* case r := <-s.ch *)
| ALoopLiveness               (* case r := <-s.liveCh *)
| ALoopTick                   (* case <-ticker.C *)
| ALoopDone                   (* case <-ctx.Done() *)
| ADrain.                     (* the next round of the drain *)

Section loop.
Context (ok : list resultRow → bool) (okL : list livenessRow → bool).

Definition flushAll (cancelled : bool) (s : HeartbeatStore) : HeartbeatStore :=
  with_liveness (with_results s (flush ok cancelled (hs_results s))) (flush okL cancelled (hs_liveness s)).

Definition at_loop (s : HeartbeatStore) (l : loop_state) : HeartbeatStore :=
  mkHbStore (hs_results s) (hs_liveness s) (hs_started s) (hs_closed s) (hs_ctx_cancelled s) l (hs_db_closed s).

(** One test of [len(s.ch) > 0] or [len(s.liveCh) > 0] with what follows it:
    receive a row, or leave the loop; after the second loop the last flush and
    the return.  Commits run under a fresh context. *)
Definition final_drain (s : HeartbeatStore) : option HeartbeatStore :=
  match hs_loop s with
  | LoopDrainResults =>
      Some match receive_flush ok false (hs_results s) with
           | Some b => with_results s b
           | None => at_loop s LoopDrainLiveness
           end
  | LoopDrainLiveness =>
      Some match receive_flush okL false (hs_liveness s) with
           | Some b => with_liveness s b
           | None => at_loop (flushAll false s) LoopDone
           end
  | _ => None
  end.

(** [flushLoop] with the other operations interleaved; [None]: not enabled. *)
Definition store_step (s : HeartbeatStore) (a : store_action) : option HeartbeatStore :=
  let running := bool_decide (hs_loop s = LoopRunning) in
  match a with
  | AEnqueue r => Some (Enqueue r s)
  | AEnqueueLiveness r => Some (EnqueueLiveness r s)
  | AStart => Some (Start s)
  | ACancelParent =>
      Some (mkHbStore (hs_results s) (hs_liveness s) (hs_started s) (hs_closed s)
              (hs_ctx_cancelled s || hs_started s) (hs_loop s) (hs_db_closed s))
  | ACloseBegin => Some (close_begin s).1
  | ALoopResult =>
      if running then with_results s <$> receive_flush ok (hs_ctx_cancelled s) (hs_results s) else None
  | ALoopLiveness =>
      if running then with_liveness s <$> receive_flush okL (hs_ctx_cancelled s) (hs_liveness s) else None
  | ALoopTick => if running then Some (flushAll (hs_ctx_cancelled s) s) else None
  | ALoopDone => if running && hs_ctx_cancelled s then Some (at_loop s LoopDrainResults) else None
  | ADrain => final_drain s
  end.

Fixpoint store_run (s : HeartbeatStore) (acts : list store_action) : option HeartbeatStore :=
  match acts with [] => Some s | a :: acts => s' ← store_step s a; store_run s' acts end.
End loop.

(** * Reads and deletes *)

(** A row of device_liveness as stored: the time in seconds. *)
Definition DeleteByDevice (deviceID : Z) (s : HeartbeatStore) : HeartbeatStore :=
  let keep {A} (dev : A → Z) (b : buffered A) :=
    mkBuffered (bf_ch b) (bf_batch b) (filter (fun r => dev r ≠ deviceID) (bf_table b)) in
  with_liveness (with_results s (keep rr_DeviceID (hs_results s))) (keep lr_DeviceID (hs_liveness s)).

Definition DeleteAllLiveness (s : HeartbeatStore) : HeartbeatStore :=
  with_liveness s (mkBuffered (bf_ch (hs_liveness s)) (bf_batch (hs_liveness s)) []).

(** [OnlineRatio]: numerator and sample count; SUM/COUNT is their quotient,
    0 on an empty window. *)
Definition OnlineRatio (deviceID now window : Z) (s : HeartbeatStore) : nat * nat :=
  let rows := filter (fun r => lr_DeviceID r = deviceID ∧ DBTime (now - window) ≤ DBTime (lr_CheckedAt r))
                (bf_table (hs_liveness s)) in
  (length (filter (fun r => lr_Status r = "online") rows), length rows).

(** ORDER BY checked_at DESC LIMIT 1 over the online samples. *)
Definition max_opt (best : option Z) (t : Z) : option Z :=
  match best with None => Some t | Some b => Some (Z.max b t) end.

Definition LastOnlineAt (deviceID : Z) (s : HeartbeatStore) : option Z :=
  parse_db_time <$> fold_left max_opt
    (map (fun r => DBTime (lr_CheckedAt r))
       (filter (fun r => lr_DeviceID r = deviceID ∧ lr_Status r = "online") (bf_table (hs_liveness s)))) None.

Definition OfflineDuration (deviceID now : Z) (s : HeartbeatStore) : Z * bool :=
  match LastOnlineAt deviceID s with
  | None => (0, false)
  | Some last => (now - last, true)
  end.

Record LivenessPoint := mkPoint { lp_Status : string; lp_Source : string; lp_CheckedAt : Z }.

(** Insertion that keeps a list sorted newest first, equal times in table order. *)
Fixpoint insert_desc (p : LivenessPoint) (l : list LivenessPoint) : list LivenessPoint :=
  match l with
  | [] => [p]
  | q :: l' => if lp_CheckedAt q <? lp_CheckedAt p then p :: l else q :: insert_desc p l'
  end.

Definition LivenessHistory (deviceID from to limit : Z) (s : HeartbeatStore) : list LivenessPoint :=
  let rows := filter (fun r => lr_DeviceID r = deviceID ∧ DBTime from ≤ DBTime (lr_CheckedAt r)
                              ∧ DBTime (lr_CheckedAt r) ≤ DBTime to) (bf_table (hs_liveness s)) in
  let pts := fold_left (fun acc r => insert_desc (mkPoint (lr_Status r) (lr_Source r)
                          (parse_db_time (DBTime (lr_CheckedAt r)))) acc) rows [] in
  if limit <? 0 then pts else take (Z.to_nat limit) pts.

(** * Properties *)

Section series_lemmas.
Context {A : Type} (ok : list A → bool).

(** All rows a series holds, in the order they were accepted. *)
Definition held (b : buffered A) : list A := bf_table b ++ bf_batch b ++ bf_ch b.

Definition bounded (b : buffered A) : Prop :=
  (length (bf_ch b) ≤ channelBuffer)%nat ∧ (length (bf_batch b) < flushBatchSize)%nat.

Lemma flush_held b :
  (∀ rows, ok rows = true) → held (flush ok false b) = held b ∧ bf_batch (flush ok false b) = []
  ∧ bf_ch (flush ok false b) = bf_ch b.
Proof.
  intros Hok. destruct b as [ch [|r rows] t]; unfold flush, held; cbn; [done|].
  unfold commitBatch. rewrite Hok. cbn. by rewrite <- app_assoc.
Qed.

Lemma flush_bounded c b : (length (bf_ch b) ≤ channelBuffer)%nat → bounded (flush ok c b).
Proof.
  intros H. destruct b as [ch [|r rows] t]; split; cbn in *; unfold flushBatchSize; try done; lia.
Qed.

Lemma receive_flush_held b b' :
  (∀ rows, ok rows = true) → receive_flush ok false b = Some b' →
  held b' = held b ∧ bf_ch b = take 1 (bf_ch b) ++ bf_ch b'.
Proof.
  intros Hok. destruct b as [[|r ch] bt t]; unfold receive_flush; cbn [bf_ch]; [done|]. intros H%(inj Some). subst b'.
  cbn [bf_batch bf_table]. set (b1 := mkBuffered ch (bt ++ [r]) t).
  assert (Hh : held b1 = held (mkBuffered (r :: ch) bt t)).
  { unfold held, b1. cbn. by rewrite <- (app_assoc bt). }
  destruct (flushBatchSize <=? length (bt ++ [r]))%nat; [|done].
  destruct (flush_held b1 Hok) as (-> & _ & Hc). by rewrite Hh, Hc.
Qed.

Lemma receive_flush_bounded c b b' : bounded b → receive_flush ok c b = Some b' → bounded b'.
Proof.
  intros [Hc Hb]. destruct b as [[|r ch] bt t]; unfold receive_flush; cbn [bf_ch]; [done|]. intros H%(inj Some). subst b'.
  cbn [bf_ch bf_batch length] in *.
  destruct (Nat.leb_spec flushBatchSize (length (bt ++ [r]))) as [H|H].
  - apply flush_bounded. cbn. lia.
  - split; cbn; lia.
Qed.

Lemma enqueue_bounded r b : bounded b → bounded (enqueue r b).
Proof.
  intros [Hc Hb]. unfold enqueue. destruct (Nat.ltb_spec (length (bf_ch b)) channelBuffer); [|done].
  split; cbn; [|done]. rewrite length_app. cbn [length]. lia.
Qed.

Lemma receive_flush_None c b : receive_flush ok c b = None ↔ bf_ch b = [].
Proof. unfold receive_flush. by destruct (bf_ch b). Qed.

Lemma receive_flush_length c b b' :
  receive_flush ok c b = Some b' → length (bf_ch b) = S (length (bf_ch b')).
Proof.
  destruct b as [[|r ch] bt t]; unfold receive_flush; cbn [bf_ch]; [done|]. intros H%(inj Some). subst b'.
  cbn [bf_batch bf_table]. destruct (_ <=? _)%nat; [|done]. unfold flush. cbn [bf_batch].
  by destruct (bt ++ [r]).
Qed.

Lemma enqueue_length (r : A) b : (length (bf_ch (enqueue r b)) ≤ S (length (bf_ch b)))%nat.
Proof. unfold enqueue. destruct (_ <? _)%nat; cbn; [rewrite length_app; cbn|]; lia. Qed.

Lemma flush_ch c (b : buffered A) : bf_ch (flush ok c b) = bf_ch b.
Proof. unfold flush. by destruct (bf_batch b). Qed.
End series_lemmas.

(** ** Lifecycle *)

(** What holds in every reachable state: the buffers are bounded, and a closed
    store either never ran its loop or has cancelled it. *)
Record store_inv (s : HeartbeatStore) : Prop := mkStoreInv {
  si_results : bounded (hs_results s);
  si_liveness : bounded (hs_liveness s);
  si_started : hs_started s = false ↔ hs_loop s = LoopAbsent;
  si_closed : hs_closed s = true → hs_started s = true → hs_ctx_cancelled s = true;
  si_done : hs_loop s ≠ LoopAbsent → hs_loop s ≠ LoopRunning → hs_ctx_cancelled s = true
}.

Section store_lemmas.
Context (ok : list resultRow → bool) (okL : list livenessRow → bool).

Lemma store_inv_open : store_inv OpenHeartbeatStore.
Proof. split; cbn; try done; split; cbn; unfold channelBuffer, flushBatchSize; lia. Qed.

Lemma store_step_inv s a s' : store_inv s → store_step ok okL s a = Some s' → store_inv s'.
Proof.
  intros [Hr Hl Hst Hcl Hdn] H. destruct a; cbn [store_step] in H.
  - injection H as <-. split; cbn; auto using enqueue_bounded.
  - injection H as <-. split; cbn; auto using enqueue_bounded.
  - apply (inj Some) in H as <-. unfold Start.
    destruct (hs_started s || hs_closed s) eqn:E; [by split|].
    apply orb_false_iff in E as [E1 E2]. split; cbn; try done. by rewrite E2.
  - injection H as <-. split; cbn; auto.
    + intros _ ->. apply orb_true_r.
    + intros H1 H2. by rewrite (Hdn H1 H2).
  - apply (inj Some) in H as <-. unfold close_begin. destruct (hs_closed s) eqn:E; cbn [fst].
    + split; rewrite ?E; auto.
    + split; cbn; auto.
      * intros _ ->. apply orb_true_r.
      * intros H1 H2. by rewrite (Hdn H1 H2).
  - case_bool_decide; [|done]. destruct (receive_flush ok _ _) as [b|] eqn:E; [|done].
    apply (inj Some) in H as <-. split; cbn; auto. by eapply receive_flush_bounded.
  - case_bool_decide; [|done]. destruct (receive_flush okL _ _) as [b|] eqn:E; [|done].
    apply (inj Some) in H as <-. split; cbn; auto. by eapply receive_flush_bounded.
  - case_bool_decide; [|done]. apply (inj Some) in H as <-. destruct Hr, Hl.
    split; cbn; auto using flush_bounded.
  - case_bool_decide as Hrun; [|done]. destruct (hs_ctx_cancelled s) eqn:Ec; [|done].
    apply (inj Some) in H as <-. split; cbn; auto. rewrite Hst, Hrun. done.
  - unfold final_drain in H. destruct (hs_loop s) eqn:El; try done; apply (inj Some) in H as <-.
    + destruct (receive_flush ok false _) as [b|] eqn:E.
      * split; cbn; rewrite ?El in *; auto. by eapply receive_flush_bounded.
      * split; cbn; rewrite ?El in *; auto. by rewrite Hst.
    + destruct (receive_flush okL false _) as [b|] eqn:E.
      * split; cbn; rewrite ?El in *; auto. by eapply receive_flush_bounded.
      * destruct Hr, Hl. split; cbn; rewrite ?El in *; auto using flush_bounded. by rewrite Hst.
Qed.

Lemma store_run_inv s acts s' : store_inv s → store_run ok okL s acts = Some s' → store_inv s'.
Proof.
  revert s. induction acts as [|a acts IH]; intros s Hs H; cbn [store_run] in H; [by injection H as <-|].
  destruct (store_step ok okL s a) as [s1|] eqn:E; [|done]. eauto using store_step_inv.
Qed.

(** What the goroutine still has to do, at most: a round per buffered row, the
    three steps of the shutdown. *)
Definition remaining (s : HeartbeatStore) : nat :=
  (length (bf_ch (hs_results s)) + length (bf_ch (hs_liveness s)) +
   match hs_loop s with
   | LoopRunning => 3 | LoopDrainResults => 2 | LoopDrainLiveness => 1 | LoopAbsent | LoopDone => 0
   end)%nat.

(** The steps of the goroutine other than its ticks, and the rows offered. *)
Definition progress (a : store_action) : nat :=
  match a with ALoopResult | ALoopLiveness | ALoopDone | ADrain => 1 | _ => 0 end.

Definition offered (a : store_action) : nat :=
  match a with AEnqueue _ | AEnqueueLiveness _ => 1 | _ => 0 end.

Lemma store_step_progress s a s' :
  hs_closed s = true → store_step ok okL s a = Some s' →
  hs_closed s' = true ∧ hs_started s' = hs_started s ∧ (progress a + remaining s' ≤ remaining s + offered a)%nat.
Proof.
  intros Hcl H. destruct a; cbn [store_step progress offered] in *.
  - apply (inj Some) in H as <-. split_and!; [done..|]. unfold remaining. cbn.
    pose proof (enqueue_length r (hs_results s)). lia.
  - apply (inj Some) in H as <-. split_and!; [done..|]. unfold remaining. cbn.
    pose proof (enqueue_length r (hs_liveness s)). lia.
  - apply (inj Some) in H as <-. unfold Start. rewrite Hcl, orb_true_r. split_and!; [done..|lia].
  - apply (inj Some) in H as <-. split_and!; [done..|]. unfold remaining. cbn. lia.
  - apply (inj Some) in H as <-. unfold close_begin. rewrite Hcl. cbn [fst]. split_and!; [done..|lia].
  - case_bool_decide as Hrun; [|done]. destruct (receive_flush ok _ _) as [b|] eqn:E; [|done].
    apply (inj Some) in H as <-. split_and!; [done..|]. apply receive_flush_length in E. unfold remaining. cbn. lia.
  - case_bool_decide as Hrun; [|done]. destruct (receive_flush okL _ _) as [b|] eqn:E; [|done].
    apply (inj Some) in H as <-. split_and!; [done..|]. apply receive_flush_length in E. unfold remaining. cbn. lia.
  - case_bool_decide; [|done]. apply (inj Some) in H as <-. split_and!; [done..|]. unfold remaining. cbn.
    rewrite !flush_ch. lia.
  - case_bool_decide as Hrun; [|done]. destruct (hs_ctx_cancelled s); [|done].
    apply (inj Some) in H as <-. split_and!; [done..|]. unfold remaining. cbn. rewrite Hrun. lia.
  - unfold final_drain in H. destruct (hs_loop s) eqn:El; try done; apply (inj Some) in H as <-.
    + destruct (receive_flush ok false _) as [b|] eqn:E; (split_and!; [done..|]); unfold remaining; cbn; rewrite El.
      * apply receive_flush_length in E. lia.
      * lia.
    + destruct (receive_flush okL false _) as [b|] eqn:E; (split_and!; [done..|]); unfold remaining; cbn; rewrite ?El.
      * apply receive_flush_length in E. lia.
      * rewrite !flush_ch. lia.
Qed.

Lemma store_run_progress acts : ∀ s s',
  hs_closed s = true → store_run ok okL s acts = Some s' →
  hs_closed s' = true ∧ hs_started s' = hs_started s
  ∧ (sum_list_with progress acts + remaining s' ≤ remaining s + sum_list_with offered acts)%nat.
Proof.
  induction acts as [|a acts IH]; intros s s' Hcl H; cbn [store_run sum_list_with] in *.
  { apply (inj Some) in H as <-. split_and!; [done..|lia]. }
  destruct (store_step ok okL s a) as [s1|] eqn:E; [|done].
  destruct (store_step_progress _ _ _ Hcl E) as (H1 & H2 & H3). destruct (IH _ _ H1 H) as (H4 & H5 & H6).
  split_and!; [done|congruence|lia].
Qed.

(** A closed store's goroutine always has its next step before [done]. *)
Lemma closed_not_stuck s :
  store_inv s → hs_closed s = true → hs_started s = true → hs_loop s ≠ LoopDone →
  is_Some (store_step ok okL s ALoopDone) ∨ is_Some (store_step ok okL s ADrain).
Proof.
  intros [Hr Hl Hst Hcl Hdn] Hc Hs Hd. cbn [store_step]. rewrite (Hcl Hc Hs). unfold final_drain.
  destruct (hs_loop s); try done; eauto. exfalso. destruct Hst as [_ Hst]. rewrite Hst in Hs; done.
Qed.

Lemma remaining_bound s : store_inv s → (remaining s ≤ 2 * channelBuffer + 3)%nat.
Proof. intros [[Hr _] [Hl _] _ _ _]. unfold remaining. destruct (hs_loop s); lia. Qed.

(** C32.  Shutdown under any schedule.  Take any state the store can reach,
    whatever Start, Close, cancellations, producers and loop steps came before
    (a Start that arrives after Close included), and call Close.  In every
    later run, whichever ready cases [select] picks and while producers may go
    on offering rows during the drain, the goroutine takes at most 2 * 1024 + 3
    steps other than ticks, plus one per row offered in the run; and as long
    as the wait on [done] is not over one of those steps is enabled.  So Close
    returns unless rows are offered as fast as they are drained for ever (or
    [select] picks the five-second tick for ever).  A later Start does
    nothing, and the buffers stay within 1024 and 200 rows throughout. *)
Theorem store_close_terminates acts s acts' s2 :
  store_run ok okL OpenHeartbeatStore acts = Some s →
  let (s1, wait) := close_begin s in
  store_run ok okL s1 acts' = Some s2 →
  (sum_list_with progress acts' ≤ 2 * channelBuffer + 3 + sum_list_with offered acts')%nat
  ∧ (is_Some (close_end wait s2)
     ∨ is_Some (store_step ok okL s2 ALoopDone) ∨ is_Some (store_step ok okL s2 ADrain))
  ∧ Start s2 = s2
  ∧ bounded (hs_results s2) ∧ bounded (hs_liveness s2).
Proof.
  intros H. apply store_run_inv in H; [|apply store_inv_open].
  assert (H1 : store_inv (close_begin s).1) by (apply (store_step_inv s ACloseBegin); done).
  assert (Hc : hs_closed (close_begin s).1 = true) by (unfold close_begin; by destruct (hs_closed s) eqn:E).
  assert (Hw : (close_begin s).2 = true → hs_started (close_begin s).1 = true)
    by (unfold close_begin; by destruct (hs_closed s)).
  destruct (close_begin s) as [s1 wait]. cbn [fst snd] in *. intros Hrun.
  destruct (store_run_progress _ _ _ Hc Hrun) as (Hc2 & Hs2 & Hp).
  apply store_run_inv in Hrun; [|done]. pose proof (remaining_bound s1 H1).
  split_and!; [lia| |unfold Start; by rewrite Hc2, orb_true_r|apply Hrun|apply Hrun].
  unfold close_end. destruct wait; cbn [andb]; [|left; by eexists].
  destruct (decide (hs_loop s2 = LoopDone)) as [Hd|Hd].
  - left. rewrite bool_decide_eq_true_2 by done. by eexists.
  - right. apply closed_not_stuck; [done..|rewrite Hs2; by apply Hw|done].
Qed.
End store_lemmas.

(** ** Rows are kept *)

(** A run that also records the rows the channels accepted. *)
Record traced := mkTraced { tr_store : HeartbeatStore; tr_results : list resultRow; tr_liveness : list livenessRow }.

Definition accepted {A} (r : A) (b : buffered A) : list A :=
  if (length (bf_ch b) <? channelBuffer)%nat then [r] else [].

Section no_loss.
Context (ok : list resultRow → bool) (okL : list livenessRow → bool).

Definition traced_step (t : traced) (a : store_action) : option traced :=
  let s := tr_store t in
  s' ← store_step ok okL s a;
  Some (mkTraced s'
    (tr_results t ++ match a with AEnqueue r => accepted r (hs_results s) | _ => [] end)
    (tr_liveness t ++ match a with AEnqueueLiveness r => accepted r (hs_liveness s) | _ => [] end)).

Definition is_loop_flush (a : store_action) : bool :=
  match a with ALoopResult | ALoopLiveness | ALoopTick => true | _ => false end.

(** The loop answers a cancellation by its Done case. *)
Definition prompt (s : HeartbeatStore) (a : store_action) : Prop :=
  hs_ctx_cancelled s = true → is_loop_flush a = false.

Inductive traced_run : traced → list store_action → traced → Prop :=
| tr_nil t : traced_run t [] t
| tr_cons t a t1 acts t' :
    prompt (tr_store t) a → traced_step t a = Some t1 → traced_run t1 acts t' →
    traced_run t (a :: acts) t'.

Definition all_held (t : traced) : Prop :=
  held (hs_results (tr_store t)) = tr_results t ∧ held (hs_liveness (tr_store t)) = tr_liveness t.

Lemma enqueue_held {A} (r : A) b : held (enqueue r b) = held b ++ accepted r b.
Proof.
  unfold enqueue, accepted, held. destruct (_ <? _)%nat; cbn; [by rewrite <- !app_assoc|by rewrite app_nil_r].
Qed.

Context (Hok : ∀ rows, ok rows = true) (HokL : ∀ rows, okL rows = true).

Lemma traced_step_held t a t' :
  prompt (tr_store t) a → all_held t → traced_step t a = Some t' → all_held t'.
Proof.
  intros Hp [H1 H2] H. unfold traced_step in H. destruct t as [s rs ls]; cbn [tr_store tr_results tr_liveness] in *.
  destruct (store_step ok okL s a) as [s'|] eqn:E; [|done]. apply (inj Some) in H as <-.
  unfold all_held. cbn [tr_store tr_results tr_liveness].
  destruct a; cbn [store_step] in E; rewrite ?app_nil_r.
  - apply (inj Some) in E as <-. cbn. by rewrite enqueue_held, H1.
  - apply (inj Some) in E as <-. cbn. by rewrite enqueue_held, H2.
  - apply (inj Some) in E as <-. unfold Start. by destruct (_ || _).
  - by apply (inj Some) in E as <-.
  - apply (inj Some) in E as <-. unfold close_begin. by destruct (hs_closed s).
  - case_bool_decide; [|done]. unfold prompt in Hp. destruct (hs_ctx_cancelled s); [by specialize (Hp eq_refl)|].
    destruct (receive_flush ok false _) as [b|] eqn:Er; [|done]. apply (inj Some) in E as <-. cbn.
    by rewrite (proj1 (receive_flush_held ok _ _ Hok Er)).
  - case_bool_decide; [|done]. unfold prompt in Hp. destruct (hs_ctx_cancelled s); [by specialize (Hp eq_refl)|].
    destruct (receive_flush okL false _) as [b|] eqn:Er; [|done]. apply (inj Some) in E as <-. cbn.
    by rewrite (proj1 (receive_flush_held okL _ _ HokL Er)).
  - case_bool_decide; [|done]. unfold prompt in Hp. destruct (hs_ctx_cancelled s); [by specialize (Hp eq_refl)|].
    apply (inj Some) in E as <-. unfold flushAll. cbn [hs_results hs_liveness with_results with_liveness].
    by rewrite (proj1 (flush_held ok _ Hok)), (proj1 (flush_held okL _ HokL)).
  - destruct (_ && _); [|done]. by apply (inj Some) in E as <-.
  - unfold final_drain in E. destruct (hs_loop s); try done; apply (inj Some) in E as <-.
    + destruct (receive_flush ok false _) as [b|] eqn:Er; [|done]. cbn.
      by rewrite (proj1 (receive_flush_held ok _ _ Hok Er)).
    + destruct (receive_flush okL false _) as [b|] eqn:Er; cbn.
      * by rewrite (proj1 (receive_flush_held okL _ _ HokL Er)).
      * by rewrite (proj1 (flush_held ok _ Hok)), (proj1 (flush_held okL _ HokL)).
Qed.

(** Once the goroutine is gone its batches are empty, and so is a channel that
    nothing was offered to since the shutdown began. *)
Definition drained (s : HeartbeatStore) : Prop :=
  match hs_loop s with
  | LoopDrainLiveness => bf_ch (hs_results s) = []
  | LoopDone => bf_ch (hs_results s) = [] ∧ bf_batch (hs_results s) = []
                ∧ bf_ch (hs_liveness s) = [] ∧ bf_batch (hs_liveness s) = []
  | _ => True
  end.

Lemma flush_batch {A} (okA : list A → bool) c b : bf_batch (flush okA c b) = [].
Proof. unfold flush. by destruct (bf_batch b) eqn:E. Qed.

Lemma store_step_drained s a s' :
  offered a = 0%nat → drained s → store_step ok okL s a = Some s' → drained s'.
Proof.
  intros Ho Hd E. unfold drained in *. destruct a; cbn [store_step offered] in *; try done.
  - apply (inj Some) in E as <-. unfold Start. by destruct (_ || _).
  - by apply (inj Some) in E as <-.
  - apply (inj Some) in E as <-. unfold close_begin. by destruct (hs_closed s).
  - case_bool_decide as Hr; [|done]. destruct (receive_flush _ _ _); [|done]. apply (inj Some) in E as <-.
    cbn. by rewrite Hr.
  - case_bool_decide as Hr; [|done]. destruct (receive_flush _ _ _); [|done]. apply (inj Some) in E as <-.
    cbn. by rewrite Hr.
  - case_bool_decide as Hr; [|done]. apply (inj Some) in E as <-. cbn. by rewrite Hr.
  - destruct (_ && _); [|done]. by apply (inj Some) in E as <-.
  - unfold final_drain in E. destruct (hs_loop s) eqn:El; try done; apply (inj Some) in E as <-.
    + destruct (receive_flush ok false _) as [b|] eqn:Er; cbn; [by rewrite El|].
      by apply receive_flush_None in Er.
    + destruct (receive_flush okL false _) as [b|] eqn:Er; cbn; [by rewrite El|].
      apply receive_flush_None in Er. by rewrite !flush_ch, !flush_batch.
Qed.

Lemma traced_run_app t acts1 acts2 t' :
  traced_run t (acts1 ++ acts2) t' → ∃ u, traced_run t acts1 u ∧ traced_run u acts2 t'.
Proof.
  revert t. induction acts1 as [|a acts1 IH]; intros t H; cbn [app] in H.
  { exists t. split; [constructor|done]. }
  inversion H as [|? ? t1 ? ? Hp Hs Hr]; subst. destruct (IH _ Hr) as (u & H1 & H2).
  exists u. split; [by econstructor|done].
Qed.

Lemma traced_run_drained t acts t' :
  sum_list_with offered acts = 0%nat → drained (tr_store t) → traced_run t acts t' → drained (tr_store t').
Proof.
  intros Ho Hd H. induction H as [|u a u1 acts u2 Hp Hs _ IH]; [done|]. cbn in Ho.
  apply IH; [lia|]. unfold traced_step in Hs. destruct (store_step ok okL (tr_store u) a) as [s'|] eqn:E; [|done].
  apply (inj Some) in Hs as <-. cbn. eapply store_step_drained; [|done..]. lia.
Qed.

(** While inserts succeed and the loop answers a cancellation by its Done
    case, no accepted row is lost, duplicated or reordered: table, batch and
    channel together are exactly the accepted rows in order; and when nothing
    is offered after the loop began its shutdown, all of them are in the
    tables once it is gone, both series alike. *)
Theorem store_keeps_every_row acts tail t :
  traced_run (mkTraced OpenHeartbeatStore [] []) (acts ++ ALoopDone :: tail) t →
  held (hs_results (tr_store t)) = tr_results t ∧ held (hs_liveness (tr_store t)) = tr_liveness t
  ∧ (sum_list_with offered tail = 0%nat → hs_loop (tr_store t) = LoopDone →
     bf_table (hs_results (tr_store t)) = tr_results t ∧ bf_table (hs_liveness (tr_store t)) = tr_liveness t).
Proof.
  intros H.
  assert (Hall : all_held t).
  { assert (H0 : all_held (mkTraced OpenHeartbeatStore [] [])) by done.
    revert H0. clear -H Hok HokL. induction H as [|u a u1 acts' u2 Hp Hs _ IH]; [done|].
    intros H0. apply IH. by eapply traced_step_held. }
  destruct Hall as [H1 H2]. split_and!; [done..|]. intros Ho Hd.
  apply traced_run_app in H as (u & _ & H). inversion H as [|? ? t1 ? ? Hp Hs Hr]; subst.
  assert (Hdr : drained (tr_store t)).
  { eapply traced_run_drained; [exact Ho| |exact Hr]. unfold traced_step in Hs. cbn [store_step] in Hs.
    destruct (_ && _); [|done]. by apply (inj Some) in Hs as <-. }
  unfold drained in Hdr. rewrite Hd in Hdr. destruct Hdr as (Hc1 & Hb1 & Hc2 & Hb2).
  rewrite <- H1, <- H2. unfold held. by rewrite Hc1, Hb1, Hc2, Hb2, !app_nil_r.
Qed.
End no_loss.

Definition row_of (i : nat) : resultRow := mkResultRow 1 1 "success" 10 "" (Z.of_nat i).

Lemma store_keeps_every_row_witness :
  ∃ t, traced_run (fun _ => true) (fun _ => true) (mkTraced OpenHeartbeatStore [] [])
         ([AStart; AEnqueue (row_of 1); ACloseBegin] ++ ALoopDone :: [ADrain; ADrain; ADrain]) t
       ∧ bf_table (hs_results (tr_store t)) = [row_of 1].
Proof.
  assert (H : ∃ t, traced_run (fun _ => true) (fun _ => true) (mkTraced OpenHeartbeatStore [] [])
         ([AStart; AEnqueue (row_of 1); ACloseBegin] ++ ALoopDone :: [ADrain; ADrain; ADrain]) t
         ∧ hs_loop (tr_store t) = LoopDone ∧ tr_results t = [row_of 1]).
  { eexists. split; [|split].
    - repeat (eapply tr_cons; [intros H; (discriminate H || reflexivity)|reflexivity|]). apply tr_nil.
    - reflexivity.
    - reflexivity. }
  destruct H as (t & Hr & Hd & Hres). exists t. split; [exact Hr|]. rewrite <- Hres.
  exact (proj1 (proj2 (proj2 (store_keeps_every_row (fun _ => true) (fun _ => true) (fun _ => eq_refl)
           (fun _ => eq_refl) [AStart; AEnqueue (row_of 1); ACloseBegin] [ADrain; ADrain; ADrain] t Hr)) eq_refl Hd)).
Defined.

Lemma store_close_terminates_witness :
  ∃ s s2, store_run (fun _ => true) (fun _ => true) OpenHeartbeatStore [AStart; AEnqueue (row_of 1)] = Some s
  ∧ store_run (fun _ => true) (fun _ => true) (close_begin s).1 [ALoopResult; ALoopDone; AEnqueue (row_of 2); ADrain] = Some s2
  ∧ (is_Some (close_end true s2) ∨ is_Some (store_step (fun _ => true) (fun _ => true) s2 ALoopDone)
     ∨ is_Some (store_step (fun _ => true) (fun _ => true) s2 ADrain)).
Proof.
  eexists. eexists. split; [reflexivity|]. split; [reflexivity|].
  exact (proj1 (proj2 (store_close_terminates (fun _ => true) (fun _ => true) [AStart; AEnqueue (row_of 1)] _
    [ALoopResult; ALoopDone; AEnqueue (row_of 2); ADrain] _ eq_refl eq_refl))).
Defined.

(** The loop's steady-state cases commit under the loop's own context.  When
    the context is cancelled while rows wait, [select] may take a receive case
    instead of Done; the commit then fails and the whole batch is dropped.
    Here every insert would succeed, yet Close loses all 200 rows. *)
Theorem cancelled_flush_loses_batch :
  let enq := map (fun i => AEnqueue (row_of i)) (seq 0 200) in
  let acts := enq ++ [AStart] ++ repeat ALoopResult 199 ++ [ACloseBegin; ALoopResult; ALoopDone; ADrain; ADrain] in
  match store_run (fun _ => true) (fun _ => true) OpenHeartbeatStore acts with
  | Some s => hs_loop s = LoopDone ∧ held (hs_results s) = []
  | None => False
  end.
Proof. vm_compute. split; reflexivity. Qed.
