(* ===== verification/Heartbeat.v ===== *)
(** The heartbeat service (src/internal/service/heartbeat.go and
    service/probe/retry.go): which devices are probed at a tick, the verdict
    over a device's probes with its failure threshold and offline backoff, the
    status cache, and its write-back to the devices table.

    The probe itself is an oracle: what a prober answers for a method, target
    and timeout.  [net/url] is a parameter of [resolveLiveTarget].  Devices
    of one tick are checked one after the other; the code checks them
    concurrently, each on its own map entries.  Clocks are arguments. *)

From S2P Require Import Prelude Db Report ChangeDetect Lease HeartbeatStore.

Open Scope Z_scope.

(** * Configuration and state *)

Record HeartbeatCfg := mkHbCfg {
  cfg_TickIntervalSeconds : Z;
  cfg_OfflineThreshold : Z;
  cfg_OfflineBackoffTicks : Z
}.

Record HeartbeatService := mkHbService {
  hb_cfg : HeartbeatCfg;
  hb_store : option HeartbeatStore;
  hb_started : bool;
  hb_stopped : bool;
  hb_failCounts : gmap Z Z;
  hb_statusCache : gmap Z string;
  hb_lastSynced : gmap Z string;
  hb_lastProbe : gmap Z Z;
  hb_tickCount : Z;
  hb_lastOnlineSample : gmap Z Z
}.

Definition NewHeartbeatService (store : option HeartbeatStore) (c : HeartbeatCfg) : HeartbeatService :=
  mkHbService
    (mkHbCfg (if cfg_TickIntervalSeconds c <=? 0 then 30 else cfg_TickIntervalSeconds c)
       (if cfg_OfflineThreshold c <=? 0 then 5 else cfg_OfflineThreshold c)
       (if cfg_OfflineBackoffTicks c =? 0 then 10 else cfg_OfflineBackoffTicks c))
    store false false ∅ ∅ ∅ ∅ 0 ∅.

Definition with_store (s : HeartbeatService) (f : HeartbeatStore → HeartbeatStore) : HeartbeatService :=
  mkHbService (hb_cfg s) (f <$> hb_store s) (hb_started s) (hb_stopped s) (hb_failCounts s) (hb_statusCache s)
    (hb_lastSynced s) (hb_lastProbe s) (hb_tickCount s) (hb_lastOnlineSample s).

Definition with_failCounts (s : HeartbeatService) (m : gmap Z Z) : HeartbeatService :=
  mkHbService (hb_cfg s) (hb_store s) (hb_started s) (hb_stopped s) m (hb_statusCache s)
    (hb_lastSynced s) (hb_lastProbe s) (hb_tickCount s) (hb_lastOnlineSample s).

Definition with_statusCache (s : HeartbeatService) (m : gmap Z string) : HeartbeatService :=
  mkHbService (hb_cfg s) (hb_store s) (hb_started s) (hb_stopped s) (hb_failCounts s) m
    (hb_lastSynced s) (hb_lastProbe s) (hb_tickCount s) (hb_lastOnlineSample s).

Definition with_lastSynced (s : HeartbeatService) (m : gmap Z string) : HeartbeatService :=
  mkHbService (hb_cfg s) (hb_store s) (hb_started s) (hb_stopped s) (hb_failCounts s) (hb_statusCache s)
    m (hb_lastProbe s) (hb_tickCount s) (hb_lastOnlineSample s).

Definition with_lastProbe (s : HeartbeatService) (m : gmap Z Z) : HeartbeatService :=
  mkHbService (hb_cfg s) (hb_store s) (hb_started s) (hb_stopped s) (hb_failCounts s) (hb_statusCache s)
    (hb_lastSynced s) m (hb_tickCount s) (hb_lastOnlineSample s).

Definition with_lastOnlineSample (s : HeartbeatService) (m : gmap Z Z) : HeartbeatService :=
  mkHbService (hb_cfg s) (hb_store s) (hb_started s) (hb_stopped s) (hb_failCounts s) (hb_statusCache s)
    (hb_lastSynced s) (hb_lastProbe s) (hb_tickCount s) m.

Definition next_tick (s : HeartbeatService) : HeartbeatService :=
  mkHbService (hb_cfg s) (hb_store s) (hb_started s) (hb_stopped s) (hb_failCounts s) (hb_statusCache s)
    (hb_lastSynced s) (hb_lastProbe s) (u64 (hb_tickCount s + 1)) (hb_lastOnlineSample s).

(** * Probing *)

(** What [Prober.Probe] returns: an error, or a result with its success flag,
    latency in microseconds and error message. *)
Inductive probe_outcome :=
| ProbeError
| ProbeResult (success : bool) (latency_us : Z) (message : string).

(** [RetryProber.Probe]: [attempt i] is the inner prober's answer at attempt
    [i], [done i] whether the context is cancelled during the delay before it.
    The outer [None] is a nil result with a nil error, when no attempt is
    allowed. *)
Fixpoint retry_from (fuel : nat) (i : nat) (attempt : nat → probe_outcome) (done : nat → bool)
    (lastErr : option probe_outcome) : option probe_outcome :=
  match fuel with
  | O => lastErr
  | S fuel =>
      if negb (Nat.eqb i 0) && done i then Some ProbeError
      else match attempt i with
           | ProbeError => retry_from fuel (S i) attempt done (Some ProbeError)
           | r => Some r
           end
  end.

Definition RetryProber_Probe (maxTries : nat) (attempt : nat → probe_outcome) (done : nat → bool)
    : option probe_outcome :=
  retry_from maxTries 0 attempt done None.

Inductive Prober := ICMPProber | HTTPProber | TCPProber | SNMPProber (community oid : string).

Definition GetProber (method community oid : string) : Prober :=
  if decide (method = "icmp") then ICMPProber
  else if decide (method = "http") then HTTPProber
  else if decide (method = "tcp") then TCPProber
  else if decide (method = "snmp") then SNMPProber community oid
  else ICMPProber.

(** The number of occurrences of a byte, [strings.Count] of one character. *)
Fixpoint count_char (c : ascii) (s : string) : nat :=
  match s with
  | EmptyString => 0
  | String a s => (if char_eqb a c then 1 else 0) + count_char c s
  end.

(** The text after the first occurrence of [c], [s[idx+1:]]. *)
Fixpoint after_char (c : ascii) (s : string) : string :=
  match s with
  | EmptyString => ""
  | String a s => if char_eqb a c then s else after_char c s
  end.

(** A parsed URL, as far as the substitution uses it: host, port, and the text
    with another host. *)
Record url := mkUrl { url_Host : string; url_Port : string; url_with_host : string → string }.

Section target.
Context (url_Parse : string → option url).

Definition resolveLiveTarget (frozenTarget deviceIP : string) : string :=
  if bool_decide (deviceIP = "") || bool_decide (frozenTarget = "") then frozenTarget
  else if contains_str "://" frozenTarget then
    match url_Parse frozenTarget with
    | None => frozenTarget
    | Some u =>
        if decide (url_Host u = "") then frozenTarget
        else if decide (url_Port u = "") then url_with_host u deviceIP
        else url_with_host u (deviceIP +:+ ":" +:+ url_Port u)
    end
  else if Nat.eqb (count_char ":" frozenTarget) 1 && negb (bool_decide (after_char ":" frozenTarget = ""))
  then deviceIP +:+ ":" +:+ after_char ":" frozenTarget
  else deviceIP.
End target.

Record probeConfig := mkProbeConfig { pc_cfg : HeartbeatConfig; pc_DeviceIP : string }.

(** The query: enabled configs joined with their device, the device's network
    unset, unknown, or without agent. *)
Definition agent_managed (networks : list Network) (d : Device) : bool :=
  match dev_NetworkID d with
  | None => false
  | Some n => existsb (fun w => (net_ID w =? n)
                && match net_AgentID w with Some a => negb (bool_decide (a = "")) | None => false end) networks
  end.

Definition listLocalProbeConfigs (configs : list HeartbeatConfig) (devices : list Device)
    (networks : list Network) : list probeConfig :=
  hc ← configs;
  d ← devices;
  if (dev_ID d =? hc_DeviceID hc) && (hc_Enabled hc =? 1) && negb (agent_managed networks d)
  then [mkProbeConfig hc (dev_IpAddress d)] else [].

Definition duration_seconds (n : Z) : Z := i64 (n * nanos_per_second).

Definition isDue (s : HeartbeatService) (now : Z) (cfg : HeartbeatConfig) : bool :=
  let interval := duration_seconds (hc_IntervalSeconds cfg) in
  let interval :=
    if interval <=? 0 then
      let t := duration_seconds (cfg_TickIntervalSeconds (hb_cfg s)) in
      if t <=? 0 then 30 * nanos_per_second else t
    else interval in
  match hb_lastProbe s !! hc_ID cfg with
  | None => true
  | Some last => interval <=? now - last
  end.

(** * Verdicts *)

Definition SampleLiveness (s : HeartbeatService) (now deviceID : Z) (status source : string) : HeartbeatService :=
  match hb_store s with
  | None => s
  | Some _ =>
      if decide (status = "") then s
      else
        let row := mkLivenessRow deviceID status source now in
        if decide (status = "online") then
          let throttled := match hb_lastOnlineSample s !! deviceID with
                           | Some last => now - last <? 5 * minute
                           | None => false
                           end in
          if throttled then s
          else with_store (with_lastOnlineSample s (<[deviceID := now]> (hb_lastOnlineSample s)))
                 (EnqueueLiveness row)
        else with_store s (EnqueueLiveness row)
  end.

Definition applyDeviceVerdict (s : HeartbeatService) (now deviceID : Z) (anySuccess : bool) : HeartbeatService :=
  let oldStatus := default "" (hb_statusCache s !! deviceID) in
  let settle (s : HeartbeatService) (newStatus : string) :=
    let s := if bool_decide (newStatus = "") || bool_decide (newStatus = oldStatus) then s
             else with_statusCache s (<[deviceID := newStatus]> (hb_statusCache s)) in
    SampleLiveness s now deviceID newStatus "heartbeat" in
  if anySuccess then settle (with_failCounts s (<[deviceID := 0]> (hb_failCounts s))) "online"
  else
    let count := default 0 (hb_failCounts s !! deviceID) + 1 in
    let s := with_failCounts s (<[deviceID := count]> (hb_failCounts s)) in
    if count <? cfg_OfflineThreshold (hb_cfg s)
    then SampleLiveness s now deviceID oldStatus "heartbeat"
    else settle s "offline".

Definition ResetFailures (s : HeartbeatService) (deviceID : Z) : HeartbeatService :=
  if 0 <? default 0 (hb_failCounts s !! deviceID)
  then with_failCounts s (<[deviceID := 0]> (hb_failCounts s)) else s.

Definition cachedStatus (s : HeartbeatService) (deviceID : Z) : string :=
  default "" (hb_statusCache s !! deviceID).

Section tick.
Context (url_Parse : string → option url).
Context (probe : Prober → string → Z → probe_outcome).

Definition probeAndRecord (s : HeartbeatService) (now : Z) (c : probeConfig) : HeartbeatService * bool :=
  let cfg := pc_cfg c in
  let timeout := duration_seconds (hc_TimeoutSeconds cfg) in
  let timeout := if timeout <=? 0 then 5 * nanos_per_second else timeout in
  let prober := GetProber (hc_Method cfg) (hc_SnmpCommunity cfg) (hc_SnmpOid cfg) in
  let s := with_lastProbe s (<[hc_ID cfg := now]> (hb_lastProbe s)) in
  let liveTarget := resolveLiveTarget url_Parse (hc_Target cfg) (pc_DeviceIP c) in
  match RetryProber_Probe 1 (fun _ => probe prober liveTarget timeout) (fun _ => false) with
  | Some (ProbeResult success lat msg) =>
      let row := mkResultRow (hc_DeviceID cfg) (hc_ID cfg) (if success then "success" else "fail")
                   (if success then lat else 0) (if success then "" else msg) now in
      (with_store s (Enqueue row), success)
  | _ => (s, false)
  end.

Definition checkDevice (s : HeartbeatService) (now deviceID : Z) (cfgs : list probeConfig) : HeartbeatService :=
  let (s, anySuccess) := fold_left (fun (acc : HeartbeatService * bool) c =>
      let (s, r) := probeAndRecord acc.1 now c in (s, r || acc.2)) cfgs (s, false) in
  applyDeviceVerdict s now deviceID anySuccess.

(** The keys of [allByDevice], each once. *)
Definition device_ids (configs : list probeConfig) : list Z :=
  remove_dups (map (fun c => hc_DeviceID (pc_cfg c)) configs).

Definition configs_of (configs : list probeConfig) (id : Z) : list probeConfig :=
  filter (fun c => hc_DeviceID (pc_cfg c) = id) configs.

(** Whether [runChecks] keeps the device in [byDevice]; [s] is the state after
    the tick counter moved. *)
Definition selected (s : HeartbeatService) (now : Z) (configs : list probeConfig) (id : Z) : bool :=
  let offlineBackoff := if cfg_OfflineBackoffTicks (hb_cfg s) <? 0 then 0 else cfg_OfflineBackoffTicks (hb_cfg s) in
  existsb (fun c => isDue s now (pc_cfg c)) (configs_of configs id)
  && negb ((0 <? offlineBackoff) && bool_decide (cachedStatus s id = "offline")
           && negb (hb_tickCount s `mod` offlineBackoff =? 0)).

(** [None] for [configs] is a failed query. *)
Definition runChecks (s : HeartbeatService) (now : Z) (configs : option (list probeConfig)) : HeartbeatService :=
  match configs with
  | None => s
  | Some configs =>
      let s := next_tick s in
      fold_left (fun s' id => checkDevice s' now id (configs_of configs id))
        (filter (fun id => selected s now configs id) (device_ids configs)) s
  end.
End tick.

(** * Status write-back *)

Definition initStatusCache (s : HeartbeatService) (devices : list Device) : HeartbeatService :=
  fold_left (fun s d => with_lastSynced (with_statusCache s (<[dev_ID d := dev_Status d]> (hb_statusCache s)))
                          (<[dev_ID d := dev_Status d]> (hb_lastSynced s))) devices s.

(** The statement of [syncStatus] for one device, at CURRENT_TIMESTAMP [now]. *)
Definition sync_row (now : Z) (status : string) (d : Device) : Device :=
  dev_liveness d status (dev_LastSeen d) (dev_LastScannedAt d)
    (if bool_decide (status = "offline") && negb (bool_decide (dev_Status d = "offline")) then Some (DBTime now)
     else if decide (status = "online") then None else dev_OfflineSince d)
    (DBTime now).

(** The entries that differ from what was last written. *)
Definition changed (s : HeartbeatService) : list (Z * string) :=
  filter (fun p => default "" (hb_lastSynced s !! p.1) ≠ p.2) (map_to_list (hb_statusCache s)).

(** [begin_ok], [commit_ok]: the transaction; [exec_ok id]: the UPDATE of a
    device.  A failed UPDATE is logged and the loop goes on. *)
Definition syncStatus (begin_ok commit_ok : bool) (exec_ok : Z → bool) (now : Z)
    (s : HeartbeatService) (devices : list Device) : HeartbeatService * list Device :=
  let ch := changed s in
  if bool_decide (ch = []) || negb begin_ok then (s, devices)
  else
    let devices' := fold_left (fun ds p =>
        if exec_ok p.1 then map (on_device p.1 (sync_row now p.2)) ds else ds) ch devices in
    if negb commit_ok then (s, devices)
    else (with_lastSynced s (fold_left (fun m p => <[p.1 := p.2]> m) ch (hb_lastSynced s)), devices').

(** * Lifecycle *)

(** [Start] up to its loops: a delayed or repeated call does nothing. *)
Definition service_Start (devices : list Device) (s : HeartbeatService) : HeartbeatService :=
  if hb_started s || hb_stopped s then s
  else
    let s := mkHbService (hb_cfg s) (Start <$> hb_store s) true (hb_stopped s) (hb_failCounts s) (hb_statusCache s)
               (hb_lastSynced s) (hb_lastProbe s) (hb_tickCount s) (hb_lastOnlineSample s) in
    initStatusCache s devices.

(** [Stop]: mark, cancel, write the status back once more, close the store (up
    to its wait for the flush loop). *)
Definition service_Stop (begin_ok commit_ok : bool) (exec_ok : Z → bool) (now : Z)
    (s : HeartbeatService) (devices : list Device) : HeartbeatService * list Device :=
  let s := mkHbService (hb_cfg s) (hb_store s) (hb_started s) true (hb_failCounts s) (hb_statusCache s)
             (hb_lastSynced s) (hb_lastProbe s) (hb_tickCount s) (hb_lastOnlineSample s) in
  let (s, devices) := syncStatus begin_ok commit_ok exec_ok now s devices in
  (with_store s (fun st => (close_begin st).1), devices).

(** * Configurations *)

(** The heartbeat_configs table with its AUTOINCREMENT counter. *)
Record config_table := mkConfigs { ct_rows : list HeartbeatConfig; ct_next : Z }.

Definition insert_config (t : config_table) (deviceID : Z) (sp : HeartbeatSpec) : config_table :=
  mkConfigs (ct_rows t ++ [mkHbConfig (ct_next t) deviceID (sp_Method sp) (sp_Target sp) (sp_IntervalSeconds sp)
                             (sp_TimeoutSeconds sp) (sp_SNMPCommunity sp) (sp_SNMPOID sp) 1]) (ct_next t + 1).

Definition has_config (t : config_table) (deviceID : Z) (method : string) : bool :=
  existsb (fun r => (hc_DeviceID r =? deviceID) && (hc_Method r =? method)%string) (ct_rows t).

(** ON CONFLICT(device_id, method) DO NOTHING. *)
Definition CreateHeartbeatConfigIfAbsent (t : config_table) (deviceID : Z) (sp : HeartbeatSpec) : config_table :=
  if has_config t deviceID (sp_Method sp) then t else insert_config t deviceID sp.

Inductive config_error := ErrInvalidMethod (m : string) | ErrCreateConfig (m : string).

Definition validMethods : list string := ["icmp"; "snmp"; "http"; "tcp"].

(** The loop of [CreateConfigs]: the table so far is kept on an error.
    [ok method]: the INSERT of the method succeeds. *)
Fixpoint create_configs (ok : string → bool) (t : config_table) (deviceID : Z) (seen : list string)
    (specs : list HeartbeatSpec) : config_table * option config_error :=
  match specs with
  | [] => (t, None)
  | sp :: specs =>
      let m := sp_Method sp in
      if negb (bool_decide (m ∈ validMethods)) then (t, Some (ErrInvalidMethod m))
      else if decide (m ∈ seen) then create_configs ok t deviceID seen specs
      else if negb (ok m) then (t, Some (ErrCreateConfig m))
      else create_configs ok (CreateHeartbeatConfigIfAbsent t deviceID sp) deviceID (m :: seen) specs
  end.

Definition CreateConfigs (ok : string → bool) (t : config_table) (deviceID : Z) (specs : list HeartbeatSpec)
    : config_table * option config_error :=
  create_configs ok t deviceID [] specs.

Definition SysUpTimeOID : string := "1.3.6.1.2.1.1.3.0".

(** [CreateDefaultConfig] inserts without the conflict clause: a duplicate
    violates UNIQUE(device_id, method). *)
Definition CreateDefaultConfig (t : config_table) (deviceID : Z) (target : string)
    : config_table * option config_error :=
  if has_config t deviceID "icmp" then (t, Some (ErrCreateConfig "icmp"))
  else (insert_config t deviceID (mkSpec "icmp" target 30 5 "public" SysUpTimeOID), None).

(** The sampler the runner and the lease sweeper are given: the service at a
    clock. *)
#[export] Instance HeartbeatService_Sample : LivenessSampler (HeartbeatService * Z) :=
  fun s id status source => (SampleLiveness s.1 s.2 id status source, s.2).
