(* ===== verification/HeartbeatSpec.v ===== *)
(** Properties of the heartbeat service. *)

From S2P Require Import Prelude Db Report ChangeDetect Lease LeaseSpec HeartbeatStore Heartbeat.

Open Scope Z_scope.

(** * The verdict state machine *)

(** Frame facts: sampling touches neither counters nor statuses. *)
Lemma SampleLiveness_frame s now id st src :
  hb_failCounts (SampleLiveness s now id st src) = hb_failCounts s
  ∧ hb_statusCache (SampleLiveness s now id st src) = hb_statusCache s
  ∧ hb_lastSynced (SampleLiveness s now id st src) = hb_lastSynced s
  ∧ hb_cfg (SampleLiveness s now id st src) = hb_cfg s.
Proof.
  unfold SampleLiveness. destruct (hb_store s); [|done]. case_decide; [done|].
  case_decide; [|done]. by destruct (match hb_lastOnlineSample s !! id with Some _ => _ | None => _ end).
Qed.

Definition fails (s : HeartbeatService) (id : Z) : Z := default 0 (hb_failCounts s !! id).
Definition threshold (s : HeartbeatService) : Z := cfg_OfflineThreshold (hb_cfg s).

(** One verdict, on the device's own entries. *)
Lemma verdict_step s now id b :
  let s' := applyDeviceVerdict s now id b in
  fails s' id = (if b then 0 else fails s id + 1)
  ∧ cachedStatus s' id = (if b then "online"
       else if fails s id + 1 <? threshold s then cachedStatus s id else "offline")
  ∧ hb_cfg s' = hb_cfg s ∧ hb_lastSynced s' = hb_lastSynced s
  ∧ ∀ id', id' ≠ id → fails s' id' = fails s id' ∧ hb_statusCache s' !! id' = hb_statusCache s !! id'.
Proof.
  cbv zeta. unfold applyDeviceVerdict, fails, threshold, cachedStatus. destruct b.
  - pose proof (SampleLiveness_frame) as Hf.
    case_bool_decide as Hz; [done|]. cbn [orb]. clear Hz. case_bool_decide as Hz.
    all: match goal with |- context [SampleLiveness ?x ?a ?b ?c ?d] =>
           destruct (Hf x a b c d) as (-> & -> & -> & ->) end.
    all: cbn [with_failCounts with_statusCache hb_failCounts hb_statusCache hb_cfg hb_lastSynced].
    all: rewrite ?lookup_insert_eq; split_and!; try done.
    all: intros id' Hne; by rewrite !lookup_insert_ne by done.
  - cbn [with_failCounts hb_cfg]. set (c := default 0 (hb_failCounts s !! id) + 1).
    destruct (c <? _).
    + match goal with |- context [SampleLiveness ?x ?a ?b ?c ?d] =>
        destruct (SampleLiveness_frame x a b c d) as (-> & -> & -> & ->) end.
      cbn [with_failCounts hb_failCounts hb_statusCache hb_cfg hb_lastSynced].
      rewrite lookup_insert_eq; split_and!; try done. intros id' Hne. by rewrite lookup_insert_ne by done.
    + case_bool_decide as Hz; [done|]. cbn [orb]. clear Hz. case_bool_decide as Hz.
      all: match goal with |- context [SampleLiveness ?x ?a ?b ?c ?d] =>
             destruct (SampleLiveness_frame x a b c d) as (-> & -> & -> & ->) end.
      all: cbn [with_failCounts with_statusCache hb_failCounts hb_statusCache hb_cfg hb_lastSynced].
      all: rewrite ?lookup_insert_eq; split_and!; try done.
      all: intros id' Hne; by rewrite !lookup_insert_ne by done.
Qed.

(** What happens to devices, oldest first: a verdict at its clock, or a scan that
    saw the device and resets its failures. *)
Inductive liveness_event := Verdict (now id : Z) (reachable : bool) | ScanSeen (id : Z).

Definition apply_event (s : HeartbeatService) (e : liveness_event) : HeartbeatService :=
  match e with
  | Verdict now id b => applyDeviceVerdict s now id b
  | ScanSeen id => ResetFailures s id
  end.

Definition run_events (s : HeartbeatService) (evs : list liveness_event) : HeartbeatService :=
  fold_left apply_event evs s.

(** The events of one device: a verdict, or [None] for a reset. *)
Definition own_event (id : Z) (e : liveness_event) : option (option bool) :=
  match e with
  | Verdict _ id' b => if decide (id' = id) then Some (Some b) else None
  | ScanSeen id' => if decide (id' = id) then Some None else None
  end.

Definition own (id : Z) (evs : list liveness_event) : list (option bool) := omap (own_event id) evs.

(** The failures in a row at the end of a history, [acc] those before it. *)
Fixpoint trailing_fails (acc : Z) (h : list (option bool)) : Z :=
  match h with
  | [] => acc
  | Some false :: h => trailing_fails (acc + 1) h
  | _ :: h => trailing_fails 0 h
  end.

Lemma trailing_snoc acc h x :
  trailing_fails acc (h ++ [x]) = match x with Some false => trailing_fails acc h + 1 | _ => 0 end.
Proof. revert acc. induction h as [|[[]|] h IH]; intros acc; cbn; [by destruct x as [[]|]|apply IH..]. Qed.

(** The contract.  A device is down when a failure completed a run of [thr] and
    nothing answered since, or when it was down before and never answered. *)
Definition down (thr fails0 : Z) (down0 : Prop) (h : list (option bool)) : Prop :=
  (down0 ∧ Some true ∉ h)
  ∨ ∃ h1 h2, h = h1 ++ Some false :: h2 ∧ thr ≤ trailing_fails fails0 (h1 ++ [Some false]) ∧ Some true ∉ h2.

Lemma down_snoc thr f0 d0 h x :
  down thr f0 d0 (h ++ [x]) ↔
  match x with
  | Some true => False
  | Some false => thr ≤ trailing_fails f0 h + 1 ∨ down thr f0 d0 h
  | None => down thr f0 d0 h
  end.
Proof.
  assert (Hsplit : ∀ h1 h2 y, h ++ [x] = h1 ++ y :: h2 →
    (h2 = [] ∧ h1 = h ∧ y = x) ∨ ∃ h3, h2 = h3 ++ [x] ∧ h = h1 ++ y :: h3).
  { intros h1 h2 y Heq. destruct h2 as [|z h3 _] using rev_ind.
    - apply app_inj_tail in Heq as [-> ->]. by left.
    - right. rewrite app_comm_cons, app_assoc in Heq. apply app_inj_tail in Heq as [-> ->]. by exists h3. }
  unfold down. split.
  - intros [[Hd Hn]|(h1 & h2 & Heq & Ht & Hn)].
    + apply not_elem_of_app in Hn as [Hn Hx]. destruct x as [[]|]; [set_solver|right; by left|by left].
    + destruct (Hsplit _ _ _ Heq) as [(-> & -> & <-)|(h3 & -> & ->)].
      * left. by rewrite trailing_snoc in Ht.
      * apply not_elem_of_app in Hn as [Hn Hx].
        destruct x as [[]|]; [set_solver|right; right; by exists h1, h3|right; by exists h1, h3].
  - destruct x as [[]|]; [done| |].
    + intros [Ht|[[Hd Hn]|(h1 & h2 & -> & Ht & Hn)]].
      * right. exists h, []. split_and!; [done|by rewrite trailing_snoc|apply not_elem_of_nil].
      * left. split; [done|]. set_solver.
      * right. exists h1, (h2 ++ [Some false]). split_and!; [by rewrite <- app_assoc|done|set_solver].
    + intros [[Hd Hn]|(h1 & h2 & -> & Ht & Hn)].
      * left. split; [done|]. set_solver.
      * right. exists h1, (h2 ++ [None]). split_and!; [by rewrite <- app_assoc|done|set_solver].
Qed.

Lemma reset_step s id :
  let s' := ResetFailures s id in
  fails s' id = Z.min 0 (fails s id)
  ∧ hb_cfg s' = hb_cfg s ∧ hb_statusCache s' = hb_statusCache s
  ∧ ∀ id', id' ≠ id → fails s' id' = fails s id'.
Proof.
  cbv zeta. unfold ResetFailures, fails. destruct (Z.ltb_spec 0 (default 0 (hb_failCounts s !! id))); cbn.
  - split_and!; [by rewrite lookup_insert_eq; cbn; lia|done|done|]. intros id' Hne. by rewrite lookup_insert_ne.
  - split_and!; [lia|done..].
Qed.

(** One event, on the entries of one device. *)
Lemma event_step s id e :
  0 ≤ fails s id →
  let s' := apply_event s e in
  hb_cfg s' = hb_cfg s
  ∧ match own_event id e with
    | None => fails s' id = fails s id ∧ cachedStatus s' id = cachedStatus s id
    | Some None => fails s' id = 0 ∧ cachedStatus s' id = cachedStatus s id
    | Some (Some true) => fails s' id = 0 ∧ cachedStatus s' id = "online"
    | Some (Some false) => fails s' id = fails s id + 1
        ∧ cachedStatus s' id = (if fails s id + 1 <? threshold s then cachedStatus s id else "offline")
    end.
Proof.
  intros Hnn. cbv zeta. destruct e as [now id' b|id']; cbn [apply_event own_event].
  - destruct (verdict_step s now id' b) as (H1 & H2 & H3 & _ & H5). split; [done|].
    destruct (decide (id' = id)) as [->|Hne]; [by destruct b|].
    destruct (H5 id) as [-> Hc]; [done|]. split; [done|]. unfold cachedStatus. by rewrite Hc.
  - destruct (reset_step s id') as (H1 & H2 & H3 & H4). split; [done|].
    unfold cachedStatus. rewrite H3. destruct (decide (id' = id)) as [->|Hne]; [|by rewrite H4].
    split; [lia|done].
Qed.

Lemma run_events_state s id evs :
  0 ≤ fails s id →
  let s' := run_events s evs in
  fails s' id = trailing_fails (fails s id) (own id evs) ∧ 0 ≤ fails s' id ∧ hb_cfg s' = hb_cfg s.
Proof.
  intros Hnn. cbv zeta. induction evs as [|e evs IH] using rev_ind; [done|].
  destruct IH as (Hf & Hn & Hc). unfold run_events, own in *. rewrite fold_left_app, omap_app. cbn [fold_left].
  destruct (event_step (fold_left apply_event evs s) id e Hn) as (Hc' & He).
  cbn [omap list_omap]. destruct (own_event id e) as [x|].
  - rewrite trailing_snoc. destruct x as [[]|]; destruct He as [-> _]; (split_and!; [lia|lia|congruence]).
  - destruct He as [-> _]. rewrite app_nil_r. split_and!; [done..|congruence].
Qed.

(** C33.  The online/offline machine against its contract.  For any history of
    probe verdicts and scan resets of any devices, starting from any counter
    and any cached status, a device's cached status is offline exactly when
    some failure completed a run of [threshold] failures in a row (a success
    or a reset ends a run) and no probe succeeded since, or when it was
    offline to begin with and no probe succeeded; otherwise it is online if
    any probe succeeded and as it was if none did.  A reset by itself never
    changes the status. *)
Theorem verdict_refines_contract s id evs :
  0 ≤ fails s id →
  let h := own id evs in
  let st := cachedStatus (run_events s evs) id in
  (st = "offline" ↔ down (threshold s) (fails s id) (cachedStatus s id = "offline") h)
  ∧ (st ≠ "offline" → (Some true ∈ h → st = "online") ∧ (Some true ∉ h → st = cachedStatus s id)).
Proof.
  intros Hnn. cbv zeta. induction evs as [|e evs IH] using rev_ind.
  { cbn. split; [|split; [by intros ?%elem_of_nil|done]]. split.
    - intros H. left. split; [done|apply not_elem_of_nil].
    - intros [[H _]|(h1 & h2 & H & _)]; [done|by destruct h1]. }
  destruct (run_events_state s id evs Hnn) as (Hf & Hn & Hc).
  unfold run_events, own in *. rewrite fold_left_app, omap_app. cbn [fold_left omap list_omap].
  destruct (event_step (fold_left apply_event evs s) id e Hn) as (_ & He).
  set (s1 := fold_left apply_event evs s) in *. set (h := omap (own_event id) evs) in *.
  assert (Ht : threshold s1 = threshold s) by (unfold threshold; congruence).
  destruct IH as [IH1 IH2]. destruct (own_event id e) as [x|].
  2: { rewrite app_nil_r. destruct He as [_ ->]. done. }
  rewrite down_snoc. destruct x as [[]|]; destruct He as [_ ->].
  - split; [done|]. intros _. split; [done|]. intros Hno. exfalso. apply Hno. set_solver.
  - rewrite Ht, Hf. destruct (Z.ltb_spec (trailing_fails (fails s id) h + 1) (threshold s)) as [Hlt|Hge].
    + split; [rewrite IH1; intuition lia|]. intros Hne. destruct (IH2 Hne) as [H1 H2]. split; intros Hin; set_solver.
    + split; [split; [by left|done]|done].
  - split; [done|]. intros Hne. destruct (IH2 Hne) as [H1 H2]. split; intros Hin; set_solver.
Qed.

Definition svc5 : HeartbeatService := NewHeartbeatService None (mkHbCfg 0 0 0).

Definition verdicts (id : Z) (bs : list bool) : list liveness_event :=
  imap (fun i b => Verdict (Z.of_nat i) id b) bs.

(** Five failures take a device offline; with a reset among them they do not. *)
Lemma verdict_refines_contract_witness :
  cachedStatus (run_events svc5 (verdicts 7 [true; false; false; false; false; false])) 7 = "offline"
  ∧ cachedStatus (run_events svc5 (verdicts 7 [true; false; false; false; false] ++ ScanSeen 7
       :: verdicts 7 [false; false; false; false])) 7 = "online".
Proof.
  split.
  - apply (verdict_refines_contract svc5 7); [vm_compute; discriminate|].
    right. exists [Some true; Some false; Some false; Some false; Some false], [].
    split_and!; [reflexivity|vm_compute; discriminate|apply not_elem_of_nil].
  - apply (verdict_refines_contract svc5 7); [vm_compute; discriminate|vm_compute; discriminate|].
    vm_compute. left.
Defined.

(** * Write-back *)

Definition sync_ok := syncStatus true true (fun _ => true).

Definition apply_changes (now : Z) (ch : list (Z * string)) (ds : list Device) : list Device :=
  fold_left (fun ds p => map (on_device p.1 (sync_row now p.2)) ds) ch ds.

Lemma changed_NoDup s : NoDup (changed s).*1.
Proof.
  unfold changed. eapply sublist_NoDup; [apply (NoDup_fst_map_to_list (hb_statusCache s))|].
  apply fmap_sublist, sublist_filter.
Qed.

Lemma elem_of_changed s id st :
  (id, st) ∈ changed s ↔ hb_statusCache s !! id = Some st ∧ default "" (hb_lastSynced s !! id) ≠ st.
Proof. unfold changed. rewrite list_elem_of_filter, elem_of_map_to_list. cbn. tauto. Qed.

(** The UPDATEs of a transaction whose ids are distinct: row by row. *)
Lemma apply_changes_rows now ch ds d' :
  NoDup ch.*1 → d' ∈ apply_changes now ch ds →
  ∃ d, d ∈ ds ∧ dev_ID d' = dev_ID d ∧
    ((∃ st, (dev_ID d, st) ∈ ch ∧ d' = sync_row now st d) ∨ (dev_ID d ∉ ch.*1 ∧ d' = d)).
Proof.
  revert ds. induction ch as [|[id st] ch IH]; intros ds Hnd Hd; cbn [apply_changes fold_left] in Hd.
  { exists d'. split_and!; [done..|]. right. split; [|done]. cbn. apply not_elem_of_nil. }
  cbn [fmap list_fmap fst] in Hnd. apply list.NoDup_cons in Hnd as [Hid Hnd].
  destruct (IH _ Hnd Hd) as (d1 & Hd1 & Hdid & Hcase).
  apply list_elem_of_In, in_map_iff in Hd1 as (d0 & Heq & Hd0). apply list_elem_of_In in Hd0.
  exists d0. cbn [fst snd] in *. unfold on_device in Heq. destruct (decide (dev_ID d0 = id)) as [He|He].
  - assert (Hd1id : dev_ID d1 = dev_ID d0) by (by rewrite <- Heq).
    split_and!; [done|congruence|]. left. exists st. split; [rewrite He; left|].
    destruct Hcase as [(st' & Hst & _)|[_ ->]]; [|by rewrite Heq].
    exfalso. apply Hid. rewrite <- He, <- Hd1id. by apply (list_elem_of_fmap_2 fst _ (dev_ID d1, st')).
  - rewrite <- Heq in Hcase, Hdid. split_and!; [done..|]. destruct Hcase as [(st' & Hst & Hrow)|[Hni Hrow]].
    + left. exists st'. split; [by right|done].
    + right. split; [|done]. cbn. rewrite not_elem_of_cons. done.
Qed.

Lemma synced_lookup ch (m : gmap Z string) id :
  NoDup ch.*1 → fold_left (fun m p => <[p.1 := p.2]> m) ch m !! id =
    match list_find (fun p => p.1 = id) ch with Some (_, p) => Some p.2 | None => m !! id end.
Proof.
  revert m. induction ch as [|[k v] ch IH]; intros m Hnd; [done|].
  cbn [fmap list_fmap fst] in Hnd. apply list.NoDup_cons in Hnd as [Hk Hnd]. cbn [fold_left fst snd].
  rewrite IH by done. cbn [list_find]. destruct (decide (k = id)) as [->|Hne].
  - rewrite decide_True by done. destruct (list_find (fun p => p.1 = id) ch) as [[i p]|] eqn:E.
    + exfalso. apply list_find_Some in E as (Hi & Hp & _). apply Hk. rewrite <- Hp.
      by apply list_elem_of_fmap_2, (list_elem_of_lookup_2 _ i).
    + cbn. by rewrite lookup_insert_eq.
  - rewrite decide_False by done. destruct (list_find (fun p => p.1 = id) ch) as [[i p]|]; cbn; [done|].
    by rewrite lookup_insert_ne.
Qed.

(** What a commit leaves in [lastSynced]. *)
Lemma synced_in s id st :
  (id, st) ∈ changed s → fold_left (fun m p => <[p.1 := p.2]> m) (changed s) (hb_lastSynced s) !! id = Some st.
Proof.
  intros Hin. rewrite synced_lookup by apply changed_NoDup.
  destruct (list_find (fun p => p.1 = id) (changed s)) as [[i [k v]]|] eqn:E.
  - apply list_find_Some in E as (Hi & Hp & _). cbn in Hp. subst k. cbn.
    apply list_elem_of_lookup_2 in Hi. apply elem_of_changed in Hi as [Hi _].
    apply elem_of_changed in Hin as [Hin _]. congruence.
  - apply list_find_None in E. rewrite list.Forall_forall in E. by specialize (E _ Hin).
Qed.

Lemma synced_out s id :
  id ∉ (changed s).*1 →
  fold_left (fun m p => <[p.1 := p.2]> m) (changed s) (hb_lastSynced s) !! id = hb_lastSynced s !! id.
Proof.
  intros Hni. rewrite synced_lookup by apply changed_NoDup.
  destruct (list_find (fun p => p.1 = id) (changed s)) as [[i p]|] eqn:E; [|done].
  exfalso. apply list_find_Some in E as (Hi & Hp & _). apply Hni. rewrite <- Hp.
  by apply list_elem_of_fmap_2, (list_elem_of_lookup_2 _ i).
Qed.

(** Nothing but the write-back touched the statuses it wrote. *)
Definition db_as_synced (s : HeartbeatService) (ds : list Device) : Prop :=
  ∀ d st, d ∈ ds → hb_lastSynced s !! dev_ID d = Some st → dev_Status d = st.

(** When no one else writes statuses, a write-back that meets no fault
    leaves every device with the status of the cache, keeps that so, and
    leaves nothing to write: the next one does not touch the table. *)
Theorem sync_converges s ds now :
  db_as_synced s ds →
  let (s', ds') := sync_ok now s ds in
  (∀ d st, d ∈ ds' → hb_statusCache s !! dev_ID d = Some st → st ≠ "" → dev_Status d = st)
  ∧ db_as_synced s' ds' ∧ changed s' = [] ∧ ∀ now', sync_ok now' s' ds' = (s', ds').
Proof.
  intros Hdb. unfold sync_ok at 1, syncStatus. cbn [negb]. rewrite orb_false_r.
  assert (Hidle : ∀ t ds0, changed t = [] → ∀ now', sync_ok now' t ds0 = (t, ds0)).
  { intros t ds0 Ht now'. unfold sync_ok, syncStatus. rewrite Ht. done. }
  case_bool_decide as Hc.
  { split_and!; [|done|done|by apply Hidle]. intros d st Hd Hst Hne. apply Hdb; [done|].
    destruct (decide (default "" (hb_lastSynced s !! dev_ID d) = st)) as [He|He].
    - destruct (hb_lastSynced s !! dev_ID d); cbn in He; congruence.
    - exfalso. assert (Hin : (dev_ID d, st) ∈ changed s) by (by apply elem_of_changed).
      rewrite Hc in Hin. by apply elem_of_nil in Hin. }
  pose proof (changed_NoDup s) as Hnd.
  set (s' := with_lastSynced s _).
  assert (Hls : ∀ id st, (id, st) ∈ changed s → hb_lastSynced s' !! id = Some st) by apply synced_in.
  assert (Hls' : ∀ id, id ∉ (changed s).*1 → hb_lastSynced s' !! id = hb_lastSynced s !! id) by apply synced_out.
  assert (Hch : changed s' = []).
  { destruct (changed s') as [|[id st] l] eqn:E; [done|]. exfalso.
    assert (Hin : (id, st) ∈ changed s') by (rewrite E; left). apply elem_of_changed in Hin as [Hin Hne].
    cbn in Hin. destruct (decide (id ∈ (changed s).*1)) as [Hi|Hi].
    - apply list_elem_of_fmap in Hi as ([id' st'] & -> & Hi). cbn in *. rewrite (Hls _ _ Hi) in Hne. cbn in Hne.
      apply elem_of_changed in Hi as [Hi _]. congruence.
    - rewrite (Hls' _ Hi) in Hne. apply Hi. apply (list_elem_of_fmap_2 fst _ (id, st)).
      by apply elem_of_changed. }
  split_and!; [| |done|by apply Hidle].
  - intros d st Hd Hst Hne. apply apply_changes_rows in Hd as (d0 & Hd0 & Hid & Hcase); [|done].
    rewrite Hid in Hst. destruct Hcase as [(st' & Hin & ->)|[Hni ->]].
    + apply elem_of_changed in Hin as [Hin _]. cbn. congruence.
    + destruct (decide (default "" (hb_lastSynced s !! dev_ID d0) = st)) as [He|He].
      * apply Hdb; [done|]. destruct (hb_lastSynced s !! dev_ID d0); cbn in He; congruence.
      * exfalso. apply Hni, (list_elem_of_fmap_2 fst _ (dev_ID d0, st)). by apply elem_of_changed.
  - intros d st Hd Hst. apply apply_changes_rows in Hd as (d0 & Hd0 & Hid & Hcase); [|done].
    rewrite Hid in Hst. destruct Hcase as [(st' & Hin & ->)|[Hni ->]].
    + rewrite (Hls _ _ Hin) in Hst. cbn. congruence.
    + apply Hdb; [done|]. rewrite <- (Hls' _ Hni). done.
Qed.

Definition dev7 : Device := mk_dev 7 "u7" "10.0.0.7" "online" 1 100.

(** The service after a restart with device 7 online, and five failures. *)
Definition svc7 : HeartbeatService :=
  run_events (initStatusCache svc5 [dev7]) (verdicts 7 [false; false; false; false; false]).

Lemma sync_converges_witness :
  let (s', ds') := sync_ok 60 svc7 [dev7] in
  map dev_Status ds' = ["offline"] ∧ changed s' = [].
Proof.
  pose proof (sync_converges svc7 [dev7] 60) as H.
  assert (Hd : (sync_ok 60 svc7 [dev7]).2 = [sync_row 60 "offline" dev7]) by (vm_compute; reflexivity).
  destruct (sync_ok 60 svc7 [dev7]) as [s' ds']. cbn in Hd.
  split; [by rewrite Hd|]. apply H.
  intros d st Hd' Hst. apply list_elem_of_singleton in Hd' as ->. vm_compute in Hst. injection Hst as <-. reflexivity.
Defined.

(** Ticks at which the device's verdict is [b], each followed by a write-back. *)
Fixpoint ticks (id : Z) (b : bool) (nows : list Z) (s : HeartbeatService) (ds : list Device)
    : HeartbeatService * list Device :=
  match nows with
  | [] => (s, ds)
  | now :: nows =>
      let (s, ds) := sync_ok now (applyDeviceVerdict s now id b) ds in ticks id b nows s ds
  end.

Lemma sync_ok_untouched s ds now id :
  default "" (hb_lastSynced s !! id) = default "" (hb_statusCache s !! id) →
  let (s', ds') := sync_ok now s ds in
  filter (fun d => dev_ID d = id) ds' = filter (fun d => dev_ID d = id) ds
  ∧ hb_lastSynced s' !! id = hb_lastSynced s !! id ∧ hb_statusCache s' = hb_statusCache s ∧ hb_cfg s' = hb_cfg s.
Proof.
  intros Heq. unfold sync_ok, syncStatus. cbn [negb]. rewrite orb_false_r. case_bool_decide; [done|].
  assert (Hni : id ∉ (changed s).*1).
  { intros Hin. apply list_elem_of_fmap in Hin as ([k st] & -> & Hin). apply elem_of_changed in Hin as [Hin Hne].
    cbn in *. rewrite Hin in Heq. done. }
  split_and!; [|by apply synced_out|done|done].
  fold (apply_changes now (changed s) ds). revert ds Hni. generalize (changed s). clear.
  induction l as [|[k st] l IH]; intros ds Hni; [done|]. cbn [apply_changes fold_left fst snd].
  cbn [fmap list_fmap fst] in Hni. apply not_elem_of_cons in Hni as [Hk Hni].
  fold (apply_changes now l (map (on_device k (sync_row now st)) ds)). rewrite IH by done.
  apply filter_map_id; intros d; unfold on_device.
  - intros ->. by rewrite decide_False by congruence.
  - case_decide; [|done]. by cbn.
Qed.

(** The write-back compares the cache with what it wrote itself, not with
    the table.  Once a scan or the lease sweeper has changed a status in the
    table, the verdicts that contradict it never reach the row: while the
    cache and [lastSynced] hold the heartbeat's own verdict, any number of
    ticks with that verdict leaves the row as the other writer set it. *)
Theorem heartbeat_never_corrects_other_writers (b : bool) id nows s ds :
  let st := if b then "online" else "offline" in
  hb_statusCache s !! id = Some st → hb_lastSynced s !! id = Some st →
  filter (fun d => dev_ID d = id) (ticks id b nows s ds).2 = filter (fun d => dev_ID d = id) ds.
Proof.
  cbv zeta. revert s ds. induction nows as [|now nows IH]; intros s ds Hc Hl; [done|]. cbn [ticks].
  assert (Hst : hb_statusCache (applyDeviceVerdict s now id b) !! id = Some (if b then "online" else "offline")
    ∧ hb_lastSynced (applyDeviceVerdict s now id b) !! id = Some (if b then "online" else "offline")).
  { destruct (verdict_step s now id b) as (_ & Hs & _ & -> & _). split; [|done].
    unfold cachedStatus in Hs. rewrite Hc in Hs. cbn in Hs.
    destruct (hb_statusCache (applyDeviceVerdict s now id b) !! id); cbn in Hs;
      destruct b, (fails s id + 1 <? threshold s); congruence. }
  destruct Hst as [Hc1 Hl1].
  pose proof (sync_ok_untouched (applyDeviceVerdict s now id b) ds now id) as Hu.
  destruct (sync_ok now (applyDeviceVerdict s now id b) ds) as [s' ds'].
  destruct Hu as (Hf & Hls & Hsc & _); [by rewrite Hc1, Hl1|].
  rewrite IH; [done|by rewrite Hsc|by rewrite Hls].
Qed.

(** The service considers device 7 offline and has written that; a scan then set
    the row online; the probes keep failing. *)
Lemma heartbeat_never_corrects_other_writers_witness :
  filter (fun d => dev_ID d = 7)
    (ticks 7 false [100; 200; 300; 400; 500; 600; 700] (sync_ok 60 svc7 [dev7]).1 [dev7]).2 = [dev7].
Proof.
  apply (heartbeat_never_corrects_other_writers false 7 [100; 200; 300; 400; 500; 600; 700]
           (sync_ok 60 svc7 [dev7]).1 [dev7]); vm_compute; reflexivity.
Defined.

(** * Offline backoff *)

Definition at_tick (s : HeartbeatService) (t : Z) : HeartbeatService :=
  mkHbService (hb_cfg s) (hb_store s) (hb_started s) (hb_stopped s) (hb_failCounts s) (hb_statusCache s)
    (hb_lastSynced s) (hb_lastProbe s) t (hb_lastOnlineSample s).

(** A device cached offline that is due is still probed: in every window of
    [backoff] consecutive ticks exactly one selects it, so the backoff delays
    the discovery of its return by less than [backoff] ticks. *)
Theorem offline_probed_once_per_window s now configs id t :
  0 < cfg_OfflineBackoffTicks (hb_cfg s) →
  cachedStatus s id = "offline" →
  existsb (fun c => isDue s now (pc_cfg c)) (configs_of configs id) = true →
  exists! k, 0 ≤ k < cfg_OfflineBackoffTicks (hb_cfg s) ∧ selected (at_tick s (t + k)) now configs id = true.
Proof.
  intros Hb Hoff Hdue. set (n := cfg_OfflineBackoffTicks (hb_cfg s)) in *.
  assert (Hsel : ∀ k, selected (at_tick s (t + k)) now configs id = ((t + k) `mod` n =? 0)).
  { intros k. unfold selected. cbn [at_tick hb_cfg hb_tickCount]. fold n.
    change (existsb (fun c => isDue (at_tick s (t + k)) now (pc_cfg c)) (configs_of configs id))
      with (existsb (fun c => isDue s now (pc_cfg c)) (configs_of configs id)). rewrite Hdue.
    rewrite (proj2 (Z.ltb_ge n 0)), (proj2 (Z.ltb_lt 0 n)) by lia.
    change (cachedStatus (at_tick s (t + k)) id) with (cachedStatus s id). rewrite Hoff. cbn.
    apply negb_involutive. }
  exists ((- t) `mod` n). split.
  - split; [apply Z.mod_pos_bound; lia|]. rewrite Hsel. apply Z.eqb_eq.
    rewrite Zplus_mod_idemp_r. by rewrite Z.add_opp_diag_r.
  - intros k [Hk Hs]. rewrite Hsel in Hs. apply Z.eqb_eq in Hs.
    symmetry. apply (Z.mod_unique _ _ (- ((t + k) / n))); [lia|].
    pose proof (Z.div_mod (t + k) n). lia.
Qed.

Definition pc7 : probeConfig := mkProbeConfig (mkHbConfig 1 7 "icmp" "10.0.0.7" 30 5 "" "" 1) "10.0.0.7".

Lemma offline_probed_once_per_window_witness :
  exists! k, 0 ≤ k < 10 ∧ selected (at_tick svc7 (123 + k)) 0 [pc7] 7 = true.
Proof.
  apply (offline_probed_once_per_window svc7 0 [pc7] 7 123); [vm_compute; reflexivity..].
Defined.

(** * Configurations *)

Definition config_key (r : HeartbeatConfig) : Z * string := (hc_DeviceID r, hc_Method r).

Lemma has_config_true t dev m : has_config t dev m = true ↔ (dev, m) ∈ config_key <$> ct_rows t.
Proof.
  unfold has_config. rewrite existsb_exists, list_elem_of_fmap. split.
  - intros (r & Hr & H). apply andb_true_iff in H as [H1 H2]. apply Z.eqb_eq in H1. apply String.eqb_eq in H2.
    exists r. unfold config_key. rewrite H1, H2. split; [done|by apply list_elem_of_In].
  - intros (r & [= -> ->] & Hr). exists r. rewrite Z.eqb_refl, String.eqb_refl. split; [by apply list_elem_of_In|done].
Qed.

Lemma create_if_absent_keys t dev sp :
  let t' := CreateHeartbeatConfigIfAbsent t dev sp in
  (NoDup (config_key <$> ct_rows t) → NoDup (config_key <$> ct_rows t'))
  ∧ has_config t' dev (sp_Method sp) = true ∧ (∃ l, ct_rows t' = ct_rows t ++ l)
  ∧ ∀ m, has_config t dev m = true → has_config t' dev m = true.
Proof.
  cbv zeta. unfold CreateHeartbeatConfigIfAbsent. destruct (has_config t dev (sp_Method sp)) eqn:E.
  { split_and!; [done|done|exists []; by rewrite app_nil_r|done]. }
  assert (Hk : config_key <$> ct_rows (insert_config t dev sp) = (config_key <$> ct_rows t) ++ [(dev, sp_Method sp)])
    by (cbn; by rewrite fmap_app).
  split_and!.
  - intros Hnd. rewrite Hk. apply list.NoDup_app. split_and!; [done| |apply NoDup_singleton].
    intros k Hin Hk'. apply list_elem_of_singleton in Hk' as ->. apply has_config_true in Hin. congruence.
  - apply has_config_true. rewrite Hk. set_solver.
  - by eexists.
  - intros m. rewrite !has_config_true, Hk. set_solver.
Qed.

Lemma create_configs_keys ok dev specs : ∀ t seen t' e,
  create_configs ok t dev seen specs = (t', e) →
  (∀ m, m ∈ seen → has_config t dev m = true) →
  (NoDup (config_key <$> ct_rows t) → NoDup (config_key <$> ct_rows t'))
  ∧ (∃ l, ct_rows t' = ct_rows t ++ l)
  ∧ (∀ m, has_config t dev m = true → has_config t' dev m = true)
  ∧ (e = None → ∀ sp, sp ∈ specs → has_config t' dev (sp_Method sp) = true).
Proof.
  induction specs as [|sp specs IH]; intros t seen t' e H Hseen; cbn [create_configs] in H.
  { injection H as <- <-. split_and!; [done|exists []; by rewrite app_nil_r|done|]. intros _ sp Hs. by apply elem_of_nil in Hs. }
  destruct (negb (bool_decide (sp_Method sp ∈ validMethods))).
  { injection H as <- <-. split_and!; [done|exists []; by rewrite app_nil_r|done|done]. }
  destruct (decide (sp_Method sp ∈ seen)) as [Hin|Hin].
  { destruct (IH _ _ _ _ H Hseen) as (H1 & H2 & H3 & H4). split_and!; [done..|].
    intros He x Hx. apply elem_of_cons in Hx as [->|Hx]; auto. }
  destruct (negb (ok (sp_Method sp))).
  { injection H as <- <-. split_and!; [done|exists []; by rewrite app_nil_r|done|done]. }
  destruct (create_if_absent_keys t dev sp) as (K1 & K2 & (l & K3) & K4).
  destruct (IH _ _ _ _ H) as (H1 & (l' & H2) & H3 & H4).
  { intros m Hm. apply elem_of_cons in Hm as [->|Hm]; auto. }
  split_and!; [auto|exists (l ++ l'); by rewrite H2, K3, app_assoc|auto|].
  intros He x Hx. apply elem_of_cons in Hx as [->|Hx]; auto.
Qed.

Lemma create_configs_noop ok dev specs : ∀ t seen,
  (∀ sp, sp ∈ specs → has_config t dev (sp_Method sp) = true) →
  (create_configs ok t dev seen specs).1 = t.
Proof.
  induction specs as [|sp specs IH]; intros t seen H; cbn [create_configs]; [done|].
  destruct (negb (bool_decide _)); [done|].
  assert (Hsp : CreateHeartbeatConfigIfAbsent t dev sp = t)
    by (unfold CreateHeartbeatConfigIfAbsent; by rewrite (H sp ltac:(set_solver))).
  case_decide; [|destruct (negb (ok (sp_Method sp))); [done|rewrite Hsp]]; apply IH; set_solver.
Qed.

(** Seeding heartbeat configs respects the table's uniqueness of device and
    method, only appends, covers every requested method when it succeeds, and
    is idempotent: a rescan with the same specs changes nothing. *)
Theorem CreateConfigs_idempotent ok t dev specs t' e :
  NoDup (config_key <$> ct_rows t) → CreateConfigs ok t dev specs = (t', e) →
  NoDup (config_key <$> ct_rows t')
  ∧ (∃ l, ct_rows t' = ct_rows t ++ l)
  ∧ (e = None → (∀ sp, sp ∈ specs → has_config t' dev (sp_Method sp) = true)
                ∧ (CreateConfigs ok t' dev specs).1 = t').
Proof.
  intros Hnd H. destruct (create_configs_keys ok dev specs t [] t' e H) as (H1 & H2 & _ & H4).
  { intros m Hm. by apply elem_of_nil in Hm. }
  split_and!; [auto|done|]. intros He. specialize (H4 He). split; [done|]. by apply create_configs_noop.
Qed.

Lemma CreateConfigs_idempotent_witness :
  ∃ t', CreateConfigs (fun _ => true) (mkConfigs [] 1) 7
          [mkSpec "icmp" "10.0.0.7" 30 5 "" ""; mkSpec "tcp" "10.0.0.7:22" 30 5 "" "";
           mkSpec "icmp" "10.0.0.7" 30 5 "" ""] = (t', None)
  ∧ NoDup (config_key <$> ct_rows t') ∧ length (ct_rows t') = 2%nat.
Proof.
  eexists. split_and!; [reflexivity| |reflexivity].
  apply (CreateConfigs_idempotent (fun _ => true) (mkConfigs [] 1) 7
          [mkSpec "icmp" "10.0.0.7" 30 5 "" ""; mkSpec "tcp" "10.0.0.7:22" 30 5 "" "";
           mkSpec "icmp" "10.0.0.7" 30 5 "" ""] _ None); [apply NoDup_nil_2|reflexivity].
Defined.
