(* ===== verification/Dispatcher.v ===== *)
(** Notification delivery (src/internal/service/notification/dispatcher.go and
    types.go): the bounded queue, the attempts of a worker with their retry
    classification, the delayed-retry set and its sweeper, the log rows.

    Metadata is kept as the decoded object: [encoding/json] prints it and
    parses it back.  What a sender answers at each attempt, whether the job's
    context is cancelled during a delay, whether an insert into
    notification_logs succeeds, and the clocks are arguments. *)

From S2P Require Import Prelude Db.
From Stdlib Require Import Permutation.

Open Scope Z_scope.

(** * Payloads and results *)

Inductive meta_value := MetaString (s : string) | MetaInt (n : Z).

#[export] Instance meta_value_eq_dec : EqDecision meta_value.
Proof. solve_decision. Defined.

Record Payload := mkPayload {
  p_Subject : string;
  p_Body : string;
  p_Recipient : string;
  p_Metadata : option (gmap string meta_value)    (* [None]: empty raw message *)
}.

Record SendResult := mkSendResult { sr_Success : bool; sr_Error : string; sr_Permanent : bool }.

Definition containsAny (s : string) (substrs : list string) : bool :=
  existsb (fun sub => negb (bool_decide (sub = "")) && contains_str sub s) substrs.

Definition permanent_markers : list string :=
  ["authentication"; "auth"; "535"; "550"; "553"; "recipient"; "invalid"; "malformed"].

Definition IsRetryable (r : SendResult) : bool :=
  if sr_Success r || sr_Permanent r then false
  else if decide (sr_Error r = "") then false
  else negb (containsAny (sr_Error r) permanent_markers).

(** * State *)

Record dispatchJob := mkJob {
  j_channel : string;
  j_config : string;
  j_payload : Payload;
  j_ruleID : option Z;
  j_channelID : Z;
  j_firstAttempt : Z;
  j_backoff : Z
}.

(** A row of notification_logs, with the payload it serialises. *)
Record log_row := mkLogRow {
  lg_ruleID : option Z;
  lg_channelID : Z;
  lg_status : string;
  lg_payload : Payload;
  lg_error : string
}.

Record Dispatcher := mkDispatcher {
  d_queue : list dispatchJob;
  d_delayed : list (dispatchJob * Z);      (* job, next requeue attempt *)
  d_logs : list log_row;                   (* rows of notification_logs *)
  d_unlogged : list log_row;               (* outcomes whose insert failed: a line of the process log only *)
  d_retryWindow : Z;
  d_sweepInterval : Z;
  d_firstDelay : Z;
  d_maxDelay : Z
}.

Definition dispatch_buffer : nat := 100.
Definition maxRetries : nat := 3.
Definition retrySweepIntervalDefault : Z := 15 * nanos_per_second.
Definition retryFirstDelayDefault : Z := 30 * nanos_per_second.
Definition retryMaxDelayDefault : Z := 5 * minute.

Definition NewDispatcher : Dispatcher :=
  mkDispatcher [] [] [] [] 0 retrySweepIntervalDefault retryFirstDelayDefault retryMaxDelayDefault.

Definition WithRetryWindow (window : Z) (d : Dispatcher) : Dispatcher :=
  mkDispatcher (d_queue d) (d_delayed d) (d_logs d) (d_unlogged d) (if window <? 0 then 0 else window)
    (d_sweepInterval d) (d_firstDelay d) (d_maxDelay d).

Definition set_queues (d : Dispatcher) (q : list dispatchJob) (dl : list (dispatchJob * Z)) : Dispatcher :=
  mkDispatcher q dl (d_logs d) (d_unlogged d) (d_retryWindow d) (d_sweepInterval d) (d_firstDelay d) (d_maxDelay d).

(** [logResult]: the row is inserted, or [CreateNotificationLog] fails and only
    the process log says so. *)
Definition logResult (ok : bool) (ruleID : option Z) (channelID : Z) (status : string) (payload : Payload)
    (errMsg : string) (d : Dispatcher) : Dispatcher :=
  let row := mkLogRow ruleID channelID status payload errMsg in
  mkDispatcher (d_queue d) (d_delayed d)
    (if ok then d_logs d ++ [row] else d_logs d)
    (if ok then d_unlogged d else d_unlogged d ++ [row])
    (d_retryWindow d) (d_sweepInterval d) (d_firstDelay d) (d_maxDelay d).

(** The answers of the database to the inserts: [ins k] is whether the insert
    made after [k] earlier outcomes goes through. *)
Definition outcomes (d : Dispatcher) : nat := (length (d_logs d) + length (d_unlogged d))%nat.

(** [logResult] for a job with the context [ctx] of that job; [done] is whether
    it is known to be cancelled, in which case the statement is refused. *)
Definition log_job (ins : nat → bool) (done : bool) (j : dispatchJob) (status errMsg : string) (d : Dispatcher)
    : Dispatcher :=
  logResult (negb done && ins (outcomes d)) (j_ruleID j) (j_channelID j) status (j_payload j) errMsg d.

(** * Dispatch *)

Definition Dispatch (ins : nat → bool) (channelType config : string) (payload : Payload) (ruleID : option Z) (channelID : Z)
    (now : Z) (d : Dispatcher) : Dispatcher :=
  let job := mkJob channelType config payload ruleID channelID now 0 in
  if (length (d_queue d) <? dispatch_buffer)%nat
  then set_queues d (d_queue d ++ [job]) (d_delayed d)
  else log_job ins false job "failed" "dispatch queue full" d.

(** * Workers *)

(** How the ladder of attempts ends. *)
Inductive ladder_end :=
| LadderSent
| LadderCancelled                    (* the job's context ended during a delay *)
| LadderFailed (msg : string)        (* permanent *)
| LadderExhausted (last : SendResult).

(** Attempts [i, i+1, …]; [send i] is the answer at attempt [i], [cancelled i]
    whether the context is done in the delay before it. *)
Fixpoint ladder (fuel i : nat) (send : nat → SendResult) (cancelled : nat → bool) (last : SendResult) : ladder_end :=
  match fuel with
  | O => LadderExhausted last
  | S fuel =>
      if negb (Nat.eqb i 0) && cancelled i then LadderCancelled
      else
        let result := send i in
        if sr_Success result then LadderSent
        else if negb (IsRetryable result) then LadderFailed (sr_Error result)
        else ladder fuel (S i) send cancelled result
  end.

Definition next_backoff (d : Dispatcher) (backoff : Z) : Z :=
  if backoff =? 0 then d_firstDelay d
  else if backoff <? d_maxDelay d then
    (let b := backoff * 2 in if d_maxDelay d <? b then d_maxDelay d else b)
  else backoff.

(** [processJob]: [factory_err] is the sender factory's error; [now] the clock
    after the ladder.  A cancellation is recorded with the cancelled context. *)
Definition processJob (ins : nat → bool) (factory_err : option string) (send : nat → SendResult)
    (cancelled : nat → bool) (now : Z) (job : dispatchJob) (d : Dispatcher) : Dispatcher :=
  match factory_err with
  | Some e => log_job ins false job "failed" e d
  | None =>
      match ladder maxRetries 0 send cancelled (mkSendResult false "" false) with
      | LadderSent => log_job ins false job "sent" "" d
      | LadderCancelled => log_job ins true job "failed" "context cancelled during retry" d
      | LadderFailed e => log_job ins false job "failed" e d
      | LadderExhausted lastResult =>
          if (0 <? d_retryWindow d) && IsRetryable lastResult && (now - j_firstAttempt job <? d_retryWindow d) then
            let job := mkJob (j_channel job) (j_config job) (j_payload job) (j_ruleID job) (j_channelID job)
                         (j_firstAttempt job) (next_backoff d (j_backoff job)) in
            set_queues d (d_queue d) (d_delayed d ++ [(job, now + j_backoff job)])
          else log_job ins false job "failed" (sr_Error lastResult) d
      end
  end.

(** The worker pool: a worker receives the head of the channel, and keeps the
    job in its hands through the attempts; [po_hands] are the jobs the workers
    hold. *)
Record pool := mkPool { po_dispatcher : Dispatcher; po_hands : list dispatchJob }.

Definition defaultWorkers : nat := 3.

(** A free worker receives from the channel. *)
Definition worker_take (p : pool) : pool :=
  let d := po_dispatcher p in
  match d_queue d with
  | job :: q => if (length (po_hands p) <? defaultWorkers)%nat
                then mkPool (set_queues d q (d_delayed d)) (job :: po_hands p) else p
  | [] => p
  end.

(** The worker that holds the [k]-th job finishes [processJob]. *)
Definition worker_finish (ins : nat → bool) (k : nat) (factory_err : option string) (send : nat → SendResult)
    (cancelled : nat → bool) (now : Z) (p : pool) : pool :=
  match po_hands p !! k with
  | Some job => mkPool (processJob ins factory_err send cancelled now job (po_dispatcher p)) (delete k (po_hands p))
  | None => p
  end.

(** * Delayed retries *)

(** One entry of the delayed map at a sweep: kept, expired, or due. *)
Definition sweep_entry (ins : nat → bool) (now : Z) (acc : Dispatcher * list dispatchJob) (e : dispatchJob * Z)
    : Dispatcher * list dispatchJob :=
  let (d, due) := acc in
  let (job, at_) := e in
  if now <? at_ then (set_queues d (d_queue d) (d_delayed d ++ [e]), due)
  else if d_retryWindow d <=? now - j_firstAttempt job
  then (log_job ins false job "failed" "receiver unreachable: retry window expired" d, due)
  else (d, due ++ [job]).

(** Requeue a due job, or park it for the next sweep when the queue is full. *)
Definition requeue (now : Z) (d : Dispatcher) (job : dispatchJob) : Dispatcher :=
  if (length (d_queue d) <? dispatch_buffer)%nat
  then set_queues d (d_queue d ++ [job]) (d_delayed d)
  else set_queues d (d_queue d) (d_delayed d ++ [(job, now + d_sweepInterval d)]).

(** One tick of [retrySweeper]. *)
Definition retry_sweep (ins : nat → bool) (now : Z) (d : Dispatcher) : Dispatcher :=
  let (d, due) := fold_left (sweep_entry ins now) (d_delayed d) (set_queues d (d_queue d) [], []) in
  fold_left (requeue now) due d.

(** * Properties *)

(** What identifies a notification through queue, delayed set and log. *)
Definition ticket : Type := option Z * Z * Payload.

Definition job_ticket (j : dispatchJob) : ticket := (j_ruleID j, j_channelID j, j_payload j).
Definition log_ticket (r : log_row) : ticket := (lg_ruleID r, lg_channelID r, lg_payload r).

(** Every notification the dispatcher answers for, wherever it is. *)
Definition tickets (d : Dispatcher) : list ticket :=
  map job_ticket (d_queue d) ++ map (fun e => job_ticket e.1) (d_delayed d)
    ++ map log_ticket (d_logs d) ++ map log_ticket (d_unlogged d).

Lemma tickets_log ins done j st e d : tickets (log_job ins done j st e d) ≡ₚ job_ticket j :: tickets d.
Proof.
  unfold tickets, log_job, logResult. destruct (_ && _); cbn [d_queue d_delayed d_logs d_unlogged].
  - rewrite map_app, <- app_assoc. cbn. by rewrite <- !Permutation_middle.
  - rewrite map_app. cbn. rewrite !app_assoc. by rewrite <- Permutation_cons_append.
Qed.

Lemma tickets_queue d q : tickets (set_queues d (d_queue d ++ q) (d_delayed d)) ≡ₚ map job_ticket q ++ tickets d.
Proof.
  unfold tickets. cbn [set_queues d_queue d_delayed d_logs d_unlogged]. rewrite map_app, <- app_assoc.
  by rewrite Permutation_app_swap_app.
Qed.

Lemma tickets_delayed d e :
  tickets (set_queues d (d_queue d) (d_delayed d ++ [e])) ≡ₚ job_ticket e.1 :: tickets d.
Proof.
  unfold tickets. cbn [set_queues d_queue d_delayed d_logs d_unlogged]. rewrite map_app, <- app_assoc. cbn.
  by rewrite <- !Permutation_middle.
Qed.

Lemma tickets_processJob ins fe send cancelled now job d :
  tickets (processJob ins fe send cancelled now job d) ≡ₚ job_ticket job :: tickets d.
Proof.
  unfold processJob. destruct fe; [apply tickets_log|].
  destruct (ladder _ _ _ _ _); [apply tickets_log..|].
  destruct (_ && _ && _); [|apply tickets_log]. apply tickets_delayed.
Qed.

Lemma tickets_sweep_entry ins now d due e :
  tickets (sweep_entry ins now (d, due) e).1 ++ map job_ticket (sweep_entry ins now (d, due) e).2
  ≡ₚ job_ticket e.1 :: tickets d ++ map job_ticket due.
Proof.
  destruct e as [job at_]. unfold sweep_entry. destruct (now <? at_).
  { cbn [fst snd]. by rewrite tickets_delayed. }
  destruct (_ <=? _).
  - cbn [fst snd]. by rewrite tickets_log.
  - cbn [fst snd]. rewrite map_app, app_assoc. cbn. by rewrite <- Permutation_cons_append.
Qed.

Lemma tickets_sweep_loop ins now es : ∀ d due,
  tickets (fold_left (sweep_entry ins now) es (d, due)).1
    ++ map job_ticket (fold_left (sweep_entry ins now) es (d, due)).2
  ≡ₚ map (fun e => job_ticket e.1) es ++ tickets d ++ map job_ticket due.
Proof.
  induction es as [|e es IH]; intros d due; cbn [fold_left]; [done|].
  pose proof (tickets_sweep_entry ins now d due e) as He.
  destruct (sweep_entry ins now (d, due) e) as [d1 due1]. cbn [fst snd] in He.
  rewrite IH, He. cbn. symmetry. apply Permutation_middle.
Qed.

Lemma tickets_requeue now d job : tickets (requeue now d job) ≡ₚ job_ticket job :: tickets d.
Proof.
  unfold requeue. destruct (_ <? _)%nat; [by rewrite tickets_queue|apply tickets_delayed].
Qed.

Lemma tickets_requeue_loop now js : ∀ d,
  tickets (fold_left (requeue now) js d) ≡ₚ map job_ticket js ++ tickets d.
Proof.
  induction js as [|j js IH]; intros d; cbn [fold_left]; [done|].
  rewrite IH, tickets_requeue. cbn. symmetry. apply Permutation_middle.
Qed.

Lemma tickets_retry_sweep ins now d : tickets (retry_sweep ins now d) ≡ₚ tickets d.
Proof.
  unfold retry_sweep.
  pose proof (tickets_sweep_loop ins now (d_delayed d) (set_queues d (d_queue d) []) []) as H.
  destruct (fold_left _ _ _) as [d1 due]. cbn [fst snd] in H. rewrite tickets_requeue_loop.
  rewrite (Permutation_app_comm (map job_ticket due)), H. unfold tickets.
  cbn [set_queues d_queue d_delayed d_logs d_unlogged map]. rewrite app_nil_r. cbn.
  by rewrite Permutation_app_swap_app.
Qed.

(** The dispatcher's life: producers, the worker pool and the sweeper, in any
    order. *)
Inductive dispatcher_action :=
| DDispatch (channelType config : string) (payload : Payload) (ruleID : option Z) (channelID now : Z)
| DTake
| DFinish (hand : nat) (factory_err : option string) (send : nat → SendResult) (cancelled : nat → bool) (now : Z)
| DSweep (now : Z).

Definition dispatcher_step (ins : nat → bool) (p : pool) (a : dispatcher_action) : pool :=
  match a with
  | DDispatch ct cfg pl r c now => mkPool (Dispatch ins ct cfg pl r c now (po_dispatcher p)) (po_hands p)
  | DTake => worker_take p
  | DFinish k fe send cancelled now => worker_finish ins k fe send cancelled now p
  | DSweep now => mkPool (retry_sweep ins now (po_dispatcher p)) (po_hands p)
  end.

(** The notifications handed to the dispatcher by a sequence of actions. *)
Fixpoint submitted (acts : list dispatcher_action) : list ticket :=
  match acts with
  | [] => []
  | DDispatch _ _ p r c _ :: acts => (r, c, p) :: submitted acts
  | _ :: acts => submitted acts
  end.

(** Everything the pool answers for: in a worker's hands, queued, parked,
    recorded, or known to the process log only. *)
Definition held (p : pool) : list ticket := map job_ticket (po_hands p) ++ tickets (po_dispatcher p).

Lemma dispatcher_step_held ins p a :
  held (dispatcher_step ins p a) ≡ₚ submitted [a] ++ held p.
Proof.
  unfold held. destruct p as [d hands].
  destruct a as [ct cfg pl r c now| |k fe send cancelled now|now];
    cbn [dispatcher_step]; unfold worker_take, worker_finish; cbn [po_dispatcher po_hands submitted app].
  - unfold Dispatch. rewrite Permutation_middle. f_equiv.
    destruct (_ <? _)%nat; [by rewrite tickets_queue|by rewrite tickets_log].
  - destruct (d_queue d) as [|job q] eqn:E; [done|]. destruct (_ <? _)%nat; [|done].
    cbn [po_dispatcher po_hands map app]. rewrite Permutation_middle. f_equiv. unfold tickets.
    cbn [set_queues d_queue d_delayed d_logs d_unlogged]. by rewrite E.
  - destruct (hands !! k) as [job|] eqn:E; [|done]. cbn [po_dispatcher po_hands].
    rewrite tickets_processJob, <- Permutation_middle.
    change (job_ticket job :: map job_ticket (delete k hands) ++ tickets d)
      with (map job_ticket (job :: delete k hands) ++ tickets d).
    f_equiv. apply Permutation_map. by rewrite <- delete_Permutation.
  - by rewrite tickets_retry_sweep.
Qed.

(** The outcomes only the process log knows are those whose insert failed. *)
Definition uncancelled (a : dispatcher_action) : Prop :=
  match a with DFinish _ _ _ cancelled _ => ∀ i, cancelled i = false | _ => True end.

Lemma log_job_unlogged (ins : nat → bool) j st e d :
  (∀ k, ins k = true) → d_unlogged (log_job ins false j st e d) = d_unlogged d.
Proof. intros Hins. unfold log_job, logResult. by rewrite Hins. Qed.

Lemma ladder_uncancelled fuel : ∀ i send cancelled last,
  (∀ k, cancelled k = false) → ladder fuel i send cancelled last ≠ LadderCancelled.
Proof.
  induction fuel as [|fuel IH]; intros i send cancelled last Hc; cbn [ladder]; [done|].
  rewrite Hc, andb_false_r. destruct (sr_Success _); [done|]. destruct (negb _); [done|by apply IH].
Qed.

Lemma sweep_loop_unlogged ins now es : (∀ k, ins k = true) → ∀ d due,
  d_unlogged (fold_left (sweep_entry ins now) es (d, due)).1 = d_unlogged d.
Proof.
  intros Hins. induction es as [|[job t] es IH]; intros d due; cbn [fold_left]; [done|].
  cbn [sweep_entry]. destruct (now <? t); [by rewrite IH|].
  destruct (_ <=? _); rewrite IH; [by apply log_job_unlogged|done].
Qed.

Lemma requeue_loop_unlogged now js : ∀ d, d_unlogged (fold_left (requeue now) js d) = d_unlogged d.
Proof.
  induction js as [|j js IH]; intros d; cbn [fold_left]; [done|]. rewrite IH.
  unfold requeue. by destruct (_ <? _)%nat.
Qed.

Lemma dispatcher_step_unlogged (ins : nat → bool) p a :
  (∀ k, ins k = true) → uncancelled a →
  d_unlogged (po_dispatcher (dispatcher_step ins p a)) = d_unlogged (po_dispatcher p).
Proof.
  intros Hins Hc. destruct p as [d hands].
  destruct a as [ct cfg pl r c now| |k fe send cancelled now|now];
    cbn [dispatcher_step]; unfold worker_take, worker_finish; cbn [po_dispatcher po_hands].
  - unfold Dispatch. destruct (_ <? _)%nat; [done|by apply log_job_unlogged].
  - destruct (d_queue d); [done|]. by destruct (_ <? _)%nat.
  - destruct (hands !! k); [|done]. cbn [po_dispatcher]. unfold processJob.
    destruct fe; [by apply log_job_unlogged|].
    destruct (ladder _ _ _ _ _) eqn:El; [by apply log_job_unlogged| |by apply log_job_unlogged|].
    + by apply ladder_uncancelled in El.
    + destruct (_ && _ && _); [done|by apply log_job_unlogged].
  - unfold retry_sweep.
    pose proof (sweep_loop_unlogged ins now (d_delayed d) Hins (set_queues d (d_queue d) []) []) as H.
    destruct (fold_left _ _ _) as [d1 due]. cbn [fst po_dispatcher] in *. by rewrite requeue_loop_unlogged, H.
Qed.

(** C34.  No notification is lost or duplicated inside the dispatcher.  Whatever the
    order of dispatches (to a full queue too), of the workers taking and
    finishing jobs with any outcome, and of retry sweeps, and whichever inserts
    into notification_logs fail, each submitted notification is in exactly one
    place: a worker's hands, the queue, the delayed set, the log table, or
    among the outcomes whose insert failed.  When every insert works and no
    delivery is cancelled during its delays the last place stays empty, so
    each finished notification has its row. *)
Theorem dispatcher_conserves ins acts p :
  let p' := fold_left (dispatcher_step ins) acts p in
  held p' ≡ₚ submitted acts ++ held p
  ∧ ((∀ k, ins k = true) → Forall uncancelled acts →
     d_unlogged (po_dispatcher p') = d_unlogged (po_dispatcher p)).
Proof.
  cbv zeta. revert p. induction acts as [|a acts IH]; intros p; cbn [fold_left]; [done|].
  destruct (IH (dispatcher_step ins p a)) as [IH1 IH2]. split.
  - rewrite IH1, dispatcher_step_held. rewrite app_assoc. f_equiv.
    rewrite (Permutation_app_comm (submitted acts)). by destruct a.
  - intros Hins Hc. apply list.Forall_cons in Hc as [Ha Hc]. rewrite IH2 by done.
    by apply dispatcher_step_unlogged.
Qed.

(** The row that should say that a delivery was cancelled is written with the
    cancelled context, so no database ever holds it. *)
Theorem cancellation_not_recorded ins send cancelled now job d :
  sr_Success (send 0%nat) = false → IsRetryable (send 0%nat) = true → cancelled 1%nat = true →
  d_logs (processJob ins None send cancelled now job d) = d_logs d.
Proof.
  intros Hs Hr Hc. unfold processJob, maxRetries. cbn [ladder Nat.eqb negb andb]. by rewrite Hs, Hr, Hc.
Qed.

Lemma cancellation_not_recorded_witness :
  let timeout := mkSendResult false "i/o timeout" false in
  d_logs (processJob (fun _ => true) None (fun _ => timeout) (fun _ => true) 0
            (mkJob "webhook" "{}" (mkPayload "s" "b" "" None) None 1 0 0) NewDispatcher) = [].
Proof. intros timeout. by rewrite cancellation_not_recorded. Defined.

(** A parked entry whose time has come although its window is over. *)
Definition expired (window now : Z) (e : dispatchJob * Z) : Prop :=
  e.2 ≤ now ∧ window ≤ now - j_firstAttempt e.1.

Definition expiry_row (j : dispatchJob) : log_row :=
  mkLogRow (j_ruleID j) (j_channelID j) "failed" (j_payload j) "receiver unreachable: retry window expired".

(** The outcomes reported so far, recorded or not. *)
Definition reported (d : Dispatcher) : list log_row := d_logs d ++ d_unlogged d.

Lemma reported_log ins done j st e d r :
  r ∈ reported (log_job ins done j st e d) ↔ r = mkLogRow (j_ruleID j) (j_channelID j) st (j_payload j) e ∨ r ∈ reported d.
Proof. unfold reported, log_job, logResult. destruct (_ && _); cbn [d_logs d_unlogged]; set_solver. Qed.

Lemma sweep_loop_entries ins now es : ∀ d due,
  let (d', due') := fold_left (sweep_entry ins now) es (d, due) in
  d_retryWindow d' = d_retryWindow d ∧ d_sweepInterval d' = d_sweepInterval d
  ∧ (∀ r, r ∈ reported d → r ∈ reported d')
  ∧ (∀ e, e ∈ es → expired (d_retryWindow d) now e → expiry_row e.1 ∈ reported d')
  ∧ (∀ e, e ∈ d_delayed d' → e ∈ d_delayed d ∨ (e ∈ es ∧ now < e.2))
  ∧ (∀ j, j ∈ due' → j ∈ due ∨ now - j_firstAttempt j < d_retryWindow d).
Proof.
  induction es as [|[job t] es IH]; intros d due; cbn [fold_left].
  { split_and!; [done|done|done| | |]; intros; (set_solver || by left). }
  cbn [sweep_entry]. destruct (Z.ltb_spec now t) as [Hlt|Hge].
  { specialize (IH (set_queues d (d_queue d) (d_delayed d ++ [(job, t)])) due).
    destruct (fold_left _ _ _) as [d' due']. destruct IH as (Hw & Hs & Hl & He & Hd & Hj).
    cbn [set_queues d_retryWindow d_sweepInterval d_delayed] in *. split_and!; [done|done|done| | |done].
    - intros e Hin Hex. apply elem_of_cons in Hin as [->|Hin]; [destruct Hex; cbn in *; lia|by apply He].
    - intros e Hin. destruct (Hd e Hin) as [Hi|[Hi Hi']]; [|right; split; [by right|done]].
      apply elem_of_app in Hi as [Hi|Hi]; [by left|]. apply list_elem_of_singleton in Hi as ->.
      right. split; [left|done]. }
  destruct (Z.leb_spec (d_retryWindow d) (now - j_firstAttempt job)) as [Hw|Hw].
  - specialize (IH (log_job ins false job "failed" "receiver unreachable: retry window expired" d) due).
    destruct (fold_left _ _ _) as [d' due']. destruct IH as (Hw' & Hs & Hl & He & Hd & Hj).
    change (d_delayed (log_job _ _ _ _ _ _)) with (d_delayed d) in Hd.
    split_and!; [done|done| | | |done].
    + intros r Hr. apply Hl, reported_log. by right.
    + intros e Hin Hex. apply elem_of_cons in Hin as [->|Hin]; [|by apply He].
      apply Hl, reported_log. by left.
    + intros e Hin. destruct (Hd e Hin) as [Hi|[Hi Hi']]; [by left|right; split; [by right|done]].
  - specialize (IH d (due ++ [job])). destruct (fold_left _ _ _) as [d' due'].
    destruct IH as (Hw' & Hs & Hl & He & Hd & Hj). split_and!; [done|done|done| | |].
    + intros e Hin Hex. apply elem_of_cons in Hin as [->|Hin]; [destruct Hex; cbn in *; lia|by apply He].
    + intros e Hin. destruct (Hd e Hin) as [Hi|[Hi Hi']]; [by left|right; split; [by right|done]].
    + intros j Hin. destruct (Hj j Hin) as [Hi|Hi]; [|by right].
      apply elem_of_app in Hi as [Hi|Hi]; [by left|]. apply list_elem_of_singleton in Hi as ->. by right.
Qed.

Lemma requeue_loop_entries now js : ∀ d,
  reported (fold_left (requeue now) js d) = reported d
  ∧ ∀ e, e ∈ d_delayed (fold_left (requeue now) js d) →
      e ∈ d_delayed d ∨ (e.1 ∈ js ∧ e.2 = now + d_sweepInterval d).
Proof.
  induction js as [|j js IH]; intros d; cbn [fold_left]; [split; [done|by left]|].
  destruct (IH (requeue now d j)) as [Hl Hd].
  assert (Hr : reported (requeue now d j) = reported d ∧ d_sweepInterval (requeue now d j) = d_sweepInterval d
    ∧ ∀ e, e ∈ d_delayed (requeue now d j) → e ∈ d_delayed d ∨ (e.1 = j ∧ e.2 = now + d_sweepInterval d)).
  { unfold requeue. destruct (_ <? _)%nat; cbn; split_and!; try done; [by left|].
    intros e. rewrite elem_of_app, list_elem_of_singleton. intros [?| ->]; auto. }
  destruct Hr as (Hr1 & Hr2 & Hr3). split; [congruence|]. intros e He. rewrite Hr2 in Hd.
  destruct (Hd e He) as [Hi|[Hi Hi']]; [|right; split; [by right|done]].
  destruct (Hr3 e Hi) as [?|[-> ?]]; [by left|]. right. split; [left|done].
Qed.

(** An unreachable receiver is retried only inside the window.  A sweep reports
    the final failure of every parked job that is due with its window over (as
    a row, unless the insert fails); what remains parked is not yet due, or found the queue full with its
    window still open and waits one sweep interval. *)
Theorem retry_window_bounds_effort ins now d :
  let d' := retry_sweep ins now d in
  (∀ e, e ∈ d_delayed d → expired (d_retryWindow d) now e → expiry_row e.1 ∈ reported d')
  ∧ ∀ e, e ∈ d_delayed d' →
      (e ∈ d_delayed d ∧ now < e.2)
      ∨ (now - j_firstAttempt e.1 < d_retryWindow d ∧ e.2 = now + d_sweepInterval d).
Proof.
  cbv zeta. unfold retry_sweep.
  pose proof (sweep_loop_entries ins now (d_delayed d) (set_queues d (d_queue d) []) []) as H.
  destruct (fold_left _ _ _) as [d1 due]. cbn [set_queues d_retryWindow d_sweepInterval d_logs d_delayed] in H.
  destruct H as (Hw & Hs & _ & He & Hd & Hj). destruct (requeue_loop_entries now due d1) as [Hl Hr].
  split.
  - intros e Hin Hex. rewrite Hl. by apply He.
  - intros e Hin. destruct (Hr e Hin) as [Hi|[Hi Ht]].
    + destruct (Hd e Hi) as [Hn|[? ?]]; [by apply elem_of_nil in Hn|by left].
    + right. rewrite <- Hs. split; [|done]. destruct (Hj _ Hi) as [Hn|?]; [by apply elem_of_nil in Hn|done].
Qed.

(** The backoff of a parked job never exceeds the cap. *)
Lemma next_backoff_bound d b :
  0 < d_firstDelay d ≤ d_maxDelay d → 0 ≤ b ≤ d_maxDelay d →
  0 < next_backoff d b ≤ d_maxDelay d ∧ (0 < b < d_maxDelay d → b < next_backoff d b).
Proof.
  intros Hf Hb. unfold next_backoff. destruct (Z.eqb_spec b 0); [lia|].
  destruct (Z.ltb_spec b (d_maxDelay d)); [|lia]. cbv zeta. destruct (Z.ltb_spec (d_maxDelay d) (b * 2)); lia.
Qed.

(** The retry classification searches the error text for bare numbers and
    fragments, so a refused connection to a receiver on port 5500, the very
    outage the delayed retry exists for, counts as a permanent failure: the
    worker gives up after one attempt, whatever the window. *)
Theorem refused_connection_not_retried ins d job now cancelled :
  let refused := mkSendResult false "dial tcp 10.0.0.9:5500: connect: connection refused" false in
  IsRetryable refused = false
  ∧ IsRetryable (mkSendResult false "dial tcp 10.0.0.9:9093: connect: connection refused" false) = true
  ∧ processJob ins None (fun _ => refused) cancelled now job d = log_job ins false job "failed" (sr_Error refused) d.
Proof. split_and!; reflexivity. Qed.
