(* ===== verification/Rules.v ===== *)
(** The notification rule engine and the alert envelope
    (src/internal/service/notification/rule_engine.go, alert_format.go): which
    rules a change_log row fires, their cooldown, the payloads, and the
    receiver-side dedup key.

    [encoding/json] reads the after_data snapshots through the parameters
    [parse_agent] and [parse_probe]; a lookup that fails is [None]; each
    [time.Now] is the argument [now]; [ins] answers the inserts of the
    dispatcher. *)

From S2P Require Import Prelude Db ChangeDetect Dispatcher.

Open Scope Z_scope.

Definition RuleScopeAll : string := "all".
Definition RuleScopeNetwork : string := "network".
Definition RuleScopeDevice : string := "device".

(** * Engine state and database *)

Record RuleEngine := mkEngine {
  re_lastSent : gmap (Z * string) Z;
  re_dispatcher : Dispatcher;
  re_triggered : list Z              (* rules whose last_triggered_at was bumped *)
}.

Definition NewRuleEngine (d : Dispatcher) : RuleEngine := mkEngine ∅ d [].

(** What the engine reads. *)
Record notify_db := mkNotifyDb {
  nd_rules : list NotificationRule;
  nd_channels : list NotificationChannel;
  nd_devices : list Device;
  nd_targets : list ProbeTarget
}.

(** ORDER BY id over the primary key: the table order. *)
Definition ListEnabledRulesByEventType (db : notify_db) (eventType : string) : list NotificationRule :=
  filter (fun r => rule_Enabled r = 1 ∧ rule_EventType r = eventType) (nd_rules db).

Definition GetChannelByID (db : notify_db) (id : Z) : option NotificationChannel :=
  head (filter (fun c => ch_ID c = id) (nd_channels db)).

(** The device of a row: a nil or non-positive entity id, and a failed lookup,
    leave it unresolved. *)
Definition resolve_device (db : notify_db) (row : ChangeLog) : option Device :=
  match cl_EntityID row with
  | Some id => if 0 <? id then head (filter (fun d => dev_ID d = id) (nd_devices db)) else None
  | None => None
  end.

Definition scopeMatches (rule : NotificationRule) (row : ChangeLog) (dev : option Device) : bool :=
  if decide (rule_ScopeType rule = RuleScopeAll) then true
  else if decide (rule_ScopeType rule = RuleScopeNetwork) then
    match rule_ScopeNetworkID rule, cl_NetworkID row with
    | Some a, Some b => a =? b
    | None, None => true
    | _, _ => false
    end
  else if decide (rule_ScopeType rule = RuleScopeDevice) then
    match dev with
    | None => false
    | Some d => if decide (rule_ScopeDeviceUuid rule = "") then false
                else bool_decide (dev_DeviceUuid d = rule_ScopeDeviceUuid rule)
    end
  else false.

Definition cooldownAllows (e : RuleEngine) (now ruleID : Z) (mac : string) (cooldownMinutes : Z) : bool :=
  if cooldownMinutes <=? 0 then true
  else match re_lastSent e !! (ruleID, mac) with
       | None => true
       | Some last => i64 (cooldownMinutes * minute) <=? now - last
       end.

Definition markFired (e : RuleEngine) (now ruleID : Z) (mac : string) : RuleEngine :=
  mkEngine (<[(ruleID, mac) := now]> (re_lastSent e)) (re_dispatcher e) (re_triggered e ++ [ruleID]).

(** The part the three dispatch functions share: resolve the channel, skip a
    missing or disabled one, hand the payload over. *)
Definition dispatch_payload (ins : nat → bool) (db : notify_db) (now : Z) (rule : NotificationRule) (payload : Payload)
    (e : RuleEngine) : RuleEngine :=
  match GetChannelByID db (rule_ChannelID rule) with
  | None => e
  | Some ch =>
      if ch_Enabled ch =? 0 then e
      else mkEngine (re_lastSent e)
             (Dispatch ins (ch_Type ch) (ch_Config ch) payload (Some (rule_ID rule)) (ch_ID ch) now (re_dispatcher e))
             (re_triggered e)
  end.

(** * Payloads *)

Definition nl : string := String (ascii_of_nat 10) "".

Definition eventTitle (changeType : string) : string :=
  if decide (changeType = ChangeTypeDeviceLost) then "Device lost"
  else if decide (changeType = ChangeTypeDeviceRecovered) then "Device recovered"
  else if decide (changeType = ChangeTypeDeviceAdded) then "Device added"
  else if decide (changeType = ChangeTypeDeviceChanged) then "Device changed"
  else if decide (changeType = ChangeTypeSpeaksWithNew) then "New device conversation"
  else if decide (changeType = ChangeTypeListenPortAdded) then "New listening port"
  else "Device event".

Definition device_name (dev : option Device) : string :=
  match dev with
  | None => "unknown device"
  | Some d => if decide (dev_Name d = "") then dev_IpAddress d else dev_Name d
  end.

Definition buildPayload (rule : NotificationRule) (row : ChangeLog) (dev : option Device) : Payload :=
  let devName := device_name dev in
  let devIP := from_option dev_IpAddress "" dev in
  let devMAC := from_option dev_MacAddress "" dev in
  let devType := from_option dev_Type "" dev in
  let detected := format_RFC3339 (cl_DetectedAt row) in
  let meta : gmap string meta_value :=
    {["event_type" := MetaString (cl_ChangeType row); "device_name" := MetaString devName;
      "ip_address" := MetaString devIP; "mac_address" := MetaString devMAC;
      "device_type" := MetaString devType; "rule_id" := MetaInt (rule_ID rule);
      "rule_name" := MetaString (rule_Name rule); "detected_at" := MetaString detected]} in
  mkPayload (eventTitle (cl_ChangeType row) +:+ ": " +:+ devName)
    ("Device: " +:+ devName +:+ nl +:+ "IP: " +:+ devIP +:+ nl +:+ "MAC: " +:+ devMAC +:+ nl +:+
     "Type: " +:+ devType +:+ nl +:+ "Event: " +:+ cl_ChangeType row +:+ nl +:+ "Detected at: " +:+ detected)
    ""
    (Some match cl_NetworkID row with Some n => <["network_id" := MetaInt n]> meta | None => meta end).

Record agentSnap := mkAgentSnap { as_AgentID : string; as_Hostname : string; as_Version : string }.

Record probeSnap := mkProbeSnap {
  ps_TargetName : string; ps_Module : string; ps_Target : string; ps_Vantage : string; ps_Error : string
}.

Definition buildAgentPayload (rule : NotificationRule) (row : ChangeLog) (snap : agentSnap) : Payload :=
  let title := if decide (cl_ChangeType row = ChangeTypeAgentRecovered) then "Agent recovered" else "Agent offline" in
  let name := if decide (as_Hostname snap = "") then as_AgentID snap else as_Hostname snap in
  let detected := format_RFC3339 (cl_DetectedAt row) in
  let meta : gmap string meta_value :=
    {["event_type" := MetaString (cl_ChangeType row); "agent_id" := MetaString (as_AgentID snap);
      "agent_name" := MetaString (as_Hostname snap); "rule_id" := MetaInt (rule_ID rule);
      "rule_name" := MetaString (rule_Name rule); "detected_at" := MetaString detected;
      "source_ref" := MetaString ("agent/" +:+ as_AgentID snap)]} in
  mkPayload (title +:+ ": " +:+ name)
    ("Agent: " +:+ as_AgentID snap +:+ nl +:+ "Hostname: " +:+ as_Hostname snap +:+ nl +:+
     "Version: " +:+ as_Version snap +:+ nl +:+ "Event: " +:+ cl_ChangeType row +:+ nl +:+ "Detected at: " +:+ detected)
    "" (Some meta).

Definition entity_positive (row : ChangeLog) : option Z :=
  match cl_EntityID row with Some id => if 0 <? id then Some id else None | None => None end.

Definition buildProbePayload (rule : NotificationRule) (row : ChangeLog) (snap : probeSnap) : Payload :=
  let title := if decide (cl_ChangeType row = ChangeTypeProbeRecovered) then "Probe recovered" else "Probe failed" in
  let detected := format_RFC3339 (cl_DetectedAt row) in
  let meta : gmap string meta_value :=
    {["event_type" := MetaString (cl_ChangeType row); "target_name" := MetaString (ps_TargetName snap);
      "module" := MetaString (ps_Module snap); "target_address" := MetaString (ps_Target snap);
      "rule_id" := MetaInt (rule_ID rule); "rule_name" := MetaString (rule_Name rule);
      "detected_at" := MetaString detected]} in
  let meta := if decide (ps_Vantage snap = "") then meta else <["vantage" := MetaString (ps_Vantage snap)]> meta in
  let meta := if decide (ps_Error snap = "") then meta else <["error" := MetaString (ps_Error snap)]> meta in
  let meta := match entity_positive row with
              | Some id => <["source_ref" := MetaString ("probe/" +:+ itoa id)]> (<["target_id" := MetaInt id]> meta)
              | None => meta
              end in
  mkPayload (title +:+ ": " +:+ ps_TargetName snap)
    ("Target: " +:+ ps_TargetName snap +:+ nl +:+ "Module: " +:+ ps_Module snap +:+ nl +:+
     "Address: " +:+ ps_Target snap +:+ nl +:+ "Vantage: " +:+ ps_Vantage snap +:+ nl +:+
     "Event: " +:+ cl_ChangeType row +:+ nl +:+
     (if decide (ps_Error snap = "") then "" else "Error: " +:+ ps_Error snap +:+ nl) +:+
     "Detected at: " +:+ detected)
    "" (Some meta).

(** * Events *)

Section engine.
Context (parse_agent : string → option agentSnap) (parse_probe : string → option probeSnap).
Context (ins : nat → bool) (db : notify_db).

(** The loop over the rules, shared: [matches], [key] and [payload] are what the
    three entity kinds differ in. *)
Definition fire_rule (now : Z) (matches : NotificationRule → bool) (key : string)
    (payload : NotificationRule → Payload) (e : RuleEngine) (rule : NotificationRule) : RuleEngine :=
  if negb (matches rule) then e
  else if negb (cooldownAllows e now (rule_ID rule) key (rule_CooldownMinutes rule)) then e
  else markFired (dispatch_payload ins db now rule (payload rule) e) now (rule_ID rule) key.

Definition handleDeviceEvent (now : Z) (row : ChangeLog) (e : RuleEngine) : RuleEngine :=
  let rules := ListEnabledRulesByEventType db (cl_ChangeType row) in
  let dev := resolve_device db row in
  fold_left (fire_rule now (fun rule => scopeMatches rule row dev) (from_option dev_MacAddress "" dev)
               (fun rule => buildPayload rule row dev)) rules e.

Definition all_scope (rule : NotificationRule) : bool := bool_decide (rule_ScopeType rule = RuleScopeAll).

Definition agentEventTarget (row : ChangeLog) : agentSnap :=
  let unknown := mkAgentSnap "unknown-agent" "" "" in
  let snap := match cl_AfterData row with
              | None => unknown
              | Some t => match parse_agent t with
                          | Some s => if decide (as_AgentID s = "") then unknown else s
                          | None => unknown
                          end
              end in
  match cl_AgentID row with
  | Some a => if decide (as_AgentID snap = "unknown-agent")
              then mkAgentSnap a (as_Hostname snap) (as_Version snap) else snap
  | None => snap
  end.

Definition handleAgentEvent (now : Z) (row : ChangeLog) (e : RuleEngine) : RuleEngine :=
  let rules := ListEnabledRulesByEventType db (cl_ChangeType row) in
  let snap := agentEventTarget row in
  fold_left (fire_rule now all_scope ("agent:" +:+ as_AgentID snap) (fun rule => buildAgentPayload rule row snap))
    rules e.

Definition probeEventTarget (row : ChangeLog) : probeSnap :=
  let unknown := mkProbeSnap "unknown target" "" "" "" "" in
  let snap := match cl_AfterData row with
              | None => unknown
              | Some t => match parse_probe t with
                          | Some s => if decide (ps_TargetName s = "") then unknown else s
                          | None => unknown
                          end
              end in
  match entity_positive row with
  | Some id => match head (filter (fun t => pt_ID t = id) (nd_targets db)) with
               | Some t => mkProbeSnap (pt_Name t) (pt_Module t) (pt_Target t) (ps_Vantage snap) (ps_Error snap)
               | None => snap
               end
  | None => snap
  end.

Definition probe_key (row : ChangeLog) : string :=
  match entity_positive row with Some id => "probe:" +:+ itoa id | None => "probe" end.

Definition handleProbeEvent (now : Z) (row : ChangeLog) (e : RuleEngine) : RuleEngine :=
  let rules := ListEnabledRulesByEventType db (cl_ChangeType row) in
  let snap := probeEventTarget row in
  fold_left (fire_rule now all_scope (probe_key row) (fun rule => buildProbePayload rule row snap)) rules e.

Definition handleEvent (now : Z) (row : ChangeLog) (e : RuleEngine) : RuleEngine :=
  if decide (cl_EntityType row = EntityTypeDevice) then handleDeviceEvent now row e
  else if decide (cl_EntityType row = EntityTypeProbeTarget) then handleProbeEvent now row e
  else if decide (cl_EntityType row = EntityTypeAgent) then handleAgentEvent now row e
  else e.
End engine.

(** * Alert envelope *)

Record alertEnvelope := mkEnvelope {
  ae_Type : string;
  ae_Severity : string;
  ae_Title : string;
  ae_Body : string;
  ae_Source : string;
  ae_SourceRef : string;
  ae_Tags : option (gmap string string);
  ae_Resolved : bool;
  ae_DedupKey : string;
  ae_OccurredAt : string
}.

Definition DefaultAlertSource : string := "mibee-steward".

Definition recoveryDedupType (eventType : string) : option string :=
  if decide (eventType = ChangeTypeDeviceRecovered) then Some ChangeTypeDeviceLost
  else if decide (eventType = ChangeTypeProbeRecovered) then Some ChangeTypeProbeFailed
  else if decide (eventType = ChangeTypeAgentRecovered) then Some ChangeTypeAgentOffline
  else None.

Definition alertSeverity (eventType : string) : string :=
  if bool_decide (eventType ∈ [ChangeTypeDeviceLost; ChangeTypeProbeFailed; ChangeTypeAgentOffline]) then "error"
  else if bool_decide (eventType ∈ [ChangeTypeDeviceRecovered; ChangeTypeDeviceAdded; ChangeTypeProbeRecovered;
                                    ChangeTypeAgentRecovered]) then "info"
  else if bool_decide (eventType ∈ [ChangeTypeDeviceChanged; ChangeTypeSpeaksWithNew; ChangeTypeListenPortAdded;
                                    "device_config_changed"]) then "warning"
  else if decide (eventType = "") then "info"
  else "warning".

Definition metaString (meta : gmap string meta_value) (key : string) : string :=
  match meta !! key with Some (MetaString s) => s | _ => "" end.

(** [fmt.Sprintf("%v", v)] of a decoded member (integers stay below the
    magnitude at which floats print with an exponent). *)
Definition meta_text (v : meta_value) : string :=
  match v with MetaString s => s | MetaInt n => itoa n end.

Definition tag_keys : list string :=
  ["device_name"; "ip_address"; "mac_address"; "device_type"; "target_name"; "target_address"; "module";
   "vantage"; "agent_id"; "agent_name"; "rule_name"].

(** The first non-empty of the identity keys. *)
Fixpoint first_nonempty (meta : gmap string meta_value) (keys : list string) : string :=
  match keys with
  | [] => ""
  | k :: keys => if decide (metaString meta k = "") then first_nonempty meta keys else metaString meta k
  end.

Definition buildAlertEnvelope (p : Payload) (source : string) : alertEnvelope :=
  let source := if decide (source = "") then DefaultAlertSource else source in
  let meta := default ∅ (p_Metadata p) in
  let eventType := metaString meta "event_type" in
  let envelopeType := if decide (eventType = "") then "test" else eventType in
  let sourceRef := first_nonempty meta ["source_ref"; "mac_address"; "ip_address"; "device_name"] in
  let resolved := has_suffix "_recovered" eventType in
  let dedupType := default envelopeType (recoveryDedupType eventType) in
  let tags := fold_left (fun m k => if decide (metaString meta k = "") then m else <[k := metaString meta k]> m)
                tag_keys (∅ : gmap string string) in
  let tags := match meta !! "network_id" with Some v => <["network_id" := meta_text v]> tags | None => tags end in
  mkEnvelope envelopeType (alertSeverity eventType) (p_Subject p) (p_Body p) source sourceRef
    (if decide (tags = ∅) then None else Some tags) resolved
    (source +:+ "/" +:+ dedupType +:+ "/" +:+ sourceRef) (metaString meta "detected_at").
