(* ===== verification/RulesSpec.v ===== *)
(** Properties of the rule engine and of the alert envelope. *)

From S2P Require Import Prelude Db ChangeDetect LeaseSpec Dispatcher Rules.
From stdpp Require Import sorting.

Open Scope Z_scope.

(** * One event *)

Section engine_spec.
Context (ins : nat → bool) (db : notify_db).

(** What one rule hands to the dispatcher. *)
Definition deliver (now : Z) (payload : NotificationRule → Payload) (d : Dispatcher) (rule : NotificationRule)
    : Dispatcher :=
  match GetChannelByID db (rule_ChannelID rule) with
  | Some ch => if ch_Enabled ch =? 0 then d
               else Dispatch ins (ch_Type ch) (ch_Config ch) (payload rule) (Some (rule_ID rule)) (ch_ID ch) now d
  | None => d
  end.

Definition fires (e : RuleEngine) (now : Z) (matches : NotificationRule → bool) (key : string)
    (rule : NotificationRule) : bool :=
  matches rule && cooldownAllows e now (rule_ID rule) key (rule_CooldownMinutes rule).

Lemma fire_rule_effect now matches key payload e rule :
  fire_rule ins db now matches key payload e rule =
  if fires e now matches key rule
  then mkEngine (<[(rule_ID rule, key) := now]> (re_lastSent e)) (deliver now payload (re_dispatcher e) rule)
         (re_triggered e ++ [rule_ID rule])
  else e.
Proof.
  unfold fire_rule, fires. destruct (matches rule); [|done]. destruct (cooldownAllows _ _ _ _ _); [|done].
  unfold markFired, dispatch_payload, deliver. cbn. destruct (GetChannelByID _ _) as [ch|]; [|done].
  by destruct (ch_Enabled ch =? 0).
Qed.

Lemma fire_rules_loop now matches key payload rules : ∀ e,
  NoDup (rule_ID <$> rules) →
  let fired := filter (fun r => fires e now matches key r = true) rules in
  let e' := fold_left (fire_rule ins db now matches key payload) rules e in
  re_triggered e' = re_triggered e ++ (rule_ID <$> fired)
  ∧ re_dispatcher e' = fold_left (deliver now payload) fired (re_dispatcher e)
  ∧ (∀ r, r ∈ fired → re_lastSent e' !! (rule_ID r, key) = Some now)
  ∧ ∀ k, (∀ r, r ∈ fired → (rule_ID r, key) ≠ k) → re_lastSent e' !! k = re_lastSent e !! k.
Proof.
  induction rules as [|r rules IH]; intros e Hnd; cbn [fold_left].
  { cbv zeta. rewrite filter_nil. cbn. rewrite app_nil_r. split_and!; [done..| |done]. intros r Hr. by apply elem_of_nil in Hr. }
  cbn in Hnd. apply list.NoDup_cons in Hnd as [Hr Hnd]. rewrite fire_rule_effect, filter_cons.
  destruct (fires e now matches key r) eqn:E.
  2: { rewrite decide_False by congruence. by apply IH. }
  rewrite decide_True by done.
  set (e1 := mkEngine _ _ _).
  assert (Hf : filter (fun x => fires e1 now matches key x = true) rules
             = filter (fun x => fires e now matches key x = true) rules).
  { clear IH. induction rules as [|x rules IHr]; [done|]. cbn in Hr, Hnd.
    apply not_elem_of_cons in Hr as [Hx Hr]. apply list.NoDup_cons in Hnd as [_ Hnd].
    rewrite !filter_cons, IHr by done.
    assert (Hx' : fires e1 now matches key x = fires e now matches key x); [|by rewrite Hx'].
    unfold fires, cooldownAllows. cbn [e1 re_lastSent]. rewrite lookup_insert_ne; [done|congruence]. }
  destruct (IH e1 Hnd) as (H1 & H2 & H3 & H4). rewrite Hf in *. cbn [fold_left fmap list_fmap].
  split_and!.
  - rewrite H1. cbn. by rewrite <- app_assoc.
  - rewrite H2. done.
  - intros x Hx. apply elem_of_cons in Hx as [->|Hx]; [|by apply H3].
    destruct (decide (rule_ID r ∈ rule_ID <$> filter (fun x => fires e now matches key x = true) rules)) as [Hin|Hin].
    + exfalso. apply Hr. apply list_elem_of_fmap in Hin as (y & -> & Hy). apply list_elem_of_fmap_2.
      by apply list_elem_of_filter in Hy as [_ Hy].
    + rewrite H4; [cbn; by rewrite lookup_insert_eq|]. intros y Hy [= Heq]. apply Hin. rewrite <- Heq.
      by apply list_elem_of_fmap_2.
  - intros k Hk. rewrite H4; [|intros y Hy; apply Hk; by right]. cbn.
    rewrite lookup_insert_ne; [done|]. apply Hk. left.
Qed.

(** The rules a device event fires: enabled, of its type, in scope, and out of
    their cooldown for the device when the event arrives. *)
Definition fired_rules (e : RuleEngine) (now : Z) (row : ChangeLog) : list NotificationRule :=
  let dev := resolve_device db row in
  filter (fun r => fires e now (fun rule => scopeMatches rule row dev) (from_option dev_MacAddress "" dev) r = true)
    (ListEnabledRulesByEventType db (cl_ChangeType row)).

(** What a device event does, in terms of the state before it: one rule's
    firing never affects another's. *)
Lemma handleDeviceEvent_effect now row e :
  NoDup (rule_ID <$> nd_rules db) →
  let dev := resolve_device db row in
  let mac := from_option dev_MacAddress "" dev in
  let e' := handleDeviceEvent ins db now row e in
  re_triggered e' = re_triggered e ++ (rule_ID <$> fired_rules e now row)
  ∧ re_dispatcher e' = fold_left (deliver now (fun r => buildPayload r row dev)) (fired_rules e now row) (re_dispatcher e)
  ∧ (∀ r, r ∈ fired_rules e now row → re_lastSent e' !! (rule_ID r, mac) = Some now)
  ∧ ∀ k, (∀ r, r ∈ fired_rules e now row → (rule_ID r, mac) ≠ k) → re_lastSent e' !! k = re_lastSent e !! k.
Proof.
  intros Hnd dev mac e'. apply fire_rules_loop. eapply sublist_NoDup; [exact Hnd|].
  apply fmap_sublist, sublist_filter.
Qed.
End engine_spec.

(** * A life of the engine *)

(** One event as the engine meets it: the tables it reads, the clock, the row. *)
Record device_event := mkEvent { ev_db : notify_db; ev_now : Z; ev_row : ChangeLog }.

Definition event_device (ev : device_event) : option Device := resolve_device (ev_db ev) (ev_row ev).

(** The cooldown bucket: the MAC address, empty when there is none. *)
Definition event_mac (ev : device_event) : string := from_option dev_MacAddress "" (event_device ev).

(** What a scope means. *)
Inductive in_scope (rule : NotificationRule) (ev : device_event) : Prop :=
| InAll : rule_ScopeType rule = "all" → in_scope rule ev
| InNetwork : rule_ScopeType rule = "network" → rule_ScopeNetworkID rule = cl_NetworkID (ev_row ev) →
    in_scope rule ev
| InDevice dev : rule_ScopeType rule = "device" → event_device ev = Some dev →
    dev_DeviceUuid dev = rule_ScopeDeviceUuid rule → rule_ScopeDeviceUuid rule ≠ "" → in_scope rule ev.

Lemma scopeMatches_in_scope rule ev :
  scopeMatches rule (ev_row ev) (event_device ev) = true ↔ in_scope rule ev.
Proof.
  unfold scopeMatches, RuleScopeAll, RuleScopeNetwork, RuleScopeDevice. split.
  - destruct (decide _) as [Ha|Ha]; [intros _; by apply InAll|].
    destruct (decide _) as [Hn|Hn]; [intros H; apply InNetwork; [done|]|].
    { destruct (rule_ScopeNetworkID rule), (cl_NetworkID (ev_row ev)); try done. f_equal. lia. }
    destruct (decide _) as [Hd|Hd]; [|done]. destruct (event_device ev) as [dev|] eqn:E; [|done].
    destruct (decide _); [done|]. intros H%bool_decide_eq_true. by eapply InDevice.
  - intros [Ha|Hn Heq|dev Hd He Hu Hne].
    + by rewrite decide_True.
    + rewrite Hn. cbn. rewrite Heq. destruct (cl_NetworkID (ev_row ev)); [apply Z.eqb_refl|done].
    + rewrite Hd, He. rewrite !decide_False by done. rewrite decide_True by done.
      rewrite decide_False by done. by apply bool_decide_eq_true.
Qed.

Section history.
Context (ins : nat → bool) (d : Dispatcher).

Definition handle (e : RuleEngine) (ev : device_event) : RuleEngine :=
  handleDeviceEvent ins (ev_db ev) (ev_now ev) (ev_row ev) e.

Definition engine_after (evs : list device_event) : RuleEngine := fold_left handle evs (NewRuleEngine d).

(** The rules that [ev] triggers after the events [evs]. *)
Definition alerts (evs : list device_event) (ev : device_event) : list Z :=
  drop (length (re_triggered (engine_after evs))) (re_triggered (handle (engine_after evs) ev)).

(** Rule [r] fired at time [t] for the bucket [mac], at one of the events. *)
Definition fired_at (evs : list device_event) (r : Z) (mac : string) (t : Z) : Prop :=
  ∃ pre ev post, evs = pre ++ ev :: post ∧ r ∈ alerts pre ev ∧ event_mac ev = mac ∧ ev_now ev = t.

Definition unique_rules (ev : device_event) : Prop := NoDup (rule_ID <$> nd_rules (ev_db ev)).

Lemma fired_at_nil r mac t : ¬ fired_at [] r mac t.
Proof. intros (pre & ev & post & H & _). by destruct pre. Qed.

Lemma fired_at_snoc evs ev r mac t :
  fired_at (evs ++ [ev]) r mac t ↔
  fired_at evs r mac t ∨ (r ∈ alerts evs ev ∧ event_mac ev = mac ∧ ev_now ev = t).
Proof.
  split.
  - intros (pre & x & post & Heq & H). destruct post as [|y post _] using rev_ind.
    + apply app_inj_tail in Heq as [-> ->]. by right.
    + rewrite app_comm_cons, app_assoc in Heq. apply app_inj_tail in Heq as [-> ->]. left. by exists pre, x, post.
  - intros [(pre & x & post & -> & H)|H].
    + exists pre, x, (post ++ [ev]). split; [by rewrite <- app_assoc|done].
    + by exists evs, ev, [].
Qed.

Definition fired_now (evs : list device_event) (ev : device_event) : list NotificationRule :=
  fired_rules (ev_db ev) (engine_after evs) (ev_now ev) (ev_row ev).

Lemma alerts_fired evs ev : unique_rules ev → alerts evs ev = rule_ID <$> fired_now evs ev.
Proof.
  intros Hu. unfold alerts, handle.
  destruct (handleDeviceEvent_effect ins (ev_db ev) (ev_now ev) (ev_row ev) (engine_after evs) Hu) as (-> & _).
  by rewrite drop_app_length.
Qed.

(** The map of last firings against the events: an entry is a firing, and no
    firing of its bucket is later. *)
Lemma lastSent_history evs :
  Forall unique_rules evs → StronglySorted Z.le (ev_now <$> evs) → ∀ r mac,
  (∀ t, re_lastSent (engine_after evs) !! (r, mac) = Some t → fired_at evs r mac t)
  ∧ ∀ t, fired_at evs r mac t → ∃ t', re_lastSent (engine_after evs) !! (r, mac) = Some t' ∧ t ≤ t'.
Proof.
  induction evs as [|ev evs IH] using rev_ind; intros Hu Hs r mac.
  { split; [done|]. by intros t ?%fired_at_nil. }
  apply Forall_app in Hu as [Hu Hue]. rewrite list.Forall_singleton in Hue.
  rewrite fmap_app in Hs. apply StronglySorted_app in Hs as (Hle & Hs & _).
  destruct (IH Hu Hs r mac) as [IH1 IH2]. unfold engine_after. rewrite fold_left_app. cbn [fold_left].
  change (fold_left handle evs (NewRuleEngine d)) with (engine_after evs).
  destruct (handleDeviceEvent_effect ins (ev_db ev) (ev_now ev) (ev_row ev) (engine_after evs) Hue)
    as (_ & _ & Hin & Hout).
  fold (event_device ev) in Hin, Hout. fold (event_mac ev) in Hin, Hout.
  change (handleDeviceEvent _ _ _ _ _) with (handle (engine_after evs) ev) in Hin, Hout.
  destruct (decide (mac = event_mac ev ∧ r ∈ alerts evs ev)) as [[-> Hr]|Hno].
  - assert (Hl : re_lastSent (handle (engine_after evs) ev) !! (r, event_mac ev) = Some (ev_now ev)).
    { rewrite alerts_fired in Hr by done. apply list_elem_of_fmap in Hr as (rule & -> & Hr). by apply Hin. }
    rewrite Hl. split; [intros t [= <-]; apply fired_at_snoc; by right|].
    intros t Ht. eexists. split; [done|]. apply fired_at_snoc in Ht as [Ht|(_ & _ & <-)]; [|lia].
    destruct Ht as (pre & x & post & -> & _ & _ & <-). apply Hle; [|set_solver].
    rewrite fmap_app, fmap_cons. set_solver.
  - rewrite Hout.
    + split; [intros t Ht; apply fired_at_snoc; left; by apply IH1|].
      intros t Ht. apply fired_at_snoc in Ht as [Ht|(Hr & Hm & _)]; [by apply IH2|]. by destruct Hno.
    + intros rule Hr [= Heq Hm]. apply Hno. split; [done|]. rewrite alerts_fired by done. rewrite <- Heq.
      by apply list_elem_of_fmap_2.
Qed.

(** When a rule should alert: enabled, for this kind of event, in scope, and
    not fired for the same bucket within its cooldown. *)
Definition should_alert (evs : list device_event) (ev : device_event) (rule : NotificationRule) : Prop :=
  rule_Enabled rule = 1 ∧ rule_EventType rule = cl_ChangeType (ev_row ev) ∧ in_scope rule ev
  ∧ ∀ t, fired_at evs (rule_ID rule) (event_mac ev) t → rule_CooldownMinutes rule * minute ≤ ev_now ev - t.

Lemma cooldown_history evs ev rule :
  Forall unique_rules evs → StronglySorted Z.le (ev_now <$> evs ++ [ev]) →
  rule_CooldownMinutes rule * minute < 2 ^ 63 →
  cooldownAllows (engine_after evs) (ev_now ev) (rule_ID rule) (event_mac ev) (rule_CooldownMinutes rule) = true ↔
  ∀ t, fired_at evs (rule_ID rule) (event_mac ev) t → rule_CooldownMinutes rule * minute ≤ ev_now ev - t.
Proof.
  intros Hu Hs Hov. rewrite fmap_app in Hs. apply StronglySorted_app in Hs as (Hle & Hs & _).
  destruct (lastSent_history evs Hu Hs (rule_ID rule) (event_mac ev)) as [H1 H2].
  assert (Hpast : ∀ t, fired_at evs (rule_ID rule) (event_mac ev) t → t ≤ ev_now ev).
  { intros t (pre & x & post & -> & _ & _ & <-). apply Hle; [|set_solver]. rewrite fmap_app, fmap_cons. set_solver. }
  unfold cooldownAllows. destruct (Z.leb_spec (rule_CooldownMinutes rule) 0) as [Hc|Hc].
  { split; [|done]. intros _ t Ht%Hpast. unfold minute, nanos_per_second. lia. }
  rewrite i64_id by (unfold min_int64, max_int64, minute, nanos_per_second in *; lia).
  destruct (re_lastSent _ !! _) as [last|].
  - rewrite Z.leb_le. split; [|intros H; by apply H, H1]. intros Hlast t (t' & [= <-] & Ht)%H2. lia.
  - split; [|done]. intros _ t (t' & [=] & _)%H2.
Qed.

(** C35.  Which alerts a device event raises, against the whole life of the engine.
    After any device events, with a clock that does not run backwards and rule
    ids unique, an event triggers exactly the rules that are enabled for its
    kind, have it in their scope (all; the event's network; the device of that
    uuid) and have not fired for the same MAC bucket within their cooldown at
    any earlier event, although the engine keeps only the last firing of each
    bucket.  They fire in rule order, each is recorded as triggered, and each
    hands one notification to its channel when that exists and is enabled. *)
Theorem device_alerts_exact evs ev :
  Forall unique_rules (evs ++ [ev]) → StronglySorted Z.le (ev_now <$> evs ++ [ev]) →
  Forall (fun r => rule_CooldownMinutes r * minute < 2 ^ 63) (nd_rules (ev_db ev)) →
  let e := engine_after evs in
  let e' := engine_after (evs ++ [ev]) in
  ∃ fired, sublist fired (nd_rules (ev_db ev))
  ∧ (∀ rule, rule ∈ fired ↔ rule ∈ nd_rules (ev_db ev) ∧ should_alert evs ev rule)
  ∧ re_triggered e' = re_triggered e ++ (rule_ID <$> fired)
  ∧ re_dispatcher e' = fold_left (deliver ins (ev_db ev) (ev_now ev) (fun r => buildPayload r (ev_row ev) (event_device ev)))
                         fired (re_dispatcher e).
Proof.
  intros Hu Hs Hov e e'. apply Forall_app in Hu as [Hu Hue]. rewrite list.Forall_singleton in Hue.
  destruct (handleDeviceEvent_effect ins (ev_db ev) (ev_now ev) (ev_row ev) e Hue) as (Ht & Hd & _).
  assert (He : e' = handle e ev) by (unfold e', engine_after; by rewrite fold_left_app).
  exists (fired_now evs ev). rewrite He. split_and!; [|intros rule|done|done].
  - unfold fired_now, fired_rules, ListEnabledRulesByEventType. etrans; apply sublist_filter.
  - unfold fired_now, fired_rules, ListEnabledRulesByEventType, fires, should_alert.
    rewrite !list_elem_of_filter. fold (event_device ev). fold (event_mac ev).
    rewrite andb_true_iff, scopeMatches_in_scope.
    split.
    + intros ([Hsc Hc] & [He1 He2] & Hin). split_and!; try done.
      apply cooldown_history; [done|done| |done]. by eapply list.Forall_forall in Hov.
    + intros (Hin & He1 & He2 & Hsc & Hc). split_and!; try done.
      apply cooldown_history; [done|done| |done]. by eapply list.Forall_forall in Hov.
Qed.
End history.

(** * Cooldown *)

(** A rule whose channel is disabled or missing delivers nothing but still
    burns its cooldown: once the channel works again, events of the same
    device inside the window are silently dropped. *)
Theorem undelivered_rule_burns_cooldown ins db0 db1 rule row0 row1 t0 t1 e :
  nd_rules db0 = [rule] → nd_rules db1 = [rule] →
  0 < rule_CooldownMinutes rule → rule_CooldownMinutes rule * minute < 2 ^ 63 →
  from_option ch_Enabled 0 (GetChannelByID db0 (rule_ChannelID rule)) = 0 →
  from_option dev_MacAddress "" (resolve_device db0 row0) = from_option dev_MacAddress "" (resolve_device db1 row1) →
  fired_rules db0 e t0 row0 = [rule] →
  t1 - t0 < rule_CooldownMinutes rule * minute →
  let e1 := handleDeviceEvent ins db0 t0 row0 e in
  re_dispatcher (handleDeviceEvent ins db1 t1 row1 e1) = re_dispatcher e.
Proof.
  intros H0 H1 Hc Hov Hch Hmac Hf Ht e1.
  destruct (handleDeviceEvent_effect ins db0 t0 row0 e) as (_ & Hd & Hl & _).
  { rewrite H0. apply NoDup_singleton. }
  fold e1 in Hd, Hl. rewrite Hf in Hd, Hl. cbn [fold_left] in Hd. unfold deliver in Hd.
  assert (Hd' : re_dispatcher e1 = re_dispatcher e).
  { rewrite Hd. destruct (GetChannelByID db0 _) as [ch|]; [|done]. cbn in Hch. by rewrite Hch. }
  specialize (Hl rule ltac:(left)).
  destruct (handleDeviceEvent_effect ins db1 t1 row1 e1) as (_ & -> & _).
  { rewrite H1. apply NoDup_singleton. }
  assert (Hn : fired_rules db1 e1 t1 row1 = []); [|by rewrite Hn].
  unfold fired_rules. apply filter_none, list.Forall_forall. intros r Hr Hfr.
  unfold ListEnabledRulesByEventType in Hr. rewrite H1 in Hr.
  apply list_elem_of_filter in Hr as [_ Hr]. apply list_elem_of_singleton in Hr as ->.
  unfold fires, cooldownAllows in Hfr. apply andb_true_iff in Hfr as [_ Hfr].
  rewrite (proj2 (Z.leb_gt _ 0)) in Hfr by lia. rewrite <- Hmac, Hl in Hfr.
  assert (Hi : i64 (rule_CooldownMinutes rule * minute) = rule_CooldownMinutes rule * minute).
  { apply i64_id. unfold min_int64, max_int64, minute, nanos_per_second in *. lia. }
  rewrite Hi in Hfr. lia.
Qed.

(** * Concrete deployment *)

Definition lost_rule : NotificationRule := mkRule 1 "lost" ChangeTypeDeviceLost RuleScopeAll None "" 5 30 1.

Definition lost_row (id : Z) : ChangeLog :=
  mkChangeLog id None (Some 1) ChangeTypeDeviceLost EntityTypeDevice (Some id) None None 0.

Definition site (enabled : Z) : notify_db :=
  mkNotifyDb [lost_rule] [mkChannel 5 "ops" "webhook" "{}" enabled]
    [mk_dev 1 "u1" "10.0.0.1" "offline" 1 0; mk_dev 2 "u2" "10.0.0.2" "offline" 1 0] [].

Lemma device_alerts_exact_witness :
  let ins := fun _ : nat => true in
  let lost t := mkEvent (site 1) t (lost_row 1) in
  let evs := [lost 0; lost (10 * minute)] in
  re_triggered (engine_after ins NewDispatcher (evs ++ [lost (40 * minute)])) = [1; 1]
  ∧ ∃ fired, (∀ rule, rule ∈ fired ↔ rule ∈ [lost_rule] ∧ should_alert ins NewDispatcher evs (lost (40 * minute)) rule)
    ∧ re_triggered (engine_after ins NewDispatcher (evs ++ [lost (40 * minute)])) = [1] ++ (rule_ID <$> fired).
Proof.
  intros ins lost evs. split; [reflexivity|].
  destruct (device_alerts_exact ins NewDispatcher evs (lost (40 * minute))) as (fired & _ & Hf & Ht & _).
  - repeat constructor; set_solver.
  - repeat constructor; done.
  - by repeat constructor.
  - by exists fired.
Defined.

Lemma undelivered_rule_burns_cooldown_witness :
  re_dispatcher (handleDeviceEvent (fun _ => true) (site 1) (29 * minute) (lost_row 1)
    (handleDeviceEvent (fun _ => true) (site 0) 0 (lost_row 1) (NewRuleEngine NewDispatcher))) = NewDispatcher.
Proof.
  apply (undelivered_rule_burns_cooldown (fun _ => true) (site 0) (site 1) lost_rule (lost_row 1) (lost_row 1) 0 (29 * minute)
           (NewRuleEngine NewDispatcher)); reflexivity.
Defined.

(** Devices without a MAC address share one cooldown bucket per rule even when
    they are identified: the loss of the second is not notified. *)
Theorem macless_devices_share_cooldown :
  let e0 := NewRuleEngine NewDispatcher in
  let e1 := handleDeviceEvent (fun _ => true) (site 1) 0 (lost_row 1) e0 in
  let e2 := handleDeviceEvent (fun _ => true) (site 1) minute (lost_row 2) e1 in
  (dev_DeviceUuid <$> resolve_device (site 1) (lost_row 1)) = Some "u1"
  ∧ (dev_DeviceUuid <$> resolve_device (site 1) (lost_row 2)) = Some "u2"
  ∧ length (d_queue (re_dispatcher e1)) = 1%nat
  ∧ re_dispatcher e2 = re_dispatcher e1.
Proof. split_and!; reflexivity. Qed.

(** * Dedup keys *)

(** The metadata the payload builders write, read back by the envelope. *)
Lemma device_meta rule row dev k :
  k ∈ ["event_type"; "source_ref"; "mac_address"; "ip_address"; "device_name"] →
  metaString (default ∅ (p_Metadata (buildPayload rule row dev))) k =
  if decide (k = "event_type") then cl_ChangeType row
  else if decide (k = "source_ref") then ""
  else if decide (k = "mac_address") then from_option dev_MacAddress "" dev
  else if decide (k = "ip_address") then from_option dev_IpAddress "" dev
  else device_name dev.
Proof.
  intros Hk. unfold buildPayload. cbn [p_Metadata default from_option].
  generalize (format_RFC3339 (cl_DetectedAt row)) as t. intros t. unfold id, metaString.
  assert (Hnet : ∀ m : gmap string meta_value,
    (match cl_NetworkID row with Some n => <["network_id" := MetaInt n]> m | None => m end) !! k = m !! k).
  { intros m. destruct (cl_NetworkID row); [|done]. apply lookup_insert_ne. set_solver. }
  rewrite Hnet. repeat (apply elem_of_cons in Hk as [->|Hk]; [reflexivity|]). by apply elem_of_nil in Hk.
Qed.

(** The reference a device is known by to the receiver. *)
Definition device_ref (dev : option Device) : string :=
  if decide (from_option dev_MacAddress "" dev = "")
  then (if decide (from_option dev_IpAddress "" dev = "") then device_name dev else from_option dev_IpAddress "" dev)
  else from_option dev_MacAddress "" dev.

Lemma device_envelope_key rule row dev source :
  source ≠ "" → cl_ChangeType row ≠ "" →
  let env := buildAlertEnvelope (buildPayload rule row dev) source in
  ae_SourceRef env = device_ref dev
  ∧ ae_DedupKey env = source +:+ "/" +:+ default (cl_ChangeType row) (recoveryDedupType (cl_ChangeType row))
                       +:+ "/" +:+ device_ref dev
  ∧ ae_Resolved env = has_suffix "_recovered" (cl_ChangeType row)
  ∧ ae_Severity env = alertSeverity (cl_ChangeType row).
Proof.
  intros Hs Ht. cbv zeta. unfold buildAlertEnvelope.
  rewrite (decide_False (P := source = "")) by done.
  set (meta := default ∅ _).
  assert (Hev : metaString meta "event_type" = cl_ChangeType row) by (by apply device_meta; set_solver).
  assert (Href : first_nonempty meta ["source_ref"; "mac_address"; "ip_address"; "device_name"] = device_ref dev).
  { cbn [first_nonempty].
    assert (H1 : metaString meta "source_ref" = "") by (by apply device_meta; set_solver).
    assert (H2 : metaString meta "mac_address" = from_option dev_MacAddress "" dev) by (by apply device_meta; set_solver).
    assert (H3 : metaString meta "ip_address" = from_option dev_IpAddress "" dev) by (by apply device_meta; set_solver).
    assert (H4 : metaString meta "device_name" = device_name dev) by (by apply device_meta; set_solver).
    rewrite H1, H2, H3, H4. rewrite (decide_True (P := "" = "")) by done. unfold device_ref.
    destruct (decide (from_option dev_MacAddress "" dev = "")); [|done].
    destruct (decide (from_option dev_IpAddress "" dev = "")); [|done]. by case_decide. }
  cbn [ae_SourceRef ae_DedupKey ae_Resolved ae_Severity]. rewrite Hev, Href.
  by rewrite (decide_False (P := cl_ChangeType row = "")).
Qed.

(** An alert and its recovery pair up at the receiver.  For one device, and
    whichever rules fired, the loss and the recovery carry the same dedup key,
    the first unresolved with severity error, the second resolved with
    severity info; devices with different references never share a key. *)
Theorem lost_recovered_pair rule1 rule2 row1 row2 dev dev' source :
  source ≠ "" → cl_ChangeType row1 = ChangeTypeDeviceLost → cl_ChangeType row2 = ChangeTypeDeviceRecovered →
  let lost := buildAlertEnvelope (buildPayload rule1 row1 dev) source in
  let recovered := buildAlertEnvelope (buildPayload rule2 row2 dev') source in
  ae_Resolved lost = false ∧ ae_Severity lost = "error"
  ∧ ae_Resolved recovered = true ∧ ae_Severity recovered = "info"
  ∧ (ae_DedupKey lost = ae_DedupKey recovered ↔ device_ref dev = device_ref dev').
Proof.
  intros Hs H1 H2. cbv zeta.
  destruct (device_envelope_key rule1 row1 dev source Hs) as (_ & -> & -> & ->); [by rewrite H1|].
  destruct (device_envelope_key rule2 row2 dev' source Hs) as (_ & -> & -> & ->); [by rewrite H2|].
  rewrite H1, H2. split_and!; [reflexivity..|]. split; [|by intros ->].
  change (default ChangeTypeDeviceLost (recoveryDedupType ChangeTypeDeviceLost)) with ChangeTypeDeviceLost.
  change (default ChangeTypeDeviceRecovered (recoveryDedupType ChangeTypeDeviceRecovered)) with ChangeTypeDeviceLost.
  intros Heq. apply (inj (String.append source)) in Heq. cbn in Heq. by injection Heq.
Qed.

Lemma lost_recovered_pair_witness :
  let dev := Some (mk_dev 1 "u1" "10.0.0.1" "offline" 1 0) in
  let row ty := mkChangeLog 1 None None ty EntityTypeDevice (Some 1) None None 0 in
  let lost := buildAlertEnvelope (buildPayload lost_rule (row ChangeTypeDeviceLost) dev) "center" in
  let recovered := buildAlertEnvelope (buildPayload lost_rule (row ChangeTypeDeviceRecovered) dev) "center" in
  ae_Resolved lost = false ∧ ae_Severity lost = "error"
  ∧ ae_Resolved recovered = true ∧ ae_Severity recovered = "info"
  ∧ (ae_DedupKey lost = ae_DedupKey recovered ↔ device_ref dev = device_ref dev).
Proof.
  intros dev row. apply (lost_recovered_pair lost_rule lost_rule (row ChangeTypeDeviceLost)
    (row ChangeTypeDeviceRecovered) dev dev "center"); [discriminate|reflexivity..].
Defined.
