(* ===== verification/RateLimit.v ===== *)
(** Request rate limiting (src/internal/api/middleware/ratelimit.go): the
    sliding window of the scan endpoints, the client address it keys on, and
    the static-asset bypass.  The token bucket of the global limiter belongs
    to golang.org/x/time/rate and is not modelled. *)

From S2P Require Import Prelude Db.

Open Scope Z_scope.

(** * ScanRateLimiter *)

Record ScanRateLimiter := mkScanLimiter {
  srl_windows : gmap string (list Z);
  srl_limit : Z;
  srl_window : Z
}.

Definition NewScanRateLimiter (limit : Z) : ScanRateLimiter :=
  mkScanLimiter ∅ (if limit <=? 0 then 10 else limit) (1 * minute).

Definition set_window (s : ScanRateLimiter) (ip : string) (w : list Z) : ScanRateLimiter :=
  mkScanLimiter (<[ip := w]> (srl_windows s)) (srl_limit s) (srl_window s).

Definition Allow (s : ScanRateLimiter) (now : Z) (ip : string) : ScanRateLimiter * bool :=
  let cutoff := now - srl_window s in
  let valid := filter (fun t => cutoff < t) (default [] (srl_windows s !! ip)) in
  if srl_limit s <=? Z.of_nat (length valid) then (set_window s ip valid, false)
  else (set_window s ip (valid ++ [now]), true).

(** The last request of a non-empty window is before [cutoff]. *)
Definition stale_window (cutoff : Z) (w : list Z) : bool :=
  match list.last w with Some t => t <? cutoff | None => false end.

(** One tick of [cleanup]. *)
Definition scan_cleanup (s : ScanRateLimiter) (now : Z) : ScanRateLimiter :=
  let cutoff := now - 2 * srl_window s in
  mkScanLimiter (filter (fun p => stale_window cutoff p.2 = false) (srl_windows s)) (srl_limit s) (srl_window s).

(** * The client address *)

Fixpoint index_char (c : ascii) (s : string) : option nat :=
  match s with
  | EmptyString => None
  | String a s => if char_eqb a c then Some 0%nat else S <$> index_char c s
  end.

Fixpoint last_index_char (c : ascii) (s : string) : option nat :=
  match s with
  | EmptyString => None
  | String a s => match last_index_char c s with
                  | Some i => Some (S i)
                  | None => if char_eqb a c then Some 0%nat else None
                  end
  end.

Definition substr (i j : nat) (s : string) : string := String.substring i (j - i) s.
Definition suffix_from (i : nat) (s : string) : string := String.substring i (String.length s - i) s.

(** [net.SplitHostPort]: host and port, or [None]. *)
Definition SplitHostPort (hostport : string) : option (string * string) :=
  match last_index_char ":" hostport with
  | None => None
  | Some i =>
      let finish (host : string) (j k : nat) :=
        match index_char "[" (suffix_from j hostport), index_char "]" (suffix_from k hostport) with
        | None, None => Some (host, suffix_from (i + 1) hostport)
        | _, _ => None
        end in
      match hostport with
      | String c _ =>
          if char_eqb c "["%char then
            match index_char "]" hostport with
            | None => None
            | Some e => if Nat.eqb (e + 1) i then finish (substr 1 e hostport) 1%nat (e + 1)%nat else None
            end
          else
            let host := substr 0 i hostport in
            match index_char ":" host with Some _ => None | None => finish host 0%nat 0%nat end
      | EmptyString => None
      end
  end.

(** The parts of a request the limiter reads; an absent header is empty. *)
Record http_request := mkRequest {
  rq_RemoteAddr : string;
  rq_XForwardedFor : string;
  rq_XRealIP : string;
  rq_Path : string
}.

Definition extractIP (r : http_request) : string :=
  let remoteIP := match SplitHostPort (rq_RemoteAddr r) with
                  | Some (h, _) => h
                  | None => rq_RemoteAddr r
                  end in
  if bool_decide (remoteIP = "127.0.0.1") || bool_decide (remoteIP = "::1") then
    let first := if decide (rq_XForwardedFor r = "") then ""
                 else trim_space (hd "" (split_on "," (rq_XForwardedFor r))) in
    if decide (first = "") then (if decide (rq_XRealIP r = "") then remoteIP else rq_XRealIP r)
    else first
  else remoteIP.

Definition isStaticAsset (path : string) : bool :=
  bool_decide (path ∈ ["/"; "/index.html"; "/favicon.svg"]) || has_prefix "/_app/" path.

(** The middleware: whether the request reaches the next handler (else 429). *)
Definition scan_middleware (s : ScanRateLimiter) (now : Z) (r : http_request) : ScanRateLimiter * bool :=
  Allow s now (extractIP r).

(** * Properties *)

Inductive limiter_op := LAllow (t : Z) (ip : string) | LCleanup (t : Z).

Definition op_time (o : limiter_op) : Z := match o with LAllow t _ | LCleanup t => t end.

(** The limiter with the log of everything it ever allowed. *)
Record logged := mkLogged { lo_s : ScanRateLimiter; lo_log : list (string * Z); lo_now : Z }.

Definition logged_step (l : logged) (o : limiter_op) : logged :=
  match o with
  | LAllow t ip =>
      let (s, b) := Allow (lo_s l) t ip in
      mkLogged s (if b then lo_log l ++ [(ip, t)] else lo_log l) t
  | LCleanup t => mkLogged (scan_cleanup (lo_s l) t) (lo_log l) t
  end.

Fixpoint in_time_order (t : Z) (os : list limiter_op) : Prop :=
  match os with [] => True | o :: os => t ≤ op_time o ∧ in_time_order (op_time o) os end.

Definition times_of (ip : string) (log : list (string * Z)) : list Z := (filter (fun p => p.1 = ip) log).*2.

(** How many requests of [ip] were allowed in the window that ends at [now]. *)
Definition recent (w : Z) (log : list (string * Z)) (ip : string) (now : Z) : nat :=
  length (filter (fun t => now - w < t) (times_of ip log)).

(** The kept window of an address is the log of its requests without a prefix of
    expired ones. *)
Record limiter_inv (l : logged) : Prop := {
  li_now : ∀ ip t, t ∈ times_of ip (lo_log l) → t ≤ lo_now l;
  li_window : ∀ ip, ∃ old, times_of ip (lo_log l) = old ++ default [] (srl_windows (lo_s l) !! ip)
                 ∧ ∀ t, t ∈ old → t ≤ lo_now l - srl_window (lo_s l);
  li_sorted : ∀ ip i j a b, (i < j)%nat → times_of ip (lo_log l) !! i = Some a →
                times_of ip (lo_log l) !! j = Some b → a ≤ b
}.

Lemma times_of_snoc ip log k t :
  times_of ip (log ++ [(k, t)]) = times_of ip log ++ (if decide (k = ip) then [t] else []).
Proof.
  unfold times_of. rewrite list.filter_app, fmap_app. f_equal. rewrite filter_cons. cbn [fst].
  destruct (decide (k = ip)); by rewrite filter_nil.
Qed.

Lemma filter_expired w now t old l :
  (∀ x, x ∈ old → x ≤ now - w) → now ≤ t →
  filter (fun x => t - w < x) (old ++ l) = filter (fun x => t - w < x) l.
Proof.
  intros Hold Ht. rewrite list.filter_app, filter_none; [done|].
  apply list.Forall_forall. intros x Hx Hlt. specialize (Hold x Hx). lia.
Qed.

(** The pruned window is exactly the recent part of the log. *)
Lemma valid_is_recent l t ip :
  limiter_inv l → lo_now l ≤ t →
  filter (fun x => t - srl_window (lo_s l) < x) (default [] (srl_windows (lo_s l) !! ip))
  = filter (fun x => t - srl_window (lo_s l) < x) (times_of ip (lo_log l)).
Proof.
  intros [_ Hw _] Ht. destruct (Hw ip) as (old & -> & Hold).
  symmetry. by apply (filter_expired _ (lo_now l)).
Qed.

(** Of a list in time order the recent elements are a suffix. *)
Lemma recent_suffix c (l : list Z) :
  (∀ i j a b, (i < j)%nat → l !! i = Some a → l !! j = Some b → a ≤ b) →
  ∃ old, l = old ++ filter (fun x => c < x) l ∧ ∀ t, t ∈ old → t ≤ c.
Proof.
  induction l as [|x l IH]; intros Hs.
  { exists []. split; [done|]. intros t Ht. by apply elem_of_nil in Ht. }
  destruct IH as (old & Heq & Hold).
  { intros i j a b Hij Ha Hb. apply (Hs (S i) (S j) a b); [lia|done|done]. }
  rewrite filter_cons. destruct (decide (c < x)) as [Hx|Hx].
  - exists []. split; [|intros t Ht; by apply elem_of_nil in Ht]. cbn. f_equal.
    symmetry. apply filter_all, list.Forall_forall. intros y Hy.
    apply list_elem_of_lookup in Hy as [i Hi]. specialize (Hs 0%nat (S i) x y ltac:(lia) eq_refl Hi). lia.
  - exists (x :: old). cbn. split; [by f_equal|]. intros t Ht. apply elem_of_cons in Ht as [->|Ht]; [lia|by apply Hold].
Qed.

Lemma last_max (l : list Z) m x :
  (∀ i j a b, (i < j)%nat → l !! i = Some a → l !! j = Some b → a ≤ b) →
  list.last l = Some m → x ∈ l → x ≤ m.
Proof.
  intros Hs Hm Hx. rewrite list.last_lookup in Hm. apply list_elem_of_lookup in Hx as [i Hi].
  pose proof (lookup_lt_Some _ _ _ Hi). destruct (decide (i = Nat.pred (length l))) as [->|Hne].
  - rewrite Hi in Hm. injection Hm. lia.
  - apply (Hs i (Nat.pred (length l)) x m); [lia|done|done].
Qed.

Lemma suffix_sorted (old l : list Z) :
  (∀ i j a b, (i < j)%nat → (old ++ l) !! i = Some a → (old ++ l) !! j = Some b → a ≤ b) →
  ∀ i j a b, (i < j)%nat → l !! i = Some a → l !! j = Some b → a ≤ b.
Proof.
  intros Hs i j a b Hij Ha Hb. apply (Hs (length old + i)%nat (length old + j)%nat a b); [lia|..].
  - rewrite lookup_app_r by lia. by replace (length old + i - length old)%nat with i by lia.
  - rewrite lookup_app_r by lia. by replace (length old + j - length old)%nat with j by lia.
Qed.

Lemma cleanup_inv l t :
  0 < srl_window (lo_s l) → limiter_inv l → lo_now l ≤ t → limiter_inv (logged_step l (LCleanup t)).
Proof.
  intros Hpos [Hn Hw Hs] Ht. split; cbn [logged_step lo_log lo_now lo_s]; [|..|done].
  - intros ip x Hx. specialize (Hn ip x Hx). lia.
  - intros ip. destruct (Hw ip) as (old & Heq & Hold). cbn [scan_cleanup srl_windows srl_window].
    destruct (srl_windows (lo_s l) !! ip) as [w|] eqn:Ew.
    + rewrite map_lookup_filter, Ew. cbn [mbind option_bind]. cbn [default from_option id] in Heq.
      destruct (decide (stale_window (t - 2 * srl_window (lo_s l)) (ip, w).2 = false)) as [Hst|Hst].
      * rewrite option_guard_True by done. exists old. split; [done|]. intros x Hx. specialize (Hold x Hx). lia.
      * rewrite option_guard_False by done. exists (old ++ w). cbn. rewrite app_nil_r. split; [done|].
        intros x Hx. apply elem_of_app in Hx as [Hx|Hx]; [specialize (Hold x Hx); lia|].
        unfold stale_window in Hst. cbn in Hst. destruct (list.last w) as [m|] eqn:Em; [|done].
        apply not_false_iff_true, Z.ltb_lt in Hst.
        assert (x ≤ m); [|lia]. apply (last_max w m x); [|done|done].
        apply (suffix_sorted old). rewrite <- Heq. apply Hs.
    + rewrite map_lookup_filter, Ew. cbn. cbn in Heq. exists old. split; [done|].
      intros x Hx. specialize (Hold x Hx). lia.
Qed.

Lemma sorted_snoc (l : list Z) x :
  (∀ i j a b, (i < j)%nat → l !! i = Some a → l !! j = Some b → a ≤ b) → (∀ y, y ∈ l → y ≤ x) →
  ∀ i j a b, (i < j)%nat → (l ++ [x]) !! i = Some a → (l ++ [x]) !! j = Some b → a ≤ b.
Proof.
  intros Hs Hx i j a b Hij Ha Hb. pose proof (lookup_lt_Some _ _ _ Hb) as Hl.
  rewrite length_app in Hl. cbn in Hl. rewrite lookup_app_l in Ha by lia.
  destruct (decide (j < length l)%nat) as [Hj|Hj].
  - rewrite lookup_app_l in Hb by done. by apply (Hs i j).
  - rewrite list_lookup_middle in Hb by lia. injection Hb as <-. apply Hx. by eapply list_elem_of_lookup_2.
Qed.

Lemma allow_inv l t ip :
  0 < srl_window (lo_s l) → limiter_inv l → lo_now l ≤ t → limiter_inv (logged_step l (LAllow t ip)).
Proof.
  intros Hpos Hi Ht. pose proof (valid_is_recent l t ip Hi Ht) as Hv. destruct Hi as [Hn Hw Hs].
  cbn [logged_step]. unfold Allow. rewrite Hv. set (w := srl_window (lo_s l)) in *.
  set (vl := filter (fun x => t - w < x) (times_of ip (lo_log l))).
  destruct (recent_suffix (t - w) (times_of ip (lo_log l)) (Hs ip)) as (old & Hold & Hexp). fold vl in Hold.
  assert (Hother : ∀ k, k ≠ ip → ∃ o, times_of k (lo_log l) = o ++ default [] (srl_windows (lo_s l) !! k)
    ∧ ∀ x, x ∈ o → x ≤ t - w).
  { intros k _. destruct (Hw k) as (o & Ho & Ho'). exists o. split; [done|]. intros x Hx. specialize (Ho' x Hx).
    unfold w. lia. }
  destruct (srl_limit (lo_s l) <=? Z.of_nat (length vl)).
  - split; cbn [lo_log lo_now lo_s]; [|..|done].
    + intros k x Hx. specialize (Hn k x Hx). lia.
    + intros k. cbn [set_window srl_windows srl_window]. destruct (decide (k = ip)) as [->|Hk].
      * rewrite lookup_insert_eq. by exists old.
      * rewrite lookup_insert_ne by done. by apply Hother.
  - split; cbn [lo_log lo_now lo_s].
    + intros k x. rewrite times_of_snoc. intros Hx. apply elem_of_app in Hx as [Hx|Hx].
      * specialize (Hn k x Hx). lia.
      * destruct (decide (ip = k)); [|by apply elem_of_nil in Hx]. apply list_elem_of_singleton in Hx. lia.
    + intros k. rewrite times_of_snoc. cbn [set_window srl_windows srl_window]. destruct (decide (k = ip)) as [->|Hk].
      * rewrite lookup_insert_eq, decide_True by done. exists old. split; [|done]. cbn. by rewrite Hold at 1; rewrite <- app_assoc.
      * rewrite lookup_insert_ne, decide_False by done. rewrite app_nil_r. by apply Hother.
    + intros k. rewrite times_of_snoc. destruct (decide (ip = k)) as [->|Hk].
      * apply sorted_snoc; [apply Hs|]. intros y Hy. specialize (Hn k y Hy). lia.
      * rewrite app_nil_r. apply Hs.
Qed.

Lemma limiter_params l o :
  srl_window (lo_s (logged_step l o)) = srl_window (lo_s l) ∧ srl_limit (lo_s (logged_step l o)) = srl_limit (lo_s l)
  ∧ lo_now (logged_step l o) = op_time o.
Proof.
  destruct o as [t ip|t]; [|done]. cbn [logged_step]. unfold Allow.
  by destruct (srl_limit (lo_s l) <=? _).
Qed.

(** No address ever exceeds the limit within a window. *)
Definition within_limit (l : logged) : Prop :=
  ∀ ip, Z.of_nat (recent (srl_window (lo_s l)) (lo_log l) ip (lo_now l)) ≤ srl_limit (lo_s l).

Lemma recent_mono w log ip a b : a ≤ b → (recent w log ip b ≤ recent w log ip a)%nat.
Proof.
  intros Hab. unfold recent. induction (times_of ip log) as [|x l IH]; [done|]. rewrite !filter_cons.
  destruct (decide (b - w < x)), (decide (a - w < x)); cbn; lia.
Qed.

Lemma logged_step_limit l o :
  0 < srl_window (lo_s l) → 0 < srl_limit (lo_s l) → limiter_inv l → within_limit l → lo_now l ≤ op_time o →
  within_limit (logged_step l o).
Proof.
  intros Hw Hl Hi Hwl Ht ip. destruct (limiter_params l o) as (-> & -> & ->).
  pose proof (recent_mono (srl_window (lo_s l)) (lo_log l) ip _ _ Ht) as Hm. specialize (Hwl ip).
  destruct o as [t k|t]; cbn [logged_step op_time] in *; [|cbn [lo_log]; lia].
  unfold Allow. rewrite (valid_is_recent l t k Hi Ht).
  destruct (Z.leb_spec (srl_limit (lo_s l))
    (Z.of_nat (length (filter (fun x => t - srl_window (lo_s l) < x) (times_of k (lo_log l)))))) as [Hle|Hgt];
    cbn [lo_log]; [lia|].
  unfold recent in *. rewrite times_of_snoc, list.filter_app, length_app.
  destruct (decide (k = ip)) as [->|Hk].
  - rewrite filter_cons, filter_nil. case_decide; cbn [length]; lia.
  - rewrite filter_nil. cbn [length]. lia.
Qed.

Definition new_logged (limit t0 : Z) : logged := mkLogged (NewScanRateLimiter limit) [] t0.

(** C36.  The pruned and swept windows decide like the full history.  For any
    sequence of requests and cleanup ticks under a clock that does not go
    back, no address has more than the limit of requests allowed within any
    minute, and a request is refused exactly when its address already has the
    limit in the minute before it. *)
Theorem scan_limit_exact limit t0 os :
  in_time_order t0 os →
  let l := fold_left logged_step os (new_logged limit t0) in
  let lim := if limit <=? 0 then 10 else limit in
  (∀ ip, Z.of_nat (recent minute (lo_log l) ip (lo_now l)) ≤ lim)
  ∧ ∀ t ip, lo_now l ≤ t →
      (Allow (lo_s l) t ip).2 = (Z.of_nat (recent minute (lo_log l) ip t) <? lim).
Proof.
  intros Ho l lim.
  assert (H : limiter_inv l ∧ within_limit l ∧ srl_window (lo_s l) = minute ∧ srl_limit (lo_s l) = lim).
  { assert (Hstep : ∀ os l0, limiter_inv l0 → within_limit l0 → srl_window (lo_s l0) = minute →
      srl_limit (lo_s l0) = lim → in_time_order (lo_now l0) os →
      let l := fold_left logged_step os l0 in
      limiter_inv l ∧ within_limit l ∧ srl_window (lo_s l) = minute ∧ srl_limit (lo_s l) = lim).
    { clear l Ho os. assert (Hm : 0 < minute) by done.
      assert (Hlim : 0 < lim) by (unfold lim; destruct (Z.leb_spec limit 0); lia).
      induction os as [|o os IH]; intros l0 Hi Hwl Hw Hl Ho; cbn [fold_left]; [done|].
      destruct Ho as [Ht Ho]. destruct (limiter_params l0 o) as (Hw' & Hl' & Hn').
      apply IH; [|by apply logged_step_limit; rewrite ?Hw, ?Hl|congruence|congruence|by rewrite Hn'].
      destruct o; [apply allow_inv|apply cleanup_inv]; rewrite ?Hw; done. }
    apply Hstep; [|intros ip; change (0 ≤ lim); unfold lim; destruct (Z.leb_spec limit 0); lia|done|done|done].
    split; cbn.
    - intros ip t Ht. by apply elem_of_nil in Ht.
    - intros ip. rewrite lookup_empty. exists []. split; [done|]. intros t Ht. by apply elem_of_nil in Ht.
    - intros ip i j a b _ Ha. done. }
  destruct H as (Hi & Hwl & Hw & Hl). split.
  - intros ip. specialize (Hwl ip). by rewrite Hw, Hl in Hwl.
  - intros t ip Ht. unfold Allow. rewrite (valid_is_recent l t ip Hi Ht), Hl, Hw.
    unfold recent. rewrite Z.ltb_antisym. by destruct (lim <=? _).
Qed.

Lemma scan_limit_exact_witness :
  let l := fold_left logged_step [LAllow 0 "a"; LAllow 1 "a"; LAllow 2 "a"; LCleanup minute] (new_logged 2 0) in
  lo_log l = [("a", 0); ("a", 1)]
  ∧ (Allow (lo_s l) (minute + 1) "a").2 = (Z.of_nat (recent minute (lo_log l) "a" (minute + 1)) <? 2).
Proof.
  split; [reflexivity|].
  apply (scan_limit_exact 2 0 [LAllow 0 "a"; LAllow 1 "a"; LAllow 2 "a"; LCleanup minute]).
  - cbn. unfold minute, nanos_per_second. lia.
  - vm_compute. discriminate.
Defined.
