(* ===== verification/Transition.v ===== *)
(** The probe engine's liveness state machine
    (src/internal/service/probetarget/transition.go): per target and vantage,
    probe_failed after a run of failures, probe_recovered on the next
    success. *)

From S2P Require Import Prelude ChangeDetect.

Open Scope Z_scope.

Definition defaultProbeFailThreshold : Z := 3.
Definition probeStatusSuccess : string := "success".

Record probeState := mkProbeState { pst_failing : bool; pst_streak : Z }.

Record transitionDetector := mkDetector {
  td_states : gmap (Z * string) probeState;
  td_threshold : Z
}.

Definition newTransitionDetector (threshold : Z) : transitionDetector :=
  mkDetector ∅ (if threshold <=? 0 then defaultProbeFailThreshold else threshold).

(** The result is the change type to emit, empty for none. *)
Definition observe (d : transitionDetector) (targetID : Z) (vantage lastStatus status : string)
    : transitionDetector * string :=
  let failed := negb (bool_decide (status = probeStatusSuccess)) in
  let key := (targetID, vantage) in
  let st := default (mkProbeState (negb (bool_decide (lastStatus = ""))
                                   && negb (bool_decide (lastStatus = probeStatusSuccess))) 0)
              (td_states d !! key) in
  let put st := mkDetector (<[key := st]> (td_states d)) (td_threshold d) in
  if negb failed then
    (put (mkProbeState false 0), if pst_failing st then ChangeTypeProbeRecovered else "")
  else if pst_failing st then (put st, "")
  else
    let streak := pst_streak st + 1 in
    if td_threshold d <=? streak then (put (mkProbeState true 0), ChangeTypeProbeFailed)
    else (put (mkProbeState false streak), "").

Definition prune (d : transitionDetector) (present : gset Z) : transitionDetector :=
  mkDetector (filter (fun p => p.1.1 ∈ present) (td_states d)) (td_threshold d).

(** * Properties *)

(** A track's results, oldest first; [true] is a success.  The persisted status
    only matters at first sight. *)
Definition run_track (d : transitionDetector) (id : Z) (v seed : string) (rs : list bool)
    : transitionDetector * list string :=
  fold_left (fun acc r =>
    let (d, e) := observe acc.1 id v seed (if (r : bool) then probeStatusSuccess else "fail") in
    (d, acc.2 ++ [e])) rs (d, []).

(** The contract, as a function of the whole history: down since [thr]
    consecutive failures with no success after. *)
Fixpoint down_after (thr : Z) (down : bool) (streak : Z) (rs : list bool) : bool * Z :=
  match rs with
  | [] => (down, streak)
  | true :: rs => down_after thr false 0 rs
  | false :: rs =>
      if down then down_after thr true 0 rs
      else if thr <=? streak + 1 then down_after thr true 0 rs
      else down_after thr false (streak + 1) rs
  end.

(** Declared failures and recoveries, in order. *)
Definition transitions (es : list string) : list string := filter (fun e => e ≠ "") es.

(** They alternate, [up] saying which comes first. *)
Fixpoint alternates (up : bool) (es : list string) : Prop :=
  match es with
  | [] => True
  | e :: es => e = (if up then ChangeTypeProbeFailed else ChangeTypeProbeRecovered) ∧ alternates (negb up) es
  end.

Definition track (d : transitionDetector) (id : Z) (v seed : string) : probeState :=
  default (mkProbeState (negb (bool_decide (seed = "")) && negb (bool_decide (seed = probeStatusSuccess))) 0)
    (td_states d !! (id, v)).

Lemma track_put m thr id v seed st : track (mkDetector (<[(id, v) := st]> m) thr) id v seed = st.
Proof. unfold track. cbn. by rewrite lookup_insert_eq. Qed.

Lemma observe_step d id v seed r :
  let st := track d id v seed in
  let (d', e) := observe d id v seed (if (r : bool) then probeStatusSuccess else "fail") in
  td_threshold d' = td_threshold d
  ∧ (track d' id v seed = if r then mkProbeState false 0
     else if pst_failing st then st
     else if td_threshold d <=? pst_streak st + 1 then mkProbeState true 0
     else mkProbeState false (pst_streak st + 1))
  ∧ (e = if r then (if pst_failing st then ChangeTypeProbeRecovered else "")
     else if pst_failing st then ""
     else if td_threshold d <=? pst_streak st + 1 then ChangeTypeProbeFailed else "").
Proof.
  cbv zeta. unfold observe. fold (track d id v seed). destruct r.
  - rewrite bool_decide_eq_true_2 by done. cbn [negb]. by rewrite track_put.
  - rewrite bool_decide_eq_false_2 by done. cbn [negb].
    destruct (pst_failing (track d id v seed)); [|destruct (_ <=? _)]; by rewrite track_put.
Qed.

Lemma alternates_snoc up es e :
  alternates up es → e = (if xorb up (Nat.odd (length es)) then ChangeTypeProbeFailed else ChangeTypeProbeRecovered) →
  alternates up (es ++ [e]).
Proof.
  revert up. induction es as [|x es IH]; intros up Ha He; cbn in *.
  { rewrite xorb_false_r in He. done. }
  destruct Ha as [-> Ha]. split; [done|]. apply IH; [done|]. rewrite He. rewrite Nat.odd_succ, <- Nat.negb_odd.
  by destruct up, (Nat.odd (length es)).
Qed.

Lemma down_after_snoc thr down streak rs r :
  down_after thr down streak (rs ++ [r]) =
  let (dn, s) := down_after thr down streak rs in
  if r then (false, 0) else if dn then (true, 0) else if thr <=? s + 1 then (true, 0) else (false, s + 1).
Proof.
  revert down streak. induction rs as [|[] rs IH]; intros down streak; cbn.
  - destruct r, down; try done.
  - apply IH.
  - destruct down; [apply IH|]. destruct (thr <=? streak + 1); apply IH.
Qed.

Lemma run_track_state d id v seed rs :
  let st0 := track d id v seed in
  let (d', es) := run_track d id v seed rs in
  let (dn, s) := down_after (td_threshold d) (pst_failing st0) (pst_streak st0) rs in
  td_threshold d' = td_threshold d
  ∧ pst_failing (track d' id v seed) = dn ∧ (dn = false → pst_streak (track d' id v seed) = s)
  ∧ alternates (negb (pst_failing st0)) (transitions es)
  ∧ xorb (pst_failing st0) (Nat.odd (length (transitions es))) = dn.
Proof.
  cbv zeta. induction rs as [|r rs IH] using rev_ind.
  { cbn. split_and!; [done..|]. apply xorb_false_r. }
  unfold run_track in *. rewrite fold_left_app. cbn [fold_left].
  destruct (fold_left _ rs (d, [])) as [d1 es]. cbn [fst snd]. rewrite down_after_snoc.
  destruct (down_after _ _ _ rs) as [dn s]. destruct IH as (Ht & Hf & Hst & Ha & Hx).
  pose proof (observe_step d1 id v seed r) as Ho. cbv zeta in Ho.
  destruct (observe d1 id v seed _) as [d2 e]. destruct Ho as (Ht2 & Htr & He).
  assert (Htrans : transitions (es ++ [e]) = transitions es ++ (if decide (e ≠ "") then [e] else [])).
  { unfold transitions. rewrite list.filter_app. f_equal. }
  rewrite Htrans, Htr, Ht2, Ht. rewrite Ht, Hf in He. set (up0 := pst_failing (track d id v seed)) in *.
  assert (Hkeep : e = "" → alternates (negb up0) (transitions es ++ (if decide (e ≠ "") then [e] else []))
    ∧ xorb up0 (Nat.odd (length (transitions es ++ (if decide (e ≠ "") then [e] else [])))) = dn).
  { intros ->. rewrite decide_False by (intros H; by apply H). rewrite app_nil_r. done. }
  assert (Hflip : e = (if dn then ChangeTypeProbeRecovered else ChangeTypeProbeFailed) →
    alternates (negb up0) (transitions es ++ (if decide (e ≠ "") then [e] else []))
    ∧ xorb up0 (Nat.odd (length (transitions es ++ (if decide (e ≠ "") then [e] else [])))) = negb dn).
  { intros ->. rewrite decide_True by (by destruct dn). rewrite length_app, Nat.add_1_r, Nat.odd_succ, <- Nat.negb_odd.
    split; [apply alternates_snoc; [done|]|]; by rewrite <- Hx; destruct up0, (Nat.odd (length (transitions es))). }
  destruct r.
  - destruct dn; [destruct (Hflip He)|destruct (Hkeep He)]; done.
  - rewrite Hf. destruct dn.
    + destruct (Hkeep He). split_and!; done.
    + rewrite (Hst eq_refl) in *. destruct (td_threshold d <=? s + 1).
      * destruct (Hflip He). done.
      * destruct (Hkeep He). split_and!; [done|done|done|done|done].
Qed.

(** Whatever the history of a track, the detector is failing exactly when the
    contract says it is down (the threshold of consecutive failures reached,
    no success since), and the events it emits alternate: probe_failed and
    probe_recovered, never two of a kind in a row, so every recovery resolves
    a declared failure (or the failure the persisted status stands for). *)
Theorem transitions_alternate d id v seed rs :
  let st0 := track d id v seed in
  let (d', es) := run_track d id v seed rs in
  pst_failing (track d' id v seed) = (down_after (td_threshold d) (pst_failing st0) (pst_streak st0) rs).1
  ∧ alternates (negb (pst_failing st0)) (transitions es).
Proof.
  cbv zeta. pose proof (run_track_state d id v seed rs) as H. cbv zeta in H.
  destruct (run_track d id v seed rs) as [d' es]. destruct (down_after _ _ _ rs) as [dn s].
  destruct H as (_ & -> & _ & Ha & _). done.
Qed.
