(* ===== verification/AgentCommand.v ===== *)
(** The command channel from the center to its agents
    (src/internal/service/agent_command_service.go, the statements of
    internal/db/agent_commands.sql.go and agent_status.sql.go, and the
    handlers of internal/api/handler/agent_command.go): the whitelist and the
    remote-operations gate, the network boundary of scan targets, coalescing of
    pending commands, and the life of a command row.

    A payload is the decoded JSON object; [json.Marshal] is the parameter
    [marshal].  Whether a statement succeeds is given per call by [faults].
    [None] means that the expansion of the targets is still running. *)

From S2P Require Import Prelude NetAddr Cidr Db.

Open Scope Z_scope.

Record AgentCommandService := mkAgentCommandService {
  acs_remoteOpsEnabled : bool;
  acs_allowReservedTargets : bool
}.

Definition NewAgentCommandService (remoteOpsEnabled allowReservedTargets : bool) : AgentCommandService :=
  mkAgentCommandService remoteOpsEnabled allowReservedTargets.

Inductive enqueue_err :=
| ErrAgentIDRequired
| ErrRemoteOpsDisabled
| ErrUnknownCommand (command : string)
| BoundaryError (Reason : string)
| ErrDatabase.

Definition OpsCommands : gset string := {["restart"; "config-reload"; "logs-tail"]}.

Definition ValidCommands : gset string :=
  {["scan"; "probe"; "restart"; "config-reload"; "logs-tail"]}.

Definition IsOpsCommand (command : string) : bool := bool_decide (command ∈ OpsCommands).

(** A member of a decoded JSON object: a string, or anything else. *)
Inductive json_member := MemberString (s : string) | MemberOther (raw : string).

(** [map[string]interface{}]; [None] is the nil map. *)
Definition CommandPayload : Type := option (gmap string json_member).

(** * The tables and their statements *)

Record command_db := mkCommandDb {
  cd_commands : list AgentCommand;
  cd_seq : Z;                       (* sqlite_sequence of agent_commands *)
  cd_networks : list Network
}.

(** Which statements of one call succeed. *)
Record faults := mkFaults {
  ok_network : bool;
  ok_sweep : bool;
  ok_lookup : bool;
  ok_insert : bool
}.

Definition no_faults : faults := mkFaults true true true true.

Definition set_commands (db : command_db) (l : list AgentCommand) : command_db :=
  mkCommandDb l (cd_seq db) (cd_networks db).

(** [UPDATE ... WHERE agent_id = ? AND command = ? AND status = 'pending'] and
    its relatives select by these conditions. *)
Definition pending_of (agentID command : string) (c : AgentCommand) : bool :=
  bool_decide (ac_AgentID c = agentID) && bool_decide (ac_Command c = command)
  && bool_decide (ac_Status c = "pending").

Definition DeletePendingAgentCommandsByCommand (agentID command : string) (db : command_db) : command_db :=
  set_commands db (filter (fun c => pending_of agentID command c = false) (cd_commands db)).

(** [ORDER BY id DESC LIMIT 1]: the table is in id order. *)
Definition GetPendingAgentCommandByPayload (agentID command payload : string) (db : command_db)
    : option AgentCommand :=
  list.last (filter (fun c => pending_of agentID command c && bool_decide (ac_Payload c = payload) = true)
               (cd_commands db)).

(** AUTOINCREMENT: one past the largest id ever used; the insert fails when
    the ids are used up. *)
Definition CreateAgentCommand (agentID command payload : string) (now : Z) (db : command_db)
    : option (command_db * AgentCommand) :=
  if cd_seq db <? max_int64 then
    let row := mkAgentCommand (cd_seq db + 1) agentID command payload "pending" (DBTime now) None None in
    Some (mkCommandDb (cd_commands db ++ [row]) (cd_seq db + 1) (cd_networks db), row)
  else None.

Definition ack_row (now : Z) (c : AgentCommand) : AgentCommand :=
  mkAgentCommand (ac_ID c) (ac_AgentID c) (ac_Command c) (ac_Payload c) "acknowledged" (ac_CreatedAt c)
    (Some (DBTime now)) (ac_Result c).

Definition AckAgentCommand (id now : Z) (db : command_db) : command_db :=
  set_commands db
    ((fun c => if decide (ac_ID c = id ∧ ac_Status c = "pending") then ack_row now c else c)
       <$> cd_commands db).

Definition complete_row (status result : string) (c : AgentCommand) : AgentCommand :=
  mkAgentCommand (ac_ID c) (ac_AgentID c) (ac_Command c) (ac_Payload c) status (ac_CreatedAt c)
    (ac_AcknowledgedAt c) (Some result).

Definition CompleteAgentCommand (status result : string) (id : Z) (db : command_db) : command_db :=
  set_commands db
    ((fun c => if decide (ac_ID c = id) then complete_row status result c else c) <$> cd_commands db).

Definition ListPendingAgentCommands (agentID : string) (limit : nat) (db : command_db) : list AgentCommand :=
  take limit (filter (fun c => ac_AgentID c = agentID ∧ ac_Status c = "pending") (cd_commands db)).

(** [WHERE agent_id = ? LIMIT 1]; [None] is [sql.ErrNoRows]. *)
Definition GetNetworkByAgentID (agentID : string) (db : command_db) : option Network :=
  head (filter (fun n => net_AgentID n = Some agentID) (cd_networks db)).

(** * The boundary of a scan *)

(** [rawTargets, _ := payload["targets"].(string)]. *)
Definition raw_targets (p : CommandPayload) : string :=
  match p ≫= lookup "targets" with Some (MemberString s) => s | _ => "" end.

Definition maxSample : nat := 8.

Definition out_of_network_reason (net : Network) (cidr : string) (in_ out : list string) : string :=
  let sample := if (maxSample <? length out)%nat then take maxSample out ++ ["..."] else out in
  "scan targets are outside agent network " +:+ net_Name net +:+ " (" +:+ cidr +:+ "): "
  +:+ join ", " sample +:+ " (" +:+ itoa (Z.of_nat (length out)) +:+ " of "
  +:+ itoa (Z.of_nat (length in_ + length out)) +:+ " IPs out of network)".

(** The empty string accepts. *)
Definition validateScanTargets (s : AgentCommandService) (fuel : nat) (f : faults) (db : command_db)
    (agentID : string) (payload : CommandPayload) : option string :=
  let targets := trim_space (raw_targets payload) in
  if is_empty targets then Some ""
  else match ValidateTargetsFor targets (acs_allowReservedTargets s) with
       | Some rerr => Some ("invalid scan targets: " +:+ err_text rerr)
       | None =>
           match (if ok_network f then GetNetworkByAgentID agentID db else None) with
           | None => Some ""
           | Some net =>
               let cidr := default "" (net_Cidr net) in
               match ParseNetwork cidr with
               | Err ErrEmptyCIDR => Some ""
               | Err _ => Some ("agent network has invalid cidr: " +:+ cidr)
               | Ok ipNet =>
                   (fun r => match r with
                             | Err perr => "invalid scan targets: " +:+ err_text perr
                             | Ok (in_, out) =>
                                 if (0 <? length out)%nat then out_of_network_reason net cidr in_ out
                                 else ""
                             end)
                   <$> PartitionTargets fuel targets (Some ipNet)
               end
           end
       end.

(** * The service *)

Section service.
Context (marshal : CommandPayload → string).

Definition insert_command (f : faults) (agentID command payload : string) (now : Z) (db : command_db)
    : command_db * result enqueue_err AgentCommand :=
  match (if ok_insert f then CreateAgentCommand agentID command payload now db else None) with
  | Some (db', row) => (db', Ok row)
  | None => (db, Err ErrDatabase)
  end.

(** The coalescing switch and the insert. *)
Definition store_command (f : faults) (agentID command payload : string) (now : Z) (db : command_db)
    : command_db * result enqueue_err AgentCommand :=
  if decide (command = "probe") then
    insert_command f agentID command payload now
      (if ok_sweep f then DeletePendingAgentCommandsByCommand agentID command db else db)
  else if decide (command = "scan") then
    match (if ok_lookup f then GetPendingAgentCommandByPayload agentID command payload db else None) with
    | Some existing => (db, Ok existing)
    | None => insert_command f agentID command payload now db
    end
  else insert_command f agentID command payload now db.

Definition Enqueue (s : AgentCommandService) (fuel : nat) (f : faults) (now : Z)
    (agentID command : string) (payload : CommandPayload) (db : command_db)
    : option (command_db * result enqueue_err AgentCommand) :=
  if is_empty agentID then Some (db, Err ErrAgentIDRequired)
  else
    let command := if is_empty command then "scan" else command in
    if negb (bool_decide (command ∈ ValidCommands)) then Some (db, Err (ErrUnknownCommand command))
    else if IsOpsCommand command && negb (acs_remoteOpsEnabled s) then Some (db, Err ErrRemoteOpsDisabled)
    else
      reason ← (if decide (command = "scan") then validateScanTargets s fuel f db agentID payload
                else Some "");
      if negb (is_empty reason) then Some (db, Err (BoundaryError reason))
      else Some (store_command f agentID command (marshal payload) now db).

Definition Ack (ok : bool) (id now : Z) (db : command_db) : command_db * bool :=
  if ok then (AckAgentCommand id now db, true) else (db, false).

Definition Complete (ok : bool) (id : Z) (status result : string) (db : command_db) : command_db * bool :=
  let status := if bool_decide (status ≠ "done") && bool_decide (status ≠ "failed") then "done" else status in
  if ok then (CompleteAgentCommand status result id db, true) else (db, false).

(** * The handlers *)

Inductive body :=
| BodyError (msg : string)
| BodyCommand (c : AgentCommand)
| BodyCommands (cs : list AgentCommand)
| BodyNone.

Record response := mkResponse { rsp_status : Z; rsp_body : body }.

Record AuditLog := mkAuditLog { al_UserID : Z; al_Action : string; al_ResourceID : string; al_Details : string }.

(** [err.Error()] of the errors that are shown to the client. *)
Definition enqueue_err_text (e : enqueue_err) : string :=
  match e with
  | ErrAgentIDRequired => "agent_id is required"
  | ErrRemoteOpsDisabled => "remote ops commands are disabled on the center (agent_fleet.remote_ops_enabled)"
  | ErrUnknownCommand c => "unknown command: " +:+ c
  | BoundaryError r => r
  | ErrDatabase => ""
  end.

(** The [switch] over the error of [Enqueue]. *)
Definition error_response (e : enqueue_err) : response :=
  match e with
  | ErrAgentIDRequired | ErrUnknownCommand _ | BoundaryError _ => mkResponse 400 (BodyError (enqueue_err_text e))
  | ErrRemoteOpsDisabled => mkResponse 403 (BodyError (enqueue_err_text e))
  | ErrDatabase => mkResponse 500 (BodyError "failed to create agent command")
  end.

(** [req] is the decoded body, [None] when decoding fails; [user] the user of
    the request context; [audited] that the handler has an audit repository. *)
Definition Create (s : AgentCommandService) (fuel : nat) (f : faults) (now : Z) (audited : bool)
    (user : option Z) (agentID : string) (req : option (string * CommandPayload)) (db : command_db)
    : option (command_db * list AuditLog * response) :=
  if is_empty agentID then Some (db, [], mkResponse 400 (BodyError "agent_id is required"))
  else match req with
  | None => Some (db, [], mkResponse 400 (BodyError "invalid request body"))
  | Some (command, payload) =>
      '(db', r) ← Enqueue s fuel f now agentID command payload db;
      match r with
      | Err e => Some (db', [], error_response e)
      | Ok row =>
          let audit :=
            match user with
            | Some uid => if IsOpsCommand (ac_Command row) && audited
                          then [mkAuditLog uid "agent.ops_command" agentID ("command=" +:+ ac_Command row)]
                          else []
            | None => []
            end in
          Some (db', audit, mkResponse 201 (BodyCommand row))
      end
  end.

Definition Poll (ok : bool) (agent : option string) (db : command_db) : response :=
  match agent with
  | None => mkResponse 401 (BodyError "agent auth required")
  | Some agentID =>
      if ok then mkResponse 200 (BodyCommands (ListPendingAgentCommands agentID 10 db))
      else mkResponse 500 (BodyError "failed to poll commands")
  end.

(** [strconv.ParseInt(chi.URLParam(r, "id"), 10, 64)] with the check [id <= 0]. *)
Definition command_id (param : string) : option Z :=
  match atoi param with Some id => if id <=? 0 then None else Some id | None => None end.

Definition AckHandler (ok : bool) (param : string) (now : Z) (db : command_db) : command_db * response :=
  match command_id param with
  | None => (db, mkResponse 400 (BodyError "invalid command id"))
  | Some id =>
      match Ack ok id now db with
      | (db', true) => (db', mkResponse 204 BodyNone)
      | (db', false) => (db', mkResponse 500 (BodyError "failed to ack command"))
      end
  end.

(** The request body after decoding: empty bodies leave the zero values. *)
Inductive complete_body := EmptyBody | MalformedBody | CompleteBody (status result : string).

Definition CompleteHandler (ok : bool) (param : string) (req : complete_body) (db : command_db)
    : command_db * response :=
  match command_id param with
  | None => (db, mkResponse 400 (BodyError "invalid command id"))
  | Some id =>
      match req with
      | MalformedBody => (db, mkResponse 400 (BodyError "malformed request body"))
      | EmptyBody | CompleteBody _ _ =>
          let '(status, result) := match req with CompleteBody s r => (s, r) | _ => ("", "") end in
          match Complete ok id status result db with
          | (db', true) => (db', mkResponse 204 BodyNone)
          | (db', false) => (db', mkResponse 500 (BodyError "failed to complete command"))
          end
      end
  end.

End service.

(** * Fleet status *)

Record AgentSelfInterface := mkSelfInterface {
  si_Name : string;
  si_CIDR : string;
  si_Primary : bool
}.

Record AgentMeta := mkAgentMeta {
  am_Version : string;
  am_GoVersion : string;
  am_Hostname : string;
  am_UptimeSec : Z;
  am_ScansTotal : Z;
  am_FingerprintRev : string;
  am_SupportedModules : list string;
  am_SelfInterfaces : list AgentSelfInterface
}.

(** The clock offset is kept in nanoseconds, the number the caller divides. *)
Record AgentStatus := mkAgentStatus {
  as_AgentID : string;
  as_Version : string;
  as_GoVersion : string;
  as_Hostname : string;
  as_UptimeSeconds : Z;
  as_ClockOffset : Z;
  as_ScansTotal : Z;
  as_FingerprintRev : string;
  as_SupportedModules : string;
  as_LastReportAt : Z
}.

Definition UpsertAgentStatus (agentID : string) (meta : option AgentMeta) (clockOffset now : Z)
    (t : gmap string AgentStatus) : gmap string AgentStatus :=
  <[agentID :=
      match meta with
      | Some m => mkAgentStatus agentID (am_Version m) (am_GoVersion m) (am_Hostname m) (am_UptimeSec m)
                    clockOffset (am_ScansTotal m) (am_FingerprintRev m)
                    (join "," (am_SupportedModules m)) now
      | None => mkAgentStatus agentID "" "" "" 0 clockOffset 0 "" "" now
      end]> t.
