(* ===== verification/AgentSpec.v ===== *)
(** Properties of the agent command channel. *)

From S2P Require Import Prelude NetAddr Cidr CidrSpec Db AgentCommand.
From Stdlib Require Import Sorted.
From stdpp Require sorting.

Open Scope Z_scope.

(** * The network boundary *)

Section boundary.
Context (marshal : CommandPayload → string) (s : AgentCommandService) (db : command_db).
Context (agentID : string) (p : CommandPayload) (net : Network) (N : IPNet).
Context (Hagent : agentID ≠ "") (Htargets : trim_space (raw_targets p) ≠ "").
Context (Hvalid : ValidateTargetsFor (trim_space (raw_targets p)) (acs_allowReservedTargets s) = None).
Context (Hnet : GetNetworkByAgentID agentID db = Some net).
Context (Hcidr : ParseNetwork (default "" (net_Cidr net)) = Ok N).




End boundary.

(** What a stored command looks like to the caller of [Enqueue]. *)
Definition is_command (agentID command payload : string) (c : AgentCommand) : Prop :=
  ac_AgentID c = agentID ∧ ac_Command c = command ∧ ac_Payload c = payload ∧ ac_Status c = "pending".

Lemma pending_of_spec agentID command c :
  pending_of agentID command c = true ↔ ac_AgentID c = agentID ∧ ac_Command c = command ∧ ac_Status c = "pending".
Proof. unfold pending_of. rewrite !andb_true_iff, !bool_decide_eq_true. naive_solver. Qed.


Lemma GetPending_None agentID command payload db c :
  GetPendingAgentCommandByPayload agentID command payload db = None →
  c ∈ cd_commands db → ¬ is_command agentID command payload c.
Proof.
  intros H%last_None Hc (? & ? & ? & ?). apply (not_elem_of_nil c). rewrite <- H.
  apply list_elem_of_filter. split; [|done]. apply andb_true_iff. split; [|by apply bool_decide_eq_true].
  by apply pending_of_spec.
Qed.



Definition lab_network : Network := mkNetwork 1 "lab" (Some "10.0.0.0/24") (Some "agent-1").
Definition lab_db : command_db := mkCommandDb [] 0 [lab_network].
Definition lab_payload : CommandPayload := Some {["targets" := MemberString "10.0.0.0/30,10.0.1.7"]}.


(** The same request on a bound that the kernel can run: one address of three
    is outside, and the command is refused with the address named. *)
Example scan_outside_refused :
  Enqueue (fun _ => "{}") (NewAgentCommandService false false) 10 no_faults 0 "agent-1" "" lab_payload lab_db
  = Some (lab_db, Err (BoundaryError
      "scan targets are outside agent network lab (10.0.0.0/24): 10.0.1.7 (1 of 3 IPs out of network)")).
Proof. vm_compute. reflexivity. Qed.

(** The escape hatch for reserved targets passes validation and is then
    refused by the partition, which expands without it. *)
Example escape_hatch_refused :
  Enqueue (fun _ => "{}") (NewAgentCommandService false true) 10 no_faults 0 "agent-1" "scan"
    (Some {["targets" := MemberString "127.0.0.1"]})
    (mkCommandDb [] 0 [mkNetwork 1 "loop" (Some "127.0.0.0/8") (Some "agent-1")])
  = Some (mkCommandDb [] 0 [mkNetwork 1 "loop" (Some "127.0.0.0/8") (Some "agent-1")],
          Err (BoundaryError ("invalid scan targets: " +:+ err_text (ErrReservedTarget "127.0.0.1 is loopback")))).
Proof. vm_compute. reflexivity. Qed.

(** * Runs of the channel *)

(** What can happen to the tables: calls of the service, and changes of the
    networks by others. *)
Inductive command_action :=
| AEnqueue (f : faults) (now : Z) (agentID command : string) (p : CommandPayload)
| AAck (id now : Z)
| AComplete (id : Z) (status result : string)
| ASetNetworks (nets : list Network).

Section runs.
Context (marshal : CommandPayload → string) (s : AgentCommandService) (fuel : nat).

(** A call that is still expanding targets has not changed the tables. *)
Definition command_step (db : command_db) (a : command_action) : command_db :=
  match a with
  | AEnqueue f now agentID command p =>
      match Enqueue marshal s fuel f now agentID command p db with Some (db', _) => db' | None => db end
  | AAck id now => (Ack true id now db).1
  | AComplete id status result => (Complete true id status result db).1
  | ASetNetworks nets => mkCommandDb (cd_commands db) (cd_seq db) nets
  end.

Definition command_run (db : command_db) (l : list command_action) : command_db := fold_left command_step l db.

(** The tables as five cases of one statement each. *)
Inductive row_change : command_db → command_db → Prop :=
| rc_same l q n n' : row_change (mkCommandDb l q n) (mkCommandDb l q n')
| rc_insert db agentID command payload now :
    command ∈ ValidCommands → (IsOpsCommand command = true → acs_remoteOpsEnabled s = true) →
    cd_seq db < max_int64 → command ≠ "probe" →
    (command = "scan" → ∀ c, c ∈ cd_commands db → ¬ is_command agentID command payload c) →
    row_change db (mkCommandDb (cd_commands db ++
      [mkAgentCommand (cd_seq db + 1) agentID command payload "pending" (DBTime now) None None])
      (cd_seq db + 1) (cd_networks db))
| rc_probe db agentID payload now :
    cd_seq db < max_int64 →
    row_change db (mkCommandDb (cd_commands (DeletePendingAgentCommandsByCommand agentID "probe" db) ++
      [mkAgentCommand (cd_seq db + 1) agentID "probe" payload "pending" (DBTime now) None None])
      (cd_seq db + 1) (cd_networks db))
| rc_delete db agentID : row_change db (DeletePendingAgentCommandsByCommand agentID "probe" db)
| rc_ack db id now : row_change db (AckAgentCommand id now db)
| rc_complete db id status result :
    status ∈ ["done"; "failed"] → row_change db (CompleteAgentCommand status result id db).

Definition clean_action (a : command_action) : Prop :=
  match a with AEnqueue f _ _ _ _ => ok_lookup f = true ∧ ok_sweep f = true | _ => True end.

Lemma insert_command_cases f agentID command payload now db db' r :
  insert_command f agentID command payload now db = (db', r) →
  db' = db ∨ cd_seq db < max_int64 ∧ db' = mkCommandDb (cd_commands db ++
      [mkAgentCommand (cd_seq db + 1) agentID command payload "pending" (DBTime now) None None])
      (cd_seq db + 1) (cd_networks db).
Proof.
  unfold insert_command, CreateAgentCommand. destruct (ok_insert f); [|intros [= <- <-]; by left].
  destruct (Z.ltb_spec (cd_seq db) max_int64); intros [= <- <-]; [by right|by left].
Qed.

Lemma row_change_refl db : row_change db db.
Proof. destruct db. constructor. Qed.

Lemma Enqueue_change f now agentID command p db db' r :
  ok_lookup f = true → ok_sweep f = true →
  Enqueue marshal s fuel f now agentID command p db = Some (db', r) → row_change db db'.
Proof.
  intros Hl Hs. unfold Enqueue. destruct (is_empty agentID); [intros [= <- _]; apply row_change_refl|].
  cbv zeta. set (cmd := if is_empty command then "scan" else command). clearbody cmd.
  destruct (bool_decide_reflect (cmd ∈ ValidCommands)) as [Hv|]; cbn [negb];
    [|intros [= <- _]; apply row_change_refl].
  destruct (IsOpsCommand cmd && negb (acs_remoteOpsEnabled s)) eqn:Ho; [intros [= <- _]; apply row_change_refl|].
  assert (IsOpsCommand cmd = true → acs_remoteOpsEnabled s = true) as Ho'.
  { intros E. rewrite E in Ho. by destruct (acs_remoteOpsEnabled s). }
  destruct (if decide (cmd = "scan") then _ else _) as [reason|]; [|done]. cbn [mbind option_bind].
  destruct (negb (is_empty reason)); [intros [= <- _]; apply row_change_refl|].
  unfold store_command. rewrite Hl, Hs. intros [= H].
  case_decide as Ep.
  { apply insert_command_cases in H as [->|[Hq ->]]; rewrite Ep in *;
      [apply rc_delete|by apply (rc_probe db agentID (marshal p) now)]. }
  case_decide as Es.
  - destruct (GetPendingAgentCommandByPayload _ _ _ _) eqn:E; [injection H as <- <-; apply row_change_refl|].
    apply insert_command_cases in H as [->|[Hq ->]]; [apply row_change_refl|].
    apply rc_insert; [done..|]. intros _ c Hc. by eapply GetPending_None.
  - apply insert_command_cases in H as [->|[Hq ->]]; [apply row_change_refl|]. by apply rc_insert.
Qed.

Lemma command_step_change db a : clean_action a → row_change db (command_step db a).
Proof.
  destruct a as [f now agentID command p|id now|id status result|nets]; cbn [clean_action command_step].
  - intros [? ?]. destruct (Enqueue _ _ _ _ _ _ _ _ _) as [[db' r]|] eqn:E; [|apply row_change_refl].
    by eapply Enqueue_change.
  - intros _. apply rc_ack.
  - intros _. unfold Complete. cbv zeta. cbn [fst]. apply rc_complete.
    destruct (bool_decide_reflect (status ≠ "done")), (bool_decide_reflect (status ≠ "failed"));
      cbn [andb]; destruct (decide (status = "done")), (decide (status = "failed")); set_solver.
  - intros _. destruct db. constructor.
Qed.

(** ** The invariant of the queue *)

Definition scan_key (c : AgentCommand) : string * string := (ac_AgentID c, ac_Payload c).

Definition pending_cmd (command : string) (c : AgentCommand) : Prop :=
  ac_Command c = command ∧ ac_Status c = "pending".

#[local] Instance pending_cmd_dec command c : Decision (pending_cmd command c).
Proof. unfold pending_cmd. apply _. Defined.

Definition row_ok (c : AgentCommand) : Prop :=
  ac_Command c ∈ ValidCommands
  ∧ (IsOpsCommand (ac_Command c) = true → acs_remoteOpsEnabled s = true)
  ∧ ac_Status c ∈ ["pending"; "acknowledged"; "done"; "failed"].

Record queue_ok (db : command_db) : Prop := mkQueueOk {
  q_ids : StronglySorted Z.lt (ac_ID <$> cd_commands db);
  q_seq : Forall (fun c => 0 < ac_ID c ≤ cd_seq db) (cd_commands db);
  q_bound : 0 ≤ cd_seq db ≤ max_int64;
  q_rows : Forall row_ok (cd_commands db);
  q_scans : NoDup (scan_key <$> filter (pending_cmd "scan") (cd_commands db));
  q_probes : NoDup (ac_AgentID <$> filter (pending_cmd "probe") (cd_commands db))
}.

(** A statement that rewrites rows in place keeps their identity and moves
    no row back to pending. *)
Record row_update (f : AgentCommand → AgentCommand) : Prop := mkRowUpdate {
  ru_id c : ac_ID (f c) = ac_ID c;
  ru_agent c : ac_AgentID (f c) = ac_AgentID c;
  ru_command c : ac_Command (f c) = ac_Command c;
  ru_payload c : ac_Payload (f c) = ac_Payload c;
  ru_status c : f c = c ∨ ac_Status (f c) ∈ ["acknowledged"; "done"; "failed"]
}.

Lemma filter_fmap_sublist {B} (f : AgentCommand → AgentCommand) command (key : AgentCommand → B) l :
  row_update f → (∀ c, key (f c) = key c) →
  key <$> filter (pending_cmd command) (f <$> l) `sublist_of` key <$> filter (pending_cmd command) l.
Proof.
  intros Hf Hk. induction l as [|c l IH]; [constructor|]. cbn [fmap list_fmap]. rewrite !filter_cons.
  destruct (decide (pending_cmd command (f c))) as [[Hc Hp]|].
  - destruct (ru_status f Hf c) as [E|E]; [|exfalso; rewrite Hp in E; set_solver].
    rewrite E in Hp, Hc. rewrite decide_True by done. cbn [fmap list_fmap]. rewrite Hk. by apply sublist_skip.
  - destruct (decide (pending_cmd command c)); [cbn [fmap list_fmap]; by apply sublist_cons|done].
Qed.

Lemma queue_ok_update f db : row_update f → queue_ok db → queue_ok (set_commands db (f <$> cd_commands db)).
Proof.
  intros Hf [H1 H2 H3 H4 H5 H6]. split; cbn [set_commands cd_commands cd_seq].
  - rewrite <- list_fmap_compose. erewrite list_fmap_ext; [exact H1|]. intros; apply (ru_id f Hf).
  - apply Forall_fmap. eapply Forall_impl; [|exact H2]. intros c ?. unfold compose. by rewrite (ru_id f Hf).
  - done.
  - apply Forall_fmap. eapply Forall_impl; [|exact H4]. intros c (V & O & St). unfold compose, row_ok.
    rewrite (ru_command f Hf). split_and!; [done..|].
    destruct (ru_status f Hf c) as [->|E]; [done|set_solver].
  - eapply sublist_NoDup; [exact H5|]. apply filter_fmap_sublist; [done|]. intros c. unfold scan_key.
    by rewrite (ru_agent f Hf), (ru_payload f Hf).
  - eapply sublist_NoDup; [exact H6|]. apply filter_fmap_sublist; [done|]. apply (ru_agent f Hf).
Qed.

Lemma ack_update id now :
  row_update (fun c => if decide (ac_ID c = id ∧ ac_Status c = "pending") then ack_row now c else c).
Proof. split; intros c; case_decide; try done; [right; cbn; set_solver|by left]. Qed.

Lemma complete_update id status result :
  status ∈ ["done"; "failed"] → row_update (fun c => if decide (ac_ID c = id) then complete_row status result c else c).
Proof. intros Hs. split; intros c; case_decide; try done; [right; cbn; set_solver|by left]. Qed.

Lemma queue_ok_sublist db l :
  queue_ok db → l `sublist_of` cd_commands db → queue_ok (set_commands db l).
Proof.
  intros [H1 H2 H3 H4 H5 H6] Hl. split; cbn [set_commands cd_commands cd_seq];
    eauto using StronglySorted_sublist, sublist_NoDup with steward.
Qed.

Lemma queue_ok_insert db c :
  queue_ok db → cd_seq db < max_int64 → ac_ID c = cd_seq db + 1 → row_ok c →
  (pending_cmd "scan" c → ∀ c', c' ∈ cd_commands db → pending_cmd "scan" c' → scan_key c' ≠ scan_key c) →
  (pending_cmd "probe" c → ∀ c', c' ∈ cd_commands db → pending_cmd "probe" c' → ac_AgentID c' ≠ ac_AgentID c) →
  queue_ok (mkCommandDb (cd_commands db ++ [c]) (cd_seq db + 1) (cd_networks db)).
Proof.
  intros [H1 H2 H3 H4 H5 H6] Hs Hid Hrow Hscan Hprobe. split; cbn [cd_commands cd_seq].
  - rewrite fmap_app. apply sorting.StronglySorted_app. split_and!; [|done|by repeat constructor].
    intros x y (c0 & -> & Hc0)%list_elem_of_fmap Hy%list_elem_of_singleton. cbn in Hy.
    rewrite list.Forall_forall in H2. specialize (H2 _ Hc0). lia.
  - apply Forall_app. split; [|constructor; [lia|constructor]].
    eapply Forall_impl; [|exact H2]. cbv beta. lia.
  - lia.
  - apply Forall_app. split; [done|by apply Forall_singleton].
  - by apply NoDup_filter_snoc.
  - by apply NoDup_filter_snoc.
Qed.

Lemma row_change_queue_ok db db' : row_change db db' → queue_ok db → queue_ok db'.
Proof.
  destruct 1 as [l q n n'|db agentID command payload now Hv Ho Hs Hp Hn|db agentID payload now Hs|db agentID
                |db id now|db id status result Hst]; intros Hq.
  - by destruct Hq.
  - apply queue_ok_insert; [done..|split_and!; [done..|cbn; set_solver]| |].
    + intros [Hc _] c' Hc' [Hc1 Hc2] Hk. cbn in Hc. injection Hk as ??. apply (Hn Hc c' Hc').
      split_and!; congruence.
    + by intros [Hc _].
  - apply (queue_ok_insert (DeletePendingAgentCommandsByCommand agentID "probe" db)); [|done..| | |].
    + apply queue_ok_sublist, sublist_filter. done.
    + split_and!; [set_solver|by vm_compute|cbn; set_solver].
    + by intros [Hc _].
    + intros _ c' [Hf _]%list_elem_of_filter [Hc1 Hc2] Ha. cbn in Ha.
      enough (pending_of agentID "probe" c' = true) by congruence. by apply pending_of_spec.
  - apply queue_ok_sublist, sublist_filter. done.
  - apply queue_ok_update, Hq. apply ack_update.
  - apply queue_ok_update, Hq. by apply complete_update.
Qed.

(** ** The life of a row *)

Definition status_rank (st : string) : Z :=
  if decide (st = "pending") then 0 else if decide (st = "acknowledged") then 1 else 2.

(** [c'] is a later version of [c]. *)
Definition succeeds (c c' : AgentCommand) : Prop :=
  ac_ID c = ac_ID c' ∧ ac_AgentID c = ac_AgentID c' ∧ ac_Command c = ac_Command c'
  ∧ ac_Payload c = ac_Payload c' ∧ ac_CreatedAt c = ac_CreatedAt c'
  ∧ status_rank (ac_Status c) ≤ status_rank (ac_Status c').

(** Rows are new or later versions; a row disappears only as a pending probe. *)
Definition evolves (db db' : command_db) : Prop :=
  cd_seq db ≤ cd_seq db'
  ∧ (∀ c', c' ∈ cd_commands db' → cd_seq db < ac_ID c' ∨ ∃ c, c ∈ cd_commands db ∧ succeeds c c')
  ∧ (∀ c, c ∈ cd_commands db →
       (∃ c', c' ∈ cd_commands db' ∧ succeeds c c') ∨ ac_Command c = "probe" ∧ ac_Status c = "pending").

#[local] Instance succeeds_preorder : PreOrder succeeds.
Proof.
  split; [by intros c; split_and!|]. intros c1 c2 c3 (? & ? & ? & ? & ? & ?) (? & ? & ? & ? & ? & ?).
  split_and!; first [congruence|lia].
Qed.

Lemma status_rank_0 st : status_rank st ≤ 0 → st = "pending".
Proof. unfold status_rank. repeat case_decide; (done || lia). Qed.

#[local] Instance evolves_preorder : PreOrder evolves.
Proof.
  split.
  - intros db. split; [lia|]. split; intros c Hc; [right|left]; by exists c.
  - intros d1 d2 d3 (S1 & N1 & O1) (S2 & N2 & O2). split; [lia|]. split.
    + intros c3 [?|(c2 & [?|(c1 & H1 & E1)]%N1 & E2)]%N2; [left; lia| |].
      * left. destruct E2 as (<- & _). done.
      * right. exists c1. split; [done|]. by etrans.
    + intros c1 [(c2 & [(c3 & H3 & E3)|[Hc Hp]]%O2 & E2)|?]%O1; [|right|by right].
      * left. exists c3. split; [done|]. by etrans.
      * destruct E2 as (_ & _ & -> & _ & _ & Hr). split; [done|]. apply status_rank_0.
        by rewrite Hp in Hr.
Qed.

Lemma evolves_update f db :
  row_update f → (∀ c, ac_CreatedAt (f c) = ac_CreatedAt c) →
  (∀ c, status_rank (ac_Status c) ≤ status_rank (ac_Status (f c))) →
  evolves db (set_commands db (f <$> cd_commands db)).
Proof.
  intros Hf Hc Hr. assert (∀ c, succeeds c (f c)) as Hs.
  { intros c. destruct Hf. split_and!; auto. }
  split; [done|]. cbn [set_commands cd_commands]. split.
  - intros c' (c & -> & ?)%list_elem_of_fmap. right. by exists c.
  - intros c ?. left. exists (f c). split; [|done]. by apply list_elem_of_fmap_2.
Qed.

Lemma evolves_insert db c :
  ac_ID c = cd_seq db + 1 →
  evolves db (mkCommandDb (cd_commands db ++ [c]) (cd_seq db + 1) (cd_networks db)).
Proof.
  intros Hid. split; [cbn; lia|]. cbn [cd_commands]. split.
  - intros c' [?|Hc%list_elem_of_singleton]%elem_of_app; [right; by exists c'|left; subst; lia].
  - intros c' ?. left. exists c'. split; [by apply elem_of_app; left|done].
Qed.

Lemma evolves_delete db agentID : evolves db (DeletePendingAgentCommandsByCommand agentID "probe" db).
Proof.
  split; [done|]. cbn [DeletePendingAgentCommandsByCommand set_commands cd_commands]. split.
  - intros c' [_ ?]%list_elem_of_filter. right. by exists c'.
  - intros c Hc. destruct (pending_of agentID "probe" c) eqn:E.
    + right. by apply pending_of_spec in E as (_ & ? & ?).
    + left. exists c. split; [by apply list_elem_of_filter|done].
Qed.

Lemma row_change_evolves db db' : row_change db db' → evolves db db'.
Proof.
  destruct 1 as [l q n n'|db agentID command payload now Hv Ho Hs Hp Hn|db agentID payload now Hs|db agentID
                |db id now|db id status result Hst].
  - split; [done|]. split; intros c Hc; [right|left]; by exists c.
  - by apply evolves_insert.
  - etrans; [apply (evolves_delete db agentID)|].
    by apply (evolves_insert (DeletePendingAgentCommandsByCommand agentID "probe" db)).
  - apply evolves_delete.
  - apply evolves_update; [apply ack_update|intros c; by case_decide|].
    intros c. case_decide as E; [|done]. destruct E as [_ ->]. vm_compute. discriminate.
  - apply evolves_update; [by apply complete_update|intros c; by case_decide|].
    intros c. case_decide; [|done]. cbn [complete_row ac_Status].
    assert (status_rank status = 2) as ->.
    { unfold status_rank. repeat case_decide; [set_solver..|done]. }
    unfold status_rank. repeat case_decide; lia.
Qed.

Lemma command_run_change db l :
  Forall clean_action l → rtc row_change db (command_run db l).
Proof.
  intros H. revert db. induction H as [|a l Ha _ IH]; intros db; [by apply rtc_refl|].
  eapply rtc_l; [by apply command_step_change|]. apply IH.
Qed.

End runs.

(** Coalescing bounds the queue.  Whatever calls are made, in whatever
    order and with whatever changes of the networks in between, as long as
    the coalescing statements succeed: ids are strictly increasing and never
    reused, every row carries a whitelisted command and a known status,
    operations commands exist only with the remote-operations switch on, no
    two pending scans of an agent have the same payload, and an agent has at
    most one pending probe plan. *)
Theorem queue_coalesced marshal s fuel nets l
    (Hl : Forall clean_action l) :
  queue_ok s (command_run marshal s fuel (mkCommandDb [] 0 nets) l).
Proof.
  apply (command_run_change marshal s fuel (mkCommandDb [] 0 nets)) in Hl.
  revert Hl. apply rtc_ind_r; [|intros; by eapply row_change_queue_ok].
  split; cbn; [constructor..|by vm_compute|constructor|constructor|constructor].
Qed.

Definition rescan : command_action := AEnqueue no_faults 0 "agent-1" "scan" lab_payload.
Definition plan (n : Z) : command_action :=
  AEnqueue no_faults n "agent-1" "probe" (Some {["plan" := MemberOther (itoa n)]}).

Lemma queue_coalesced_witness :
  queue_ok (NewAgentCommandService false false)
    (command_run raw_targets (NewAgentCommandService false false) 10 (mkCommandDb [] 0 [])
       [rescan; plan 1; rescan; plan 2; AAck 1 5; rescan; AComplete 1 "ok" "{}"])
  ∧ (fun c => (ac_ID c, ac_Command c, ac_Status c)) <$>
      cd_commands (command_run raw_targets (NewAgentCommandService false false) 10 (mkCommandDb [] 0 [])
       [rescan; plan 1; rescan; plan 2; AAck 1 5; rescan; AComplete 1 "ok" "{}"])
    = [(1, "scan", "done"); (3, "probe", "pending"); (4, "scan", "pending")].
Proof.
  split; [|vm_compute; reflexivity].
  apply (queue_coalesced raw_targets (NewAgentCommandService false false) 10 []). repeat constructor.
Defined.

(** C38.  The life of a command.  Between any two points of a run a row
    keeps its id, agent, command, payload and creation time, and its status
    only moves forward from pending over acknowledged to done or failed; rows
    that appear have fresh ids, and the only rows that disappear are pending
    probe plans. *)
Theorem command_lifecycle marshal s fuel db l (Hl : Forall clean_action l) :
  evolves db (command_run marshal s fuel db l).
Proof.
  apply (command_run_change marshal s fuel db) in Hl.
  revert Hl. apply rtc_ind_r; [apply evolves_preorder|]. intros d1 d2 _ Hc He.
  eapply evolves_preorder; [exact He|]. by eapply row_change_evolves.
Qed.

Lemma command_lifecycle_witness :
  evolves (command_run raw_targets (NewAgentCommandService false false) 10 (mkCommandDb [] 0 []) [rescan; plan 1])
    (command_run raw_targets (NewAgentCommandService false false) 10
       (command_run raw_targets (NewAgentCommandService false false) 10 (mkCommandDb [] 0 []) [rescan; plan 1])
       [plan 2; AComplete 1 "failed" "timeout"]).
Proof. apply command_lifecycle. repeat constructor. Defined.

(** Acknowledging and completing go by id alone: an agent that acknowledges
    the command of another hides it from its owner's polls. *)
Example foreign_ack_hides_command :
  let db := command_run raw_targets (NewAgentCommandService false false) 10 (mkCommandDb [] 0 []) [rescan] in
  rsp_body (Poll true (Some "agent-1") db) = BodyCommands (cd_commands db)
  ∧ rsp_body (Poll true (Some "agent-1") (AckHandler true "1" 7 db).1) = BodyCommands [].
Proof. vm_compute. split; reflexivity. Qed.
