(* ===== verification/DeviceStore.v ===== *)
(** Device identity (src/internal/service/scannerv2/store/sqlite.go and the
    identity types of scannerv2/repository.go): which row of [devices] a report
    is about, and the statements that create, update, move, park or replace
    the row.

    A row of [devices] is split into its identity and liveness columns and the
    descriptive rest.  JSON columns are kept decoded.  A statement that
    violates a constraint of the table (the unique index on address and
    network, the CHECK on the type) fails as a whole and changes nothing.  A
    read that fails for another reason is given by the oracle [q]. *)

From S2P Require Import Prelude Db Report.

Open Scope Z_scope.

(** * JSON values *)

Inductive json :=
| JNull
| JBool (b : bool)
| JNumber (text : string)
| JString (s : string)
| JArray (l : list json)
| JObject (o : list (string * json)).

(** An object as a list of members; the first one of a name counts. *)
Abbreviation jobject := (list (string * json)).

Fixpoint jget (k : string) (o : jobject) : option json :=
  match o with
  | [] => None
  | (k', v) :: o => if decide (k' = k) then Some v else jget k o
  end.

Definition jdel (k : string) (o : jobject) : jobject := filter (fun kv => kv.1 ≠ k) o.

Definition jset (k : string) (v : json) (o : jobject) : jobject := (k, v) :: jdel k o.

(** SQLite's [json_patch]: the merge patch of RFC 7396. *)
Fixpoint json_patch (target patch : json) {struct patch} : json :=
  match patch with
  | JObject ps =>
      JObject
        ((fix go (ps : jobject) (o : jobject) : jobject :=
            match ps with
            | [] => o
            | (k, v) :: ps =>
                go ps (match v with
                       | JNull => jdel k o
                       | _ => jset k (json_patch (default JNull (jget k o)) v) o
                       end)
            end) ps (match target with JObject o => o | _ => [] end))
  | _ => patch
  end.

(** * Rows *)

Record DeviceInfo := mkInfo {
  i_Name : string;
  i_Type : string;
  i_Brand : string;
  i_Model : string;
  i_Description : string;
  i_Location : string;
  i_OpenPorts : string;
  i_DetectedServices : string;
  i_PrometheusURL : string;
  i_NodeExporterURL : string;
  i_ScanAttributes : jobject;
  i_RTTMs : Z;
  i_Tags : string;
  i_ScanSource : string
}.

Record DeviceRow := mkRow {
  row_ID : Z;
  row_UUID : string;
  row_IP : string;
  row_MAC : string;
  row_Network : option Z;
  row_Status : string;
  row_FirstSeen : option Z;
  row_LastSeen : option Z;
  row_OfflineSince : option Z;
  row_LastScannedAt : option Z;
  row_UpdatedAt : Z;
  row_Info : DeviceInfo
}.

Record NetworkPresence := mkPresence {
  np_DeviceID : Z;
  np_NetworkID : Z;
  np_IPAddress : string;
  np_Vantage : string;
  np_FirstSeen : Z;
  np_LastSeen : Z
}.

Record device_db := mkDeviceDb {
  dd_rows : list DeviceRow;
  dd_seq : Z;                       (* sqlite_sequence of devices *)
  dd_presence : list NetworkPresence
}.

Definition set_rows (db : device_db) (rows : list DeviceRow) : device_db :=
  mkDeviceDb rows (dd_seq db) (dd_presence db).

(** The CHECK on [devices.type]. *)
Definition device_types : list string :=
  ["pc"; "embedded"; "iot"; "other"; "server"; "switch"; "router"; "firewall"; "nas"; "camera"; "phone"; "printer"].

(** The unique index on [(ip_address, network_id)]: NULLs are distinct. *)
Definition same_slot (a b : DeviceRow) : bool :=
  match row_Network a, row_Network b with
  | Some m, Some n => bool_decide (row_IP a = row_IP b) && (m =? n)
  | _, _ => false
  end.

Definition conflicts (r : DeviceRow) (others : list DeviceRow) : bool :=
  existsb (fun o => negb (row_ID o =? row_ID r) && same_slot r o) others.

Definition check_ok (r : DeviceRow) : bool := bool_decide (i_Type (row_Info r) ∈ device_types).

(** [UPDATE devices SET ... WHERE id = ?]; [None] is a constraint violation. *)
Definition update_row (f : DeviceRow → DeviceRow) (id : Z) (db : device_db) : option device_db :=
  let rows' := (fun r => if row_ID r =? id then f r else r) <$> dd_rows db in
  if forallb (fun r => negb (row_ID r =? id) || check_ok (f r) && negb (conflicts (f r) rows')) (dd_rows db)
  then Some (set_rows db rows') else None.

(** A statement whose error is logged or dropped. *)
Definition exec (o : option device_db) (db : device_db) : device_db := default db o.

Definition with_info (f : DeviceInfo → DeviceInfo) (r : DeviceRow) : DeviceRow :=
  mkRow (row_ID r) (row_UUID r) (row_IP r) (row_MAC r) (row_Network r) (row_Status r) (row_FirstSeen r)
    (row_LastSeen r) (row_OfflineSince r) (row_LastScannedAt r) (row_UpdatedAt r) (f (row_Info r)).

Definition touch (now : Z) (r : DeviceRow) : DeviceRow :=
  mkRow (row_ID r) (row_UUID r) (row_IP r) (row_MAC r) (row_Network r) (row_Status r) (row_FirstSeen r)
    (row_LastSeen r) (row_OfflineSince r) (row_LastScannedAt r) now (row_Info r).

(** * Locations *)

Definition AnchorIPPrefix : string := "#anchor:".

Definition AnchorIP (mac : string) : string := AnchorIPPrefix +:+ mac.

Definition CarriesNoLocation (ip : string) : bool := bool_decide (ip = "") || has_prefix AnchorIPPrefix ip.

(** * MAC bits *)

(** [mac[1]] as a hexadecimal digit. *)
Definition hex_digit (a : ascii) : option Z :=
  let z := ascii_Z a in
  if (48 <=? z) && (z <=? 57) then Some (z - 48)
  else if (97 <=? z) && (z <=? 102) then Some (z - 97 + 10) else None.

Definition macBitSet (mac : string) (mask : Z) : bool :=
  if (String.length mac <? 17)%nat then false
  else match String.get 1 mac with
       | Some d => match hex_digit d with
                   | Some n => negb (Z.land n mask =? 0)
                   | None => false
                   end
       | None => false
       end.

Definition IsLocallyAdministeredMAC (mac : string) : bool := macBitSet mac 2.
Definition IsMulticastMAC (mac : string) : bool := macBitSet mac 1.

(** [strings.EqualFold] on texts of ASCII characters, such as canonical MAC
    addresses and service names. *)
Definition equal_fold (a b : string) : bool := bool_decide (to_lower a = to_lower b).

(** * Lookups *)

(** [WHERE ip_address = ? AND network_id = ?] (or [IS NULL]) [LIMIT 1]. *)
Definition slot_row (ip : string) (networkID : option Z) (db : device_db) : option DeviceRow :=
  head (filter (fun r => row_IP r = ip ∧ row_Network r = networkID) (dd_rows db)).

Definition empty_slot_row (ip : string) (networkID : option Z) (db : device_db) : option DeviceRow :=
  head (filter (fun r => row_IP r = ip ∧ row_Network r = networkID ∧ row_MAC r = "") (dd_rows db)).

(** [ORDER BY (status='online') DESC, last_seen DESC]: NULL sorts last. *)
Definition fresher (a b : DeviceRow) : bool :=
  let online r := bool_decide (row_Status r = "online") in
  if online a then if online b then
       match row_LastSeen a, row_LastSeen b with
       | Some x, Some y => y <? x | Some _, None => true | None, _ => false
       end else true
  else if online b then false
  else match row_LastSeen a, row_LastSeen b with
       | Some x, Some y => y <? x | Some _, None => true | None, _ => false
       end.

Definition best (rows : list DeviceRow) : option DeviceRow :=
  fold_left (fun acc r => match acc with
                          | None => Some r
                          | Some b => if fresher r b then Some r else Some b
                          end) rows None.

Definition mac_row (mac : string) (db : device_db) : option DeviceRow :=
  best (filter (fun r => row_MAC r = mac) (dd_rows db)).

Definition get_row (id : Z) (db : device_db) : option DeviceRow :=
  head (filter (fun r => row_ID r = id) (dd_rows db)).

Definition PresenceFreshWindow : Z := 24 * 60 * minute.

Definition HasFreshPresenceOutside (db : device_db) (now deviceID reportingNetworkID maxAge : Z) : bool :=
  if deviceID =? 0 then false
  else existsb (fun p => (np_DeviceID p =? deviceID) && negb (np_NetworkID p =? reportingNetworkID)
                         && (DBTime (now - maxAge) <=? np_LastSeen p)) (dd_presence db).

(** The [mac_aliases] member, an array of strings where it was written by this
    package, as [json.Unmarshal] into [[]string] reads it. *)
Fixpoint json_strings (l : list json) : option (list string) :=
  match l with
  | [] => Some []
  | JString s :: l => cons s <$> json_strings l
  | JNull :: l => cons "" <$> json_strings l
  | _ => None
  end.

Definition alias_list (o : jobject) : option (list string) :=
  match jget "mac_aliases" o with
  | None | Some JNull => Some []
  | Some (JArray l) => json_strings l
  | Some _ => None
  end.

(** * Resolution *)

Record IdentityResolution := mkResolution {
  res_TargetID : Z;
  res_ReplacedID : Z;
  res_Roamed : bool;
  res_TakeOver : bool;
  res_IsNew : bool;
  res_ParkHolderID : Z
}.

#[export] Instance IdentityResolution_eq_dec : EqDecision IdentityResolution.
Proof. solve_decision. Defined.

Definition plain (id : Z) : IdentityResolution := mkResolution id 0 false false false 0.
Definition roamed (id park : Z) : IdentityResolution := mkResolution id 0 true false false park.
Definition new_row (park : Z) : IdentityResolution := mkResolution 0 0 false false true park.

(** The reads of one resolution; [q] says which of them fail. *)
Inductive identity_read := ReadSlot | ReadMac | ReadEmptySlot | ReadHolder | ReadRow | ReadPresence | ReadAlias.

Section resolve.
Context (q : identity_read → bool) (db : device_db) (now : Z).

Definition macIsHolderAlias (holder : DeviceRow) (mac : string) : bool :=
  if q ReadAlias then
    match alias_list (i_ScanAttributes (row_Info holder)) with
    | Some l => existsb (fun a => equal_fold a mac) l
    | None => false
    end
  else false.

(** A never-seen MAC at an occupied slot. *)
Definition resolve_unseen (mac ip : string) (networkID : option Z) : result unit IdentityResolution :=
  if CarriesNoLocation ip then Ok (new_row 0)
  else if q ReadEmptySlot then
    match empty_slot_row ip networkID db with
    | Some r => Ok (plain (row_ID r))
    | None =>
        match (if q ReadHolder then slot_row ip networkID db else None) with
        | Some h =>
            if decide (row_MAC h = "") then Ok (new_row 0)
            else if macIsHolderAlias h mac then Ok (plain (row_ID h))
            else if IsLocallyAdministeredMAC mac && negb (IsLocallyAdministeredMAC (row_MAC h))
            then Ok (new_row (row_ID h))
            else Ok (mkResolution (row_ID h) 0 false true false 0)
        | None => Ok (new_row 0)
        end
    end
  else Err tt.

(** The MAC matched row [t]. *)
Definition resolve_seen (t : DeviceRow) (mac ip : string) (networkID : option Z) : IdentityResolution :=
  if negb (q ReadRow) then plain (row_ID t)
  else if bool_decide (row_IP t = ip) || CarriesNoLocation ip then plain (row_ID t)
  else if match networkID, row_Network t with
          | Some n, Some home =>
              negb (n =? home) && q ReadPresence
              && HasFreshPresenceOutside db now (row_ID t) n PresenceFreshWindow
          | _, _ => false
          end
  then plain (row_ID t)
  else if negb (q ReadHolder) then plain (row_ID t)
  else match slot_row ip networkID db with
       | None => roamed (row_ID t) 0
       | Some h =>
           if decide (row_MAC h = "" ∨ row_MAC h = mac) then plain (row_ID t)
           else if macIsHolderAlias h mac then plain (row_ID h)
           else if IsLocallyAdministeredMAC mac && negb (IsLocallyAdministeredMAC (row_MAC h))
           then roamed (row_ID t) (row_ID h)
           else mkResolution (row_ID h) (row_ID t) false false false 0
       end.

Definition ResolveDeviceIdentity (mac ip : string) (networkID : option Z) : result unit IdentityResolution :=
  if decide (mac = "") then
    if q ReadSlot then
      match slot_row ip networkID db with
      | None => Ok (new_row 0)
      | Some r => Ok (plain (row_ID r))
      end
    else Err tt
  else if q ReadMac then
    match mac_row mac db with
    | None => resolve_unseen mac ip networkID
    | Some t => Ok (resolve_seen t mac ip networkID)
    end
  else Err tt.

End resolve.

(** * Writing *)

Record IdentityWrite := mkWrite {
  iw_Res : IdentityResolution;
  iw_IP : string;
  iw_MAC : string;
  iw_NetworkID : option Z;
  iw_Name : string;
  iw_Type : string;
  iw_Brand : string;
  iw_Model : string;
  iw_Description : string;
  iw_Location : string;
  iw_OpenPortsJSON : string;
  iw_DetectedServicesJSON : string;
  iw_PrometheusURL : string;
  iw_NodeExporterURL : string;
  iw_ScanAttributes : jobject;
  iw_TagsJSON : string;
  iw_RTTMs : Z
}.

(** [CASE WHEN (col = '' OR col = 'unknown') AND ? != '' THEN ? ELSE col END]. *)
Definition fill (junk : list string) (stored scanned : string) : string :=
  if decide (stored ∈ junk ∧ scanned ≠ "") then scanned else stored.

(** [CASE WHEN ? != '' THEN ? ELSE col END]. *)
Definition overwrite (stored scanned : string) : string := if decide (scanned = "") then stored else scanned.

Definition patch_attrs (stored patch : jobject) : jobject :=
  match json_patch (JObject stored) (JObject patch) with JObject o => o | _ => [] end.

(** The columns both variants set alike. *)
Definition scan_columns (w : IdentityWrite) (name type brand model descr location : string) (i : DeviceInfo)
    : DeviceInfo :=
  mkInfo name type brand model descr location
    (overwrite (i_OpenPorts i) (iw_OpenPortsJSON w))
    (overwrite (i_DetectedServices i) (iw_DetectedServicesJSON w))
    (overwrite (i_PrometheusURL i) (iw_PrometheusURL w))
    (overwrite (i_NodeExporterURL i) (iw_NodeExporterURL w))
    (patch_attrs (i_ScanAttributes i) (iw_ScanAttributes w))
    (iw_RTTMs w) (i_Tags i) (i_ScanSource i).

Definition stamped (now : Z) (r : DeviceRow) : DeviceRow :=
  mkRow (row_ID r) (row_UUID r) (row_IP r) (row_MAC r) (row_Network r) (row_Status r) (row_FirstSeen r)
    (row_LastSeen r) (row_OfflineSince r) (Some now) now (row_Info r).

Definition existingIdentityUpdate (w : IdentityWrite) (now : Z) (r : DeviceRow) : DeviceRow :=
  let i := row_Info r in
  let junk := ["" : string; "unknown"] in
  stamped now (with_info (scan_columns w
    (if decide (i_Name i = "" ∨ i_Name i = row_IP r) then iw_Name w else i_Name i)
    (fill ["" : string; "unknown"; "other"] (i_Type i) (iw_Type w))
    (fill junk (i_Brand i) (iw_Brand w))
    (fill junk (i_Model i) (iw_Model w))
    (fill junk (i_Description i) (iw_Description w))
    (fill junk (i_Location i) (iw_Location w))) r).

Definition replacementIdentityUpdate (w : IdentityWrite) (now : Z) (r : DeviceRow) : DeviceRow :=
  let i := row_Info r in
  stamped now (with_info (scan_columns w
    (iw_Name w)
    (overwrite (i_Type i) (iw_Type w))
    (overwrite (i_Brand i) (iw_Brand w))
    (overwrite (i_Model i) (iw_Model w))
    (overwrite (i_Description i) (iw_Description w))
    (overwrite (i_Location i) (iw_Location w))) r).

(** ** Heals *)

Definition is_letter (a : ascii) : bool :=
  let z := ascii_Z a in (65 <=? z) && (z <=? 90) || (97 <=? z) && (z <=? 122).

(** The brands listed in web_server_brands.txt. *)
Definition WebServerBrandNames : list string :=
  ["nginx"; "apache"; "caddy"; "lighttpd"; "microsoft iis"; "minidlna"; "readymedia"; "portable"; "sdk"].

Definition junk_brand (brand : string) : bool :=
  bool_decide (to_lower brand ∈ WebServerBrandNames) || forall_string (fun a => negb (is_letter a)) brand.

Definition set_brand (brand : string) (i : DeviceInfo) : DeviceInfo :=
  mkInfo (i_Name i) (i_Type i) brand (i_Model i) (i_Description i) (i_Location i) (i_OpenPorts i)
    (i_DetectedServices i) (i_PrometheusURL i) (i_NodeExporterURL i) (i_ScanAttributes i) (i_RTTMs i)
    (i_Tags i) (i_ScanSource i).

Definition set_name (name : string) (i : DeviceInfo) : DeviceInfo :=
  mkInfo name (i_Type i) (i_Brand i) (i_Model i) (i_Description i) (i_Location i) (i_OpenPorts i)
    (i_DetectedServices i) (i_PrometheusURL i) (i_NodeExporterURL i) (i_ScanAttributes i) (i_RTTMs i)
    (i_Tags i) (i_ScanSource i).

Definition set_attrs (attrs : jobject) (i : DeviceInfo) : DeviceInfo :=
  mkInfo (i_Name i) (i_Type i) (i_Brand i) (i_Model i) (i_Description i) (i_Location i) (i_OpenPorts i)
    (i_DetectedServices i) (i_PrometheusURL i) (i_NodeExporterURL i) attrs (i_RTTMs i) (i_Tags i)
    (i_ScanSource i).

(** The junk-brand heal. *)
Definition heal_brand (w : IdentityWrite) (now : Z) (r : DeviceRow) : DeviceRow :=
  let brand := i_Brand (row_Info r) in
  if bool_decide (to_lower brand ≠ to_lower (iw_Brand w)) && junk_brand brand
  then touch now (with_info (set_brand (iw_Brand w)) r) else r.

(** [utf8.ValidString] and no [unicode.IsControl] rune, by the leading byte of
    each encoding.  The control runes are U+0000-1F and U+007F-9F. *)
Definition cont (lo hi : Z) (a : ascii) : bool := (lo <=? ascii_Z a) && (ascii_Z a <=? hi).

Fixpoint plain_text (s : string) : bool :=
  match s with
  | EmptyString => true
  | String a s1 =>
      let z := ascii_Z a in
      if z <? 128 then (32 <=? z) && negb (z =? 127) && plain_text s1
      else match s1 with
      | EmptyString => false
      | String b s2 =>
          if (194 <=? z) && (z <=? 223)
          then cont 128 191 b && negb ((z =? 194) && (ascii_Z b <=? 159)) && plain_text s2
          else match s2 with
          | EmptyString => false
          | String c s3 =>
              if (224 <=? z) && (z <=? 239)
              then cont (if z =? 224 then 160 else 128) (if z =? 237 then 159 else 191) b
                   && cont 128 191 c && plain_text s3
              else match s3 with
              | EmptyString => false
              | String d s4 =>
                  (240 <=? z) && (z <=? 244)
                  && cont (if z =? 240 then 144 else 128) (if z =? 244 then 143 else 191) b
                  && cont 128 191 c && cont 128 191 d && plain_text s4
              end
          end
      end
  end.

Definition PlausibleHostname (s : string) : bool := negb (bool_decide (s = "")) && plain_text s.

(** The garbage-name heal with the strip of the hostname attribute, after the
    read of both columns. *)
Definition heal_name (w : IdentityWrite) (now : Z) (db : device_db) : device_db :=
  let id := res_TargetID (iw_Res w) in
  match get_row id db with
  | None => db
  | Some r =>
      let storedName := i_Name (row_Info r) in
      let db :=
        if negb (bool_decide (storedName = "")) && negb (bool_decide (storedName = iw_IP w))
           && negb (PlausibleHostname storedName)
        then exec (update_row (fun r => touch now (with_info (set_name
                     (if PlausibleHostname (iw_Name w) then iw_Name w else iw_IP w)) r)) id db) db
        else db in
      match jget "hostname" (i_ScanAttributes (row_Info r)) with
      | Some (JString h) =>
          if PlausibleHostname h then db
          else exec (update_row (fun r' => touch now (with_info (set_attrs
                       (jdel "hostname" (i_ScanAttributes (row_Info r)))) r')) id db) db
      | _ => db
      end
  end.

(** ** Aliases *)

Definition string_members (l : list json) : list string :=
  omap (fun j => match j with JString s => Some s | _ => None end) l.

Definition recordHolderAlias (id : Z) (mac : string) (db : device_db) : device_db :=
  if decide (mac = "") then db
  else
    let m := match get_row id db with Some r => i_ScanAttributes (row_Info r) | None => [] end in
    let list := match jget "mac_aliases" m with Some (JArray l) => string_members l | _ => [] end in
    if existsb (fun e => equal_fold e mac) list then db
    else exec (update_row (with_info (set_attrs
           (jset "mac_aliases" (JArray (JString <$> list ++ [mac])) m))) id db) db.

(** ** Stamps *)

Definition force_mac (mac : string) (now : Z) (r : DeviceRow) : DeviceRow :=
  mkRow (row_ID r) (row_UUID r) (row_IP r) mac (row_Network r) "online" (row_FirstSeen r) (Some now) None
    (Some now) now (row_Info r).

Definition supersede (now : Z) (r : DeviceRow) : DeviceRow :=
  mkRow (row_ID r) (row_UUID r) (row_IP r) (row_MAC r) (row_Network r) "offline" (row_FirstSeen r)
    (row_LastSeen r) (if decide (row_Status r ≠ "offline") then Some now else row_OfflineSince r)
    (row_LastScannedAt r) now (row_Info r).

(** The status update with the columns of a roam: [ip] and [net] are the
    assigned values, [None] when the clause is absent. *)
Definition stamp_online (ip : option string) (net : option Z) (mac : string) (now : Z) (r : DeviceRow) : DeviceRow :=
  mkRow (row_ID r) (row_UUID r) (default (row_IP r) ip)
    (if decide (mac ≠ "" ∧ row_MAC r = "") then mac else row_MAC r)
    (match net with Some n => Some n | None => row_Network r end)
    "online" (row_FirstSeen r) (Some now) None (Some now) now (row_Info r).

(** [DELETE ... WHERE ip_address = ? AND network AND mac_address = '' AND id != ?]. *)
Definition evict_placeholder (ip : string) (networkID : option Z) (id : Z) (db : device_db) : device_db :=
  set_rows db (filter (fun r => ¬ (row_IP r = ip ∧ row_Network r = networkID ∧ row_MAC r = "" ∧ row_ID r ≠ id))
                 (dd_rows db)).

Definition park_ip (id : Z) : string := "#park:" +:+ itoa id.

Definition park (now : Z) (r : DeviceRow) : DeviceRow :=
  mkRow (row_ID r) (row_UUID r) (park_ip (row_ID r)) (row_MAC r) (row_Network r) (row_Status r)
    (row_FirstSeen r) (row_LastSeen r) (row_OfflineSince r) (row_LastScannedAt r) now (row_Info r).

Definition updateDeviceIdentity (w : IdentityWrite) (now : Z) (db : device_db) : device_db :=
  let res := iw_Res w in
  let id := res_TargetID res in
  let updateSQL := if decide (res_ReplacedID res ≠ 0) then replacementIdentityUpdate else existingIdentityUpdate in
  let db := exec (update_row (updateSQL w now) id db) db in
  let db := exec (update_row (heal_brand w now) id db) db in
  let db := heal_name w now db in
  if decide (res_ReplacedID res ≠ 0 ∨ res_TakeOver res = true) then
    let prevMAC := match get_row id db with Some r => row_MAC r | None => "" end in
    let db := if negb (bool_decide (prevMAC = "")) && negb (equal_fold prevMAC (iw_MAC w))
              then recordHolderAlias id prevMAC db else db in
    let db := exec (update_row (force_mac (iw_MAC w) now) id db) db in
    if decide (res_ReplacedID res ≠ 0) then exec (update_row (supersede now) (res_ReplacedID res) db) db else db
  else if res_Roamed res then
    match update_row (stamp_online (Some (iw_IP w)) (iw_NetworkID w) (iw_MAC w) now) id db with
    | Some db => db
    | None =>
        let db := evict_placeholder (iw_IP w) (iw_NetworkID w) id db in
        exec (update_row (stamp_online (Some (iw_IP w)) None (iw_MAC w) now) id db) db
    end
  else exec (update_row (stamp_online None None (iw_MAC w) now) id db) db.

Definition createDeviceIdentity (uuid : string) (w : IdentityWrite) (now : Z) (db : device_db)
    : device_db * result unit Z :=
  let orEmpty s := if decide (s = "") then "[]" else s in
  let row :=
    mkRow (dd_seq db + 1) uuid (iw_IP w) (iw_MAC w) (iw_NetworkID w) "online" (Some now) (Some now) None
      (Some now) now
      (mkInfo (iw_Name w) (if decide (iw_Type w = "") then "other" else iw_Type w) (iw_Brand w) (iw_Model w)
         (iw_Description w) (iw_Location w) (orEmpty (iw_OpenPortsJSON w)) (orEmpty (iw_DetectedServicesJSON w))
         (iw_PrometheusURL w) (iw_NodeExporterURL w) (iw_ScanAttributes w) (iw_RTTMs w) (iw_TagsJSON w)
         "scanner_v2") in
  if check_ok row && negb (conflicts row (dd_rows db))
  then (mkDeviceDb (dd_rows db ++ [row]) (dd_seq db + 1) (dd_presence db), Ok (dd_seq db + 1))
  else (db, Err tt).

(** [uuid] is the value of [uuid.NewString]. *)
Definition ApplyDeviceIdentity (uuid : string) (w : IdentityWrite) (now : Z) (db : device_db)
    : device_db * result unit Z :=
  let now := DBTime now in
  let db := if decide (res_ParkHolderID (iw_Res w) ≠ 0)
            then exec (update_row (park now) (res_ParkHolderID (iw_Res w)) db) db else db in
  if res_IsNew (iw_Res w) then createDeviceIdentity uuid w now db
  else (updateDeviceIdentity w now db, Ok (res_TargetID (iw_Res w))).
