(* ===== verification/Json.v ===== *)
(** The JSON text of encoding/json as far as the sources use it: what
    [json.Marshal] writes for a value and what [json.Unmarshal] reads.

    Objects keep the order of their members; of two members of one name the
    decoder keeps the last. *)

From S2P Require Import Prelude NetAddr Db Report DeviceStore.

Open Scope Z_scope.

Definition dquote : ascii := "034"%char.
Definition backslash : ascii := "092"%char.
Definition byte_chr (z : Z) : ascii := ascii_of_N (Z.to_N z).

(** * Runes *)

Definition two_bytes (a b : ascii) : bool := cont 194 223 a && cont 128 191 b.

Definition three_bytes (a b c : ascii) : bool :=
  cont 224 239 a && cont (if ascii_Z a =? 224 then 160 else 128) (if ascii_Z a =? 237 then 159 else 191) b
  && cont 128 191 c.

Definition four_bytes (a b c d : ascii) : bool :=
  cont 240 244 a && cont (if ascii_Z a =? 240 then 144 else 128) (if ascii_Z a =? 244 then 143 else 191) b
  && cont 128 191 c && cont 128 191 d.

(** The size of the encoding at the head, 0 for an invalid one. *)
Definition rune_size (s : string) : nat :=
  match s with
  | EmptyString => 0
  | String a s1 =>
      if ascii_Z a <? 128 then 1
      else match s1 with
      | EmptyString => 0
      | String b s2 =>
          if two_bytes a b then 2
          else match s2 with
          | EmptyString => 0
          | String c s3 =>
              if three_bytes a b c then 3
              else match s3 with
              | EmptyString => 0
              | String d _ => if four_bytes a b c d then 4 else 0
              end
          end
      end
  end.

(** [utf8.ValidString]. *)
Fixpoint utf8_valid (s : string) : bool :=
  match rune_size s, s with
  | _, EmptyString => true
  | 1%nat, String _ s' => utf8_valid s'
  | 2%nat, String _ (String _ s') => utf8_valid s'
  | 3%nat, String _ (String _ (String _ s')) => utf8_valid s'
  | 4%nat, String _ (String _ (String _ (String _ s'))) => utf8_valid s'
  | _, _ => false
  end.

Definition bytes_string (l : list Z) : string := fold_right (fun z s => String (byte_chr z) s) "" l.

(** [utf8.AppendRune]. *)
Definition encode_rune (r : Z) : string :=
  let low k := 128 + Z.land (Z.shiftr r k) 63 in
  bytes_string
    (if r <? 128 then [r]
     else if r <? 2048 then [192 + Z.shiftr r 6; low 0]
     else if ((55296 <=? r) && (r <=? 57343)) || (1114111 <? r) then [239; 191; 189]
     else if r <? 65536 then [224 + Z.shiftr r 12; low 6; low 0]
     else [240 + Z.shiftr r 18; low 12; low 6; low 0]).

Definition replacement : string := bytes_string [239; 191; 189].

(** * Strings *)

Definition u_escape (r : Z) : string :=
  String backslash (String "u" (String (hex_char (Z.shiftr r 12)) (String (hex_char (Z.land (Z.shiftr r 8) 15))
    (String (hex_char (Z.land (Z.shiftr r 4) 15)) (String (hex_char (Z.land r 15)) ""))))).

(** One ASCII character, with the escapes of the encoder (HTML characters
    included). *)
Definition escape_ascii (a : ascii) : string :=
  let z := ascii_Z a in
  let esc c := String backslash (String c "") in
  if (z =? 34) || (z =? 92) then esc a
  else if z =? 8 then esc "b"%char else if z =? 12 then esc "f"%char else if z =? 10 then esc "n"%char
  else if z =? 13 then esc "r"%char else if z =? 9 then esc "t"%char
  else if (z <? 32) || (z =? 60) || (z =? 62) || (z =? 38) then u_escape z
  else String a "".

(** U+2028 and U+2029. *)
Definition line_separator (a b c : ascii) : bool :=
  (ascii_Z a =? 226) && (ascii_Z b =? 128) && ((ascii_Z c =? 168) || (ascii_Z c =? 169)).

Fixpoint quote_body (s : string) : string :=
  match rune_size s, s with
  | _, EmptyString => ""
  | 1%nat, String a s' => escape_ascii a +:+ quote_body s'
  | 2%nat, String a (String b s') => String a (String b (quote_body s'))
  | 3%nat, String a (String b (String c s')) =>
      if line_separator a b c then u_escape (8064 + ascii_Z c) +:+ quote_body s'
      else String a (String b (String c (quote_body s')))
  | 4%nat, String a (String b (String c (String d s'))) => String a (String b (String c (String d (quote_body s'))))
  | _, String _ s' => u_escape 65533 +:+ quote_body s'
  end.

Definition quote (s : string) : string := String dquote (quote_body s +:+ String dquote "").

Definition simple_escape (e : ascii) : option ascii :=
  let z := ascii_Z e in
  if (z =? 34) || (z =? 92) || (z =? 47) then Some e
  else if z =? 98 then Some (byte_chr 8) else if z =? 102 then Some (byte_chr 12)
  else if z =? 110 then Some (byte_chr 10) else if z =? 114 then Some (byte_chr 13)
  else if z =? 116 then Some (byte_chr 9) else None.

Definition hex4 (a b c d : ascii) : option Z :=
  x ← NetAddr.hex_digit a; y ← NetAddr.hex_digit b; z ← NetAddr.hex_digit c; w ← NetAddr.hex_digit d;
  Some (((x * 16 + y) * 16 + z) * 16 + w).

Definition push_str (p : string) (r : option (string * string)) : option (string * string) :=
  '(x, rest) ← r; Some (p +:+ x, rest).

(** A second half of a surrogate pair at the head. *)
Definition low_surrogate (s : string) : option (Z * string) :=
  match s with
  | String b (String u (String h1 (String h2 (String h3 (String h4 s'))))) =>
      if char_eqb b backslash && char_eqb u "u"%char then
        r ← hex4 h1 h2 h3 h4;
        if (56320 <=? r) && (r <=? 57343) then Some (r, s') else None
      else None
  | _ => None
  end.

(** The text after the opening quote: the string and what follows the closing
    one. *)
Fixpoint unquote (s : string) : option (string * string) :=
  match s with
  | EmptyString => None
  | String a s1 =>
      if char_eqb a dquote then Some ("", s1)
      else if char_eqb a backslash then
        match s1 with
        | EmptyString => None
        | String e s2 =>
            match simple_escape e with
            | Some c => push_str (String c "") (unquote s2)
            | None =>
                if negb (char_eqb e "u"%char) then None
                else match s2 with
                | String h1 (String h2 (String h3 (String h4 s3))) =>
                    match hex4 h1 h2 h3 h4 with
                    | None => None
                    | Some r =>
                        if (55296 <=? r) && (r <=? 56319) then
                          match s3 with
                          | String _ (String _ (String _ (String _ (String _ (String _ s4))))) =>
                              match low_surrogate s3 with
                              | Some (r2, _) =>
                                  push_str (encode_rune (65536 + (r - 55296) * 1024 + (r2 - 56320))) (unquote s4)
                              | None => push_str replacement (unquote s3)
                              end
                          | _ => push_str replacement (unquote s3)
                          end
                        else push_str (encode_rune r) (unquote s3)
                    end
                | _ => None
                end
            end
        end
      else if ascii_Z a <? 32 then None
      else match rune_size s, s1 with
      | 1%nat, _ => push_str (String a "") (unquote s1)
      | 2%nat, String b s2 => push_str (String a (String b "")) (unquote s2)
      | 3%nat, String b (String c s3) => push_str (String a (String b (String c ""))) (unquote s3)
      | 4%nat, String b (String c (String d s4)) => push_str (String a (String b (String c (String d "")))) (unquote s4)
      | _, _ => push_str replacement (unquote s1)
      end
  end.

(** * Numbers *)

Fixpoint take_digits (s : string) : string * string :=
  match s with
  | String a s' => if is_digit a then let (d, r) := take_digits s' in (String a d, r) else ("", s)
  | EmptyString => ("", "")
  end.

Definition some_digits (s : string) : option (string * string) :=
  match take_digits s with ("", _) => None | p => Some p end.

Definition int_part (s : string) : option (string * string) :=
  match s with
  | String a s' =>
      if char_eqb a "0"%char then Some ("0", s') else some_digits s
  | EmptyString => None
  end.

Definition frac_part (s : string) : option (string * string) :=
  match s with
  | String a s' =>
      if char_eqb a "."%char then '(d, r) ← some_digits s'; Some (String a d, r) else Some ("", s)
  | EmptyString => Some ("", s)
  end.

Definition exp_part (s : string) : option (string * string) :=
  match s with
  | String a s' =>
      if char_eqb a "e"%char || char_eqb a "E"%char then
        match s' with
        | String b s'' =>
            if char_eqb b "+"%char || char_eqb b "-"%char
            then '(d, r) ← some_digits s''; Some (String a (String b d), r)
            else '(d, r) ← some_digits s'; Some (String a d, r)
        | EmptyString => None
        end
      else Some ("", s)
  | EmptyString => Some ("", s)
  end.

Definition scan_number (s : string) : option (string * string) :=
  let '(sign, s) := match s with
                    | String a s' => if char_eqb a "-"%char then ("-", s') else ("", s)
                    | EmptyString => ("", s)
                    end in
  '(i, s) ← int_part s; '(f, s) ← frac_part s; '(e, s) ← exp_part s;
  Some (sign +:+ i +:+ f +:+ e, s).

(** * Values *)

Fixpoint marshal (j : json) : string :=
  match j with
  | JNull => "null"
  | JBool b => if b then "true" else "false"
  | JNumber t => t
  | JString s => quote s
  | JArray l => "[" +:+ join "," (map marshal l) +:+ "]"
  | JObject o => "{" +:+ join "," (map (fun kv => quote kv.1 +:+ ":" +:+ marshal kv.2) o) +:+ "}"
  end.

Fixpoint skip_ws (s : string) : string :=
  match s with
  | String a s' => if bool_decide (ascii_Z a ∈ [9; 10; 13; 32]) then skip_ws s' else s
  | EmptyString => s
  end.

Definition strip_lit (p s : string) : option string :=
  if has_prefix p s then Some (String.substring (String.length p) (String.length s - String.length p) s) else None.

(** The last member of a name counts. *)
Fixpoint last_members (o : jobject) : jobject :=
  match o with
  | [] => []
  | (k, v) :: o => if bool_decide (k ∈ o.*1) then last_members o else (k, v) :: last_members o
  end.

Definition max_depth : Z := 10000.

Definition skip_char (c : ascii) (s : string) : option string :=
  match skip_ws s with
  | String a s' => if char_eqb a c then Some s' else None
  | EmptyString => None
  end.

Fixpoint parse_value (fuel : nat) (depth : Z) (s : string) : option (json * string) :=
  match fuel with
  | O => None
  | S n =>
      match skip_ws s with
      | EmptyString => None
      | String a s1 =>
          if char_eqb a dquote then '(x, r) ← unquote s1; Some (JString x, r)
          else if char_eqb a "["%char then
            if max_depth <=? depth then None
            else match skip_char "]" s1 with
            | Some r => Some (JArray [], r)
            | None => '(l, r) ← parse_elems n (depth + 1) s1; Some (JArray l, r)
            end
          else if char_eqb a "{"%char then
            if max_depth <=? depth then None
            else match skip_char "}" s1 with
            | Some r => Some (JObject [], r)
            | None => '(o, r) ← parse_members n (depth + 1) s1; Some (JObject (last_members o), r)
            end
          else match strip_lit "null" (String a s1), strip_lit "true" (String a s1), strip_lit "false" (String a s1) with
          | Some r, _, _ => Some (JNull, r)
          | _, Some r, _ => Some (JBool true, r)
          | _, _, Some r => Some (JBool false, r)
          | _, _, _ => '(t, r) ← scan_number (String a s1); Some (JNumber t, r)
          end
      end
  end
with parse_elems (fuel : nat) (depth : Z) (s : string) : option (list json * string) :=
  match fuel with
  | O => None
  | S n =>
      '(j, r) ← parse_value n depth s;
      match skip_char "," r with
      | Some r => '(l, r) ← parse_elems n depth r; Some (j :: l, r)
      | None => r ← skip_char "]" r; Some ([j], r)
      end
  end
with parse_members (fuel : nat) (depth : Z) (s : string) : option (jobject * string) :=
  match fuel with
  | O => None
  | S n =>
      s ← skip_char dquote s;
      '(k, r) ← unquote s;
      r ← skip_char ":" r;
      '(j, r) ← parse_value n depth r;
      match skip_char "," r with
      | Some r => '(o, r) ← parse_members n depth r; Some ((k, j) :: o, r)
      | None => r ← skip_char "}" r; Some ([(k, j)], r)
      end
  end.

(** [json.Unmarshal] into any value.  Between two steps that consume nothing
    there is one that does, so twice the length is enough fuel. *)
Definition unmarshal (s : string) : option json :=
  '(j, r) ← parse_value (2 * String.length s + 2) 0 s;
  if decide (skip_ws r = "") then Some j else None.
