(* ===== verification/JsonSpec.v ===== *)
(** What [json.Marshal] writes, [json.Unmarshal] reads back. *)

From S2P Require Import Prelude NetAddr Db Report DeviceStore Json.

Open Scope Z_scope.

(** * Induction on values *)

Section json_ind.
Context (P : json → Prop).
Context (Hnull : P JNull) (Hbool : ∀ b, P (JBool b)) (Hnum : ∀ t, P (JNumber t)) (Hstr : ∀ s, P (JString s)).
Context (Harr : ∀ l, Forall P l → P (JArray l)) (Hobj : ∀ o, Forall (fun kv => P kv.2) o → P (JObject o)).

Fixpoint json_nested_ind (j : json) : P j :=
  match j with
  | JNull => Hnull
  | JBool b => Hbool b
  | JNumber t => Hnum t
  | JString s => Hstr s
  | JArray l => Harr l ((fix go l : Forall P l :=
      match l with [] => @Forall_nil _ P | x :: l => @Forall_cons _ P x l (json_nested_ind x) (go l) end) l)
  | JObject o => Hobj o ((fix go o : Forall (fun kv => P kv.2) o :=
      match o with [] => @Forall_nil _ _ | x :: o => @Forall_cons _ _ x o (json_nested_ind x.2) (go o) end) o)
  end.
End json_ind.

(** * Strings *)

Lemma char_eqb_Z a b : char_eqb a b = (ascii_Z a =? ascii_Z b).
Proof.
  unfold char_eqb. destruct (Z.eqb_spec (ascii_Z a) (ascii_Z b)) as [E|E].
  - apply bool_decide_eq_true_2. unfold ascii_Z in E. rewrite <- (ascii_N_embedding a), <- (ascii_N_embedding b). f_equal. lia.
  - apply bool_decide_eq_false_2. congruence.
Qed.

Lemma cont_range lo hi a : cont lo hi a = true ↔ lo ≤ ascii_Z a ≤ hi.
Proof. unfold cont. rewrite andb_true_iff, !Z.leb_le. lia. Qed.

(** An ASCII character is read back from its escape. *)
Lemma unquote_ascii a t : ascii_Z a <? 128 = true → unquote (escape_ascii a +:+ t) = push_str (String a "") (unquote t).
Proof. by destruct a as [[] [] [] [] [] [] [] []]; vm_compute (_ <? _); intros H; try discriminate H; cbn. Qed.

(** A character that stands for itself starts neither an escape nor the end. *)
Lemma high_plain a : 128 ≤ ascii_Z a →
  char_eqb a dquote = false ∧ char_eqb a backslash = false ∧ ascii_Z a <? 32 = false ∧ ascii_Z a <? 128 = false.
Proof. intros H. rewrite !char_eqb_Z. change (ascii_Z dquote) with 34. change (ascii_Z backslash) with 92. lia. Qed.

Lemma rune_size_2 a b t : two_bytes a b = true → rune_size (String a (String b t)) = 2%nat ∧ 128 ≤ ascii_Z a.
Proof.
  intros H. assert (128 ≤ ascii_Z a) as Ha by (unfold two_bytes in H; apply andb_true_iff in H as [H%cont_range _]; lia).
  cbn. destruct (high_plain a Ha) as (_ & _ & _ & ->). by rewrite H.
Qed.

Lemma rune_size_inv s :
  match rune_size s, s with
  | 1%nat, String a _ => ascii_Z a <? 128 = true
  | 2%nat, String a (String b _) => two_bytes a b = true
  | 3%nat, String a (String b (String c _)) => three_bytes a b c = true
  | 4%nat, String a (String b (String c (String d _))) => four_bytes a b c d = true
  | O, _ => True
  | _, _ => False
  end.
Proof.
  destruct s as [|a s]; [done|]. cbn. destruct (ascii_Z a <? 128) eqn:?; [done|]. destruct s as [|b s]; [done|].
  destruct (two_bytes a b) eqn:?; [done|]. destruct s as [|c s]; [done|]. destruct (three_bytes a b c) eqn:?; [done|].
  destruct s as [|d s]; [done|]. by destruct (four_bytes a b c d) eqn:?.
Qed.

Lemma two_three a b c : three_bytes a b c = true → two_bytes a b = false ∧ 128 ≤ ascii_Z a.
Proof.
  unfold three_bytes, two_bytes. rewrite !andb_true_iff, !cont_range, andb_false_iff.
  intros [[H _] _]. split; [left|lia]. apply not_true_iff_false. rewrite cont_range. lia.
Qed.

Lemma two_four a b c d : four_bytes a b c d = true → two_bytes a b = false ∧ three_bytes a b c = false ∧ 128 ≤ ascii_Z a.
Proof.
  unfold four_bytes, three_bytes, two_bytes. rewrite !andb_true_iff, !cont_range, !andb_false_iff.
  intros [[[H _] _] _]. split_and!; [left|left; left|lia]; apply not_true_iff_false; rewrite cont_range; lia.
Qed.

Lemma unquote_2 a b t : two_bytes a b = true → unquote (String a (String b t)) = push_str (String a (String b "")) (unquote t).
Proof.
  intros H. destruct (rune_size_2 a b t H) as [E Ha]. destruct (high_plain a Ha) as (H1 & H2 & H3 & H4).
  cbn [unquote]. by rewrite H1, H2, H3, E.
Qed.

Lemma unquote_3 a b c t : three_bytes a b c = true →
  unquote (String a (String b (String c t))) = push_str (String a (String b (String c ""))) (unquote t).
Proof.
  intros H. destruct (two_three _ _ _ H) as [E Ha]. destruct (high_plain a Ha) as (H1 & H2 & H3 & H4).
  cbn [unquote]. rewrite H1, H2, H3. cbn [rune_size]. by rewrite H4, E, H.
Qed.

Lemma unquote_4 a b c d t : four_bytes a b c d = true →
  unquote (String a (String b (String c (String d t)))) = push_str (String a (String b (String c (String d "")))) (unquote t).
Proof.
  intros H. destruct (two_four _ _ _ _ H) as (E & E' & Ha). destruct (high_plain a Ha) as (H1 & H2 & H3 & H4).
  cbn [unquote]. rewrite H1, H2, H3. cbn [rune_size]. by rewrite H4, E, E', H.
Qed.

Lemma unquote_line_separator a b c t : line_separator a b c = true →
  unquote (u_escape (8064 + ascii_Z c) +:+ t) = push_str (String a (String b (String c ""))) (unquote t).
Proof.
  unfold line_separator. rewrite !andb_true_iff, orb_true_iff, !Z.eqb_eq. intros [[Ea Eb] Ec].
  assert (∀ x n, ascii_Z x = Z.of_N n → x = ascii_of_N n) as Hx.
  { intros x n Hxn. unfold ascii_Z in Hxn. rewrite <- (ascii_N_embedding x). f_equal. lia. }
  rewrite (Hx a 226%N Ea), (Hx b 128%N Eb). destruct Ec as [Ec|Ec]; rewrite Ec; [rewrite (Hx c 168%N Ec)|rewrite (Hx c 169%N Ec)]; done.
Qed.

Lemma quote_body_roundtrip s t : utf8_valid s = true → unquote (quote_body s +:+ String dquote t) = Some (s, t).
Proof.
  remember (String.length s) as n eqn:Hn. revert s Hn. induction (Nat.lt_wf_0 n) as [n _ IH]. intros s -> Hs.
  destruct s as [|a s]; [done|]. pose proof (rune_size_inv (String a s)) as Hr.
  cbn [utf8_valid quote_body] in *. destruct (rune_size (String a s)) as [|[|[|[|[|]]]]] eqn:E; try done.
  - rewrite string_app_assoc, unquote_ascii, (IH (String.length s)) by (done || cbn; lia). done.
  - destruct s as [|b s]; [done|]. change (String a (String b ?x) +:+ ?y) with (String a (String b (x +:+ y))).
    rewrite unquote_2, (IH (String.length s)) by (done || cbn; lia). done.
  - destruct s as [|b [|c s]]; try done. destruct (line_separator a b c) eqn:El.
    + rewrite string_app_assoc, (unquote_line_separator a b c), (IH (String.length s)) by (done || cbn; lia). done.
    + change (String a (String b (String c ?x)) +:+ ?y) with (String a (String b (String c (x +:+ y)))).
      rewrite unquote_3, (IH (String.length s)) by (done || cbn; lia). done.
  - destruct s as [|b [|c [|d s]]]; try done.
    change (String a (String b (String c (String d ?x))) +:+ ?y) with (String a (String b (String c (String d (x +:+ y))))).
    rewrite unquote_4, (IH (String.length s)) by (done || cbn; lia). done.
Qed.

(** * Numbers *)

(** What may follow a value inside a document. *)
Definition delimited (s : string) : Prop :=
  match s with EmptyString => True | String a _ => ascii_Z a ∈ [44; 93; 125] end.

Definition plain_head (s : string) : Prop :=
  match s with
  | EmptyString => True
  | String a _ => is_digit a = false ∧ char_eqb a "." = false ∧ char_eqb a "e" = false ∧ char_eqb a "E" = false
  end.

Lemma delimited_plain s : delimited s → plain_head s.
Proof.
  destruct s as [|a s]; [done|]. cbn. unfold is_digit. rewrite !char_eqb_Z.
  change (ascii_Z ".") with 46. change (ascii_Z "e") with 101. change (ascii_Z "E") with 69.
  rewrite !elem_of_cons, elem_of_nil. intros [->|[->|[->|[]]]]; done.
Qed.

Lemma string_cons_app a s t : String a s +:+ t = String a (s +:+ t).
Proof. done. Qed.

Lemma take_digits_app s d r t : take_digits s = (d, r) → plain_head t → take_digits (s +:+ t) = (d, r +:+ t).
Proof.
  revert d r. induction s as [|a s IH]; intros d r; cbn [take_digits].
  - intros [= <- <-] Ht. change ("" +:+ t) with t. destruct t as [|b t]; [done|]. cbn. by destruct Ht as [-> _].
  - rewrite string_cons_app. cbn [take_digits]. destruct (is_digit a); [|by intros [= <- <-] _; rewrite string_cons_app].
    destruct (take_digits s) as [d' r']. intros [= <- <-] Ht. by rewrite (IH d' r').
Qed.

Lemma some_digits_app s d r t : some_digits s = Some (d, r) → plain_head t → some_digits (s +:+ t) = Some (d, r +:+ t).
Proof.
  unfold some_digits. destruct (take_digits s) as [d' r'] eqn:E. intros H Ht. rewrite (take_digits_app _ _ _ _ E Ht).
  by destruct d'; [|injection H as <- <-].
Qed.

Lemma int_part_app s d r t : int_part s = Some (d, r) → plain_head t → int_part (s +:+ t) = Some (d, r +:+ t).
Proof.
  destruct s as [|a s]; [done|]. rewrite string_cons_app. unfold int_part. destruct (char_eqb a "0"); [by intros [= <- <-]|].
  rewrite <- string_cons_app. apply some_digits_app.
Qed.

Lemma frac_part_app s d r t : frac_part s = Some (d, r) → plain_head t → frac_part (s +:+ t) = Some (d, r +:+ t).
Proof.
  destruct s as [|a s].
  - intros [= <- <-] Ht. change ("" +:+ t) with t. destruct t as [|b t]; [done|]. unfold frac_part. by destruct Ht as (_ & -> & _).
  - rewrite string_cons_app. unfold frac_part. destruct (char_eqb a "."); [|by intros [= <- <-]].
    intros ([d' r'] & E & [= <- <-])%bind_Some Ht. by rewrite (some_digits_app _ _ _ _ E Ht).
Qed.

Lemma exp_part_app s d r t : exp_part s = Some (d, r) → plain_head t → exp_part (s +:+ t) = Some (d, r +:+ t).
Proof.
  destruct s as [|a s].
  - intros [= <- <-] Ht. change ("" +:+ t) with t. destruct t as [|b t]; [done|]. unfold exp_part. by destruct Ht as (_ & _ & -> & ->).
  - rewrite string_cons_app. unfold exp_part. destruct (_ || _); [|by intros [= <- <-]].
    destruct s as [|b s]; [done|]. rewrite string_cons_app. destruct (_ || _); [|rewrite <- string_cons_app];
      intros ([d' r'] & E & [= <- <-])%bind_Some Ht; by rewrite (some_digits_app _ _ _ _ E Ht).
Qed.

(** A number literal. *)
Definition number_literal (t : string) : bool := bool_decide (scan_number t = Some (t, "")).

Lemma scan_number_app t u : number_literal t = true → delimited u → scan_number (t +:+ u) = Some (t, u).
Proof.
  unfold number_literal, scan_number. rewrite bool_decide_eq_true. intros H Hu%delimited_plain.
  destruct t as [|a t]; [done|]. rewrite string_cons_app. destruct (char_eqb a "-"); [|rewrite <- string_cons_app];
    apply bind_Some in H as ([i s1] & E1 & H); apply bind_Some in H as ([f s2] & E2 & H);
    apply bind_Some in H as ([e s3] & E3 & H); apply (inj Some), pair_equal_spec in H as [Ht ->];
    rewrite (int_part_app _ _ _ _ E1 Hu); cbn; rewrite (frac_part_app _ _ _ _ E2 Hu); cbn;
    rewrite (exp_part_app _ _ _ _ E3 Hu); exact (f_equal (fun x => Some (x, u)) Ht).
Qed.

Lemma number_head t : number_literal t = true → ∃ a t', t = String a t' ∧ (is_digit a = true ∨ ascii_Z a = 45).
Proof.
  unfold number_literal, scan_number. rewrite bool_decide_eq_true. intros H. destruct t as [|a t]; [done|]. exists a, t. split; [done|].
  rewrite char_eqb_Z in H. change (ascii_Z "-") with 45 in H. destruct (Z.eqb_spec (ascii_Z a) 45); [by right|left].
  apply bind_Some in H as ([i s1] & E & _). unfold int_part in E. rewrite char_eqb_Z in E. destruct (Z.eqb_spec (ascii_Z a) (ascii_Z "0")) as [E0|].
  { unfold is_digit. rewrite E0. done. }
  unfold some_digits in E. cbn [take_digits] in E. by destruct (is_digit a).
Qed.

(** * Values *)

(** A value encoding/json reproduces: valid UTF-8, number literals, no name
    twice, at most the decoder's depth. *)
Fixpoint json_ok (depth : Z) (j : json) : bool :=
  match j with
  | JNull | JBool _ => true
  | JNumber t => number_literal t
  | JString s => utf8_valid s
  | JArray l => (depth <? max_depth) && forallb (json_ok (depth + 1)) l
  | JObject o =>
      (depth <? max_depth) && bool_decide (NoDup o.*1)
      && forallb (fun kv => utf8_valid kv.1 && json_ok (depth + 1) kv.2) o
  end.

(** The head of a value is no white space and closes nothing. *)
Definition value_head (s : string) : Prop :=
  match s with EmptyString => False | String a _ => ascii_Z a ∉ [9; 10; 13; 32; 93; 125] end.

Lemma value_head_app s t : value_head s → value_head (s +:+ t).
Proof. by destruct s. Qed.

Lemma skip_ws_head s : value_head s → skip_ws s = s.
Proof.
  destruct s as [|a s]; [done|]. cbn. intros H. rewrite bool_decide_eq_false_2; [done|].
  intros Hin. apply H. revert Hin. rewrite !elem_of_cons. tauto.
Qed.

Lemma not_closing s c : value_head s → c = "]"%char ∨ c = "}"%char → skip_char c s = None.
Proof.
  intros Hs Hc. unfold skip_char. rewrite skip_ws_head by done. destruct s as [|a s]; [done|]. rewrite char_eqb_Z.
  destruct (Z.eqb_spec (ascii_Z a) (ascii_Z c)) as [E|]; [|done]. exfalso. apply Hs. rewrite E.
  destruct Hc as [->| ->]; vm_compute; [by right; right; right; right; left|by right; right; right; right; right; left].
Qed.

Lemma digit_head a : is_digit a = true ∨ ascii_Z a = 45 →
  ascii_Z a ∉ [9; 10; 13; 32; 93; 125] ∧ ascii_Z a ≠ 34 ∧ ascii_Z a ≠ 91 ∧ ascii_Z a ≠ 123
  ∧ ascii_Z a ≠ 110 ∧ ascii_Z a ≠ 116 ∧ ascii_Z a ≠ 102.
Proof.
  unfold is_digit. rewrite andb_true_iff, !Z.leb_le. intros H. split; [|lia]. rewrite !elem_of_cons, elem_of_nil. lia.
Qed.

Lemma marshal_head depth j : json_ok depth j = true → value_head (marshal j).
Proof.
  assert (∀ a s, bool_decide (ascii_Z a ∉ [9; 10; 13; 32; 93; 125]) = true → value_head (String a s)) as Hc.
  { intros a s Ha. by apply bool_decide_eq_true in Ha. }
  destruct j as [|[]|t|s|l|o]; intros H; try by apply Hc.
  destruct (number_head _ H) as (a & t' & -> & Ha). by apply digit_head.
Qed.

(** The value at the head of a document is read back, with what follows. *)
Definition reads_back (j : json) : Prop :=
  ∀ fuel depth t, json_ok depth j = true → (2 * String.length (marshal j) ≤ fuel)%nat → delimited t →
    parse_value fuel depth (marshal j +:+ t) = Some (j, t).

Lemma parse_literal n depth a s :
  bool_decide (ascii_Z a ∈ [9; 10; 13; 32]) = false → char_eqb a dquote = false → char_eqb a "[" = false →
  char_eqb a "{" = false →
  parse_value (S n) depth (String a s) =
  match strip_lit "null" (String a s), strip_lit "true" (String a s), strip_lit "false" (String a s) with
  | Some r, _, _ => Some (JNull, r)
  | _, Some r, _ => Some (JBool true, r)
  | _, _, Some r => Some (JBool false, r)
  | _, _, _ => '(t, r) ← scan_number (String a s); Some (JNumber t, r)
  end.
Proof. intros H1 H2 H3 H4. cbn [parse_value skip_ws]. by rewrite H1, H2, H3, H4. Qed.

Lemma parse_number fuel depth t u :
  number_literal t = true → (0 < fuel)%nat → delimited u → parse_value fuel depth (t +:+ u) = Some (JNumber t, u).
Proof.
  intros Ht Hf Hu. destruct fuel as [|n]; [lia|]. cbn [parse_value].
  rewrite skip_ws_head by (apply value_head_app, (marshal_head depth (JNumber t)); done).
  pose proof (scan_number_app t u Ht Hu) as Hs. destruct (number_head _ Ht) as (a & t' & -> & Ha).
  rewrite string_cons_app in *. destruct (digit_head a Ha) as (_ & H1 & H2 & H3 & H4 & H5 & H6).
  rewrite !char_eqb_Z. change (ascii_Z dquote) with 34. change (ascii_Z "[") with 91. change (ascii_Z "{") with 123.
  rewrite !(proj2 (Z.eqb_neq _ _)) by done. unfold strip_lit. cbn [has_prefix]. rewrite !char_eqb_Z.
  change (ascii_Z "n") with 110. change (ascii_Z "t") with 116. change (ascii_Z "f") with 102.
  rewrite !(proj2 (Z.eqb_neq _ _)) by congruence. cbn [andb]. by rewrite Hs.
Qed.

Lemma parse_quoted s t : utf8_valid s = true → ∃ r, quote s +:+ t = String dquote r ∧ unquote r = Some (s, t).
Proof.
  intros Hs. exists (quote_body s +:+ String dquote t). unfold quote. rewrite string_cons_app, string_app_assoc.
  split; [done|]. by apply quote_body_roundtrip.
Qed.

Lemma join_length x l : (String.length x ≤ String.length (join "," (x :: l)))%nat.
Proof. destruct l as [|y l]; cbn [join]; [done|]. rewrite string_app_length. lia. Qed.

Lemma join_cons2 x y l : join "," (x :: y :: l) = x +:+ "," +:+ join "," (y :: l).
Proof. done. Qed.

Lemma join_rest_length x y l :
  String.length (join "," (x :: y :: l)) = (String.length x + 1 + String.length (join "," (y :: l)))%nat.
Proof. rewrite join_cons2, !string_app_length. cbn [String.length]. lia. Qed.

Lemma parse_elems_back l : Forall reads_back l → ∀ fuel depth t, l ≠ [] → forallb (json_ok depth) l = true →
  (2 * String.length (join "," (map marshal l)) + 1 ≤ fuel)%nat →
  parse_elems fuel depth (join "," (map marshal l) +:+ "]" +:+ t) = Some (l, t).
Proof.
  induction 1 as [|j l Hj Hl IH]; intros fuel depth t Hne Hok Hf; [done|]. cbn [forallb] in Hok. apply andb_true_iff in Hok as [Hok1 Hok].
  destruct fuel as [|n]; [lia|]. cbn [parse_elems map] in *.
  pose proof (join_length (marshal j) (map marshal l)) as Hlen. destruct l as [|k l].
  - cbn [map join]. rewrite Hj; [done|done|cbn [map join] in *; lia|]. cbn. vm_compute. by right; left.
  - cbn [map] in *. rewrite join_rest_length in Hf. rewrite join_cons2.
    rewrite !string_app_assoc, Hj; [|done|lia|cbn; vm_compute; by left].
    change ("," +:+ ?x) with (String "," x). cbn [mbind option_bind]. unfold skip_char at 1. cbn [skip_ws].
    rewrite bool_decide_eq_false_2 by (refine (bool_decide_unpack _ _); vm_compute; exact I). change (char_eqb "," ",") with true.
    cbv iota. by rewrite IH by (done || lia).
Qed.

Definition member_text (kv : string * json) : string := quote kv.1 +:+ ":" +:+ marshal kv.2.

Lemma parse_members_back o : Forall (fun kv => reads_back kv.2) o → ∀ fuel depth t, o ≠ [] →
  forallb (fun kv => utf8_valid kv.1 && json_ok depth kv.2) o = true →
  (2 * String.length (join "," (map member_text o)) + 1 ≤ fuel)%nat →
  parse_members fuel depth (join "," (map member_text o) +:+ "}" +:+ t) = Some (o, t).
Proof.
  assert (∀ n depth k j u, reads_back j → utf8_valid k = true → json_ok depth j = true → delimited u →
    (2 * String.length (member_text (k, j)) ≤ n)%nat → ∃ r, member_text (k, j) +:+ u = String dquote r
    ∧ unquote r = Some (k, ":" +:+ marshal j +:+ u) ∧ parse_value n depth (marshal j +:+ u) = Some (j, u)) as Hm.
  { intros n depth k j u Hj Hk Hok Hu Hn. unfold member_text in *. cbn [fst snd] in *. rewrite !string_app_length in Hn. cbn in Hn.
    destruct (parse_quoted k (":" +:+ marshal j +:+ u) Hk) as (r & Hr & Hr2). exists r. rewrite !string_app_assoc.
    split_and!; [done|done|]. apply Hj; [done|lia|done]. }
  induction 1 as [|[k j] o Hj Ho IH]; intros fuel depth t Hne Hok Hf; [done|]. cbn [forallb fst snd] in *.
  apply andb_true_iff in Hok as [[Hk Hok1]%andb_true_iff Hok]. destruct fuel as [|n]; [lia|]. cbn [parse_members map] in *.
  pose proof (join_length (member_text (k, j)) (map member_text o)) as Hlen. destruct o as [|kj o]; cbn [map] in *.
  - cbn [join] in *. destruct (Hm n depth k j ("}" +:+ t) Hj Hk Hok1) as (r & -> & Hr & Hv); [vm_compute; by right; right; left|lia|].
    change (skip_char dquote (String dquote r)) with (Some r). cbn [mbind option_bind]. rewrite Hr. cbn [mbind option_bind].
    change (skip_char ":" (":" +:+ ?x)) with (Some x). cbn [mbind option_bind]. by rewrite Hv.
  - rewrite join_cons2 in *. rewrite !string_app_length in Hf. rewrite !string_app_assoc. change (String.length ",") with 1%nat in Hf.
    destruct (Hm n depth k j ("," +:+ join "," (member_text kj :: map member_text o) +:+ "}" +:+ t) Hj Hk Hok1)
      as (r & -> & Hr & Hv); [vm_compute; by left|lia|].
    change (skip_char dquote (String dquote r)) with (Some r). cbn [mbind option_bind]. rewrite Hr. cbn [mbind option_bind].
    change (skip_char ":" (":" +:+ ?x)) with (Some x). cbn [mbind option_bind]. rewrite Hv. cbn [mbind option_bind].
    change (skip_char "," ("," +:+ ?x)) with (Some x). cbv beta iota. by rewrite IH by (done || lia).
Qed.

Lemma last_members_nodup (o : jobject) : NoDup o.*1 → last_members o = o.
Proof.
  induction o as [|[k v] o IH]; [done|]. cbn. intros [Hk Ho]%list.NoDup_cons. by rewrite bool_decide_eq_false_2, IH.
Qed.

Lemma join_head x l t : value_head x → value_head (join "," (x :: l) +:+ t).
Proof. intros Hx. apply value_head_app. destruct l; cbn [join]; [done|by apply value_head_app]. Qed.

Lemma strip_lit_app p t : strip_lit p (p +:+ t) = Some t.
Proof.
  unfold strip_lit. assert (has_prefix p (p +:+ t) = true) as ->.
  { induction p as [|a p IH]; [done|]. rewrite string_cons_app. cbn [has_prefix]. by rewrite char_eqb_Z, Z.eqb_refl, IH. }
  f_equal. rewrite string_app_length, Nat.add_comm, Nat.add_sub. induction p as [|a p IH]; [|exact IH]. induction t as [|a t IH]; [done|].
  change (String a (String.substring 0 (String.length t) t) = String a t). by f_equal.
Qed.

Lemma marshal_reads_back j : reads_back j.
Proof.
  induction j as [|b|x|s|l IH|o IH] using json_nested_ind; intros fuel depth t Hok Hf Ht.
  - destruct fuel as [|n]; [cbn in Hf; lia|]. pose proof (strip_lit_app "null" t) as H.
    cbn [marshal]. rewrite string_cons_app in *. rewrite parse_literal by done. by rewrite H.
  - destruct fuel as [|n]; [destruct b; cbn in Hf; lia|]. pose proof (strip_lit_app (if b then "true" else "false") t) as H.
    cbn [marshal]. destruct b; rewrite string_cons_app in *; rewrite parse_literal by done; by rewrite H.
  - destruct (number_head _ Hok) as (a & x' & E & _). apply parse_number; [done| |done]. rewrite E in Hf. cbn in Hf. lia.
  - destruct fuel as [|n]; [cbn in Hf; lia|]. cbn [json_ok marshal] in *. destruct (parse_quoted s t Hok) as (r & -> & Hr).
    change (('(x, r) ← unquote r; Some (JString x, r)) = Some (JString s, t)). by rewrite Hr.
  - cbn [json_ok] in Hok. apply andb_true_iff in Hok as [Hd%Z.ltb_lt Hok]. cbn [marshal] in *. rewrite !string_app_length in Hf. cbn [String.length] in Hf.
    destruct fuel as [|n]; [lia|]. rewrite !string_app_assoc. change ("[" +:+ ?x) with (String "[" x). cbn [parse_value].
    change (skip_ws (String "[" ?x)) with (String "[" x). cbv beta iota. change (char_eqb "[" dquote) with false. change (char_eqb "[" "[") with true. cbv iota.
    rewrite (proj2 (Z.leb_gt _ _)) by done. destruct l as [|j l]; [done|].
    assert (value_head (marshal j)) as Hj by (cbn [forallb] in Hok; apply andb_true_iff in Hok as [Hj _]; by eapply marshal_head).
    rewrite not_closing by (by (apply join_head) || by left). by rewrite parse_elems_back by (done || lia).
  - cbn [json_ok] in Hok. apply andb_true_iff in Hok as [[Hd%Z.ltb_lt Hn%bool_decide_eq_true]%andb_true_iff Hok].
    cbn [marshal] in *. fold member_text in *. rewrite !string_app_length in Hf. cbn [String.length] in Hf.
    destruct fuel as [|n]; [lia|]. rewrite !string_app_assoc. change ("{" +:+ ?x) with (String "{" x). cbn [parse_value].
    change (skip_ws (String "{" ?x)) with (String "{" x). cbv beta iota. change (char_eqb "{" dquote) with false.
    change (char_eqb "{" "[") with false. change (char_eqb "{" "{") with true. cbv iota.
    rewrite (proj2 (Z.leb_gt _ _)) by done. destruct o as [|kj o]; [done|].
    rewrite not_closing; [|apply join_head; unfold member_text, quote; refine (bool_decide_unpack _ _); vm_compute; exact I|by right].
    change (map (fun kv => _) ?o) with (map member_text o) in *.
    rewrite parse_members_back by (done || lia). cbn [mbind option_bind]. by rewrite last_members_nodup.
Qed.

Lemma unmarshal_marshal j : json_ok 0 j = true → unmarshal (marshal j) = Some j.
Proof.
  intros Hj. unfold unmarshal. pose proof (marshal_reads_back j (2 * String.length (marshal j) + 2)%nat 0 "" Hj ltac:(lia) I) as H.
  rewrite string_app_nil_r in H. by rewrite H.
Qed.
