(* ===== verification/Attributes.v ===== *)
(** The scan_attributes document of a device
    (src/internal/domain/device_attributes.go): the record the packages share,
    its JSON form, and the decoding of a stored document.

    A document is kept decoded as a JSON object, not as its text: where the
    code prints and parses it, [encoding/json] also replaces the bytes of a
    string that are not UTF-8, which the object does not show.  Member names
    are matched exactly.  Go's [omitempty] leaves out empty strings, zero numbers, false,
    nil pointers, and empty slices and maps.  A nil slice or map and an empty
    one are not distinguished. *)

From S2P Require Import Prelude NetAddr Cidr DeviceStore.

Open Scope Z_scope.

(** * The record *)

Record SNMPDiscovery := mkSNMPDiscovery {
  sd_SysDescr : string;
  sd_SysObjectID : string;
  sd_SysName : string;
  sd_SysLocation : string;
  sd_SysContact : string;
  sd_SysServices : Z
}.

Record STPDiscovery := mkSTPDiscovery {
  stp_BridgeMAC : string;
  stp_RootBridgeMAC : string;
  stp_IsRoot : bool;
  stp_Ports : string
}.

Record OpenPortEntry := mkOpenPort { op_Port : Z; op_Service : string }.

Record ServiceEntry := mkServiceEntry {
  se_Port : Z;
  se_Name : string;
  se_Protocol : string;
  se_Version : string
}.

Record PrometheusInfo := mkPrometheus {
  pi_URL : string;
  pi_NodeExporterURL : string;
  pi_Labels : gmap string string
}.

Record ScanAttributes := mkAttributes {
  sa_Vendor : string;
  sa_MAC : string;
  sa_Hostname : string;
  sa_MacIsLocallyAdministered : bool;
  sa_MacIsMulticast : bool;
  sa_OUIPrefix : string;
  sa_OUIVendor : string;
  sa_OS : string;
  sa_OSVersion : string;
  sa_KernelVersion : string;
  sa_FirmwareVersion : string;
  sa_CPUCount : Z;
  sa_CPUModel : string;
  sa_MemoryTotalBytes : Z;
  sa_UptimeSeconds : Z;
  sa_TTL : Z;
  sa_LastScanRttMs : Z;
  sa_ScanSource : string;
  sa_LastScannedAt : string;
  sa_InferredType : string;
  sa_InferredTypeSource : string;
  sa_InferredModel : string;
  sa_InferredDescription : string;
  sa_SNMP : option SNMPDiscovery;
  sa_STP : option STPDiscovery;
  sa_OpenPorts : list OpenPortEntry;
  sa_DetectedServices : list ServiceEntry;
  sa_Prometheus : option PrometheusInfo;
  sa_Extras : gmap string string
}.

(** * Encoding *)

(** The members of a struct: a name, and nothing where the member is omitted. *)
Definition members (l : list (string * option json)) : jobject := omap (fun kv => pair kv.1 <$> kv.2) l.

Definition omit_string (v : string) : option json := if decide (v = "") then None else Some (JString v).
Definition omit_int (v : Z) : option json := if v =? 0 then None else Some (JNumber (itoa v)).
Definition omit_bool (b : bool) : option json := if b then Some (JBool true) else None.
Definition omit_array {A} (enc : A → json) (l : list A) : option json :=
  match l with [] => None | _ => Some (JArray (enc <$> l)) end.
Definition omit_map (m : gmap string string) : option json :=
  if decide (m = ∅) then None else Some (JObject ((fun kv => (kv.1, JString kv.2)) <$> map_to_list m)).

Definition snmp_members (d : SNMPDiscovery) : jobject :=
  members
    [("sys_descr", omit_string (sd_SysDescr d)); ("sys_object_id", omit_string (sd_SysObjectID d));
     ("sys_name", omit_string (sd_SysName d)); ("sys_location", omit_string (sd_SysLocation d));
     ("sys_contact", omit_string (sd_SysContact d)); ("sys_services", omit_int (sd_SysServices d))].

Definition stp_members (d : STPDiscovery) : jobject :=
  members
    [("bridge_mac", omit_string (stp_BridgeMAC d)); ("root_bridge_mac", omit_string (stp_RootBridgeMAC d));
     ("is_root", omit_bool (stp_IsRoot d)); ("ports", omit_string (stp_Ports d))].

Definition open_port_members (p : OpenPortEntry) : jobject :=
  members [("port", Some (JNumber (itoa (op_Port p)))); ("service", omit_string (op_Service p))].

Definition service_members (s : ServiceEntry) : jobject :=
  members
    [("port", Some (JNumber (itoa (se_Port s)))); ("name", Some (JString (se_Name s)));
     ("protocol", omit_string (se_Protocol s)); ("version", omit_string (se_Version s))].

Definition prometheus_members (p : PrometheusInfo) : jobject :=
  members
    [("url", omit_string (pi_URL p)); ("node_exporter_url", omit_string (pi_NodeExporterURL p));
     ("labels", omit_map (pi_Labels p))].

Definition attribute_members (s : ScanAttributes) : list (string * option json) :=
  [("vendor", omit_string (sa_Vendor s)); ("mac", omit_string (sa_MAC s)); ("hostname", omit_string (sa_Hostname s));
   ("mac_is_locally_administered", omit_bool (sa_MacIsLocallyAdministered s));
   ("mac_is_multicast", omit_bool (sa_MacIsMulticast s));
   ("oui_prefix", omit_string (sa_OUIPrefix s)); ("oui_vendor", omit_string (sa_OUIVendor s));
   ("os", omit_string (sa_OS s)); ("os_version", omit_string (sa_OSVersion s));
   ("kernel_version", omit_string (sa_KernelVersion s)); ("firmware_version", omit_string (sa_FirmwareVersion s));
   ("cpu_count", omit_int (sa_CPUCount s)); ("cpu_model", omit_string (sa_CPUModel s));
   ("memory_total_bytes", omit_int (sa_MemoryTotalBytes s)); ("uptime_seconds", omit_int (sa_UptimeSeconds s));
   ("ttl", omit_int (sa_TTL s)); ("last_scan_rtt_ms", omit_int (sa_LastScanRttMs s));
   ("scan_source", omit_string (sa_ScanSource s)); ("last_scanned_at", omit_string (sa_LastScannedAt s));
   ("inferred_type", omit_string (sa_InferredType s));
   ("inferred_type_source", omit_string (sa_InferredTypeSource s));
   ("inferred_model", omit_string (sa_InferredModel s));
   ("inferred_description", omit_string (sa_InferredDescription s));
   ("snmp", (fun d => JObject (snmp_members d)) <$> sa_SNMP s); ("stp", (fun d => JObject (stp_members d)) <$> sa_STP s);
   ("open_ports", omit_array (fun p => JObject (open_port_members p)) (sa_OpenPorts s));
   ("detected_services", omit_array (fun e => JObject (service_members e)) (sa_DetectedServices s));
   ("prometheus", (fun p => JObject (prometheus_members p)) <$> sa_Prometheus s); ("extras", omit_map (sa_Extras s))].

(** The object that is printed; the printing itself is not part of it. *)
Definition MarshalScanAttributes (s : ScanAttributes) : jobject := members (attribute_members s).

(** * Decoding *)

(** A missing member and [null] leave the zero value; a value of another type
    is an error. *)
Definition as_string (j : option json) : option string :=
  match j with None | Some JNull => Some "" | Some (JString s) => Some s | Some _ => None end.

(** A number into an [int] or [int64]: [strconv.ParseInt] of the literal. *)
Definition as_int (j : option json) : option Z :=
  match j with None | Some JNull => Some 0 | Some (JNumber t) => atoi t | Some _ => None end.

Definition as_bool (j : option json) : option bool :=
  match j with None | Some JNull => Some false | Some (JBool b) => Some b | Some _ => None end.

Definition as_pointer {A} (dec : jobject → option A) (j : option json) : option (option A) :=
  match j with None | Some JNull => Some None | Some (JObject o) => Some <$> dec o | Some _ => None end.

Definition as_array {A} (dec : jobject → option A) (j : option json) : option (list A) :=
  match j with
  | None | Some JNull => Some []
  | Some (JArray l) => mapM (fun x => match x with JNull => dec [] | JObject o => dec o | _ => None end) l
  | Some _ => None
  end.

(** The first member of a name counts; Go's decoder keeps the last, which is
    the same for documents it wrote. *)
Fixpoint string_map (o : jobject) : option (gmap string string) :=
  match o with
  | [] => Some ∅
  | (k, j) :: o => v ← as_string (Some j); m ← string_map o; Some (<[k := v]> m)
  end.

Definition as_map (j : option json) : option (gmap string string) :=
  match j with None | Some JNull => Some ∅ | Some (JObject o) => string_map o | Some _ => None end.

Definition decode_snmp (o : jobject) : option SNMPDiscovery :=
  a ← as_string (jget "sys_descr" o); b ← as_string (jget "sys_object_id" o); c ← as_string (jget "sys_name" o);
  d ← as_string (jget "sys_location" o); e ← as_string (jget "sys_contact" o); n ← as_int (jget "sys_services" o);
  Some (mkSNMPDiscovery a b c d e n).

Definition decode_stp (o : jobject) : option STPDiscovery :=
  a ← as_string (jget "bridge_mac" o); b ← as_string (jget "root_bridge_mac" o); r ← as_bool (jget "is_root" o);
  p ← as_string (jget "ports" o); Some (mkSTPDiscovery a b r p).

Definition decode_open_port (o : jobject) : option OpenPortEntry :=
  p ← as_int (jget "port" o); s ← as_string (jget "service" o); Some (mkOpenPort p s).

Definition decode_service (o : jobject) : option ServiceEntry :=
  p ← as_int (jget "port" o); n ← as_string (jget "name" o); q ← as_string (jget "protocol" o);
  v ← as_string (jget "version" o); Some (mkServiceEntry p n q v).

Definition decode_prometheus (o : jobject) : option PrometheusInfo :=
  u ← as_string (jget "url" o); n ← as_string (jget "node_exporter_url" o); l ← as_map (jget "labels" o);
  Some (mkPrometheus u n l).

(** From the parsed object; [None] is an error of the decoding into the record. *)
Definition UnmarshalScanAttributes (o : jobject) : option ScanAttributes :=
  vendor ← as_string (jget "vendor" o);
  mac ← as_string (jget "mac" o);
  hostname ← as_string (jget "hostname" o);
  local ← as_bool (jget "mac_is_locally_administered" o);
  multi ← as_bool (jget "mac_is_multicast" o);
  ouip ← as_string (jget "oui_prefix" o);
  ouiv ← as_string (jget "oui_vendor" o);
  os ← as_string (jget "os" o);
  osv ← as_string (jget "os_version" o);
  kernel ← as_string (jget "kernel_version" o);
  firmware ← as_string (jget "firmware_version" o);
  cpus ← as_int (jget "cpu_count" o);
  cpu ← as_string (jget "cpu_model" o);
  memory ← as_int (jget "memory_total_bytes" o);
  uptime ← as_int (jget "uptime_seconds" o);
  ttl ← as_int (jget "ttl" o);
  rtt ← as_int (jget "last_scan_rtt_ms" o);
  source ← as_string (jget "scan_source" o);
  scanned ← as_string (jget "last_scanned_at" o);
  type ← as_string (jget "inferred_type" o);
  tsource ← as_string (jget "inferred_type_source" o);
  model ← as_string (jget "inferred_model" o);
  descr ← as_string (jget "inferred_description" o);
  snmp ← as_pointer decode_snmp (jget "snmp" o);
  stp ← as_pointer decode_stp (jget "stp" o);
  ports ← as_array decode_open_port (jget "open_ports" o);
  services ← as_array decode_service (jget "detected_services" o);
  prom ← as_pointer decode_prometheus (jget "prometheus" o);
  extras ← as_map (jget "extras" o);
  Some (mkAttributes vendor mac hostname local multi ouip ouiv os osv kernel firmware cpus cpu memory uptime ttl rtt
          source scanned type tsource model descr snmp stp ports services prom extras).

(** * User attributes *)

Definition MergeUserAttributes (base patch : gmap string string) : gmap string string :=
  map_fold (fun k v out => if decide (v = "") then delete k out else <[k := v]> out) base patch.
