(* ===== verification/AttributesSpec.v ===== *)
(** Properties of the scan_attributes document: decoding inverts encoding, and
    the merge patch of a rescan, which the update statements apply to the
    stored text, is a member-wise merge of the decoded records. *)

From S2P Require Import Prelude NetAddr Cidr DeviceStore Attributes.

Open Scope Z_scope.

(** * Round trips *)

(** ** Numbers *)

Lemma digit_char n : (n < 10)%N →
  is_digit (pretty_N_char n) = true ∧ ascii_Z (pretty_N_char n) - 48 = Z.of_N n
  ∧ char_eqb (pretty_N_char n) "-" = false ∧ char_eqb (pretty_N_char n) "+" = false.
Proof.
  intros Hn. assert (n = 0 ∨ n = 1 ∨ n = 2 ∨ n = 3 ∨ n = 4 ∨ n = 5 ∨ n = 6 ∨ n = 7 ∨ n = 8 ∨ n = 9)%N as H by lia.
  repeat destruct H as [->|H]; [..|subst]; by vm_compute.
Qed.

Lemma digits_val_pretty x s : digits_val (pretty_N_go x s) 0 = digits_val s (Z.of_N x).
Proof.
  revert s. induction (N.lt_wf_0 x) as [x _ IH]; intros s.
  destruct (decide (x = 0)%N) as [->|Hx]; [by rewrite pretty_N_go_0|].
  assert (0 < x)%N by lia. rewrite pretty_N_go_step by done. rewrite IH by by apply N.div_lt. cbn [digits_val].
  destruct (digit_char (x `mod` 10)) as (-> & -> & _); [by apply N.mod_lt|]. f_equal.
  pose proof (N.div_mod x 10 ltac:(done)). lia.
Qed.

Lemma pretty_digit x s : (0 < x)%N → ∃ d s', (d < 10)%N ∧ pretty_N_go x s = String (pretty_N_char d) s'.
Proof.
  revert s. induction (N.lt_wf_0 x) as [x _ IH]; intros s Hx. rewrite pretty_N_go_step by done.
  destruct (decide (x `div` 10 = 0)%N) as [->|Hd].
  - rewrite pretty_N_go_0. exists (x `mod` 10)%N, s. split; [by apply N.mod_lt|done].
  - apply IH; [by apply N.div_lt|by apply N.neq_0_lt_0].
Qed.

(** [strconv.Atoi] reads what [strconv.Itoa] wrote. *)
Lemma atoi_itoa z : min_int64 ≤ z ≤ max_int64 → atoi (itoa z) = Some z.
Proof.
  intros Hz. unfold itoa, pretty. destruct z as [|p|p]; [done| |].
  - cbn [pretty_Z]. unfold pretty, pretty_positive, pretty, pretty_N. rewrite decide_False by done.
    destruct (pretty_digit (Npos p) "") as (d & s' & Hd & E); [lia|].
    pose proof (digits_val_pretty (Npos p) "") as V. rewrite E in *. unfold atoi.
    destruct (digit_char d Hd) as (_ & _ & -> & ->). cbv beta iota zeta. rewrite V. cbn [digits_val Z.of_N].
    by rewrite (proj2 (Z.leb_le _ _)), (proj2 (Z.leb_le _ _)) by lia.
  - cbn [pretty_Z]. unfold pretty, pretty_positive, pretty, pretty_N. rewrite decide_False by done.
    destruct (pretty_digit (Npos p) "") as (d & s' & Hd & E); [lia|].
    pose proof (digits_val_pretty (Npos p) "") as V. rewrite E in *. unfold atoi.
    change ("-" +:+ String (pretty_N_char d) s') with (String "-" (String (pretty_N_char d) s')).
    cbv beta iota zeta. change (char_eqb "-" "-") with true. cbv beta iota zeta. rewrite V. cbn [digits_val Z.of_N].
    change (- Z.pos p) with (Z.neg p). by rewrite (proj2 (Z.leb_le _ _)), (proj2 (Z.leb_le _ _)) by lia.
Qed.

(** ** Members *)

Fixpoint member (k : string) (l : list (string * option json)) : option json :=
  match l with
  | [] => None
  | (k', v) :: l => if (k' =? k)%string then v else member k l
  end.

Lemma jget_None k o : k ∉ o.*1 → jget k o = None.
Proof.
  induction o as [|[k' v] o IH]; [done|]. cbn. intros [Hne Ho]%not_elem_of_cons.
  by rewrite decide_False, IH by congruence.
Qed.

Lemma members_names l : (members l).*1 `sublist_of` l.*1.
Proof.
  induction l as [|[k [v|]] l IH]; [constructor| |]; cbn; [by apply sublist_skip|by apply sublist_cons].
Qed.

Lemma jget_members k l : NoDup l.*1 → jget k (members l) = member k l.
Proof.
  induction l as [|[k' v] l IH]; [done|]. cbn [fmap list_fmap fst]. intros [Hk Hl]%list.NoDup_cons.
  specialize (IH Hl). cbn [member]. destruct (String.eqb_spec k' k) as [E|E], v as [v|]; cbn;
    rewrite ?decide_True, ?decide_False by done; [done| |exact IH..].
  - change (omap _ l) with (members l). subst k'. apply jget_None. intros Hin. eapply Hk, elem_of_sublist, members_names. exact Hin.
Qed.

(** ** Values *)

Definition int64 (z : Z) : Prop := min_int64 ≤ z ≤ max_int64.

Lemma small_int64 z : 0 ≤ z < 2 ^ 16 → int64 z.
Proof. unfold int64, min_int64, max_int64. lia. Qed.

Lemma int64_0 : int64 0.
Proof. apply small_int64. lia. Qed.

Lemma atoi_int64 t v : atoi t = Some v → int64 v.
Proof.
  unfold atoi. destruct (match t with String _ _ => _ | EmptyString => _ end) as [neg body]. destruct body; [done|]. destruct (digits_val _ 0) as [m|]; [|done]. cbv zeta.
  destruct (_ && _) eqn:E; [|done]. intros [= <-]. apply andb_true_iff in E as [?%Z.leb_le ?%Z.leb_le]. by split.
Qed.

Lemma as_omit_string v : as_string (omit_string v) = Some v.
Proof. unfold omit_string. by case_decide; subst. Qed.

Lemma as_omit_int v : int64 v → as_int (omit_int v) = Some v.
Proof.
  intros Hv. unfold omit_int. destruct (Z.eqb_spec v 0) as [->|]; [done|]. by apply atoi_itoa.
Qed.

Lemma as_omit_bool b : as_bool (omit_bool b) = Some b.
Proof. by destruct b. Qed.

Lemma as_omit_pointer {A} (enc : A → jobject) dec (p : option A) :
  (∀ a, p = Some a → dec (enc a) = Some a) → as_pointer dec ((fun a => JObject (enc a)) <$> p) = Some p.
Proof. intros H. destruct p as [a|]; [|done]. cbn. by rewrite H. Qed.

Lemma as_omit_array {A} (enc : A → jobject) dec (l : list A) :
  Forall (fun a => dec (enc a) = Some a) l → as_array dec (omit_array (fun a => JObject (enc a)) l) = Some l.
Proof.
  intros H. destruct l as [|x l']; [done|]. unfold omit_array, as_array.
  induction H as [|a l Ha _ IH]; [done|]. cbn. rewrite Ha. cbn. by rewrite IH.
Qed.

Lemma string_map_list (l : list (string * string)) :
  NoDup l.*1 → string_map ((fun kv => (kv.1, JString kv.2)) <$> l) = Some (list_to_map l).
Proof. induction l as [|[k v] l IH]; [done|]. intros [_ Hl]%list.NoDup_cons. cbn. by rewrite IH. Qed.

Lemma as_omit_map m : as_map (omit_map m) = Some m.
Proof.
  unfold omit_map. case_decide as E; [by subst|]. cbn. rewrite string_map_list by apply NoDup_fst_map_to_list.
  by rewrite list_to_map_to_list.
Qed.

(** ** Documents *)

(** Decoding a struct member by member. *)
Ltac decode_members :=
  repeat (rewrite jget_members by (refine (bool_decide_unpack _ _); vm_compute; exact I));
  cbn [member String.eqb Ascii.eqb Bool.eqb].

Lemma snmp_roundtrip d : int64 (sd_SysServices d) → decode_snmp (snmp_members d) = Some d.
Proof.
  intros H. unfold snmp_members, decode_snmp. decode_members. rewrite !as_omit_string, as_omit_int by done.
  by destruct d.
Qed.

Lemma stp_roundtrip d : decode_stp (stp_members d) = Some d.
Proof.
  unfold stp_members, decode_stp. decode_members. rewrite !as_omit_string, as_omit_bool. by destruct d.
Qed.

Lemma open_port_roundtrip p : int64 (op_Port p) → decode_open_port (open_port_members p) = Some p.
Proof.
  intros H. unfold open_port_members, decode_open_port. decode_members. rewrite as_omit_string.
  cbn [as_int]. rewrite atoi_itoa by done. by destruct p.
Qed.

Lemma service_roundtrip e : int64 (se_Port e) → decode_service (service_members e) = Some e.
Proof.
  intros H. unfold service_members, decode_service. decode_members. rewrite !as_omit_string.
  cbn [as_int as_string]. rewrite atoi_itoa by done. by destruct e.
Qed.

Lemma prometheus_roundtrip p : decode_prometheus (prometheus_members p) = Some p.
Proof.
  unfold prometheus_members, decode_prometheus. decode_members. rewrite !as_omit_string, as_omit_map. by destruct p.
Qed.

(** The numbers of the record are Go integers of 64 bits. *)
Record attributes_wf (s : ScanAttributes) : Prop := {
  wf_CPUCount : int64 (sa_CPUCount s);
  wf_MemoryTotalBytes : int64 (sa_MemoryTotalBytes s);
  wf_UptimeSeconds : int64 (sa_UptimeSeconds s);
  wf_TTL : int64 (sa_TTL s);
  wf_LastScanRttMs : int64 (sa_LastScanRttMs s);
  wf_SysServices d : sa_SNMP s = Some d → int64 (sd_SysServices d);
  wf_OpenPorts : Forall (fun p => int64 (op_Port p)) (sa_OpenPorts s);
  wf_DetectedServices : Forall (fun e => int64 (se_Port e)) (sa_DetectedServices s)
}.

(** A document decodes to the record that was encoded, member by member.  This is
    about the decoded object; the text in between is [encoding/json]'s, which
    replaces what is not UTF-8. *)
Lemma attributes_roundtrip s (Hs : attributes_wf s) :
  UnmarshalScanAttributes (MarshalScanAttributes s) = Some s.
Proof.
  destruct Hs. unfold UnmarshalScanAttributes, MarshalScanAttributes, attribute_members. decode_members.
  rewrite !as_omit_string, !as_omit_bool, !as_omit_int, as_omit_map by done. cbn [mbind option_bind].
  rewrite (as_omit_pointer snmp_members) by (intros; by apply snmp_roundtrip, wf_SysServices0).
  rewrite (as_omit_pointer stp_members) by (intros; apply stp_roundtrip).
  rewrite (as_omit_pointer prometheus_members) by (intros; apply prometheus_roundtrip).
  rewrite (as_omit_array open_port_members) by (eapply Forall_impl; [exact open_port_roundtrip|done]).
  rewrite (as_omit_array service_members) by (eapply Forall_impl; [exact service_roundtrip|done]).
  by destruct s.
Qed.

(** * Patches *)

Lemma jget_jdel k k' o : k ≠ k' → jget k (jdel k' o) = jget k o.
Proof.
  intros Hk. unfold jdel. induction o as [|[x v] o IH]; [done|]. rewrite filter_cons. cbn [fst jget].
  case_decide; cbn [jget]; [by rewrite IH|]. rewrite IH. case_decide; [|done]. exfalso. naive_solver.
Qed.

Lemma jget_jset k k' v o : jget k (jset k' v o) = if decide (k' = k) then Some v else jget k o.
Proof. unfold jset. cbn [jget]. case_decide; [done|]. apply jget_jdel. congruence. Qed.

(** Members a patch does not mention are kept. *)
Lemma jget_patch k o p : jget k p = None → jget k (patch_attrs o p) = jget k o.
Proof.
  unfold patch_attrs. cbn [json_patch].
  set (go := fix go (ps o : jobject) := match ps with [] => o | (k, v) :: ps => _ end).
  revert o. induction p as [|[x v] p IH]; intros o; [done|]. cbn [jget]. case_decide as E; [done|]. intros Hp.
  cbn [go]. rewrite IH by done.
  assert (∀ j, jget k (jset x j o) = jget k o) as Hset by (intros j; rewrite jget_jset; by case_decide).
  destruct v; [apply jget_jdel; congruence|apply Hset..].
Qed.

Lemma jget_jdel_eq k o : jget k (jdel k o) = None.
Proof.
  apply jget_None. intros ([k' v] & E & [Hk _]%list_elem_of_filter)%list_elem_of_fmap. by cbn in *; subst.
Qed.

(** What a patch leaves in a member. *)
Lemma jget_patch_at k o p : NoDup p.*1 →
  jget k (patch_attrs o p)
  = match jget k p with
    | None => jget k o
    | Some JNull => None
    | Some v => Some (json_patch (default JNull (jget k o)) v)
    end.
Proof.
  unfold patch_attrs. cbn [json_patch].
  set (go := fix go (ps o : jobject) := match ps with [] => o | (k, v) :: ps => _ end).
  revert o. induction p as [|[x v] p IH]; intros o; [done|]. cbn [fmap list_fmap fst jget].
  intros [Hx Hp]%list.NoDup_cons. cbn [go]. rewrite IH by done. case_decide as E.
  - subst x. rewrite (jget_None k p) by done. destruct v; rewrite ?jget_jset, ?decide_True by done; try done.
    apply jget_jdel_eq.
  - destruct v; rewrite ?jget_jset, ?decide_False, ?jget_jdel by congruence; done.
Qed.

(** ** The merge, on records

    A rescan never erases: what it did not observe keeps the stored value.
    Since [false] is omitted like an absent value, a flag that was once set
    stays set. *)

Definition merge_int (a b : Z) : Z := if b =? 0 then a else b.
Definition merge_list {A} (a b : list A) : list A := match b with [] => a | _ => b end.
Definition merge_pointer {A} (zero : A) (f : A → A → A) (a b : option A) : option A :=
  match b with None => a | Some y => Some (f (default zero a) y) end.

Definition merge_snmp (a b : SNMPDiscovery) : SNMPDiscovery :=
  mkSNMPDiscovery (overwrite (sd_SysDescr a) (sd_SysDescr b)) (overwrite (sd_SysObjectID a) (sd_SysObjectID b))
    (overwrite (sd_SysName a) (sd_SysName b)) (overwrite (sd_SysLocation a) (sd_SysLocation b))
    (overwrite (sd_SysContact a) (sd_SysContact b)) (merge_int (sd_SysServices a) (sd_SysServices b)).

Definition merge_stp (a b : STPDiscovery) : STPDiscovery :=
  mkSTPDiscovery (overwrite (stp_BridgeMAC a) (stp_BridgeMAC b))
    (overwrite (stp_RootBridgeMAC a) (stp_RootBridgeMAC b)) (stp_IsRoot a || stp_IsRoot b)
    (overwrite (stp_Ports a) (stp_Ports b)).

Definition merge_prometheus (a b : PrometheusInfo) : PrometheusInfo :=
  mkPrometheus (overwrite (pi_URL a) (pi_URL b)) (overwrite (pi_NodeExporterURL a) (pi_NodeExporterURL b))
    (pi_Labels b ∪ pi_Labels a).

Definition merge_attributes (a b : ScanAttributes) : ScanAttributes :=
  let str f := overwrite (f a) (f b) in
  let num f := merge_int (f a) (f b) in
  mkAttributes (str sa_Vendor) (str sa_MAC) (str sa_Hostname)
    (sa_MacIsLocallyAdministered a || sa_MacIsLocallyAdministered b) (sa_MacIsMulticast a || sa_MacIsMulticast b)
    (str sa_OUIPrefix) (str sa_OUIVendor) (str sa_OS) (str sa_OSVersion) (str sa_KernelVersion)
    (str sa_FirmwareVersion) (num sa_CPUCount) (str sa_CPUModel) (num sa_MemoryTotalBytes) (num sa_UptimeSeconds)
    (num sa_TTL) (num sa_LastScanRttMs) (str sa_ScanSource) (str sa_LastScannedAt) (str sa_InferredType)
    (str sa_InferredTypeSource) (str sa_InferredModel) (str sa_InferredDescription)
    (merge_pointer (mkSNMPDiscovery "" "" "" "" "" 0) merge_snmp (sa_SNMP a) (sa_SNMP b))
    (merge_pointer (mkSTPDiscovery "" "" false "") merge_stp (sa_STP a) (sa_STP b))
    (merge_list (sa_OpenPorts a) (sa_OpenPorts b)) (merge_list (sa_DetectedServices a) (sa_DetectedServices b))
    (merge_pointer (mkPrometheus "" "" ∅) merge_prometheus (sa_Prometheus a) (sa_Prometheus b))
    (sa_Extras b ∪ sa_Extras a).

(** ** The patch implements it, member by member *)

Lemma json_patch_object t ps :
  json_patch t (JObject ps) = JObject (patch_attrs (match t with JObject o => o | _ => [] end) ps).
Proof. by destruct t. Qed.

Lemma string_map_jdel k o m : string_map o = Some m → string_map (jdel k o) = Some (delete k m).
Proof.
  revert m. induction o as [|[x j] o IH]; intros m; [by intros [= <-]; cbn; rewrite delete_empty|]. cbn [string_map].
  intros (v & Hv & (m' & Hm & [= <-])%bind_Some)%bind_Some. specialize (IH m' Hm).
  unfold jdel. rewrite filter_cons. cbn [fst]. change (filter _ o) with (jdel k o). case_decide as E.
  - cbn [string_map]. rewrite Hv. cbn. rewrite IH. cbn. by rewrite delete_insert_ne.
  - rewrite IH. destruct (decide (x = k)) as [->|]; [|done]. by rewrite delete_insert_eq.
Qed.

Lemma string_map_patch (l : list (string * string)) o m : NoDup l.*1 → string_map o = Some m →
  string_map (patch_attrs o ((fun kv => (kv.1, JString kv.2)) <$> l)) = Some (list_to_map l ∪ m).
Proof.
  unfold patch_attrs. cbn [json_patch].
  set (go := fix go (ps o : jobject) := match ps with [] => o | (k, v) :: ps => _ end).
  revert o m. induction l as [|[k v] l IH]; intros o m; cbn [fmap list_fmap fst snd go list_to_map foldr uncurry].
  { intros _ ->. by rewrite (left_id_L ∅ (∪)). }
  intros [Hk Hl]%list.NoDup_cons Ho. rewrite (IH _ (<[k := v]> m)); [|done|].
  - f_equal. apply not_elem_of_list_to_map in Hk.
    apply map_eq. intros x. rewrite !lookup_union. destruct (decide (x = k)) as [->|].
    + rewrite !lookup_insert_eq, Hk. by destruct (m !! k).
    + by rewrite !lookup_insert_ne.
  - unfold jset. cbn [string_map as_string json_patch mbind option_bind].
    rewrite (string_map_jdel k o m Ho). cbn. by rewrite insert_delete_eq.
Qed.

Section patched.
Context (o p : jobject) (Hp : NoDup p.*1) (k : string).

Lemma as_string_patch a b :
  as_string (jget k o) = Some a → jget k p = omit_string b → as_string (jget k (patch_attrs o p)) = Some (overwrite a b).
Proof. intros Ha Hb. rewrite jget_patch_at, Hb by done. unfold omit_string, overwrite. by case_decide. Qed.

Lemma as_int_patch a b : int64 b →
  as_int (jget k o) = Some a → jget k p = omit_int b → as_int (jget k (patch_attrs o p)) = Some (merge_int a b).
Proof.
  intros Hi Ha Hb. rewrite jget_patch_at, Hb by done. unfold omit_int, merge_int.
  destruct (b =? 0); [done|]. by apply atoi_itoa.
Qed.

Lemma as_bool_patch a b :
  as_bool (jget k o) = Some a → jget k p = omit_bool b → as_bool (jget k (patch_attrs o p)) = Some (a || b).
Proof.
  intros Ha Hb. rewrite jget_patch_at, Hb by done. destruct b; cbn; [by rewrite orb_true_r|by rewrite orb_false_r].
Qed.

Lemma as_pointer_patch {A} (dec : jobject → option A) enc zero f a b :
  dec [] = Some zero →
  (∀ o a y, b = Some y → dec o = Some a → dec (patch_attrs o (enc y)) = Some (f a y)) →
  as_pointer dec (jget k o) = Some a → jget k p = (fun x => JObject (enc x)) <$> b →
  as_pointer dec (jget k (patch_attrs o p)) = Some (merge_pointer zero f a b).
Proof.
  intros Hz Hf Ha Hb. rewrite jget_patch_at, Hb by done. destruct b as [y|]; [|done]. cbn [fmap option_fmap option_map].
  rewrite json_patch_object. cbn [as_pointer merge_pointer].
  destruct (jget k o) as [j|]; [|injection Ha as <-; cbn [from_option]; unfold id; by rewrite (Hf [] zero)].
  destruct j; try discriminate Ha; [injection Ha as <-; cbn [from_option]; unfold id; by rewrite (Hf [] zero)|].
  cbn [as_pointer from_option] in *. unfold id. apply fmap_Some in Ha as (x & E & ->).
  cbn [from_option]. unfold id. by rewrite (Hf _ x).
Qed.

Lemma as_array_patch {A} (dec : jobject → option A) enc a b :
  Forall (fun x => dec (enc x) = Some x) b →
  as_array dec (jget k o) = Some a → jget k p = omit_array (fun x => JObject (enc x)) b →
  as_array dec (jget k (patch_attrs o p)) = Some (merge_list a b).
Proof.
  intros Hf Ha Hb. rewrite jget_patch_at, Hb by done. destruct b as [|x l]; [done|].
  cbn [omit_array json_patch]. by apply (as_omit_array enc dec (x :: l)).
Qed.

Lemma as_map_patch a b :
  as_map (jget k o) = Some a → jget k p = omit_map b → as_map (jget k (patch_attrs o p)) = Some (b ∪ a).
Proof.
  intros Ha Hb. rewrite jget_patch_at, Hb by done. unfold omit_map. case_decide as E.
  { subst b. by rewrite (left_id_L ∅ (∪)). }
  rewrite json_patch_object. cbn [as_map].
  rewrite <- (list_to_map_to_list b) at 2. apply string_map_patch; [apply NoDup_fst_map_to_list|].
  destruct (jget k o) as [j|]; [|by injection Ha as <-]. destruct j; try discriminate Ha; [by injection Ha as <-|done].
Qed.

End patched.

Lemma members_NoDup l : NoDup l.*1 → NoDup (members l).*1.
Proof. intros Hl. eapply sublist_NoDup; [exact Hl|apply members_names]. Qed.

(** The equations of a document that decodes. *)
Ltac split_decode H :=
  repeat (let x := fresh "x" in let E := fresh "E" in apply bind_Some in H as (x & E & H));
  injection H as <-.

Ltac names := refine (bool_decide_unpack _ _); vm_compute; exact I.

(** One member of a patched document: the goal is [x ← dec (jget k (patch_attrs o p)); ...]. *)
Ltac patched lem :=
  apply bind_Some; eexists; split;
  [eapply lem; [apply members_NoDup; names|..|rewrite jget_members by names; reflexivity]; eassumption|].

Ltac patched_scalar := first [patched as_string_patch | patched as_int_patch | patched as_bool_patch | patched as_map_patch].

Lemma snmp_patch o a b : int64 (sd_SysServices b) →
  decode_snmp o = Some a → decode_snmp (patch_attrs o (snmp_members b)) = Some (merge_snmp a b).
Proof. intros Hb H. unfold decode_snmp, snmp_members in *. split_decode H. repeat patched_scalar. done. Qed.

Lemma stp_patch o a b :
  decode_stp o = Some a → decode_stp (patch_attrs o (stp_members b)) = Some (merge_stp a b).
Proof. intros H. unfold decode_stp, stp_members in *. split_decode H. repeat patched_scalar. done. Qed.

Lemma prometheus_patch o a b :
  decode_prometheus o = Some a → decode_prometheus (patch_attrs o (prometheus_members b)) = Some (merge_prometheus a b).
Proof. intros H. unfold decode_prometheus, prometheus_members in *. split_decode H. repeat patched_scalar. done. Qed.

Section patched_struct.
Context (o p : jobject) (Hp : NoDup p.*1) (k : string).

Lemma as_snmp_patch a b : (∀ y, b = Some y → int64 (sd_SysServices y)) →
  as_pointer decode_snmp (jget k o) = Some a → jget k p = (fun d => JObject (snmp_members d)) <$> b →
  as_pointer decode_snmp (jget k (patch_attrs o p))
  = Some (merge_pointer (mkSNMPDiscovery "" "" "" "" "" 0) merge_snmp a b).
Proof. intros Hb. apply as_pointer_patch; [done..|]. intros; apply snmp_patch; auto. Qed.

Lemma as_stp_patch a b :
  as_pointer decode_stp (jget k o) = Some a → jget k p = (fun d => JObject (stp_members d)) <$> b →
  as_pointer decode_stp (jget k (patch_attrs o p))
  = Some (merge_pointer (mkSTPDiscovery "" "" false "") merge_stp a b).
Proof. apply as_pointer_patch; [done..|]. intros; by apply stp_patch. Qed.

Lemma as_prometheus_patch a b :
  as_pointer decode_prometheus (jget k o) = Some a → jget k p = (fun x => JObject (prometheus_members x)) <$> b →
  as_pointer decode_prometheus (jget k (patch_attrs o p))
  = Some (merge_pointer (mkPrometheus "" "" ∅) merge_prometheus a b).
Proof. apply as_pointer_patch; [done..|]. intros; by apply prometheus_patch. Qed.

Lemma as_open_ports_patch a b : Forall (fun e => int64 (op_Port e)) b →
  as_array decode_open_port (jget k o) = Some a → jget k p = omit_array (fun x => JObject (open_port_members x)) b →
  as_array decode_open_port (jget k (patch_attrs o p)) = Some (merge_list a b).
Proof. intros Hb. apply as_array_patch; [done|]. eapply Forall_impl; [exact open_port_roundtrip|done]. Qed.

Lemma as_services_patch a b : Forall (fun e => int64 (se_Port e)) b →
  as_array decode_service (jget k o) = Some a → jget k p = omit_array (fun x => JObject (service_members x)) b →
  as_array decode_service (jget k (patch_attrs o p)) = Some (merge_list a b).
Proof. intros Hb. apply as_array_patch; [done|]. eapply Forall_impl; [exact service_roundtrip|done]. Qed.

End patched_struct.

Ltac patched_member :=
  first [patched_scalar | patched as_snmp_patch | patched as_stp_patch | patched as_prometheus_patch
        | patched as_open_ports_patch | patched as_services_patch].

Lemma attributes_patch o a b (Hb : attributes_wf b) (Ho : UnmarshalScanAttributes o = Some a) :
  UnmarshalScanAttributes (patch_attrs o (MarshalScanAttributes b)) = Some (merge_attributes a b).
Proof.
  destruct Hb. unfold UnmarshalScanAttributes, MarshalScanAttributes in *. split_decode Ho.
  repeat patched_member. reflexivity.
Qed.

(** C7.  A rescan merges.  When the stored document of a row decodes, the document
    an update leaves, for a re-scanned and for a replaced device alike, decodes
    to the member-wise merge of the stored record and the scanned one: a member
    the scan did not observe keeps its value, one it observed is replaced,
    nested records merge in the same way and extras are united. *)
Theorem rescan_merges w now r a b
    (Hr : UnmarshalScanAttributes (i_ScanAttributes (row_Info r)) = Some a)
    (Hw : iw_ScanAttributes w = MarshalScanAttributes b) (Hb : attributes_wf b) :
  UnmarshalScanAttributes (i_ScanAttributes (row_Info (existingIdentityUpdate w now r))) = Some (merge_attributes a b)
  ∧ UnmarshalScanAttributes (i_ScanAttributes (row_Info (replacementIdentityUpdate w now r)))
    = Some (merge_attributes a b).
Proof.
  change (i_ScanAttributes (row_Info (existingIdentityUpdate w now r)))
    with (patch_attrs (i_ScanAttributes (row_Info r)) (iw_ScanAttributes w)).
  change (i_ScanAttributes (row_Info (replacementIdentityUpdate w now r)))
    with (patch_attrs (i_ScanAttributes (row_Info r)) (iw_ScanAttributes w)).
  rewrite Hw. split; by apply attributes_patch.
Qed.

(** A phone with a randomized MAC was replaced by a camera with a vendor MAC. *)
Definition blank : ScanAttributes :=
  mkAttributes "" "" "" false false "" "" "" "" "" "" 0 "" 0 0 0 0 "" "" "" "" "" "" None None [] [] None ∅.
Definition phone_attrs : ScanAttributes :=
  mkAttributes "" "02:aa:bb:cc:dd:ee" "phone" true false "" "" "" "" "" "" 0 "" 0 0 64 3 "scanner_v2" "" "phone"
    "heuristic" "" "" (Some (mkSNMPDiscovery "" "" "phone" "" "" 72)) None [mkOpenPort 80 "http"]
    [mkServiceEntry 80 "http" "tcp" "1.1"] None {["arp_interface" := "eth0"]}.
Definition camera_attrs : ScanAttributes :=
  mkAttributes "Hik" "00:11:22:33:44:55" "cam" false false "00:11:22" "" "" "" "" "" 0 "" 0 0 0 5 "scanner_v2" ""
    "camera" "protocol" "" "" None None [] [] None ∅.
Definition attrs_row (a : ScanAttributes) : DeviceRow :=
  mkRow 1 "u1" "10.0.0.5" (sa_MAC a) (Some 7) "online" None None None None 0
    (mkInfo "" "other" "" "" "" "" "[]" "[]" "" "" (MarshalScanAttributes a) 0 "[]" "scanner_v2").
Definition attrs_write (a : ScanAttributes) : IdentityWrite :=
  mkWrite (mkResolution 1 2 false false false 0) "10.0.0.5" (sa_MAC a) (Some 7) "" "" "" "" "" "" "" "" "" ""
    (MarshalScanAttributes a) "[]" 5.

Lemma phone_attrs_wf : attributes_wf phone_attrs.
Proof.
  split; cbn [phone_attrs sa_CPUCount sa_MemoryTotalBytes sa_UptimeSeconds sa_TTL sa_LastScanRttMs sa_SNMP sa_OpenPorts
                sa_DetectedServices]; try (apply small_int64; lia).
  - intros d [= <-]. apply small_int64. cbn. lia.
  - repeat constructor; apply small_int64; cbn; lia.
  - repeat constructor; apply small_int64; cbn; lia.
Qed.

Lemma camera_attrs_wf : attributes_wf camera_attrs.
Proof.
  split; cbn [camera_attrs sa_CPUCount sa_MemoryTotalBytes sa_UptimeSeconds sa_TTL sa_LastScanRttMs sa_SNMP sa_OpenPorts
                sa_DetectedServices]; try (apply small_int64; lia); [done|constructor|constructor].
Qed.

Lemma rescan_merges_witness :
  UnmarshalScanAttributes (i_ScanAttributes (row_Info (existingIdentityUpdate (attrs_write camera_attrs) 9 (attrs_row phone_attrs))))
    = Some (merge_attributes phone_attrs camera_attrs)
  ∧ UnmarshalScanAttributes (i_ScanAttributes (row_Info (replacementIdentityUpdate (attrs_write camera_attrs) 9 (attrs_row phone_attrs))))
    = Some (merge_attributes phone_attrs camera_attrs).
Proof.
  apply (rescan_merges (attrs_write camera_attrs) 9 (attrs_row phone_attrs) phone_attrs camera_attrs).
  - vm_compute. reflexivity.
  - reflexivity.
  - apply camera_attrs_wf.
Defined.

(** The replaced row carries the vendor MAC of the camera and still says that
    its MAC is locally administered. *)
Example randomized_flag_sticks :
  (fun s => (sa_MAC s, sa_MacIsLocallyAdministered s)) <$>
    UnmarshalScanAttributes (i_ScanAttributes (row_Info
      (replacementIdentityUpdate (attrs_write camera_attrs) 9 (attrs_row phone_attrs))))
  = Some ("00:11:22:33:44:55", true).
Proof. vm_compute. reflexivity. Qed.
