(* ===== verification/DeviceSpec.v ===== *)
(** Properties of device identity: reports are never lost to a constraint and
    resolution settles. *)

From S2P Require Import Prelude Db Report DeviceStore Attributes AttributesSpec.

Open Scope Z_scope.

(** * The order of rows sharing a MAC *)

Definition older (s : Z) (r : DeviceRow) : Prop :=
  match row_LastSeen r with Some x => x < s | None => True end.

Definition top (s : Z) (r : DeviceRow) : Prop := row_Status r = "online" ∧ row_LastSeen r = Some s.

Lemma top_fresher s r r' : top s r → older s r' → fresher r r' = true ∧ fresher r' r = false.
Proof.
  intros [H1 H2]. unfold older, fresher. rewrite (bool_decide_true (row_Status r = "online")), H2 by done.
  destruct (bool_decide (row_Status r' = "online")), (row_LastSeen r') as [x|]; try done.
  intros Hx. destruct (Z.ltb_spec x s), (Z.ltb_spec s x); (done || lia).
Qed.

Lemma best_fold s r l acc :
  top s r → (∀ r', r' ∈ l → r' = r ∨ older s r') →
  (acc = Some r ∨ r ∈ l ∧ (∀ b, acc = Some b → older s b)) →
  fold_left (fun acc r => match acc with
                          | None => Some r
                          | Some b => if fresher r b then Some r else Some b
                          end) l acc = Some r.
Proof.
  intros Ht. revert acc. induction l as [|x l IH]; intros acc Hl Hacc; cbn [fold_left].
  { destruct Hacc as [->|[[]%elem_of_nil _]]. done. }
  apply IH; [intros; apply Hl; by right|].
  destruct (Hl x ltac:(by left)) as [->|Hx].
  - left. destruct Hacc as [->|[_ Hb]]; [by destruct (fresher r r)|].
    destruct acc as [b|]; [|done]. destruct (top_fresher s r b Ht) as [-> _]; [by apply Hb|done].
  - destruct Hacc as [->|[[->|Hr]%elem_of_cons Hb]].
    + left. by destruct (top_fresher s r x Ht Hx) as [_ ->].
    + left. destruct (top_fresher s x x Ht Hx). congruence.
    + right. split; [done|]. destruct acc as [b|]; [|by intros ? [= <-]].
      destruct (fresher x b); intros ? [= <-]; auto.
Qed.

Lemma mac_row_top s mac t db :
  top s t → t ∈ dd_rows db → row_MAC t = mac →
  (∀ r, r ∈ dd_rows db → row_MAC r = mac → r = t ∨ older s r) → mac_row mac db = Some t.
Proof.
  intros Ht Hin Hm Hall. unfold mac_row, best. apply (best_fold s); [done|..].
  - intros r' [? ?]%list_elem_of_filter. by apply Hall.
  - right. split; [by apply list_elem_of_filter|done].
Qed.

Lemma best_elem l acc r :
  fold_left (fun acc r => match acc with
                          | None => Some r
                          | Some b => if fresher r b then Some r else Some b
                          end) l acc = Some r → r ∈ l ∨ acc = Some r.
Proof.
  revert acc. induction l as [|x l IH]; intros acc; cbn [fold_left]; [by right|].
  intros [?|H]%IH; [left; by right|].
  destruct acc as [b|]; [destruct (fresher x b)|]; simplify_eq; set_solver.
Qed.

Lemma best_none l acc :
  fold_left (fun acc r => match acc with
                          | None => Some r
                          | Some b => if fresher r b then Some r else Some b
                          end) l acc = None → acc = None ∧ l = [].
Proof.
  revert acc. induction l as [|x l IH]; intros acc; cbn [fold_left]; [done|].
  intros [H _]%IH. destruct acc as [b|]; [destruct (fresher x b)|]; done.
Qed.

Lemma mac_row_Some mac db t : mac_row mac db = Some t → t ∈ dd_rows db ∧ row_MAC t = mac.
Proof. intros [[? ?]%list_elem_of_filter|?]%best_elem; done. Qed.

Lemma filter_nil_not {A} (P : A → Prop) `{!∀ x, Decision (P x)} (l : list A) x :
  filter P l = [] → x ∈ l → ¬ P x.
Proof. intros E Hx Hp. apply (not_elem_of_nil x). rewrite <- E. by apply list_elem_of_filter. Qed.

Lemma mac_row_None mac db : mac_row mac db = None ↔ ∀ r, r ∈ dd_rows db → row_MAC r ≠ mac.
Proof.
  split.
  - intros E%best_none r Hr. destruct E as [_ E]. by apply (filter_nil_not _ _ r) in E.
  - intros H. unfold mac_row. rewrite filter_none; [done|]. by apply list.Forall_forall.
Qed.

Lemma head_filter_Some {A} (P : A → Prop) `{!∀ x, Decision (P x)} (l : list A) x :
  head (filter P l) = Some x → x ∈ l ∧ P x.
Proof.
  destruct (filter P l) as [|y k] eqn:E; [done|]. intros [= ->].
  assert (x ∈ filter P l) as [? ?]%list_elem_of_filter; [rewrite E; by left|done].
Qed.

Lemma head_filter_None {A} (P : A → Prop) `{!∀ x, Decision (P x)} (l : list A) x :
  head (filter P l) = None → x ∈ l → ¬ P x.
Proof. destruct (filter P l) eqn:E; [|done]. intros _ ?. by apply (filter_nil_not P l). Qed.

(** * Well-formed tables *)

Definition slot_of (r : DeviceRow) : string * option Z := (row_IP r, row_Network r).

Record db_wf (db : device_db) : Prop := mkDbWf {
  wf_ids : NoDup (row_ID <$> dd_rows db);
  wf_seq : 0 ≤ dd_seq db;
  wf_pos r : r ∈ dd_rows db → 0 < row_ID r ≤ dd_seq db;
  wf_slots a b : a ∈ dd_rows db → b ∈ dd_rows db → same_slot a b = true → row_ID a = row_ID b;
  wf_types r : r ∈ dd_rows db → check_ok r = true;
  wf_parked r k : r ∈ dd_rows db → row_IP r = park_ip k → row_ID r = k
}.

Lemma same_slot_spec a b : same_slot a b = true ↔ ∃ n, slot_of a = (row_IP b, Some n) ∧ row_Network b = Some n.
Proof.
  unfold same_slot, slot_of. destruct (row_Network a) as [m|], (row_Network b) as [n|].
  2-4: split; [done|intros (k & ? & ?); congruence].
  rewrite andb_true_iff, bool_decide_eq_true, Z.eqb_eq. split.
  - intros [-> ->]. by exists n.
  - intros (k & [= -> ->] & [= ->]). done.
Qed.

Lemma same_slot_sym a b : same_slot a b = same_slot b a.
Proof.
  unfold same_slot. destruct (row_Network a), (row_Network b); try done. rewrite Z.eqb_sym. f_equal.
  apply bool_decide_ext. naive_solver.
Qed.

Lemma same_slot_key a b a' b' : slot_of a = slot_of a' → slot_of b = slot_of b' → same_slot a b = same_slot a' b'.
Proof. unfold slot_of, same_slot. by intros [= -> ->] [= -> ->]. Qed.

Lemma wf_unique db a b : db_wf db → a ∈ dd_rows db → b ∈ dd_rows db → row_ID a = row_ID b → a = b.
Proof.
  intros [Hid _ _ _ _ _] Ha Hb E. revert Ha Hb. induction (dd_rows db) as [|x l IH]; [by intros []%elem_of_nil|].
  cbn [fmap list_fmap] in Hid. apply list.NoDup_cons in Hid as [Hx Hl].
  intros [->|Ha]%elem_of_cons [->|Hb]%elem_of_cons; [done|..|by apply IH].
  - destruct Hx. rewrite E. by apply list_elem_of_fmap_2.
  - destruct Hx. rewrite <- E. by apply list_elem_of_fmap_2.
Qed.

Lemma slot_row_Some db ip n r :
  db_wf db → slot_row ip (Some n) db = Some r ↔ r ∈ dd_rows db ∧ row_IP r = ip ∧ row_Network r = Some n.
Proof.
  intros Hwf. split; [by intros [? []]%head_filter_Some|]. intros (Hr & Hip & Hn).
  unfold slot_row. destruct (head _) as [x|] eqn:E.
  - apply head_filter_Some in E as (Hx & Hxip & Hxn). f_equal. apply (wf_unique db); [done..|].
    apply (wf_slots _ Hwf); [done..|]. apply same_slot_spec. exists n. unfold slot_of. by rewrite Hxip, Hxn, Hip.
  - exfalso. by apply (head_filter_None _ _ r E).
Qed.

Lemma slot_row_None db ip n :
  slot_row ip n db = None ↔ ∀ r, r ∈ dd_rows db → slot_of r ≠ (ip, n).
Proof.
  unfold slot_of. split.
  - intros E r Hr [= H1 H2]. exfalso. by apply (head_filter_None _ _ r E).
  - intros H. unfold slot_row. rewrite filter_none; [done|]. apply list.Forall_forall. intros r Hr [H1 H2].
    apply (H r Hr). by rewrite H1, H2.
Qed.

Lemma get_row_spec db id r : db_wf db → r ∈ dd_rows db → row_ID r = id → get_row id db = Some r.
Proof.
  intros Hwf Hr Hid. unfold get_row. destruct (head _) as [x|] eqn:E.
  - apply head_filter_Some in E as [Hx Hi]. f_equal. apply (wf_unique db); [done..|congruence].
  - exfalso. by apply (head_filter_None _ _ r E).
Qed.

(** * Statements that succeed *)

Definition upd (f : DeviceRow → DeviceRow) (id : Z) (db : device_db) : device_db :=
  set_rows db ((fun r => if row_ID r =? id then f r else r) <$> dd_rows db).

Lemma elem_upd f id db r' :
  r' ∈ dd_rows (upd f id db) ↔
  ∃ r, r ∈ dd_rows db ∧ (row_ID r = id ∧ r' = f r ∨ row_ID r ≠ id ∧ r' = r).
Proof.
  unfold upd. cbn [set_rows dd_rows]. rewrite list_elem_of_fmap. split.
  - intros (r & -> & Hr). exists r. split; [done|]. destruct (Z.eqb_spec (row_ID r) id); [by left|by right].
  - intros (r & Hr & [[Hid ->]|[Hid ->]]); exists r; split; [|done| |done];
      destruct (Z.eqb_spec (row_ID r) id); done.
Qed.

(** An update is fine when the changed row keeps its id and its checks, does
    not collide with another row, and takes no foreign parking address. *)
Lemma update_row_ok f id db :
  db_wf db → (∀ r, row_ID (f r) = row_ID r) →
  (∀ r, r ∈ dd_rows db → row_ID r = id → check_ok (f r) = true
     ∧ (∀ o, o ∈ dd_rows db → row_ID o ≠ id → same_slot (f r) o = false)
     ∧ (∀ k, row_IP (f r) = park_ip k → id = k)) →
  update_row f id db = Some (upd f id db) ∧ db_wf (upd f id db).
Proof.
  intros Hwf Hfid Hok. split.
  - unfold update_row. cbv zeta. rewrite (proj2 (forallb_forall _ _)); [done|].
    intros r Hr%list_elem_of_In. destruct (Z.eqb_spec (row_ID r) id) as [Hid|]; [|done]. cbn [negb orb].
    destruct (Hok r Hr Hid) as (-> & Hs & _). cbn [andb]. apply negb_true_iff, not_true_iff_false.
    unfold conflicts. intros (o' & Ho'%list_elem_of_In & [Hne Hsl]%andb_true_iff)%existsb_exists.
    change (o' ∈ dd_rows (upd f id db)) in Ho'. apply elem_upd in Ho' as (o & Ho & [[Hoi ->]|[Hoi ->]]).
    + apply negb_true_iff, Z.eqb_neq in Hne. rewrite !Hfid in Hne. congruence.
    + rewrite Hs in Hsl by done. done.
  - split; cbn [upd set_rows dd_rows dd_seq].
    + rewrite <- list_fmap_compose. erewrite list_fmap_ext; [exact (wf_ids _ Hwf)|].
      intros _ r _. unfold compose. destruct (row_ID r =? id); [apply Hfid|done].
    + apply (wf_seq _ Hwf).
    + intros r' (r & Hr & [[? ->]|[? ->]])%elem_upd; rewrite ?Hfid; by apply (wf_pos _ Hwf).
    + intros a' b' (a & Ha & [[Hai ->]|[Hai ->]])%elem_upd (b & Hb & [[Hbi ->]|[Hbi ->]])%elem_upd; rewrite ?Hfid.
      * congruence.
      * destruct (Hok a Ha Hai) as (_ & Hs & _). by rewrite Hs.
      * destruct (Hok b Hb Hbi) as (_ & Hs & _). rewrite same_slot_sym. by rewrite Hs.
      * by apply (wf_slots _ Hwf).
    + intros r' (r & Hr & [[Hi ->]|[? ->]])%elem_upd; [by apply Hok|by apply (wf_types _ Hwf)].
    + intros r' k (r & Hr & [[Hi ->]|[? ->]])%elem_upd; [|by apply (wf_parked _ Hwf)].
      intros Hk. rewrite Hfid, Hi. by apply (Hok r Hr Hi).
Qed.

(** Updates of other columns. *)
Lemma update_row_quiet f id db :
  db_wf db → (∀ r, row_ID (f r) = row_ID r) → (∀ r, slot_of (f r) = slot_of r) →
  (∀ r, r ∈ dd_rows db → row_ID r = id → check_ok (f r) = true) →
  update_row f id db = Some (upd f id db) ∧ db_wf (upd f id db).
Proof.
  intros Hwf Hid Hsl Hck. apply update_row_ok; [done..|]. intros r Hr Hri. split_and!.
  - by apply Hck.
  - intros o Ho Hoi. rewrite (same_slot_key (f r) o r o) by done. apply not_true_iff_false. intros E.
    apply (wf_slots _ Hwf r o) in E; congruence.
  - intros k Hk. specialize (Hsl r). unfold slot_of in Hsl. injection Hsl as E1 _.
    rewrite <- Hri. apply (wf_parked _ Hwf r); congruence.
Qed.

(** * Updates of descriptive columns *)

Definition core (r : DeviceRow) : Z * string * string * option Z * string * option Z :=
  (row_ID r, row_IP r, row_MAC r, row_Network r, row_Status r, row_LastSeen r).

Definition aliases (r : DeviceRow) : option (list string) := alias_list (i_ScanAttributes (row_Info r)).

(** [db'] differs from [db] in descriptive columns of row [id] only; with
    [keep] the recorded aliases are kept too. *)
Definition tuned (keep : bool) (id : Z) (db db' : device_db) : Prop :=
  ∃ f, db' = upd f id db ∧ (∀ r, core (f r) = core r)
       ∧ ∀ r, r ∈ dd_rows db → row_ID r = id → check_ok (f r) = true ∧ (keep = true → aliases (f r) = aliases r).

Lemma core_id f : (∀ r, core (f r) = core r) → ∀ r, row_ID (f r) = row_ID r.
Proof. intros H r. specialize (H r). unfold core in H. congruence. Qed.

Lemma core_slot f : (∀ r, core (f r) = core r) → ∀ r, slot_of (f r) = slot_of r.
Proof. intros H r. specialize (H r). unfold core, slot_of in *. congruence. Qed.

Lemma tuned_wf keep id db db' : db_wf db → tuned keep id db db' → db_wf db'.
Proof.
  intros Hwf (f & -> & Hc & Hk). apply update_row_quiet; [done|by apply core_id|by apply core_slot|].
  intros r Hr Hi. by apply Hk.
Qed.

Lemma tuned_refl keep id db : db_wf db → tuned keep id db db.
Proof.
  intros Hwf. exists (fun r => r). split_and!; [|done|].
  - destruct db as [rows q p]. unfold upd, set_rows. cbn. f_equal.
    rewrite (list_fmap_ext _ (fun r : DeviceRow => r)); [by rewrite list_fmap_id|].
    intros _ r _. by destruct (row_ID r =? id).
  - intros r Hr _. split; [by apply (wf_types _ Hwf)|done].
Qed.

Lemma tuned_weaken id db db' : tuned true id db db' → tuned false id db db'.
Proof. intros (f & ? & ? & Hk). exists f. split_and!; [done..|]. intros r Hr Hi. by split; [apply Hk|]. Qed.

Lemma upd_upd f g id db : (∀ r, row_ID (f r) = row_ID r) → upd g id (upd f id db) = upd (fun r => g (f r)) id db.
Proof.
  intros Hf. unfold upd, set_rows. cbn. f_equal. rewrite <- list_fmap_compose. apply list_fmap_ext.
  intros _ r _. unfold compose. destruct (row_ID r =? id) eqn:E; [by rewrite Hf, E|by rewrite E].
Qed.

Lemma exec_Some x db : exec (Some x) db = x.
Proof. done. Qed.

Lemma tuned_step keep f id db0 db :
  db_wf db0 → tuned keep id db0 db → (∀ r, core (f r) = core r) →
  (∀ r, r ∈ dd_rows db → row_ID r = id → check_ok (f r) = true ∧ (keep = true → aliases (f r) = aliases r)) →
  tuned keep id db0 (exec (update_row f id db) db).
Proof.
  intros Hwf Ht Hc Hk. pose proof (tuned_wf _ _ _ _ Hwf Ht) as Hwf1.
  destruct (update_row_quiet f id db) as [-> _]; [done|by apply core_id|by apply core_slot|intros; by apply Hk|].
  rewrite exec_Some. destruct Ht as (g & -> & Hg & Hgk).
  exists (fun r => f (g r)). split_and!.
  - apply upd_upd. by apply core_id.
  - intros r. by rewrite Hc, Hg.
  - intros r Hr Hi. destruct (Hgk r Hr Hi) as [Hg1 Hg2].
    destruct (Hk (g r)) as [Hk1 Hk2]; [apply elem_upd; exists r; split; [done|by left]|by rewrite (core_id g)|].
    split; [done|]. intros E. by rewrite Hk2, Hg2.
Qed.

Lemma aliases_attrs r r' :
  jget "mac_aliases" (i_ScanAttributes (row_Info r)) = jget "mac_aliases" (i_ScanAttributes (row_Info r')) →
  aliases r = aliases r'.
Proof. unfold aliases, alias_list. by intros ->. Qed.

(** A report whose columns the table accepts. *)
Record write_ok (w : IdentityWrite) : Prop := mkWriteOk {
  wo_type : iw_Type w = "" ∨ iw_Type w ∈ device_types;
  wo_attrs : jget "mac_aliases" (iw_ScanAttributes w) = None
}.

Lemma fill_type (w : IdentityWrite) junk t :
  write_ok w → t ∈ device_types → fill junk t (iw_Type w) ∈ device_types.
Proof. intros [[H|H] _] Ht; unfold fill; case_decide as E; try done. by destruct E as [_ []]. Qed.

Lemma overwrite_type (w : IdentityWrite) t :
  write_ok w → t ∈ device_types → overwrite t (iw_Type w) ∈ device_types.
Proof. intros [[H|H] _] Ht; unfold overwrite; case_decide; done. Qed.

Lemma heal_name_tuned w now db0 db :
  db_wf db0 → tuned true (res_TargetID (iw_Res w)) db0 db →
  tuned true (res_TargetID (iw_Res w)) db0 (heal_name w now db).
Proof.
  intros Hwf Ht. pose proof (tuned_wf _ _ _ _ Hwf Ht) as Hwf1. unfold heal_name. cbv zeta.
  destruct (get_row _ db) as [r|] eqn:G; [|done]. apply head_filter_Some in G as [Hr Hi].
  set (db1 := if _ && _ then exec _ db else db).
  assert (tuned true (res_TargetID (iw_Res w)) db0 db1
          ∧ ∀ r', r' ∈ dd_rows db1 → row_ID r' = res_TargetID (iw_Res w) →
              check_ok r' = true ∧ i_ScanAttributes (row_Info r') = i_ScanAttributes (row_Info r)
              ∧ i_Type (row_Info r') = i_Type (row_Info r)) as [Ht1 Hattr].
  { unfold db1. destruct (_ && _).
    - split.
      + apply tuned_step; [done..|]. intros r' Hr' _. split; [|done]. by apply (wf_types _ Hwf1) in Hr'.
      + edestruct (update_row_quiet (fun r => touch now (with_info (set_name
            (if PlausibleHostname (iw_Name w) then iw_Name w else iw_IP w)) r))
            (res_TargetID (iw_Res w)) db) as [-> Hw]; [done..| |].
        { intros r' Hr' _. by apply (wf_types _ Hwf1) in Hr'. }
        intros r' Hr' Hi'. split; [by apply (wf_types _ Hw)|].
        apply elem_upd in Hr' as (r0 & Hr0 & [[Hi0 ->]|[Hi0 ->]]); [|done].
        cbn. by rewrite (wf_unique db r0 r) by (done || congruence).
    - split; [done|]. intros r' Hr' Hi'. split; [by apply (wf_types _ Hwf1)|].
      by rewrite (wf_unique db r' r) by (done || congruence). }
  destruct (jget "hostname" _) as [[]|]; try done. destruct (PlausibleHostname s); [done|].
  apply tuned_step; [done..|]. intros r' Hr' Hi'. destruct (Hattr r' Hr' Hi') as (Hck & Ha & _). split; [done|].
  intros _. apply aliases_attrs. cbn. rewrite Ha. by apply jget_jdel.
Qed.

(** The first half of an update touches descriptive columns only. *)
Definition describe (w : IdentityWrite) (now : Z) (db : device_db) : device_db :=
  let id := res_TargetID (iw_Res w) in
  let updateSQL := if decide (res_ReplacedID (iw_Res w) ≠ 0) then replacementIdentityUpdate else existingIdentityUpdate in
  let db := exec (update_row (updateSQL w now) id db) db in
  let db := exec (update_row (heal_brand w now) id db) db in
  heal_name w now db.

Lemma describe_tuned w now db :
  db_wf db → write_ok w → tuned true (res_TargetID (iw_Res w)) db (describe w now db).
Proof.
  intros Hwf Hok. unfold describe. cbv zeta. apply heal_name_tuned; [done|].
  set (db1 := exec _ db). assert (tuned true (res_TargetID (iw_Res w)) db db1) as Ht1.
  { unfold db1. apply tuned_step; [done|by apply tuned_refl|by intros r; case_decide|].
    intros r Hr Hi. apply (wf_types _ Hwf) in Hr. apply bool_decide_eq_true in Hr. split.
    - apply bool_decide_eq_true. case_decide; cbn; [by apply overwrite_type|by apply fill_type].
    - intros _. apply aliases_attrs. case_decide; cbn; by apply jget_patch, Hok. }
  apply tuned_step; [done..| |].
  - intros r. unfold heal_brand. cbv zeta. by destruct (_ && _).
  - intros r Hr Hi. apply (wf_types _ (tuned_wf _ _ _ _ Hwf Ht1)) in Hr.
    unfold heal_brand. cbv zeta. by destruct (_ && _).
Qed.

(** * Rows followed through a sequence of statements *)

(** Rows other than [id] come from rows with the same MAC and last sighting. *)
Definition tracks (id : Z) (db db' : device_db) : Prop :=
  ∀ r', r' ∈ dd_rows db' → row_ID r' = id ∨ ∃ r, r ∈ dd_rows db ∧ row_MAC r' = row_MAC r
                                               ∧ row_LastSeen r' = row_LastSeen r.

Lemma tracks_refl id db : tracks id db db.
Proof. intros r Hr. right. by exists r. Qed.

Lemma tracks_upd id f j db0 db :
  tracks id db0 db → (∀ r, row_ID (f r) = row_ID r) →
  (j = id ∨ ∀ r, row_MAC (f r) = row_MAC r ∧ row_LastSeen (f r) = row_LastSeen r) →
  tracks id db0 (upd f j db).
Proof.
  intros Ht Hf Hj r' (r1 & Hr1 & [[Hi1 ->]|[Hi1 ->]])%elem_upd; [|by apply Ht]. rewrite Hf.
  destruct Hj as [->|Hj]; [by left|]. destruct (Hj r1) as [-> ->]. by apply Ht.
Qed.

Lemma tracks_tuned keep id db0 db db' : tracks id db0 db → tuned keep id db db' → tracks id db0 db'.
Proof.
  intros Ht (f & -> & Hc & _). apply tracks_upd; [done|by apply core_id|by left].
Qed.

Lemma tuned_elem keep id db db' r :
  tuned keep id db db' → r ∈ dd_rows db →
  ∃ r', r' ∈ dd_rows db' ∧ core r' = core r
        ∧ (row_ID r = id → keep = true → aliases r' = aliases r) ∧ (row_ID r ≠ id → r' = r).
Proof.
  intros (f & -> & Hc & Hk) Hr. destruct (decide (row_ID r = id)) as [Hi|Hi].
  - exists (f r). split_and!; [apply elem_upd; exists r; by auto|done| |done]. intros _. by apply Hk.
  - exists r. split_and!; [apply elem_upd; exists r; by auto|done..].
Qed.

Lemma upd_elem f id db r : r ∈ dd_rows db → row_ID r = id → f r ∈ dd_rows (upd f id db).
Proof. intros. apply elem_upd. exists r. auto. Qed.

Lemma upd_elem_ne f id db r : r ∈ dd_rows db → row_ID r ≠ id → r ∈ dd_rows (upd f id db).
Proof. intros. apply elem_upd. exists r. auto. Qed.

Definition no_read_faults : identity_read → bool := fun _ => true.

(** The target sits at the reported address with the reported MAC: the next
    resolution is a plain match. *)
Lemma resolve_hit db db' now mac ip net id t :
  db_wf db' → tracks id db db' → (∀ r, r ∈ dd_rows db → older (DBTime now) r) →
  mac ≠ "" → t ∈ dd_rows db' → row_ID t = id → top (DBTime now) t → row_MAC t = mac → row_IP t = ip →
  ResolveDeviceIdentity no_read_faults db' now mac ip net = Ok (plain id).
Proof.
  intros Hwf Ht Hold Hm Hin Hid Htop HM HI. unfold ResolveDeviceIdentity. rewrite decide_False by done.
  cbn [no_read_faults]. rewrite (mac_row_top (DBTime now) mac t); [|done..|].
  - unfold resolve_seen. cbn [no_read_faults negb]. rewrite bool_decide_true by done. by rewrite Hid.
  - intros r Hr _. destruct (Ht r Hr) as [Hi|(r0 & Hr0 & _ & E)].
    + left. apply (wf_unique db'); [done..|congruence].
    + right. unfold older. rewrite E. by apply Hold.
Qed.

Lemma core_inv r r' : core r = core r' →
  row_ID r = row_ID r' ∧ row_IP r = row_IP r' ∧ row_MAC r = row_MAC r' ∧ row_Network r = row_Network r'
  ∧ row_Status r = row_Status r' ∧ row_LastSeen r = row_LastSeen r'.
Proof. by intros [= -> -> -> -> -> ->]. Qed.

(** * What the branches of an update leave behind *)

Section branches.
Context (db : device_db) (now : Z) (w : IdentityWrite) (Hwf : db_wf db) (Hw : write_ok w).

Let id := res_TargetID (iw_Res w).

Lemma update_unfold :
  updateDeviceIdentity w now db =
  let db := describe w now db in
  if decide (res_ReplacedID (iw_Res w) ≠ 0 ∨ res_TakeOver (iw_Res w) = true) then
    let prevMAC := match get_row id db with Some r => row_MAC r | None => "" end in
    let db := if negb (bool_decide (prevMAC = "")) && negb (equal_fold prevMAC (iw_MAC w))
              then recordHolderAlias id prevMAC db else db in
    let db := exec (update_row (force_mac (iw_MAC w) now) id db) db in
    if decide (res_ReplacedID (iw_Res w) ≠ 0)
    then exec (update_row (supersede now) (res_ReplacedID (iw_Res w)) db) db else db
  else if res_Roamed (iw_Res w) then
    match update_row (stamp_online (Some (iw_IP w)) (iw_NetworkID w) (iw_MAC w) now) id db with
    | Some db => db
    | None =>
        let db := evict_placeholder (iw_IP w) (iw_NetworkID w) id db in
        exec (update_row (stamp_online (Some (iw_IP w)) None (iw_MAC w) now) id db) db
    end
  else exec (update_row (stamp_online None None (iw_MAC w) now) id db) db.
Proof. reflexivity. Qed.

(** Plain update: a stamp after the description. *)
Lemma update_plain :
  iw_Res w = plain id →
  ∃ f, updateDeviceIdentity w now db = upd (fun r => stamp_online None None (iw_MAC w) now (f r)) id db
       ∧ db_wf (updateDeviceIdentity w now db) ∧ (∀ r, core (f r) = core r)
       ∧ ∀ r, r ∈ dd_rows db → row_ID r = id → aliases (f r) = aliases r.
Proof.
  intros Hres. rewrite update_unfold, Hres. cbv zeta. cbn [plain res_ReplacedID res_TakeOver res_Roamed].
  rewrite decide_False by naive_solver.
  pose proof (describe_tuned w now db Hwf Hw) as Ht. pose proof (tuned_wf _ _ _ _ Hwf Ht) as Hwf1.
  destruct (update_row_quiet (stamp_online None None (iw_MAC w) now) id (describe w now db))
    as [-> Hwf2]; [done..|intros r Hr _; exact (wf_types _ Hwf1 r Hr)|].
  rewrite exec_Some. destruct Ht as (f & E & Hc & Hk). exists f. split_and!; [|done|done|].
  - rewrite E at 1. apply upd_upd. by apply core_id.
  - intros r Hr Hi. by apply Hk.
Qed.

(** Roam onto a slot that no other row holds. *)
Lemma update_roam n t :
  res_ReplacedID (iw_Res w) = 0 → res_TakeOver (iw_Res w) = false → res_Roamed (iw_Res w) = true →
  iw_NetworkID w = Some n → (∀ k, iw_IP w ≠ park_ip k) → iw_MAC w ≠ "" →
  t ∈ dd_rows db → row_ID t = id → row_MAC t = iw_MAC w →
  (∀ o, o ∈ dd_rows db → row_ID o ≠ id → slot_of o ≠ (iw_IP w, Some n)) →
  db_wf (updateDeviceIdentity w now db) ∧ tracks id db (updateDeviceIdentity w now db)
  ∧ ∃ t', t' ∈ dd_rows (updateDeviceIdentity w now db) ∧ row_ID t' = id ∧ top now t'
          ∧ row_MAC t' = iw_MAC w ∧ row_IP t' = iw_IP w.
Proof.
  intros HR HT HRo HN Hpark HM Ht Hi Htm Hfree. rewrite update_unfold. cbv zeta. rewrite HR, HT, HRo, HN.
  rewrite decide_False by naive_solver.
  pose proof (describe_tuned w now db Hwf Hw) as Htu. fold id in Htu. pose proof (tuned_wf _ _ _ _ Hwf Htu) as Hwf1.
  destruct (update_row_ok (stamp_online (Some (iw_IP w)) (Some n) (iw_MAC w) now) id (describe w now db))
    as [-> Hwf2]; [done..| |].
  { intros r Hr Hri. split_and!; [exact (wf_types _ Hwf1 r Hr)| |].
    - intros o Ho Hoi. apply not_true_iff_false. intros (k & E & En)%same_slot_spec.
      unfold slot_of in E. cbn in E. injection E as E1 E2. subst k. destruct Htu as (f & Ef & Hc & _).
      rewrite Ef in Ho.
      apply elem_upd in Ho as (o0 & Ho0 & [[? ->]|[? ->]]); [rewrite core_id in Hoi by done; congruence|].
      apply (Hfree o0 Ho0 Hoi). unfold slot_of. by rewrite En, <- E1.
    - intros k Hk. by apply Hpark in Hk. }
  split_and!; [done| |].
  - apply tracks_upd; [|done|by left]. by eapply tracks_tuned; [apply tracks_refl|].
  - destruct (tuned_elem _ _ _ _ t Htu Ht) as (t1 & Ht1 & (C1 & C2 & C3 & C4 & C5 & C6)%core_inv & _).
    eexists. split; [apply upd_elem; [exact Ht1|congruence]|]. cbn. split_and!; [congruence|done| |done].
    case_decide as E; [done|congruence].
Qed.

(** The slot holder takes the reported MAC. *)
Lemma alias_step_tuned db0 db1 mac :
  db_wf db0 → tuned false id db0 db1 → tuned false id db0 (recordHolderAlias id mac db1).
Proof.
  intros Hwf0 Ht. pose proof (tuned_wf _ _ _ _ Hwf0 Ht) as Hwf1. unfold recordHolderAlias. case_decide; [done|].
  cbv zeta. destruct (existsb _ _); [done|]. apply tuned_step; [done..|].
  intros r Hr _. split; [exact (wf_types _ Hwf1 r Hr)|done].
Qed.

Lemma update_force h :
  res_ReplacedID (iw_Res w) ≠ 0 ∨ res_TakeOver (iw_Res w) = true →
  res_ReplacedID (iw_Res w) ≠ id → h ∈ dd_rows db → row_ID h = id → row_IP h = iw_IP w →
  db_wf (updateDeviceIdentity w now db) ∧ tracks id db (updateDeviceIdentity w now db)
  ∧ ∃ t', t' ∈ dd_rows (updateDeviceIdentity w now db) ∧ row_ID t' = id ∧ top now t'
          ∧ row_MAC t' = iw_MAC w ∧ row_IP t' = iw_IP w.
Proof.
  intros HRT Hne Hh Hhi Hip. rewrite update_unfold. cbv zeta. rewrite decide_True by done.
  set (db1 := describe w now db).
  assert (tuned false id db db1) as Ht1 by by apply tuned_weaken, describe_tuned.
  set (db2 := if _ && _ then recordHolderAlias _ _ db1 else db1).
  assert (tuned false id db db2) as Ht2.
  { unfold db2. destruct (_ && _); [|done]. by apply alias_step_tuned. }
  pose proof (tuned_wf _ _ _ _ Hwf Ht2) as Hwf2.
  destruct (update_row_quiet (force_mac (iw_MAC w) now) id db2) as [-> Hwf3];
    [done..|intros r Hr _; exact (wf_types _ Hwf2 r Hr)|]. rewrite exec_Some.
  assert (tracks id db (upd (force_mac (iw_MAC w) now) id db2)) as Htr.
  { apply tracks_upd; [|done|by left]. by eapply tracks_tuned; [apply tracks_refl|]. }
  destruct (tuned_elem _ _ _ _ h Ht2 Hh) as (h1 & Hh1 & (C1 & C2 & C3 & C4 & C5 & C6)%core_inv & _).
  assert (force_mac (iw_MAC w) now h1 ∈ dd_rows (upd (force_mac (iw_MAC w) now) id db2)) as Hin
    by (apply upd_elem; [done|congruence]).
  case_decide as HR.
  - destruct (update_row_quiet (supersede now) (res_ReplacedID (iw_Res w)) (upd (force_mac (iw_MAC w) now) id db2))
      as [-> Hwf4]; [done..|intros r Hr _; exact (wf_types _ Hwf3 r Hr)|]. rewrite exec_Some.
    split_and!; [done|apply tracks_upd; [done|done|by right]|].
    exists (force_mac (iw_MAC w) now h1). split_and!; [apply upd_elem_ne; [done|cbn; congruence]|..]; cbn; congruence || done.
  - split_and!; [done..|]. exists (force_mac (iw_MAC w) now h1). split_and!; [done|..]; cbn; congruence || done.
Qed.

End branches.

(** * Creation and parking *)

Lemma park_ip_inj a b : park_ip a = park_ip b → a = b.
Proof. unfold park_ip. intros H. by simplify_eq. Qed.

Lemma create_ok uuid w now db n :
  db_wf db → write_ok w → iw_NetworkID w = Some n → (∀ k, iw_IP w ≠ park_ip k) →
  slot_row (iw_IP w) (Some n) db = None →
  ∃ db' t, createDeviceIdentity uuid w now db = (db', Ok (dd_seq db + 1)) ∧ db_wf db'
    ∧ tracks (dd_seq db + 1) db db' ∧ dd_presence db' = dd_presence db
    ∧ t ∈ dd_rows db' ∧ row_ID t = dd_seq db + 1 ∧ top now t ∧ row_MAC t = iw_MAC w ∧ slot_of t = (iw_IP w, Some n).
Proof.
  intros Hwf Hw HN Hpark Hfree. unfold createDeviceIdentity. cbv zeta. rewrite HN.
  set (row := mkRow _ _ _ _ _ _ _ _ _ _ _ _).
  assert (check_ok row = true) as Hck.
  { apply bool_decide_eq_true. unfold row. cbn. destruct Hw as [[->|H] _]; [rewrite decide_True by done; set_solver|].
    case_decide; [set_solver|done]. }
  assert (∀ o, o ∈ dd_rows db → same_slot row o = false) as Hs.
  { intros o Ho. apply not_true_iff_false. intros (k & E & En)%same_slot_spec. unfold slot_of, row in E. cbn in E.
    injection E as E1 E2. rewrite slot_row_None in Hfree. apply (Hfree o Ho). unfold slot_of. congruence. }
  assert (conflicts row (dd_rows db) = false) as ->.
  { apply not_true_iff_false. unfold conflicts.
    intros (o & Ho%list_elem_of_In & [_ H]%andb_true_iff)%existsb_exists. by rewrite Hs in H. }
  rewrite Hck. cbn [negb andb]. exists (mkDeviceDb (dd_rows db ++ [row]) (dd_seq db + 1) (dd_presence db)), row.
  assert (∀ r, r ∈ dd_rows db ++ [row] → r ∈ dd_rows db ∨ r = row) as Hcase.
  { intros r [?|E%list_elem_of_singleton]%elem_of_app; auto. }
  split_and!; [done| | |done|apply elem_of_app; right; by apply list_elem_of_singleton|done..].
  - split; cbn [dd_rows dd_seq].
    + rewrite fmap_app. apply list.NoDup_app. split_and!; [apply (wf_ids _ Hwf)| |by apply NoDup_singleton].
      intros x (r & -> & Hr)%list_elem_of_fmap Hx%list_elem_of_singleton. apply (wf_pos _ Hwf) in Hr. cbn in Hx. lia.
    + pose proof (wf_seq _ Hwf). lia.
    + pose proof (wf_seq _ Hwf). intros r [Hr| ->]%Hcase; [apply (wf_pos _ Hwf) in Hr; lia|cbn; lia].
    + intros a b [Ha| ->]%Hcase [Hb| ->]%Hcase; [by apply (wf_slots _ Hwf)|..|done].
      * by rewrite same_slot_sym, Hs.
      * by rewrite Hs.
    + intros r [Hr| ->]%Hcase; [by apply (wf_types _ Hwf)|done].
    + intros r k [Hr| ->]%Hcase; [by apply (wf_parked _ Hwf)|]. intros Hk. by apply Hpark in Hk.
  - intros r [Hr| ->]%Hcase; [right; by exists r|by left].
Qed.

Lemma park_ok db now h :
  db_wf db → h ∈ dd_rows db →
  update_row (park now) (row_ID h) db = Some (upd (park now) (row_ID h) db)
  ∧ db_wf (upd (park now) (row_ID h) db).
Proof.
  intros Hwf Hh. apply update_row_ok; [done..|]. intros r Hr Hi. split_and!.
  - exact (wf_types _ Hwf r Hr).
  - intros o Ho Hoi. apply not_true_iff_false. intros (n & E & _)%same_slot_spec.
    unfold slot_of in E. cbn in E. injection E as E1 _. apply Hoi.
    rewrite <- Hi. apply (wf_parked _ Hwf o); [done|by rewrite E1].
  - intros k Hk. cbn in Hk. rewrite Hi in Hk. by apply park_ip_inj.
Qed.

(** * Reports settle *)

Section settle.
Context (uuid mac ip : string) (n now : Z) (db : device_db) (w : IdentityWrite).
Context (Hwf : db_wf db) (Hw : write_ok w).
Context (Hold : ∀ r, r ∈ dd_rows db → older (DBTime now) r).
Context (Hloc : CarriesNoLocation ip = false) (Hpark : ∀ k, ip ≠ park_ip k).
Context (Wip : iw_IP w = ip) (Wmac : iw_MAC w = mac) (Wnet : iw_NetworkID w = Some n).

Abbreviation resolve d := (ResolveDeviceIdentity no_read_faults d now mac ip (Some n)).

(** The write succeeds, the table stays well-formed, and the same report
    resolves to the written row without any special handling. *)
Definition settles : Prop :=
  ∃ db' id, ApplyDeviceIdentity uuid w now db = (db', Ok id) ∧ db_wf db' ∧ resolve db' = Ok (plain id)
    ∧ ∃ t, t ∈ dd_rows db' ∧ row_ID t = id ∧ top (DBTime now) t.

Lemma apply_update r :
  iw_Res w = r → res_IsNew r = false → res_ParkHolderID r = 0 →
  ApplyDeviceIdentity uuid w now db = (updateDeviceIdentity w (DBTime now) db, Ok (res_TargetID r)).
Proof. intros Hr HN HP. unfold ApplyDeviceIdentity. cbv zeta. by rewrite Hr, HN, decide_False by (rewrite HP; auto). Qed.

(** A fresh row. *)
Lemma settle_new : iw_Res w = new_row 0 → slot_row ip (Some n) db = None → mac_row mac db = None ∨ mac = "" → settles.
Proof.
  intros Hr Hfree Hnone.
  destruct (create_ok uuid w (DBTime now) db n) as (db' & t & Hc & Hwf' & Htr & _ & Ht & Hi & Htop & Hm & Hs);
    [done..|by rewrite Wip|by rewrite Wip|]. rewrite Wip in Hs. injection Hs as Hs1 Hs2.
  exists db', (dd_seq db + 1). split_and!; [|done| |by exists t].
  - unfold ApplyDeviceIdentity. cbv zeta. by rewrite Hr, decide_False by auto.
  - destruct (decide (mac = "")) as [E|E].
    + unfold ResolveDeviceIdentity. rewrite decide_True by done. cbn [no_read_faults].
      assert (slot_row ip (Some n) db' = Some t) as -> by by apply slot_row_Some. by rewrite Hi.
    + by apply (resolve_hit db _ _ _ _ _ _ t); [..|congruence|].
Qed.

(** A fresh row on a slot whose holder is parked. *)
Lemma settle_park_new h :
  mac ≠ "" → iw_Res w = new_row (row_ID h) → slot_row ip (Some n) db = Some h → settles.
Proof.
  intros Hm0 Hr Hh. apply slot_row_Some in Hh as (Hh & Hhip & Hhn); [|done].
  pose proof (wf_pos _ Hwf h Hh) as Hpos.
  destruct (park_ok db (DBTime now) h Hwf Hh) as [Hu Hwf1]. set (db1 := upd _ _ db) in *.
  destruct (create_ok uuid w (DBTime now) db1 n) as (db' & t & Hc & Hwf' & Htr & _ & Ht & Hi & Htop & Hm & Hs);
    [done..|by rewrite Wip| |].
  { rewrite Wip. apply slot_row_None. intros r (r0 & Hr0 & [[Hi ->]|[Hi ->]])%elem_upd [= E1 E2].
    - by destruct (Hpark (row_ID r0)).
    - apply Hi. apply (wf_slots _ Hwf); [done..|]. apply same_slot_spec. exists n. unfold slot_of. by rewrite E1, E2, Hhip. }
  rewrite Wip in Hs. injection Hs as Hs1 Hs2. exists db', (dd_seq db1 + 1). split_and!; [|done| |by exists t].
  - unfold ApplyDeviceIdentity. cbv zeta. rewrite Hr. cbn [new_row res_ParkHolderID res_IsNew].
    rewrite decide_True by lia. by rewrite Hu, exec_Some.
  - assert (tracks (dd_seq db1 + 1) db db') as Htr'.
    { intros r [?|(r1 & Hr1 & E1 & E2)]%Htr; [by left|]. right.
      apply elem_upd in Hr1 as (r0 & Hr0 & [[? ->]|[? ->]]); by exists r0. }
    by apply (resolve_hit db _ _ _ _ _ _ t); [..|congruence|].
Qed.

(** A plain update of a row at the reported address. *)
Lemma settle_plain_at t :
  iw_Res w = plain (row_ID t) → t ∈ dd_rows db → row_IP t = ip → row_Network t = Some n ∨ mac ≠ "" →
  mac = "" ∨ row_MAC t = mac ∨ row_MAC t = "" → settles.
Proof.
  intros Hr Ht Hip Hn Hm. destruct (update_plain db (DBTime now) w Hwf Hw) as (f & E & Hwf' & Hc & _);
    [by rewrite Hr|]. rewrite Hr in E. cbn [plain res_TargetID] in E.
  pose proof (core_inv _ _ (Hc t)) as (C1 & C2 & C3 & C4 & C5 & C6).
  assert (stamp_online None None (iw_MAC w) (DBTime now) (f t) ∈ dd_rows (updateDeviceIdentity w (DBTime now) db)) as Hin.
  { rewrite E. by apply (upd_elem (fun r => stamp_online None None (iw_MAC w) (DBTime now) (f r))). }
  exists (updateDeviceIdentity w (DBTime now) db), (row_ID t). split_and!; [by rewrite (apply_update _ Hr)|done| |].
  - destruct (decide (mac = "")) as [Em|Em].
    + destruct Hn as [Hn|]; [|done]. unfold ResolveDeviceIdentity. rewrite decide_True by done. cbn [no_read_faults].
      assert (slot_row ip (Some n) (updateDeviceIdentity w (DBTime now) db)
              = Some (stamp_online None None (iw_MAC w) (DBTime now) (f t))) as ->.
      { apply slot_row_Some; [done|]. cbn. split_and!; [done|congruence..]. }
      cbn. by rewrite C1.
    + eapply (resolve_hit db); [done| |done|done|exact Hin|done|done|..]; [|cbn|cbn; congruence].
      * rewrite E. apply tracks_upd; [apply tracks_refl| |left; cbn; congruence].
        intros r. cbn. by apply core_id.
      * rewrite Wmac, C3. case_decide as Ed; [done|]. naive_solver.
  - exists (stamp_online None None (iw_MAC w) (DBTime now) (f t)). split_and!; [done|cbn; congruence|done].
Qed.

(** A roam, after parking the holder of the slot if there is one. *)
Lemma settle_roam t :
  mac ≠ "" → iw_Res w = roamed (row_ID t) 0 → t ∈ dd_rows db → row_MAC t = mac →
  slot_row ip (Some n) db = None → settles.
Proof.
  intros Hm Hr Ht Htm Hfree.
  destruct (update_roam db (DBTime now) w Hwf Hw n t) as (Hwf' & Htr & t' & Ht' & Hi & Htop & HM & HI);
    rewrite ?Hr, ?Wip, ?Wmac; try done.
  { intros o Ho _. rewrite slot_row_None in Hfree. by apply Hfree. }
  rewrite Hr in Htr, Hi. cbn [roamed res_TargetID] in Htr, Hi.
  exists (updateDeviceIdentity w (DBTime now) db), (row_ID t).
  split_and!; [by rewrite (apply_update _ Hr)|done| |by exists t'].
  by apply (resolve_hit db _ _ _ _ _ _ t'); [..|congruence|congruence].
Qed.

Lemma settle_park_roam t h :
  mac ≠ "" → iw_Res w = roamed (row_ID t) (row_ID h) → t ∈ dd_rows db → row_MAC t = mac → row_IP t ≠ ip →
  slot_row ip (Some n) db = Some h → settles.
Proof.
  intros Hm Hr Ht Htm Htip Hh. apply slot_row_Some in Hh as (Hh & Hhip & Hhn); [|done].
  pose proof (wf_pos _ Hwf h Hh) as Hpos.
  assert (row_ID t ≠ row_ID h) as Hne by (intros E; apply (wf_unique db) in E; [congruence|done..]).
  destruct (park_ok db (DBTime now) h Hwf Hh) as [Hu Hwf1]. set (db1 := upd _ _ db) in *.
  destruct (update_roam db1 (DBTime now) w Hwf1 Hw n t) as (Hwf' & Htr & t' & Ht' & Hi & Htop & HM & HI);
    rewrite ?Hr, ?Wip, ?Wmac; try done.
  { by apply upd_elem_ne. }
  { intros o (o0 & Ho0 & [[Hi ->]|[Hi ->]])%elem_upd _ [= E1 E2]; [by destruct (Hpark (row_ID o0))|].
    apply Hi. apply (wf_slots _ Hwf); [done..|]. apply same_slot_spec. exists n. unfold slot_of. by rewrite E1, E2, Hhip. }
  rewrite Hr in Htr, Hi. cbn [roamed res_TargetID] in Htr, Hi.
  exists (updateDeviceIdentity w (DBTime now) db1), (row_ID t). split_and!; [|done| |by exists t'].
  - unfold ApplyDeviceIdentity. cbv zeta. rewrite Hr. cbn [roamed res_ParkHolderID res_IsNew].
    rewrite decide_True by lia. by rewrite Hu, exec_Some.
  - assert (tracks (row_ID t) db (updateDeviceIdentity w (DBTime now) db1)) as Htr'.
    { intros r [?|(r1 & Hr1 & E1 & E2)]%Htr; [by left|]. right.
      apply elem_upd in Hr1 as (r0 & Hr0 & [[? ->]|[? ->]]); by exists r0. }
    by apply (resolve_hit db _ _ _ _ _ _ t'); [..|congruence|congruence].
Qed.

(** A take-over of the slot, or a replacement. *)
Lemma settle_force h r :
  mac ≠ "" → iw_Res w = r → res_TargetID r = row_ID h → res_IsNew r = false → res_ParkHolderID r = 0 →
  (res_ReplacedID r ≠ 0 ∨ res_TakeOver r = true) → res_ReplacedID r ≠ row_ID h →
  slot_row ip (Some n) db = Some h → settles.
Proof.
  intros Hm Hr HT HN HP HRT Hne Hh. apply slot_row_Some in Hh as (Hh & Hhip & Hhn); [|done].
  destruct (update_force db (DBTime now) w Hwf Hw h) as (Hwf' & Htr & t' & Ht' & Hi & Htop & HM & HI);
    rewrite ?Hr, ?Wip, ?HT; try done.
  rewrite Hr, HT in Htr, Hi. exists (updateDeviceIdentity w (DBTime now) db), (row_ID h).
  split_and!; [by rewrite (apply_update _ Hr), HT|done| |by exists t'].
  by apply (resolve_hit db _ _ _ _ _ _ t'); [..|congruence|congruence].
Qed.

(** ** Plain updates of a row that is not at the reported address *)

(** What a plain update of [t] leaves: every row keeps its slot; rows other
    than [t] are unchanged, and [t] is stamped. *)
Lemma plain_rows t :
  iw_Res w = plain (row_ID t) → t ∈ dd_rows db →
  ∃ db' t', ApplyDeviceIdentity uuid w now db = (db', Ok (row_ID t)) ∧ db_wf db' ∧ dd_presence db' = dd_presence db
    ∧ t' ∈ dd_rows db' ∧ row_ID t' = row_ID t ∧ slot_of t' = slot_of t ∧ top (DBTime now) t'
    ∧ row_MAC t' = (if decide (mac ≠ "" ∧ row_MAC t = "") then mac else row_MAC t) ∧ aliases t' = aliases t
    ∧ (∀ r, r ∈ dd_rows db → row_ID r ≠ row_ID t → r ∈ dd_rows db')
    ∧ (∀ r', r' ∈ dd_rows db' → r' = t' ∨ r' ∈ dd_rows db ∧ row_ID r' ≠ row_ID t)
    ∧ (∀ m, row_MAC t ≠ m → row_MAC t' ≠ m →
         filter (fun r => row_MAC r = m) (dd_rows db') = filter (fun r => row_MAC r = m) (dd_rows db)).
Proof.
  intros Hr Ht. destruct (update_plain db (DBTime now) w Hwf Hw) as (f & E & Hwf' & Hc & Ha);
    [by rewrite Hr|]. rewrite Hr in E, Ha. cbn [plain res_TargetID] in E, Ha.
  pose proof (core_inv _ _ (Hc t)) as (C1 & C2 & C3 & C4 & C5 & C6).
  rewrite (apply_update _ Hr eq_refl eq_refl), E. rewrite E in Hwf'. cbn [plain res_TargetID].
  set (g := fun r => stamp_online None None (iw_MAC w) (DBTime now) (f r)) in *.
  exists (upd g (row_ID t) db), (g t).
  split_and!; [done..|by apply upd_elem|done| |done| | | | |].
  - unfold slot_of. cbn. congruence.
  - cbn. by rewrite Wmac, C3.
  - by apply Ha.
  - intros r Hr' Hne. by apply upd_elem_ne.
  - intros r' (r0 & Hr0 & [[Hi ->]|[Hi ->]])%elem_upd; [left|by right].
    by rewrite (wf_unique db r0 t) by done.
  - intros m H1 H2. unfold upd. cbn [set_rows dd_rows].
    assert (∀ r, r ∈ dd_rows db → row_ID r = row_ID t → r = t) as Hu by (intros; by apply (wf_unique db)).
    clear -H1 H2 Hu. induction (dd_rows db) as [|x l IH]; [done|]. cbn [fmap list_fmap].
    rewrite !filter_cons, IH by (intros; apply Hu; [by right|done]).
    destruct (Z.eqb_spec (row_ID x) (row_ID t)) as [Ex|]; [|done].
    rewrite (Hu x ltac:(by left) Ex) in *. by rewrite !decide_False.
Qed.

Lemma settle_plain_away t :
  mac ≠ "" → iw_Res w = plain (row_ID t) → mac_row mac db = Some t → row_IP t ≠ ip →
  resolve_seen no_read_faults db now t mac ip (Some n) = plain (row_ID t) → settles.
Proof.
  intros Hm Hr Hmr Hip Hrs. destruct (mac_row_Some _ _ _ Hmr) as [Ht Htm].
  destruct (plain_rows t Hr Ht) as (db' & t' & Ha & Hwf' & Hp & Ht' & Hi & Hs & Htop & HM & _ & Hkeep & Hrows & _).
  rewrite decide_False in HM by (intros [_ E]; congruence). injection Hs as Hs1 Hs2.
  exists db', (row_ID t). split_and!; [done..| |by exists t'].
  unfold ResolveDeviceIdentity. rewrite decide_False by done. cbn [no_read_faults].
  rewrite (mac_row_top (DBTime now) mac t'); [|done|done|congruence|].
  2: { intros r Hr' _. destruct (Hrows r Hr') as [?|[? _]]; [by left|right; by apply Hold]. }
  rewrite <- Hrs. unfold resolve_seen. cbn [no_read_faults negb]. f_equal.
  rewrite !bool_decide_false, Hloc by congruence. cbn [orb]. rewrite Hs2, Hi. unfold HasFreshPresenceOutside.
  rewrite Hp. destruct (match row_Network t with Some _ => _ | None => _ end) eqn:Emulti; [done|].
  unfold resolve_seen in Hrs. cbn [no_read_faults negb] in Hrs.
  rewrite bool_decide_false, Hloc in Hrs by done. cbn [orb] in Hrs. unfold HasFreshPresenceOutside in Hrs.
  rewrite Emulti in Hrs. destruct (slot_row ip (Some n) db) as [h|] eqn:Eh; [|done].
  assert (slot_row ip (Some n) db' = Some h) as ->; [|done].
  apply slot_row_Some in Eh as (Hh & Hhip & Hhn); [|done]. apply slot_row_Some; [done|].
  split_and!; [|done..]. apply Hkeep; [done|]. intros E. apply (wf_unique db) in E; [congruence|done..].
Qed.

Lemma settle_alias_seen t h :
  mac ≠ "" → iw_Res w = plain (row_ID h) → mac_row mac db = Some t → row_IP t ≠ ip →
  slot_row ip (Some n) db = Some h → row_MAC h ≠ "" → row_MAC h ≠ mac →
  resolve_seen no_read_faults db now t mac ip (Some n) = plain (row_ID h) → settles.
Proof.
  intros Hm Hr Hmr Hip Hsl Hh1 Hh2 Hrs. pose proof Hsl as (Hh & Hhip & Hhn)%slot_row_Some; [|done].
  destruct (plain_rows h Hr Hh) as (db' & h' & Ha & Hwf' & Hp & Hh' & Hi & Hs & Htop & HM & Hal & _ & _ & Hf).
  rewrite decide_False in HM by (by intros [_ E]). injection Hs as Hs1 Hs2.
  assert (slot_row ip (Some n) db' = Some h') as Hsl' by (apply slot_row_Some; [done|split_and!; congruence]).
  exists db', (row_ID h). split_and!; [done..| |by exists h'].
  unfold ResolveDeviceIdentity. rewrite decide_False by done. cbn [no_read_faults].
  assert (mac_row mac db' = Some t) as ->.
  { unfold mac_row. rewrite Hf by congruence. exact Hmr. }
  f_equal. rewrite <- Hrs. unfold resolve_seen. cbn [no_read_faults negb].
  rewrite !bool_decide_false, Hloc by congruence. cbn [orb]. unfold HasFreshPresenceOutside. rewrite Hp, Hsl, Hsl'.
  rewrite Hi, HM. unfold macIsHolderAlias. cbn [no_read_faults].
  change (alias_list (i_ScanAttributes (row_Info h'))) with (aliases h'). by rewrite Hal.
Qed.

Lemma settle_alias_unseen h :
  mac ≠ "" → iw_Res w = plain (row_ID h) → mac_row mac db = None → empty_slot_row ip (Some n) db = None →
  slot_row ip (Some n) db = Some h → row_MAC h ≠ "" →
  macIsHolderAlias no_read_faults h mac = true → settles.
Proof.
  intros Hm Hr Hmr Hem Hsl Hh1 Hal1. pose proof Hsl as (Hh & Hhip & Hhn)%slot_row_Some; [|done].
  assert (row_MAC h ≠ mac) as Hh2 by by apply (proj1 (mac_row_None mac db) Hmr).
  destruct (plain_rows h Hr Hh) as (db' & h' & Ha & Hwf' & Hp & Hh' & Hi & Hs & Htop & HM & Hal & _ & Hrows & Hf).
  rewrite decide_False in HM by (by intros [_ E]). injection Hs as Hs1 Hs2.
  assert (slot_row ip (Some n) db' = Some h') as Hsl' by (apply slot_row_Some; [done|split_and!; congruence]).
  exists db', (row_ID h). split_and!; [done..| |by exists h'].
  unfold ResolveDeviceIdentity. rewrite decide_False by done. cbn [no_read_faults].
  assert (mac_row mac db' = None) as ->.
  { unfold mac_row. rewrite Hf by congruence. exact Hmr. }
  unfold resolve_unseen. rewrite Hloc. cbn [no_read_faults].
  assert (empty_slot_row ip (Some n) db' = None) as ->.
  { unfold empty_slot_row. rewrite filter_none; [done|]. apply list.Forall_forall.
    intros r Hr' (E1 & E2 & E3). destruct (Hrows r Hr') as [->|[? _]]; [congruence|].
    by apply (head_filter_None _ _ r Hem). }
  rewrite Hsl', HM, decide_False by done. unfold macIsHolderAlias in *. cbn [no_read_faults] in *.
  change (alias_list (i_ScanAttributes (row_Info h'))) with (aliases h'). rewrite Hal.
  unfold aliases. by rewrite Hal1, Hi.
Qed.

Lemma settle_seen t :
  mac ≠ "" → mac_row mac db = Some t → iw_Res w = resolve_seen no_read_faults db now t mac ip (Some n) → settles.
Proof.
  intros Hm Hmr Hr. destruct (mac_row_Some _ _ _ Hmr) as [Ht Htm].
  destruct (decide (row_IP t = ip)) as [Hip|Hip].
  { apply (settle_plain_at t); [|by auto..]. rewrite Hr. unfold resolve_seen. cbn [no_read_faults negb].
    by rewrite bool_decide_true. }
  pose proof Hr as Hr'. unfold resolve_seen in Hr'. cbn [no_read_faults negb] in Hr'.
  rewrite bool_decide_false, Hloc in Hr' by done. cbn [orb] in Hr'.
  destruct (match row_Network t with Some _ => _ | None => _ end);
    [by apply (settle_plain_away t); [..|congruence]|].
  destruct (slot_row ip (Some n) db) as [h|] eqn:Hsl; [|by apply (settle_roam t)].
  case_decide as Hh; [by apply (settle_plain_away t); [..|congruence]|].
  apply Decidable.not_or in Hh as [Hh1 Hh2].
  destruct (macIsHolderAlias no_read_faults h mac); [by apply (settle_alias_seen t h); [..|congruence]|].
  destruct (_ && _); [by apply (settle_park_roam t h)|].
  pose proof Hsl as (Hh & Hhip & Hhn)%slot_row_Some; [|done]. pose proof (wf_pos _ Hwf t Ht).
  apply (settle_force h _ Hm Hr'); cbn; try done; [left; lia|].
  intros E. apply (wf_unique db) in E; [congruence|done..].
Qed.

Lemma settle_unseen res :
  mac ≠ "" → mac_row mac db = None → iw_Res w = res →
  resolve_unseen no_read_faults db mac ip (Some n) = Ok res → settles.
Proof.
  intros Hm Hmr Hr. unfold resolve_unseen. rewrite Hloc. cbn [no_read_faults].
  destruct (empty_slot_row ip (Some n) db) as [r|] eqn:Hem.
  { intros [= <-]. apply head_filter_Some in Hem as (Hr1 & Hr2 & Hr3 & Hr4). by apply (settle_plain_at r); auto. }
  destruct (slot_row ip (Some n) db) as [h|] eqn:Hsl; [|intros [= <-]; by apply settle_new; auto].
  case_decide as Hh.
  { exfalso. apply slot_row_Some in Hsl as (? & ? & ?); [|done]. by apply (head_filter_None _ _ h Hem). }
  destruct (macIsHolderAlias no_read_faults h mac) eqn:Ha; [intros [= <-]; by apply (settle_alias_unseen h)|].
  destruct (_ && _); intros [= <-]; [by apply (settle_park_new h)|].
  pose proof Hsl as (Hh1 & _)%slot_row_Some; [|done]. pose proof (wf_pos _ Hwf h Hh1).
  apply (settle_force h _ Hm Hr); cbn; try done; [by right|lia].
Qed.

End settle.

Lemma resolved_settles uuid mac ip n now db w
    (Hwf : db_wf db) (Hw : write_ok w)
    (Hold : ∀ r, r ∈ dd_rows db → older (DBTime now) r)
    (Hloc : CarriesNoLocation ip = false) (Hpark : ∀ k, ip ≠ park_ip k)
    (Wip : iw_IP w = ip) (Wmac : iw_MAC w = mac) (Wnet : iw_NetworkID w = Some n)
    (Wres : ResolveDeviceIdentity no_read_faults db now mac ip (Some n) = Ok (iw_Res w)) :
  ∃ db' id, ApplyDeviceIdentity uuid w now db = (db', Ok id) ∧ db_wf db'
    ∧ ResolveDeviceIdentity no_read_faults db' now mac ip (Some n) = Ok (plain id)
    ∧ ∃ t, t ∈ dd_rows db' ∧ row_ID t = id ∧ top (DBTime now) t.
Proof.
  unfold ResolveDeviceIdentity in Wres. cbn [no_read_faults] in Wres. case_decide as Hm.
  - destruct (slot_row ip (Some n) db) as [r|] eqn:E; injection Wres as Wres; symmetry in Wres.
    + pose proof E as (? & ? & ?)%slot_row_Some; [|done].
      by eapply settle_plain_at; eauto.
    + by apply settle_new; auto.
  - destruct (mac_row mac db) as [t|] eqn:E.
    + injection Wres as Wres. by eapply settle_seen.
    + by eapply settle_unseen.
Qed.

(** C4.  Identity resolution settles.  For every well-formed table and every
    report with a real address under a network, writing the row that
    [ResolveDeviceIdentity] chose succeeds (no constraint of the table ever
    refuses the report), keeps the table well-formed, leaves the written row
    online, and the same report resolved again is a plain match of that row:
    no second move, take-over, replacement or parking.  The report carries an
    accepted type and no alias list of its own, and the clock is past the
    recorded sightings. *)
Theorem identity_settles uuid mac ip n now db w
    (Hwf : db_wf db) (Hw : write_ok w)
    (Hold : ∀ r, r ∈ dd_rows db → older (DBTime now) r)
    (Hloc : CarriesNoLocation ip = false) (Hpark : ∀ k, ip ≠ park_ip k)
    (Wip : iw_IP w = ip) (Wmac : iw_MAC w = mac) (Wnet : iw_NetworkID w = Some n)
    (Wres : ResolveDeviceIdentity no_read_faults db now mac ip (Some n) = Ok (iw_Res w)) :
  ∃ db' id, ApplyDeviceIdentity uuid w now db = (db', Ok id) ∧ db_wf db'
    ∧ ResolveDeviceIdentity no_read_faults db' now mac ip (Some n) = Ok (plain id)
    ∧ ∃ t, t ∈ dd_rows db' ∧ row_ID t = id ∧ top (DBTime now) t.
Proof. by apply resolved_settles. Qed.

(** A camera holds 10.0.0.5; a phone with a randomized MAC, known from
    10.0.0.9, is reported there. *)
Definition no_info : DeviceInfo := mkInfo "" "other" "" "" "" "" "[]" "[]" "" "" [] 0 "[]" "scanner_v2".
Definition camera : DeviceRow :=
  mkRow 1 "u1" "10.0.0.5" "00:11:22:33:44:55" (Some 7) "online" (Some 10) (Some 100) None (Some 100) 100 no_info.
Definition phone : DeviceRow :=
  mkRow 2 "u2" "10.0.0.9" "02:aa:bb:cc:dd:ee" (Some 7) "online" (Some 10) (Some 90) None (Some 90) 90 no_info.
Definition lan : device_db := mkDeviceDb [camera; phone] 2 [].
Definition phone_report (res : IdentityResolution) : IdentityWrite :=
  mkWrite res "10.0.0.5" "02:aa:bb:cc:dd:ee" (Some 7) "phone" "phone" "" "" "" "" "" "" "" "" [] "[]" 3.

Lemma lan_rows r : r ∈ dd_rows lan → r = camera ∨ r = phone.
Proof. cbn. set_solver. Qed.

Lemma lan_wf : db_wf lan.
Proof.
  split.
  - refine (bool_decide_unpack _ _). vm_compute. exact I.
  - by vm_compute.
  - intros r [->| ->]%lan_rows; vm_compute; split; congruence.
  - intros a b [->| ->]%lan_rows [->| ->]%lan_rows; done.
  - intros r [->| ->]%lan_rows; vm_compute; done.
  - intros r k [->| ->]%lan_rows; done.
Qed.

Lemma identity_settles_witness :
  ∃ db' id, ApplyDeviceIdentity "u3" (phone_report (roamed 2 1)) (200 * nanos_per_second) lan = (db', Ok id) ∧ db_wf db'
    ∧ ResolveDeviceIdentity no_read_faults db' (200 * nanos_per_second) "02:aa:bb:cc:dd:ee" "10.0.0.5" (Some 7)
      = Ok (plain id)
    ∧ ∃ t, t ∈ dd_rows db' ∧ row_ID t = id ∧ top (DBTime (200 * nanos_per_second)) t.
Proof.
  apply (identity_settles "u3" "02:aa:bb:cc:dd:ee" "10.0.0.5" 7 (200 * nanos_per_second) lan (phone_report (roamed 2 1)));
    [apply lan_wf|split; [right; cbn; set_solver|done]| |by vm_compute|done..|vm_compute; reflexivity].
  intros r [->| ->]%lan_rows; vm_compute; reflexivity.
Defined.

(** The parked camera keeps its row and MAC, without an address. *)
Example phone_parks_camera :
  (fun r => (row_ID r, row_IP r, row_MAC r)) <$>
    dd_rows (ApplyDeviceIdentity "u3" (phone_report (roamed 2 1)) (200 * nanos_per_second) lan).1
  = [(1, "#park:1", "00:11:22:33:44:55"); (2, "10.0.0.5", "02:aa:bb:cc:dd:ee")].
Proof. vm_compute. reflexivity. Qed.
