(* ===== verification/DeviceType.v ===== *)
(** Device type inference (src/internal/service/scannerv2/runner/device_type_rules.go
    and the type decision of runner/device_bridge.go): the priority matcher
    over the rule table, the override gates, the decision of
    [applyDeviceBridge], and the stickiness of protocol verdicts.

    The rule table is data (device_types.yaml), lower-cased when it is loaded:
    it is the argument [tbl]. *)

From S2P Require Import Prelude Report DeviceStore Attributes.

Open Scope Z_scope.

(** * The rule table *)

Record typeRule := mkTypeRule {
  tr_Type : string;
  tr_Field : string;
  tr_Source : string;
  tr_Keywords : list string
}.

Record osTypeRule := mkOsTypeRule {
  or_Keywords : list string;
  or_Type : string;
  or_Source : string
}.

Record portTypeRule := mkPortTypeRule {
  pr_Service : string;
  pr_Require : list string;
  pr_Port : Z;
  pr_PortAny : list Z;
  pr_ExcludePorts : list Z;
  pr_ExcludeServices : list string;
  pr_Type : string;
  pr_Source : string
}.

Record typeRuleTable := mkTypeRules {
  tt_Rules : list typeRule;
  tt_OSRules : list osTypeRule;
  tt_PortRules : list portTypeRule
}.

Definition containsAny (s : string) (subs : list string) : bool := existsb (fun sub => contains_str sub s) subs.

Definition excludedSvcListed (l : list string) (svc : string) : bool := existsb (fun v => equal_fold v svc) l.

Definition portListed (l : list Z) (p : Z) : bool := existsb (fun v => v =? p) l.

(** The inputs of the matcher. *)
Definition host_name (rep : HostReport) : string :=
  let host := to_lower (rep_field rep "node_hostname") in
  if decide (host = "") then to_lower (rep_field rep "sys_name") else host.

Definition brand_name (rep : HostReport) : string := to_lower (rep_field rep "inferred_brand").
Definition os_name (rep : HostReport) : string := to_lower (rep_field rep "os_type").

Section table.
Context (tbl : typeRuleTable).

Definition rule_input (rep : HostReport) (r : typeRule) : string :=
  if decide (tr_Field r = "brand") then brand_name rep
  else if decide (tr_Field r = "hint") then host_name rep +:+ " " +:+ brand_name rep +:+ " " +:+ os_name rep
  else host_name rep.

(** ** Port shapes *)

Definition has_service (rep : HostReport) (svc : string) : bool :=
  existsb (fun s => bool_decide (s_Service s = svc)) (hr_Services rep).

Definition port_open (rep : HostReport) (p : Z) : bool := existsb (fun s => s_Port s =? p) (hr_Services rep).

(** An excluded service sits on a port the rule keyed on. *)
Definition service_veto (rep : HostReport) (r : portTypeRule) : bool :=
  existsb (fun s => excludedSvcListed (pr_ExcludeServices r) (s_Service s)
                    && ((pr_Port r =? 0) && (length (pr_PortAny r) =? 0)%nat
                        || (pr_Port r =? s_Port s) || portListed (pr_PortAny r) (s_Port s))) (hr_Services rep).

Definition port_rule_matches (rep : HostReport) (r : portTypeRule) : bool :=
  (bool_decide (pr_Service r = "") || has_service rep (pr_Service r))
  && forallb (has_service rep) (pr_Require r)
  && ((pr_Port r =? 0) || port_open rep (pr_Port r))
  && ((length (pr_PortAny r) =? 0)%nat || existsb (port_open rep) (pr_PortAny r))
  && negb (existsb (port_open rep) (pr_ExcludePorts r))
  && negb (service_veto rep r)
  && negb (bool_decide (pr_Service r = "") && (pr_Port r =? 0) && (length (pr_PortAny r) =? 0)%nat).

(** ** The matcher *)

Definition matchDeviceType (rep : HostReport) : string * string :=
  match List.find (fun r => containsAny (rule_input rep r) (tr_Keywords r)) (tt_Rules tbl) with
  | Some r => (tr_Type r, tr_Source r)
  | None =>
      match List.find (fun r => containsAny (os_name rep) (or_Keywords r)) (tt_OSRules tbl) with
      | Some r => (or_Type r, or_Source r)
      | None =>
          match List.find (port_rule_matches rep) (tt_PortRules tbl) with
          | Some r => (pr_Type r, pr_Source r)
          | None => ("", "")
          end
      end
  end.

Definition heuristicDeviceType (rep : HostReport) : string * string := matchDeviceType rep.

Definition keywordsForType (wantType : string) : list string :=
  concat (tr_Keywords <$> filter (fun r => tr_Type r = wantType) (tt_Rules tbl)).

Definition sourceForType (wantType : string) : string :=
  match List.find (fun r => bool_decide (tr_Type r = wantType) && negb (bool_decide (tr_Source r = ""))) (tt_Rules tbl) with
  | Some r => tr_Source r
  | None =>
      match List.find (fun r => bool_decide (or_Type r = wantType) && negb (bool_decide (or_Source r = "")))
              (tt_OSRules tbl) with
      | Some r => or_Source r
      | None => "heuristic"
      end
  end.

Definition strongTypeSignal (rep : HostReport) (wantType : string) : bool :=
  containsAny (host_name rep +:+ " " +:+ brand_name rep) (keywordsForType wantType)
  || existsb (fun r => bool_decide (or_Type r = wantType) && containsAny (os_name rep) (or_Keywords r)) (tt_OSRules tbl)
  || bool_decide (wantType = "nas")
     && existsb (fun s => bool_decide (s_Service s = "smb") || (s_Port s =? 445)) (hr_Services rep).

Definition isStrongPcSignal (rep : HostReport) : bool := strongTypeSignal rep "pc".
Definition isStrongNasSignal (rep : HostReport) : bool := strongTypeSignal rep "nas".

(** * The decision of the bridge *)

Definition IsValidDeviceType (t : string) : bool := bool_decide (t ∈ device_types).

(** The reported type and its source, out-of-enum types dropped. *)
Definition reported_type (rep : HostReport) : string * string :=
  let t := rep_field rep "inferred_type" in
  let t := if negb (bool_decide (t = "")) && negb (IsValidDeviceType t) then "" else t in
  (t, if decide (t = "") then ""
      else let src := rep_field rep "inferred_type_source" in
           if decide (src = "" ∧ t ≠ "other") then "protocol" else src).

Definition decide_type (rep : HostReport) : string * string :=
  let '(t, src) := reported_type rep in
  let '(t, src) :=
    if decide (t = "camera") then
      if isStrongPcSignal rep then ("pc", sourceForType "pc")
      else if isStrongNasSignal rep then ("nas", sourceForType "nas")
      else (t, src)
    else if decide (t = "iot") then
      if bool_decide (src = "protocol") && isStrongPcSignal rep then ("pc", sourceForType "pc") else (t, src)
    else if decide (t = "" ∨ t = "server" ∨ t = "pc") then
      let '(h, hsrc) := heuristicDeviceType rep in
      if decide (h ≠ "" ∧ h ≠ "server" ∧ h ≠ "pc") then (h, hsrc)
      else if decide (t = "") then (h, if decide (h = "") then src else hsrc)
      else (t, src)
    else (t, src) in
  if decide (t = "") then ("other", "") else (t, src).

End table.

(** [before] is given by its stored document. *)
Definition applyTypeStickiness (before : jobject) (newType newSource : string) : string * string :=
  match UnmarshalScanAttributes before with
  | None => (newType, newSource)
  | Some stored =>
      if decide (sa_InferredTypeSource stored ≠ "protocol" ∨ sa_InferredType stored = "" ∨ sa_InferredType stored = "other")
      then (newType, newSource)
      else if decide (newSource = "protocol") then (newType, newSource)
      else (sa_InferredType stored, "protocol")
  end.

(** * Properties *)

(** Every type the table can produce is one the devices table accepts. *)
Definition table_ok (tbl : typeRuleTable) : Prop :=
  (∀ r, r ∈ tt_Rules tbl → tr_Type r ∈ device_types)
  ∧ (∀ r, r ∈ tt_OSRules tbl → or_Type r ∈ device_types)
  ∧ (∀ r, r ∈ tt_PortRules tbl → pr_Type r ∈ device_types).

Lemma find_elem {A} (f : A → bool) l x : List.find f l = Some x → x ∈ l.
Proof. intros H%List.find_some. apply list_elem_of_In, H. Qed.

Lemma matchDeviceType_valid tbl rep :
  table_ok tbl → (matchDeviceType tbl rep).1 = "" ∨ (matchDeviceType tbl rep).1 ∈ device_types.
Proof.
  intros (H1 & H2 & H3). unfold matchDeviceType.
  destruct (List.find _ (tt_Rules tbl)) eqn:E1; [right; eapply H1, find_elem; eassumption|].
  destruct (List.find _ (tt_OSRules tbl)) eqn:E2; [right; eapply H2, find_elem; eassumption|].
  destruct (List.find _ (tt_PortRules tbl)) eqn:E3; [right; eapply H3, find_elem; eassumption|by left].
Qed.

Lemma reported_type_valid rep : (reported_type rep).1 = "" ∨ (reported_type rep).1 ∈ device_types.
Proof.
  unfold reported_type, IsValidDeviceType. cbn [fst].
  destruct (bool_decide_reflect (rep_field rep "inferred_type" = "")) as [->|]; [by left|]. cbn [negb andb].
  destruct (bool_decide_reflect (rep_field rep "inferred_type" ∈ device_types)); [by right|by left].
Qed.

(** The decided type always passes the CHECK of the table. *)
Lemma decide_type_valid tbl rep : table_ok tbl → (decide_type tbl rep).1 ∈ device_types.
Proof.
  intros Ht. unfold decide_type, heuristicDeviceType.
  pose proof (matchDeviceType_valid tbl rep Ht) as Hm. pose proof (reported_type_valid rep) as Hr.
  destruct (reported_type rep) as [t src], (matchDeviceType tbl rep) as [h hsrc]. cbn [fst] in *.
  repeat (case_decide || case_match); simplify_eq; cbn [fst] in *; try (cbn; set_solver); naive_solver.
Qed.
