(* ===== verification/StoreRecords.v ===== *)
(** The satellite tables of a device (src/internal/service/scannerv2/store/sqlite.go):
    classified services, heartbeat configurations, neighbours, sightings,
    network presence, interfaces, route edges, and the enrichment of existing
    rows.

    A table with an upsert on a unique key is a map from the key.  Failing
    statements other than constraint violations are not modelled here: the
    code logs them and goes on. *)

From S2P Require Import Prelude NetAddr Db Report DeviceStore.

Open Scope Z_scope.

(** The repository's own network: [Options.NetworkID], absent when not positive. *)
Record SQLiteRepository := mkRepository {
  repo_networkID : option Z;
  repo_defaultHBInterval : Z;
  repo_defaultHBTimeout : Z;
  repo_defaultSNMPCommunity : string;
  repo_defaultSNMPOID : string;
  repo_uuidCache : gmap string string
}.

Definition NewSQLiteRepository (interval timeout : Z) (community oid : string) (networkID : Z) : SQLiteRepository :=
  mkRepository (if 0 <? networkID then Some networkID else None) interval timeout community oid ∅.

(** * Resolution by address *)

Definition ip_row (ip : string) (db : device_db) : option DeviceRow :=
  head (filter (fun r => row_IP r = ip) (dd_rows db)).

Definition resolveDeviceID (r : SQLiteRepository) (ip : string) (db : device_db) : option Z :=
  match (match repo_networkID r with Some n => slot_row ip (Some n) db | None => None end) with
  | Some row => Some (row_ID row)
  | None => row_ID <$> ip_row ip db
  end.

(** [SELECT MIN(network_id) FROM devices WHERE ip_address = ?]: NULLs do not count. *)
Definition min_network (ip : string) (db : device_db) : option Z :=
  foldr (fun r acc => if decide (row_IP r = ip) then
                        match row_Network r, acc with
                        | Some n, Some m => Some (Z.min n m)
                        | Some n, None => Some n
                        | None, _ => acc
                        end
                      else acc) None (dd_rows db).

Definition resolveDeviceUUID (r : SQLiteRepository) (ip : string) (db : device_db) : SQLiteRepository * string :=
  match repo_uuidCache r !! ip with
  | Some u => (r, u)
  | None =>
      let row :=
        match repo_networkID r with
        | Some n => match slot_row ip (Some n) db with Some row => Some row | None => ip_row ip db end
        | None => head (filter (fun row => row_IP row = ip
                    ∧ (row_Network row = None
                       ∨ (is_Some (row_Network row) ∧ row_Network row = min_network ip db))) (dd_rows db))
        end in
      match row with
      | Some row =>
          (mkRepository (repo_networkID r) (repo_defaultHBInterval r) (repo_defaultHBTimeout r)
             (repo_defaultSNMPCommunity r) (repo_defaultSNMPOID r) (<[ip := row_UUID row]> (repo_uuidCache r)),
           row_UUID row)
      | None => (r, "")
      end
  end.

(** * Services *)

Record HostService := mkHostService {
  hs_IP : string;
  hs_DeviceUUID : string;
  hs_Service : string;
  hs_Port : Z;
  hs_Protocol : string;
  hs_Confidence : Z;
  hs_Metadata : gmap string string;
  hs_UpdatedAt : Z
}.

Definition hs_key (s : HostService) : string * string * Z := (hs_IP s, hs_Service s, hs_Port s).

(** The ports whose rows are replaced: identified, portless, confirmed closed. *)
Definition portsInPlay (services : list ServiceIdentity) (closedPorts : list Z) : list Z :=
  filter (fun p => 0 < p) (s_Port <$> services)
  ++ (if existsb (fun s => s_Port s =? 0) services then [0] else [])
  ++ closedPorts.

(** First metadata value wins, the highest confidence is kept. *)
Definition merge_service (existing s : ServiceIdentity) : ServiceIdentity :=
  mkService (s_Service existing) (s_Port existing) (s_Protocol existing)
    (if s_Confidence existing <? s_Confidence s then s_Confidence s else s_Confidence existing)
    (s_Metadata existing ∪ s_Metadata s).

Definition add_merged (m : gmap (string * Z) ServiceIdentity) (s : ServiceIdentity)
    : gmap (string * Z) ServiceIdentity :=
  let k := (s_Service s, s_Port s) in
  match m !! k with
  | Some existing => <[k := merge_service existing s]> m
  | None => <[k := s]> m
  end.

Definition merge_services (services : list ServiceIdentity) : gmap (string * Z) ServiceIdentity :=
  fold_left add_merged services ∅.

(** A plain INSERT under [UNIQUE(ip, service, port)]: a violation is logged. *)
Definition InsertHostService (t : list HostService) (row : HostService) : list HostService :=
  if decide (Exists (fun r => hs_key r = hs_key row) t) then t else t ++ [row].

Definition service_row (ip uuid : string) (now : Z) (s : ServiceIdentity) : HostService :=
  mkHostService ip uuid (s_Service s) (s_Port s) (s_Protocol s) (s_Confidence s) (s_Metadata s) now.

Definition delete_ports (ip : string) (ports : list Z) (t : list HostService) : list HostService :=
  filter (fun r => ¬ (hs_IP r = ip ∧ hs_Port r ∈ ports)) t.

(** The transaction: the rows of the ports in play are replaced. *)
Definition replace_services (ip uuid : string) (now : Z) (services : list ServiceIdentity) (closedPorts : list Z)
    (t : list HostService) : list HostService :=
  let ports := portsInPlay services closedPorts in
  if decide (ports = []) then t
  else fold_left InsertHostService ((fun kv => service_row ip uuid (DBTime now) kv.2) <$> map_to_list (merge_services services))
         (delete_ports ip ports t).

Definition RecordServices (r : SQLiteRepository) (ip : string) (now : Z) (services : list ServiceIdentity)
    (closedPorts : list Z) (db : device_db) (t : list HostService) : SQLiteRepository * list HostService :=
  let '(r, uuid) := resolveDeviceUUID r ip db in (r, replace_services ip uuid now services closedPorts t).

(** [BackfillHostServiceUUIDs]: rows without an owner take the uuid of the
    most recently seen device at their address. *)
Definition BackfillHostServiceUUIDs (db : device_db) (t : list HostService) : list HostService :=
  let newest ip := fold_left (fun acc r => match acc with
                      | None => Some r
                      | Some b => match row_LastSeen r, row_LastSeen b with
                                  | Some x, Some y => if y <? x then Some r else acc
                                  | Some _, None => Some r
                                  | None, _ => acc
                                  end
                      end) (filter (fun r => row_IP r = ip) (dd_rows db)) None in
  (fun s => if decide (hs_DeviceUUID s = "") then
              match newest (hs_IP s) with
              | Some d => mkHostService (hs_IP s) (row_UUID d) (hs_Service s) (hs_Port s) (hs_Protocol s)
                            (hs_Confidence s) (hs_Metadata s) (hs_UpdatedAt s)
              | None => s
              end
            else s) <$> t.

(** * Heartbeat configurations *)

Definition heartbeat_row (r : SQLiteRepository) (id deviceID : Z) (enabled : Z) (s : HeartbeatSpec) : HeartbeatConfig :=
  mkHbConfig id deviceID (sp_Method s) (sp_Target s)
    (if sp_IntervalSeconds s =? 0 then repo_defaultHBInterval r else sp_IntervalSeconds s)
    (if sp_TimeoutSeconds s =? 0 then repo_defaultHBTimeout r else sp_TimeoutSeconds s)
    (if decide (sp_SNMPCommunity s = "") then repo_defaultSNMPCommunity r else sp_SNMPCommunity s)
    (if decide (sp_SNMPOID s = "") then repo_defaultSNMPOID r else sp_SNMPOID s) enabled.

Record config_rows := mkConfigRows { cr_rows : list HeartbeatConfig; cr_seq : Z }.

(** [INSERT ... ON CONFLICT(device_id, method) DO UPDATE]. *)
Definition upsert_config (r : SQLiteRepository) (deviceID : Z) (t : config_rows) (s : HeartbeatSpec) : config_rows :=
  if decide (Exists (fun c => hc_DeviceID c = deviceID ∧ hc_Method c = sp_Method s) (cr_rows t)) then
    mkConfigRows ((fun c => if decide (hc_DeviceID c = deviceID ∧ hc_Method c = sp_Method s)
                            then heartbeat_row r (hc_ID c) deviceID (hc_Enabled c) s else c) <$> cr_rows t) (cr_seq t)
  else mkConfigRows (cr_rows t ++ [heartbeat_row r (cr_seq t + 1) deviceID 1 s]) (cr_seq t + 1).

Definition RecordHeartbeats (r : SQLiteRepository) (ip : string) (specs : list HeartbeatSpec) (db : device_db)
    (t : config_rows) : config_rows :=
  match ip_row ip db with
  | Some row => fold_left (upsert_config r (row_ID row)) specs t
  | None => t
  end.

(** * Neighbours *)

Record NeighborSpec := mkNeighbor {
  ns_NeighborMAC : string;
  ns_Protocol : string;
  ns_LocalPort : string;
  ns_RemotePort : string;
  ns_VLANTag : string
}.

Record Neighbor := mkNeighborRow {
  nr_LocalPort : string;
  nr_RemotePort : string;
  nr_Network : option Z;
  nr_AgentID : string;
  nr_FirstSeen : Z;
  nr_LastSeen : Z
}.

Definition neighbor_table : Type := gmap (Z * string * string) Neighbor.

Definition upsert_neighbor (deviceID : Z) (network : option Z) (agentID mac : string) (now : Z) (n : NeighborSpec)
    (t : neighbor_table) : neighbor_table :=
  let k := (deviceID, mac, ns_Protocol n) in
  <[k := match t !! k with
         | Some old => mkNeighborRow (overwrite (nr_LocalPort old) (ns_LocalPort n))
                         (overwrite (nr_RemotePort old) (ns_RemotePort n)) (nr_Network old)
                         (overwrite (nr_AgentID old) agentID) (nr_FirstSeen old) now
         | None => mkNeighborRow (ns_LocalPort n) (ns_RemotePort n) network agentID now now
         end]> t.

Definition RecordNeighbors (r : SQLiteRepository) (ip agentID : string) (now : Z) (neighbors : list NeighborSpec)
    (db : device_db) (t : neighbor_table) : neighbor_table :=
  match resolveDeviceID r ip db with
  | None => t
  | Some id =>
      let network := get_row id db ≫= row_Network in
      fold_left (fun t n => if decide (ns_NeighborMAC n = "" ∨ ns_Protocol n = "") then t
                            else upsert_neighbor id network agentID (ns_NeighborMAC n) (DBTime now) n t) neighbors t
  end.

(** The insert leaves [agent_id] at its default, and the update keeps it. *)
Definition RecordNeighborsByMAC (localMAC : string) (now : Z) (neighbors : list NeighborSpec) (db : device_db)
    (t : neighbor_table) : neighbor_table :=
  let mac := NormalizeMAC localMAC in
  if decide (mac = "") then t
  else match mac_row mac db with
       | None => t
       | Some row =>
           fold_left (fun t n => if decide (ns_NeighborMAC n = "" ∨ ns_Protocol n = "") then t
                                 else upsert_neighbor (row_ID row) (row_Network row) "" (NormalizeMAC (ns_NeighborMAC n))
                                        (DBTime now) n t) neighbors t
       end.

(** * Sightings and presence *)

Record Sighting := mkSighting {
  sg_Network : option Z;
  sg_FirstSeen : Z;
  sg_LastSeen : Z;
  sg_SeeCount : Z
}.

Definition sighting_table : Type := gmap (Z * string * string * string * string) Sighting.

Definition RecordSighting (deviceID : Z) (ip mac : string) (networkID : option Z) (vantage source : string) (at_ : Z)
    (t : sighting_table) : sighting_table :=
  if deviceID =? 0 then t
  else
    let k := (deviceID, ip, NormalizeMAC mac, vantage, source) in
    <[k := match t !! k with
           | Some old => mkSighting (sg_Network old) (sg_FirstSeen old)
                           (if sg_LastSeen old <? DBTime at_ then DBTime at_ else sg_LastSeen old) (sg_SeeCount old + 1)
           | None => mkSighting networkID (DBTime at_) (DBTime at_) 1
           end]> t.

Definition UpsertNetworkPresence (deviceID networkID : Z) (ip vantage : string) (at_ : Z) (db : device_db) : device_db :=
  if (deviceID =? 0) || (networkID <=? 0) then db
  else
    let same p := (np_DeviceID p =? deviceID) && (np_NetworkID p =? networkID) in
    mkDeviceDb (dd_rows db) (dd_seq db)
      (if existsb same (dd_presence db)
       then (fun p => if same p then mkPresence deviceID networkID ip vantage (np_FirstSeen p) (DBTime at_) else p)
              <$> dd_presence db
       else dd_presence db ++ [mkPresence deviceID networkID ip vantage (DBTime at_) (DBTime at_)]).

(** * Interfaces *)

Record InterfaceSpec := mkInterface {
  if_Index : Z;
  if_Name : string;
  if_Descr : string;
  if_MAC : string;
  if_IP : string;
  if_Speed : Z
}.

Record Interface := mkInterfaceRow {
  ir_Name : string;
  ir_Descr : string;
  ir_MAC : string;
  ir_IP : string;
  ir_Speed : Z;
  ir_FirstSeen : Z;
  ir_LastSeen : Z
}.

Definition interface_table : Type := gmap (Z * Z) Interface.

Definition upsert_interface (deviceID now : Z) (t : interface_table) (sp : InterfaceSpec) : interface_table :=
  if if_Index sp <=? 0 then t
  else
    let k := (deviceID, if_Index sp) in
    <[k := match t !! k with
           | Some old => mkInterfaceRow (overwrite (ir_Name old) (if_Name sp)) (overwrite (ir_Descr old) (if_Descr sp))
                           (overwrite (ir_MAC old) (NormalizeMAC (if_MAC sp))) (overwrite (ir_IP old) (if_IP sp))
                           (if 0 <? if_Speed sp then if_Speed sp else ir_Speed old) (ir_FirstSeen old) now
           | None => mkInterfaceRow (if_Name sp) (if_Descr sp) (NormalizeMAC (if_MAC sp)) (if_IP sp) (if_Speed sp) now now
           end]> t.

Definition recordInterfaces (deviceID now : Z) (specs : list InterfaceSpec) (t : interface_table) : interface_table :=
  if deviceID =? 0 then t else fold_left (upsert_interface deviceID (DBTime now)) specs t.

Definition RecordInterfaces (r : SQLiteRepository) (ip : string) (now : Z) (specs : list InterfaceSpec) (db : device_db)
    (t : interface_table) : interface_table :=
  match resolveDeviceID r ip db with Some id => recordInterfaces id now specs t | None => t end.

(** * Route edges *)

Record RouteSpec := mkRoute {
  rt_DestCIDR : string;
  rt_NextHop : string;
  rt_IfIndex : Z;
  rt_Proto : string
}.

(** A time column of [topology_edges]: the text of [DBTime], or of a bound
    [time.Time], which the driver writes as Go prints it. *)
Inductive edge_time :=
| Rfc3339 (sec : Z)
| GoTime (ns : Z).

(** The metadata object holds strings only; the confidence is in thousandths. *)
Record Edge := mkEdge {
  ed_ViaProtocol : string;
  ed_Confidence : Z;
  ed_Metadata : gmap string string;
  ed_FirstSeen : edge_time;
  ed_LastSeen : edge_time
}.

(** By end points and edge type, the unique key. *)
Definition edge_table : Type := gmap (Z * Z * string) Edge.

Definition cidrPrefixBits (cidr : string) : Z :=
  match ParseCIDR cidr with Some n => (MaskSize (net_Mask n)).1 | None => -1 end.

Definition next_hop_row (hop : string) (self : Z) (db : device_db) : option DeviceRow :=
  best (filter (fun r => row_IP r = hop ∧ row_ID r ≠ self) (dd_rows db)).

(** The metadata of a route: a stored destination at least as specific stays,
    with its protocol. *)
Definition route_meta (prev : gmap string string) (rt : RouteSpec) : gmap string string :=
  let stored k := default "" (prev !! k) in
  let keep := cidrPrefixBits (rt_DestCIDR rt) <=? cidrPrefixBits (stored "dest_subnet") in
  list_to_map
    [("dest_subnet", if keep then stored "dest_subnet" else rt_DestCIDR rt); ("next_hop", rt_NextHop rt);
     ("route_proto", if keep && negb (bool_decide (stored "route_proto" = "")) then stored "route_proto" else rt_Proto rt)].

(** INSERT … ON CONFLICT; [json_patch] of string members overwrites them. *)
Definition upsert_route (deviceID now : Z) (db : device_db) (t : edge_table) (rt : RouteSpec) : edge_table :=
  if decide (rt_NextHop rt = "" ∨ rt_NextHop rt = "0.0.0.0") then t
  else match next_hop_row (rt_NextHop rt) deviceID db with
  | None => t
  | Some hop =>
      let k := (deviceID, row_ID hop, "l3") in
      <[k := match t !! k with
             | Some prev =>
                 mkEdge (ed_ViaProtocol prev) (Z.max (ed_Confidence prev) 700)
                   (route_meta (ed_Metadata prev) rt ∪ ed_Metadata prev) (ed_FirstSeen prev) (Rfc3339 now)
             | None =>
                 mkEdge "route-table" 700
                   (list_to_map [("dest_subnet", rt_DestCIDR rt); ("next_hop", rt_NextHop rt); ("route_proto", rt_Proto rt)])
                   (Rfc3339 now) (Rfc3339 now)
             end]> t
  end.

Definition recordRoutes (deviceID now : Z) (routes : list RouteSpec) (db : device_db) (t : edge_table) : edge_table :=
  if deviceID =? 0 then t else fold_left (upsert_route deviceID (DBTime now) db) routes t.

Definition RecordRoutes (r : SQLiteRepository) (ip : string) (now : Z) (routes : list RouteSpec) (db : device_db)
    (t : edge_table) : edge_table :=
  match resolveDeviceID r ip db with Some id => recordRoutes id now routes db t | None => t end.

(** * Enrichment of device rows *)

(** [AnchorLocalInterfaces]: fill the MAC of the center's own rows. *)
Definition anchor_row (ip mac : string) (networkID : option Z) (now : Z) (r : DeviceRow) : DeviceRow :=
  if decide (row_IP r = ip ∧ row_Network r = networkID ∧ row_MAC r = "")
  then mkRow (row_ID r) (row_UUID r) (row_IP r) mac (row_Network r) (row_Status r) (row_FirstSeen r) (row_LastSeen r)
         (row_OfflineSince r) (row_LastScannedAt r) now (row_Info r)
  else r.

Definition AnchorLocalInterfaces (networkID : option Z) (now : Z) (pairs : list (string * string)) (db : device_db)
    : device_db :=
  fold_left (fun db p =>
      let mac := NormalizeMAC p.2 in
      if bool_decide (mac = "") || bool_decide (p.1 = "") || CarriesNoLocation p.1 then db
      else set_rows db (anchor_row p.1 mac networkID (DBTime now) <$> dd_rows db)) pairs db.

(** [RecordDevice]: the store's pre-enrichment.  [attrs] is the document
    [buildStoreScanAttributes] makes of the report; it replaces the stored one. *)
Definition enrich_row (fields : gmap string string) (brand model : string) (attrs : jobject) (now : Z) (r : DeviceRow)
    : DeviceRow :=
  let field k := default "" (fields !! k) in
  let mac := NormalizeMAC (field "mac") in
  let orEmpty s := if decide (s = "") then "[]" else s in
  let i := row_Info r in
  mkRow (row_ID r) (row_UUID r) (row_IP r) (if decide (mac ≠ "" ∧ row_MAC r = "") then mac else row_MAC r)
    (row_Network r) (row_Status r) (row_FirstSeen r) (Some now) (row_OfflineSince r) (Some now) now
    (mkInfo (i_Name i) (i_Type i) (overwrite (i_Brand i) brand) (overwrite (i_Model i) model) (i_Description i)
       (i_Location i) (orEmpty (field "open_ports")) (orEmpty (field "detected_services")) (field "prometheus_url")
       (field "node_exporter_url") attrs (i_RTTMs i) (i_Tags i) (i_ScanSource i)).

Definition RecordDevice (repo : SQLiteRepository) (ip brand model : string) (fields : gmap string string)
    (attrs : jobject) (now : Z) (db : device_db) : device_db :=
  let mac := NormalizeMAC (default "" (fields !! "mac")) in
  let by_slot := slot_row ip (repo_networkID repo) db in
  let row := if decide (mac = "") then by_slot
             else match head (filter (fun r => row_MAC r = mac) (dd_rows db)) with
                  | Some r => Some r
                  | None => by_slot
                  end in
  match row with
  | None => db
  | Some r => exec (update_row (enrich_row fields brand model attrs (DBTime now)) (row_ID r) db) db
  end.
