(* ===== verification/StoreSpec.v ===== *)
(** Properties of the satellite tables: what a service scan leaves in
    host_services, and two places where the records of the store go stale. *)

From S2P Require Import Prelude NetAddr Db Report DeviceStore Attributes AttributesSpec DeviceSpec StoreRecords.

Open Scope Z_scope.

(** * Services *)

Definition service_key (s : ServiceIdentity) : string * Z := (s_Service s, s_Port s).

Lemma merge_key a b : service_key (merge_service a b) = service_key a.
Proof. done. Qed.

(** Merged services are stored under their key, one for each reported key. *)
Lemma merge_services_spec (services : list ServiceIdentity) (m0 m : gmap (string * Z) ServiceIdentity) :
  fold_left add_merged services m0 = m →
  (∀ k s, m0 !! k = Some s → k = service_key s) →
  (∀ k s, m !! k = Some s → k = service_key s)
  ∧ ∀ k, is_Some (m !! k) ↔ is_Some (m0 !! k) ∨ k ∈ service_key <$> services.
Proof.
  revert m0. induction services as [|s l IH]; intros m0 E Hm; cbn in E.
  { subst m0. split; [done|]. intros k. set_solver. }
  set (m1 := add_merged m0 s) in E.
  assert (∃ x, m1 = <[service_key s := x]> m0 ∧ service_key x = service_key s) as (x & Ex & Kx).
  { unfold m1, add_merged. fold (service_key s). destruct (m0 !! service_key s) as [y|] eqn:Ey; [|by exists s].
    eexists. split; [done|]. rewrite merge_key. symmetry. by apply Hm. }
  destruct (IH m1 E) as [H1 H2].
  { intros k y. rewrite Ex. intros [[<- <-]|[? ?]]%lookup_insert_Some; [done|by apply Hm]. }
  split; [done|]. intros k. rewrite H2, Ex, lookup_insert_is_Some. cbn. rewrite elem_of_cons.
  destruct (decide (service_key s = k)); naive_solver.
Qed.

Lemma merge_services_key services k s : merge_services services !! k = Some s → k = service_key s.
Proof. intros H. eapply (merge_services_spec services ∅ _ eq_refl); [|exact H]. by intros ??. Qed.

Lemma merge_services_dom services k : is_Some (merge_services services !! k) ↔ k ∈ service_key <$> services.
Proof.
  destruct (merge_services_spec services ∅ _ eq_refl) as [_ H]; [by intros ??|]. rewrite (H k). rewrite lookup_empty.
  split; [by intros [[? ?]|?]|by right].
Qed.

(** Distinct keys that are not in the table are all inserted. *)
Lemma insert_services rows t :
  NoDup (hs_key <$> t ++ rows) → fold_left InsertHostService rows t = t ++ rows.
Proof.
  revert t. induction rows as [|r rows IH]; intros t Hn; [by rewrite (right_id_L [] (++))|]. cbn.
  unfold InsertHostService at 2. rewrite decide_False.
  - rewrite IH; [by rewrite <- (assoc_L (++))|]. by rewrite <- (assoc_L (++)).
  - intros (x & Hx & Ex)%list.Exists_exists. rewrite fmap_app in Hn. apply list.NoDup_app in Hn as (_ & Hd & _).
    apply (Hd (hs_key x)); [by apply list_elem_of_fmap_2|]. rewrite Ex. by left.
Qed.

(** The rows a scan of services writes. *)
Definition scanned_rows (ip uuid : string) (now : Z) (services : list ServiceIdentity) : list HostService :=
  (fun kv => service_row ip uuid (DBTime now) kv.2) <$> map_to_list (merge_services services).

Lemma scanned_key ip uuid now services r :
  r ∈ scanned_rows ip uuid now services →
  hs_IP r = ip ∧ (hs_Service r, hs_Port r) ∈ service_key <$> services.
Proof.
  intros ([k s] & -> & Hk%elem_of_map_to_list)%list_elem_of_fmap. split; [done|]. cbn.
  change (s_Service s, s_Port s) with (service_key s). apply merge_services_dom. rewrite <- (merge_services_key _ _ _ Hk). by exists s.
Qed.

Lemma scanned_NoDup ip uuid now services : NoDup (hs_key <$> scanned_rows ip uuid now services).
Proof.
  unfold scanned_rows. rewrite <- list_fmap_compose.
  rewrite (list_fmap_ext _ ((fun k : string * Z => (ip, k.1, k.2)) ∘ fst) _).
  - rewrite (list_fmap_compose fst (fun k : string * Z => (ip, k.1, k.2))). apply NoDup_fmap_2.
    + by intros [? ?] [? ?] [= -> ->].
    + apply NoDup_fst_map_to_list.
  - intros i [k s] Hk. apply list_elem_of_lookup_2, elem_of_map_to_list in Hk.
    apply merge_services_key in Hk as ->. done.
Qed.

Lemma ports_in_play s services closed :
  0 ≤ s_Port s → s ∈ services → s_Port s ∈ portsInPlay services closed.
Proof.
  intros Hp Hs. unfold portsInPlay. rewrite !elem_of_app.
  destruct (decide (0 < s_Port s)) as [H|H].
  - left. apply list_elem_of_filter. split; [done|]. by apply list_elem_of_fmap_2.
  - right. left. assert (s_Port s = 0) as -> by lia.
    destruct (existsb _ _) eqn:E; [by left|]. apply not_true_iff_false in E. exfalso. apply E, existsb_exists.
    exists s. split; [by apply list_elem_of_In|]. apply Z.eqb_eq. lia.
Qed.

(** A service scan replaces exactly what it looked at.  Of an address, the rows
    on ports that were identified or confirmed closed give way to one merged
    row for each reported service and port, owned by the device the address
    resolves to; every other row stays as it was, and the table keeps one row
    for each address, service and port. *)
Theorem service_scan_exact r ip now services closed db t
    (Ht : NoDup (hs_key <$> t)) (Hp : Forall (fun s => 0 ≤ s_Port s) services) :
  let t' := (RecordServices r ip now services closed db t).2 in
  let uuid := (resolveDeviceUUID r ip db).2 in
  NoDup (hs_key <$> t')
  ∧ ∀ x, x ∈ t' ↔ (x ∈ t ∧ ¬ (hs_IP x = ip ∧ hs_Port x ∈ portsInPlay services closed))
                  ∨ ∃ k s, merge_services services !! k = Some s ∧ x = service_row ip uuid (DBTime now) s.
Proof.
  cbv zeta. unfold RecordServices. destruct (resolveDeviceUUID r ip db) as [r' uuid]. cbn [snd].
  assert (∀ x, x ∈ scanned_rows ip uuid now services ↔
    ∃ k s, merge_services services !! k = Some s ∧ x = service_row ip uuid (DBTime now) s) as Hrows.
  { intros x. unfold scanned_rows. rewrite list_elem_of_fmap. split.
    - intros ([k s] & -> & H%elem_of_map_to_list). by exists k, s.
    - intros (k & s & H & ->). exists (k, s). split; [done|by apply elem_of_map_to_list]. }
  assert (NoDup (hs_key <$> delete_ports ip (portsInPlay services closed) t ++ scanned_rows ip uuid now services)) as Hn.
  { rewrite fmap_app. apply list.NoDup_app. split_and!; [|intros k Hk Hk'|apply scanned_NoDup].
    - eapply sublist_NoDup; [exact Ht|]. apply sublist_fmap_mono, sublist_filter.
    - apply list_elem_of_fmap in Hk as (x & -> & [Hx _]%list_elem_of_filter).
      apply list_elem_of_fmap in Hk' as (y & Ey & Hy). apply scanned_key in Hy as [Hip Hy].
      unfold hs_key in Ey. injection Ey as E1 E2 E3. apply Hx. split; [congruence|].
      apply list_elem_of_fmap in Hy as (s & Es & Hs). injection Es as _ Es. rewrite E3, Es.
      apply ports_in_play; [by eapply list.Forall_forall in Hp|done]. }
  unfold replace_services. case_decide as E.
  - split; [done|]. intros x. rewrite <- Hrows, E. unfold scanned_rows.
    assert (services = []) as ->.
    { destruct services as [|s l]; [done|]. exfalso. apply (not_elem_of_nil (s_Port s)). rewrite <- E.
      apply ports_in_play; [by inv Hp|by left]. }
    set_solver.
  - fold (scanned_rows ip uuid now services). rewrite insert_services by done. split; [done|].
    intros x. rewrite <- Hrows, elem_of_app. unfold delete_ports. rewrite list_elem_of_filter. tauto.
Qed.

(** A host answered on 80 before; the new scan finds ssh twice and 80 closed. *)
Definition old_services : list HostService :=
  [mkHostService "10.0.0.5" "u1" "http" 80 "tcp" 900 ∅ 1; mkHostService "10.0.0.5" "u1" "rtsp" 554 "tcp" 900 ∅ 1].
Definition ssh_seen : list ServiceIdentity :=
  [mkService "ssh" 22 "tcp" 600 ∅; mkService "ssh" 22 "tcp" 900 {["version" := "9.5"]}].
Definition later_scan : Z := 200 * nanos_per_second.
Definition center : SQLiteRepository := NewSQLiteRepository 30 5 "public" "1.3" 7.

Lemma service_scan_exact_witness :
  let t' := (RecordServices center "10.0.0.5" later_scan ssh_seen [80] lan old_services).2 in
  let uuid := (resolveDeviceUUID center "10.0.0.5" lan).2 in
  NoDup (hs_key <$> t')
  ∧ ∀ x, x ∈ t' ↔ (x ∈ old_services ∧ ¬ (hs_IP x = "10.0.0.5" ∧ hs_Port x ∈ portsInPlay ssh_seen [80]))
                  ∨ ∃ k s, merge_services ssh_seen !! k = Some s ∧ x = service_row "10.0.0.5" uuid (DBTime later_scan) s.
Proof.
  apply (service_scan_exact center "10.0.0.5" later_scan ssh_seen [80] lan old_services).
  - refine (bool_decide_unpack _ _). vm_compute. exact I.
  - refine (bool_decide_unpack _ _). vm_compute. exact I.
Defined.

(** * Stale records *)

(** The address moved from the camera to another device; the services found
    there afterwards are still recorded for the camera. *)
Definition lan_after : device_db :=
  mkDeviceDb [mkRow 3 "u3" "10.0.0.5" "00:aa:00:aa:00:aa" (Some 7) "online" None None None None 0 no_info] 3 [].

Example stale_uuid_cache :
  let '(r, _) := RecordServices center "10.0.0.5" later_scan ssh_seen [] lan [] in
  hs_DeviceUUID <$> (RecordServices r "10.0.0.5" later_scan ssh_seen [] lan_after []).2 = ["u1"]
  ∧ row_UUID <$> slot_row "10.0.0.5" (Some 7) lan_after = Some "u3".
Proof. vm_compute. done. Qed.

(** The pre-enrichment replaces the stored document, so the aliases of a slot
    and the provenance of its type are gone when the identity is resolved. *)
Definition swapped_row : DeviceRow :=
  mkRow 1 "u1" "10.0.0.5" "00:11:22:33:44:55" (Some 7) "online" (Some 10) (Some 100) None (Some 100) 100
    (set_attrs [("mac_aliases", JArray [JString "00:aa:00:aa:00:aa"]); ("inferred_type", JString "router");
                ("inferred_type_source", JString "protocol")] no_info).
Definition swapped : device_db := mkDeviceDb [swapped_row] 1 [].
Definition scan_doc : jobject := [("scan_source", JString "scanner_v2")].

Example enrichment_defeats_aliases :
  let now := 200 * nanos_per_second in
  let enriched := RecordDevice center "10.0.0.5" "" "" {["mac" := "00:aa:00:aa:00:aa"]} scan_doc now swapped in
  ResolveDeviceIdentity no_read_faults swapped now "00:aa:00:aa:00:aa" "10.0.0.5" (Some 7) = Ok (plain 1)
  ∧ ResolveDeviceIdentity no_read_faults enriched now "00:aa:00:aa:00:aa" "10.0.0.5" (Some 7)
    = Ok (mkResolution 1 0 false true false 0).
Proof. vm_compute. done. Qed.
