(* ===== verification/ScanAttributes.v ===== *)
(** The scan_attributes document of a report
    (src/internal/service/scannerv2/runner/scan_attributes.go,
    internal/domain/device_attributes.go): which facts of a report are stored,
    in which precedence, and the arrays of ports and services.

    An evidence record without raw data has the empty map. *)

From S2P Require Import Prelude NetAddr Cidr Report DeviceStore Attributes.
From stdpp Require sorting.

Open Scope Z_scope.

(** * Ports and services *)

Definition richerVersion (candidate current : string) : bool :=
  if decide (candidate = "") then false
  else if decide (current = "") then true
  else (String.length current <? String.length candidate)%nat.

(** The first named service of a port. *)
Definition port_service (services : list ServiceIdentity) (p : Z) : string :=
  match List.find (fun s => (s_Port s =? p) && (0 <? s_Port s) && negb (bool_decide (s_Service s = ""))) services with
  | Some s => s_Service s
  | None => ""
  end.

Definition open_ports (evidence : list Evidence) : list Z :=
  sorting.merge_sort Z.le (remove_dups (e_Port <$> filter (fun e => e_Kind e = "port_open" ∧ 0 < e_Port e) evidence)).

Definition service_entry (s : ServiceIdentity) : ServiceEntry :=
  mkServiceEntry (s_Port s) (s_Service s) (s_Protocol s) (default "" (s_Metadata s !! "version")).

(** One service into the table of the best entries. *)
Definition add_service (best : gmap (Z * string) ServiceEntry) (s : ServiceIdentity) : gmap (Z * string) ServiceEntry :=
  let k := (s_Port s, s_Service s) in
  let entry := service_entry s in
  match best !! k with
  | None => <[k := entry]> best
  | Some existing => if richerVersion (se_Version entry) (se_Version existing) then <[k := entry]> best else best
  end.

Definition best_services (services : list ServiceIdentity) : gmap (Z * string) ServiceEntry :=
  fold_left add_service services ∅.

Definition entry_le (a b : ServiceEntry) : Prop :=
  se_Port a < se_Port b ∨ se_Port a = se_Port b ∧ String.leb (se_Name a) (se_Name b) = true.

#[export] Instance entry_le_dec : RelDecision entry_le.
Proof. unfold RelDecision, entry_le. apply _. Defined.

Definition serviceArrays (rep : HostReport) : list OpenPortEntry * list ServiceEntry :=
  ((fun p => mkOpenPort p (port_service (hr_Services rep) p)) <$> open_ports (hr_Evidence rep),
   sorting.merge_sort entry_le (map_to_list (best_services (hr_Services rep))).*2).

(** * The document *)

Definition firstNonEmpty (a b : string) : string := if decide (a = "") then b else a.

(** The accumulator of the loop over the evidence: [attr.MAC], [attr.Vendor],
    [attr.OUIPrefix], [attr.OUIVendor], [attr.Hostname], [attr.Extras]. *)
Record l2_facts := mkFacts {
  lf_MAC : string;
  lf_Vendor : string;
  lf_OUIPrefix : string;
  lf_OUIVendor : string;
  lf_Hostname : string;
  lf_Extras : gmap string string
}.

Definition fold_evidence (f : l2_facts) (e : Evidence) : l2_facts :=
  let raw k := default "" (e_RawData e !! k) in
  if decide (e_Kind e = "mac") then
    mkFacts (firstNonEmpty (lf_MAC f) (raw "mac")) (firstNonEmpty (lf_Vendor f) (raw "vendor"))
      (overwrite (lf_OUIPrefix f) (raw "oui_prefix")) (overwrite (lf_OUIVendor f) (raw "oui_vendor")) (lf_Hostname f)
      (if decide (raw "device" = "") then lf_Extras f else <["arp_interface" := raw "device"]> (lf_Extras f))
  else if decide (e_Kind e = "hostname") then
    mkFacts (lf_MAC f) (lf_Vendor f) (lf_OUIPrefix f) (lf_OUIVendor f) (firstNonEmpty (lf_Hostname f) (raw "hostname"))
      (lf_Extras f)
  else f.

(** The extras of UDP discovery. *)
Definition put (k v : string) (m : gmap string string) : gmap string string := if decide (v = "") then m else <[k := v]> m.

Definition mdns_keys : list string := ["model"; "serial"; "vendor"; "manufacturer"; "md"; "ty"].

Definition fold_discovery (m : gmap string string) (e : Evidence) : gmap string string :=
  let raw k := default "" (e_RawData e !! k) in
  if decide (e_Kind e = "mdns") then
    fold_left (fun m k => if decide (default "" (m !! ("mdns_" +:+ k)) = "") then put ("mdns_" +:+ k) (raw ("txt." +:+ k)) m
                          else m) mdns_keys (put "mdns_services" (raw "services") m)
  else if decide (e_Kind e = "ssdp") then
    put "ssdp_st" (raw "st") (put "ssdp_location" (raw "location") (put "ssdp_server" (raw "server") m))
  else m.

(** A positive number of a field, else 0. *)
Definition positive_field (s : string) : Z :=
  match atoi s with Some v => if 0 <? v then v else 0 | None => 0 end.

Definition snmp_evidence (rep : HostReport) : option Evidence :=
  List.find (fun e => bool_decide (e_Kind e = "snmp") && negb (bool_decide (e_RawData e = ∅))) (hr_Evidence rep).

Definition stp_evidence (rep : HostReport) : option Evidence :=
  List.find (fun e => bool_decide (e_Kind e = "stp") && negb (bool_decide (e_RawData e = ∅))) (rev (hr_Evidence rep)).

Definition snmp_discovery (e : Evidence) : SNMPDiscovery :=
  let raw k := default "" (e_RawData e !! k) in
  mkSNMPDiscovery (raw "sys_descr") (raw "sys_object_id") (raw "sys_name") (raw "sys_location") (raw "sys_contact")
    (default 0 (atoi (raw "sys_services"))).

Definition stp_discovery (e : Evidence) : STPDiscovery :=
  let raw k := default "" (e_RawData e !! k) in
  mkSTPDiscovery (raw "bridge_mac") (raw "root_bridge_mac") (bool_decide (raw "is_root" = "true")) (raw "ports").

Definition scan_facts (rep : HostReport) : l2_facts :=
  let f := rep_field rep in
  fold_left fold_evidence (hr_Evidence rep)
    (mkFacts (f "mac") (f "inferred_brand") (f "oui_prefix") (f "oui_vendor")
       (firstNonEmpty (f "node_hostname") (f "sys_name")) ∅).

(** The name the document records: the fields, then hostname evidence, then
    the SNMP sysName. *)
Definition attr_hostname (rep : HostReport) : string :=
  firstNonEmpty (lf_Hostname (scan_facts rep))
    (match snmp_evidence rep with Some e => default "" (e_RawData e !! "sys_name") | None => "" end).

Definition attr_extras (rep : HostReport) : gmap string string :=
  fold_left fold_discovery (hr_Evidence rep)
    (put "ip_aliases" (rep_field rep "ip_aliases")
       (put "netbios_workgroup" (rep_field rep "netbios_workgroup") (lf_Extras (scan_facts rep)))).

Definition buildScanAttributes (rep : HostReport) : ScanAttributes :=
  let f := rep_field rep in
  let facts := scan_facts rep in
  let '(ports, services) := serviceArrays rep in
  let uptime := positive_field (f "uptime_seconds") in
  mkAttributes (lf_Vendor facts) (lf_MAC facts) (attr_hostname rep)
    (IsLocallyAdministeredMAC (lf_MAC facts)) (IsMulticastMAC (lf_MAC facts))
    (lf_OUIPrefix facts) (lf_OUIVendor facts)
    (f "os_type") (f "os_version") (f "kernel_version") (f "firmware_version")
    (positive_field (f "cpu_count")) "" (positive_field (f "memory_total_bytes"))
    (if uptime =? 0
     then match snmp_evidence rep with
          | Some e => positive_field (default "" (e_RawData e !! "uptime_seconds"))
          | None => 0
          end
     else uptime)
    (positive_field (f "ttl")) (hr_RTTMs rep) "scanner_v2" ""
    (f "inferred_type") (f "inferred_type_source") (f "inferred_model") (f "inferred_description")
    (snmp_discovery <$> snmp_evidence rep) (stp_discovery <$> stp_evidence rep) ports services
    (if decide (f "prometheus_url" = "" ∧ f "node_exporter_url" = "") then None
     else Some (mkPrometheus (f "prometheus_url") (f "node_exporter_url") ∅))
    (attr_extras rep).

Definition marshalScanAttributes (attr : ScanAttributes) : jobject := MarshalScanAttributes attr.
