(* ===== verification/DeviceBridge.v ===== *)
(** The device bridge (src/internal/service/scannerv2/runner/device_bridge.go):
    one host report becomes an identity write, its change events, its
    observation tails and its heartbeat configurations.

    [json.Marshal] of a value is the parameter [marshal]; where the code ranges
    over a map, the order is the one of [elements].  A fault of a statement is
    given per report by [bridge_faults]; what the code only logs is dropped. *)

From S2P Require Import Prelude Db Report ChangeDetect HeartbeatStore Heartbeat.
From S2P Require Import DeviceStore Attributes DeviceType ScanAttributes StoreRecords.

Open Scope Z_scope.

Record bridge_faults := mkBridgeFaults {
  bf_identity : identity_read → bool;
  bf_before : bool;
  bf_after : bool;
  bf_count : bool;
  bf_config : string → bool;
  bf_presence : bool;
  bf_sighting : bool
}.

(** The tables and services a [Runner] holds; the recorder and the heartbeat
    service may be nil. *)
Record bridge_state (R : Type) := mkBridge {
  br_db : device_db;
  br_sightings : sighting_table;
  br_configs : config_table;
  br_heartbeat : option HeartbeatService;
  br_recorder : option R
}.
Arguments mkBridge {R} _ _ _ _ _.
Arguments br_db {R} _.
Arguments br_sightings {R} _.
Arguments br_configs {R} _.
Arguments br_heartbeat {R} _.
Arguments br_recorder {R} _.

(** * What is derived from a report *)

Definition set_field (k v : string) (rep : HostReport) : HostReport :=
  mkReport (hr_IP rep) (hr_Alive rep) (hr_RTTMs rep) (<[k := v]> (hr_DeviceFields rep)) (hr_Evidence rep)
    (hr_Services rep) (hr_Heartbeats rep) (hr_Passive rep).

(** The verdict written back into the fields. *)
Definition set_type (t source : string) (rep : HostReport) : HostReport :=
  set_field "inferred_type_source" source (set_field "inferred_type" t rep).

Definition deviceDisplayName (rep : HostReport) (mac : string) : string :=
  if decide (rep_field rep "node_hostname" ≠ "") then rep_field rep "node_hostname"
  else if decide (rep_field rep "sys_name" ≠ "") then rep_field rep "sys_name"
  else if decide (sa_Hostname (buildScanAttributes rep) ≠ "") then sa_Hostname (buildScanAttributes rep)
  else if negb (CarriesNoLocation (hr_IP rep)) then hr_IP rep
  else mac.

Definition ipAliasCap : nat := 8.

(** The [extras.ip_aliases] member of a stored document, split; [None] when the
    extras do not decode. *)
Definition ip_aliases (stored : jobject) : option (list string) :=
  extras ← as_map (jget "extras" stored);
  let v := default "" (extras !! "ip_aliases") in
  Some (if decide (v = "") then []
        else filter (fun s => s ≠ "") (trim_space <$> split_on "," v)).

Definition mergeIPAlias (stored : jobject) (ip : string) : string :=
  if decide (ip = "") then ""
  else match ip_aliases stored with
       | None => ""
       | Some list =>
           if decide (ip ∈ list) then ""
           else let list := list ++ [ip] in join "," (drop (length list - ipAliasCap) list)
       end.

Definition snapshot_row (marshal : json → string) (r : DeviceRow) : DeviceSnapshot :=
  let i := row_Info r in
  mkSnapshot (i_Name i) (i_Type i) (i_Brand i) (i_Model i) (row_MAC r) (row_IP r) (row_Status r) (i_OpenPorts i)
    (i_DetectedServices i) (i_PrometheusURL i) (i_NodeExporterURL i) (marshal (JObject (i_ScanAttributes i))).

Section bridge.
Context (marshal : json → string) (tbl : typeRuleTable).
Context {R : Type} `{!ChangeRecorder R}.

Notation st := (bridge_state R).

Definition deviceScanInfoJSON (rep : HostReport) : string * string :=
  let '(ports, services) := serviceArrays rep in
  (marshal (JArray ((fun p => JObject (open_port_members p)) <$> ports)),
   marshal (JArray ((fun s => JObject (members
      [("port", Some (JNumber (itoa (se_Port s)))); ("name", Some (JString (se_Name s)));
       ("protocol", omit_string (se_Protocol s))])) <$> services))).

Definition buildDeviceTags (devType brand : string) (rep : HostReport) : string :=
  let tags : gset string := {[devType; brand]} ∪ list_to_set (s_Service <$> hr_Services rep) in
  marshal (JArray (JString <$> elements (tags ∖ {[""]}))).

Definition buildIdentityWrite (rep : HostReport) (mac devType brand descr location : string) (networkID : option Z)
    (res : IdentityResolution) : IdentityWrite :=
  let '(ports, services) := if hr_Passive rep then ("", "") else deviceScanInfoJSON rep in
  mkWrite res (hr_IP rep) mac networkID (deviceDisplayName rep mac) devType brand (rep_field rep "inferred_model")
    descr location ports services (rep_field rep "prometheus_url") (rep_field rep "node_exporter_url")
    (marshalScanAttributes (buildScanAttributes rep)) (buildDeviceTags devType brand rep) (hr_RTTMs rep).

(** * Steps *)

Definition with_db (db : device_db) (s : st) : st :=
  mkBridge db (br_sightings s) (br_configs s) (br_heartbeat s) (br_recorder s).

Definition emit_event (ev : ChangeEvent) (s : st) : st :=
  mkBridge (br_db s) (br_sightings s) (br_configs s) (br_heartbeat s) ((fun r => Record_ r ev) <$> br_recorder s).

Definition device_event (kind : string) (id : Z) (networkID : option Z) (agentID : string) (before after : any_value)
    : ChangeEvent :=
  mkEvent kind EntityTypeDevice "" id networkID agentID before after.

Definition read_row (ok : bool) (id : Z) (s : st) : option DeviceRow := if ok then get_row id (br_db s) else None.

Definition recordDeviceAdded (f : bridge_faults) (id : Z) (networkID : option Z) (agentID : string) (s : st) : st :=
  emit_event (device_event ChangeTypeDeviceAdded id networkID agentID AnyNil
    (AnySnapshot (snapshot_row marshal <$> read_row (bf_after f) id s))) s.

Definition recordVantage (f : bridge_faults) (now id : Z) (ip mac : string) (networkID : option Z) (agentID : string)
    (s : st) : st :=
  if id =? 0 then s
  else
    let db := match networkID with
              | Some n => if negb (CarriesNoLocation ip) && bf_presence f
                          then UpsertNetworkPresence id n ip agentID now (br_db s) else br_db s
              | None => br_db s
              end in
    mkBridge db (if bf_sighting f then RecordSighting id ip mac networkID agentID "scan" now (br_sightings s)
                 else br_sightings s)
      (br_configs s) (br_heartbeat s) (br_recorder s).

Definition reset_failures (id : Z) (s : st) : st :=
  mkBridge (br_db s) (br_sightings s) (br_configs s) ((fun h => ResetFailures h id) <$> br_heartbeat s) (br_recorder s).

(** The configurations of a device: those of the report, else an ICMP probe of
    its address. *)
Definition seed_configs (f : bridge_faults) (id : Z) (rep : HostReport) (s : st) : st :=
  let t := br_configs s in
  let t := if decide (hr_Heartbeats rep ≠ []) then (CreateConfigs (bf_config f) t id (hr_Heartbeats rep)).1
           else if CarriesNoLocation (hr_IP rep) then t
           else if bf_config f "icmp" then (CreateDefaultConfig t id (hr_IP rep)).1 else t in
  match br_heartbeat s with
  | None => s
  | Some _ => mkBridge (br_db s) (br_sightings s) t (br_heartbeat s) (br_recorder s)
  end.

Definition deviceHasHeartbeatConfig (f : bridge_faults) (id : Z) (s : st) : bool :=
  if bf_count f then existsb (fun c => hc_DeviceID c =? id) (ct_rows (br_configs s)) else true.

(** * The bridge *)

(** A report of an unknown device. *)
Definition bridge_new (f : bridge_faults) (uuid : string) (now : Z) (rep : HostReport) (mac devType : string)
    (networkID : option Z) (agentID : string) (s : st) : st * bool :=
  let iw := buildIdentityWrite rep mac devType (rep_field rep "inferred_brand") (rep_field rep "inferred_description")
              (rep_field rep "inferred_location") networkID (new_row 0) in
  let '(db, r) := ApplyDeviceIdentity uuid iw now (br_db s) in
  let s := with_db db s in
  match r with
  | Err _ => (s, false)
  | Ok id =>
      let s := recordDeviceAdded f id networkID agentID s in
      let s := reset_failures id s in
      let s := seed_configs f id rep s in
      (recordVantage f now id (hr_IP rep) mac networkID agentID s, true)
  end.

(** Recovery and identity change, each with its own event. *)
Definition change_events (f : bridge_faults) (id : Z) (networkID : option Z) (agentID : string)
    (before after : option DeviceSnapshot) (s : st) : st * bool :=
  match before, after with
  | Some b, Some a =>
      let recovered := bool_decide (sn_Status b = "offline") && bool_decide (sn_Status a = "online") in
      let s := if recovered
               then emit_event (device_event ChangeTypeDeviceRecovered id networkID agentID (AnySnapshot (Some b))
                      (AnySnapshot (snapshot_row marshal <$> read_row (bf_after f) id s))) s
               else s in
      match DiffIdentity b a with
      | Some _ => (emit_event (device_event ChangeTypeDeviceChanged id networkID agentID (AnySnapshot (Some b))
                     (AnySnapshot (Some a))) s, true)
      | None => (s, recovered)
      end
  | _, _ => (s, false)
  end.

(** A roam is none when the batch vouches that the row's address is alive. *)
Definition roam_vetoed (res : IdentityResolution) (batchAliases : list string) (before : option DeviceRow) : bool :=
  match before with
  | Some b => res_Roamed res && bool_decide (row_IP b ≠ "") && bool_decide (row_IP b ∈ batchAliases)
  | None => false
  end.

Definition bridge_existing (f : bridge_faults) (uuid : string) (now : Z) (rep : HostReport)
    (mac devType typeSource : string) (networkID : option Z) (agentID : string) (batchAliases : list string)
    (res : IdentityResolution) (s : st) : st * bool :=
  let id := res_TargetID res in
  let before := read_row (bf_before f) id s in
  let '(rep, devType) :=
    match before with
    | Some b =>
        if decide (res_ReplacedID res = 0)
        then let '(t, src) := applyTypeStickiness (i_ScanAttributes (row_Info b)) devType typeSource in
             (set_type t src rep, t)
        else (rep, devType)
    | None => (rep, devType)
    end in
  let veto := roam_vetoed res batchAliases before in
  let rep := if veto
             then let v := mergeIPAlias (default [] ((i_ScanAttributes ∘ row_Info) <$> before)) (hr_IP rep) in
                  if decide (v = "") then rep else set_field "ip_aliases" v rep
             else rep in
  let res := if veto
             then mkResolution (res_TargetID res) (res_ReplacedID res) false (res_TakeOver res) (res_IsNew res)
                    (res_ParkHolderID res)
             else res in
  let iw := buildIdentityWrite rep mac devType (rep_field rep "inferred_brand") (rep_field rep "inferred_description")
              (rep_field rep "inferred_location") networkID res in
  let s := with_db (ApplyDeviceIdentity uuid iw now (br_db s)).1 s in
  let '(s, changed) := change_events f id networkID agentID (snapshot_row marshal <$> before)
                         (snapshot_row marshal <$> read_row (bf_after f) id s) s in
  let s := recordVantage f now id (hr_IP rep) mac networkID agentID s in
  let s := reset_failures id s in
  (if deviceHasHeartbeatConfig f id s then s else seed_configs f id rep s, changed).

(** The results are [isNew] and [wasUpdated]. *)
Definition applyDeviceBridge (f : bridge_faults) (uuid : string) (now : Z) (rep : HostReport) (networkID : option Z)
    (agentID : string) (batchAliases : list string) (s : st) : st * (bool * bool) :=
  let '(devType, typeSource) := decide_type tbl rep in
  let rep := set_type devType typeSource rep in
  let mac := reportMAC rep in
  match ResolveDeviceIdentity (bf_identity f) (br_db s) now mac (hr_IP rep) networkID with
  | Err _ => (s, (false, false))
  | Ok res =>
      if res_IsNew res then
        let '(s, isNew) := bridge_new f uuid now rep mac devType networkID agentID s in (s, (isNew, false))
      else
        let '(s, upd) := bridge_existing f uuid now rep mac devType typeSource networkID agentID batchAliases res s in
        (s, (false, upd))
  end.

End bridge.
