(* ===== verification/BridgeSpec.v ===== *)
(** Properties of the device bridge: a report settles the table and emits
    exactly the events its effect calls for, protocol-derived types stick, and
    the one report the bridge drops. *)

From S2P Require Import Prelude NetAddr Cidr Db Report ChangeDetect HeartbeatStore Heartbeat.
From S2P Require Import DeviceStore Attributes AttributesSpec DeviceSpec DeviceType ScanAttributes StoreRecords.
From S2P Require Import DeviceBridge.

Open Scope Z_scope.

(** * The write of a report *)

Lemma set_type_mac t src rep : reportMAC (set_type t src rep) = reportMAC rep.
Proof. unfold reportMAC, set_type, set_field. cbn. by rewrite !lookup_insert_ne. Qed.

Lemma set_type_field t src rep :
  rep_field (set_type t src rep) "inferred_type" = t ∧ rep_field (set_type t src rep) "inferred_type_source" = src.
Proof.
  unfold rep_field, set_type, set_field. cbn.
  by rewrite lookup_insert_eq, lookup_insert_ne, lookup_insert_eq.
Qed.

Lemma marshal_no_aliases a : jget "mac_aliases" (MarshalScanAttributes a) = None.
Proof.
  unfold MarshalScanAttributes. rewrite jget_members by (refine (bool_decide_unpack _ _); vm_compute; exact I). done.
Qed.

Section write.
Context (marshal : json → string) (rep : HostReport) (mac devType brand descr location : string)
  (networkID : option Z) (res : IdentityResolution).

Notation w := (buildIdentityWrite marshal rep mac devType brand descr location networkID res).

Lemma build_fields :
  iw_Res w = res ∧ iw_IP w = hr_IP rep ∧ iw_MAC w = mac ∧ iw_NetworkID w = networkID ∧ iw_Type w = devType
  ∧ iw_ScanAttributes w = MarshalScanAttributes (buildScanAttributes rep).
Proof. unfold buildIdentityWrite. by destruct (if hr_Passive rep then _ else _). Qed.

Lemma build_ok : devType ∈ device_types → write_ok w.
Proof.
  intros Ht. destruct build_fields as (_ & _ & _ & _ & E1 & E2). split; [right; by rewrite E1|].
  rewrite E2. apply marshal_no_aliases.
Qed.

End write.

(** * Observation tails *)

Lemma upsert_rows id n ip v t db : dd_rows (UpsertNetworkPresence id n ip v t db) = dd_rows db
  ∧ dd_seq (UpsertNetworkPresence id n ip v t db) = dd_seq db.
Proof. unfold UpsertNetworkPresence. by destruct (_ || _). Qed.

(** A presence in the reporting network is not a presence outside it. *)
Lemma upsert_outside id n ip v t db now j age :
  HasFreshPresenceOutside (UpsertNetworkPresence id n ip v t db) now j n age = HasFreshPresenceOutside db now j n age.
Proof.
  unfold HasFreshPresenceOutside, UpsertNetworkPresence. destruct (j =? 0); [done|].
  destruct (_ || _); [done|]. cbn [dd_presence].
  set (P := fun p => (np_DeviceID p =? j) && negb (np_NetworkID p =? n) && _).
  destruct (existsb _ (dd_presence db)).
  - induction (dd_presence db) as [|p l IH]; [done|]. cbn [fmap list_fmap existsb]. rewrite IH. f_equal.
    destruct ((np_DeviceID p =? id) && (np_NetworkID p =? n)) eqn:E; [|done].
    apply andb_true_iff in E as [_ E]. unfold P. cbn. rewrite E, Z.eqb_refl. cbn. by rewrite !andb_false_r.
  - rewrite existsb_app. unfold P at 2. cbn [existsb np_DeviceID np_NetworkID np_LastSeen]. rewrite Z.eqb_refl.
    cbn [negb]. by rewrite andb_false_r, !orb_false_r.
Qed.

Lemma resolve_ext db db' now mac ip n :
  dd_rows db' = dd_rows db →
  (∀ j, HasFreshPresenceOutside db' now j n PresenceFreshWindow = HasFreshPresenceOutside db now j n PresenceFreshWindow) →
  ResolveDeviceIdentity no_read_faults db' now mac ip (Some n) = ResolveDeviceIdentity no_read_faults db now mac ip (Some n).
Proof.
  intros Hr Hp. assert (slot_row ip (Some n) db' = slot_row ip (Some n) db) as Hs by (unfold slot_row; by rewrite Hr).
  assert (empty_slot_row ip (Some n) db' = empty_slot_row ip (Some n) db) as He by (unfold empty_slot_row; by rewrite Hr).
  assert (mac_row mac db' = mac_row mac db) as Hm by (unfold mac_row; by rewrite Hr).
  unfold ResolveDeviceIdentity. rewrite Hs, Hm. case_decide; [done|].
  destruct (mac_row mac db) as [t|]; [|unfold resolve_unseen; by rewrite Hs, He].
  unfold resolve_seen. rewrite Hs. destruct (row_Network t); [by rewrite Hp|done].
Qed.

Lemma wf_ext db db' : dd_rows db' = dd_rows db → dd_seq db' = dd_seq db → db_wf db → db_wf db'.
Proof. intros E1 E2 []. split; rewrite ?E1, ?E2; auto. Qed.

(** * What a resolution can be *)

(** A new row parks at most one holder; otherwise the target is a row of the
    table, and in a replacement the slot holder. *)
Lemma resolve_shape db now mac ip n res :
  ResolveDeviceIdentity no_read_faults db now mac ip (Some n) = Ok res →
  (res_IsNew res = true ∧ res = new_row (res_ParkHolderID res))
  ∨ (res_IsNew res = false ∧ ∃ r, r ∈ dd_rows db ∧ row_ID r = res_TargetID res).
Proof.
  assert (∀ h, slot_row ip (Some n) db = Some h → h ∈ dd_rows db) as Hslot.
  { intros h E. by apply head_filter_Some in E as [? _]. }
  unfold ResolveDeviceIdentity. cbn [no_read_faults]. case_decide as Hm.
  - destruct (slot_row ip (Some n) db) as [r|] eqn:E; intros [= <-]; [right|by left]. split; [done|]. exists r. auto.
  - destruct (mac_row mac db) as [t|] eqn:E.
    + apply mac_row_Some in E as [Ht _]. intros [= <-]. right. unfold resolve_seen. cbn [no_read_faults negb].
      assert (∃ r, r ∈ dd_rows db ∧ row_ID r = row_ID t) as Hex by by exists t.
      destruct (_ || _); [by split|]. destruct (match row_Network t with Some _ => _ | None => _ end); [by split|].
      destruct (slot_row ip (Some n) db) as [h|] eqn:Eh; [|by split]. specialize (Hslot h eq_refl).
      case_decide; [by split|]. destruct (macIsHolderAlias _ h mac); [split; [done|by exists h]|].
      destruct (_ && _); [by split|]. split; [done|by exists h].
    + unfold resolve_unseen. cbn [no_read_faults]. destruct (CarriesNoLocation ip); [intros [= <-]; by left|].
      destruct (empty_slot_row ip (Some n) db) as [r|] eqn:Er.
      { apply head_filter_Some in Er as [Hr _]. intros [= <-]. right. split; [done|by exists r]. }
      destruct (slot_row ip (Some n) db) as [h|] eqn:Eh; [|intros [= <-]; by left]. specialize (Hslot h eq_refl).
      case_decide; [intros [= <-]; by left|].
      destruct (macIsHolderAlias _ h mac); [intros [= <-]; right; split; [done|by exists h]|].
      destruct (_ && _); intros [= <-]; [by left|]. right. split; [done|by exists h].
Qed.

(** * One report *)

(** The faults that matter for the table and the events are absent; those of
    the observation tails and of the heartbeat configurations may occur. *)
Record fault_free (f : bridge_faults) : Prop := mkFaultFree {
  ff_identity : bf_identity f = no_read_faults;
  ff_before : bf_before f = true;
  ff_after : bf_after f = true
}.

(** The types recorded in stored documents are ones the table accepts. *)
Definition docs_ok (db : device_db) : Prop :=
  ∀ r a, r ∈ dd_rows db → UnmarshalScanAttributes (i_ScanAttributes (row_Info r)) = Some a →
    sa_InferredType a = "" ∨ sa_InferredType a ∈ device_types.

Lemma sticky_valid o t src :
  (∀ a, UnmarshalScanAttributes o = Some a → sa_InferredType a = "" ∨ sa_InferredType a ∈ device_types) →
  t ∈ device_types → (applyTypeStickiness o t src).1 ∈ device_types.
Proof.
  intros Ho Ht. unfold applyTypeStickiness. destruct (UnmarshalScanAttributes o) as [a|]; [|done].
  case_decide as H1; [done|]. case_decide; [done|]. cbn. destruct (Ho a eq_refl); [|done]. tauto.
Qed.

(** The events of a re-scanned device, from its rows before and after. *)
Definition rescan_events (id : Z) (networkID : option Z) (agentID : string) (b a : DeviceSnapshot) : list ChangeEvent :=
  (if decide (sn_Status b = "offline")
   then [device_event ChangeTypeDeviceRecovered id networkID agentID (AnySnapshot (Some b)) (AnySnapshot (Some a))]
   else [])
  ++ (if decide (DiffIdentity b a = None) then []
      else [device_event ChangeTypeDeviceChanged id networkID agentID (AnySnapshot (Some b)) (AnySnapshot (Some a))]).

Section report.
Context (marshal : json → string).
Context {R : Type} `{!ChangeRecorder R}.
Context (f : bridge_faults) (Hf : fault_free f) (uuid : string) (now : Z) (rep : HostReport) (n : Z) (agentID : string).
Context (s : bridge_state R).
Notation snap := (snapshot_row marshal).

(** Recording events one after the other. *)
Definition recorded (evs : list ChangeEvent) : option R := fold_left Record_ evs <$> br_recorder s.

Lemma vantage_frame id ip mac (s0 : bridge_state R) :
  let s1 := recordVantage f now id ip mac (Some n) agentID s0 in
  dd_rows (br_db s1) = dd_rows (br_db s0) ∧ dd_seq (br_db s1) = dd_seq (br_db s0)
  ∧ br_recorder s1 = br_recorder s0
  ∧ ∀ j, HasFreshPresenceOutside (br_db s1) now j n PresenceFreshWindow
         = HasFreshPresenceOutside (br_db s0) now j n PresenceFreshWindow.
Proof.
  unfold recordVantage. destruct (id =? 0); [done|]. cbn [br_db br_recorder].
  destruct (_ && _); [|done]. split_and!; [apply upsert_rows|apply upsert_rows|done|]. intros j. apply upsert_outside.
Qed.

Lemma seed_frame id rep0 (s0 : bridge_state R) :
  br_db (seed_configs f id rep0 s0) = br_db s0 ∧ br_recorder (seed_configs f id rep0 s0) = br_recorder s0.
Proof. unfold seed_configs. by destruct (br_heartbeat s0). Qed.

(** What a settled report leaves, and what it recorded. *)
Definition settled_with (s' : bridge_state R) (id : Z) (a : DeviceRow) : Prop :=
  db_wf (br_db s')
  ∧ ResolveDeviceIdentity no_read_faults (br_db s') now (reportMAC rep) (hr_IP rep) (Some n) = Ok (plain id)
  ∧ get_row id (br_db s') = Some a ∧ top (DBTime now) a.

Context (Hwf : db_wf (br_db s)) (Hold : ∀ r, r ∈ dd_rows (br_db s) → older (DBTime now) r) (Hdocs : docs_ok (br_db s)).
Context (Hloc : CarriesNoLocation (hr_IP rep) = false) (Hpark : ∀ k, hr_IP rep ≠ park_ip k).

(** From the written table to the final state. *)
Lemma settled_final db' id (s' : bridge_state R) :
  db_wf db' →
  ResolveDeviceIdentity no_read_faults db' now (reportMAC rep) (hr_IP rep) (Some n) = Ok (plain id) →
  (∃ t, t ∈ dd_rows db' ∧ row_ID t = id ∧ top (DBTime now) t) →
  dd_rows (br_db s') = dd_rows db' → dd_seq (br_db s') = dd_seq db' →
  (∀ j, HasFreshPresenceOutside (br_db s') now j n PresenceFreshWindow
        = HasFreshPresenceOutside db' now j n PresenceFreshWindow) →
  ∃ a, get_row id db' = Some a ∧ settled_with s' id a.
Proof.
  intros Hw Hr (t & Ht & Hi & Htop) E1 E2 E3. exists t. split; [by apply get_row_spec|]. split_and!.
  - by eapply wf_ext.
  - by rewrite (resolve_ext db').
  - unfold get_row. rewrite E1. by apply get_row_spec.
  - done.
Qed.

Lemma new_spec t src res (Ht : t ∈ device_types) (Hnew : res_IsNew res = true) (Hp : res_ParkHolderID res = 0) :
  ResolveDeviceIdentity no_read_faults (br_db s) now (reportMAC rep) (hr_IP rep) (Some n) = Ok res →
  ∃ s' id a, bridge_new marshal f uuid now (set_type t src rep) (reportMAC rep) t (Some n) agentID s = (s', true)
    ∧ settled_with s' id a ∧ id = dd_seq (br_db s) + 1
    ∧ br_recorder s' = recorded [device_event ChangeTypeDeviceAdded id (Some n) agentID AnyNil (AnySnapshot (Some (snap a)))].
Proof.
  intros Hres. destruct (resolve_shape _ _ _ _ _ _ Hres) as [[_ Hshape]|[? _]]; [|congruence]. rewrite Hp in Hshape.
  unfold bridge_new. set (iw := buildIdentityWrite _ _ _ _ _ _ _ _ _).
  destruct (build_fields marshal (set_type t src rep) (reportMAC rep) t (rep_field (set_type t src rep) "inferred_brand")
    (rep_field (set_type t src rep) "inferred_description") (rep_field (set_type t src rep) "inferred_location") (Some n)
    (new_row 0)) as (W1 & W2 & W3 & W4 & _). fold iw in W1, W2, W3, W4.
  destruct (resolved_settles uuid (reportMAC rep) (hr_IP rep) n now (br_db s) iw) as (db' & id & Ha & Hw & Hr & Ht');
    [done|by apply build_ok|done..|by rewrite W1, <- Hshape|].
  assert (id = dd_seq (br_db s) + 1) as Hid.
  { unfold ApplyDeviceIdentity in Ha. rewrite W1 in Ha. cbn in Ha. unfold createDeviceIdentity in Ha.
    destruct (_ && _) in Ha; by simplify_eq. }
  rewrite Ha. cbv beta iota zeta.
  set (s2 := seed_configs f id _ _). destruct (seed_frame id (set_type t src rep)
    (reset_failures id (recordDeviceAdded marshal f id (Some n) agentID (with_db db' s)))) as [F1 F2]. fold s2 in F1, F2.
  destruct (vantage_frame id (hr_IP rep) (reportMAC rep) s2) as (V1 & V2 & V3 & V4).
  rewrite F1 in V1, V2, V4. rewrite F2 in V3.
  destruct (settled_final db' id _ Hw Hr Ht' V1 V2 V4) as (a & Hga & Hs).
  eexists _, id, a. split_and!; [reflexivity|exact Hs|done|].
  etrans; [exact V3|]. cbn. rewrite (ff_after _ Hf). unfold recorded. by destruct (br_recorder s); cbn; rewrite ?Hga.
Qed.

Lemma events_spec id b a (s0 : bridge_state R) :
  get_row id (br_db s0) = Some a → row_Status a = "online" →
  let '(s1, changed) := change_events marshal f id (Some n) agentID (Some (snap b)) (Some (snap a)) s0 in
  br_db s1 = br_db s0
  ∧ br_recorder s1 = fold_left Record_ (rescan_events id (Some n) agentID (snap b) (snap a)) <$> br_recorder s0
  ∧ changed = bool_decide (rescan_events id (Some n) agentID (snap b) (snap a) ≠ []).
Proof.
  intros Ha Hon. unfold change_events, rescan_events. cbn [snapshot_row sn_Status].
  rewrite (bool_decide_true (row_Status a = "online")), andb_true_r by done. unfold read_row. rewrite (ff_after _ Hf), Ha.
  fold (snap b) (snap a).
  destruct (bool_decide_reflect (row_Status b = "offline")) as [E|E]; [rewrite decide_True by done|rewrite decide_False by done];
    (destruct (DiffIdentity (snap b) (snap a)); [rewrite decide_False by done|rewrite decide_True by done]);
    cbn; by destruct (br_recorder s0).
Qed.

Lemma veto_none res b : roam_vetoed res [] b = false.
Proof. unfold roam_vetoed. destruct b; [|done]. by rewrite (bool_decide_false (_ ∈ [])), andb_false_r by set_solver. Qed.

Lemma existing_spec t src res (Ht : t ∈ device_types) (Hex : res_IsNew res = false) :
  ResolveDeviceIdentity no_read_faults (br_db s) now (reportMAC rep) (hr_IP rep) (Some n) = Ok res →
  ∃ s' b a, get_row (res_TargetID res) (br_db s) = Some b
    ∧ bridge_existing marshal f uuid now (set_type t src rep) (reportMAC rep) t src (Some n) agentID [] res s
      = (s', bool_decide (rescan_events (res_TargetID res) (Some n) agentID (snap b) (snap a) ≠ []))
    ∧ settled_with s' (res_TargetID res) a
    ∧ br_recorder s' = recorded (rescan_events (res_TargetID res) (Some n) agentID (snap b) (snap a)).
Proof.
  intros Hres. destruct (resolve_shape _ _ _ _ _ _ Hres) as [[? _]|[_ (b & Hb & Hbi)]]; [congruence|].
  assert (get_row (res_TargetID res) (br_db s) = Some b) as Hgb by by apply get_row_spec.
  unfold bridge_existing. unfold read_row at 1. rewrite (ff_before _ Hf), Hgb. rewrite veto_none.
  destruct (if decide (res_ReplacedID res = 0) then _ else _) as [rep' t'] eqn:Erep.
  assert (t' ∈ device_types ∧ hr_IP rep' = hr_IP rep) as [Ht' Hip].
  { pose proof (sticky_valid (i_ScanAttributes (row_Info b)) t src (fun a => Hdocs b a Hb) Ht) as Hv.
    destruct (applyTypeStickiness _ t src) as [t1 src1]. case_decide; by simplify_eq. }
  set (iw := buildIdentityWrite _ _ _ _ _ _ _ _ _).
  destruct (build_fields marshal rep' (reportMAC rep) t' (rep_field rep' "inferred_brand")
    (rep_field rep' "inferred_description") (rep_field rep' "inferred_location") (Some n) res) as (W1 & W2 & W3 & W4 & _).
  fold iw in W1, W2, W3, W4. rewrite Hip in W2.
  destruct (resolved_settles uuid (reportMAC rep) (hr_IP rep) n now (br_db s) iw) as (db' & id & Ha & Hw & Hr & Htop);
    [done|by apply build_ok|done..|by rewrite W1|].
  assert (id = res_TargetID res) as ->.
  { unfold ApplyDeviceIdentity in Ha. rewrite W1, Hex in Ha. by injection Ha. }
  rewrite Ha. cbn [fst]. destruct Htop as (a & Hta & Hia & Htop). pose proof (get_row_spec db' _ a Hw Hta Hia) as Hga.
  unfold read_row. rewrite (ff_after _ Hf), Hgb. change (br_db (with_db db' s)) with db'. rewrite Hga. cbn [fmap option_fmap option_map].
  pose proof (events_spec (res_TargetID res) b a (with_db db' s) Hga (proj1 Htop)) as Hev.
  destruct (change_events _ _ _ _ _ _ _ _) as [s1 changed]. destruct Hev as (D1 & D2 & ->).
  change (br_db (with_db db' s)) with db' in D1. change (br_recorder (with_db db' s)) with (br_recorder s) in D2.
  destruct (vantage_frame (res_TargetID res) (hr_IP rep') (reportMAC rep) s1) as (V1 & V2 & V3 & V4).
  rewrite D1 in V1, V2, V4. rewrite D2 in V3.
  cbv beta iota zeta. set (s2 := reset_failures (R := R) _ _). set (s3 := if deviceHasHeartbeatConfig f _ s2 then _ else _).
  assert (br_db s3 = br_db s2 ∧ br_recorder s3 = br_recorder s2) as [F1 F2]
    by (unfold s3; destruct (deviceHasHeartbeatConfig f _ s2); [done|apply seed_frame]).
  destruct (settled_final db' (res_TargetID res) s3 Hw Hr) as (a' & Ha' & Hs);
    [by exists a|by rewrite F1..|]. rewrite Hga in Ha'. injection Ha' as <-.
  exists s3, b, a. split_and!; [done|done|done|]. rewrite F2. exact V3.
Qed.

End report.

(** C5.  A report settles and says so.  Take a scan report with a real address, for
    whose MAC no other address is vouched in the batch (a scan of the center
    itself, or an agent's batch without such a twin), on a well-formed table of
    older rows, with no statement failing.  The bridge leaves a well-formed
    table in which the same report is a plain match of one row, seen now and
    online.  A new device is created and announced by one device_added with its
    row.  A known one is announced as recovered exactly when its row was
    offline, and as changed exactly when an identity field of its row differs,
    in this order and with the rows before and after; the result says whether
    either happened.  Excepted is the report whose resolution asks for a new
    row and a parked holder at once, which the bridge drops
    ([randomized_report_dropped]); what batch aliases do is shown on
    [vetoed_roam_parks_holder]. *)
Theorem report_settles marshal tbl {R} `{!ChangeRecorder R} f uuid now rep n agentID (s : bridge_state R) res
    (Htbl : table_ok tbl) (Hf : fault_free f) (Hwf : db_wf (br_db s)) (Hdocs : docs_ok (br_db s))
    (Hold : ∀ r, r ∈ dd_rows (br_db s) → older (DBTime now) r)
    (Hloc : CarriesNoLocation (hr_IP rep) = false) (Hpark : ∀ k, hr_IP rep ≠ park_ip k)
    (Hres : ResolveDeviceIdentity no_read_faults (br_db s) now (reportMAC rep) (hr_IP rep) (Some n) = Ok res)
    (Hnopark : res_IsNew res = true → res_ParkHolderID res = 0) :
  ∃ s' id a, settled_with now rep n s' id a
    ∧ if res_IsNew res then
        applyDeviceBridge marshal tbl f uuid now rep (Some n) agentID [] s = (s', (true, false))
        ∧ get_row id (br_db s) = None
        ∧ br_recorder s' = recorded s [device_event ChangeTypeDeviceAdded id (Some n) agentID AnyNil
                                         (AnySnapshot (Some (snapshot_row marshal a)))]
      else
        ∃ b, get_row id (br_db s) = Some b
          ∧ let evs := rescan_events id (Some n) agentID (snapshot_row marshal b) (snapshot_row marshal a) in
            applyDeviceBridge marshal tbl f uuid now rep (Some n) agentID [] s = (s', (false, bool_decide (evs ≠ [])))
            ∧ br_recorder s' = recorded s evs.
Proof.
  unfold applyDeviceBridge. pose proof (decide_type_valid tbl rep Htbl) as Ht.
  destruct (decide_type tbl rep) as [t src]. cbn [fst] in Ht. rewrite set_type_mac.
  change (hr_IP (set_type t src rep)) with (hr_IP rep). rewrite (ff_identity _ Hf), Hres.
  destruct (res_IsNew res) eqn:Hnew.
  - destruct (new_spec marshal f Hf uuid now rep n agentID s Hwf Hold Hloc Hpark t src res)
      as (s' & id & a & -> & Hs & Hid & Hr); [by auto..|]. exists s', id, a. split_and!; [done..| |done].
    destruct (get_row id (br_db s)) as [r|] eqn:E; [|done]. apply head_filter_Some in E as [Hr1 Hr2].
    pose proof (wf_pos _ Hwf r Hr1). lia.
  - destruct (existing_spec marshal f Hf uuid now rep n agentID s Hwf Hold Hdocs Hloc Hpark t src res)
      as (s' & b & a & Hb & -> & Hs & Hr); [by auto..|]. exists s', (res_TargetID res), a. split; [done|]. by exists b.
Qed.

(** * The dropped report *)

(** Only an unseen MAC at an occupied slot asks to park for a new row. *)
Lemma new_park_holder db now mac ip n res :
  ResolveDeviceIdentity no_read_faults db now mac ip (Some n) = Ok res →
  res_IsNew res = true → res_ParkHolderID res ≠ 0 → ∃ h, slot_row ip (Some n) db = Some h.
Proof.
  unfold ResolveDeviceIdentity. cbn [no_read_faults]. case_decide.
  { destruct (slot_row ip (Some n) db); by intros [= <-]. }
  destruct (mac_row mac db) as [t|].
  - intros [= <-]. unfold resolve_seen. cbn [no_read_faults negb]. repeat case_match; done.
  - unfold resolve_unseen. cbn [no_read_faults]. destruct (CarriesNoLocation ip); [by intros [= <-]|].
    destruct (empty_slot_row ip (Some n) db); [by intros [= <-]|].
    destruct (slot_row ip (Some n) db) as [h|]; [by exists h|by intros [= <-]].
Qed.

(** The report of an unseen randomized MAC at an address that a vendor MAC
    holds is dropped: the resolution asks for a new row with the holder parked,
    but the branch for new devices does not pass the holder on, the insert
    meets the holder's slot, and the bridge changes nothing. *)
Theorem randomized_report_dropped marshal tbl {R} `{!ChangeRecorder R} f uuid now rep n agentID aliases
    (s : bridge_state R) res (Hf : bf_identity f = no_read_faults) (Hwf : db_wf (br_db s))
    (Hres : ResolveDeviceIdentity no_read_faults (br_db s) now (reportMAC rep) (hr_IP rep) (Some n) = Ok res)
    (Hnew : res_IsNew res = true) (Hpark : res_ParkHolderID res ≠ 0) :
  applyDeviceBridge marshal tbl f uuid now rep (Some n) agentID aliases s = (s, (false, false)).
Proof.
  destruct (new_park_holder _ _ _ _ _ _ Hres Hnew Hpark) as [h Hh].
  apply slot_row_Some in Hh as (Hh & Hip & Hn); [|done].
  unfold applyDeviceBridge. destruct (decide_type tbl rep) as [t src]. rewrite set_type_mac.
  change (hr_IP (set_type t src rep)) with (hr_IP rep). rewrite Hf, Hres, Hnew. unfold bridge_new.
  set (iw := buildIdentityWrite _ _ _ _ _ _ _ _ _).
  assert (iw_Res iw = new_row 0 ∧ iw_IP iw = hr_IP rep ∧ iw_NetworkID iw = Some n) as (W1 & W2 & W3)
    by (destruct (build_fields marshal (set_type t src rep) (reportMAC rep) t
          (rep_field (set_type t src rep) "inferred_brand") (rep_field (set_type t src rep) "inferred_description")
          (rep_field (set_type t src rep) "inferred_location") (Some n) (new_row 0)) as (? & ? & _ & ? & _); by split_and!).
  assert (ApplyDeviceIdentity uuid iw now (br_db s) = (br_db s, Err tt)) as ->; [|by destruct s].
  unfold ApplyDeviceIdentity. rewrite W1. cbn [new_row res_ParkHolderID res_IsNew]. rewrite decide_False by (intros E; by apply E).
  unfold createDeviceIdentity. cbv zeta. set (row := mkRow _ _ _ _ _ _ _ _ _ _ _ _).
  assert (conflicts row (dd_rows (br_db s)) = true) as ->; [|by rewrite andb_false_r].
  unfold conflicts. apply existsb_exists. exists h. split; [by apply list_elem_of_In|].
  apply andb_true_iff. split; [|unfold same_slot; cbn; by rewrite W3, Hn, W2, Hip, bool_decide_true, Z.eqb_refl].
  apply negb_true_iff, Z.eqb_neq. pose proof (wf_pos _ Hwf h Hh). cbn. lia.
Qed.

(** * Concrete reports *)

Definition quick_marshal (j : json) : string := "json".
Definition no_rules : typeRuleTable := mkTypeRules [] [] [].
Definition no_bridge_faults : bridge_faults := mkBridgeFaults no_read_faults true true true (fun _ => true) true true.
Definition bridge_at (db : device_db) : bridge_state event_trace := mkBridge db ∅ (mkConfigs [] 1) None (Some []).
Definition sighting (ip mac : string) : HostReport := mkReport ip true 3 {["mac" := mac]} [] [] [] true.
Definition later : Z := 200 * nanos_per_second.

Lemma no_bridge_faults_free : fault_free no_bridge_faults.
Proof. by split. Qed.

Lemma lan_docs : docs_ok lan.
Proof. intros r a [->| ->]%lan_rows; vm_compute; intros [= <-]; by left. Qed.

Lemma lan_older r : r ∈ dd_rows lan → older (DBTime later) r.
Proof. intros [->| ->]%lan_rows; vm_compute; reflexivity. Qed.

(** The phone, known at 10.0.0.9, is sighted at the free address 10.0.0.7. *)
Lemma report_settles_witness :
  ∃ s' id a, settled_with later (sighting "10.0.0.7" "02:AA:BB:CC:DD:EE") 7 s' id a
    ∧ if false then
        applyDeviceBridge quick_marshal no_rules no_bridge_faults "u9" later (sighting "10.0.0.7" "02:AA:BB:CC:DD:EE")
          (Some 7) "agent" [] (bridge_at lan) = (s', (true, false))
        ∧ get_row id lan = None
        ∧ br_recorder s' = recorded (bridge_at lan) [device_event ChangeTypeDeviceAdded id (Some 7) "agent" AnyNil
                                         (AnySnapshot (Some (snapshot_row quick_marshal a)))]
      else
        ∃ b, get_row id lan = Some b
          ∧ let evs := rescan_events id (Some 7) "agent" (snapshot_row quick_marshal b) (snapshot_row quick_marshal a) in
            applyDeviceBridge quick_marshal no_rules no_bridge_faults "u9" later (sighting "10.0.0.7" "02:AA:BB:CC:DD:EE")
              (Some 7) "agent" [] (bridge_at lan) = (s', (false, bool_decide (evs ≠ [])))
            ∧ br_recorder s' = recorded (bridge_at lan) evs.
Proof.
  apply (report_settles quick_marshal no_rules no_bridge_faults "u9" later (sighting "10.0.0.7" "02:AA:BB:CC:DD:EE") 7
    "agent" (bridge_at lan) (roamed 2 0)).
  - split_and!; intros r Hr; cbn in Hr; set_solver.
  - apply no_bridge_faults_free.
  - apply lan_wf.
  - apply lan_docs.
  - apply lan_older.
  - by vm_compute.
  - done.
  - vm_compute. reflexivity.
  - done.
Defined.

(** An unknown phone takes the camera's address: nothing happens. *)
Lemma randomized_report_dropped_witness :
  applyDeviceBridge quick_marshal no_rules no_bridge_faults "u9" later (sighting "10.0.0.5" "06:12:34:56:78:9a")
    (Some 7) "" [] (bridge_at lan) = (bridge_at lan, (false, false)).
Proof.
  apply (randomized_report_dropped quick_marshal no_rules no_bridge_faults "u9" later
    (sighting "10.0.0.5" "06:12:34:56:78:9a") 7 "" [] (bridge_at lan) (new_row 1)); [done|apply lan_wf| |done..].
  vm_compute. reflexivity.
Defined.

(** The batch vouches for the phone's own address, so it does not move to
    10.0.0.5; the camera that holds 10.0.0.5 is parked all the same. *)
Example vetoed_roam_parks_holder :
  (fun r => (row_ID r, row_IP r)) <$>
    dd_rows (br_db (applyDeviceBridge quick_marshal no_rules no_bridge_faults "u9" later
      (sighting "10.0.0.5" "02:aa:bb:cc:dd:ee") (Some 7) "agent" ["10.0.0.9"] (bridge_at lan)).1)
  = [(1, "#park:1"); (2, "10.0.0.9")].
Proof. vm_compute. reflexivity. Qed.
