(* ===== verification/StickySpec.v ===== *)
(** Protocol-derived device types stick: over any sequence of reports without
    protocol evidence of their own, whatever else they change, the type of a
    device once derived from a protocol stays in its column and in its
    document. *)

From stdpp Require sorting.
From S2P Require Import Prelude NetAddr Cidr Db Report ChangeDetect HeartbeatStore Heartbeat.
From S2P Require Import DeviceStore Attributes AttributesSpec DeviceSpec DeviceType ScanAttributes StoreRecords.
From S2P Require Import DeviceBridge BridgeSpec.

Open Scope Z_scope.

(** * The numbers of a built document *)

(** The numbers of a report are Go integers. *)
Record report_wf (rep : HostReport) : Prop := mkReportWf {
  rw_RTTMs : int64 (hr_RTTMs rep);
  rw_Evidence : Forall (fun e => int64 (e_Port e)) (hr_Evidence rep);
  rw_Services : Forall (fun s => int64 (s_Port s)) (hr_Services rep)
}.

Lemma positive_field_int64 t : int64 (positive_field t).
Proof.
  unfold positive_field. destruct (atoi t) as [v|] eqn:E; [|apply int64_0].
  destruct (0 <? v); [by eapply atoi_int64|apply int64_0].
Qed.

Lemma best_services_ports (l : list ServiceIdentity) (m : gmap (Z * string) ServiceEntry) :
  Forall (fun s => int64 (s_Port s)) l → map_Forall (fun _ e => int64 (se_Port e)) m →
  map_Forall (fun _ e => int64 (se_Port e)) (fold_left add_service l m).
Proof.
  intros Hl. revert m. induction Hl as [|s l Hs _ IH]; intros m Hm; [done|]. cbn [fold_left]. apply IH.
  unfold add_service. cbv zeta.
  assert (map_Forall (fun _ e => int64 (se_Port e)) (<[(s_Port s, s_Service s) := service_entry s]> m))
    by by apply map_Forall_insert_2.
  destruct (m !! _); [|done]. by destruct (richerVersion _ _).
Qed.

Lemma buildScanAttributes_wf rep : report_wf rep → attributes_wf (buildScanAttributes rep).
Proof.
  intros [Hrtt He Hs]. unfold buildScanAttributes. destruct (serviceArrays rep) as [ports services] eqn:E.
  unfold serviceArrays in E. injection E as <- <-.
  split; cbn [sa_CPUCount sa_MemoryTotalBytes sa_UptimeSeconds sa_TTL sa_LastScanRttMs sa_SNMP sa_OpenPorts
                sa_DetectedServices]; try apply positive_field_int64; try done.
  - destruct (_ =? 0); [|apply positive_field_int64].
    destruct (snmp_evidence rep); [apply positive_field_int64|apply int64_0].
  - intros d Hd. apply fmap_Some in Hd as (e & _ & ->). cbn. destruct (atoi _) eqn:Ea; [by eapply atoi_int64|apply int64_0].
  - apply Forall_fmap. unfold open_ports. apply list.Forall_forall. intros p Hp. cbn.
    rewrite sorting.merge_sort_Permutation, elem_of_remove_dups in Hp.
    apply list_elem_of_fmap in Hp as (e & -> & [_ Hin]%list_elem_of_filter). by eapply list.Forall_forall in He.
  - apply list.Forall_forall. intros e Hin. rewrite sorting.merge_sort_Permutation in Hin.
    apply list_elem_of_fmap in Hin as ([k e'] & -> & Hin%elem_of_map_to_list). cbn.
    by apply (best_services_ports _ ∅ Hs (map_Forall_empty _) k).
Qed.

(** * The invariant *)

(** The column and the document of a row both say [T], from a protocol. *)
Definition protocol_typed (T : string) (r : DeviceRow) : Prop :=
  i_Type (row_Info r) = T
  ∧ ∃ a, UnmarshalScanAttributes (i_ScanAttributes (row_Info r)) = Some a
         ∧ sa_InferredType a = T ∧ sa_InferredTypeSource a = "protocol".

Definition keeps (T : string) (id : Z) (db : device_db) : Prop :=
  id ≤ dd_seq db ∧ ∀ r, r ∈ dd_rows db → row_ID r = id → protocol_typed T r.

Section keeps.
Context (T : string) (id : Z).

(** A statement on row [j], applied or refused. *)
Lemma exec_keeps f j db :
  (∀ r, row_ID (f r) = row_ID r) →
  (∀ r, r ∈ dd_rows db → row_ID r = id → j = id → protocol_typed T r → protocol_typed T (f r)) →
  keeps T id db → keeps T id (exec (update_row f j db) db).
Proof.
  intros Hid Hf [Hs Hk]. unfold update_row. cbv zeta. destruct (forallb _ _); [|done]. cbn [exec default from_option].
  split; [done|]. intros r' Hr' Hi. apply (elem_upd f j db) in Hr' as (r & Hr & [[E ->]|[E ->]]); [|by apply Hk].
  rewrite Hid in Hi. apply Hf; [done..|congruence|by apply Hk].
Qed.

(** Statements that leave type and document alone. *)
Lemma exec_keeps_info f j db :
  (∀ r, row_ID (f r) = row_ID r) → (∀ r, i_Type (row_Info (f r)) = i_Type (row_Info r)) →
  (∀ r, i_ScanAttributes (row_Info (f r)) = i_ScanAttributes (row_Info r)) →
  keeps T id db → keeps T id (exec (update_row f j db) db).
Proof. intros Hid H1 H2. apply exec_keeps; [done|]. intros r _ _ _ (E & a & Ha). split; [by rewrite H1|by exists a; rewrite H2]. Qed.

(** Decoding is indifferent to members outside the record, and losing the
    hostname loses only the hostname. *)
Lemma unmarshal_strip o a : UnmarshalScanAttributes o = Some a →
  ∃ a', UnmarshalScanAttributes (jdel "hostname" o) = Some a'
    ∧ sa_InferredType a' = sa_InferredType a ∧ sa_InferredTypeSource a' = sa_InferredTypeSource a.
Proof.
  intros H. unfold UnmarshalScanAttributes in H. split_decode H. eexists. split.
  - unfold UnmarshalScanAttributes. rewrite jget_jdel_eq. rewrite !(jget_jdel _ "hostname") by discriminate.
    repeat (apply bind_Some; eexists; split; [first [eassumption|reflexivity]|]). reflexivity.
  - by split.
Qed.

Lemma unmarshal_alias o v : UnmarshalScanAttributes (jset "mac_aliases" v o) = UnmarshalScanAttributes o.
Proof.
  unfold UnmarshalScanAttributes.
  assert (∀ k, k ≠ "mac_aliases" → jget k (jset "mac_aliases" v o) = jget k o) as E
    by (intros k Hk; rewrite jget_jset; by rewrite decide_False).
  by rewrite !E by discriminate.
Qed.

Lemma get_row_typed db j r : keeps T id db → get_row j db = Some r → j = id → protocol_typed T r.
Proof. intros [_ Hk] E ->. apply head_filter_Some in E as [Hr Hi]. by apply Hk. Qed.

Lemma heal_name_keeps w now db : keeps T id db → keeps T id (heal_name w now db).
Proof.
  intros Hk. unfold heal_name. destruct (get_row _ db) as [r|] eqn:E; [|done].
  set (db1 := if _ && _ then exec _ db else db). assert (keeps T id db1) as H1.
  { unfold db1. destruct (_ && _); [|done]. by apply exec_keeps_info. }
  clearbody db1. destruct (jget "hostname" _) as [j|]; [|done]. destruct j; try done. destruct (PlausibleHostname _); [done|].
  apply exec_keeps; [done| |done]. intros r' _ _ Hj (Ht & _).
  destruct (get_row_typed _ _ _ Hk E Hj) as (_ & a & Ha & H2 & H3).
  destruct (unmarshal_strip _ _ Ha) as (a' & Ha' & E2 & E3). split; [done|]. exists a'. cbn. by rewrite E2, E3.
Qed.

Lemma alias_keeps j mac db : keeps T id db → keeps T id (recordHolderAlias j mac db).
Proof.
  intros Hk. unfold recordHolderAlias. case_decide; [done|]. cbv zeta.
  set (m := match get_row j db with Some r => _ | None => [] end). destruct (existsb _ _); [done|].
  apply exec_keeps; [done| |done]. intros r Hr Hi Hj (Ht & _). split; [done|].
  destruct (get_row j db) as [r0|] eqn:E.
  - destruct (get_row_typed _ _ _ Hk E Hj) as (_ & a & Ha). exists a. cbn. by rewrite unmarshal_alias.
  - exfalso. apply (head_filter_None _ _ r E); [done|congruence].
Qed.

(** The write names the type when it concerns the row, if there is one. *)
Definition names_type (db : device_db) (w : IdentityWrite) : Prop :=
  ∀ r, r ∈ dd_rows db → row_ID r = id → res_TargetID (iw_Res w) = id →
  res_ReplacedID (iw_Res w) = 0
  ∧ ∃ b, iw_ScanAttributes w = MarshalScanAttributes b ∧ attributes_wf b
         ∧ sa_InferredType b = T ∧ sa_InferredTypeSource b = "protocol".

Lemma names_type_exec f j db w : (∀ r, row_ID (f r) = row_ID r) → names_type db w →
  names_type (exec (update_row f j db) db) w.
Proof.
  intros Hid Hw r' Hr' Hi. revert Hr'. unfold update_row. cbv zeta. destruct (forallb _ _); [|intros; by eapply Hw].
  intros Hr'. apply (elem_upd f j db) in Hr' as (r & Hr & [[_ ->]|[_ ->]]); apply (Hw r Hr); [by rewrite <- Hid|done].
Qed.

Context (HT : T ∉ ["" : string; "unknown"; "other"]).

Lemma update_columns_typed w now r b : iw_ScanAttributes w = MarshalScanAttributes b → attributes_wf b →
  sa_InferredType b = T → sa_InferredTypeSource b = "protocol" → protocol_typed T r →
  protocol_typed T (existingIdentityUpdate w now r).
Proof.
  intros Eb Hb B1 B2 (Ht & a & Ha & _). split.
  - cbn. rewrite Ht. unfold fill. by rewrite decide_False by tauto.
  - exists (merge_attributes a b). split.
    + change (i_ScanAttributes (row_Info (existingIdentityUpdate w now r)))
        with (patch_attrs (i_ScanAttributes (row_Info r)) (iw_ScanAttributes w)).
      rewrite Eb. by apply attributes_patch.
    + cbn. rewrite B1, B2. unfold overwrite. rewrite decide_False by set_solver. done.
Qed.

Lemma update_keeps w now db : names_type db w → keeps T id db → keeps T id (updateDeviceIdentity w now db).
Proof.
  intros Hw Hk. unfold updateDeviceIdentity.
  set (db1 := exec (update_row _ _ db) db). assert (keeps T id db1) as H1.
  { unfold db1. apply exec_keeps; [intros r; by case_decide| |done]. intros r Hr Hi Hj Ht.
    destruct (Hw r Hr Hi Hj) as (-> & b & ? & ? & ? & ?). rewrite decide_False by (intros E; by apply E).
    by eapply update_columns_typed. }
  clearbody db1. clear Hk Hw db. set (db2 := exec (update_row (heal_brand w now) _ db1) db1). assert (keeps T id db2) as H2.
  { unfold db2. apply exec_keeps_info; [..|done]; intros r; unfold heal_brand; by destruct (_ && _). }
  clearbody db2. clear H1 db1. pose proof (heal_name_keeps w now db2 H2) as H3. revert H3.
  generalize (heal_name w now db2). clear H2 db2. intros db Hk. cbv zeta. case_decide.
  - set (db1 := if _ && _ then recordHolderAlias _ _ db else db).
    assert (keeps T id db1) as H1 by (unfold db1; destruct (_ && _); [by apply alias_keeps|done]).
    case_decide; [apply exec_keeps_info; [done..|]|]; by apply exec_keeps_info.
  - destruct (res_Roamed _); [|by apply exec_keeps_info].
    pose proof (exec_keeps_info (stamp_online (Some (iw_IP w)) (iw_NetworkID w) (iw_MAC w) now) (res_TargetID (iw_Res w)) db
      ltac:(done) ltac:(done) ltac:(done) Hk) as H1.
    destruct (update_row _ _ db) as [db1|]; [exact H1|].
    apply exec_keeps_info; [done..|]. destruct Hk as [Hs Hk]. split; [done|].
    intros r Hr. apply Hk. by apply list_elem_of_filter in Hr as [_ Hr].
Qed.

Lemma create_keeps uuid w now db : keeps T id db → keeps T id (createDeviceIdentity uuid w now db).1.
Proof.
  intros [Hs Hk]. unfold createDeviceIdentity. destruct (_ && _); [|by split]. split; cbn [fst dd_rows dd_seq]; [lia|].
  intros r [Hr| ->%list_elem_of_singleton]%elem_of_app; [by apply Hk|]. cbn. lia.
Qed.

Lemma apply_keeps uuid w now db : (res_IsNew (iw_Res w) = false → names_type db w) → keeps T id db → keeps T id (ApplyDeviceIdentity uuid w now db).1.
Proof.
  intros Hw Hk. unfold ApplyDeviceIdentity. cbv zeta. set (db1 := if decide (res_ParkHolderID (iw_Res w) ≠ 0) then _ else db).
  assert (keeps T id db1 ∧ (res_IsNew (iw_Res w) = false → names_type db1 w)) as [? Hw1]
    by (unfold db1; case_decide; [split; [by apply exec_keeps_info|intros E; by apply names_type_exec, Hw]|done]).
  destruct (res_IsNew _); [by apply create_keeps|by apply update_keeps; auto].
Qed.

End keeps.

(** * Reports *)

Section sticky.
Context (marshal : json → string) (tbl : typeRuleTable) {R : Type} `{!ChangeRecorder R}.
Context (T : string) (id : Z) (HT : T ∉ ["" : string; "unknown"; "other"]).

(** A report whose own verdict does not come from a protocol, which does not
    replace the device; its row could be read before the write. *)
Inductive quiet_report : bridge_state R → bridge_state R → Prop :=
| quiet f uuid now rep networkID agentID aliases s s' r :
    report_wf rep →
    (decide_type tbl rep).2 ≠ "protocol" →
    bf_before f = true →
    (∀ res, ResolveDeviceIdentity (bf_identity f) (br_db s) now (reportMAC rep) (hr_IP rep) networkID = Ok res →
            res_TargetID res = id → res_ReplacedID res = 0) →
    applyDeviceBridge marshal tbl f uuid now rep networkID agentID aliases s = (s', r) →
    quiet_report s s'.

(** The tails of a report do not touch the rows. *)
Lemma tails_keep f now j ip mac networkID agentID (s : bridge_state R) :
  keeps T id (br_db s) → keeps T id (br_db (recordVantage f now j ip mac networkID agentID s)).
Proof.
  intros Hk. unfold recordVantage. destruct (j =? 0); [done|]. cbn [br_db]. destruct networkID as [n|]; [|done].
  destruct (_ && _); [|done]. unfold keeps. by destruct (upsert_rows j n ip agentID now (br_db s)) as [-> ->].
Qed.

Lemma seed_db f j rep0 (s : bridge_state R) : br_db (seed_configs f j rep0 s) = br_db s.
Proof. unfold seed_configs. by destruct (br_heartbeat s). Qed.

Lemma events_db f j networkID agentID b a (s : bridge_state R) :
  br_db (change_events marshal f j networkID agentID b a s).1 = br_db s.
Proof. unfold change_events. repeat case_match; done. Qed.

(** A stored protocol type survives a verdict from elsewhere. *)
Lemma stickiness_holds r t src : protocol_typed T r → src ≠ "protocol" →
  applyTypeStickiness (i_ScanAttributes (row_Info r)) t src = (T, "protocol").
Proof.
  intros (_ & a & Ha & E1 & E2) Hs. unfold applyTypeStickiness. rewrite Ha, E1, E2.
  rewrite decide_False by (intros [?|[?|?]]; set_solver). by rewrite decide_False.
Qed.

Lemma set_field_type k v rep : k ≠ "inferred_type" → k ≠ "inferred_type_source" →
  rep_field (set_field k v rep) "inferred_type" = rep_field rep "inferred_type"
  ∧ rep_field (set_field k v rep) "inferred_type_source" = rep_field rep "inferred_type_source".
Proof. intros H1 H2. unfold rep_field, set_field. cbn. by rewrite !lookup_insert_ne. Qed.

Lemma set_field_wf k v rep : report_wf rep → report_wf (set_field k v rep).
Proof. by intros []. Qed.

(** The types a document takes from the fields. *)
Lemma build_types rep : sa_InferredType (buildScanAttributes rep) = rep_field rep "inferred_type"
  ∧ sa_InferredTypeSource (buildScanAttributes rep) = rep_field rep "inferred_type_source".
Proof. unfold buildScanAttributes. by destruct (serviceArrays rep). Qed.

Lemma existing_keeps f uuid now rep mac t src networkID agentID aliases res (s : bridge_state R) :
  report_wf rep → src ≠ "protocol" → bf_before f = true → (res_TargetID res = id → res_ReplacedID res = 0) →
  keeps T id (br_db s) →
  keeps T id (br_db (bridge_existing marshal f uuid now (set_type t src rep) mac t src networkID agentID aliases res s).1).
Proof.
  intros Hrep Hsrc Hb Hr Hk. unfold bridge_existing. rewrite Hb.
  destruct (match read_row true _ s with Some _ => _ | None => _ end) as [rep1 t1] eqn:E1. cbv zeta.
  set (veto := roam_vetoed _ _ _). set (rep2 := if veto then _ else rep1). set (res2 := if veto then _ else res).
  set (iw := buildIdentityWrite _ _ _ _ _ _ _ _ _).
  assert (names_type T id (br_db s) iw) as Hw.
  { destruct (build_fields marshal rep2 mac t1 (rep_field rep2 "inferred_brand") (rep_field rep2 "inferred_description")
      (rep_field rep2 "inferred_location") networkID res2) as (W1 & _ & _ & _ & _ & W6).
    fold iw in W1, W6. intros r Hrow Hri Hi. rewrite W1 in *.
    assert (res_TargetID res = id) as Hi' by (revert Hi; unfold res2; by destruct veto).
    specialize (Hr Hi'). split; [unfold res2; by destruct veto|]. exists (buildScanAttributes rep2). split; [done|].
    destruct (build_types rep2) as [-> ->]. unfold read_row in E1.
    destruct (get_row (res_TargetID res) (br_db s)) as [b|] eqn:Eb.
    2: { exfalso. by apply (head_filter_None _ _ r Eb); [|congruence]. }
    rewrite decide_True in E1 by done.
    rewrite stickiness_holds in E1 by (done || by eapply get_row_typed). injection E1 as <- <-.
    assert (report_wf rep2 ∧ rep_field rep2 "inferred_type" = T
      ∧ rep_field rep2 "inferred_type_source" = "protocol") as (? & -> & ->); [|by split; [apply buildScanAttributes_wf|]].
    destruct (set_type_field T "protocol" (set_type t src rep)) as [F1 F2].
    unfold rep2. destruct veto; [|by split_and!; [repeat apply set_field_wf|..]]. cbv zeta.
    case_decide; [by split_and!; [repeat apply set_field_wf|..]|].
    split_and!; [by repeat apply set_field_wf| |].
    - by rewrite (proj1 (set_field_type "ip_aliases" _ _ ltac:(done) ltac:(done))).
    - by rewrite (proj2 (set_field_type "ip_aliases" _ _ ltac:(done) ltac:(done))). }
  pose proof (apply_keeps T id HT uuid iw now (br_db s) (fun _ => Hw) Hk) as Ha.
  set (s1 := with_db _ s). pose proof (events_db f (res_TargetID res) networkID agentID
    (snapshot_row marshal <$> read_row true (res_TargetID res) s)
    (snapshot_row marshal <$> read_row (bf_after f) (res_TargetID res) s1) s1) as E2.
  destruct (change_events _ _ _ _ _ _ _ s1) as [s2 changed]. cbn [fst] in *.
  assert (keeps T id (br_db s2)) as H2 by by rewrite E2.
  destruct (deviceHasHeartbeatConfig _ _ _); [|rewrite seed_db]; cbn [reset_failures br_db]; by apply tails_keep.
Qed.

Lemma new_keeps f uuid now rep mac t networkID agentID (s : bridge_state R) :
  keeps T id (br_db s) → keeps T id (br_db (bridge_new marshal f uuid now rep mac t networkID agentID s).1).
Proof.
  intros Hk. unfold bridge_new. set (iw := buildIdentityWrite _ _ _ _ _ _ _ _ _).
  pose proof (apply_keeps T id HT uuid iw now (br_db s)) as Ha. destruct (ApplyDeviceIdentity _ _ _ _) as [db' r].
  assert (keeps T id db') as Hk'.
  { apply Ha; [|done]. destruct (build_fields marshal rep mac t (rep_field rep "inferred_brand")
      (rep_field rep "inferred_description") (rep_field rep "inferred_location") networkID (new_row 0)) as (W1 & _).
    fold iw in W1. by rewrite W1. }
  destruct r as [j|]; [|done]. cbn [fst]. apply tails_keep. by rewrite seed_db.
Qed.

Lemma quiet_keeps s s' : quiet_report s s' → keeps T id (br_db s) → keeps T id (br_db s').
Proof.
  intros Hq Hk. destruct Hq as [f uuid now rep net agentID aliases s s' r Hrep Hsrc Hb Hres Ha].
  change s' with (s', r).1. rewrite <- Ha. clear Ha. unfold applyDeviceBridge.
  destruct (decide_type tbl rep) as [t src]. cbn [snd] in Hsrc. rewrite set_type_mac.
  change (hr_IP (set_type t src rep)) with (hr_IP rep).
  destruct (ResolveDeviceIdentity _ _ _ _ _ _) as [res|] eqn:E; [|done]. specialize (Hres res eq_refl).
  destruct (res_IsNew res).
  - pose proof (new_keeps f uuid now (set_type t src rep) (reportMAC rep) t net agentID s Hk) as Hn. by destruct (bridge_new _ _ _ _ _ _ _ _ _ _).
  - pose proof (existing_keeps f uuid now rep (reportMAC rep) t src net agentID aliases res s Hrep Hsrc Hb Hres Hk) as He.
    by destruct (bridge_existing _ _ _ _ _ _ _ _ _ _ _ _ _).
Qed.

End sticky.

(** C6.  Protocol types stick.  Whatever reports come in (any hosts, networks,
    aliases, faults of the tails), as long as none carries protocol evidence of
    its own or replaces the device, a device whose column and document say [T]
    from a protocol still says so afterwards: a scan in which the probe timed
    out never downgrades it. *)
Theorem protocol_type_sticks marshal tbl {R} `{!ChangeRecorder R} T id (s s' : bridge_state R)
    (HT : T ∉ ["" : string; "unknown"; "other"]) (Hk : keeps T id (br_db s))
    (Hrun : rtc (quiet_report marshal tbl id) s s') :
  keeps T id (br_db s').
Proof. induction Hrun as [|s s1 s' Hstep _ IH]; [done|]. apply IH. by eapply quiet_keeps. Qed.

(** A camera typed over RTSP answers a ping and nothing else. *)
Definition typed_camera : DeviceRow :=
  mkRow 1 "u1" "10.0.0.5" "00:11:22:33:44:55" (Some 7) "online" (Some 10) (Some 100) None (Some 100) 100
    (mkInfo "cam" "camera" "" "" "" "" "[]" "[]" "" "" (MarshalScanAttributes camera_attrs) 0 "[]" "scanner_v2").

Lemma protocol_type_sticks_witness :
  keeps "camera" 1 (br_db (applyDeviceBridge quick_marshal no_rules no_bridge_faults "u9" later
    (sighting "10.0.0.5" "00:11:22:33:44:55") (Some 7) "" [] (bridge_at (mkDeviceDb [typed_camera] 1 []))).1).
Proof.
  apply (protocol_type_sticks quick_marshal no_rules "camera" 1 (bridge_at (mkDeviceDb [typed_camera] 1 []))).
  - refine (bool_decide_unpack _ _). vm_compute. exact I.
  - split; [done|]. intros r ->%list_elem_of_singleton _. split; [done|]. exists camera_attrs. split; [|done].
    vm_compute. reflexivity.
  - apply rtc_once. eapply quiet; [| | | |apply surjective_pairing].
    + split; [apply small_int64; cbn; lia|constructor|constructor].
    + vm_compute. congruence.
    + done.
    + intros res E _. vm_compute in E. by injection E as <-.
Defined.
