(* ===== verification/Wire.v ===== *)
(** The wire between an agent and the center
    (src/internal/service/peer/reporter.go [HostToReported],
    internal/domain/agent_report.go, runner/report_convert.go
    [ReportedHostToReport]) and the extractors both sides share
    (scannerv2/orchestrator.go).

    Evidence is given by its kind, port and raw data: the labels of its origin
    ([Source], [Protocol], [Confidence]) are written for display and read by
    nothing modelled here.  The reported record is taken as it is decoded. *)

From S2P Require Import Prelude NetAddr Cidr Report DeviceStore StoreRecords.

Open Scope Z_scope.

(** * Extractors *)

Definition raw (e : Evidence) (k : string) : string := default "" (e_RawData e !! k).

(** A number that does not parse is 0. *)
Definition number (s : string) : Z := default 0 (atoi s).

Definition interface_of (e : Evidence) : option InterfaceSpec :=
  if decide (e_Kind e = "interface") then
    match atoi (raw e "if_index") with
    | Some idx => if idx <=? 0 then None
                  else Some (mkInterface idx (raw e "if_name") (raw e "if_descr") (raw e "mac") (raw e "ip")
                               (number (raw e "speed_mbps")))
    | None => None
    end
  else None.

Definition ExtractInterfaces (evidence : list Evidence) : list InterfaceSpec := omap interface_of evidence.

Definition route_of (e : Evidence) : option RouteSpec :=
  if decide (e_Kind e = "route") then
    if decide (raw e "dest" = "" ∨ raw e "next_hop" = "") then None
    else Some (mkRoute (raw e "dest") (raw e "next_hop") (number (raw e "if_index")) (raw e "proto"))
  else None.

Definition ExtractRoutes (evidence : list Evidence) : list RouteSpec := omap route_of evidence.

(** The first row of each neighbour and protocol. *)
Definition neighbor_of (e : Evidence) : option NeighborSpec :=
  if decide (e_Kind e = "neighbor") then
    if decide (raw e "neighbor_mac" = "" ∨ raw e "protocol" = "") then None
    else Some (mkNeighbor (raw e "neighbor_mac") (raw e "protocol") (raw e "local_port") (raw e "remote_port")
                 (raw e "vlan_tag"))
  else None.

(** [seen] in the order of first occurrence. *)
Fixpoint first_by {A} (key : A → string) (seen : list string) (l : list A) : list A :=
  match l with
  | [] => []
  | x :: l => if decide (key x ∈ seen) then first_by key seen l else x :: first_by key (key x :: seen) l
  end.

Definition neighbor_key (n : NeighborSpec) : string := ns_NeighborMAC n +:+ "|" +:+ ns_Protocol n.

Definition ExtractNeighbors (evidence : list Evidence) : list NeighborSpec :=
  first_by neighbor_key [] (omap neighbor_of evidence).

(** * The reported record *)

Record ReportedService := mkReportedService {
  rs_Service : string;
  rs_Port : Z;
  rs_Protocol : string;
  rs_Metadata : gmap string string
}.

Record ReportedInterface := mkReportedInterface {
  ri_IfIndex : Z;
  ri_IfName : string;
  ri_IfDescr : string;
  ri_MAC : string;
  ri_IP : string;
  ri_SpeedMbps : Z
}.

Record ReportedRoute := mkReportedRoute {
  rr_DestCIDR : string;
  rr_NextHop : string;
  rr_IfIndex : Z;
  rr_Proto : string
}.

Record ReportedNeighbor := mkReportedNeighbor {
  rn_NeighborMAC : string;
  rn_Protocol : string;
  rn_LocalPort : string;
  rn_RemotePort : string;
  rn_VLANTag : string;
  rn_SysName : string;
  rn_SysDesc : string
}.

(** Of the SNMP member only the sysName is read. *)
Record ReportedHost := mkReportedHost {
  rh_IP : string;
  rh_Alive : bool;
  rh_RTTMs : Z;
  rh_MAC : string;
  rh_InferredType : string;
  rh_InferredTypeSource : string;
  rh_InferredBrand : string;
  rh_InferredModel : string;
  rh_InferredDescription : string;
  rh_InferredLocation : string;
  rh_Hostname : string;
  rh_OpenPorts : string;
  rh_DetectedServices : string;
  rh_PrometheusURL : string;
  rh_NodeExporterURL : string;
  rh_Services : list ReportedService;
  rh_Heartbeats : list HeartbeatSpec;
  rh_SNMPSysName : option string;
  rh_Interfaces : list ReportedInterface;
  rh_Routes : list ReportedRoute;
  rh_Neighbors : list ReportedNeighbor
}.

(** * The agent's side *)

(** The MAC as it was reported: the field, else the first MAC evidence. *)
Definition wire_mac (rep : HostReport) : string :=
  if decide (rep_field rep "mac" = "") then
    match List.find (fun e => bool_decide (e_Kind e = "mac") && negb (bool_decide (raw e "mac" = ""))) (hr_Evidence rep) with
    | Some e => raw e "mac"
    | None => ""
    end
  else rep_field rep "mac".

Definition reported_interface (e : Evidence) : option ReportedInterface :=
  if decide (e_Kind e = "interface") then
    let idx := number (raw e "if_index") in
    if idx <=? 0 then None
    else Some (mkReportedInterface idx (raw e "if_name") (raw e "if_descr") (raw e "mac") (raw e "ip")
                 (number (raw e "speed_mbps")))
  else None.

Definition reported_route (e : Evidence) : option ReportedRoute :=
  if decide (e_Kind e = "route") then
    if decide (raw e "dest" = "" ∨ raw e "next_hop" = "") then None
    else Some (mkReportedRoute (raw e "dest") (raw e "next_hop") (number (raw e "if_index")) (raw e "proto"))
  else None.

Definition reported_neighbor (e : Evidence) : option ReportedNeighbor :=
  if decide (e_Kind e = "neighbor") then
    let mac := NormalizeMAC (raw e "neighbor_mac") in
    if decide (mac = "" ∨ raw e "protocol" = "") then None
    else Some (mkReportedNeighbor mac (raw e "protocol") (raw e "local_port") (raw e "remote_port") (raw e "vlan_tag")
                 (raw e "sys_name") (raw e "sys_desc"))
  else None.

Definition reported_neighbor_key (n : ReportedNeighbor) : string := rn_NeighborMAC n +:+ "|" +:+ rn_Protocol n.

Definition HostToReported (rep : HostReport) : ReportedHost :=
  let f := rep_field rep in
  mkReportedHost (hr_IP rep) (hr_Alive rep) (hr_RTTMs rep) (wire_mac rep)
    (f "inferred_type") (f "inferred_type_source") (f "inferred_brand") (f "inferred_model") (f "inferred_description")
    (f "inferred_location") (if decide (f "node_hostname" = "") then f "sys_name" else f "node_hostname")
    (f "open_ports") (f "detected_services") (f "prometheus_url") (f "node_exporter_url")
    ((fun s => mkReportedService (s_Service s) (s_Port s) (s_Protocol s) (s_Metadata s)) <$> hr_Services rep)
    (hr_Heartbeats rep) None (omap reported_interface (hr_Evidence rep)) (omap reported_route (hr_Evidence rep))
    (first_by reported_neighbor_key [] (omap reported_neighbor (hr_Evidence rep))).

(** * The center's side *)

Definition IsJunkBrand (brand : string) : bool :=
  bool_decide (to_lower brand ∈ WebServerBrandNames) || forall_string (fun a => negb (is_letter a)) brand.

(** The operating system of the first service that names one. *)
Definition service_os (services : list ReportedService) : string :=
  match List.find (fun s => negb (bool_decide (default "" (rs_Metadata s !! "os_type") = ""))) services with
  | Some s => default "" (rs_Metadata s !! "os_type")
  | None => ""
  end.

Definition plausible_or_empty (s : string) : string := if PlausibleHostname s then s else "".

(** The fields of the rebuilt report; [sys_name] and [os_type] are set only
    when they are known. *)
Definition wire_fields (h : ReportedHost) : gmap string string :=
  let sysName := plausible_or_empty (default "" (rh_SNMPSysName h)) in
  let os := service_os (rh_Services h) in
  let fields : gmap string string := list_to_map
    [("inferred_type", rh_InferredType h); ("inferred_type_source", rh_InferredTypeSource h);
     ("inferred_model", rh_InferredModel h); ("inferred_description", rh_InferredDescription h);
     ("inferred_location", rh_InferredLocation h); ("node_hostname", plausible_or_empty (rh_Hostname h));
     ("mac", NormalizeMAC (rh_MAC h)); ("open_ports", rh_OpenPorts h); ("detected_services", rh_DetectedServices h);
     ("prometheus_url", rh_PrometheusURL h); ("node_exporter_url", rh_NodeExporterURL h);
     ("inferred_brand", if IsJunkBrand (rh_InferredBrand h) then "" else rh_InferredBrand h)] in
  let fields := if decide (sysName = "") then fields else <["sys_name" := sysName]> fields in
  if decide (os = "") then fields else <["os_type" := os]> fields.

Definition mac_evidence (mac : string) : list Evidence :=
  if decide (mac = "") then [] else [mkEvidence "mac" 0 {["mac" := mac]}].

Definition interface_evidence (i : ReportedInterface) : option Evidence :=
  if ri_IfIndex i <=? 0 then None
  else Some (mkEvidence "interface" 0 (list_to_map
    [("if_index", itoa (ri_IfIndex i)); ("if_name", ri_IfName i); ("if_descr", ri_IfDescr i); ("mac", ri_MAC i);
     ("ip", ri_IP i); ("speed_mbps", itoa (ri_SpeedMbps i))])).

Definition route_evidence (r : ReportedRoute) : option Evidence :=
  if decide (rr_DestCIDR r = "" ∨ rr_NextHop r = "") then None
  else Some (mkEvidence "route" 0 (list_to_map
    [("dest", rr_DestCIDR r); ("next_hop", rr_NextHop r); ("if_index", itoa (rr_IfIndex r)); ("proto", rr_Proto r)])).

(** Optional members are left out when empty. *)
Definition neighbor_evidence (n : ReportedNeighbor) : option Evidence :=
  let mac := NormalizeMAC (rn_NeighborMAC n) in
  if decide (mac = "" ∨ rn_Protocol n = "") then None
  else Some (mkEvidence "neighbor" 0 (list_to_map ([("neighbor_mac", mac); ("protocol", rn_Protocol n)]
    ++ filter (fun kv => kv.2 ≠ "")
         [("local_port", rn_LocalPort n); ("remote_port", rn_RemotePort n); ("vlan_tag", rn_VLANTag n);
          ("sys_name", rn_SysName n); ("sys_desc", rn_SysDesc n)]))).

Definition ReportedHostToReport (h : ReportedHost) : HostReport :=
  mkReport (rh_IP h) (rh_Alive h) (rh_RTTMs h) (wire_fields h)
    (mac_evidence (NormalizeMAC (rh_MAC h)) ++ omap interface_evidence (rh_Interfaces h)
     ++ omap route_evidence (rh_Routes h) ++ omap neighbor_evidence (rh_Neighbors h))
    ((fun s => mkService (rs_Service s) (rs_Port s) (rs_Protocol s) 0 (rs_Metadata s)) <$> rh_Services h)
    (rh_Heartbeats h) false.
