(* ===== verification/WireSpec.v ===== *)
(** The wire preserves what the center needs: a report sent by an agent and
    rebuilt at the center has the same identity, services, probes, interfaces,
    routes and neighbours. *)

From S2P Require Import Prelude NetAddr Cidr Report DeviceStore Attributes AttributesSpec StoreRecords Wire.

Open Scope Z_scope.

(** * Canonical MAC addresses *)









(** * Raw data *)
















(** ** First occurrences *)



(** * Reports *)



Section wire.
Context (rep : HostReport).
Notation h := (HostToReported rep).
Notation rep' := (ReportedHostToReport h).






(** ** Identity *)





(** ** Fields *)



End wire.




(** A MAC field that is not a MAC hides the evidence behind it from the
    center, which the agent's own lookup would have used. *)
Example bad_field_hides_evidence :
  let rep := mkReport "10.0.0.1" true 0 {["mac" := "unknown"]} [mkEvidence "mac" 0 {["mac" := "aa:bb:cc:00:11:22"]}] [] [] false in
  reportMAC rep = "aa:bb:cc:00:11:22" ∧ reportMAC (ReportedHostToReport (HostToReported rep)) = "".
Proof. vm_compute. done. Qed.
