(* ===== verification/Topology.v ===== *)
(** The topology edges of a network
    (src/internal/service/scannerv2/runner/topology_edges.go): neighbour rows
    whose remote MAC is that of a known device become device-to-device edges.

    The SELECT has no ORDER BY; its rows come in the order of the neighbour
    table, devices in row order within.  The route edges of the store
    ([StoreRecords.upsert_route]) live in the same table. *)

From S2P Require Import Prelude Db DeviceStore StoreRecords.

Open Scope Z_scope.

(** The edge type and the confidence in thousandths. *)
Definition edgeSemantics (protocol : string) : string * Z :=
  if decide (protocol = "LLDP") then ("l2", 850)
  else if decide (protocol = "CDP") then ("l2", 800)
  else if decide (protocol = "Bridge-MIB" ∨ protocol = "Q-BRIDGE-MIB") then ("l2", 800)
  else if decide (protocol = "ARP") then ("l3", 500)
  else if decide (protocol = "WiFi") then ("wireless", 900)
  else ("l2", 600).

Definition edgeMetadata (localPort remotePort protocol : string) : gmap string string :=
  list_to_map (filter (fun kv => kv.2 ≠ "")
    [("local_port", localPort); ("remote_port", remotePort); ("protocol", protocol)]).

Record candidate := mkCandidate {
  ca_fromID : Z;
  ca_toID : Z;
  ca_protocol : string;
  ca_localPort : string;
  ca_remotePort : string
}.

(** [device_neighbors JOIN devices]. *)
Definition candidates (netID : Z) (db : device_db) (t : neighbor_table) : list candidate :=
  '(from, mac, protocol, n) ← map_to_list t;
  if decide (nr_Network n = Some netID) then
    (fun d => mkCandidate from (row_ID d) protocol (nr_LocalPort n) (nr_RemotePort n))
      <$> filter (fun d => row_MAC d = mac ∧ row_ID d ≠ from) (dd_rows db)
  else [].

Definition edge_key (c : candidate) : Z * Z * string := (ca_fromID c, ca_toID c, (edgeSemantics (ca_protocol c)).1).

Definition upsert_edge (now : Z) (t : edge_table) (c : candidate) : edge_table :=
  let conf := (edgeSemantics (ca_protocol c)).2 in
  let meta := edgeMetadata (ca_localPort c) (ca_remotePort c) (ca_protocol c) in
  <[edge_key c :=
      match t !! edge_key c with
      | Some old =>
          mkEdge (overwrite (ed_ViaProtocol old) (ca_protocol c))
            (if ed_Confidence old <? conf then conf else ed_Confidence old)
            (if decide (meta = ∅) then ed_Metadata old else meta) (ed_FirstSeen old) (GoTime now)
      | None => mkEdge (ca_protocol c) conf meta (GoTime now) (GoTime now)
      end]> t.

Definition DeriveTopologyEdges (networkID : option Z) (now : Z) (db : device_db) (neighbors : neighbor_table)
    (t : edge_table) : edge_table :=
  match networkID with
  | None => t
  | Some netID => fold_left (upsert_edge now) (candidates netID db neighbors) t
  end.

(** * Properties *)

Lemma upsert_edge_lookup now t c k :
  is_Some (upsert_edge now t c !! k) ↔ is_Some (t !! k) ∨ k = edge_key c.
Proof.
  unfold upsert_edge, edge_table in *. cbv zeta. destruct (decide (k = edge_key c)) as [->|H].
  - rewrite lookup_insert_eq. split; [by right|done].
  - rewrite lookup_insert_ne by done. naive_solver.
Qed.

Lemma fold_edges_lookup now cs t k :
  is_Some (fold_left (upsert_edge now) cs t !! k) ↔ is_Some (t !! k) ∨ k ∈ edge_key <$> cs.
Proof.
  revert t. induction cs as [|c cs IH]; intros t; cbn [fold_left fmap list_fmap]; [set_solver|].
  rewrite IH, upsert_edge_lookup, elem_of_cons. tauto.
Qed.

Lemma elem_of_candidates netID db t c :
  c ∈ candidates netID db t ↔
  ∃ mac n d, t !! (ca_fromID c, mac, ca_protocol c) = Some n ∧ nr_Network n = Some netID ∧ d ∈ dd_rows db
    ∧ row_MAC d = mac ∧ row_ID d = ca_toID c ∧ ca_fromID c ≠ ca_toID c
    ∧ ca_localPort c = nr_LocalPort n ∧ ca_remotePort c = nr_RemotePort n.
Proof.
  unfold candidates. rewrite list_elem_of_bind. split.
  - intros ([[[from mac] protocol] n] & Hc & Hn%elem_of_map_to_list). case_decide as E; [|set_solver].
    apply list_elem_of_fmap in Hc as (d & -> & [[Hm Hi] Hd]%list_elem_of_filter). cbn.
    exists mac, n, d. naive_solver.
  - intros (mac & n & d & Hn & Hnet & Hd & Hm & Hi & Hne & Hl & Hr).
    exists (ca_fromID c, mac, ca_protocol c, n). rewrite decide_True by done. split; [|by apply elem_of_map_to_list].
    apply list_elem_of_fmap. exists d. split; [destruct c; cbn in *; congruence|].
    apply list_elem_of_filter. split; [split; congruence|done].
Qed.
