(* ===== verification/AgentReport.v ===== *)
(** Ingestion of agent reports at the center
    (src/internal/api/handler/agent_report.go with [ApplyReport] and the result
    serializers of scannerv2/runner/runner.go): the boundary check, the
    anti-entropy fast path, the bridge per host, the lease refresh, and the
    bookkeeping of the pending run.

    The devices table is the one of the store; the lease refresh works on the
    view of it that [Lease] defines.  The clock is read once per report.  Of a
    host list, the [i]-th call of the bridge has its own faults and the uuid it
    would create a row with. *)

From S2P Require Import Prelude NetAddr Cidr Db Report ChangeDetect Lease HeartbeatStore Heartbeat.
From S2P Require Import AgentCommand DeviceStore Attributes DeviceType StoreRecords ScanAttributes DeviceBridge.
From S2P Require Import Wire Topology.
From stdpp Require sorting.

Open Scope Z_scope.

(** * Data *)

Record AgentReport := mkAgentReport {
  ar_NetworkCIDR : string;
  ar_ScannedAt : Z;
  ar_Meta : option AgentMeta;
  ar_Hosts : list ReportedHost;
  ar_Origin : string
}.

Record reportAck := mkAck {
  ack_Accepted : Z;
  ack_Added : Z;
  ack_Updated : Z;
  ack_Skipped : Z;
  ack_OutOfNetwork : Z;
  ack_Stable : bool;
  ack_Reconciled : Z
}.

Inductive report_response :=
| ReportError (status : Z) (message : string)
| ReportSuccess (ack : reportAck).

(** Of the tasks only their network is read here. *)
Record ScanTaskRun := mkTaskRun {
  run_ID : Z;
  run_TaskID : Z;
  run_Status : string;
  run_TotalHosts : Z;
  run_AliveHosts : Z;
  run_NewHosts : Z;
  run_UpdatedHosts : Z;
  run_DurationMs : Z;
  run_ErrorMessage : string;
  run_StartedAt : option Z;
  run_FinishedAt : option Z
}.

Record ScanResult := mkScanResult {
  sr_RunID : Z;
  sr_Alive : Z;
  sr_RttMs : Z;
  sr_Ports : string;
  sr_Services : string;
  sr_SnmpData : string;
  sr_PrometheusDetected : Z;
  sr_PrometheusUrl : string;
  sr_NodeExporterDetected : Z;
  sr_NodeExporterUrl : string;
  sr_NodeExporterData : string
}.

(** The tables and the maps of the handler; [ce_tasks] maps a task to its
    network, [ce_results] is keyed by task and address. *)
Record center (R : Type) := mkCenter {
  ce_bridge : bridge_state R;
  ce_repo : SQLiteRepository;
  ce_neighbors : neighbor_table;
  ce_interfaces : interface_table;
  ce_edges : edge_table;
  ce_snapshots : list ScanSnapshot;
  ce_nextSnapshotID : Z;
  ce_networks : list Network;
  ce_status : gmap string AgentStatus;
  ce_tasks : gmap Z (option Z);
  ce_runs : list ScanTaskRun;
  ce_results : gmap (Z * string) ScanResult;
  ce_lastHash : gmap Z string;
  ce_lastHashAt : gmap Z Z;
  ce_cidrCache : gmap Z (option IPNet)
}.
Arguments mkCenter {R} _ _ _ _ _ _ _ _ _ _ _ _ _ _ _.
Arguments ce_bridge {R} _.
Arguments ce_repo {R} _.
Arguments ce_neighbors {R} _.
Arguments ce_interfaces {R} _.
Arguments ce_edges {R} _.
Arguments ce_snapshots {R} _.
Arguments ce_nextSnapshotID {R} _.
Arguments ce_networks {R} _.
Arguments ce_status {R} _.
Arguments ce_tasks {R} _.
Arguments ce_runs {R} _.
Arguments ce_results {R} _.
Arguments ce_lastHash {R} _.
Arguments ce_lastHashAt {R} _.
Arguments ce_cidrCache {R} _.

(** Which statements of a report succeed.  [rf_bridge] is per bridged host,
    [rf_heal] per healed one. *)
Record report_faults := mkReportFaults {
  rf_status : bool;
  rf_backfill_read : bool;
  rf_backfill_write : bool;
  rf_network : bool;
  rf_bridge : nat → bridge_faults;
  rf_lease : stmt → bool;
  rf_edges : bool;
  rf_run : bool;
  rf_result : string → bool;
  rf_close_read : bool;
  rf_close_write : bool;
  rf_service_state : bool;
  rf_heal : nat → bridge_faults
}.

(** * The serialized fields of a scan result *)

(** A number of thousandths as [encoding/json] prints the float. *)
Definition decimal (z : Z) : string :=
  let frac := z `mod` 1000 in
  let digits := if frac `mod` 100 =? 0 then itoa (frac / 100)
                else if frac `mod` 10 =? 0 then (if frac <? 100 then "0" else "") +:+ itoa (frac / 10)
                else (if frac <? 10 then "00" else if frac <? 100 then "0" else "") +:+ itoa frac in
  itoa (z / 1000) +:+ (if frac =? 0 then "" else "." +:+ digits).

Definition string_object (m : gmap string string) : json :=
  JObject ((fun kv => (kv.1, JString kv.2)) <$> map_to_list m).

(** Later services of the same name and port replace earlier ones. *)
Definition services_object (services : list ServiceIdentity) : gmap string json :=
  fold_left (fun m s =>
    <[s_Service s +:+ "/" +:+ itoa (s_Port s) :=
        JObject [("confidence", JNumber (decimal (s_Confidence s))); ("metadata", string_object (s_Metadata s))]]> m)
    services ∅.

(** Nothing found is the nil slice, which is encoded as null. *)
Definition uniqueOpenPorts (evs : list Evidence) : json :=
  match open_ports evs with
  | [] => JNull
  | l => JArray ((fun p => JNumber (itoa p)) <$> l)
  end.

Section json.
Context (marshal : json → string).

Definition ReportJSONFields (rep : HostReport) : string * string * string :=
  (if decide (hr_Evidence rep = []) then "[]" else marshal (uniqueOpenPorts (hr_Evidence rep)),
   if decide (hr_Services rep = []) then "{}" else marshal (JObject (map_to_list (services_object (hr_Services rep)))),
   match snmp_evidence rep with Some e => marshal (string_object (e_RawData e)) | None => "{}" end).

Definition ReportPromFields (rep : HostReport) : string * string * string :=
  let neURL := rep_field rep "node_exporter_url" in
  (rep_field rep "prometheus_url", neURL,
   if decide (neURL = "") then ""
   else marshal (string_object (list_to_map (("metrics_url", neURL)
          :: filter (fun kv => kv.2 ≠ "")
               ((fun k => (k, rep_field rep k)) <$> ["kernel_version"; "os_type"; "memory_total_bytes"; "cpu_count"]))))).

End json.

(** * The boundary *)

Section handler.
Context (marshal : json → string) (tbl : typeRuleTable).
Context {R : Type} `{!ChangeRecorder R}.

Notation ce := (center R).

Definition with_cidr (networks : list Network) (cache : gmap Z (option IPNet)) (c : ce) : ce :=
  mkCenter (ce_bridge c) (ce_repo c) (ce_neighbors c) (ce_interfaces c) (ce_edges c) (ce_snapshots c)
    (ce_nextSnapshotID c) networks (ce_status c) (ce_tasks c) (ce_runs c) (ce_results c) (ce_lastHash c)
    (ce_lastHashAt c) cache.

Definition GetNetwork (id : Z) (networks : list Network) : option Network :=
  head (filter (fun n => net_ID n = id) networks).

(** A lookup that fails is not cached; no usable CIDR is. *)
Definition resolveNetworkCIDR (ok : bool) (networkID : Z) (c : ce) : ce * option IPNet :=
  match ce_cidrCache c !! networkID with
  | Some cached => (c, cached)
  | None =>
      match (if ok then GetNetwork networkID (ce_networks c) else None) with
      | None => (c, None)
      | Some row =>
          let ipNet := match ParseNetwork (default "" (net_Cidr row)) with Ok n => Some n | Err _ => None end in
          (with_cidr (ce_networks c) (<[networkID := ipNet]> (ce_cidrCache c)) c, ipNet)
      end
  end.

Definition no_cidr (n : Network) : bool := bool_decide (default "" (net_Cidr n) = "").

Definition maybeBackfillNetworkCIDR (f : report_faults) (networkID : Z) (reported : string) (c : ce) : ce :=
  match ParseNetwork reported, (if rf_backfill_read f then GetNetwork networkID (ce_networks c) else None) with
  | Ok _, Some row =>
      if no_cidr row && rf_backfill_write f then
        with_cidr ((fun n => if (net_ID n =? networkID) && no_cidr n
                             then mkNetwork (net_ID n) (net_Name n) (Some reported) (net_AgentID n) else n)
                     <$> ce_networks c)
          (delete networkID (ce_cidrCache c)) c
      else c
  | _, _ => c
  end.

Definition usable (h : ReportedHost) : bool := rh_Alive h && negb (bool_decide (rh_IP h = "")).

Definition inside (boundary : option IPNet) (h : ReportedHost) : bool :=
  match boundary with Some _ => ContainsIP boundary (rh_IP h) | None => true end.

(** The hosts inside the network, and how many the boundary refused. *)
Definition partition_hosts (boundary : option IPNet) (hosts : list ReportedHost) : list ReportedHost * Z :=
  let alive := List.filter usable hosts in
  (List.filter (inside boundary) alive, Z.of_nat (length (List.filter (fun h => negb (inside boundary h)) alive))).

Definition filterInNetwork (ok : bool) (networkID : Z) (hosts : list ReportedHost) (c : ce)
    : ce * (list ReportedHost * Z) :=
  let '(c, boundary) := resolveNetworkCIDR ok networkID c in (c, partition_hosts boundary hosts).

(** The CIDR an agent claims, else the one of its first primary interface. *)
Definition reported_cidr (rep : AgentReport) : string :=
  if decide (ar_NetworkCIDR rep = "") then
    match ar_Meta rep with
    | None => ""
    | Some m =>
        match List.find (fun si => si_Primary si && negb (bool_decide (si_CIDR si = ""))) (am_SelfInterfaces m) with
        | Some si => si_CIDR si
        | None => ""
        end
    end
  else ar_NetworkCIDR rep.

(** * Leases *)

Definition device_view (r : DeviceRow) : Device :=
  let i := row_Info r in
  mkDevice (row_ID r) (row_UUID r) (i_Name i) (i_Type i) (i_Brand i) (i_Model i) (row_Status r) (row_IP r) (row_MAC r)
    (i_ScanSource i) (i_OpenPorts i) (i_DetectedServices i) (i_PrometheusURL i) (i_NodeExporterURL i)
    (marshal (JObject (i_ScanAttributes i))) (row_Network r) (row_LastSeen r) (row_LastScannedAt r) (row_OfflineSince r)
    (row_UpdatedAt r).

Definition lease_store (now : Z) (c : ce) : store R (HeartbeatService * Z) :=
  mkStore (device_view <$> dd_rows (br_db (ce_bridge c))) (ce_snapshots c) (ce_networks c) (ce_nextSnapshotID c)
    (br_recorder (ce_bridge c)) ((fun h => (h, now)) <$> br_heartbeat (ce_bridge c)).

(** The refresh writes no device column but [last_seen]. *)
Definition stamp_seen (r : DeviceRow) (d : Device) : DeviceRow :=
  mkRow (row_ID r) (row_UUID r) (row_IP r) (row_MAC r) (row_Network r) (row_Status r) (row_FirstSeen r) (dev_LastSeen d)
    (row_OfflineSince r) (row_LastScannedAt r) (row_UpdatedAt r) (row_Info r).

Definition with_leases (s : store R (HeartbeatService * Z)) (c : ce) : ce :=
  let b := ce_bridge c in
  mkCenter
    (mkBridge (set_rows (br_db b) (zip_with stamp_seen (dd_rows (br_db b)) (st_devices s))) (br_sightings b) (br_configs b)
       (fst <$> st_heartbeat s) (st_changeRecorder s))
    (ce_repo c) (ce_neighbors c) (ce_interfaces c) (ce_edges c) (st_snapshots s) (st_nextSnapshotID s) (ce_networks c)
    (ce_status c) (ce_tasks c) (ce_runs c) (ce_results c) (ce_lastHash c) (ce_lastHashAt c) (ce_cidrCache c).

Definition hostReportsForLease (hosts : list ReportedHost) : list HostReport :=
  ReportedHostToReport <$> List.filter usable hosts.

Definition refresh_leases (f : report_faults) (networkID now : Z) (hosts : list ReportedHost) (c : ce) : ce :=
  with_leases (RecordAliveSnapshots (rf_lease f) (lease_store now c) (Some networkID) 0 now (hostReportsForLease hosts)).1 c.

(** * The bridge per host *)

Definition with_bridge (b : bridge_state R) (c : ce) : ce :=
  mkCenter b (ce_repo c) (ce_neighbors c) (ce_interfaces c) (ce_edges c) (ce_snapshots c) (ce_nextSnapshotID c)
    (ce_networks c) (ce_status c) (ce_tasks c) (ce_runs c) (ce_results c) (ce_lastHash c) (ce_lastHashAt c)
    (ce_cidrCache c).

Definition with_topology (n : neighbor_table) (i : interface_table) (e : edge_table) (c : ce) : ce :=
  mkCenter (ce_bridge c) (ce_repo c) n i e (ce_snapshots c) (ce_nextSnapshotID c) (ce_networks c) (ce_status c)
    (ce_tasks c) (ce_runs c) (ce_results c) (ce_lastHash c) (ce_lastHashAt c) (ce_cidrCache c).

(** The bridge, then the neighbours, interfaces and routes of the report. *)
Definition ApplyReport (f : bridge_faults) (uuid : string) (now : Z) (rep : HostReport) (networkID : option Z)
    (agentID : string) (batchAliases : list string) (c : ce) : ce * (bool * bool) :=
  let '(b, res) := applyDeviceBridge marshal tbl f uuid now rep networkID agentID batchAliases (ce_bridge c) in
  let db := br_db b in
  let ev := hr_Evidence rep in
  (with_topology
     (RecordNeighbors (ce_repo c) (hr_IP rep) agentID now (ExtractNeighbors ev) db (ce_neighbors c))
     (RecordInterfaces (ce_repo c) (hr_IP rep) now (ExtractInterfaces ev) db (ce_interfaces c))
     (RecordRoutes (ce_repo c) (hr_IP rep) now (ExtractRoutes ev) db (ce_edges c)) (with_bridge b c), res).

(** The other addresses at which the batch has the MAC of a host. *)
Definition batch_aliases (hosts : list ReportedHost) (h : ReportedHost) : list string :=
  let mac := NormalizeMAC (rh_MAC h) in
  if decide (mac = "") then []
  else elements (list_to_set (C := gset string)
         (rh_IP <$> filter (fun o => NormalizeMAC (rh_MAC o) = mac ∧ rh_IP o ≠ "" ∧ rh_IP o ≠ rh_IP h) hosts)).

Definition mark_passive (passive : bool) (rep : HostReport) : HostReport :=
  mkReport (hr_IP rep) (hr_Alive rep) (hr_RTTMs rep) (hr_DeviceFields rep) (hr_Evidence rep) (hr_Services rep)
    (hr_Heartbeats rep) passive.

Record tally := mkTally { ta_added : Z; ta_updated : Z }.

Definition count (res : bool * bool) (t : tally) : tally :=
  if res.1 then mkTally (ta_added t + 1) (ta_updated t)
  else if res.2 then mkTally (ta_added t) (ta_updated t + 1) else t.

(** [i] counts the hosts done; [batch] are all of them. *)
Fixpoint apply_hosts (f : report_faults) (uuid : nat → string) (now networkID : Z) (agentID : string) (passive : bool)
    (batch : list ReportedHost) (i : nat) (hosts : list ReportedHost) (c : ce) (t : tally) : ce * tally :=
  match hosts with
  | [] => (c, t)
  | h :: hosts =>
      let '(c, res) := ApplyReport (rf_bridge f i) (uuid i) now (mark_passive passive (ReportedHostToReport h))
                         (Some networkID) agentID (batch_aliases batch h) c in
      apply_hosts f uuid now networkID agentID passive batch (S i) hosts c (count res t)
  end.

(** * The stable path *)

Definition blank_column (s : string) : bool := bool_decide (s = "") || bool_decide (s = "[]").

Definition carries (h : ReportedHost) : bool :=
  negb (bool_decide (rh_Services h = [])) || negb (blank_column (rh_OpenPorts h))
  || negb (blank_column (rh_DetectedServices h)).

(** The rows of a network come ordered by address, which is unique there. *)
Definition wiped (networkID : Z) (db : device_db) (ip : string) : bool :=
  match head (filter (fun r => row_IP r = ip ∧ row_Network r = Some networkID) (dd_rows db)) with
  | Some r => blank_column (i_OpenPorts (row_Info r)) && blank_column (i_DetectedServices (row_Info r))
  | None => false
  end.

Fixpoint heal_hosts (f : report_faults) (uuid : nat → string) (now networkID : Z) (agentID : string) (db : device_db)
    (i : nat) (hosts : list ReportedHost) (c : ce) (healed : Z) : ce * Z :=
  match hosts with
  | [] => (c, healed)
  | h :: hosts =>
      if wiped networkID db (rh_IP h) then
        let '(c, _) := ApplyReport (rf_heal f i) (uuid i) now (ReportedHostToReport h) (Some networkID) agentID [] c in
        heal_hosts f uuid now networkID agentID db (S i) hosts c (healed + 1)
      else heal_hosts f uuid now networkID agentID db (S i) hosts c healed
  end.

Definition reconcileWipedServices (f : report_faults) (uuid : nat → string) (now networkID : Z) (agentID : string)
    (hosts : list ReportedHost) (c : ce) : ce * Z :=
  if rf_service_state f
  then heal_hosts f uuid now networkID agentID (br_db (ce_bridge c)) 0 (List.filter carries hosts) c 0
  else (c, 0).

(** * Runs *)

(** ORDER BY started_at LIMIT 1: NULL sorts first. *)
Definition started_before (a b : option Z) : bool :=
  match a, b with
  | None, Some _ => true
  | Some x, Some y => x <? y
  | _, None => false
  end.

Definition earliest (runs : list ScanTaskRun) : option ScanTaskRun :=
  fold_left (fun acc r => match acc with
                          | None => Some r
                          | Some b => if started_before (run_StartedAt r) (run_StartedAt b) then Some r else Some b
                          end) runs None.

Definition pending_run (networkID : Z) (c : ce) : option ScanTaskRun :=
  earliest (filter (fun r => run_Status r = "running" ∧ ce_tasks c !! run_TaskID r = Some (Some networkID)) (ce_runs c)).

Definition with_runs (runs : list ScanTaskRun) (results : gmap (Z * string) ScanResult) (c : ce) : ce :=
  mkCenter (ce_bridge c) (ce_repo c) (ce_neighbors c) (ce_interfaces c) (ce_edges c) (ce_snapshots c)
    (ce_nextSnapshotID c) (ce_networks c) (ce_status c) (ce_tasks c) runs results (ce_lastHash c) (ce_lastHashAt c)
    (ce_cidrCache c).

Definition boolToInt (b : bool) : Z := if b then 1 else 0.

Definition scan_result (runID : Z) (rep : HostReport) : ScanResult :=
  let '(ports, services, snmp) := ReportJSONFields marshal rep in
  let '(promURL, neURL, neData) := ReportPromFields marshal rep in
  mkScanResult runID 1 (hr_RTTMs rep) ports services snmp (boolToInt (negb (bool_decide (promURL = "")))) promURL
    (boolToInt (negb (bool_decide (neURL = "")))) neURL neData.

Definition recordAgentScanResults (f : report_faults) (networkID : Z) (hosts : list ReportedHost) (c : ce) : ce :=
  match (if rf_run f then pending_run networkID c else None) with
  | None => c
  | Some run =>
      with_runs (ce_runs c)
        (fold_left (fun t h =>
             let rep := ReportedHostToReport h in
             if usable h && rf_result f (rh_IP h)
             then <[(run_TaskID run, hr_IP rep) := scan_result (run_ID run) rep]> t else t) hosts (ce_results c)) c
  end.

(** A run without a start time does not scan into a [time.Time]. *)
Definition backfillAgentRunStats (f : report_faults) (now networkID alive added updated : Z) (c : ce) : ce :=
  match (if rf_close_read f then pending_run networkID c else None) with
  | Some run =>
      match run_StartedAt run with
      | Some started =>
          if rf_close_write f then
            with_runs ((fun r => if run_ID r =? run_ID run
                                 then mkTaskRun (run_ID r) (run_TaskID r) "completed" alive alive added updated
                                        (Z.quot (now - started) 1000000) "" (run_StartedAt r) (Some now)
                                 else r) <$> ce_runs c) (ce_results c) c
          else c
      | None => c
      end
  | None => c
  end.

(** * The handler *)

Definition with_status (t : gmap string AgentStatus) (c : ce) : ce :=
  mkCenter (ce_bridge c) (ce_repo c) (ce_neighbors c) (ce_interfaces c) (ce_edges c) (ce_snapshots c)
    (ce_nextSnapshotID c) (ce_networks c) t (ce_tasks c) (ce_runs c) (ce_results c) (ce_lastHash c) (ce_lastHashAt c)
    (ce_cidrCache c).

Definition with_hash (h : gmap Z string) (at_ : gmap Z Z) (c : ce) : ce :=
  mkCenter (ce_bridge c) (ce_repo c) (ce_neighbors c) (ce_interfaces c) (ce_edges c) (ce_snapshots c)
    (ce_nextSnapshotID c) (ce_networks c) (ce_status c) (ce_tasks c) (ce_runs c) (ce_results c) h at_ (ce_cidrCache c).

Definition saneRange : Z := 86400 * nanos_per_second.

(** The clock offset of the agent, dropped beyond a day either way. *)
Definition clock_offset (now : Z) (rep : AgentReport) : Z :=
  let offset := now - ar_ScannedAt rep in
  if (saneRange <? offset) || (offset <? - saneRange) then 0 else offset.

(** What precedes the hosts: the status row and the CIDR of the network. *)
Definition report_prologue (f : report_faults) (now : Z) (agentID : string) (networkID : Z) (rep : AgentReport) (c : ce)
    : ce :=
  let c := if rf_status f
           then with_status (UpsertAgentStatus agentID (ar_Meta rep) (clock_offset now rep) now (ce_status c)) c else c in
  if decide (reported_cidr rep = "") then c else maybeBackfillNetworkCIDR f networkID (reported_cidr rep) c.

Definition store_hash (now networkID : Z) (stateHash : string) (c : ce) : ce :=
  if decide (stateHash = "") then c
  else with_hash (<[networkID := stateHash]> (ce_lastHash c))
         (match ce_lastHashAt c !! networkID with
          | Some _ => ce_lastHashAt c
          | None => <[networkID := now]> (ce_lastHashAt c)
          end) c.

Definition fromScan (rep : AgentReport) : bool := negb (bool_decide (ar_Origin rep = "passive")).

(** The hash says nothing changed: leases and heals only. *)
Definition report_stable (f : report_faults) (uuid : nat → string) (now : Z) (agentID : string) (networkID : Z)
    (rep : AgentReport) (c : ce) : ce * reportAck :=
  let '(c, (hosts, oon)) := filterInNetwork (rf_network f) networkID (ar_Hosts rep) c in
  let c := refresh_leases f networkID now hosts c in
  let '(c, reconciled) := reconcileWipedServices f uuid now networkID agentID hosts c in
  let c := if fromScan rep then backfillAgentRunStats f now networkID (Z.of_nat (length hosts)) 0 0 c else c in
  (c, mkAck 0 0 0 0 oon true reconciled).

(** Every host inside the network goes over the bridge. *)
Definition report_changed (f : report_faults) (uuid : nat → string) (now : Z) (agentID : string) (networkID : Z)
    (stateHash : string) (rep : AgentReport) (c : ce) : ce * reportAck :=
  let dead := Z.of_nat (length (List.filter (fun h => negb (usable h)) (ar_Hosts rep))) in
  let '(c, (hosts, oon)) := filterInNetwork (rf_network f) networkID (ar_Hosts rep) c in
  let '(c, t) := apply_hosts f uuid now networkID agentID (bool_decide (ar_Origin rep = "passive")) hosts 0 hosts c
                   (mkTally 0 0) in
  let c := refresh_leases f networkID now hosts c in
  let c := if rf_edges f
           then with_topology (ce_neighbors c) (ce_interfaces c)
                  (DeriveTopologyEdges (Some networkID) now (br_db (ce_bridge c)) (ce_neighbors c) (ce_edges c)) c
           else c in
  let c := if fromScan rep then recordAgentScanResults f networkID hosts c else c in
  let c := store_hash now networkID stateHash c in
  let c := if fromScan rep
           then backfillAgentRunStats f now networkID (Z.of_nat (length hosts)) (ta_added t) (ta_updated t) c else c in
  (c, mkAck (ta_added t + ta_updated t) (ta_added t) (ta_updated t) (dead + oon) oon false 0).

(** [Report]: [body] is the decoded request, [agent] what the token binds. *)
Definition Report (f : report_faults) (uuid : nat → string) (now : Z) (body : option AgentReport)
    (agent : option (string * option Z)) (stateHash : string) (c : ce) : ce * report_response :=
  match body with
  | None => (c, ReportError 400 "invalid report body")
  | Some rep =>
      match agent with
      | Some (agentID, Some networkID) =>
          let c := report_prologue f now agentID networkID rep c in
          if decide (ar_Hosts rep = []) then (c, ReportSuccess (mkAck 0 0 0 0 0 false 0))
          else if decide (stateHash ≠ "" ∧ default "" (ce_lastHash c !! networkID) = stateHash)
          then let '(c, ack) := report_stable f uuid now agentID networkID rep c in (c, ReportSuccess ack)
          else let '(c, ack) := report_changed f uuid now agentID networkID stateHash rep c in (c, ReportSuccess ack)
      | _ => (c, ReportError 403 "agent token has no bound network")
      end
  end.

End handler.
