(* ===== verification/AgentReportSpec.v ===== *)
(** What the ingestion of agent reports guarantees ([AgentReport]): rows and
    leases stay within the network of the agent, leases of reported hosts are
    fresh, and every host is accounted for. *)

From S2P Require Import Prelude NetAddr Cidr Db Report ChangeDetect Lease HeartbeatStore Heartbeat.
From S2P Require Import AgentCommand DeviceStore Attributes AttributesSpec DeviceSpec DeviceType StoreRecords ScanAttributes.
From S2P Require Import DeviceBridge BridgeSpec Wire Topology AgentReport.

Open Scope Z_scope.

(** * Where rows can appear

    [P] says which addresses of which networks may be held. *)

Definition slot_ok (P : Z → string → Prop) (r : DeviceRow) : Prop := ∀ m, row_Network r = Some m → P m (row_IP r).

Definition placed (P : Z → string → Prop) (db : device_db) : Prop := ∀ r, r ∈ dd_rows db → slot_ok P r.

Section placed.
Context (P : Z → string → Prop) (ip : string).
Hypothesis Hpark : ∀ m k, P m (park_ip k).
Hypothesis Hip : ∀ m, P m ip.

(** A statement on one row, applied or refused. *)
Lemma exec_placed f j db : (∀ r, slot_ok P r → slot_ok P (f r)) → placed P db → placed P (exec (update_row f j db) db).
Proof.
  intros Hf Hp. unfold update_row. cbv zeta. destruct (forallb _ _); [|done]. cbn [exec default from_option].
  intros r' (r & Hr & [[_ ->]|[_ ->]])%(elem_upd f j db); auto.
Qed.

Lemma heal_name_placed w now db : placed P db → placed P (heal_name w now db).
Proof.
  intros Ht. unfold heal_name. destruct (get_row _ db) as [r|]; [|done].
  set (db1 := if _ && _ then exec _ db else db).
  assert (placed P db1) by (unfold db1; destruct (_ && _); [by apply exec_placed|done]). clearbody db1.
  destruct (jget _ _) as [[]|]; try done. destruct (PlausibleHostname _); [done|by apply exec_placed].
Qed.

Lemma alias_placed id mac db : placed P db → placed P (recordHolderAlias id mac db).
Proof. intros Ht. unfold recordHolderAlias. case_decide; [done|]. cbv zeta. destruct (existsb _ _); [done|by apply exec_placed]. Qed.

Lemma update_placed w now db : iw_IP w = ip → placed P db → placed P (updateDeviceIdentity w now db).
Proof.
  intros Ew Ht. unfold updateDeviceIdentity. cbv zeta.
  set (db1 := exec (update_row _ _ db) db).
  assert (placed P db1) as H1 by (apply exec_placed; [intros r; by case_decide|done]).
  clearbody db1. set (db2 := exec (update_row (heal_brand w now) _ db1) db1).
  assert (placed P db2) as H2 by (apply exec_placed; [intros r; unfold heal_brand; by destruct (_ && _)|done]).
  clearbody db2. pose proof (heal_name_placed w now db2 H2) as H3. revert H3. generalize (heal_name w now db2).
  clear H1 H2 db1 db2 Ht db. intros db Ht. case_decide.
  - set (db1 := if _ && _ then recordHolderAlias _ _ db else db).
    assert (placed P db1) by (unfold db1; destruct (_ && _); [by apply alias_placed|done]).
    case_decide; [apply exec_placed; [done|]|]; by apply exec_placed.
  - destruct (res_Roamed _); [|by apply exec_placed].
    assert (∀ n db, placed P db →
      placed P (exec (update_row (stamp_online (Some (iw_IP w)) n (iw_MAC w) now) (res_TargetID (iw_Res w)) db) db)) as Hs.
    { intros n db0. apply exec_placed. intros r _ m _. cbn. rewrite Ew. apply Hip. }
    pose proof (Hs (iw_NetworkID w) db Ht) as H1. destruct (update_row _ _ db) as [db1|]; [exact H1|].
    apply Hs. intros r [_ Hr]%list_elem_of_filter. by apply Ht.
Qed.

Lemma apply_placed uuid w now db : iw_IP w = ip → placed P db → placed P (ApplyDeviceIdentity uuid w now db).1.
Proof.
  intros Ew Ht. unfold ApplyDeviceIdentity. cbv zeta.
  set (db1 := if decide (res_ParkHolderID (iw_Res w) ≠ 0) then _ else db).
  assert (placed P db1) as H1.
  { unfold db1. case_decide; [|done]. apply exec_placed; [|done]. intros r _ m _. apply Hpark. }
  clearbody db1. destruct (res_IsNew _); [|by apply update_placed].
  unfold createDeviceIdentity. cbv zeta. destruct (_ && _); [|done]. cbn [fst dd_rows].
  intros r [Hr| ->%list_elem_of_singleton]%elem_of_app; [by apply H1|]. intros m _. cbn. rewrite Ew. apply Hip.
Qed.

Context (marshal : json → string) (tbl : typeRuleTable) {R : Type} `{!ChangeRecorder R}.

Lemma vantage_placed f now j a mac networkID agentID (s : bridge_state R) :
  placed P (br_db s) → placed P (br_db (recordVantage f now j a mac networkID agentID s)).
Proof.
  intros Hk. unfold recordVantage. destruct (j =? 0); [done|]. cbn [br_db]. destruct networkID as [n|]; [|done].
  destruct (_ && _); [|done]. unfold placed. by destruct (upsert_rows j n a agentID now (br_db s)) as [-> _].
Qed.

Lemma seed_rows f j rep (s : bridge_state R) : br_db (seed_configs f j rep s) = br_db s.
Proof. unfold seed_configs. by destruct (br_heartbeat s). Qed.

Lemma new_placed f uuid now rep mac t networkID agentID (s : bridge_state R) :
  hr_IP rep = ip → placed P (br_db s) →
  placed P (br_db (bridge_new marshal f uuid now rep mac t networkID agentID s).1).
Proof.
  intros Er Hk. unfold bridge_new. set (iw := buildIdentityWrite _ _ _ _ _ _ _ _ _).
  assert (iw_IP iw = ip) as Ew by (unfold iw, buildIdentityWrite; by destruct (if hr_Passive rep then _ else _)).
  pose proof (apply_placed uuid iw now (br_db s) Ew Hk) as Ha. destruct (ApplyDeviceIdentity _ _ _ _) as [db' r].
  destruct r as [j|]; [|done]. cbn [fst]. apply vantage_placed. by rewrite seed_rows.
Qed.

Lemma existing_placed f uuid now rep mac t src networkID agentID aliases res (s : bridge_state R) :
  hr_IP rep = ip → placed P (br_db s) →
  placed P (br_db (bridge_existing marshal f uuid now rep mac t src networkID agentID aliases res s).1).
Proof.
  intros Er Hk. unfold bridge_existing.
  destruct (match read_row _ _ s with Some _ => _ | None => _ end) as [rep1 t1] eqn:E1. cbv zeta.
  assert (hr_IP rep1 = ip) as Er1.
  { destruct (read_row _ _ s) as [b|]; [|by simplify_eq]. case_decide; [|by simplify_eq].
    destruct (applyTypeStickiness _ _ _). by simplify_eq. }
  clear E1.
  set (veto := roam_vetoed _ _ _). set (rep2 := if veto then _ else rep1).
  assert (hr_IP rep2 = ip) as Er2 by (unfold rep2; destruct veto; [by case_decide|done]).
  clearbody rep2. set (res2 := if veto then _ else res). set (iw := buildIdentityWrite _ _ _ _ _ _ _ _ _).
  assert (iw_IP iw = ip) as Ew by (unfold iw, buildIdentityWrite; by destruct (if hr_Passive rep2 then _ else _)).
  pose proof (apply_placed uuid iw now (br_db s) Ew Hk) as Ha. set (s1 := with_db _ s).
  assert (br_db (change_events marshal f (res_TargetID res) networkID agentID
    (snapshot_row marshal <$> read_row (bf_before f) (res_TargetID res) s)
    (snapshot_row marshal <$> read_row (bf_after f) (res_TargetID res) s1) s1).1 = br_db s1) as E2
    by (unfold change_events; repeat case_match; done).
  destruct (change_events _ _ _ _ _ _ _ s1) as [s2 changed]. cbn [fst] in *.
  assert (placed P (br_db s2)) as H2 by by rewrite E2.
  destruct (deviceHasHeartbeatConfig _ _ _); [|rewrite seed_rows]; cbn [reset_failures br_db]; by apply vantage_placed.
Qed.

Lemma bridge_placed f uuid now rep networkID agentID aliases (s : bridge_state R) :
  hr_IP rep = ip → placed P (br_db s) →
  placed P (br_db (applyDeviceBridge marshal tbl f uuid now rep networkID agentID aliases s).1).
Proof.
  intros Er Hk. unfold applyDeviceBridge. destruct (decide_type tbl rep) as [t src].
  destruct (ResolveDeviceIdentity _ _ _ _ _ _) as [res|]; [|done]. destruct (res_IsNew res).
  - pose proof (new_placed f uuid now (set_type t src rep) (reportMAC (set_type t src rep)) t networkID agentID s Er Hk).
    by destruct (bridge_new _ _ _ _ _ _ _ _ _ _).
  - pose proof (existing_placed f uuid now (set_type t src rep) (reportMAC (set_type t src rep)) t src networkID agentID
      aliases res s Er Hk). by destruct (bridge_existing _ _ _ _ _ _ _ _ _ _ _ _ _).
Qed.

End placed.

(** * Leases *)

Section leases.
Context {R S : Type} `{!ChangeRecorder R, !LivenessSampler S} (ok : stmt → bool).

Definition lease_key (s : ScanSnapshot) : Z * string := (ss_NetworkID s, ss_Ip s).

(** Of one host: the lease row of its address, and no other, is written. *)
Lemma record_alive_leases n taskID now (s : store R S) rep :
  st_snapshots (record_alive ok n taskID now s rep)
  = st_snapshots (default s (upsertScanSnapshot ok s n (if 0 <? taskID then Some taskID else None) (hr_IP rep)
      (reportMAC rep) (resolveDeviceUUIDForIP ok s (reportMAC rep) (hr_IP rep) (Some n)) now)).
Proof. unfold record_alive. cbv zeta. repeat case_match; done. Qed.

Definition fresh_lease (n now : Z) (ip : string) (l : list ScanSnapshot) : Prop :=
  ∃ s, s ∈ l ∧ lease_key s = (n, ip) ∧ ss_MissCount s = 0 ∧ ss_LastSeenAt s = DBTime now.

Lemma upsert_leases s n taskID ip mac uuid now (s1 : store R S) :
  upsertScanSnapshot ok s n taskID ip mac uuid now = Some s1 →
  fresh_lease n now ip (st_snapshots s1)
  ∧ (∀ ip', fresh_lease n now ip' (st_snapshots s) → fresh_lease n now ip' (st_snapshots s1))
  ∧ ∀ x, x ∈ st_snapshots s1 → lease_key x = (n, ip) ∨ ∃ y, y ∈ st_snapshots s ∧ lease_key y = lease_key x.
Proof.
  unfold upsertScanSnapshot. destruct (ok _); [|done]. cbn [negb].
  set (g := fun r => (ss_NetworkID r =? n) && (ss_Ip r =? ip)%string).
  assert (∀ r, g r = true ↔ lease_key r = (n, ip)) as Hg.
  { intros r. unfold g, lease_key. rewrite andb_true_iff, Z.eqb_eq, String.eqb_eq. naive_solver. }
  destruct (existsb g (st_snapshots s)) eqn:Ex; intros [= <-]; cbn [st_snapshots with_snapshots].
  - match goal with |- context [map ?k (st_snapshots s)] => set (h := k) end.
    assert (∀ r, lease_key (h r) = lease_key r) as Hk by (intros r; unfold h; fold (g r); by destruct (g r)).
    assert (∀ r, lease_key r = (n, ip) → ss_MissCount (h r) = 0 ∧ ss_LastSeenAt (h r) = DBTime now) as Hnew
      by (intros r Hr; unfold h; fold (g r); by rewrite (proj2 (Hg r) Hr)).
    assert (∀ r, lease_key r ≠ (n, ip) → h r = r) as Hold.
    { intros r Hr. unfold h. fold (g r). destruct (g r) eqn:E; [by apply Hg in E|done]. }
    split_and!.
    + apply existsb_exists in Ex as (r & Hr & Er). apply Hg in Er. exists (h r).
      split; [apply list_elem_of_In; by apply in_map|]. rewrite Hk. split; [done|by apply Hnew].
    + intros ip' (r & Hr & Er & Em & Et). exists (h r). split; [apply list_elem_of_In, in_map; by apply list_elem_of_In|].
      rewrite Hk. destruct (decide (lease_key r = (n, ip))) as [E|E]; [split; [done|by apply Hnew]|by rewrite Hold].
    + intros x (y & <- & Hy%list_elem_of_In)%list_elem_of_In%in_map_iff. right. exists y. by rewrite Hk.
  - split_and!.
    + eexists. split; [apply elem_of_app; right; by left|done].
    + intros ip' (r & Hr & E). exists r. split; [apply elem_of_app; by left|done].
    + intros x [Hx| ->%list_elem_of_singleton]%elem_of_app; [right; by exists x|by left].
Qed.

Lemma alive_leases n now reports (s : store R S) :
  let s' := (RecordAliveSnapshots ok s (Some n) 0 now reports).1 in
  (∀ x, x ∈ st_snapshots s' → (∃ rep, rep ∈ reports ∧ lease_key x = (n, hr_IP rep))
                              ∨ ∃ y, y ∈ st_snapshots s ∧ lease_key y = lease_key x)
  ∧ ((∀ q, ok q = true) → ∀ rep, rep ∈ reports → hr_Alive rep = true → hr_IP rep ≠ "" →
     fresh_lease n now (hr_IP rep) (st_snapshots s')).
Proof.
  unfold RecordAliveSnapshots. induction reports as [|rep reports IH] using rev_ind.
  { cbn. split; [intros x Hx; right; by exists x|set_solver]. }
  rewrite fold_left_app. cbn [fold_left]. set (acc := fold_left _ reports (s, ∅)) in *. destruct IH as [IH1 IH2].
  destruct (negb (hr_Alive rep) || bool_decide (hr_IP rep = "")) eqn:Eb.
  { split.
    - intros x Hx. destruct (IH1 x Hx) as [(r & Hr & ?)|?]; [left; exists r|by right]. set_solver.
    - intros Hok r [Hr| ->%list_elem_of_singleton]%elem_of_app Ha Hip; [by apply IH2|].
      apply orb_true_iff in Eb as [E|E%bool_decide_eq_true]; [by rewrite Ha in E|done]. }
  cbn [fst]. rewrite record_alive_leases. set (u := upsertScanSnapshot _ _ _ _ _ _ _ _).
  assert (u = None → ok (UUpsertSnapshot (hr_IP rep)) = false) as Hn.
  { unfold u, upsertScanSnapshot. destruct (ok _); [by destruct (existsb _ _)|done]. }
  destruct u as [s1|] eqn:Eu; cbn [default from_option].
  2: { split; [|intros Hok; by specialize (Hn eq_refl); rewrite Hok in Hn].
    intros x Hx. destruct (IH1 x Hx) as [(r & Hr & ?)|?]; [left; exists r|by right]. set_solver. }
  destruct (upsert_leases _ _ _ _ _ _ _ _ Eu) as (F1 & F2 & F3). change (id s1) with s1. split.
  - intros x [E|(y & Hy & Ey)]%F3; [left; exists rep; set_solver|].
    destruct (IH1 y Hy) as [(r & Hr & E)|(z & Hz & Ez)].
    + left. exists r. split; [set_solver|]. congruence.
    + right. exists z. split; [done|congruence].
  - intros Hok r [Hr| ->%list_elem_of_singleton]%elem_of_app Ha Hip; [apply F2; by apply IH2|done].
Qed.

End leases.

(** * Reports *)

Section handler.
Context (marshal : json → string) (tbl : typeRuleTable) {R : Type} `{!ChangeRecorder R}.
Notation ce := (center R).

Definition devices (c : ce) : list DeviceRow := dd_rows (br_db (ce_bridge c)).

(** [P] bounds the slots of the rows, [Q] the keys of the leases. *)
Definition held (P : Z → string → Prop) (Q : Z * string → Prop) (c : ce) : Prop :=
  placed P (br_db (ce_bridge c)) ∧ ∀ x, x ∈ ce_snapshots c → Q (lease_key x).

Lemma ApplyReport_snapshots f uuid now rep net agentID al (c : ce) :
  ce_snapshots (ApplyReport marshal tbl f uuid now rep net agentID al c).1 = ce_snapshots c.
Proof. unfold ApplyReport. by destruct (applyDeviceBridge _ _ _ _ _ _ _ _ _ _). Qed.

Lemma refresh_devices f n now hosts (c : ce) r :
  r ∈ devices (refresh_leases marshal f n now hosts c) →
  ∃ r0, r0 ∈ devices c ∧ row_IP r = row_IP r0 ∧ row_Network r = row_Network r0.
Proof.
  unfold devices, refresh_leases. cbn [with_leases ce_bridge br_db set_rows dd_rows].
  intros (i & Hi)%list_elem_of_lookup. apply lookup_zip_with_Some in Hi as (r0 & d & -> & H0 & _).
  exists r0. split; [by eapply list_elem_of_lookup_2|done].
Qed.

(** The boundary the handler checks a report against, which may come from its
    cache, and the hosts it lets through.  [report_boundary] below relates it to
    the network row. *)
Definition boundary_of (f : report_faults) (now : Z) (agentID : string) (n : Z) (rep : AgentReport) (c : ce) : option IPNet :=
  (resolveNetworkCIDR (rf_network f) n (report_prologue f now agentID n rep c)).2.

Definition admitted (b : option IPNet) (rep : AgentReport) : list ReportedHost := (partition_hosts b (ar_Hosts rep)).1.

Lemma elem_of_admitted b rep h :
  h ∈ admitted b rep ↔ h ∈ ar_Hosts rep ∧ rh_Alive h = true ∧ rh_IP h ≠ "" ∧ inside b h = true.
Proof.
  unfold admitted, partition_hosts. cbn. rewrite !list_elem_of_In, !filter_In. unfold usable.
  rewrite andb_true_iff, negb_true_iff, bool_decide_eq_false. tauto.
Qed.

Lemma filter_admitted ok n rep (c : ce) :
  filterInNetwork ok n (ar_Hosts rep) c
  = let '(c', b) := resolveNetworkCIDR ok n c in (c', (admitted b rep, (partition_hosts b (ar_Hosts rep)).2)).
Proof. unfold filterInNetwork. by destruct (resolveNetworkCIDR ok n c). Qed.

Section held.
Context (P : Z → string → Prop) (Q : Z * string → Prop) (Hpark : ∀ m k, P m (park_ip k)).

Lemma ApplyReport_held f uuid now rep net agentID al (c : ce) :
  (∀ m, P m (hr_IP rep)) → held P Q c → held P Q (ApplyReport marshal tbl f uuid now rep net agentID al c).1.
Proof.
  intros Hip [Hp Hq]. split; [|by rewrite ApplyReport_snapshots]. unfold ApplyReport.
  pose proof (bridge_placed P (hr_IP rep) Hpark Hip marshal tbl f uuid now rep net agentID al (ce_bridge c) eq_refl Hp).
  by destruct (applyDeviceBridge _ _ _ _ _ _ _ _ _ _).
Qed.

Lemma apply_hosts_held f uuid now n agentID passive batch hosts i (c : ce) t :
  (∀ h, h ∈ hosts → ∀ m, P m (rh_IP h)) → held P Q c →
  held P Q (apply_hosts marshal tbl f uuid now n agentID passive batch i hosts c t).1.
Proof.
  revert i c t. induction hosts as [|h hosts IH]; intros i c t Hip Hh; [done|]. cbn [apply_hosts].
  pose proof (ApplyReport_held (rf_bridge f i) (uuid i) now (mark_passive passive (ReportedHostToReport h)) (Some n)
    agentID (batch_aliases batch h) c (Hip h ltac:(by left)) Hh) as H1.
  destruct (ApplyReport _ _ _ _ _ _ _ _ _ _) as [c1 res]. apply IH; [|done]. intros h' Hh'. apply Hip. by right.
Qed.

Lemma heal_hosts_held f uuid now n agentID db hosts i (c : ce) k :
  (∀ h, h ∈ hosts → ∀ m, P m (rh_IP h)) → held P Q c →
  held P Q (heal_hosts marshal tbl f uuid now n agentID db i hosts c k).1.
Proof.
  revert i c k. induction hosts as [|h hosts IH]; intros i c k Hip Hh; [done|]. cbn [heal_hosts].
  assert (∀ h', h' ∈ hosts → ∀ m, P m (rh_IP h')) as Hip' by (intros h' Hh'; apply Hip; by right).
  destruct (wiped _ _ _); [|by apply IH].
  pose proof (ApplyReport_held (rf_heal f i) (uuid i) now (ReportedHostToReport h) (Some n) agentID [] c
    (Hip h ltac:(by left)) Hh) as H1.
  destruct (ApplyReport _ _ _ _ _ _ _ _ _ _) as [c1 res]. by apply IH.
Qed.

Lemma refresh_held f n now hosts (c : ce) :
  (∀ h, h ∈ hosts → Q (n, rh_IP h)) → held P Q c → held P Q (refresh_leases marshal f n now hosts c).
Proof.
  intros Hq [Hp Hl]. split.
  - intros r (r0 & Hr & E1 & E2)%refresh_devices m. rewrite E1, E2. exact (Hp r0 Hr m).
  - intros x Hx.
    destruct (proj1 (alive_leases (rf_lease f) n now (hostReportsForLease hosts) (lease_store marshal now c)) x Hx)
      as [(rep & Hr & ->)|(y & Hy & <-)]; [|exact (Hl y Hy)].
    apply list_elem_of_fmap in Hr as (h & -> & [Hh _]%list_elem_of_In%filter_In). cbn. apply Hq. by apply list_elem_of_In.
Qed.

Lemma close_held f now n a b d (c : ce) : held P Q c → held P Q (backfillAgentRunStats f now n a b d c).
Proof. intros Hh. unfold backfillAgentRunStats. by repeat case_match. Qed.

Lemma results_held f n hosts (c : ce) : held P Q c → held P Q (recordAgentScanResults marshal f n hosts c).
Proof. intros Hh. unfold recordAgentScanResults. by case_match. Qed.

Lemma network_held ok n hosts (c : ce) : held P Q c → held P Q (filterInNetwork ok n hosts c).1.
Proof. intros Hh. unfold filterInNetwork, resolveNetworkCIDR. by repeat case_match; simplify_eq. Qed.

Lemma prologue_held f now agentID n rep (c : ce) : held P Q c → held P Q (report_prologue f now agentID n rep c).
Proof.
  intros Hh. unfold report_prologue. cbv zeta.
  set (c1 := if rf_status f then _ else c). assert (held P Q c1) by (unfold c1; by destruct (rf_status f)). clearbody c1.
  case_decide; [done|]. unfold maybeBackfillNetworkCIDR. by repeat case_match.
Qed.

Lemma report_held f uuid now rep agentID n hash (c : ce) :
  let b := boundary_of f now agentID n rep c in
  (∀ h, h ∈ admitted b rep → (∀ m, P m (rh_IP h)) ∧ Q (n, rh_IP h)) → held P Q c →
  held P Q (Report marshal tbl f uuid now (Some rep) (Some (agentID, Some n)) hash c).1.
Proof.
  cbv zeta. intros Hadm Hh. unfold Report. apply (prologue_held f now agentID n rep) in Hh.
  unfold boundary_of in Hadm. set (c0 := report_prologue _ _ _ _ _ _) in *. clearbody c0.
  assert (∀ h, h ∈ (admitted (resolveNetworkCIDR (rf_network f) n c0).2 rep) → ∀ m, P m (rh_IP h)) as HP
    by (intros h H; by apply Hadm).
  assert (∀ h, h ∈ (admitted (resolveNetworkCIDR (rf_network f) n c0).2 rep) → Q (n, rh_IP h)) as HQ
    by (intros h H; by apply Hadm). clear Hadm.
  apply (network_held (rf_network f) n (ar_Hosts rep)) in Hh.
  case_decide; [revert Hh; unfold filterInNetwork, resolveNetworkCIDR; by repeat case_match; simplify_eq|].
  case_decide.
  - unfold report_stable. rewrite filter_admitted in *. destruct (resolveNetworkCIDR _ _ c0) as [c1 b]. cbn [fst snd] in *.
    apply (refresh_held f n now (admitted b rep)) in Hh; [|done].
    unfold reconcileWipedServices. set (c2 := refresh_leases _ _ _ _ _ _) in *. clearbody c2.
    assert (∀ h, h ∈ List.filter carries (admitted b rep) → ∀ m, P m (rh_IP h)) as HP'
      by (intros h [Hin _]%list_elem_of_In%filter_In; by apply HP, list_elem_of_In).
    pose proof (heal_hosts_held f uuid now n agentID (br_db (ce_bridge c2)) _ 0 c2 0 HP' Hh) as H3.
    destruct (rf_service_state f); [|cbn [fst]; by destruct (fromScan rep); [apply close_held|]].
    destruct (heal_hosts _ _ _ _ _ _ _ _ _ _ _ _) as [c3 k]. cbn [fst] in *. by destruct (fromScan rep); [apply close_held|].
  - unfold report_changed. rewrite filter_admitted in *. destruct (resolveNetworkCIDR _ _ c0) as [c1 b]. cbn [fst snd] in *.
    apply (apply_hosts_held f uuid now n agentID (bool_decide (ar_Origin rep = "passive")) (admitted b rep)
      (admitted b rep) 0 c1 (mkTally 0 0)) in Hh; [|done].
    destruct (apply_hosts _ _ _ _ _ _ _ _ _ _ _ _ _) as [c2 t]. cbn [fst] in *.
    apply (refresh_held f n now (admitted b rep)) in Hh; [|done].
    set (c3 := refresh_leases _ _ _ _ _ _) in *. clearbody c3.
    set (c4 := if rf_edges f then _ else c3). assert (held P Q c4) as H4 by (unfold c4; by destruct (rf_edges f)).
    clearbody c4. set (c5 := if fromScan rep then _ else c4).
    assert (held P Q c5) as H5 by (unfold c5; destruct (fromScan rep); [by apply results_held|done]). clearbody c5.
    set (c6 := store_hash _ _ _ _). assert (held P Q c6) as H6 by (unfold c6, store_hash; by case_decide). clearbody c6.
    cbn [fst]. destruct (fromScan rep); [by apply close_held|done].
Qed.

End held.

Lemma heal_snapshots f uuid now n agentID db hosts i (c : ce) k :
  ce_snapshots (heal_hosts marshal tbl f uuid now n agentID db i hosts c k).1 = ce_snapshots c.
Proof.
  revert i c k. induction hosts as [|h hosts IH]; intros i c k; [done|]. cbn [heal_hosts].
  destruct (wiped _ _ _); [|apply IH].
  pose proof (ApplyReport_snapshots (rf_heal f i) (uuid i) now (ReportedHostToReport h) (Some n) agentID [] c) as E.
  destruct (ApplyReport _ _ _ _ _ _ _ _ _ _) as [c1 res]. by rewrite IH.
Qed.

Lemma close_snapshots f now n a b d (c : ce) : ce_snapshots (backfillAgentRunStats f now n a b d c) = ce_snapshots c.
Proof. unfold backfillAgentRunStats. by repeat case_match. Qed.

(** The lease refresh is the last word on the leases. *)
Lemma report_snapshots f uuid now rep agentID n hash (c : ce) :
  ar_Hosts rep ≠ [] →
  ∃ c' : ce, ce_snapshots (Report marshal tbl f uuid now (Some rep) (Some (agentID, Some n)) hash c).1
        = ce_snapshots (refresh_leases marshal f n now (admitted (boundary_of f now agentID n rep c) rep) c').
Proof.
  intros Hne. unfold Report, boundary_of. set (c0 := report_prologue _ _ _ _ _ _). rewrite decide_False by done.
  case_decide.
  - unfold report_stable, reconcileWipedServices. rewrite filter_admitted.
    destruct (resolveNetworkCIDR _ _ c0) as [c1 b]. cbn [snd]. exists c1. set (c2 := refresh_leases _ _ _ _ _ _).
    destruct (rf_service_state f).
    + pose proof (heal_snapshots f uuid now n agentID (br_db (ce_bridge c2)) (List.filter carries (admitted b rep)) 0 c2 0) as E.
      destruct (heal_hosts _ _ _ _ _ _ _ _ _ _ _ _) as [c3 k]. cbn [fst] in *. rewrite <- E.
      destruct (fromScan rep); [apply close_snapshots|done].
    + cbn [fst]. destruct (fromScan rep); [apply close_snapshots|done].
  - unfold report_changed. rewrite filter_admitted. destruct (resolveNetworkCIDR _ _ c0) as [c1 b]. cbn [snd].
    destruct (apply_hosts _ _ _ _ _ _ _ _ _ _ _ _ _) as [c2 t]. exists c2. cbn [fst].
    set (c3 := refresh_leases _ _ _ _ _ _).
    assert (∀ c5 c6 : ce, ce_snapshots (store_hash now n hash c5) = ce_snapshots c6 ↔ ce_snapshots c5 = ce_snapshots c6) as Hs
      by (intros c5 c6; unfold store_hash; by case_decide).
    destruct (fromScan rep); [rewrite close_snapshots|]; apply Hs; [|by destruct (rf_edges f)].
    unfold recordAgentScanResults. destruct (if rf_run f then _ else None); by destruct (rf_edges f).
Qed.

(** ** The boundary and the network row *)

(** The network a row describes: nothing, when there is no row or no usable
    CIDR in it. *)
Definition row_boundary (n : Z) (networks : list Network) : option IPNet :=
  row ← GetNetwork n networks;
  match ParseNetwork (default "" (net_Cidr row)) with Ok N => Some N | Err _ => None end.

(** Every cached boundary is the one of its row. *)
Definition cache_fresh (c : ce) : Prop :=
  ∀ n b, ce_cidrCache c !! n = Some b → b = row_boundary n (ce_networks c).

(** What a step leaves of the networks and of the cache. *)
Definition geometry (c : ce) : list Network * gmap Z (option IPNet) := (ce_networks c, ce_cidrCache c).

Lemma geometry_fresh (c c' : ce) : geometry c' = geometry c → cache_fresh c → cache_fresh c'.
Proof. unfold cache_fresh. by intros [= -> ->]. Qed.

Lemma resolve_row ok n (c : ce) :
  cache_fresh c →
  let '(c', b) := resolveNetworkCIDR ok n c in
  cache_fresh c' ∧ ce_networks c' = ce_networks c ∧ (ok = true → b = row_boundary n (ce_networks c)).
Proof.
  intros Hf. unfold resolveNetworkCIDR. destruct (ce_cidrCache c !! n) as [b|] eqn:E.
  { split_and!; [done..|]. intros _. by apply Hf. }
  unfold row_boundary. destruct ok; [|done]. destruct (GetNetwork n (ce_networks c)) as [row|] eqn:Er; [|done].
  split_and!; [|done|done]. intros m b. cbn [with_cidr ce_cidrCache ce_networks].
  rewrite lookup_insert_Some. intros [[<- <-]|[_ Hb]]; [|by apply Hf]. unfold row_boundary. by rewrite Er.
Qed.

Lemma GetNetwork_map_ne m n g (l : list Network) :
  m ≠ n → (∀ x, net_ID (g x) = net_ID x) → (∀ x, net_ID x ≠ n → g x = x) → GetNetwork m (g <$> l) = GetNetwork m l.
Proof.
  intros Hne Hid Hg. unfold GetNetwork. induction l as [|x l IH]; [done|].
  rewrite fmap_cons, !filter_cons, Hid. destruct (decide (net_ID x = m)) as [E|E]; [|done].
  cbn [head]. rewrite Hg; [done|congruence].
Qed.

Lemma backfill_fresh f n reported (c : ce) : cache_fresh c → cache_fresh (maybeBackfillNetworkCIDR f n reported c).
Proof.
  intros Hf. unfold maybeBackfillNetworkCIDR. destruct (ParseNetwork reported); [|done].
  destruct (if rf_backfill_read f then _ else None) as [row|]; [|done]. destruct (_ && _); [|done].
  intros m b. cbn [with_cidr ce_cidrCache ce_networks]. rewrite lookup_delete_Some. intros [Hne Hb].
  rewrite (Hf _ _ Hb). unfold row_boundary. rewrite GetNetwork_map_ne with (n := n); [done|done| |].
  - intros x. by destruct (_ && _).
  - intros x Hx. by rewrite (proj2 (Z.eqb_neq _ _)).
Qed.

Lemma prologue_fresh f now agentID n rep (c : ce) : cache_fresh c → cache_fresh (report_prologue f now agentID n rep c).
Proof.
  intros Hf. unfold report_prologue. cbv zeta. set (c1 := if rf_status f then _ else c).
  assert (cache_fresh c1) by (unfold c1; by destruct (rf_status f)). case_decide; [done|]. by apply backfill_fresh.
Qed.

Lemma ApplyReport_geometry f uuid now rep net agentID al (c : ce) :
  geometry (ApplyReport marshal tbl f uuid now rep net agentID al c).1 = geometry c.
Proof. unfold ApplyReport. by destruct (applyDeviceBridge _ _ _ _ _ _ _ _ _ _). Qed.

Lemma apply_hosts_geometry f uuid now n agentID passive batch hosts i (c : ce) t :
  geometry (apply_hosts marshal tbl f uuid now n agentID passive batch i hosts c t).1 = geometry c.
Proof.
  revert i c t. induction hosts as [|h hosts IH]; intros i c t; [done|]. cbn [apply_hosts].
  pose proof (ApplyReport_geometry (rf_bridge f i) (uuid i) now (mark_passive passive (ReportedHostToReport h)) (Some n)
    agentID (batch_aliases batch h) c) as E.
  destruct (ApplyReport _ _ _ _ _ _ _ _ _ _) as [c1 res]. by rewrite IH.
Qed.

Lemma heal_hosts_geometry f uuid now n agentID db hosts i (c : ce) k :
  geometry (heal_hosts marshal tbl f uuid now n agentID db i hosts c k).1 = geometry c.
Proof.
  revert i c k. induction hosts as [|h hosts IH]; intros i c k; [done|]. cbn [heal_hosts].
  destruct (wiped _ _ _); [|apply IH].
  pose proof (ApplyReport_geometry (rf_heal f i) (uuid i) now (ReportedHostToReport h) (Some n) agentID [] c) as E.
  destruct (ApplyReport _ _ _ _ _ _ _ _ _ _) as [c1 res]. by rewrite IH.
Qed.

Lemma close_geometry f now n a b d (c : ce) : geometry (backfillAgentRunStats f now n a b d c) = geometry c.
Proof. unfold backfillAgentRunStats. by repeat case_match. Qed.

(** After the prologue and the resolution nothing touches networks or cache. *)
Lemma report_geometry f uuid now rep agentID n hash (c : ce) :
  let c0 := report_prologue f now agentID n rep c in
  geometry (Report marshal tbl f uuid now (Some rep) (Some (agentID, Some n)) hash c).1
  = geometry (if decide (ar_Hosts rep = []) then c0 else (resolveNetworkCIDR (rf_network f) n c0).1).
Proof.
  cbv zeta. unfold Report. set (c0 := report_prologue _ _ _ _ _ _). destruct (decide (ar_Hosts rep = [])); [done|].
  case_decide.
  - unfold report_stable, reconcileWipedServices. rewrite filter_admitted.
    destruct (resolveNetworkCIDR _ _ c0) as [c1 b]. cbn [fst]. set (c2 := refresh_leases _ _ _ _ _ _).
    assert (geometry c2 = geometry c1) as E2 by done.
    pose proof (heal_hosts_geometry f uuid now n agentID (br_db (ce_bridge c2)) (List.filter carries (admitted b rep)) 0 c2 0) as E.
    destruct (rf_service_state f).
    + destruct (heal_hosts _ _ _ _ _ _ _ _ _ _ _ _) as [c3 k]. cbn [fst] in *. rewrite <- E2, <- E.
      destruct (fromScan rep); [apply close_geometry|done].
    + cbn [fst]. destruct (fromScan rep); [by rewrite close_geometry|done].
  - unfold report_changed. rewrite filter_admitted. destruct (resolveNetworkCIDR _ _ c0) as [c1 b]. cbn [fst].
    pose proof (apply_hosts_geometry f uuid now n agentID (bool_decide (ar_Origin rep = "passive")) (admitted b rep)
      (admitted b rep) 0 c1 (mkTally 0 0)) as E.
    destruct (apply_hosts _ _ _ _ _ _ _ _ _ _ _ _ _) as [c2 t]. cbn [fst] in *. rewrite <- E.
    set (c3 := refresh_leases _ _ _ _ _ _). change (geometry c2) with (geometry c3).
    assert (∀ c5 : ce, geometry (store_hash now n hash c5) = geometry c5) as Hs by (intros c5; unfold store_hash; by case_decide).
    assert (∀ c5 : ce, geometry (recordAgentScanResults marshal f n (admitted b rep) c5) = geometry c5) as Hr
      by (intros c5; unfold recordAgentScanResults; by case_match).
    destruct (fromScan rep); rewrite ?close_geometry, Hs, ?Hr; by destruct (rf_edges f).
Qed.

(** The boundary a report is checked against is that of the row it leaves. *)
Lemma report_boundary f uuid now rep agentID n hash (c : ce) :
  cache_fresh c →
  let c' := (Report marshal tbl f uuid now (Some rep) (Some (agentID, Some n)) hash c).1 in
  cache_fresh c' ∧ (rf_network f = true → boundary_of f now agentID n rep c = row_boundary n (ce_networks c')).
Proof.
  intros Hf. cbv zeta. apply (prologue_fresh f now agentID n rep) in Hf.
  pose proof (report_geometry f uuid now rep agentID n hash c) as Hg. cbv zeta in Hg.
  unfold boundary_of. set (c0 := report_prologue _ _ _ _ _ _) in *.
  pose proof (resolve_row (rf_network f) n c0 Hf) as Hr.
  destruct (resolveNetworkCIDR (rf_network f) n c0) as [c1 b]. destruct Hr as (Hf1 & Hn1 & Hb). cbn [fst snd] in *.
  split.
  - destruct (decide (ar_Hosts rep = [])); by eapply geometry_fresh.
  - intros Hok. rewrite (Hb Hok). f_equal. apply (f_equal fst) in Hg. unfold geometry in Hg. cbn [fst] in Hg.
    rewrite Hg. by destruct (decide (ar_Hosts rep = [])).
Qed.

(** ** Counts *)

Lemma apply_hosts_tally f uuid now n agentID passive batch hosts i (c : ce) t :
  let t' := (apply_hosts marshal tbl f uuid now n agentID passive batch i hosts c t).2 in
  ta_added t ≤ ta_added t' ∧ ta_updated t ≤ ta_updated t'
  ∧ ta_added t' + ta_updated t' ≤ ta_added t + ta_updated t + Z.of_nat (length hosts).
Proof.
  revert i c t. induction hosts as [|h hosts IH]; intros i c t; [cbn; lia|]. cbn [apply_hosts].
  destruct (ApplyReport _ _ _ _ _ _ _ _ _ _) as [c1 res].
  specialize (IH (S i) c1 (count res t)). revert IH. unfold count. cbn [length].
  destruct res as [[] []]; cbn [fst snd ta_added ta_updated]; lia.
Qed.

Lemma partition_count b hosts :
  Z.of_nat (length hosts) = Z.of_nat (length (List.filter (fun h => negb (usable h)) hosts))
    + (partition_hosts b hosts).2 + Z.of_nat (length (partition_hosts b hosts).1).
Proof.
  unfold partition_hosts. cbn [fst snd]. induction hosts as [|h hosts IH]; [done|]. cbn [List.filter length].
  destruct (usable h); cbn [negb List.filter length]; [|lia]. destruct (inside b h); cbn [negb length]; lia.
Qed.

End handler.

(** C22.  An agent writes only inside its network.  Let the cache of parsed CIDRs
    agree with the network rows, the network row be readable, and let the row
    of the agent's network, as the report leaves it (a row without CIDR first
    adopts the one the agent claims), have the CIDR [N].  Then after the
    report, whichever other statements fail, every row of a network sits at an
    address that was already held in that network, at a parking address, or at
    the address of an alive host of the report inside [N]; and every lease was
    there before, or is one of the agent's network for such a host.  The cache
    agrees with the rows again, so this holds for any sequence of reports to a
    fresh handler.  It says nothing of a network without usable CIDR or of a
    failed read, where the code lets every host through, nor of the time after
    an edit of the row by an administrator, which leaves the cache stale. *)
Theorem report_stays_in_network marshal tbl {R} `{!ChangeRecorder R} f uuid now rep agentID n hash (c : center R) N
    (Hcache : cache_fresh c) (Hread : rf_network f = true) :
  let c' := (Report marshal tbl f uuid now (Some rep) (Some (agentID, Some n)) hash c).1 in
  let reported ip := ∃ h, h ∈ ar_Hosts rep ∧ rh_Alive h = true ∧ rh_IP h = ip ∧ ContainsIP (Some N) ip = true in
  cache_fresh c'
  ∧ (row_boundary n (ce_networks c') = Some N →
     (∀ r m, r ∈ devices c' → row_Network r = Some m →
        (∃ r0, r0 ∈ devices c ∧ row_Network r0 = Some m ∧ row_IP r0 = row_IP r)
        ∨ (∃ k, row_IP r = park_ip k) ∨ reported (row_IP r))
     ∧ ∀ s, s ∈ ce_snapshots c' →
        (∃ s0, s0 ∈ ce_snapshots c ∧ ss_NetworkID s0 = ss_NetworkID s ∧ ss_Ip s0 = ss_Ip s)
        ∨ (ss_NetworkID s = n ∧ reported (ss_Ip s))).
Proof.
  cbv zeta. set (reported := fun ip => ∃ h, _).
  destruct (report_boundary marshal tbl f uuid now rep agentID n hash c Hcache) as [Hf Hb]. split; [exact Hf|].
  intros Hrow. specialize (Hb Hread). rewrite Hrow in Hb.
  set (P := fun m ip => (∃ r0, r0 ∈ devices c ∧ row_Network r0 = Some m ∧ row_IP r0 = ip)
                        ∨ (∃ k, ip = park_ip k) ∨ reported ip).
  set (Q := fun k : Z * string => (∃ s0, s0 ∈ ce_snapshots c ∧ ss_NetworkID s0 = k.1 ∧ ss_Ip s0 = k.2)
                                  ∨ (k.1 = n ∧ reported k.2)).
  assert (held P Q (Report marshal tbl f uuid now (Some rep) (Some (agentID, Some n)) hash c).1) as [HP HQ].
  { apply report_held.
    - intros m k. right. left. by exists k.
    - intros h (Hh & Ha & _ & Hi)%elem_of_admitted. rewrite Hb in Hi.
      assert (reported (rh_IP h)) by (by exists h). split; [intros m; by do 2 right|by right].
    - split; [intros r Hr m Hm; left; by exists r|]. intros x Hx. left. by exists x. }
  split; [intros r m Hr; by apply HP|]. intros s Hs. by apply (HQ s).
Qed.

(** C23.  A reported host has a fresh lease.  When the lease statements succeed, a
    report with hosts, whether its hash is new or not, leaves for each alive
    host inside the network a lease row of its address, seen now and without
    misses. *)
Theorem report_refreshes_leases marshal tbl {R} `{!ChangeRecorder R} f uuid now rep agentID n hash (c : center R) h
    (Hok : ∀ q, rf_lease f q = true)
    (Hh : h ∈ admitted (boundary_of f now agentID n rep c) rep) :
  fresh_lease n now (rh_IP h)
    (ce_snapshots (Report marshal tbl f uuid now (Some rep) (Some (agentID, Some n)) hash c).1).
Proof.
  pose proof Hh as (Hin & Ha & Hip & _)%elem_of_admitted.
  destruct (report_snapshots marshal tbl f uuid now rep agentID n hash c) as [c' ->]; [by intros E; rewrite E in Hin; set_solver|].
  set (hosts := admitted _ rep) in *.
  destruct (alive_leases (rf_lease f) n now (hostReportsForLease hosts) (lease_store marshal now c')) as [_ Hl].
  unfold refresh_leases. cbn [with_leases ce_snapshots]. specialize (Hl Hok (ReportedHostToReport h)).
  cbn [ReportedHostToReport hr_IP hr_Alive] in Hl. apply Hl; [|done..].
  apply list_elem_of_fmap. exists h. split; [done|]. apply list_elem_of_In, filter_In.
  split; [by apply list_elem_of_In|]. unfold usable. rewrite Ha. by rewrite bool_decide_eq_false_2.
Qed.

(** Every host of a report is accounted for: it is dead or without address, or
    refused by the boundary, or handed to the bridge, and the bridge adds or
    updates at most once per host. *)
Theorem report_accounted marshal tbl {R} `{!ChangeRecorder R} f uuid now rep agentID n hash (c c' : center R) ack
    (Hr : Report marshal tbl f uuid now (Some rep) (Some (agentID, Some n)) hash c = (c', ReportSuccess ack)) :
  ack_Accepted ack = ack_Added ack + ack_Updated ack
  ∧ 0 ≤ ack_Added ack ∧ 0 ≤ ack_Updated ack ∧ 0 ≤ ack_OutOfNetwork ack
  ∧ (ack_Stable ack = false →
     ack_OutOfNetwork ack ≤ ack_Skipped ack
     ∧ ack_Skipped ack + ack_Accepted ack ≤ Z.of_nat (length (ar_Hosts rep))
     ∧ ack_Skipped ack + Z.of_nat (length (admitted (boundary_of f now agentID n rep c) rep))
       = Z.of_nat (length (ar_Hosts rep)))
  ∧ (ack_Stable ack = true → ack_Accepted ack = 0).
Proof.
  revert Hr. unfold Report, boundary_of. set (c0 := report_prologue _ _ _ _ _ _). case_decide as E.
  { intros [= <- <-]. cbn. unfold admitted, partition_hosts. rewrite E. cbn. split_and!; lia || done. }
  case_decide.
  - unfold report_stable. rewrite filter_admitted. destruct (resolveNetworkCIDR _ _ c0) as [c1 b].
    destruct (reconcileWipedServices _ _ _ _ _ _ _ _ _) as [c2 k]. intros [= <- <-]. cbn. split_and!; lia || done.
  - unfold report_changed. rewrite filter_admitted. destruct (resolveNetworkCIDR _ _ c0) as [c1 b]. cbn [snd].
    pose proof (apply_hosts_tally marshal tbl f uuid now n agentID (bool_decide (ar_Origin rep = "passive"))
      (admitted b rep) (admitted b rep) 0 c1 (mkTally 0 0)) as Ht.
    destruct (apply_hosts _ _ _ _ _ _ _ _ _ _ _ _ _) as [c2 t]. cbn in Ht. intros [= <- <-].
    cbn [ack_Accepted ack_Added ack_Updated ack_Skipped ack_OutOfNetwork ack_Stable].
    pose proof (partition_count b (ar_Hosts rep)) as Hc. 
    unfold admitted, partition_hosts in *. cbn [fst snd] in *.
    split_and!; lia || done.
Qed.

(** * Concrete reports *)

Definition no_report_faults : report_faults :=
  mkReportFaults true true true true (fun _ => no_bridge_faults) (fun _ => true) true true (fun _ => true) true true true
    (fun _ => no_bridge_faults).

(** Every identity lookup of the bridge fails. *)
Definition locked_database : report_faults :=
  mkReportFaults true true true true
    (fun _ => mkBridgeFaults (fun _ => false) true true true (fun _ => true) true true) (fun _ => true) true true
    (fun _ => true) true true true (fun _ => no_bridge_faults).

Definition center_at (db : device_db) : center event_trace :=
  mkCenter (bridge_at db) (NewSQLiteRepository 30 5 "public" "1.3" 1) ∅ ∅ ∅ [] 1
    [mkNetwork 7 "lan" (Some "10.0.0.0/24") (Some "agent")] ∅ {[1 := Some 7]} [] ∅ ∅ ∅ ∅.

Definition seen_at (ip mac : string) : ReportedHost :=
  mkReportedHost ip true 3 mac "" "" "" "" "" "" "" "" "" "" "" [] [] None [] [] [].

Definition batch (hosts : list ReportedHost) : AgentReport := mkAgentReport "" later None hosts "".

Definition fresh_uuid (i : nat) : string := "v" +:+ itoa (Z.of_nat i).

Definition report_at (f : report_faults) (hosts : list ReportedHost) (hash : string) (c : center event_trace)
    : center event_trace * report_response :=
  Report quick_marshal no_rules f fresh_uuid later (Some (batch hosts)) (Some ("agent", Some 7)) hash c.

Definition stray_batch : list ReportedHost :=
  [seen_at "10.0.0.77" "00:11:22:33:44:77"; seen_at "192.168.9.9" "00:11:22:33:44:99"].

(** A host of another network in the report leaves no row. *)
Lemma report_stays_in_network_witness :
  Forall (fun r => row_Network r = Some 7 → row_IP r ≠ "192.168.9.9")
    (devices (report_at no_report_faults stray_batch "" (center_at lan)).1).
Proof.
  apply list.Forall_forall. intros r Hr Hn E.
  destruct (report_stays_in_network quick_marshal no_rules no_report_faults fresh_uuid later (batch stray_batch) "agent" 7 ""
    (center_at lan) (mkIPNet [10; 0; 0; 0] [255; 255; 255; 0]) ltac:(intros n b H; vm_compute in H; discriminate) eq_refl)
    as [_ Hd].
  destruct (Hd ltac:(vm_compute; reflexivity)) as [Hd1 _].
  destruct (Hd1 r 7 Hr Hn) as [(r0 & [->| ->]%lan_rows & _ & E0)|[[k Ek]|(h & _ & _ & _ & Hc)]].
  - by rewrite E in E0.
  - by rewrite E in E0.
  - by rewrite E in Ek.
  - rewrite E in Hc. by vm_compute in Hc.
Defined.

Lemma report_refreshes_leases_witness :
  fresh_lease 7 later "10.0.0.77" (ce_snapshots (report_at no_report_faults stray_batch "" (center_at lan)).1).
Proof.
  unfold report_at. change "10.0.0.77" with (rh_IP (seen_at "10.0.0.77" "00:11:22:33:44:77")).
  refine (report_refreshes_leases quick_marshal no_rules no_report_faults fresh_uuid later (batch stray_batch) "agent" 7 ""
    (center_at lan) (seen_at "10.0.0.77" "00:11:22:33:44:77") (fun _ => eq_refl) _).
  assert (boundary_of no_report_faults later "agent" 7 (batch stray_batch) (center_at lan)
          = Some (mkIPNet [10; 0; 0; 0] [255; 255; 255; 0])) as -> by (vm_compute; reflexivity).
  apply elem_of_admitted. split_and!; [left|done|done|vm_compute; reflexivity].
Defined.

Lemma report_accounted_witness :
  (report_at no_report_faults stray_batch "" (center_at lan)).2 = ReportSuccess (mkAck 1 1 0 1 1 false 0)
  ∧ 1 + Z.of_nat (length (admitted (boundary_of no_report_faults later "agent" 7 (batch stray_batch) (center_at lan))
                            (batch stray_batch))) = 2.
Proof.
  assert ((report_at no_report_faults stray_batch "" (center_at lan)).2 = ReportSuccess (mkAck 1 1 0 1 1 false 0)) as E
    by (vm_compute; reflexivity).
  split; [exact E|].
  destruct (report_accounted quick_marshal no_rules no_report_faults fresh_uuid later (batch stray_batch) "agent" 7 ""
    (center_at lan) (report_at no_report_faults stray_batch "" (center_at lan)).1 (mkAck 1 1 0 1 1 false 0)
    ltac:(rewrite <- E; apply surjective_pairing)) as (_ & _ & _ & _ & H & _).
  exact (proj2 (proj2 (H eq_refl))).
Defined.

(** A host whose lookup failed is acknowledged with the rest, and the hash is
    stored: the next report of the same state skips it, though the database
    answers again. *)
Example failed_host_not_retried :
  let hosts := [seen_at "10.0.0.77" "00:11:22:33:44:77"] in
  let '(c1, r1) := report_at locked_database hosts "h" (center_at lan) in
  let '(c2, r2) := report_at no_report_faults hosts "h" c1 in
  r1 = ReportSuccess (mkAck 0 0 0 0 0 false 0) ∧ r2 = ReportSuccess (mkAck 0 0 0 0 0 true 0)
  ∧ (row_IP <$> devices c2) = ["10.0.0.5"; "10.0.0.9"].
Proof. vm_compute. done. Qed.

Definition null_marshal (j : json) : string := match j with JNull => "null" | _ => "json" end.

(** The ports of a host that an agent reports with its MAC are stored as null. *)
Example agent_ports_null :
  sr_Ports (scan_result null_marshal 1 (ReportedHostToReport (seen_at "10.0.0.77" "00:11:22:33:44:77"))) = "null".
Proof. vm_compute. reflexivity. Qed.
