(* ===== verification/Peer.v ===== *)
(** The reporter of a peer center (src/internal/service/peer/reporter.go):
    hosts are buffered, flushed in batches, and retried from a bounded queue.

    The lock protects the fields, not the posts: while a batch is on its way
    other goroutines go on.  So the state has the batches under way, and a flush
    is two actions, one that takes the buffer and one that ends the post.  The
    body of a request is the report it encodes; SHA-256 is the parameter
    [digest], the Go version and the host name are those of the process. *)

From S2P Require Import Prelude NetAddr Cidr Db Report DeviceStore StoreRecords AgentCommand Wire Topology AgentReport.
From stdpp Require sorting.

Open Scope Z_scope.

(** * The state hash *)

(** The fields of a host that the hash covers. *)
Definition state_fields (h : ReportedHost) : list string :=
  [rh_IP h; rh_MAC h; rh_InferredType h; rh_InferredBrand h; rh_InferredDescription h; rh_InferredLocation h;
   rh_Hostname h; rh_OpenPorts h; rh_DetectedServices h].

Definition ip_le (a b : ReportedHost) : Prop := String.leb (rh_IP a) (rh_IP b) = true.

#[export] Instance ip_le_dec : RelDecision ip_le.
Proof. intros a b. unfold ip_le. solve_decision. Defined.

(** Each field ends with a NUL byte. *)
Fixpoint nul_terminated (l : list string) : string :=
  match l with
  | [] => ""
  | s :: l => s +:+ String zero (nul_terminated l)
  end.

(** The sort of Go need not be stable; hosts with one address could come in any
    order. *)
Definition state_text (hosts : list ReportedHost) : string :=
  nul_terminated (concat (state_fields <$> sorting.merge_sort ip_le hosts)).

(** * The reporter *)

Record Reporter := mkReporter {
  rp_networkCIDR : string;
  rp_version : string;
  rp_startTime : Z;
  rp_buf : list ReportedHost;
  rp_bufScan : Z;
  rp_pending : list AgentReport;
  rp_maxBuf : Z;
  rp_maxPending : nat;
  rp_scansTotal : Z;
  rp_lastPostAt : option Z
}.

Definition NewReporter (networkCIDR version : string) (maxBuf now : Z) : Reporter :=
  mkReporter networkCIDR version now [] 0 [] (if maxBuf <=? 0 then 256 else maxBuf) 100 0 None.

Definition with_buffer (buf : list ReportedHost) (scan total : Z) (r : Reporter) : Reporter :=
  mkReporter (rp_networkCIDR r) (rp_version r) (rp_startTime r) buf scan (rp_pending r) (rp_maxBuf r) (rp_maxPending r)
    total (rp_lastPostAt r).

Definition with_pending (pending : list AgentReport) (r : Reporter) : Reporter :=
  mkReporter (rp_networkCIDR r) (rp_version r) (rp_startTime r) (rp_buf r) (rp_bufScan r) pending (rp_maxBuf r)
    (rp_maxPending r) (rp_scansTotal r) (rp_lastPostAt r).

Definition markPosted (now : Z) (r : Reporter) : Reporter :=
  mkReporter (rp_networkCIDR r) (rp_version r) (rp_startTime r) (rp_buf r) (rp_bufScan r) (rp_pending r) (rp_maxBuf r)
    (rp_maxPending r) (rp_scansTotal r) (Some now).

Definition reportable (rep : HostReport) : bool := hr_Alive rep && negb (bool_decide (hr_IP rep = "")).

(** The hosts a scan hands over; the flag says that the buffer is full. *)
Definition ReportScan (reports : list HostReport) (r : Reporter) : Reporter * bool :=
  let hosts := HostToReported <$> List.filter reportable reports in
  let buf := rp_buf r ++ hosts in
  (with_buffer buf (rp_bufScan r + Z.of_nat (length hosts)) (rp_scansTotal r + 1) r, rp_maxBuf r <=? Z.of_nat (length buf)).

Definition ReportPassive (rep : HostReport) (r : Reporter) : Reporter * bool :=
  if reportable rep then
    let buf := rp_buf r ++ [HostToReported rep] in
    (with_buffer buf (rp_bufScan r) (rp_scansTotal r) r, rp_maxBuf r <=? Z.of_nat (length buf))
  else (r, false).

(** A full queue drops its oldest batch: the second result. *)
Definition enqueuePending (body : AgentReport) (r : Reporter) : Reporter * list AgentReport :=
  if (rp_maxPending r <=? length (rp_pending r))%nat
  then (with_pending (drop 1 (rp_pending r) ++ [body]) r, take 1 (rp_pending r))
  else (with_pending (rp_pending r ++ [body]) r, []).

(** * Posting *)

Inductive answer :=
| Status (code : Z)
| NoAnswer.

Inductive posted := Accepted | Refused | Unsent.

#[export] Instance posted_eq_dec : EqDecision posted.
Proof. solve_decision. Defined.

(** Up to four attempts; [answers] and [cancelled] go by the attempt.  Both
    [Accepted] and [Refused] are [true] in the code: neither is tried again. *)
Fixpoint post_attempts (answers : nat → answer) (cancelled : nat → bool) (attempt fuel : nat) : posted :=
  match fuel with
  | O => Unsent
  | S fuel =>
      let again := if cancelled attempt then Unsent else post_attempts answers cancelled (S attempt) fuel in
      match answers attempt with
      | Status code => if (200 <=? code) && (code <? 300) then Accepted
                       else if (400 <=? code) && (code <? 500) && negb (code =? 429) then Refused
                       else again
      | NoAnswer => again
      end
  end.

Definition postWithRetry (answers : nat → answer) (cancelled : nat → bool) : posted := post_attempts answers cancelled 1 4.

(** * Goroutines *)

(** A post under way; a heartbeat has no hosts and is not queued again. *)
Record flight := mkFlight {
  fl_body : AgentReport;
  fl_hash : string;
  fl_heartbeat : bool;
  fl_ticker : bool
}.

(** The ticker drains the queue, then flushes the buffer. *)
Inductive ticker := Waiting | Draining (batches : list AgentReport) | Flushing.

Record peer := mkPeer {
  pe_rep : Reporter;
  pe_flights : list flight;
  pe_ticker : ticker;
  pe_spawned : nat                    (* flushes of a full buffer not begun yet *)
}.

Record outcome := mkOutcome { out_delivered : list AgentReport; out_refused : list AgentReport; out_dropped : list AgentReport }.

Definition nothing : outcome := mkOutcome [] [] [].

Section peer.
Context (digest : string → string) (goVersion hostname : string).

Definition NetworkStateHash (hosts : list ReportedHost) : string :=
  match hosts with [] => "" | _ => digest (state_text hosts) end.

Definition Meta (now : Z) (r : Reporter) : AgentMeta :=
  mkAgentMeta (rp_version r) goVersion hostname (Z.quot (now - rp_startTime r) nanos_per_second) (rp_scansTotal r) "" [] [].

(** The first half of [flushOnce]. *)
Definition begin_flush (now : Z) (by_ticker : bool) (r : Reporter) : Reporter * list flight :=
  match rp_buf r with
  | [] =>
      if match rp_lastPostAt r with Some t => now - t <? 30 * nanos_per_second | None => false end then (r, [])
      else (r, [mkFlight (mkAgentReport (rp_networkCIDR r) now (Some (Meta now r)) [] "") "" true by_ticker])
  | hosts =>
      let fromScan := 0 <? rp_bufScan r in
      (with_buffer [] 0 (rp_scansTotal r) r,
       [mkFlight (mkAgentReport (rp_networkCIDR r) now (Some (Meta now r)) hosts (if fromScan then "" else "passive"))
          (if fromScan then NetworkStateHash hosts else "") false by_ticker])
  end.

(** The second half. *)
Definition end_flush (now : Z) (fl : flight) (res : posted) (r : Reporter) : Reporter * outcome :=
  match res with
  | Accepted => (markPosted now r, mkOutcome [fl_body fl] [] [])
  | Refused => (markPosted now r, mkOutcome [] [fl_body fl] [])
  | Unsent =>
      if fl_heartbeat fl then (r, nothing)
      else let '(r, dropped) := enqueuePending (fl_body fl) r in (r, mkOutcome [] [] dropped)
  end.

(** [flushPending] after its posts: what was not sent goes before the queue. *)
Definition end_drain (batches : list AgentReport) (results : list posted) (r : Reporter) : Reporter * outcome :=
  let tried := zip batches (results ++ replicate (length batches) Unsent) in
  let sort p := fst <$> filter (fun br : AgentReport * posted => br.2 = p) tried in
  (with_pending (sort Unsent ++ rp_pending r) r, mkOutcome (sort Accepted) (sort Refused) []).

Inductive action :=
| AScan (reports : list HostReport)
| APassive (rep : HostReport)
| ATick
| ADrained (results : list posted)
| AFlush (now : Z)
| AFlushFull (now : Z)
| AEnd (i : nat) (res : posted) (now : Z).

Definition wake (full : bool) (p : peer) (r : Reporter) : peer :=
  mkPeer r (pe_flights p) (pe_ticker p) (if full then S (pe_spawned p) else pe_spawned p).

(** One action; an action that is not enabled changes nothing. *)
Definition act (p : peer) (a : action) : peer * outcome :=
  let r := pe_rep p in
  match a with
  | AScan reports => let '(r, full) := ReportScan reports r in (wake full p r, nothing)
  | APassive rep => let '(r, full) := ReportPassive rep r in (wake full p r, nothing)
  | ATick =>
      match pe_ticker p with
      | Waiting =>
          if existsb fl_ticker (pe_flights p) then (p, nothing)
          else (mkPeer (with_pending [] r) (pe_flights p)
                  (match rp_pending r with [] => Flushing | l => Draining l end) (pe_spawned p), nothing)
      | _ => (p, nothing)
      end
  | ADrained results =>
      match pe_ticker p with
      | Draining l => let '(r, out) := end_drain l results r in (mkPeer r (pe_flights p) Flushing (pe_spawned p), out)
      | _ => (p, nothing)
      end
  | AFlush now =>
      match pe_ticker p with
      | Flushing => let '(r, fl) := begin_flush now true r in
                    (mkPeer r (pe_flights p ++ fl) Waiting (pe_spawned p), nothing)
      | _ => (p, nothing)
      end
  | AFlushFull now =>
      match pe_spawned p with
      | S k => let '(r, fl) := begin_flush now false r in (mkPeer r (pe_flights p ++ fl) (pe_ticker p) k, nothing)
      | O => (p, nothing)
      end
  | AEnd i res now =>
      match pe_flights p !! i with
      | Some fl => let '(r, out) := end_flush now fl res r in
                   (mkPeer r (take i (pe_flights p) ++ drop (S i) (pe_flights p)) (pe_ticker p) (pe_spawned p), out)
      | None => (p, nothing)
      end
  end.

(** [Stop], once the loop and the flushes have ended: the queue and the buffer
    once more. *)
Definition Stop (results : list posted) (res : posted) (now : Z) : list action :=
  [ATick; ADrained results; AFlush now; AEnd 0 res now].

Definition join_outcomes (a b : outcome) : outcome :=
  mkOutcome (out_delivered a ++ out_delivered b) (out_refused a ++ out_refused b) (out_dropped a ++ out_dropped b).

Definition run_peer (p : peer) (acts : list action) : peer * outcome :=
  fold_left (fun po a => let '(p, o) := act po.1 a in (p, join_outcomes po.2 o)) acts (p, nothing).

End peer.
