(* ===== verification/PeerSpec.v ===== *)
(** What the peer reporter guarantees ([Peer]): no host is lost between the
    buffer, the posts under way and the queue, and the state hash sees exactly
    the fields it is meant to cover. *)

From S2P Require Import Prelude NetAddr Cidr Db Report DeviceStore StoreRecords AgentCommand Wire Topology AgentReport Peer.
From stdpp Require sorting.

Open Scope Z_scope.

(** * Conservation *)

Definition hosts_of (l : list AgentReport) : list ReportedHost := concat (ar_Hosts <$> l).
Arguments hosts_of : simpl never.

Lemma hosts_of_nil : hosts_of [] = [].
Proof. done. Qed.

Lemma hosts_of_cons b l : hosts_of (b :: l) = ar_Hosts b ++ hosts_of l.
Proof. done. Qed.

Lemma hosts_of_app l k : hosts_of (l ++ k) = hosts_of l ++ hosts_of k.
Proof. unfold hosts_of. by rewrite fmap_app, concat_app. Qed.

(** The hosts a reporter still answers for. *)
Definition in_transit (p : peer) : list ReportedHost :=
  rp_buf (pe_rep p) ++ hosts_of (rp_pending (pe_rep p)) ++ hosts_of (fl_body <$> pe_flights p)
  ++ match pe_ticker p with Draining l => hosts_of l | _ => [] end.

Definition settled (o : outcome) : list ReportedHost :=
  hosts_of (out_delivered o) ++ hosts_of (out_refused o) ++ hosts_of (out_dropped o).

Definition taken_in (a : action) : list ReportedHost :=
  match a with
  | AScan reports => HostToReported <$> List.filter reportable reports
  | APassive rep => if reportable rep then [HostToReported rep] else []
  | _ => []
  end.

(** Heartbeats carry no hosts. *)
Definition flights_ok (p : peer) : Prop := ∀ fl, fl ∈ pe_flights p → fl_heartbeat fl = true → ar_Hosts (fl_body fl) = [].

Lemma posted_split (l : list (AgentReport * posted)) :
  let sort p := fst <$> filter (fun br : AgentReport * posted => br.2 = p) l in
  hosts_of l.*1 ≡ₚ hosts_of (sort Unsent) ++ hosts_of (sort Accepted) ++ hosts_of (sort Refused).
Proof.
  cbv zeta. induction l as [|[b p] l IH]; [done|]. rewrite !filter_cons. cbn [fst snd fmap list_fmap].
  rewrite hosts_of_cons, IH.
  destruct p; repeat case_decide; try done; cbn [fmap list_fmap fst]; rewrite hosts_of_cons; solve_Permutation.
Qed.

Lemma hosts_of_take_drop l : hosts_of l = hosts_of (take 1 l) ++ hosts_of (drop 1 l).
Proof. by rewrite <- hosts_of_app, take_drop. Qed.

Section peer.
Context (digest : string → string) (goVersion hostname : string).
Notation act := (act digest goVersion hostname).

Lemma begin_flush_hosts now t r :
  let '(r', fl) := begin_flush digest goVersion hostname now t r in
  rp_buf r ≡ₚ rp_buf r' ++ hosts_of (fl_body <$> fl) ∧ rp_pending r' = rp_pending r
  ∧ ∀ x, x ∈ fl → fl_heartbeat x = true → ar_Hosts (fl_body x) = [].
Proof.
  unfold begin_flush. destruct (rp_buf r) as [|h hs] eqn:E.
  - destruct (match rp_lastPostAt r with Some _ => _ | None => _ end); rewrite E; split_and!; try done.
    + by intros x ?%elem_of_nil.
    + by intros x ->%list_elem_of_singleton.
  - cbn. unfold hosts_of. cbn. rewrite app_nil_r. split_and!; [done..|]. by intros x ->%list_elem_of_singleton.
Qed.

Lemma enqueue_hosts body r :
  let '(r', dropped) := enqueuePending body r in
  rp_buf r' = rp_buf r ∧ hosts_of (rp_pending r) ++ ar_Hosts body ≡ₚ hosts_of (rp_pending r') ++ hosts_of dropped.
Proof.
  unfold enqueuePending. destruct (_ <=? _)%nat; cbn [with_pending rp_buf rp_pending]; (split; [done|]);
    rewrite hosts_of_app, hosts_of_cons, hosts_of_nil, ?app_nil_r; [|solve_Permutation].
  rewrite (hosts_of_take_drop (rp_pending r)) at 1. solve_Permutation.
Qed.

Lemma end_flush_hosts now fl res r :
  (fl_heartbeat fl = true → ar_Hosts (fl_body fl) = []) →
  let '(r', o) := end_flush now fl res r in
  rp_buf r' = rp_buf r
  ∧ hosts_of (rp_pending r) ++ ar_Hosts (fl_body fl) ≡ₚ hosts_of (rp_pending r') ++ settled o.
Proof.
  intros Hh. unfold end_flush, settled. destruct res; cbn; rewrite ?hosts_of_cons, ?hosts_of_nil, ?app_nil_r; try done.
  destruct (fl_heartbeat fl).
  - cbn. rewrite Hh, ?hosts_of_nil, ?app_nil_r by done. done.
  - pose proof (enqueue_hosts (fl_body fl) r) as H. by destruct (enqueuePending (fl_body fl) r).
Qed.

Lemma act_conserves p a :
  flights_ok p →
  let '(p', o) := act p a in
  flights_ok p' ∧ in_transit p ++ taken_in a ≡ₚ in_transit p' ++ settled o.
Proof.
  intros Hf. unfold in_transit, settled. destruct p as [r fls t k]. destruct a as [reports|rep| |results|now|now|i res now]; cbn.
  - split; [done|]. solve_Permutation.
  - unfold ReportPassive. destruct (reportable rep); cbn; (split; [done|]); solve_Permutation.
  - destruct t; cbn; rewrite ?app_nil_r; [|done..]. destruct (existsb _ _); cbn; rewrite ?app_nil_r; [done|].
    split; [done|]. destruct (rp_pending r) eqn:E; cbn; rewrite ?app_nil_r; [done|]. solve_Permutation.
  - destruct t as [|l|]; cbn; rewrite ?app_nil_r; [done| |done]. split; [done|].
    rewrite hosts_of_app.
    pose proof (posted_split (zip l (results ++ replicate (length l) Unsent))) as Hl.
    rewrite fst_zip in Hl by (rewrite length_app, length_replicate; lia). cbv zeta in Hl.
    rewrite Hl. solve_Permutation.
  - destruct t as [|l|]; cbn; rewrite ?app_nil_r; [done..|].
    pose proof (begin_flush_hosts now true r) as H. destruct (begin_flush _ _ _ _ _ r) as [r' fl]. destruct H as (H1 & H2 & H3).
    cbn. rewrite ?app_nil_r, H2, fmap_app, hosts_of_app. split.
    + intros x [Hx|Hx]%elem_of_app; [by apply Hf|by apply H3].
    + rewrite H1. solve_Permutation.
  - destruct k as [|k]; cbn; rewrite ?app_nil_r; [done|].
    pose proof (begin_flush_hosts now false r) as H. destruct (begin_flush _ _ _ _ _ r) as [r' fl]. destruct H as (H1 & H2 & H3).
    cbn. rewrite ?app_nil_r, H2, fmap_app, hosts_of_app. split.
    + intros x [Hx|Hx]%elem_of_app; [by apply Hf|by apply H3].
    + rewrite H1. solve_Permutation.
  - destruct (fls !! i) as [fl|] eqn:E; cbn; rewrite ?app_nil_r; [|done].
    assert (hosts_of (fl_body <$> fls) ≡ₚ ar_Hosts (fl_body fl) ++ hosts_of (fl_body <$> take i fls ++ drop (S i) fls)) as Hi.
    { rewrite <- (take_drop_middle _ _ _ E) at 1. rewrite !fmap_app, !hosts_of_app. cbn [fmap list_fmap].
      rewrite hosts_of_cons. solve_Permutation. }
    pose proof (end_flush_hosts now fl res r (Hf fl (list_elem_of_lookup_2 _ _ _ E))) as H.
    destruct (end_flush now fl res r) as [r' o]. destruct H as (H1 & H2). cbn. rewrite ?app_nil_r, H1, Hi. split.
    + intros x Hx. apply Hf. cbn in *. rewrite <- (take_drop_middle _ _ _ E).
      apply elem_of_app in Hx as [Hx|Hx]; apply elem_of_app; [by left|by do 2 right].
    + unfold settled in H2. set (d := match t with Draining l => hosts_of l | _ => [] end). set (f := hosts_of (fl_body <$> _)).
      transitivity ((hosts_of (rp_pending r) ++ ar_Hosts (fl_body fl)) ++ rp_buf r ++ f ++ d); [solve_Permutation|].
      rewrite H2. solve_Permutation.
Qed.

Lemma join_settled a b : settled (join_outcomes a b) ≡ₚ settled a ++ settled b.
Proof. unfold settled. cbn. rewrite !hosts_of_app. solve_Permutation. Qed.

Lemma run_conserves p acts :
  flights_ok p →
  let '(p', o) := run_peer digest goVersion hostname p acts in
  flights_ok p' ∧ in_transit p ++ concat (taken_in <$> acts) ≡ₚ in_transit p' ++ settled o.
Proof.
  intros Hf. induction acts as [|a acts IH] using rev_ind; [done|].
  unfold run_peer. rewrite fold_left_app. fold (run_peer digest goVersion hostname p acts). cbn [fold_left].
  destruct (run_peer _ _ _ p acts) as [p1 o1]. destruct IH as [Hf1 IH]. cbn [fst snd].
  pose proof (act_conserves p1 a Hf1) as H. destruct (act p1 a) as [p2 o2]. destruct H as [Hf2 H]. split; [done|].
  rewrite fmap_app, concat_app, join_settled. cbn [fmap list_fmap concat]. rewrite app_nil_r.
  transitivity ((in_transit p ++ concat (taken_in <$> acts)) ++ taken_in a); [solve_Permutation|]. rewrite IH.
  transitivity ((in_transit p1 ++ taken_in a) ++ settled o1); [solve_Permutation|]. rewrite H. solve_Permutation.
Qed.

End peer.

Definition start_peer (r : Reporter) : peer := mkPeer r [] Waiting 0.

(** C24.  No host gets lost on the way to the peer.  Whatever scans, sightings, ticks,
    posts and answers interleave, every host that was alive with an address is
    either still in transit (buffered, in a post under way, queued or being
    drained) or was delivered, refused by the peer, or dropped with the oldest
    batch of a full queue; and nothing else ever is. *)
Theorem reporter_conserves digest goVersion hostname networkCIDR version maxBuf now acts :
  let '(p, o) := run_peer digest goVersion hostname (start_peer (NewReporter networkCIDR version maxBuf now)) acts in
  concat (taken_in <$> acts)
  ≡ₚ in_transit p ++ hosts_of (out_delivered o) ++ hosts_of (out_refused o) ++ hosts_of (out_dropped o).
Proof.
  pose proof (run_conserves digest goVersion hostname (start_peer (NewReporter networkCIDR version maxBuf now)) acts) as H.
  destruct (run_peer _ _ _ _ acts) as [p o]. destruct H as [_ H]; [by intros fl ?%elem_of_nil|exact H].
Qed.

(** Stopping while the peer accepts leaves nothing behind. *)
Lemma stop_drains digest goVersion hostname r now :
  in_transit (run_peer digest goVersion hostname (start_peer r)
                (Stop ((fun _ => Accepted) <$> rp_pending r) Accepted now)).1 = [].
Proof.
  assert (∀ l : list AgentReport,
    filter (fun br : AgentReport * posted => br.2 = Unsent)
      (zip l (((fun _ => Accepted) <$> l) ++ replicate (length l) Unsent)) = []) as Hz.
  { intros l. generalize (replicate (length l) Unsent). induction l as [|b l IH]; [done|]. intros k. cbn [fmap list_fmap app zip zip_with].
    rewrite filter_cons_False by done. apply IH. }
  unfold run_peer, start_peer, Stop. cbn [fold_left act pe_ticker pe_flights existsb pe_rep fst snd].
  destruct (rp_pending r) as [|b l] eqn:E; cbn [act pe_ticker pe_rep pe_flights fst snd].
  - unfold begin_flush. destruct r as [? ? ? buf]. cbn in E |- *. subst. destruct buf; cbn; [|done].
    by destruct rp_lastPostAt as [t|]; [cbn; destruct (now - t <? _)|].
  - unfold end_drain. rewrite Hz. cbv zeta. cbn [fst snd act pe_ticker pe_rep pe_flights fmap list_fmap].
    unfold begin_flush. destruct r as [? ? ? buf]. cbn in E |- *. destruct buf; cbn; [|done].
    by destruct rp_lastPostAt as [t|]; [cbn; destruct (now - t <? _)|].
Qed.

(** * The cap of the queue *)

Definition sighted : HostReport := mkReport "10.0.0.5" true 3 ∅ [] [] [] true.

(** A full buffer is flushed while the ticker drains the queue; no post gets
    through, nor does the heartbeat that follows. *)
Definition outage : list action :=
  [ATick; APassive sighted; AFlushFull 0; AEnd 0 Unsent 0; ADrained []; AFlush 0; AEnd 0 Unsent 0].

Definition idle (l : list AgentReport) : peer := start_peer (mkReporter "" "" 0 [] 0 l 1 100 0 None).

Definition lost_batch : AgentReport :=
  mkAgentReport "" 0 (Some (mkAgentMeta "" "" "" 0 0 "" [] [])) [HostToReported sighted] "passive".

Lemma all_unsent (l : list AgentReport) n :
  (length l ≤ n)%nat →
  fst <$> filter (fun br : AgentReport * posted => br.2 = Unsent) (zip l (replicate n Unsent)) = l.
Proof.
  revert n. induction l as [|b l IH]; intros [|n] H; try done; cbn in H; [lia|]. cbn [replicate zip zip_with].
  rewrite filter_cons_True by done. cbn [fmap list_fmap fst]. rewrite IH by lia. done.
Qed.

Lemma none_sent (l : list AgentReport) n q :
  q ≠ Unsent → filter (fun br : AgentReport * posted => br.2 = q) (zip l (replicate n Unsent)) = [].
Proof.
  intros Hq. revert n. induction l as [|b l IH]; intros [|n]; try done. cbn [replicate zip zip_with].
  rewrite filter_cons_False by (cbn; congruence). apply IH.
Qed.

Lemma unsent_drain l r : end_drain l [] r = (with_pending (l ++ rp_pending r) r, nothing).
Proof. unfold end_drain. cbv zeta. cbn [app]. by rewrite all_unsent, !none_sent. Qed.

Lemma run_peer_app digest p acts more :
  (run_peer digest "" "" p (acts ++ more)).1 = (run_peer digest "" "" (run_peer digest "" "" p acts).1 more).1.
Proof.
  unfold run_peer. rewrite fold_left_app. set (po := fold_left _ acts _). clearbody po. destruct po as [q o]. cbn [fst].
  generalize nothing. intros o'. clear p. revert q o o'. induction more as [|a more IH]; intros q o o'; [done|].
  cbn. destruct (act _ _ _ q a). apply IH.
Qed.

Definition queued (l : list AgentReport) (t : ticker) : peer := mkPeer (mkReporter "" "" 0 [] 0 l 1 100 0 None) [] t 0.

Lemma outage_grows digest l : (run_peer digest "" "" (idle l) outage).1 = idle (l ++ [lost_batch]).
Proof.
  destruct l as [|b l]; [reflexivity|]. change outage with (take 4 outage ++ [ADrained []] ++ drop 5 outage).
  rewrite !run_peer_app.
  assert ((run_peer digest "" "" (idle (b :: l)) (take 4 outage)).1 = queued [lost_batch] (Draining (b :: l))) as ->
    by reflexivity.
  assert ((run_peer digest "" "" (queued [lost_batch] (Draining (b :: l))) [ADrained []]).1
          = queued ((b :: l) ++ [lost_batch]) Flushing) as ->.
  { unfold run_peer. cbn [fold_left fst snd act queued pe_ticker pe_rep]. by rewrite unsent_drain. }
  reflexivity.
Qed.

(** The queue is not bounded by its cap: what a drain could not send is put
    back before the batches that were queued meanwhile, without a check, so a
    long outage makes it as long as one likes. *)
Theorem pending_exceeds_cap digest k :
  ∃ acts, length (rp_pending (pe_rep (run_peer digest "" "" (idle []) acts).1)) = k.
Proof.
  assert (∃ acts l, (run_peer digest "" "" (idle []) acts).1 = idle l ∧ length l = k) as (acts & l & E & <-).
  { induction k as [|k (acts & l & E & <-)]; [by exists [], []|]. exists (acts ++ outage), (l ++ [lost_batch]).
    split; [|rewrite length_app; cbn; lia]. by rewrite run_peer_app, E, outage_grows. }
  exists acts. by rewrite E.
Qed.

(** * The state hash *)

Definition nul_free (s : string) : bool := negb (str_mem zero s).

Lemma terminated_inj s t r r' :
  nul_free s = true → nul_free t = true → s +:+ String zero r = t +:+ String zero r' → s = t ∧ r = r'.
Proof.
  unfold nul_free. rewrite !negb_true_iff. revert t.
  induction s as [|a s IH]; intros [|b t] Hs Ht E; cbn [str_mem] in *;
    repeat match goal with H : _ || _ = false |- _ => apply orb_false_iff in H as [] end;
    cbn in E; injection E; intros; subst; try done.
  destruct (IH t) as [-> ->]; auto.
Qed.

Lemma nul_terminated_inj l k :
  Forall (fun s => nul_free s = true) l → Forall (fun s => nul_free s = true) k →
  nul_terminated l = nul_terminated k → l = k.
Proof.
  revert k. induction l as [|s l IH]; intros [|t k] Hl Hk E; cbn in E; try done.
  - by destruct t.
  - by destruct s.
  - inv Hl. inv Hk. apply terminated_inj in E as [-> E]; [|done..]. f_equal. by apply IH.
Qed.

(** Rows of one width are determined by their concatenation. *)
Lemma concat_width_inj {A} (n : nat) (l k : list (list A)) :
  n ≠ 0%nat → Forall (fun x => length x = n) l → Forall (fun x => length x = n) k → concat l = concat k → l = k.
Proof.
  intros Hn. revert k. induction l as [|x l IH]; intros [|y k] Hl Hk E; try done.
  - inv Hk. destruct y; [done|discriminate].
  - inv Hl. destruct x; [done|discriminate].
  - inv Hl. inv Hk. cbn in E. apply app_inj_1 in E as [-> E]; [|congruence]. f_equal. by apply IH.
Qed.

#[local] Instance ip_le_trans : Transitive ip_le.
Proof. intros a b c. apply leb_trans. Qed.

#[local] Instance ip_le_total : Total ip_le.
Proof. intros a b. apply String.leb_total. Qed.

(** What a batch says to the hash. *)
Definition state_view (hosts : list ReportedHost) : list (list string) := state_fields <$> hosts.

Definition plain_batch (hosts : list ReportedHost) : Prop :=
  Forall (fun h => Forall (fun s => nul_free s = true) (state_fields h)) hosts ∧ NoDup (rh_IP <$> hosts).

Lemma same_ip hosts h k : NoDup (rh_IP <$> hosts) → h ∈ hosts → k ∈ hosts → rh_IP h = rh_IP k → h = k.
Proof.
  intros Hn (i & Hi)%list_elem_of_lookup (j & Hj)%list_elem_of_lookup E.
  assert (i = j) as ->; [|congruence]. apply (proj1 (NoDup_alt _) Hn i j (rh_IP h)); rewrite list_lookup_fmap, ?Hi, ?Hj; cbn;
    congruence.
Qed.

Definition view_le (x y : list string) : Prop := String.leb (default "" (head x)) (default "" (head y)) = true.

Lemma view_sorted hosts : Sorted.StronglySorted view_le (state_view (sorting.merge_sort ip_le hosts)).
Proof.
  pose proof (sorting.StronglySorted_merge_sort ip_le hosts) as Hs. revert Hs. generalize (sorting.merge_sort ip_le hosts).
  intros l. induction 1 as [|h l _ IH Hh]; [constructor|]. constructor; [done|].
  apply Forall_fmap. eapply Forall_impl; [|exact Hh]. done.
Qed.

Lemma sorted_batch a b :
  NoDup (rh_IP <$> a) → state_view a ≡ₚ state_view b →
  state_view (sorting.merge_sort ip_le a) = state_view (sorting.merge_sort ip_le b).
Proof.
  intros Hn Hp.
  assert (∀ l, state_view (sorting.merge_sort ip_le l) ≡ₚ state_view l) as Hm
    by (intros l; apply fmap_Permutation, sorting.merge_sort_Permutation).
  apply (sorting.StronglySorted_unique_strong view_le); [|apply view_sorted..|by rewrite !Hm].
  intros x y. rewrite !Hm, <- Hp. intros (h & -> & Hh)%list_elem_of_fmap (k & -> & Hk)%list_elem_of_fmap H1 H2.
  f_equal. eapply same_ip; [done..|]. unfold view_le in *. cbn in *. by apply String.leb_antisym.
Qed.

(** The hash input is exact.  For batches with distinct addresses and fields
    without NUL bytes, two texts are equal exactly when the batches agree, in any
    order, on the covered fields of their hosts: the order of discovery does not
    matter, and no difference in a covered field is hidden by the encoding. *)
Theorem state_text_exact a b (Ha : plain_batch a) (Hb : plain_batch b) :
  state_text a = state_text b ↔ state_view a ≡ₚ state_view b.
Proof.
  destruct Ha as [Fa Na], Hb as [Fb _].
  assert (∀ l, state_view (sorting.merge_sort ip_le l) ≡ₚ state_view l) as Hm
    by (intros l; apply fmap_Permutation, sorting.merge_sort_Permutation).
  assert (∀ l, Forall (fun h => Forall (fun s => nul_free s = true) (state_fields h)) l →
    Forall (fun s => nul_free s = true) (concat (state_view (sorting.merge_sort ip_le l)))) as Hf.
  { intros l Hl. apply Forall_concat, Forall_fmap. rewrite sorting.merge_sort_Permutation. exact Hl. }
  unfold state_text. fold (state_view (sorting.merge_sort ip_le a)) (state_view (sorting.merge_sort ip_le b)). split.
  - intros E. apply nul_terminated_inj in E; [|by apply Hf..].
    apply (concat_width_inj 9) in E; [|done|apply Forall_fmap, Forall_forall; done..]. by rewrite <- Hm, E, Hm.
  - intros Hp. by rewrite (sorted_batch a b).
Qed.

Definition two_hosts : list ReportedHost :=
  [HostToReported sighted; HostToReported (mkReport "10.0.0.4" true 1 {["node_hostname" := "nas"]} [] [] [] false)].

Lemma state_text_exact_witness : state_text two_hosts = state_text (reverse two_hosts).
Proof.
  assert (plain_batch two_hosts) as H1 by (split; refine (bool_decide_unpack _ _); vm_compute; exact I).
  assert (plain_batch (reverse two_hosts)) as H2 by (split; refine (bool_decide_unpack _ _); vm_compute; exact I).
  apply (state_text_exact two_hosts (reverse two_hosts) H1 H2). unfold state_view. by rewrite (reverse_Permutation two_hosts).
Defined.

(** A scan puts no ports into the fields the hash covers: a service that
    appears on a known host leaves the text as it was. *)
Example new_service_unseen :
  let host services := HostToReported (mkReport "10.0.0.5" true 3 {["mac" := "00:11:22:33:44:55"]} [] services [] false) in
  state_text [host []] = state_text [host [mkService "telnet" 23 "tcp" 900 ∅]].
Proof. vm_compute. reflexivity. Qed.
