(* ===== verification/Flows.v ===== *)
(** Flow telemetry (src/internal/service/flows): the folding of flow samples
    into totals per device and peer (fold.go), and their ingestion into the
    speaks-with table (service.go).

    An address is its bytes with a flag for a zone; [encoding/json] is the
    parameter [marshal].  A batch is ingested as one step: the caches are read
    and filled under the lock and the writes are one transaction. *)

From S2P Require Import Prelude NetAddr Cidr Db ChangeDetect DeviceStore RateLimit.
From stdpp Require sorting.

Open Scope Z_scope.

(** * Addresses and prefixes of [net/netip] *)

Record Addr := mkAddr { ad_bytes : ip; ad_zone : bool }.

Definition parse_addr (s : string) : option Addr :=
  match addr_kind_of s with
  | KindV4 => (fun b => mkAddr b false) <$> parseIPv4 s
  | KindV6 =>
      match cut_at "%"%char s with
      | None => (fun b => mkAddr b false) <$> parseIPv6 s
      | Some (base, zone) => if is_empty zone then None else (fun b => mkAddr b true) <$> parseIPv6 base
      end
  | KindNone => None
  end.

Definition Unmap (a : Addr) : Addr :=
  if (length (ad_bytes a) =? 16)%nat && bytes_eqb (take 12 (ad_bytes a)) v4InV6Prefix
  then mkAddr (drop 12 (ad_bytes a)) false else a.

Record Prefix := mkPrefix { pf_ip : ip; pf_bits : Z }.

(** [netip.ParsePrefix]: no zone, no sign and no leading zero in the length. *)
Definition ParsePrefix (s : string) : option Prefix :=
  match last_index_char "/"%char s with
  | None => None
  | Some i =>
      let bitsStr := String.substring (S i) (String.length s) s in
      match parse_addr (String.substring 0 i s) with
      | Some (mkAddr a false) =>
          if (1 <? String.length bitsStr)%nat
             && match bitsStr with
                | String c _ => negb ((49 <=? ascii_Z c) && (ascii_Z c <=? 57))
                | EmptyString => false
                end
          then None
          else match atoi bitsStr with
               | Some bits => if (bits <? 0) || (8 * Z.of_nat (length a) <? bits) then None else Some (mkPrefix a bits)
               | None => None
               end
      | _ => None
      end
  end.

Definition prefix_contains (p : Prefix) (a : Addr) : bool :=
  negb (ad_zone a) && (length (pf_ip p) =? length (ad_bytes a))%nat && negb (length (ad_bytes a) =? 0)%nat
  && let m := CIDRMask (pf_bits p) (length (pf_ip p)) in bytes_eqb (and_bytes (pf_ip p) m) (and_bytes (ad_bytes a) m).

(** * Folding *)

Record FlowSample := mkSample {
  fs_SrcIP : string;
  fs_DstIP : string;
  fs_Proto : Z;
  fs_Dport : Z;
  fs_Bytes : Z;
  fs_Packets : Z
}.

Record Agg := mkAgg { ag_DeviceIP : string; ag_PeerIP : string; ag_BytesOut : Z; ag_BytesIn : Z }.

Abbreviation aggKey := (string * string)%type.

Definition contains (prefixes : list Prefix) (addr : Addr) : bool :=
  let addr := Unmap addr in existsb (fun p => prefix_contains p addr) prefixes.

(** The closure [add]. *)
Definition add_bytes (device peer : string) (outB inB : Z) (out : gmap aggKey (Z * Z)) : gmap aggKey (Z * Z) :=
  let '(o, i) := default (0, 0) (out !! (device, peer)) in
  <[(device, peer) := (u64 (o + outB), u64 (i + inB))]> out.

Definition fold_sample (prefixes : list Prefix) (out : gmap aggKey (Z * Z)) (s : FlowSample) : gmap aggKey (Z * Z) :=
  match parse_addr (fs_SrcIP s), parse_addr (fs_DstIP s) with
  | Some src, Some dst =>
      match contains prefixes src, contains prefixes dst with
      | true, true => add_bytes (fs_DstIP s) (fs_SrcIP s) 0 (fs_Bytes s) (add_bytes (fs_SrcIP s) (fs_DstIP s) (fs_Bytes s) 0 out)
      | true, false => add_bytes (fs_SrcIP s) (fs_DstIP s) (fs_Bytes s) 0 out
      | false, true => add_bytes (fs_DstIP s) (fs_SrcIP s) 0 (fs_Bytes s) out
      | false, false => out
      end
  | _, _ => out
  end.

Definition agg_le (a b : Agg) : Prop :=
  if decide (ag_DeviceIP a = ag_DeviceIP b) then String.leb (ag_PeerIP a) (ag_PeerIP b) = true
  else String.leb (ag_DeviceIP a) (ag_DeviceIP b) = true.

#[export] Instance agg_le_dec : RelDecision agg_le.
Proof. intros a b. unfold agg_le. case_decide; apply _. Defined.

Definition agg_of (kv : aggKey * (Z * Z)) : Agg := mkAgg kv.1.1 kv.1.2 kv.2.1 kv.2.2.

Definition Fold (samples : list FlowSample) (prefixes : list Prefix) : list Agg :=
  sorting.merge_sort agg_le (agg_of <$> map_to_list (fold_left (fold_sample prefixes) samples ∅)).

(** * The service *)

Definition cacheTTL : Z := 5 * minute.

Record FlowService := mkFlowService {
  sv_prefixT : option Z;               (* None: the zero time *)
  sv_prefixCache : list Prefix;
  sv_deviceT : option Z;
  sv_deviceIDs : gmap string Z
}.

Definition NewService : FlowService := mkFlowService None [] None ∅.

(** A byte column: SQLite turns a sum beyond 64 bits into a floating-point value. *)
Inductive counter := Exact (n : Z) | Inexact.

Definition counter_add (c : counter) (n : Z) : counter :=
  match c with
  | Exact m => if (min_int64 <=? m + n) && (m + n <=? max_int64) then Exact (m + n) else Inexact
  | Inexact => Inexact
  end.

Record SpeakRow := mkSpeak {
  sp_PeerDeviceID : option Z;
  sp_BytesOut : counter;
  sp_BytesIn : counter;
  sp_FirstSeen : Z;
  sp_LastSeen : Z
}.

Definition speaks : Type := gmap (Z * string) SpeakRow.

(** What the statements of the service touch. *)
Record flow_db := mkFlowDb {
  fd_networks : list Network;
  fd_devices : list DeviceRow;
  fd_speaks : speaks;
  fd_changeLog : list ChangeLog;
  fd_watcher : option Watcher
}.

(** A pair of devices to announce. *)
Record newPair := mkNewPair { pr_deviceID : Z; pr_peerID : Z; pr_peerIP : string; pr_bytes : Z }.

(** Which statements succeed. *)
Record db_answers := mkAnswers {
  an_networks : bool;
  an_device : string → bool;
  an_begin : bool;
  an_probe : Z → string → bool;
  an_upsert : Z → string → bool;
  an_commit : bool;
  an_log : newPair → option Z          (* the id of the inserted row *)
}.

Definition fresh_at (now : Z) (t : option Z) : bool :=
  match t with Some t => now - t <? cacheTTL | None => false end.

Definition managedPrefixes (an : db_answers) (now : Z) (db : flow_db) (s : FlowService) : FlowService * list Prefix :=
  if fresh_at now (sv_prefixT s) then (s, sv_prefixCache s)
  else if an_networks an then
    let out := omap (fun n => net_Cidr n ≫= ParsePrefix) (fd_networks db) in
    (mkFlowService (Some now) out (sv_deviceT s) (sv_deviceIDs s), out)
  else (s, sv_prefixCache s).

Definition mustAddr (s : string) : Addr :=
  match parse_addr s with Some a => Unmap a | None => mkAddr [] false end.

Definition GetDeviceByIP (ip : string) (rows : list DeviceRow) : option DeviceRow :=
  List.find (fun r => bool_decide (row_IP r = ip)) rows.

Definition distinct_ips (prefixes : list Prefix) (aggs : list Agg) : gset string :=
  list_to_set (a ← aggs; ag_DeviceIP a :: if contains prefixes (mustAddr (ag_PeerIP a)) then [ag_PeerIP a] else []).

Definition resolve_ip (an : db_answers) (db : flow_db) (ids : gmap string Z) (ip : string) : gmap string Z :=
  match ids !! ip with
  | Some _ => ids
  | None => match (if an_device an ip then GetDeviceByIP ip (fd_devices db) else None) with
            | Some d => <[ip := row_ID d]> ids
            | None => ids
            end
  end.

Definition resolveDevices (an : db_answers) (now : Z) (db : flow_db) (prefixes : list Prefix) (aggs : list Agg)
    (s : FlowService) : FlowService * gmap string Z :=
  if fresh_at now (sv_deviceT s) then (s, sv_deviceIDs s)
  else
    let ids := fold_left (resolve_ip an db) (elements (distinct_ips prefixes aggs)) (sv_deviceIDs s) in
    (mkFlowService (sv_prefixT s) (sv_prefixCache s) (Some now) ids, ids).

Definition networkOf (db : flow_db) (deviceID : Z) : option Z :=
  d ← List.find (fun r => row_ID r =? deviceID) (fd_devices db); row_Network d.

Definition nullInt64 (v : Z) : option Z := if v =? 0 then None else Some v.

(** The upsert of one row. *)
Definition upsert_speaks (deviceID : Z) (peerIP : string) (peer : option Z) (outB inB now : Z) (t : speaks) : speaks :=
  <[(deviceID, peerIP) :=
      match t !! (deviceID, peerIP) with
      | None => mkSpeak peer (Exact outB) (Exact inB) now now
      | Some r => mkSpeak (match peer with Some p => Some p | None => sp_PeerDeviceID r end)
                    (counter_add (sp_BytesOut r) outB) (counter_add (sp_BytesIn r) inB) (sp_FirstSeen r) now
      end]> t.

(** The device and the peer a row is attributed to; 0 is an unknown peer. *)
Definition attribute_agg (ids : gmap string Z) (prefixes : list Prefix) (a : Agg) : option (Z * Z) :=
  deviceID ← ids !! ag_DeviceIP a;
  Some (deviceID, match ids !! ag_PeerIP a with
                  | Some id => if contains prefixes (mustAddr (ag_PeerIP a)) then id else 0
                  | None => 0
                  end).

(** One turn of the loop of [Ingest]: the table of the transaction and the pairs
    to announce. *)
Definition ingest_agg (an : db_answers) (now : Z) (ids : gmap string Z) (prefixes : list Prefix)
    (te : speaks * list newPair) (a : Agg) : speaks * list newPair :=
  let '(t, events) := te in
  match attribute_agg ids prefixes a with
  | None => (t, events)
  | Some (deviceID, peerID) =>
      let isNew := negb (peerID =? 0) && (deviceID <? peerID) && an_probe an deviceID (ag_PeerIP a)
                   && bool_decide (t !! (deviceID, ag_PeerIP a) = None) in
      if an_upsert an deviceID (ag_PeerIP a) then
        (upsert_speaks deviceID (ag_PeerIP a) (nullInt64 peerID) (i64 (ag_BytesOut a)) (i64 (ag_BytesIn a)) now t,
         if isNew
         then events ++ [mkNewPair deviceID peerID (ag_PeerIP a) (u64 (ag_BytesOut a + ag_BytesIn a))]
         else events)
      else (t, events)
  end.

Section flows.
Context (marshal : json → string).

Definition first_seen_row (id : Z) (db : flow_db) (now : Z) (ev : newPair) : ChangeLog :=
  mkChangeLog id None (networkOf db (pr_deviceID ev)) ChangeTypeSpeaksWithNew EntityTypeDevice (Some (pr_deviceID ev)) None
    (Some (marshal (JObject
       [("bytes_total", JNumber (itoa (pr_bytes ev))); ("peer_device_id", JNumber (itoa (pr_peerID ev)));
        ("peer_ip", JString (pr_peerIP ev)); ("source", JString "passive:ebpf:flows")]))) now.

(** [None] is a panic of the watcher. *)
Definition emitFirstSeen (an : db_answers) (now : Z) (db : option flow_db) (ev : newPair) : option flow_db :=
  db ← db;
  match an_log an ev with
  | None => Some db
  | Some id =>
      let row := first_seen_row id db now ev in
      let put w := mkFlowDb (fd_networks db) (fd_devices db) (fd_speaks db) (fd_changeLog db ++ [row]) w in
      match fd_watcher db with
      | None => Some (put None)
      | Some w => (fun w => put (Some w)) <$> Push w row
      end
  end.

Definition Ingest (an : db_answers) (now : Z) (samples : list FlowSample) (s : FlowService) (db : flow_db)
    : option (FlowService * flow_db) :=
  match samples with
  | [] => Some (s, db)
  | _ =>
      let '(s, prefixes) := managedPrefixes an now db s in
      match Fold samples prefixes with
      | [] => Some (s, db)
      | aggs =>
          let '(s, ids) := resolveDevices an now db prefixes aggs s in
          if negb (an_begin an) then Some (s, db)
          else
            let '(t, events) := fold_left (ingest_agg an now ids prefixes) aggs (fd_speaks db, []) in
            if negb (an_commit an) then Some (s, db)
            else
              let db := mkFlowDb (fd_networks db) (fd_devices db) t (fd_changeLog db) (fd_watcher db) in
              pair s <$> fold_left (emitFirstSeen an now) events (Some db)
      end
  end.

End flows.
