(* ===== verification/FlowsSpec.v ===== *)
(** What flow telemetry guarantees ([Flows]): the fold computes the totals per
    device and peer and nothing else, the table accounts for every attributed
    byte, and a pair is announced once. *)

From S2P Require Import Prelude NetAddr Cidr Db ChangeDetect DeviceStore RateLimit Flows.
From stdpp Require sorting.

Open Scope Z_scope.

(** * The fold *)

Definition managed (prefixes : list Prefix) (ip : string) : bool :=
  match parse_addr ip with Some a => contains prefixes a | None => false end.

Definition parses (ip : string) : bool := match parse_addr ip with Some _ => true | None => false end.

(** A sample that shows [d] at one end and [p] at the other: sending to it, or
    receiving from it. *)
Definition shows (here there : FlowSample → string) (prefixes : list Prefix) (d p : string) (s : FlowSample) : bool :=
  bool_decide (here s = d) && bool_decide (there s = p) && parses p && managed prefixes d.

Abbreviation shows_out := (shows fs_SrcIP fs_DstIP).
Abbreviation shows_in := (shows fs_DstIP fs_SrcIP).

Fixpoint sum_bytes (f : FlowSample → bool) (samples : list FlowSample) : Z :=
  match samples with
  | [] => 0
  | s :: l => (if f s then fs_Bytes s else 0) + sum_bytes f l
  end.

Lemma sum_bytes_app f l k : sum_bytes f (l ++ k) = sum_bytes f l + sum_bytes f k.
Proof. induction l as [|s l IH]; [done|]. cbn. rewrite IH. lia. Qed.

Lemma u64_add a b : u64 (u64 a + b) = u64 (a + b).
Proof. unfold u64. by rewrite Zplus_mod_idemp_l. Qed.

Lemma lookup_add_bytes d p o i m k :
  add_bytes d p o i m !! k =
    if decide (k = (d, p))
    then Some (u64 ((default (0, 0) (m !! (d, p))).1 + o), u64 ((default (0, 0) (m !! (d, p))).2 + i))
    else m !! k.
Proof.
  unfold add_bytes. destruct (default (0, 0) (m !! (d, p))) as [x y]. case_decide as E.
  - subst. by rewrite lookup_insert_eq.
  - by rewrite lookup_insert_ne.
Qed.

(** What the accumulator holds after some samples. *)
Definition folded (prefixes : list Prefix) (samples : list FlowSample) (k : aggKey) : option (Z * Z) :=
  let '(d, p) := k in
  if existsb (fun s => shows_out prefixes d p s || shows_in prefixes d p s) samples
  then Some (u64 (sum_bytes (shows_out prefixes d p) samples), u64 (sum_bytes (shows_in prefixes d p) samples))
  else None.

Lemma default_folded prefixes samples d p :
  default (0, 0) (folded prefixes samples (d, p))
  = (u64 (sum_bytes (shows_out prefixes d p) samples), u64 (sum_bytes (shows_in prefixes d p) samples)).
Proof.
  unfold folded. destruct (existsb _ samples) eqn:E; [done|]. cbn.
  assert (∀ f, (∀ s, f s = true → shows_out prefixes d p s || shows_in prefixes d p s = true) → sum_bytes f samples = 0) as H.
  { intros f Hf. induction samples as [|s l IH]; [done|]. cbn in E. apply orb_false_iff in E as [E1 E2]. cbn.
    destruct (f s) eqn:Ef; [apply Hf in Ef; congruence|]. rewrite IH by done. lia. }
  rewrite !H; [done|intros s ->; apply orb_true_r|by intros s ->].
Qed.

Lemma folded_snoc prefixes samples s d p :
  folded prefixes (samples ++ [s]) (d, p) =
    if shows_out prefixes d p s || shows_in prefixes d p s
    then Some (u64 ((default (0, 0) (folded prefixes samples (d, p))).1 + if shows_out prefixes d p s then fs_Bytes s else 0),
               u64 ((default (0, 0) (folded prefixes samples (d, p))).2 + if shows_in prefixes d p s then fs_Bytes s else 0))
    else folded prefixes samples (d, p).
Proof.
  rewrite default_folded. cbn [fst snd]. rewrite !u64_add. unfold folded at 1. rewrite existsb_app, !sum_bytes_app. cbn.
  rewrite !Z.add_0_r, orb_false_r. destruct (shows_out prefixes d p s || _) eqn:E.
  - by rewrite orb_true_r.
  - rewrite orb_false_r. apply orb_false_iff in E as [-> ->]. by rewrite !Z.add_0_r.
Qed.

Lemma fold_samples_exact prefixes samples k :
  fold_left (fold_sample prefixes) samples ∅ !! k = folded prefixes samples k.
Proof.
  revert k. induction samples as [|s l IH] using rev_ind; intros [d p]; [done|].
  rewrite fold_left_app, folded_snoc. cbn [fold_left]. rewrite <- !IH.
  set (m := fold_left _ l ∅). clearbody m. clear IH. unfold fold_sample, shows, parses, managed.
  destruct s as [src dst pr po b pk]. cbn.
  destruct (parse_addr src) as [a|] eqn:Ea, (parse_addr dst) as [c|] eqn:Ec; [destruct (contains prefixes a) eqn:Ia, (contains prefixes c) eqn:Ic|..].
  all: repeat case_bool_decide; subst; rewrite ?Ea, ?Ec, ?Ia, ?Ic; cbn; try done.
  all: rewrite ?lookup_add_bytes; repeat case_decide; simplify_eq/=; rewrite ?u64_add, ?Z.add_0_r, ?Z.add_0_l; try done; try congruence.
Qed.

Lemma agg_of_inj : Inj (=) (=) agg_of.
Proof. intros [[d p] [o i]] [[d' p'] [o' i']] H. by inv H. Qed.

Lemma elem_of_Fold prefixes samples d p o i :
  mkAgg d p o i ∈ Fold samples prefixes ↔ folded prefixes samples (d, p) = Some (o, i).
Proof.
  unfold Fold. rewrite sorting.merge_sort_Permutation, <- fold_samples_exact, <- elem_of_map_to_list.
  change (mkAgg d p o i) with (agg_of ((d, p), (o, i))). apply list_elem_of_fmap_inj, agg_of_inj.
Qed.

Definition agg_key (a : Agg) : aggKey := (ag_DeviceIP a, ag_PeerIP a).

Lemma Fold_keys_NoDup prefixes samples : NoDup (agg_key <$> Fold samples prefixes).
Proof.
  unfold Fold. rewrite sorting.merge_sort_Permutation, <- list_fmap_compose.
  replace (agg_key ∘ agg_of <$> _) with ((map_to_list (fold_left (fold_sample prefixes) samples ∅)).*1).
  - apply NoDup_fst_map_to_list.
  - apply list_fmap_ext. by intros _ [[] []] _.
Qed.

#[local] Instance agg_le_trans : Transitive agg_le.
Proof.
  intros a b c. unfold agg_le. repeat case_decide; intros L1 L2; try congruence; try (by eapply leb_trans).
  exfalso. assert (ag_DeviceIP a = ag_DeviceIP b) by (apply String.leb_antisym; congruence). congruence.
Qed.

#[local] Instance agg_le_total : Total agg_le.
Proof. intros a b. unfold agg_le. repeat case_decide; try congruence; apply String.leb_total. Qed.

Lemma agg_le_antisym a b : agg_le a b → agg_le b a → agg_key a = agg_key b.
Proof.
  unfold agg_le, agg_key. repeat case_decide; try congruence; intros L1 L2; pose proof (String.leb_antisym _ _ L1 L2); congruence.
Qed.

Definition agg_lt (a b : Agg) : Prop := agg_le a b ∧ agg_key a ≠ agg_key b.

Lemma sorted_strictly l : Sorted.StronglySorted agg_le l → NoDup (agg_key <$> l) → Sorted.StronglySorted agg_lt l.
Proof.
  induction 1 as [|a l Hl IH Ha]; [constructor|]. cbn. intros [Hn Hd]%list.NoDup_cons. constructor; [auto|].
  apply list.Forall_forall. intros b Hb. split; [by eapply list.Forall_forall in Ha|].
  intros E. apply Hn. rewrite E. by apply list_elem_of_fmap_2.
Qed.

(** The fold is the table of totals.  Its result lists, in strictly increasing
    order of device and peer, exactly the pairs some sample shows with the device
    inside a managed prefix, each with the bytes sent and received summed over
    the samples (modulo 2^64, the width of the counters). *)
Theorem fold_exact prefixes samples :
  Sorted.StronglySorted agg_lt (Fold samples prefixes)
  ∧ ∀ d p o i, mkAgg d p o i ∈ Fold samples prefixes ↔ folded prefixes samples (d, p) = Some (o, i).
Proof.
  split; [|apply elem_of_Fold]. apply sorted_strictly; [|apply Fold_keys_NoDup]. apply (sorting.StronglySorted_merge_sort agg_le).
Qed.

Lemma Fold_unique prefixes l k : (∀ q, folded prefixes l q = folded prefixes k q) → Fold l prefixes = Fold k prefixes.
Proof.
  intros H. unfold Fold. do 3 f_equal. apply map_eq. intros q. by rewrite !fold_samples_exact.
Qed.

(** The order of the samples does not matter. *)
Lemma fold_permutation prefixes l k : l ≡ₚ k → Fold l prefixes = Fold k prefixes.
Proof.
  intros Hp. apply Fold_unique. intros [d p]. unfold folded.
  assert (∀ f : FlowSample → bool, existsb f l = existsb f k) as ->.
  { intros f. induction Hp as [|x l k _ IH|x y l|]; cbn; [done|by rewrite IH|by destruct (f x), (f y)|congruence]. }
  assert (∀ f, sum_bytes f l = sum_bytes f k) as Hs by (intros f; induction Hp; cbn; lia).
  by rewrite !Hs.
Qed.

(** Ports, protocols and packet counts leave no trace. *)
Lemma fold_private prefixes samples :
  Fold ((fun s => mkSample (fs_SrcIP s) (fs_DstIP s) 0 0 (fs_Bytes s) 0) <$> samples) prefixes = Fold samples prefixes.
Proof.
  unfold Fold. do 3 f_equal. generalize (∅ : gmap aggKey (Z * Z)). induction samples as [|s l IH]; intros m; [done|]. apply IH.
Qed.

(** * Announcements *)

Definition pair_key (ev : newPair) : Z * string := (pr_deviceID ev, pr_peerIP ev).

(** A pair is announced when its row is new, so its key is new to the table. *)
Definition announced_ok (t0 : speaks) (te : speaks * list newPair) : Prop :=
  dom t0 ⊆ dom te.1 ∧ NoDup (pair_key <$> te.2)
  ∧ ∀ ev, ev ∈ te.2 → pair_key ev ∈ dom te.1 ∧ pair_key ev ∉ dom t0 ∧ pr_deviceID ev < pr_peerID ev.

Lemma dom_upsert d p peer o i now t : dom (upsert_speaks d p peer o i now t) = {[(d, p)]} ∪ dom t.
Proof. unfold upsert_speaks, speaks. by rewrite dom_insert_L. Qed.

Lemma ingest_agg_announces an now ids prefixes t0 te a :
  announced_ok t0 te → announced_ok t0 (ingest_agg an now ids prefixes te a).
Proof.
  intros (Hd & Hn & He). destruct te as [t events]. unfold ingest_agg. cbn [fst snd] in *.
  destruct (attribute_agg ids prefixes a) as [[d p]|]; [|done]. destruct (an_upsert an d (ag_PeerIP a)); [|done].
  assert (∀ evs, announced_ok t0 (t, evs) → announced_ok t0
    (upsert_speaks d (ag_PeerIP a) (nullInt64 p) (i64 (ag_BytesOut a)) (i64 (ag_BytesIn a)) now t, evs)) as Hup.
  { intros evs (H1 & H2 & H3). unfold announced_ok. cbn [fst snd] in *. rewrite dom_upsert. split_and!; [set_solver|done|].
    intros ev Hev. destruct (H3 ev Hev) as (? & ? & ?). set_solver. }
  destruct (_ && bool_decide (t !! _ = None)) eqn:E; [|by apply Hup].
  rewrite !andb_true_iff, bool_decide_eq_true in E. destruct E as [[[_ Hlt%Z.ltb_lt] _] Hnone].
  assert ((d, ag_PeerIP a) ∉ dom t) as Hfresh by by (unfold speaks in *; apply not_elem_of_dom).
  unfold announced_ok. cbn [fst snd]. rewrite dom_upsert. split_and!; [set_solver| |].
  - rewrite fmap_app. apply list.NoDup_app. split_and!; [done| |apply list.NoDup_singleton].
    intros k (ev & -> & Hev)%list_elem_of_fmap Hk. apply list_elem_of_singleton in Hk. destruct (He ev Hev) as (? & _).
    rewrite Hk in *. by apply Hfresh.
  - intros ev [Hev| ->%list_elem_of_singleton]%elem_of_app.
    + destruct (He ev Hev) as (? & ? & ?). set_solver.
    + cbn. set_solver.
Qed.

Lemma ingest_loop_announces an now ids prefixes aggs t :
  announced_ok t (fold_left (ingest_agg an now ids prefixes) aggs (t, [])).
Proof.
  assert (announced_ok t (t, [])) as H.
  { split_and!; [done|apply NoDup_nil_2|]. by intros ev ?%elem_of_nil. }
  revert H. generalize (t, @nil newPair). induction aggs as [|a aggs IH]; intros te H; [done|].
  cbn. apply IH. by apply ingest_agg_announces.
Qed.

Section announcements.
Context (marshal : json → string).

Definition announces (ev : newPair) (row : ChangeLog) : Prop := ∃ id db now, row = first_seen_row marshal id db now ev.

Lemma emit_rows an now events db db' :
  fold_left (emitFirstSeen marshal an now) events (Some db) = Some db' →
  fd_speaks db' = fd_speaks db
  ∧ ∃ evs rows, evs `sublist_of` events ∧ Forall2 announces evs rows ∧ fd_changeLog db' = fd_changeLog db ++ rows.
Proof.
  revert db. induction events as [|ev events IH]; intros db E.
  - injection E as <-. split; [done|]. exists [], []. by rewrite app_nil_r.
  - cbn [fold_left] in E. unfold emitFirstSeen at 2 in E. cbn [mbind option_bind] in E.
    assert (∀ evs, evs `sublist_of` events → evs `sublist_of` ev :: events) as Hsub by (intros; by constructor).
    destruct (an_log an ev) as [id|]; [|destruct (IH db E) as (? & evs & rows & ? & ? & ?); eauto 10].
    set (row := first_seen_row marshal id db now ev) in *.
    assert (∀ w, fold_left (emitFirstSeen marshal an now) events
              (Some (mkFlowDb (fd_networks db) (fd_devices db) (fd_speaks db) (fd_changeLog db ++ [row]) w)) = Some db' →
            fd_speaks db' = fd_speaks db
            ∧ ∃ evs rows, evs `sublist_of` ev :: events ∧ Forall2 announces evs rows
                          ∧ fd_changeLog db' = fd_changeLog db ++ rows) as Hput.
    { intros w Ew. destruct (IH _ Ew) as (? & evs & rows & ? & ? & Hl). split; [done|]. exists (ev :: evs), (row :: rows).
      split_and!; [by constructor|constructor; [by exists id, db, now|done]|]. rewrite Hl. cbn. by rewrite <- app_assoc. }
    destruct (fd_watcher db) as [w|]; [|exact (Hput _ E)]. destruct (Push w row) as [w'|]; [exact (Hput _ E)|].
    exfalso. clear -E. cbn in E. by induction events.
Qed.

(** Pairs whose rows are there, announced by these rows of the log. *)
Definition log_ok (db : flow_db) : Prop :=
  ∃ evs, NoDup (pair_key <$> evs) ∧ Forall2 announces evs (fd_changeLog db)
         ∧ ∀ ev, ev ∈ evs → pair_key ev ∈ dom (fd_speaks db) ∧ pr_deviceID ev < pr_peerID ev.

Lemma ingest_log_ok an now samples s db s' db' :
  Ingest marshal an now samples s db = Some (s', db') → log_ok db → log_ok db'.
Proof.
  unfold Ingest. intros E Hok. destruct samples as [|smp smps]; [by injection E as _ <-|].
  destruct (managedPrefixes an now db s) as [s1 prefixes]. destruct (Fold (smp :: smps) prefixes) as [|a aggs]; [by injection E as _ <-|].
  destruct (resolveDevices an now db prefixes (a :: aggs) s1) as [s2 ids]. destruct (negb (an_begin an)); [by injection E as _ <-|].
  pose proof (ingest_loop_announces an now ids prefixes (a :: aggs) (fd_speaks db)) as Hl.
  destruct (fold_left (ingest_agg _ _ _ _) _ _) as [t events]. destruct (negb (an_commit an)); [by injection E as _ <-|].
  apply fmap_Some in E as (db1 & E & [= <- <-]). apply emit_rows in E as (Ht & evs & rows & Hs & Hf & Hc).
  destruct Hl as (Hd & Hn & He). destruct Hok as (evs0 & Hn0 & Hf0 & He0). cbn [fst snd fd_speaks fd_changeLog] in *.
  assert (∀ ev, ev ∈ evs → ev ∈ events) as Hin by (intros ev ?; by eapply elem_of_sublist).
  exists (evs0 ++ evs). rewrite Hc, Ht. split_and!; [|by apply Forall2_app|].
  - rewrite fmap_app. apply list.NoDup_app. split_and!; [done| |eapply sublist_NoDup; [exact Hn|by apply sublist_fmap_mono]].
    intros k (ev & -> & Hev)%list_elem_of_fmap (ev' & E & Hev')%list_elem_of_fmap.
    destruct (He ev' (Hin _ Hev')) as (_ & Hnot & _). apply Hnot. rewrite <- E. by apply He0.
  - intros ev [Hev|Hev]%elem_of_app.
    + destruct (He0 ev Hev). split; [by apply Hd|done].
    + destruct (He ev (Hin _ Hev)) as (? & _ & ?). done.
Qed.

(** A batch, with the inventory as the other components have left it. *)
Record batch := mkBatch {
  ba_answers : db_answers;
  ba_now : Z;
  ba_samples : list FlowSample;
  ba_networks : list Network;
  ba_devices : list DeviceRow
}.

Definition run_batch (sd : option (FlowService * flow_db)) (b : batch) : option (FlowService * flow_db) :=
  '(s, db) ← sd;
  Ingest marshal (ba_answers b) (ba_now b) (ba_samples b) s
    (mkFlowDb (ba_networks b) (ba_devices b) (fd_speaks db) (fd_changeLog db) (fd_watcher db)).

(** No pair is announced twice.  Over any batches, with any statements failing
    and whatever happens to the inventory between them, the rows of the log are
    announcements of pairs with different keys (device and peer address), each
    made from the side of the lower id. *)
Theorem pairs_announced_once watcher batches s db
    (Hrun : fold_left run_batch batches (Some (NewService, mkFlowDb [] [] ∅ [] watcher)) = Some (s, db)) :
  ∃ evs, NoDup (pair_key <$> evs) ∧ Forall (fun ev => pr_deviceID ev < pr_peerID ev) evs
         ∧ Forall2 announces evs (fd_changeLog db).
Proof.
  assert (log_ok (mkFlowDb [] [] ∅ [] watcher)) as H0.
  { exists []. split_and!; [apply NoDup_nil_2|constructor|]. by intros ev ?%elem_of_nil. }
  assert (log_ok db) as (evs & Hn & Hf & He).
  { revert H0 Hrun. generalize NewService (mkFlowDb [] [] ∅ [] watcher).
    induction batches as [|b l IH]; intros s0 db0 H0 E; [by injection E as _ <-|]. cbn [fold_left] in E.
    destruct (run_batch (Some (s0, db0)) b) as [[s1 db1]|] eqn:E1.
    - eapply IH; [|exact E]. eapply ingest_log_ok; [exact E1|]. exact H0.
    - exfalso. clear -E. cbn in E. by induction l. }
  exists evs. split_and!; [done| |done]. apply list.Forall_forall. intros ev Hev. by apply He.
Qed.

End announcements.

(** * Totals *)

Fixpoint sum_over {A} (f : A → Z) (l : list A) : Z :=
  match l with
  | [] => 0
  | x :: l => f x + sum_over f l
  end.

Lemma sum_over_ext {A} (f g : A → Z) l : (∀ x, x ∈ l → f x = g x) → sum_over f l = sum_over g l.
Proof.
  induction l as [|x l IH]; intros H; [done|]. cbn. rewrite (H x), IH; [done| |left]. intros y Hy. apply H. by right.
Qed.

Lemma sum_over_nonneg {A} (f : A → Z) l : (∀ x, x ∈ l → 0 ≤ f x) → 0 ≤ sum_over f l.
Proof.
  induction l as [|x l IH]; intros H; cbn; [lia|]. pose proof (H x ltac:(left)).
  assert (0 ≤ sum_over f l) by (apply IH; intros y Hy; apply H; by right). lia.
Qed.

Lemma sum_bytes_ext f g l : (∀ s, s ∈ l → f s = g s) → sum_bytes f l = sum_bytes g l.
Proof.
  induction l as [|s l IH]; intros H; [done|]. cbn. rewrite (H s), IH; [done| |left]. intros y Hy. apply H. by right.
Qed.

Definition total_bytes (samples : list FlowSample) : Z := sum_bytes (fun _ => true) samples.

Lemma sum_bytes_bounds f l : Forall (fun s => 0 ≤ fs_Bytes s) l → 0 ≤ sum_bytes f l ≤ total_bytes l.
Proof. induction 1 as [|s l Hs _ IH]; cbn; [done|]. unfold total_bytes in *. destruct (f s); lia. Qed.

(** Summing over different senders splits the samples by their sender. *)
Lemma sum_by_sender (π : FlowSample → string) (g : FlowSample → bool) D samples :
  NoDup D →
  sum_over (fun x => sum_bytes (fun s => bool_decide (π s = x) && g s) samples) D
  = sum_bytes (fun s => bool_decide (π s ∈ D) && g s) samples.
Proof.
  intros HD. induction samples as [|s l IH]; cbn.
  - clear HD. induction D; cbn; lia.
  - rewrite <- IH. clear IH.
    assert (sum_over (fun x => if bool_decide (π s = x) && g s then fs_Bytes s else 0) D
            = if bool_decide (π s ∈ D) && g s then fs_Bytes s else 0) as <-.
    { induction HD as [|x D Hx _ IH]; [done|]. cbn. rewrite IH. repeat case_bool_decide; subst; cbn; destruct (g s); try lia.
      all: try set_solver. }
    clear HD. induction D as [|x D IH]; cbn; lia.
Qed.

(** The samples that count for device [d] and peer [p]. *)
Definition attributed (here there : FlowSample → string) (ids : gmap string Z) (prefixes : list Prefix) (d : Z) (p : string)
    (s : FlowSample) : bool :=
  bool_decide (ids !! here s = Some d) && (bool_decide (there s = p) && parses p && managed prefixes (here s)).

Abbreviation attributed_out := (attributed fs_SrcIP fs_DstIP).
Abbreviation attributed_in := (attributed fs_DstIP fs_SrcIP).

Definition hits (ids : gmap string Z) (d : Z) (p : string) (a : Agg) : Prop :=
  ids !! ag_DeviceIP a = Some d ∧ ag_PeerIP a = p.

Section totals.
Context (ids : gmap string Z) (prefixes : list Prefix) (d : Z) (p : string) (samples : list FlowSample).
Context (Hpos : Forall (fun s => 0 ≤ fs_Bytes s) samples) (Hmax : total_bytes samples ≤ max_int64).

Let rows : list Agg := filter (hits ids d p) (Fold samples prefixes).

Lemma row_devices : NoDup (ag_DeviceIP <$> rows).
Proof.
  assert (NoDup (agg_key <$> rows)) as H.
  { eapply sublist_NoDup; [apply (Fold_keys_NoDup prefixes samples)|]. apply sublist_fmap_mono, sublist_filter. }
  assert (∀ a, a ∈ rows → ag_PeerIP a = p) as Hp by (intros a [[]]%list_elem_of_filter; done).
  revert H Hp. generalize rows. intros l. induction l as [|a l IH]; [constructor|]. cbn.
  intros [Hn Hd]%list.NoDup_cons Hp. apply list.NoDup_cons. split; [|apply IH; [done|set_solver]].
  intros (b & E & Hb)%list_elem_of_fmap. apply Hn, list_elem_of_fmap. exists b. split; [|done]. unfold agg_key.
  rewrite E, (Hp a), (Hp b); [done|by right|left].
Qed.

Lemma row_bytes a : a ∈ rows →
  ag_BytesOut a = sum_bytes (shows_out prefixes (ag_DeviceIP a) p) samples
  ∧ ag_BytesIn a = sum_bytes (shows_in prefixes (ag_DeviceIP a) p) samples.
Proof.
  destruct a as [x q o i]. intros [[Hid Hq] Ha]%list_elem_of_filter. cbn in *. subst. apply elem_of_Fold in Ha.
  unfold folded in Ha. destruct (existsb _ samples); [|done]. injection Ha as <- <-. unfold max_int64 in Hmax.
  pose proof (sum_bytes_bounds (shows_out prefixes x p) samples Hpos).
  pose proof (sum_bytes_bounds (shows_in prefixes x p) samples Hpos).
  unfold u64. rewrite !Z.mod_small by lia. done.
Qed.

Lemma shown_in_rows s x :
  s ∈ samples → ids !! x = Some d → shows_out prefixes x p s || shows_in prefixes x p s = true → x ∈ ag_DeviceIP <$> rows.
Proof.
  intros Hs Hx Hsh.
  assert (existsb (fun s => shows_out prefixes x p s || shows_in prefixes x p s) samples = true) as E.
  { apply existsb_exists. exists s. split; [|done]. by apply list_elem_of_In. }
  apply list_elem_of_fmap. eexists (mkAgg x p _ _). split; [done|]. apply list_elem_of_filter. split; [done|].
  apply elem_of_Fold. unfold folded. rewrite E. reflexivity.
Qed.

Lemma attributed_sum (here there : FlowSample → string) (field : Agg → Z) :
  (∀ a, a ∈ rows → field a = sum_bytes (shows here there prefixes (ag_DeviceIP a) p) samples) →
  (∀ s x, s ∈ samples → ids !! x = Some d → shows here there prefixes x p s = true → x ∈ ag_DeviceIP <$> rows) →
  sum_over field rows = sum_bytes (attributed here there ids prefixes d p) samples.
Proof.
  intros Hf Hsh. rewrite (sum_over_ext _ _ _ Hf).
  transitivity (sum_over (fun x => sum_bytes (fun s => bool_decide (here s = x)
                   && (bool_decide (there s = p) && parses p && managed prefixes (here s))) samples) (ag_DeviceIP <$> rows)).
  { generalize rows. intros l. induction l as [|a l IH]; [done|]. cbn. rewrite IH. f_equal. apply sum_bytes_ext. intros s _.
    unfold shows. case_bool_decide as E; [|done]. by rewrite E, !andb_assoc. }
  rewrite sum_by_sender by apply row_devices. apply sum_bytes_ext. intros s Hs. unfold attributed.
  destruct (_ && managed prefixes (here s)) eqn:E; [|by rewrite !andb_false_r]. rewrite !andb_true_r. apply bool_decide_ext. split.
  - intros (a & -> & [[] _]%list_elem_of_filter)%list_elem_of_fmap. done.
  - intros Hid. apply (Hsh s); [done..|]. unfold shows. rewrite !andb_true_iff in E.
    destruct E as [[E1 E2] E3]. by rewrite E1, E2, E3, bool_decide_true.
Qed.

Lemma row_sums :
  sum_over ag_BytesOut rows = sum_bytes (attributed_out ids prefixes d p) samples
  ∧ sum_over ag_BytesIn rows = sum_bytes (attributed_in ids prefixes d p) samples.
Proof.
  split; apply attributed_sum.
  1, 3: intros a Ha; by apply row_bytes.
  all: intros s x Hs Hx Hsh; apply (shown_in_rows s); [done..|]; rewrite Hsh; rewrite ?orb_true_r; done.
Qed.

End totals.

(** The bytes a row holds; [None] when a column is no longer exact. *)
Definition counted (r : option SpeakRow) : option (Z * Z) :=
  match r with
  | None => Some (0, 0)
  | Some r => match sp_BytesOut r, sp_BytesIn r with Exact x, Exact y => Some (x, y) | _, _ => None end
  end.

Lemma upsert_counts d p peer o i now (t : speaks) x y :
  counted (t !! (d, p)) = Some (x, y) → 0 ≤ x → 0 ≤ y → 0 ≤ o → 0 ≤ i → x + o ≤ max_int64 → y + i ≤ max_int64 →
  counted (upsert_speaks d p peer o i now t !! (d, p)) = Some (x + o, y + i).
Proof.
  intros Hc Hx Hy Ho Hi Hmo Hmi. unfold upsert_speaks, speaks in *. rewrite lookup_insert_eq.
  destruct (t !! (d, p)) as [[pd [x'|] [y'|] fs ls]|]; cbn in Hc; simplify_eq/=; [|done].
  assert (∀ n, 0 ≤ n → n ≤ max_int64 → (min_int64 <=? n) && (n <=? max_int64) = true) as H.
  { intros n ? ?. unfold min_int64. rewrite andb_true_iff, !Z.leb_le. lia. }
  by rewrite !H by lia.
Qed.

Lemma ingest_agg_row an now ids prefixes t evs a d p :
  an_upsert an = (fun _ _ => true) →
  (ingest_agg an now ids prefixes (t, evs) a).1 !! (d, p) =
    if decide (hits ids d p a)
    then upsert_speaks d p (nullInt64 (default 0 (snd <$> attribute_agg ids prefixes a))) (i64 (ag_BytesOut a)) (i64 (ag_BytesIn a)) now t !! (d, p)
    else t !! (d, p).
Proof.
  intros Hup. unfold ingest_agg, hits. rewrite Hup. destruct (attribute_agg ids prefixes a) as [[d' q]|] eqn:E; cbn.
  - apply bind_Some in E as (d'' & Hid & [= -> _]). case_decide as Hh.
    + destruct Hh as [Hd <-]. by simplify_eq.
    + unfold upsert_speaks, speaks. rewrite lookup_insert_ne; [done|]. intros E. apply Hh. by injection E as -> <-.
  - case_decide as Hh; [|done]. destruct Hh as [Hd _]. unfold attribute_agg in E. by rewrite Hd in E.
Qed.

Lemma loop_counts an now ids prefixes d p aggs t evs x y :
  an_upsert an = (fun _ _ => true) → (∀ a, a ∈ aggs → 0 ≤ ag_BytesOut a ∧ 0 ≤ ag_BytesIn a) →
  counted (t !! (d, p)) = Some (x, y) → 0 ≤ x → 0 ≤ y →
  x + sum_over ag_BytesOut (filter (hits ids d p) aggs) ≤ max_int64 →
  y + sum_over ag_BytesIn (filter (hits ids d p) aggs) ≤ max_int64 →
  counted ((fold_left (ingest_agg an now ids prefixes) aggs (t, evs)).1 !! (d, p))
  = Some (x + sum_over ag_BytesOut (filter (hits ids d p) aggs), y + sum_over ag_BytesIn (filter (hits ids d p) aggs)).
Proof.
  intros Hup. revert t evs x y. induction aggs as [|a aggs IH]; intros t evs x y Hpos Hc Hx Hy Ho Hi; cbn [fold_left].
  { cbn in *. by rewrite Hc, !Z.add_0_r. }
  pose proof (ingest_agg_row an now ids prefixes t evs a d p Hup) as Hrow.
  destruct (ingest_agg an now ids prefixes (t, evs) a) as [t1 evs1]. cbn [fst] in Hrow.
  assert (∀ b, b ∈ aggs → 0 ≤ ag_BytesOut b ∧ 0 ≤ ag_BytesIn b) as Hpos' by (intros b Hb; apply Hpos; by right).
  assert (0 ≤ sum_over ag_BytesOut (filter (hits ids d p) aggs)) by (apply sum_over_nonneg; intros b [_ Hb]%list_elem_of_filter; by apply Hpos').
  assert (0 ≤ sum_over ag_BytesIn (filter (hits ids d p) aggs)) by (apply sum_over_nonneg; intros b [_ Hb]%list_elem_of_filter; by apply Hpos').
  rewrite filter_cons in Ho, Hi |- *. destruct (Hpos a ltac:(left)) as [Pa Qa].
  case_decide; cbn [sum_over] in *.
  - rewrite (IH t1 evs1 (x + ag_BytesOut a) (y + ag_BytesIn a)); [f_equal; f_equal; lia|done| |lia..].
    rewrite Hrow, !i64_id by (unfold min_int64; lia). apply upsert_counts; lia || done.
  - apply IH; [done| |done..]. by rewrite Hrow.
Qed.

Lemma managed_cache an now db s : sv_prefixCache (managedPrefixes an now db s).1 = (managedPrefixes an now db s).2.
Proof. unfold managedPrefixes. destruct (fresh_at _ _); [done|]. by destruct (an_networks an). Qed.

Lemma resolve_cache an now db prefixes aggs s :
  sv_deviceIDs (resolveDevices an now db prefixes aggs s).1 = (resolveDevices an now db prefixes aggs s).2
  ∧ sv_prefixCache (resolveDevices an now db prefixes aggs s).1 = sv_prefixCache s.
Proof. unfold resolveDevices. by destruct (fresh_at _ _). Qed.

(** The table accounts for every attributed byte.  When its statements succeed,
    and the sums stay within 63 bits, a batch adds to the row of device [d] and
    peer [p] exactly the bytes of the samples whose sender (receiver) has a
    managed address that is resolved to [d], with [p] at the other end. *)
Theorem batch_totals marshal an now samples s db s' db' d p x y
    (Hbegin : an_begin an = true) (Hcommit : an_commit an = true) (Hupsert : an_upsert an = fun _ _ => true)
    (Hpos : Forall (fun s => 0 ≤ fs_Bytes s) samples)
    (Hrow : counted (fd_speaks db !! (d, p)) = Some (x, y)) (Hx : 0 ≤ x) (Hy : 0 ≤ y)
    (Hmaxx : x + total_bytes samples ≤ max_int64) (Hmaxy : y + total_bytes samples ≤ max_int64)
    (Hin : Ingest marshal an now samples s db = Some (s', db')) :
  counted (fd_speaks db' !! (d, p))
  = Some (x + sum_bytes (attributed_out (sv_deviceIDs s') (sv_prefixCache s') d p) samples,
          y + sum_bytes (attributed_in (sv_deviceIDs s') (sv_prefixCache s') d p) samples).
Proof.
  assert (∀ ids prefixes, 0 ≤ total_bytes samples ∧
    sum_over ag_BytesOut (filter (hits ids d p) (Fold samples prefixes)) = sum_bytes (attributed_out ids prefixes d p) samples
    ∧ sum_over ag_BytesIn (filter (hits ids d p) (Fold samples prefixes)) = sum_bytes (attributed_in ids prefixes d p) samples) as Hs.
  { intros ids prefixes. split; [apply (sum_bytes_bounds (fun _ => true)); done|]. apply row_sums; [done|lia]. }
  unfold Ingest in Hin. destruct samples as [|smp smps] eqn:Es; [by simplify_eq/=; rewrite !Z.add_0_r|]. rewrite <- Es in *. clear Es.
  pose proof (managed_cache an now db s) as Hm. destruct (managedPrefixes an now db s) as [s1 prefixes]. cbn [fst snd] in Hm.
  destruct (Fold samples prefixes) as [|a aggs] eqn:Ef.
  { injection Hin as <- <-. rewrite Hm. destruct (Hs (sv_deviceIDs s1) prefixes) as (_ & <- & <-). by rewrite Ef, !Z.add_0_r. }
  rewrite <- Ef in *. pose proof (resolve_cache an now db prefixes (Fold samples prefixes) s1) as [Hr1 Hr2].
  destruct (resolveDevices an now db prefixes (Fold samples prefixes) s1) as [s2 ids]. cbn [fst snd] in Hr1, Hr2.
  rewrite Hbegin, Hcommit in Hin. cbn [negb] in Hin.
  assert (∀ a, a ∈ Fold samples prefixes → 0 ≤ ag_BytesOut a ∧ 0 ≤ ag_BytesIn a) as Hnn.
  { intros [ad ap ao ai] Ha. apply elem_of_Fold in Ha. unfold folded in Ha. destruct (existsb _ _); [|done].
    injection Ha as <- <-. split; apply Z.mod_pos_bound; lia. }
  destruct (Hs ids prefixes) as (H0 & Ho & Hi).
  pose proof (sum_bytes_bounds (attributed_out ids prefixes d p) samples Hpos).
  pose proof (sum_bytes_bounds (attributed_in ids prefixes d p) samples Hpos).
  pose proof (loop_counts an now ids prefixes d p (Fold samples prefixes) (fd_speaks db) [] x y Hupsert Hnn Hrow Hx Hy
                ltac:(lia) ltac:(lia)) as Hl.
  destruct (fold_left (ingest_agg _ _ _ _) _ _) as [t events]. apply fmap_Some in Hin as (db1 & E & [= <- <-]).
  apply emit_rows in E as [-> _]. cbn [fst fd_speaks] in *. by rewrite Hl, Ho, Hi, Hr1, Hr2, Hm.
Qed.

(** * Scenarios *)

Definition lan_host (id : Z) (addr : string) : DeviceRow :=
  mkRow id "" addr "" (Some 1) "online" None None None None 0
    (mkInfo "" "other" "" "" "" "" "[]" "[]" "" "" [] 0 "[]" "").

Definition lan : list Network := [mkNetwork 1 "lan" (Some "10.0.0.0/24") None].

Definition all_well : db_answers := mkAnswers true (fun _ => true) true (fun _ _ => true) (fun _ _ => true) true (fun ev => Some (pr_peerID ev)).

Definition flow (src dst : string) (bytes : Z) : FlowSample := mkSample src dst 6 443 bytes 1.

Definition no_json (_ : json) : string := "".

Definition flow_batch (now : Z) (samples : list FlowSample) (devices : list DeviceRow) : batch :=
  mkBatch all_well (now * minute) samples lan devices.

Definition after (batches : list batch) : option (FlowService * flow_db) :=
  fold_left (run_batch no_json) batches (Some (NewService, mkFlowDb [] [] ∅ [] None)).

Definition two_devices : list DeviceRow := [lan_host 1 "10.0.0.1"; lan_host 2 "10.0.0.2"].

Definition chat : list FlowSample := [flow "10.0.0.1" "10.0.0.2" 100; flow "10.0.0.2" "10.0.0.1" 40; flow "10.0.0.1" "8.8.8.8" 7].

Lemma pairs_announced_once_witness :
  ∃ s db, after [flow_batch 100 chat two_devices; flow_batch 101 chat two_devices] = Some (s, db)
          ∧ length (fd_changeLog db) = 1%nat
          ∧ ∃ evs, NoDup (pair_key <$> evs) ∧ Forall (fun ev => pr_deviceID ev < pr_peerID ev) evs
                   ∧ Forall2 (announces no_json) evs (fd_changeLog db).
Proof.
  destruct (after [flow_batch 100 chat two_devices; flow_batch 101 chat two_devices]) as [[s db]|] eqn:E.
  - exists s, db. split; [done|]. split; [|exact (pairs_announced_once no_json None _ s db E)].
    assert ((length ∘ fd_changeLog ∘ snd <$> after [flow_batch 100 chat two_devices; flow_batch 101 chat two_devices]) = Some 1%nat) as H
      by (vm_compute; reflexivity).
    rewrite E in H. cbn in H. congruence.
  - exfalso. vm_compute in E. discriminate E.
Defined.

Definition fresh_db : flow_db := mkFlowDb lan two_devices ∅ [] None.

Lemma batch_totals_witness :
  (fun sd => counted (fd_speaks sd.2 !! (1, "10.0.0.2"))) <$> Ingest no_json all_well 0 chat NewService fresh_db
  = Some (Some (100, 40)).
Proof.
  destruct (Ingest no_json all_well 0 chat NewService fresh_db) as [[s db]|] eqn:E; [|vm_compute in E; discriminate E].
  cbn. rewrite (batch_totals no_json all_well 0 chat NewService fresh_db s db 1 "10.0.0.2" 0 0); [|reflexivity|reflexivity|reflexivity| | | | | | |exact E].
  - assert ((fun sd : FlowService * flow_db => (sv_deviceIDs sd.1, sv_prefixCache sd.1))
              <$> Ingest no_json all_well 0 chat NewService fresh_db
            = Some ({["10.0.0.1" := 1; "10.0.0.2" := 2]}, [mkPrefix [10; 0; 0; 0] 24])) as H by (vm_compute; reflexivity).
    rewrite E in H. cbn in H. injection H as -> ->. vm_compute. reflexivity.
  - repeat constructor; vm_compute; discriminate.
  - reflexivity.
  - lia.
  - lia.
  - vm_compute. discriminate.
  - vm_compute. discriminate.
Defined.

Definition row_of (d : Z) (p : string) (sd : FlowService * flow_db) : option (Z * Z) := r ← fd_speaks sd.2 !! (d, p); counted (Some r).

(** An address is looked up only when it is in the first batch of a window: a
    device of the inventory that talks a minute later is taken for unmanaged and
    its traffic is dropped. *)
Example late_talker_dropped :
  row_of 2 "8.8.8.8" <$> after [flow_batch 100 [flow "10.0.0.1" "8.8.8.8" 7] two_devices;
                                flow_batch 101 [flow "10.0.0.2" "8.8.8.8" 9] two_devices] = Some None.
Proof. vm_compute. reflexivity. Qed.

(** An address that was resolved once stays resolved: when another device takes
    it over, its traffic is booked on the old one, hours later too. *)
Example stale_owner_booked :
  let sd := after [flow_batch 100 [flow "10.0.0.1" "8.8.8.8" 7] two_devices;
                   flow_batch 1000 [flow "10.0.0.1" "8.8.8.8" 9] [lan_host 5 "10.0.0.1"]] in
  row_of 1 "8.8.8.8" <$> sd = Some (Some (16, 0)) ∧ row_of 5 "8.8.8.8" <$> sd = Some None.
Proof. vm_compute. done. Qed.

(** A peer that enters the inventory after its first conversation is never
    announced: the row of the pair is there already. *)
Example late_peer_unannounced :
  (fun sd : FlowService * flow_db => fd_changeLog sd.2)
  <$> after [flow_batch 100 chat [lan_host 1 "10.0.0.1"]; flow_batch 1000 chat two_devices] = Some [].
Proof. vm_compute. reflexivity. Qed.
