(* ===== verification/ProbeStore.v ===== *)
(** The tables of the probe subsystem (src/db/schema.sql: probe_targets,
    probe_results, probe_tls_certs) with the statements of
    src/internal/db/probe_targets.sql.go, probe_results.sql.go and
    probe_tls_certs.sql.go that the probe services use.

    Rows are in rowid order.  A statement that breaks a constraint of the schema
    changes nothing and is [None]; columns for creation and update times are left
    out. *)

From S2P Require Import Prelude Float64 Db.

Open Scope Z_scope.

(** * Constants (src/internal/domain/probe.go) *)

Definition ProbeVantageCenter : string := "center".
Definition ProbeVantageAll : string := "all".
Definition ProbeVantageAgentPrefix : string := "agent:".

Definition ProbeSourceManual : string := "manual".
Definition ProbeSourceAuto : string := "auto".
Definition ProbeSourceSystem : string := "system".

Definition ValidProbeModules : list string := ["http"; "tls"; "tcp"; "icmp"; "dns"].

Definition ProbeIntervalMinSeconds : Z := 10.
Definition ProbeIntervalMaxSeconds : Z := 86400.
Definition ProbeTimeoutMinSeconds : Z := 1.
Definition ProbeTimeoutMaxSeconds : Z := 60.

(** * Certificates *)

Record TLSCertRecord := mkCert {
  ce_IP : string; ce_Port : Z; ce_CertIndex : Z;
  ce_SubjectCN : string; ce_SubjectOrg : string; ce_Subject : string;
  ce_IssuerCN : string; ce_IssuerOrg : string; ce_Issuer : string;
  ce_SanDNS : string; ce_SanIP : string; ce_SanEmail : string;
  ce_Serial : string; ce_NotBefore : string; ce_NotAfter : string;
  ce_SigAlgorithm : string; ce_KeyAlgorithm : string; ce_KeyBits : Z;
  ce_IsCA : bool; ce_SelfSigned : bool; ce_FingerprintSHA256 : string; ce_PEM : string;
  ce_TLSVersion : string; ce_CipherSuite : string; ce_Trusted : bool; ce_Error : string
}.

Record ProbeTlsCert := mkTlsCert {
  tc_TargetID : Z; tc_Port : Z; tc_CertIndex : Z;
  tc_SubjectCn : string; tc_SubjectOrg : string; tc_Subject : string;
  tc_IssuerCn : string; tc_IssuerOrg : string; tc_Issuer : string;
  tc_SanDns : string; tc_SanIp : string; tc_SanEmail : string;
  tc_Serial : string; tc_NotBefore : string; tc_NotAfter : string;
  tc_SigAlgorithm : string; tc_KeyAlgorithm : string; tc_KeyBits : Z;
  tc_IsCa : Z; tc_SelfSigned : Z; tc_FingerprintSha256 : string; tc_Pem : string;
  tc_TlsVersion : string; tc_CipherSuite : string; tc_Trusted : Z; tc_Error : string
}.

(** * The tables *)

Record probe_db := mkProbeDb {
  pd_targets : list ProbeTarget;
  pd_seq : Z;                        (* sqlite_sequence of probe_targets *)
  pd_results : list ProbeResult;
  pd_resultSeq : Z;
  pd_certs : list ProbeTlsCert
}.

Definition set_targets (ts : list ProbeTarget) (db : probe_db) : probe_db :=
  mkProbeDb ts (pd_seq db) (pd_results db) (pd_resultSeq db) (pd_certs db).

Definition set_results (rs : list ProbeResult) (db : probe_db) : probe_db :=
  mkProbeDb (pd_targets db) (pd_seq db) rs (pd_resultSeq db) (pd_certs db).

Definition set_certs (cs : list ProbeTlsCert) (db : probe_db) : probe_db :=
  mkProbeDb (pd_targets db) (pd_seq db) (pd_results db) (pd_resultSeq db) cs.

Definition probe_statuses : list string := ["success"; "fail"; "timeout"].

(** The CHECKs of probe_targets. *)
Definition target_checks (t : ProbeTarget) : bool :=
  bool_decide (pt_Module t ∈ ValidProbeModules)
  && (10 <=? pt_IntervalSeconds t) && (pt_IntervalSeconds t <=? 86400)
  && (1 <=? pt_TimeoutSeconds t) && (pt_TimeoutSeconds t <=? 60)
  && bool_decide (pt_LastStatus t ∈ "" :: probe_statuses)
  && bool_decide (pt_Source t ∈ [ProbeSourceManual; ProbeSourceAuto; ProbeSourceSystem]).

(** UNIQUE(name). *)
Definition name_free (name : string) (self : Z) (ts : list ProbeTarget) : bool :=
  forallb (fun t => (pt_ID t =? self) || negb (bool_decide (pt_Name t = name))) ts.

Definition GetProbeTarget (id : Z) (db : probe_db) : option ProbeTarget := List.find (fun t => pt_ID t =? id) (pd_targets db).

Definition GetProbeTargetByName (name : string) (db : probe_db) : option ProbeTarget :=
  List.find (fun t => bool_decide (pt_Name t = name)) (pd_targets db).

Definition ListProbeTargets (db : probe_db) : list ProbeTarget := pd_targets db.

Definition ListEnabledProbeTargets (db : probe_db) : list ProbeTarget := List.filter (fun t => pt_Enabled t =? 1) (pd_targets db).

Definition ListProbeTargetsByDevice (deviceID : Z) (db : probe_db) : list ProbeTarget :=
  List.filter (fun t => bool_decide (pt_DeviceID t = Some deviceID)) (pd_targets db).

(** The columns a client sets. *)
Record target_params := mkParams {
  tp_Name : string; tp_Module : string; tp_Target : string;
  tp_IntervalSeconds : Z; tp_TimeoutSeconds : Z; tp_Enabled : Z;
  tp_Notes : string; tp_Vantage : string; tp_Options : string; tp_DeviceID : option Z
}.

Definition new_target (id : Z) (p : target_params) (source : string) : ProbeTarget :=
  mkProbeTarget id (tp_Name p) (tp_Module p) (tp_Target p) (tp_IntervalSeconds p) (tp_TimeoutSeconds p) (tp_Enabled p)
    (tp_Notes p) None "" f_zero "" (tp_Vantage p) (tp_Options p) (tp_DeviceID p) source.

Definition CreateProbeTarget (p : target_params) (source : string) (db : probe_db) : option (probe_db * ProbeTarget) :=
  let t := new_target (pd_seq db + 1) p source in
  if target_checks t && name_free (tp_Name p) (pt_ID t) (pd_targets db)
  then Some (mkProbeDb (pd_targets db ++ [t]) (pd_seq db + 1) (pd_results db) (pd_resultSeq db) (pd_certs db), t)
  else None.

Definition with_params (p : target_params) (t : ProbeTarget) : ProbeTarget :=
  mkProbeTarget (pt_ID t) (tp_Name p) (tp_Module p) (tp_Target p) (tp_IntervalSeconds p) (tp_TimeoutSeconds p) (tp_Enabled p)
    (tp_Notes p) (pt_LastRunAt t) (pt_LastStatus t) (pt_LastLatencyMs t) (pt_LastError t) (tp_Vantage p) (tp_Options p)
    (tp_DeviceID p) (pt_Source t).

Definition on_target (id : Z) (f : ProbeTarget → ProbeTarget) (ts : list ProbeTarget) : list ProbeTarget :=
  map (fun t => if pt_ID t =? id then f t else t) ts.

(** [None] is a broken constraint or no row. *)
Definition UpdateProbeTarget (id : Z) (p : target_params) (db : probe_db) : option (probe_db * ProbeTarget) :=
  t ← GetProbeTarget id db;
  let t' := with_params p t in
  if target_checks t' && name_free (tp_Name p) id (pd_targets db)
  then Some (set_targets (on_target id (with_params p) (pd_targets db)) db, t')
  else None.

Definition with_enabled (enabled : Z) (t : ProbeTarget) : ProbeTarget :=
  mkProbeTarget (pt_ID t) (pt_Name t) (pt_Module t) (pt_Target t) (pt_IntervalSeconds t) (pt_TimeoutSeconds t) enabled
    (pt_Notes t) (pt_LastRunAt t) (pt_LastStatus t) (pt_LastLatencyMs t) (pt_LastError t) (pt_Vantage t) (pt_Options t)
    (pt_DeviceID t) (pt_Source t).

Definition ToggleProbeTargetEnabled (id enabled : Z) (db : probe_db) : probe_db :=
  set_targets (on_target id (with_enabled enabled) (pd_targets db)) db.

Definition with_last (at_ : Z) (status : string) (latency : f64) (err : string) (t : ProbeTarget) : ProbeTarget :=
  mkProbeTarget (pt_ID t) (pt_Name t) (pt_Module t) (pt_Target t) (pt_IntervalSeconds t) (pt_TimeoutSeconds t) (pt_Enabled t)
    (pt_Notes t) (Some at_) status latency err (pt_Vantage t) (pt_Options t) (pt_DeviceID t) (pt_Source t).

Definition SetProbeTargetLastResult (id at_ : Z) (status : string) (latency : f64) (err : string) (db : probe_db)
    : option probe_db :=
  if bool_decide (status ∈ "" :: probe_statuses) || negb (existsb (fun t => pt_ID t =? id) (pd_targets db))
  then Some (set_targets (on_target id (with_last at_ status latency err) (pd_targets db)) db)
  else None.

Definition DeleteProbeTarget (id : Z) (db : probe_db) : probe_db :=
  set_targets (List.filter (fun t => negb (pt_ID t =? id)) (pd_targets db)) db.

Definition DeleteProbeResultsByTarget (id : Z) (db : probe_db) : probe_db :=
  set_results (List.filter (fun r => negb (pr_TargetID r =? id)) (pd_results db)) db.

Definition DeleteProbeTLSCertsByTarget (id : Z) (db : probe_db) : probe_db :=
  set_certs (List.filter (fun c => negb (tc_TargetID c =? id)) (pd_certs db)) db.

Definition CreateProbeResult (r : Z → ProbeResult) (db : probe_db) : option probe_db :=
  let id := pd_resultSeq db + 1 in
  let row := r id in
  if bool_decide (pr_Status row ∈ probe_statuses) && (-1 <=? pr_CertTrusted row) && (pr_CertTrusted row <=? 1)
  then Some (mkProbeDb (pd_targets db) (pd_seq db) (pd_results db ++ [row]) id (pd_certs db))
  else None.

Definition CreateProbeTLSCert (c : ProbeTlsCert) (db : probe_db) : probe_db := set_certs (pd_certs db ++ [c]) db.

(** * The invariant *)

(** Ids are distinct and given out, names are unique, the CHECKs hold. *)
Definition targets_ok (db : probe_db) : Prop :=
  NoDup (pt_ID <$> pd_targets db) ∧ NoDup (pt_Name <$> pd_targets db)
  ∧ Forall (fun t => 0 < pt_ID t ≤ pd_seq db ∧ target_checks t = true) (pd_targets db) ∧ 0 ≤ pd_seq db.

(** * Lemmas on the table *)

Definition of_source (src : string) (t : ProbeTarget) : Prop := pt_Source t = src.

#[export] Instance of_source_dec src t : Decision (of_source src t).
Proof. unfold of_source. apply _. Defined.

(** Rows by name; a name has one row. *)
Definition target_by_name (ts : list ProbeTarget) : gmap string ProbeTarget :=
  fold_left (fun m t => <[pt_Name t := t]> m) ts ∅.

Lemma lookup_target_by_name ts n t :
  NoDup (pt_Name <$> ts) → target_by_name ts !! n = Some t ↔ t ∈ ts ∧ pt_Name t = n.
Proof.
  induction ts as [|u ts IH] using rev_ind; intros Hnd.
  { cbn. rewrite lookup_empty. split; [done|]. by intros [?%elem_of_nil _]. }
  rewrite fmap_app in Hnd. apply list.NoDup_app in Hnd as (Hnd & Hdis & _). specialize (IH Hnd).
  unfold target_by_name. rewrite fold_left_app. cbn [fold_left]. fold (target_by_name ts).
  rewrite elem_of_app, list_elem_of_singleton. destruct (decide (pt_Name u = n)) as [<-|Hne].
  - rewrite lookup_insert_eq. split; [intros [= ->]; by split; [right|]|]. intros [[Hin| ->] Hn]; [|done]. exfalso.
    apply (Hdis (pt_Name u)); [|by left]. apply list_elem_of_fmap. by exists t.
  - rewrite lookup_insert_ne, IH by done. naive_solver.
Qed.

Lemma find_id ts t : NoDup (pt_ID <$> ts) → t ∈ ts → List.find (fun u => pt_ID u =? pt_ID t) ts = Some t.
Proof.
  intros Hnd Hin. induction ts as [|u ts IH]; [by apply elem_of_nil in Hin|]. cbn in *. apply list.NoDup_cons in Hnd as [Hn Hnd].
  apply elem_of_cons in Hin as [->|Hin]; [by rewrite Z.eqb_refl|]. destruct (Z.eqb_spec (pt_ID u) (pt_ID t)) as [E|]; [|by apply IH].
  exfalso. apply Hn. rewrite E. by apply list_elem_of_fmap_2.
Qed.

Lemma elem_of_on_target id f ts u :
  u ∈ on_target id f ts ↔ ∃ t, t ∈ ts ∧ u = if pt_ID t =? id then f t else t.
Proof. unfold on_target. change (map ?g ts) with (g <$> ts). rewrite list_elem_of_fmap. naive_solver. Qed.

Lemma same_id db t u : targets_ok db → t ∈ pd_targets db → u ∈ pd_targets db → pt_ID t = pt_ID u → t = u.
Proof.
  intros (Hid & _) Ht Hu E. pose proof (find_id _ _ Hid Ht) as H1. pose proof (find_id _ _ Hid Hu) as H2. rewrite E in H1. congruence.
Qed.

Lemma same_name ts t u : NoDup (pt_Name <$> ts) → t ∈ ts → u ∈ ts → pt_Name t = pt_Name u → t = u.
Proof.
  intros Hn Ht Hu E. assert (target_by_name ts !! pt_Name t = Some t) as H1 by (by apply lookup_target_by_name).
  assert (target_by_name ts !! pt_Name u = Some u) as H2 by (by apply lookup_target_by_name). rewrite E in H1. congruence.
Qed.

(** An update of a row of some source keeps the rows of the others. *)
Lemma update_others src id f ts :
  (∀ t, t ∈ ts → pt_ID t = id → of_source src t ∧ of_source src (f t)) →
  filter (fun t => ¬ of_source src t) (on_target id f ts) = filter (fun t => ¬ of_source src t) ts.
Proof.
  induction ts as [|t ts IH]; intros H; [done|]. unfold on_target. cbn [map]. fold (on_target id f ts).
  destruct (Z.eqb_spec (pt_ID t) id) as [E|E].
  - destruct (H t ltac:(left) E) as [H1 H2]. rewrite !filter_cons_False by tauto. apply IH. intros; apply H; [by right|done].
  - rewrite !filter_cons. rewrite IH by (intros; apply H; [by right|done]). done.
Qed.

Lemma on_target_ids id f ts : (∀ t, pt_ID (f t) = pt_ID t) → pt_ID <$> on_target id f ts = pt_ID <$> ts.
Proof.
  intros Hf. unfold on_target. change (map ?g ts) with (g <$> ts). rewrite <- list_fmap_compose. apply list_fmap_ext.
  intros _ t _. cbn. destruct (_ =? id); [apply Hf|done].
Qed.

Lemma on_target_names id f ts :
  (∀ t, t ∈ ts → pt_ID t = id → pt_Name (f t) = pt_Name t) → pt_Name <$> on_target id f ts = pt_Name <$> ts.
Proof.
  intros Hf. unfold on_target. change (map ?g ts) with (g <$> ts). rewrite <- list_fmap_compose. apply list_fmap_ext.
  intros i t Hi. cbn. destruct (Z.eqb_spec (pt_ID t) id) as [E|]; [|done]. apply Hf; [|done]. by eapply list_elem_of_lookup_2.
Qed.

Lemma find_in {A} (f : A → bool) l x : List.find f l = Some x → x ∈ l ∧ f x = true.
Proof. intros H%List.find_some. rewrite list_elem_of_In. done. Qed.

Lemma name_free_spec name self ts :
  name_free name self ts = true ↔ ∀ t, t ∈ ts → pt_ID t ≠ self → pt_Name t ≠ name.
Proof.
  unfold name_free. rewrite forallb_forall. setoid_rewrite orb_true_iff. setoid_rewrite negb_true_iff.
  setoid_rewrite bool_decide_eq_false. setoid_rewrite Z.eqb_eq. setoid_rewrite <- list_elem_of_In. split.
  - intros H t Ht Hne. by destruct (H t Ht).
  - intros H t Ht. destruct (decide (pt_ID t = self)); [by left|right]. by apply H.
Qed.

(** The rows of the others stay when a row is rewritten in place. *)
Lemma rewrite_ok id f db :
  targets_ok db → (∀ t, pt_ID (f t) = pt_ID t) →
  (∀ t, t ∈ pd_targets db → pt_ID t = id →
     target_checks (f t) = true ∧ ∀ u, u ∈ pd_targets db → pt_ID u ≠ id → pt_Name u ≠ pt_Name (f t)) →
  targets_ok (set_targets (on_target id f (pd_targets db)) db).
Proof.
  intros Hok Hid Hf. destruct Hok as (Hi & Hn & Hall & Hs). unfold targets_ok. cbn [set_targets pd_targets pd_seq].
  rewrite on_target_ids by done. split_and!; [done| | |done].
  - unfold on_target. change (map ?g (pd_targets db)) with (g <$> pd_targets db). rewrite <- list_fmap_compose. cbn [compose].
    revert Hi Hn Hf. generalize (pd_targets db). clear. intros ts. induction ts as [|t ts IH]; [constructor|]. cbn.
    intros [Hi1 Hi]%list.NoDup_cons [Hn1 Hn]%list.NoDup_cons Hf. apply list.NoDup_cons. split.
    + intros (u & E & Hu)%list_elem_of_fmap. cbn in E.
      assert (pt_ID u ≠ pt_ID t) as Hne by (intros Eid; apply Hi1; rewrite <- Eid; by apply list_elem_of_fmap_2).
      destruct (Z.eqb_spec (pt_ID t) id) as [Et|Et], (Z.eqb_spec (pt_ID u) id) as [Eu|Eu].
      * congruence.
      * destruct (Hf t ltac:(left) Et) as [_ H]. apply (H u); [by right|done|done].
      * destruct (Hf u ltac:(by right) Eu) as [_ H]. apply (H t); [left|done|done].
      * apply Hn1. rewrite E. by apply list_elem_of_fmap_2.
    + apply IH; [done|done|]. intros u Hu Eu. destruct (Hf u ltac:(by right) Eu) as [? H]. split; [done|]. intros w Hw. apply H. by right.
  - apply list.Forall_forall. intros u (t & Ht & ->)%elem_of_on_target. eapply list.Forall_forall in Hall; [|exact Ht].
    destruct (Z.eqb_spec (pt_ID t) id) as [E|]; [|done]. rewrite Hid. split; [apply Hall|]. by apply Hf.
Qed.

Lemma create_spec p src db db' t :
  CreateProbeTarget p src db = Some (db', t) → targets_ok db →
  targets_ok db' ∧ t = new_target (pd_seq db + 1) p src ∧ pd_targets db' = pd_targets db ++ [t]
  ∧ (∀ u, u ∈ pd_targets db → pt_Name u ≠ tp_Name p) ∧ pd_results db' = pd_results db.
Proof.
  unfold CreateProbeTarget. destruct (_ && _) eqn:E; [|done]. intros [= <- <-] (Hi & Hn & Hall & Hs).
  apply andb_true_iff in E as [Hc Hfree]. rewrite name_free_spec in Hfree. cbn in Hfree.
  assert (∀ u, u ∈ pd_targets db → pt_ID u < pd_seq db + 1) as Hlt by (intros u Hu; eapply list.Forall_forall in Hall; [|exact Hu]; lia).
  assert (∀ u, u ∈ pd_targets db → pt_Name u ≠ tp_Name p) as Hfresh.
  { intros u Hu. apply Hfree; [done|]. specialize (Hlt u Hu). lia. }
  split_and!; try done. unfold targets_ok. cbn [pd_targets pd_seq]. rewrite !fmap_app. split_and!; [| | |lia].
  - apply list.NoDup_app. split_and!; [done| |apply list.NoDup_singleton].
    intros x (u & -> & Hu)%list_elem_of_fmap Hx%list_elem_of_singleton. specialize (Hlt u Hu). cbn in Hx. lia.
  - apply list.NoDup_app. split_and!; [done| |apply list.NoDup_singleton].
    intros x (u & -> & Hu)%list_elem_of_fmap Hx%list_elem_of_singleton. by apply (Hfresh u Hu).
  - apply Forall_app. split.
    + eapply Forall_impl; [|exact Hall]. intros u [? ?]. split; [lia|done].
    + constructor; [|constructor]. split; [cbn; lia|done].
Qed.

Lemma update_spec id p db db' t' :
  UpdateProbeTarget id p db = Some (db', t') → targets_ok db →
  targets_ok db' ∧ pd_results db' = pd_results db
  ∧ ∃ t, t ∈ pd_targets db ∧ pt_ID t = id ∧ t' = with_params p t ∧ pd_targets db' = on_target id (with_params p) (pd_targets db).
Proof.
  unfold UpdateProbeTarget. intros (t & Ht & H)%bind_Some Hok. apply find_in in Ht as [Hin Heq%Z.eqb_eq].
  destruct (_ && _) eqn:E; [|done]. injection H as <- <-. apply andb_true_iff in E as [Hc Hfree]. rewrite name_free_spec in Hfree.
  split; [|split; [done|by exists t]]. apply rewrite_ok; [done|done|]. intros u Hu Eu.
  assert (u = t) as -> by (eapply same_id; [done..|congruence]). split; [done|]. intros w Hw Hne. by apply Hfree.
Qed.

Lemma toggle_ok id e db : targets_ok db → targets_ok (ToggleProbeTargetEnabled id e db).
Proof.
  intros Hok. apply rewrite_ok; [done|done|]. intros t Ht Hid. destruct Hok as (Hi & Hn & Hall & _).
  eapply list.Forall_forall in Hall; [|exact Ht]. split; [apply Hall|]. intros u Hu Hne E. apply Hne. rewrite <- Hid.
  f_equal. by eapply same_name.
Qed.

Lemma delete_ok id db : targets_ok db → targets_ok (DeleteProbeTarget id db).
Proof.
  intros (Hi & Hn & Hall & Hs). unfold targets_ok. cbn.
  assert (List.filter (fun t => negb (pt_ID t =? id)) (pd_targets db) `sublist_of` pd_targets db) as Hsub.
  { generalize (pd_targets db). intros ts. induction ts as [|t ts IH]; [constructor|]. cbn. destruct (negb _); by constructor. }
  split_and!; [eapply sublist_NoDup; [exact Hi|by apply sublist_fmap_mono]|eapply sublist_NoDup; [exact Hn|by apply sublist_fmap_mono]| |done].
  by eapply Forall_sublist.
Qed.
