(* ===== verification/Quality.v ===== *)
(** Egress quality (src/internal/service/probetarget/quality.go): the seeding of
    the built-in probe matrix from the configuration, and the verdicts computed
    over a window of probe results.

    A Go map that is iterated has its iteration order in the model: the groups of
    the configuration are a list.  Rates, latencies and thresholds are float64. *)

From S2P Require Import Prelude Float64 NetAddr Db RateLimit DeviceStore ProbeStore.
From stdpp Require sorting.
From Stdlib Require Import SpecFloat.

Open Scope Z_scope.

(** * Configuration (src/internal/config/probe_config.go) *)

Record ProbeQualityTarget := mkQualityTarget { qt_Name : string; qt_Module : string; qt_Target : string; qt_Options : jobject }.

Record ProbeQualityConfig := mkQualityConfig {
  qc_Enabled : bool;
  qc_WindowMinutes : Z;
  qc_IntervalSeconds : Z;
  qc_HTTPDegradedMs : Z;
  qc_DNSDegradedMs : Z;
  qc_OkRateThreshold : f64;
  qc_Groups : list (string * list ProbeQualityTarget)
}.

Definition QualityVerdictOK : string := "ok".
Definition QualityVerdictDegraded : string := "degraded".
Definition QualityVerdictEgressDown : string := "egress_down".
Definition QualityVerdictDNSFault : string := "dns_fault".
Definition QualityVerdictUpstreamResolver : string := "upstream_resolver".
Definition QualityVerdictInsufficient : string := "insufficient".
Definition QualityPrimaryGroup : string := "domestic".

Definition ProbeCategoryLAN : string := "lan".
Definition ProbeCategoryExternal : string := "external".
Definition ProbeCategoryQuality : string := "quality".

Definition TargetCategory (t : ProbeTarget) : string :=
  if decide (pt_Source t = ProbeSourceSystem) then ProbeCategoryQuality
  else if bool_decide (is_Some (pt_DeviceID t)) || bool_decide (pt_Source t = ProbeSourceAuto) then ProbeCategoryLAN
  else ProbeCategoryExternal.

(** * Window statistics *)

Record QualityTrackStats := mkStats { st_OkRate : f64; st_P50Ms : f64; st_Samples : Z; st_LastStatus : string }.

Record trackAgg := mkTrack { ta_samples : Z; ta_ok : Z; ta_last : string; ta_latencies : list f64 }.

Abbreviation qualityKey := (Z * string)%type.

Definition is_nan (x : f64) : bool := match x with S754_nan => true | _ => false end.

(** The order of [sort.Float64s]: NaN first. *)
Definition float_le (a b : f64) : Prop := f_ltb b a || is_nan b && negb (is_nan a) = false.

#[export] Instance float_le_dec : RelDecision float_le.
Proof. intros a b. unfold float_le. solve_decision. Defined.

Definition stats (a : trackAgg) : QualityTrackStats :=
  let sorted := sorting.merge_sort float_le (ta_latencies a) in
  mkStats (if 0 <? ta_samples a then f_div (f_of_Z (ta_ok a)) (f_of_Z (ta_samples a)) else f_zero)
    (default f_zero (sorted !! ((length sorted - 1) / 2)%nat)) (ta_samples a) (ta_last a).

Definition add_sample (agg : gmap qualityKey trackAgg) (r : ProbeResult) : gmap qualityKey trackAgg :=
  let a := default (mkTrack 0 0 "" []) (agg !! (pr_TargetID r, pr_Vantage r)) in
  let good := bool_decide (pr_Status r = "success") in
  <[(pr_TargetID r, pr_Vantage r) :=
      mkTrack (ta_samples a + 1) (if good then ta_ok a + 1 else ta_ok a) (pr_Status r)
        (if good then ta_latencies a ++ [pr_LatencyMs r] else ta_latencies a)]> agg.

Definition aggregate (rows : list ProbeResult) : gmap qualityKey trackAgg := fold_left add_sample rows ∅.

(** The tracks of one target, by vantage. *)
Definition per_vantage (agg : gmap qualityKey trackAgg) (id : Z) : gmap string QualityTrackStats :=
  list_to_map (omap (fun kv : qualityKey * trackAgg => if kv.1.1 =? id then Some (kv.1.2, stats kv.2) else None) (map_to_list agg)).

Definition up (st : QualityTrackStats) : bool := f_ltb f_half (st_OkRate st).

Definition crossVantageVerdict (perVantage : gmap string QualityTrackStats) : string :=
  let tracks := (map_to_list perVantage).*2 in
  match tracks with
  | [] => "no_data"
  | _ => if forallb (fun st => negb (up st)) tracks then "target_down"
         else if existsb (fun st => negb (up st)) tracks then "mixed" else "ok"
  end.

(** * Legs *)

Record qualityLeg := mkLeg { lg_name : string; lg_module : string; lg_st : QualityTrackStats }.

Definition ok_sum (legs : list qualityLeg) : f64 := fold_left (fun sum l => f_add sum (st_OkRate (lg_st l))) legs f_zero.

Definition ok_mean (legs : list qualityLeg) : f64 := f_div (ok_sum legs) (f_of_Z (Z.of_nat (length legs))).

Definition okRateScore (legs : list qualityLeg) : Z :=
  match legs with
  | [] => 0
  | _ => f_trunc (f_add (f_mul (ok_mean legs) f_hundred) f_half)
  end.

Definition over_budget (cfg : ProbeQualityConfig) (l : qualityLeg) : bool :=
  let budget := f_of_Z (if decide (lg_module l = "dns") then qc_DNSDegradedMs cfg else qc_HTTPDegradedMs cfg) in
  f_ltb f_zero (st_P50Ms (lg_st l)) && f_ltb budget (st_P50Ms (lg_st l)).

(** The reasons for a degraded verdict. *)
Definition window_reasons (cfg : ProbeQualityConfig) (legs : list qualityLeg) : list string :=
  (if f_ltb (ok_mean legs) (qc_OkRateThreshold cfg) then ["ok_rate_low"] else [])
  ++ (if existsb (over_budget cfg) legs then ["latency_high"] else []).

Record QualityVantageReport := mkVantageReport {
  vr_Vantage : string;
  vr_NetworkName : string;
  vr_Verdict : string;
  vr_Score : Z;
  vr_Reasons : list string
}.

Definition insufficient (vantage : string) : QualityVantageReport :=
  mkVantageReport vantage "" QualityVerdictInsufficient 0 ["insufficient_data"].

(** The last part of both judgements. *)
Definition window_verdict (cfg : ProbeQualityConfig) (vantage : string) (legs : list qualityLeg) : QualityVantageReport :=
  let reasons := window_reasons cfg legs in
  let score := okRateScore legs in
  match reasons with
  | [] => mkVantageReport vantage "" QualityVerdictOK score []
  | _ => mkVantageReport vantage "" QualityVerdictDegraded (Z.max (score - 20) 0) reasons
  end.

Definition judgeSimpleCategory (bucket : list ProbeTarget) (vantage : string) (agg : gmap qualityKey trackAgg)
    (cfg : ProbeQualityConfig) : QualityVantageReport :=
  let legs := omap (fun t => a ← agg !! (pt_ID t, vantage);
                             if st_Samples (stats a) =? 0 then None
                             else Some (mkLeg (pt_Name t) (pt_Module t) (stats a))) bucket in
  let totalSamples := foldr Z.add 0 ((fun l => st_Samples (lg_st l)) <$> legs) in
  match legs with
  | [] => insufficient vantage
  | _ => if totalSamples <? 2 then insufficient vantage else window_verdict cfg vantage legs
  end.

Definition ipLiteralHost (target : string) : bool :=
  let host := match SplitHostPort target with Some (h, _) => h | None => target end in
  bool_decide (is_Some (ParseIP host)).

Inductive leg_class := Direct | Dns | Other.

#[export] Instance leg_class_eq_dec : EqDecision leg_class.
Proof. solve_decision. Defined.

Definition classify (qt : ProbeQualityTarget) : leg_class :=
  if decide (qt_Module qt = "dns") then Dns
  else if bool_decide (qt_Module qt = "tcp") && ipLiteralHost (qt_Target qt) then Direct
  else Other.

(** The leg of a target that counts for a vantage: with samples, and not failing
    everywhere when several vantages report. *)
Definition counted_leg (agg : gmap qualityKey trackAgg) (idOf : string → option Z) (vantage : string)
    (qt : ProbeQualityTarget) : option (leg_class * qualityLeg) :=
  id ← idOf (qt_Name qt);
  a ← agg !! (id, vantage);
  if st_Samples (stats a) =? 0 then None
  else
    let perV := per_vantage agg id in
    if (1 <? size perV)%nat && bool_decide (crossVantageVerdict perV = "target_down") then None
    else Some (classify qt, mkLeg (qt_Name qt) (qt_Module qt) (stats a)).

Definition failed (l : qualityLeg) : bool := f_ltb (st_OkRate (lg_st l)) f_half.
Definition passed (cfg : ProbeQualityConfig) (l : qualityLeg) : bool :=
  match SFcompare (st_OkRate (lg_st l)) (qc_OkRateThreshold cfg) with Some (Gt | Eq) => true | _ => false end.
Definition allFailed (legs : list qualityLeg) : bool := match legs with [] => false | _ => forallb failed legs end.

Definition judgeVantage (cfgTargets : list ProbeQualityTarget) (agg : gmap qualityKey trackAgg) (idOf : string → option Z)
    (vantage : string) (cfg : ProbeQualityConfig) : QualityVantageReport :=
  let classified := omap (counted_leg agg idOf vantage) cfgTargets in
  let of_class c := snd <$> filter (fun cl : leg_class * qualityLeg => cl.1 = c) classified in
  let directs := of_class Direct in
  let dnses := of_class Dns in
  let others := of_class Other in
  let all := directs ++ dnses ++ others in
  match all with
  | [] => insufficient vantage
  | _ =>
      if allFailed directs && allFailed others then
        mkVantageReport vantage "" QualityVerdictEgressDown (Z.min (okRateScore all) 25) ["egress_down.all_paths_failing"]
      else if (match directs with [] => false | _ => negb (existsb failed directs) end)
              && allFailed others && allFailed dnses
              && ((0 <? length others)%nat || (0 <? length dnses)%nat) then
        mkVantageReport vantage "" QualityVerdictDNSFault (Z.min (okRateScore all) 25)
          ["dns_fault.direct_ok_name_resolution_dead"]
      else if (1 <? length dnses)%nat && existsb (passed cfg) dnses && existsb failed dnses then
        mkVantageReport vantage "" QualityVerdictUpstreamResolver (okRateScore all)
          ((fun l => "upstream_resolver.failing:" +:+ lg_name l) <$> List.filter failed dnses)
      else window_verdict cfg vantage all
  end.

(** * The report *)

Record QualityTargetMatrix := mkMatrix {
  mx_Name : string; mx_Module : string; mx_Target : string; mx_CrossVantage : string;
  mx_PerVantage : gmap string QualityTrackStats
}.

Record QualityGroupReport := mkGroupReport {
  gr_Name : string; gr_Role : string; gr_Vantages : list QualityVantageReport; gr_Targets : list QualityTargetMatrix
}.

Record QualityCategoryReport := mkCategoryReport {
  cr_Category : string; cr_Vantages : list QualityVantageReport; cr_Targets : list QualityTargetMatrix;
  cr_Groups : list QualityGroupReport
}.

Record QualityReport := mkQualityReport { qr_WindowMinutes : Z; qr_Categories : list QualityCategoryReport }.

Definition string_le (a b : string) : Prop := String.leb a b = true.

#[export] Instance string_le_dec : RelDecision string_le.
Proof. intros a b. unfold string_le. solve_decision. Defined.

Definition sortedKeys (set : gset string) : list string := sorting.merge_sort string_le (elements set).

Definition networkNameFor (vantage : string) (byAgent : gmap string string) : string :=
  if has_prefix ProbeVantageAgentPrefix vantage
  then default "" (byAgent !! suffix_from (String.length ProbeVantageAgentPrefix) vantage) else "".

Definition name_vantage (byAgent : gmap string string) (vr : QualityVantageReport) : QualityVantageReport :=
  let name := networkNameFor (vr_Vantage vr) byAgent in
  if decide (name = "") then vr else mkVantageReport (vr_Vantage vr) name (vr_Verdict vr) (vr_Score vr) (vr_Reasons vr).

Definition network_by_agent (nets : list Network) : gmap string string :=
  fold_left (fun m n => match net_AgentID n with
                        | Some a => if decide (trim_space a = "") then m else <[trim_space a := net_Name n]> m
                        | None => m
                        end) nets ∅.

Definition matrix_of (agg : gmap qualityKey trackAgg) (byName : gmap string ProbeTarget) (qt : ProbeQualityTarget)
    : QualityTargetMatrix :=
  let per := match byName !! qt_Name qt with Some t => per_vantage agg (pt_ID t) | None => ∅ end in
  mkMatrix (qt_Name qt) (qt_Module qt) (qt_Target qt) (crossVantageVerdict per) per.

Definition analyzeGroup (cfg : ProbeQualityConfig) (group : string) (cfgTargets : list ProbeQualityTarget)
    (byName : gmap string ProbeTarget) (agg : gmap qualityKey trackAgg) (byAgent : gmap string string) : QualityGroupReport :=
  let idOf name := pt_ID <$> byName !! name in
  let columns := matrix_of agg byName <$> cfgTargets in
  let vantages := sortedKeys (list_to_set (mx ← columns; (map_to_list (mx_PerVantage mx)).*1)) in
  mkGroupReport group (if decide (group = QualityPrimaryGroup) then "primary" else "reference")
    ((fun v => name_vantage byAgent (judgeVantage cfgTargets agg idOf v cfg)) <$> vantages) columns.

Definition qualityMatrixTargets (cfg : ProbeQualityConfig) (byName : gmap string ProbeTarget) (agg : gmap qualityKey trackAgg)
    : list QualityTargetMatrix := g ← qc_Groups cfg; matrix_of agg byName <$> g.2.

(** A category of plain targets. *)
Definition simple_category (cfg : ProbeQualityConfig) (cat : string) (bucket : list ProbeTarget) (agg : gmap qualityKey trackAgg)
    (byAgent : gmap string string) : QualityCategoryReport :=
  let columns := (fun t => let per := per_vantage agg (pt_ID t) in
                           mkMatrix (pt_Name t) (pt_Module t) (pt_Target t) (crossVantageVerdict per) per) <$> bucket in
  let vantages := sortedKeys (list_to_set (mx ← columns; (map_to_list (mx_PerVantage mx)).*1)) in
  mkCategoryReport cat ((fun v => name_vantage byAgent (judgeSimpleCategory bucket v agg cfg)) <$> vantages) columns [].

Definition group_le (a b : string * list ProbeQualityTarget) : Prop := String.leb a.1 b.1 = true.

#[export] Instance group_le_dec : RelDecision group_le.
Proof. intros a b. unfold group_le. solve_decision. Defined.

(** [ListProbeResultsSince]: by time, then by id. *)
Definition result_le (a b : ProbeResult) : Prop :=
  if decide (pr_CheckedAt a = pr_CheckedAt b) then pr_ID a ≤ pr_ID b else String.leb (pr_CheckedAt a) (pr_CheckedAt b) = true.

#[export] Instance result_le_dec : RelDecision result_le.
Proof. intros a b. unfold result_le. case_decide; apply _. Defined.

Definition ListProbeResultsSince (cutoff : string) (db : probe_db) : list ProbeResult :=
  sorting.merge_sort result_le (List.filter (fun r => String.leb cutoff (pr_CheckedAt r)) (pd_results db)).

Definition Analyze (cfg : ProbeQualityConfig) (windowMinutes now : Z) (nets : list Network) (db : probe_db) : QualityReport :=
  let window := if windowMinutes <=? 0 then qc_WindowMinutes cfg else windowMinutes in
  let rows := ListProbeResultsSince (format_RFC3339 (now - i64 (window * minute))) db in
  let byAgent := network_by_agent nets in
  let agg := aggregate rows in
  let bucket cat := List.filter (fun t => (pt_Enabled t =? 1) && bool_decide (TargetCategory t = cat)) (pd_targets db) in
  let simple cat := simple_category cfg cat (bucket cat) agg byAgent in
  let byName := target_by_name (pd_targets db) in
  let groups := (fun g => analyzeGroup cfg g.1 g.2 byName agg byAgent) <$> sorting.merge_sort group_le (qc_Groups cfg) in
  let primary := concat ((fun g => if decide (gr_Name g = QualityPrimaryGroup) then gr_Vantages g else []) <$> groups) in
  mkQualityReport window
    [simple ProbeCategoryLAN; simple ProbeCategoryExternal;
     mkCategoryReport ProbeCategoryQuality primary (qualityMatrixTargets cfg byName agg) groups].

(** * Seeding *)

Section seed.
Context (marshal : json → string).

Definition qualityOptionsJSON (m : jobject) : string := match m with [] => "" | _ => marshal (JObject m) end.

(** One configured target; [None] is an error. *)
Definition seed_target (cfg : ProbeQualityConfig) (byName : gmap string ProbeTarget) (db : option probe_db)
    (qt : ProbeQualityTarget) : option probe_db :=
  db ← db;
  let opts := qualityOptionsJSON (qt_Options qt) in
  match byName !! qt_Name qt with
  | Some prev =>
      if negb (bool_decide (pt_Source prev = ProbeSourceSystem)) then Some db
      else if bool_decide (pt_Module prev = qt_Module qt) && bool_decide (pt_Target prev = qt_Target qt)
              && bool_decide (pt_Options prev = opts) then Some db
      else fst <$> UpdateProbeTarget (pt_ID prev)
             (mkParams (pt_Name prev) (qt_Module qt) (qt_Target qt) (pt_IntervalSeconds prev) (pt_TimeoutSeconds prev)
                (pt_Enabled prev) (pt_Notes prev) ProbeVantageAll opts None) db
  | None =>
      fst <$> CreateProbeTarget
        (mkParams (qt_Name qt) (qt_Module qt) (qt_Target qt) (qc_IntervalSeconds cfg) 10 1
           "egress-quality matrix member (#608), managed by probe.quality config" ProbeVantageAll opts None)
        ProbeSourceSystem db
  end.

Definition delete_target (id : Z) (db : probe_db) : probe_db :=
  DeleteProbeTarget id (DeleteProbeTLSCertsByTarget id (DeleteProbeResultsByTarget id db)).

(** [None] is an error of a statement; the statements before it stay. *)
Definition Seed (cfg : ProbeQualityConfig) (db : probe_db) : option probe_db :=
  let existing := ListProbeTargets db in
  let byName := target_by_name existing in
  let systemRows := List.filter (fun t => bool_decide (pt_Source t = ProbeSourceSystem)) existing in
  if negb (qc_Enabled cfg) then
    Some (fold_left (fun db t => if pt_Enabled t =? 1 then ToggleProbeTargetEnabled (pt_ID t) 0 db else db) systemRows db)
  else
    let configured := g ← qc_Groups cfg; g.2 in
    let wanted := qt_Name <$> configured in
    db ← fold_left (seed_target cfg byName) configured (Some db);
    Some (fold_left (fun db t => if bool_decide (pt_Name t ∈ wanted) then db else delete_target (pt_ID t) db) systemRows db).

End seed.
