(* ===== verification/QualitySpec.v ===== *)
(** What the quality verdicts mean ([Quality]): the float64 rates decide as the
    exact counts would, the severe verdicts hold exactly when the probes say so,
    scores stay within bounds, and the seeding of the matrix settles. *)

From S2P Require Import Prelude Float64 NetAddr Db RateLimit DeviceStore ProbeStore Quality.
From stdpp Require sorting.
From Stdlib Require Import SpecFloat.

Open Scope Z_scope.

(** * Rates *)

Definition track_ok (a : trackAgg) : Prop := 0 ≤ ta_ok a ≤ ta_samples a ∧ 0 < ta_samples a ≤ 2 ^ 52.

Lemma canon_half : canon f_half ∧ val f_half = 2 ^ 52 * 2 ^ 1021.
Proof. split; reflexivity. Qed.

Section rate.
Context (a : trackAgg) (Ha : track_ok a).

Lemma rate_spec :
  canon (st_OkRate (stats a))
  ∧ ∀ c t, 0 ≤ c < 2 ^ 53 → -1074 ≤ t →
      (ta_ok a * 2 ^ 1074 ≤ ta_samples a * (c * 2 ^ (t + 1074)) → val (st_OkRate (stats a)) ≤ c * 2 ^ (t + 1074))
      ∧ (ta_samples a * (c * 2 ^ (t + 1074)) ≤ ta_ok a * 2 ^ 1074 → c * 2 ^ (t + 1074) ≤ val (st_OkRate (stats a))).
Proof.
  destruct Ha as [Hok Hn]. cbn [stats st_OkRate]. rewrite (proj2 (Z.ltb_lt 0 (ta_samples a))) by lia.
  destruct (f_of_Z_spec (ta_ok a)) as [Px Vx]; [lia|]. destruct (f_of_Z_spec (ta_samples a)) as [Py Vy]; [lia|].
  remember (2 ^ 1074) as u eqn:Hu. assert (0 < u) as Hu0 by (by subst).
  destruct (f_div_spec (f_of_Z (ta_ok a)) (f_of_Z (ta_samples a)) Px Py) as [Hp Hb]; [rewrite Vy; nia| |].
  { rewrite Vx, Vy. assert (1 ≤ 2 ^ 900) by (apply Z.leb_le; reflexivity). nia. }
  split; [done|]. intros c t Hc Ht. destruct (Hb c t Hc Ht) as [H1 H2]. rewrite Vx, Vy, <- Hu in H1, H2.
  assert (∀ x y w, x * u * u ≤ y * u * w ↔ x * u ≤ y * w) as Hcancel.
  { intros x y w. replace (y * u * w) with (y * w * u) by ring. rewrite <- Z.mul_le_mono_pos_r by done. done. }
  assert (∀ x y w, y * u * w ≤ x * u * u ↔ y * w ≤ x * u) as Hcancel'.
  { intros x y w. replace (y * u * w) with (y * w * u) by ring. rewrite <- Z.mul_le_mono_pos_r by done. done. }
  rewrite Hcancel in H1. rewrite Hcancel' in H2. done.
Qed.

Lemma rate_canon : canon (st_OkRate (stats a)).
Proof. apply rate_spec. Qed.

(** A bound [c * 2^(-k)]. *)
Lemma rate_le c k : 0 ≤ c < 2 ^ 53 → 0 ≤ k ≤ 60 →
  ta_ok a * 2 ^ k ≤ ta_samples a * c → val (st_OkRate (stats a)) ≤ c * 2 ^ (1074 - k).
Proof.
  intros Hc Hk H. destruct (proj2 rate_spec c (- k) Hc ltac:(lia)) as [Hu _].
  replace (1074 - k) with (- k + 1074) by lia. apply Hu.
  replace 1074 with (k + (- k + 1074)) at 1 by lia. rewrite (Z.pow_add_r 2 k) by lia.
  rewrite !Z.mul_assoc. apply Z.mul_le_mono_nonneg_r; [apply Z.pow_nonneg; lia|done].
Qed.

Lemma rate_ge c k : 0 ≤ c < 2 ^ 53 → 0 ≤ k ≤ 60 →
  ta_samples a * c ≤ ta_ok a * 2 ^ k → c * 2 ^ (1074 - k) ≤ val (st_OkRate (stats a)).
Proof.
  intros Hc Hk H. destruct (proj2 rate_spec c (- k) Hc ltac:(lia)) as [_ Hl].
  replace (1074 - k) with (- k + 1074) by lia. apply Hl.
  replace 1074 with (k + (- k + 1074)) at 2 by lia. rewrite (Z.pow_add_r 2 k) by lia.
  rewrite !Z.mul_assoc. apply Z.mul_le_mono_nonneg_r; [apply Z.pow_nonneg; lia|done].
Qed.

(** The comparison with one half decides as the counts do. *)
Lemma below_half : f_ltb (st_OkRate (stats a)) f_half = (2 * ta_ok a <? ta_samples a).
Proof.
  rewrite (f_ltb_val _ _ rate_canon (proj1 canon_half)), (proj2 canon_half). destruct Ha as [Hok Hn].
  destruct (Z.ltb_spec (2 * ta_ok a) (ta_samples a)) as [H|H].
  - apply Z.ltb_lt. eapply Z.le_lt_trans; [apply (rate_le (2 ^ 53 - 1) 54); [lia..|]|reflexivity]. lia.
  - apply Z.ltb_ge. etransitivity; [|apply (rate_ge 1 1); lia]. reflexivity.
Qed.

Lemma above_half : f_ltb f_half (st_OkRate (stats a)) = (ta_samples a <? 2 * ta_ok a).
Proof.
  rewrite (f_ltb_val _ _ (proj1 canon_half) rate_canon), (proj2 canon_half). destruct Ha as [Hok Hn].
  destruct (Z.ltb_spec (ta_samples a) (2 * ta_ok a)) as [H|H].
  - apply Z.ltb_lt. eapply Z.lt_le_trans; [|apply (rate_ge (2 ^ 52 + 1) 53); lia]. reflexivity.
  - apply Z.ltb_ge. etransitivity; [apply (rate_le 1 1); lia|]. reflexivity.
Qed.

Lemma rate_one : val (st_OkRate (stats a)) ≤ 2 ^ 1074.
Proof. destruct Ha as [Hok Hn]. etransitivity; [apply (rate_le 1 0); lia|]. reflexivity. Qed.

End rate.

(** * Counts *)

Definition of_track (id : Z) (v : string) (r : ProbeResult) : Prop := pr_TargetID r = id ∧ pr_Vantage r = v.

Definition total (rows : list ProbeResult) (id : Z) (v : string) : Z := Z.of_nat (length (filter (of_track id v) rows)).

Definition good (rows : list ProbeResult) (id : Z) (v : string) : Z :=
  Z.of_nat (length (filter (fun r => of_track id v r ∧ pr_Status r = "success") rows)).

Lemma filter_snoc {A} (P : A → Prop) `{!∀ x, Decision (P x)} l x :
  filter P (l ++ [x]) = filter P l ++ (if decide (P x) then [x] else []).
Proof. by rewrite list.filter_app. Qed.

Lemma aggregate_counts rows id v :
  match aggregate rows !! (id, v) with
  | None => total rows id v = 0
  | Some a => ta_samples a = total rows id v ∧ ta_ok a = good rows id v ∧ 0 < total rows id v
  end ∧ 0 ≤ good rows id v ≤ total rows id v ∧ total rows id v ≤ Z.of_nat (length rows).
Proof.
  induction rows as [|r rows IH] using rev_ind; [done|]. unfold aggregate. rewrite fold_left_app. cbn [fold_left].
  fold (aggregate rows). unfold total, good in *. rewrite !filter_snoc, !length_app. unfold add_sample.
  destruct IH as (Hm & Hg & Hl). destruct (decide (of_track id v r)) as [Ht|Ht].
  - destruct Ht as [<- <-]. rewrite lookup_insert_eq.
    destruct (aggregate rows !! (pr_TargetID r, pr_Vantage r)) as [a|]; cbn [default from_option]; cbn in *;
      repeat case_decide; repeat case_bool_decide; unfold of_track in *; cbn; try (exfalso; tauto); lia.
  - rewrite lookup_insert_ne by (intros [= ? ?]; by apply Ht).
    rewrite (decide_False (P := of_track id v r ∧ _)) by tauto. cbn. rewrite !Nat.add_0_r.
    destruct (aggregate rows !! (id, v)) as [a|]; lia.
Qed.

Lemma track_counts rows id v a :
  Z.of_nat (length rows) ≤ 2 ^ 52 → aggregate rows !! (id, v) = Some a →
  track_ok a ∧ ta_samples a = total rows id v ∧ ta_ok a = good rows id v ∧ 0 < total rows id v.
Proof.
  intros Hlen E. pose proof (aggregate_counts rows id v) as H. rewrite E in H. destruct H as ((Hs & Hg & ?) & ? & ?).
  split_and!; try done; unfold track_ok; lia.
Qed.

Lemma no_track rows id v : aggregate rows !! (id, v) = None ↔ total rows id v = 0.
Proof.
  pose proof (aggregate_counts rows id v) as [H _]. destruct (aggregate rows !! (id, v)) as [a|]; [|done].
  split; [done|lia].
Qed.

(** The tracks of a target. *)
Lemma lookup_per_vantage agg id v : per_vantage agg id !! v = stats <$> agg !! (id, v).
Proof.
  unfold per_vantage. set (f := fun kv : qualityKey * trackAgg => _). apply option_eq. intros st.
  assert (NoDup (omap f (map_to_list agg)).*1) as Hnd.
  { pose proof (NoDup_fst_map_to_list agg) as Hm. induction (map_to_list agg) as [|[[i w] a] l IH]; [constructor|]. cbn in *.
    apply list.NoDup_cons in Hm as [Hn Hm]. specialize (IH Hm). unfold f at 1. cbn. destruct (Z.eqb_spec i id) as [->|]; [|done].
    cbn. apply list.NoDup_cons. split; [|done]. intros ([w' st'] & Hw & Hin)%list_elem_of_fmap. cbn in Hw. subst w'.
    apply list_elem_of_omap in Hin as ([[i' w'] a'] & Hin & Hf). unfold f in Hf. cbn in Hf.
    destruct (Z.eqb_spec i' id) as [->|]; [|done]. injection Hf as -> _. apply Hn, list_elem_of_fmap. by exists (id, w, a'). }
  rewrite <- elem_of_list_to_map by done. rewrite list_elem_of_omap, fmap_Some. split.
  - intros ([[i w] a] & Hin & Hf). unfold f in Hf. cbn in Hf. destruct (Z.eqb_spec i id) as [->|]; [|done].
    injection Hf as ? ?. subst w st. exists a. split; [|done]. by apply elem_of_map_to_list.
  - intros (a & Ha & ->). exists ((id, v), a). split; [by apply elem_of_map_to_list|]. unfold f. cbn. by rewrite Z.eqb_refl.
Qed.

Lemma target_down_spec (per : gmap string QualityTrackStats) :
  crossVantageVerdict per = "target_down" ↔ per ≠ ∅ ∧ ∀ v st, per !! v = Some st → up st = false.
Proof.
  unfold crossVantageVerdict.
  assert (per = ∅ ↔ (map_to_list per).*2 = []) as Hnil.
  { split; [intros ->; by rewrite map_to_list_empty|]. intros H%fmap_nil_inv. by apply map_to_list_empty_iff. }
  assert ((∀ v st, per !! v = Some st → up st = false) ↔ forallb (fun st => negb (up st)) (map_to_list per).*2 = true) as Hall.
  { rewrite forallb_forall. split.
    - intros H st ([v st'] & -> & Hin%elem_of_map_to_list)%list_elem_of_In%list_elem_of_fmap. cbn. by rewrite (H v st').
    - intros H v st Hin%elem_of_map_to_list. apply negb_true_iff, H, list_elem_of_In, list_elem_of_fmap. by exists (v, st). }
  rewrite Hall, Hnil. destruct ((map_to_list per).*2) as [|st l]; [split; [done|by intros [? _]]|].
  destruct (forallb _ (st :: l)); [done|]. split; [by destruct (existsb _ _)|by intros [_ ?]].
Qed.

Lemma several_keys {A} (m : gmap string A) : (1 < size m)%nat ↔ ∃ v w, v ≠ w ∧ is_Some (m !! v) ∧ is_Some (m !! w).
Proof.
  split.
  - intros H. rewrite <- length_map_to_list in H. pose proof (NoDup_fst_map_to_list m) as Hnd.
    assert (∀ v x, (v, x) ∈ map_to_list m → is_Some (m !! v)) as Hin by (intros v x ?%elem_of_map_to_list; by exists x).
    destruct (map_to_list m) as [|[v x] [|[w y] l]]; cbn in H; [lia..|]. cbn in Hnd. apply list.NoDup_cons in Hnd as [Hn _].
    exists v, w. split; [intros ->; apply Hn; left|]. split; eapply Hin; [left|right; left].
  - intros (v & w & Hne & Hv & Hw). rewrite <- size_dom. eapply Nat.lt_le_trans; [|apply (subseteq_size ({[v; w]} : gset string))].
    + rewrite size_union by set_solver. rewrite !size_singleton. lia.
    + intros k [->%elem_of_singleton| ->%elem_of_singleton]%elem_of_union; by apply elem_of_dom.
Qed.

Section verdicts.
Context (rows : list ProbeResult) (idOf : string → option Z) (cfgTargets : list ProbeQualityTarget) (vantage : string).
Context (cfg : ProbeQualityConfig) (Hlen : Z.of_nat (length rows) ≤ 2 ^ 52).

(** More than half of the probes of a track failed. *)
Definition lost (id : Z) : Prop := 2 * good rows id vantage < total rows id vantage.

(** Several vantages report the target, and from none of them more than half of
    the probes succeed. *)
Definition down_everywhere (id : Z) : Prop :=
  (∃ v w, v ≠ w ∧ 0 < total rows id v ∧ 0 < total rows id w) ∧ ∀ v, 0 < total rows id v → 2 * good rows id v ≤ total rows id v.

(** The targets that count for the vantage. *)
Definition counts (qt : ProbeQualityTarget) (id : Z) : Prop :=
  qt ∈ cfgTargets ∧ idOf (qt_Name qt) = Some id ∧ 0 < total rows id vantage ∧ ¬ down_everywhere id.

Let agg := aggregate rows.

Lemma reports_spec id v : 0 < total rows id v ↔ is_Some (per_vantage agg id !! v).
Proof.
  rewrite lookup_per_vantage, fmap_is_Some. unfold agg. pose proof (aggregate_counts rows id v) as (H & _).
  destruct (aggregate rows !! (id, v)) as [a|].
  - split; [done|]. lia.
  - split; [lia|]. by intros [].
Qed.

Lemma up_spec id v st : per_vantage agg id !! v = Some st → up st = (total rows id v <? 2 * good rows id v).
Proof.
  rewrite lookup_per_vantage. intros (a & Ha & ->)%fmap_Some. destruct (track_counts rows id v a Hlen Ha) as (Hok & <- & <- & _).
  by apply above_half.
Qed.

Lemma isolated_spec id :
  (1 <? size (per_vantage agg id))%nat && bool_decide (crossVantageVerdict (per_vantage agg id) = "target_down") = true
  ↔ down_everywhere id.
Proof.
  rewrite andb_true_iff, bool_decide_eq_true, Nat.ltb_lt, target_down_spec, several_keys. unfold down_everywhere.
  setoid_rewrite reports_spec. split.
  - intros [Htwo [_ Hdown]]. split; [done|]. intros v [st Hst]. specialize (Hdown v st Hst). rewrite (up_spec id v st Hst) in Hdown.
    by apply Z.ltb_ge.
  - intros [Htwo Hdown]. split; [done|]. split.
    + destruct Htwo as (v & _ & _ & [st Hst] & _). intros E. by rewrite E, lookup_empty in Hst.
    + intros v st Hst. rewrite (up_spec id v st Hst). apply Z.ltb_ge, Hdown. by exists st.
Qed.

Lemma counted_leg_spec qt c l :
  qt ∈ cfgTargets →
  counted_leg agg idOf vantage qt = Some (c, l) ↔
  ∃ id a, counts qt id ∧ agg !! (id, vantage) = Some a ∧ c = classify qt ∧ l = mkLeg (qt_Name qt) (qt_Module qt) (stats a).
Proof.
  intros Hqt. unfold counted_leg, counts. split.
  - intros (id & Hid & H)%bind_Some. apply bind_Some in H as (a & Ha & H).
    destruct (track_counts rows id vantage a Hlen Ha) as (_ & Hs & _ & Ht). cbn [st_Samples stats] in H.
    rewrite (proj2 (Z.eqb_neq (ta_samples a) 0)) in H by lia.
    destruct ((1 <? size (per_vantage agg id))%nat && _) eqn:E; [done|]. injection H as <- <-. exists id, a. split_and!; try done.
    rewrite <- isolated_spec. by rewrite E.
  - intros (id & a & (_ & Hid & Ht & Hdown) & Ha & -> & ->). rewrite Hid. cbn [mbind option_bind]. rewrite Ha. cbn [mbind option_bind].
    destruct (track_counts rows id vantage a Hlen Ha) as (_ & Hs & _ & _). cbn [st_Samples stats].
    rewrite (proj2 (Z.eqb_neq (ta_samples a) 0)) by lia.
    destruct ((1 <? size (per_vantage agg id))%nat && _) eqn:E; [|done]. by apply isolated_spec in E.
Qed.

Definition legs_of (c : leg_class) : list qualityLeg :=
  snd <$> filter (fun cl : leg_class * qualityLeg => cl.1 = c) (omap (counted_leg agg idOf vantage) cfgTargets).

Lemma legs_of_spec c l :
  l ∈ legs_of c ↔ ∃ qt id, counts qt id ∧ classify qt = c ∧ lg_name l = qt_Name qt
                   ∧ ∃ a, agg !! (id, vantage) = Some a ∧ l = mkLeg (qt_Name qt) (qt_Module qt) (stats a).
Proof.
  unfold legs_of. rewrite list_elem_of_fmap. split.
  - intros ([c' l'] & -> & [Hc Hin]%list_elem_of_filter). cbn in *. subst c'.
    apply list_elem_of_omap in Hin as (qt & Hqt & H). apply counted_leg_spec in H as (id & a & Hcount & Ha & -> & ->); [|done].
    exists qt, id. split_and!; try done. by exists a.
  - intros (qt & id & Hcount & <- & _ & a & Ha & ->). exists (classify qt, mkLeg (qt_Name qt) (qt_Module qt) (stats a)). split; [done|].
    apply list_elem_of_filter. split; [done|]. apply list_elem_of_omap. exists qt. split; [apply Hcount|].
    apply counted_leg_spec; [apply Hcount|]. by exists id, a.
Qed.

Lemma failed_spec qt id a : agg !! (id, vantage) = Some a →
  failed (mkLeg (qt_Name qt) (qt_Module qt) (stats a)) = true ↔ lost id.
Proof.
  intros Ha. destruct (track_counts rows id vantage a Hlen Ha) as (Hok & Hs & Hg & _). unfold failed. cbn [lg_st].
  rewrite below_half by done. rewrite Hs, Hg. apply Z.ltb_lt.
Qed.

Lemma leg_of qt id : counts qt id → ∃ l, l ∈ legs_of (classify qt) ∧ (failed l = true ↔ lost id).
Proof.
  intros Hc. destruct (agg !! (id, vantage)) as [a|] eqn:Ha.
  - exists (mkLeg (qt_Name qt) (qt_Module qt) (stats a)). split; [|by apply failed_spec].
    apply legs_of_spec. exists qt, id. split_and!; try done. by exists a.
  - apply no_track in Ha. destruct Hc as (_ & _ & Ht & _). lia.
Qed.

Lemma leg_is l c : l ∈ legs_of c → ∃ qt id, counts qt id ∧ classify qt = c ∧ (failed l = true ↔ lost id).
Proof.
  intros (qt & id & Hc & Hq & _ & a & Ha & ->)%legs_of_spec. exists qt, id. split_and!; [done..|]. by apply failed_spec.
Qed.

Definition present (c : leg_class) : Prop := ∃ qt id, counts qt id ∧ classify qt = c.

Lemma present_spec c : present c ↔ legs_of c ≠ [].
Proof.
  split.
  - intros (qt & id & Hc & <-) E. destruct (leg_of qt id Hc) as (l & Hl & _). rewrite E in Hl. by apply elem_of_nil in Hl.
  - intros H. destruct (legs_of c) as [|l legs] eqn:E; [done|]. destruct (leg_is l c) as (qt & id & ? & ? & _); [rewrite E; left|].
    by exists qt, id.
Qed.

Lemma all_failed_spec c :
  allFailed (legs_of c) = true ↔ present c ∧ ∀ qt id, counts qt id → classify qt = c → lost id.
Proof.
  rewrite present_spec. unfold allFailed.
  assert (forallb failed (legs_of c) = true ↔ ∀ qt id, counts qt id → classify qt = c → lost id) as Hf.
  { rewrite forallb_forall. split.
    - intros H qt id Hc <-. destruct (leg_of qt id Hc) as (l & Hl & <-). by apply H, list_elem_of_In.
    - intros H l (qt & id & Hc & Hq & ->)%list_elem_of_In%leg_is. by eapply H. }
  rewrite <- Hf. destruct (legs_of c); naive_solver.
Qed.

Lemma none_failed_spec c :
  existsb failed (legs_of c) = false ↔ ∀ qt id, counts qt id → classify qt = c → ¬ lost id.
Proof.
  split.
  - intros H qt id Hc <- Hl. destruct (leg_of qt id Hc) as (l & Hin & Hf). apply Hf in Hl.
    assert (existsb failed (legs_of (classify qt)) = true) as E by (apply existsb_exists; exists l; split; [by apply list_elem_of_In|done]).
    congruence.
  - intros H. destruct (existsb failed (legs_of c)) eqn:E; [|done]. apply existsb_exists in E as (l & Hin%list_elem_of_In & Hf).
    apply leg_is in Hin as (qt & id & Hc & Hq & Hl). exfalso. eapply H; [done..|]. by apply Hl.
Qed.

Lemma egress_spec :
  allFailed (legs_of Direct) && allFailed (legs_of Other) = true ↔
  present Direct ∧ present Other ∧ ∀ qt id, counts qt id → classify qt ≠ Dns → lost id.
Proof.
  rewrite andb_true_iff, !all_failed_spec. split.
  - intros [[? HD] [? HO]]. split_and!; [done..|]. intros qt id Hc Hq. destruct (classify qt) eqn:E; [by eapply HD|done|by eapply HO].
  - intros (? & ? & H). split; (split; [done|]); intros qt id Hc Hq; eapply H; (done || by rewrite Hq).
Qed.

Lemma dns_spec :
  (match legs_of Direct with [] => false | _ => negb (existsb failed (legs_of Direct)) end)
  && allFailed (legs_of Other) && allFailed (legs_of Dns)
  && ((0 <? length (legs_of Other))%nat || (0 <? length (legs_of Dns))%nat) = true ↔
  present Direct ∧ present Other ∧ present Dns
  ∧ ∀ qt id, counts qt id → if decide (classify qt = Direct) then ¬ lost id else lost id.
Proof.
  assert (match legs_of Direct with [] => false | _ => negb (existsb failed (legs_of Direct)) end = true ↔
          present Direct ∧ existsb failed (legs_of Direct) = false) as HD.
  { rewrite present_spec, <- negb_true_iff. destruct (legs_of Direct); [|naive_solver]. split; [done|]. by intros []. }
  assert (present Other → (0 <? length (legs_of Other))%nat = true) as HO.
  { rewrite present_spec. by destruct (legs_of Other). }
  rewrite !andb_true_iff, orb_true_iff, HD, none_failed_spec, !all_failed_spec. split.
  - intros [[[[? H1] [? H2]] [? H3]] _]. split_and!; [done..|]. intros qt id Hc. case_decide as E; [by eapply H1|].
    destruct (classify qt) eqn:Eq; [done|by eapply H3|by eapply H2].
  - intros (? & ? & ? & H). split_and!; try done; [..|left; by apply HO].
    all: intros qt id Hc Hq; specialize (H qt id Hc); rewrite Hq in H; by rewrite ?decide_True, ?decide_False in H by done.
Qed.

Lemma insufficient_spec : legs_of Direct ++ legs_of Dns ++ legs_of Other = [] ↔ ∀ qt id, ¬ counts qt id.
Proof.
  split.
  - intros [HD [HN HO]%app_eq_nil]%app_eq_nil qt id Hc. assert (present (classify qt)) as Hp%present_spec by (by exists qt, id).
    by destruct (classify qt).
  - intros H. assert (∀ c, legs_of c = []) as Hc; [|by rewrite !Hc].
    intros c. destruct (legs_of c) as [|l legs] eqn:E; [done|]. destruct (leg_is l c) as (qt & id & Hc & _); [rewrite E; left|].
    by apply H in Hc.
Qed.

Lemma window_verdict_mild v legs :
  let w := vr_Verdict (window_verdict cfg v legs) in w = QualityVerdictOK ∨ w = QualityVerdictDegraded.
Proof. unfold window_verdict. destruct (window_reasons cfg legs); [by left|by right]. Qed.

(** C30.  The severe verdicts, in counts of probes.  A leg counts for a vantage when
    it has results there and is not down everywhere.  [egress_down] is given
    exactly when direct legs and name-based legs count and every one of them
    lost more than half of its probes; [dns_fault] exactly when direct legs
    count and none is lost, while name-based and resolver legs count and all are
    lost; [insufficient] exactly when no leg counts.  The float64 rates never
    change the decision. *)
Theorem verdict_counts :
  let verdict := vr_Verdict (judgeVantage cfgTargets (aggregate rows) idOf vantage cfg) in
  (verdict = QualityVerdictEgressDown ↔
     present Direct ∧ present Other ∧ ∀ qt id, counts qt id → classify qt ≠ Dns → lost id)
  ∧ (verdict = QualityVerdictDNSFault ↔
     present Direct ∧ present Other ∧ present Dns
     ∧ ∀ qt id, counts qt id → if decide (classify qt = Direct) then ¬ lost id else lost id)
  ∧ (verdict = QualityVerdictInsufficient ↔ ∀ qt id, ¬ counts qt id).
Proof.
  cbv zeta. rewrite <- egress_spec, <- dns_spec, <- insufficient_spec.
  unfold judgeVantage. change (aggregate rows) with agg.
  change (snd <$> filter (fun cl : leg_class * qualityLeg => cl.1 = Direct) (omap (counted_leg agg idOf vantage) cfgTargets)) with (legs_of Direct).
  change (snd <$> filter (fun cl : leg_class * qualityLeg => cl.1 = Dns) (omap (counted_leg agg idOf vantage) cfgTargets)) with (legs_of Dns).
  change (snd <$> filter (fun cl : leg_class * qualityLeg => cl.1 = Other) (omap (counted_leg agg idOf vantage) cfgTargets)) with (legs_of Other).
  pose proof (window_verdict_mild vantage (legs_of Direct ++ legs_of Dns ++ legs_of Other)) as Hw. cbv zeta in Hw.
  assert (allFailed (legs_of Direct) && allFailed (legs_of Other) = true → legs_of Direct ++ legs_of Dns ++ legs_of Other ≠ []) as HE.
  { intros [H _]%andb_true_iff. by destruct (legs_of Direct). }
  destruct (legs_of Direct ++ legs_of Dns ++ legs_of Other) as [|l all] eqn:Eall.
  { apply app_eq_nil in Eall as [ED [EN EO]%app_eq_nil]. rewrite ED, EN, EO. cbn. split_and!; split; done. }
  rewrite <- Eall in *. destruct (allFailed (legs_of Direct) && allFailed (legs_of Other)) eqn:E1.
  - cbn [vr_Verdict]. split_and!; split; try done; [|intros; congruence].
    intros H. exfalso. apply andb_true_iff in E1 as [E1 _]. unfold allFailed in E1.
    destruct (legs_of Direct) as [|d ds]; [done|]. rewrite !andb_true_iff, negb_true_iff in H. destruct H as [[[H _] _] _].
    cbn in E1, H. destruct (failed d); done.
  - destruct (_ && _ && _ && _) eqn:E2; [cbn [vr_Verdict]; split_and!; split; done || (intros; congruence)|].
    destruct (_ && existsb failed (legs_of Dns)); [cbn [vr_Verdict]; split_and!; split; done || (intros; congruence)|].
    destruct Hw as [-> | ->]; split_and!; split; done || (intros; congruence).
Qed.
End verdicts.

(** * Scores *)

Abbreviation unit1 := (2 ^ 1074).

Definition rate_ok (x : f64) : Prop := canon x ∧ val x ≤ unit1.

Definition legs_ok (legs : list qualityLeg) : Prop :=
  Forall (fun l => rate_ok (st_OkRate (lg_st l))) legs ∧ Z.of_nat (length legs) < 2 ^ 53.

Lemma f_trunc_val x : canon x → f_trunc x = val x / unit1.
Proof.
  destruct x as [| | |[] m e]; try done. intros (He & _)%canon_exponent. unfold f_trunc, val.
  destruct (Z.le_gt_cases 0 e) as [H|H].
  - rewrite Z.shiftl_mul_pow2, Z.pow_add_r, Z.mul_assoc, Z.div_mul by (done || lia). done.
  - replace e with (- (- e)) at 1 by lia. rewrite Z.shiftl_opp_r, Z.shiftr_div_pow2 by lia.
    replace 1074 with (- e + (e + 1074)) at 2 by lia. rewrite (Z.pow_add_r 2 (- e)) by lia.
    rewrite Z.div_mul_cancel_r; [done|apply Z.pow_nonzero; lia..].
Qed.

Lemma ok_sum_spec legs : legs_ok legs → canon (ok_sum legs) ∧ val (ok_sum legs) ≤ Z.of_nat (length legs) * unit1.
Proof.
  unfold ok_sum. induction legs as [|l legs IH] using rev_ind; intros [Hl Hn]; [done|].
  apply Forall_app in Hl as [Hl Hx]. inv Hx. destruct H1 as [Px Vx]. rewrite length_app in Hn. cbn [length] in Hn.
  destruct IH as [Ps Vs]; [split; [done|lia]|]. rewrite fold_left_app. cbn [fold_left]. rewrite length_app. cbn [length].
  set (sum := fold_left _ legs f_zero) in *. set (x := st_OkRate (lg_st l)) in *. clearbody sum x.
  remember unit1 as u eqn:Hu. assert (0 < u) by (by subst).
  destruct (f_add_spec (53 + 1074 + 1) sum x) as [Hp Hb]; [lia|done|done| |].
  { rewrite Z.pow_add_r, (Z.pow_add_r 2 53) by lia. rewrite <- Hu. nia. }
  split; [done|]. destruct (Hb (Z.of_nat (length legs) + 1) 0 ltac:(lia) ltac:(lia)) as [H1 _].
  change (0 + 1074) with 1074 in H1. rewrite <- Hu in H1. replace (Z.of_nat (length legs + 1)) with (Z.of_nat (length legs) + 1) by lia.
  apply H1. lia.
Qed.

Lemma ok_mean_spec legs : legs ≠ [] → legs_ok legs → rate_ok (ok_mean legs).
Proof.
  intros Hne Hok. destruct (ok_sum_spec legs Hok) as [Ps Vs]. destruct Hok as [_ Hn].
  assert (0 < Z.of_nat (length legs)) as Hpos by (destruct legs; [done|cbn; lia]).
  destruct (f_of_Z_spec (Z.of_nat (length legs))) as [Pn Vn]; [lia|]. unfold ok_mean.
  set (n := Z.of_nat (length legs)) in *. clearbody n. remember unit1 as u eqn:Hu. assert (0 < u) by (by subst).
  destruct (f_div_spec (ok_sum legs) (f_of_Z n) Ps Pn) as [Hp Hb]; [rewrite Vn; nia| |].
  { rewrite Vn. assert (1 ≤ 2 ^ 900) by (apply Z.leb_le; reflexivity). nia. }
  split; [done|]. destruct (Hb 1 0 ltac:(lia) ltac:(lia)) as [H1 _].
  change (0 + 1074) with 1074 in H1. rewrite Vn, <- Hu, Z.mul_1_l in H1. rewrite <- Hu. apply H1. nia.
Qed.

Lemma okRateScore_bounds legs : legs_ok legs → 0 ≤ okRateScore legs ≤ 100.
Proof.
  intros Hok. destruct (decide (legs = [])) as [->|Hne]; [cbn; lia|].
  assert (okRateScore legs = f_trunc (f_add (f_mul (ok_mean legs) f_hundred) f_half)) as -> by (by destruct legs).
  destruct (ok_mean_spec legs) as [Pm Vm]; [done..|]. clear Hne Hok. set (m := ok_mean legs) in *. clearbody m.
  destruct (f_of_Z_spec 100) as [Ph Vh]; [lia|]. fold f_hundred in Ph, Vh.
  remember unit1 as u eqn:Hu. assert (0 < u) as Hu0 by (by subst).
  assert (canon (f_mul m f_hundred) ∧ val (f_mul m f_hundred) ≤ 100 * u) as [Pp Vp].
  { destruct (f_mul_spec 7 m f_hundred) as [Hp Hb]; [lia|done|done| |].
    { rewrite Vh. replace (7 + 2148) with (7 + 1074 + 1074) by lia. rewrite !Z.pow_add_r by lia. rewrite <- Hu.
      pose proof (val_nonneg m). nia. }
    split; [done|]. destruct (Hb 100 0 ltac:(lia) ltac:(lia)) as [H1 _]. change (0 + 1074) with 1074 in H1. rewrite Vh, <- Hu in H1.
    apply H1. pose proof (val_nonneg m). nia. }
  assert (canon (f_add (f_mul m f_hundred) f_half) ∧ val (f_add (f_mul m f_hundred) f_half) ≤ 201 * 2 ^ 1073) as [Pa Va].
  { assert (u = 2 * 2 ^ 1073) as Hu2 by (by rewrite Hu). pose proof (proj2 canon_half) as Vf.
    change (2 ^ 52 * 2 ^ 1021) with (2 ^ 1073) in Vf. remember (2 ^ 1073) as w eqn:Hw. assert (0 < w) by (by subst w).
    destruct (f_add_spec (8 + 1073) (f_mul m f_hundred) f_half) as [Hp Hb]; [lia|done|apply canon_half| |].
    { rewrite Z.pow_add_r by lia. rewrite <- Hw, Vf. lia. }
    split; [done|]. destruct (Hb 201 (-1) ltac:(lia) ltac:(lia)) as [H1 _]. change (-1 + 1074) with 1073 in H1. rewrite <- Hw in H1.
    apply H1. lia. }
  rewrite f_trunc_val by done. subst u. split; [apply Z.div_pos; [apply val_nonneg|done]|].
  etransitivity; [apply Z.div_le_mono; [done|exact Va]|]. apply Z.leb_le. reflexivity.
Qed.

(** What a report promises about its score. *)
Definition report_ok (vr : QualityVantageReport) : Prop :=
  0 ≤ vr_Score vr ≤ 100
  ∧ (vr_Verdict vr = QualityVerdictInsufficient → vr_Score vr = 0)
  ∧ (vr_Verdict vr = QualityVerdictEgressDown ∨ vr_Verdict vr = QualityVerdictDNSFault → vr_Score vr ≤ 25)
  ∧ (vr_Verdict vr = QualityVerdictDegraded → vr_Score vr ≤ 80).

Lemma insufficient_ok v : report_ok (insufficient v).
Proof. unfold report_ok. cbn. split_and!; try lia; by intros []. Qed.

Lemma window_verdict_ok cfg v legs : legs_ok legs → report_ok (window_verdict cfg v legs).
Proof.
  intros H%okRateScore_bounds. unfold window_verdict, report_ok.
  destruct (window_reasons cfg legs); cbn; (split_and!; [lia|lia|..]); try done; try (by intros []); intros; lia.
Qed.

Lemma name_vantage_ok byAgent vr : report_ok vr → report_ok (name_vantage byAgent vr).
Proof. unfold name_vantage. by case_decide. Qed.

Lemma length_omap_le {A B} (f : A → option B) l : (length (omap f l) ≤ length l)%nat.
Proof. induction l as [|x l IH]; [done|]. cbn. destruct (f x); cbn; lia. Qed.

Section bounds.
Context (rows : list ProbeResult) (cfg : ProbeQualityConfig) (Hlen : Z.of_nat (length rows) ≤ 2 ^ 52).

Lemma track_rate id v a : aggregate rows !! (id, v) = Some a → rate_ok (st_OkRate (stats a)).
Proof.
  intros Ha. destruct (track_counts rows id v a Hlen Ha) as (Hok & _). split; [by apply rate_canon|by apply rate_one].
Qed.

Lemma judgeSimpleCategory_ok bucket v :
  Z.of_nat (length bucket) < 2 ^ 50 → report_ok (judgeSimpleCategory bucket v (aggregate rows) cfg).
Proof.
  intros Hb. unfold judgeSimpleCategory. set (f := fun t : ProbeTarget => _).
  assert (legs_ok (omap f bucket)) as Hok.
  { split; [|pose proof (length_omap_le f bucket); lia]. apply list.Forall_forall. intros l (t & _ & Hl)%list_elem_of_omap.
    unfold f in Hl. apply bind_Some in Hl as (a & Ha & Hl). destruct (_ =? 0); [done|]. injection Hl as <-. by eapply track_rate. }
  destruct (omap f bucket) as [|l legs]; [apply insufficient_ok|]. destruct (_ <? 2); [apply insufficient_ok|].
  by apply window_verdict_ok.
Qed.

Lemma judgeVantage_ok cfgTargets idOf v :
  Z.of_nat (length cfgTargets) < 2 ^ 50 → report_ok (judgeVantage cfgTargets (aggregate rows) idOf v cfg).
Proof.
  intros Hb. unfold judgeVantage. set (cl := omap (counted_leg (aggregate rows) idOf v) cfgTargets).
  set (of_class := fun c => snd <$> filter (fun x : leg_class * qualityLeg => x.1 = c) cl).
  assert (∀ c, (length (of_class c) ≤ length cfgTargets)%nat) as Hlc.
  { intros c. unfold of_class. rewrite length_fmap. etransitivity; [apply list.length_filter|]. apply length_omap_le. }
  assert (∀ c, Forall (fun l => rate_ok (st_OkRate (lg_st l))) (of_class c)) as Hrate.
  { intros c. apply list.Forall_forall. intros l ([c' l'] & -> & [_ Hin]%list_elem_of_filter)%list_elem_of_fmap.
    apply list_elem_of_omap in Hin as (qt & _ & H). unfold counted_leg in H. apply bind_Some in H as (id & _ & H).
    apply bind_Some in H as (a & Ha & H). destruct (_ =? 0); [done|]. destruct (_ && _); [done|]. injection H as <- <-.
    by eapply track_rate. }
  fold (of_class Direct) (of_class Dns) (of_class Other). set (all := of_class Direct ++ of_class Dns ++ of_class Other).
  assert (legs_ok all) as Hall.
  { split; [by apply Forall_app; split; [|apply Forall_app; split]|]. unfold all. rewrite !length_app.
    pose proof (Hlc Direct). pose proof (Hlc Dns). pose proof (Hlc Other). lia. }
  pose proof (okRateScore_bounds all Hall) as Hs. pose proof (window_verdict_ok cfg v all Hall) as Hw. clearbody all.
  destruct all as [|l ls] eqn:Eall; [apply insufficient_ok|]. rewrite <- Eall in *. clear Eall.
  destruct (_ && _); [|destruct (_ && _ && _ && _); [|destruct (_ && _ && _)]]; try exact Hw.
  all: unfold report_ok; cbn; split_and!; try lia; try done; try (by intros []); intros; lia.
Qed.

End bounds.

(** Scores are scores.  In every report over at most [2^52] results, each
    score is between 0 and 100, 0 without data, at most 25 under a severe
    verdict and at most 80 under a degraded one: the float64 sum, mean and
    rounding never leave the range. *)
Theorem score_bounds cfg w now nets db
    (Hrows : Z.of_nat (length (pd_results db)) ≤ 2 ^ 52)
    (Htargets : Z.of_nat (length (pd_targets db)) < 2 ^ 50)
    (Hgroups : Forall (fun g => Z.of_nat (length g.2) < 2 ^ 50) (qc_Groups cfg)) :
  ∀ cr vr, cr ∈ qr_Categories (Analyze cfg w now nets db) →
    vr ∈ cr_Vantages cr ∨ (∃ g, g ∈ cr_Groups cr ∧ vr ∈ gr_Vantages g) → report_ok vr.
Proof.
  unfold Analyze. cbn [qr_Categories]. set (rows := ListProbeResultsSince _ db).
  assert (Z.of_nat (length rows) ≤ 2 ^ 52) as Hlen.
  { unfold rows, ListProbeResultsSince. rewrite (Permutation_length (sorting.merge_sort_Permutation _ _)).
    pose proof (filter_length_le (fun r => String.leb (format_RFC3339 (now - i64 ((if w <=? 0 then qc_WindowMinutes cfg else w) * minute))) (pr_CheckedAt r)) (pd_results db)). lia. }
  set (byAgent := network_by_agent nets). set (byName := target_by_name (pd_targets db)). clearbody rows.
  assert (∀ cat vr, vr ∈ cr_Vantages (simple_category cfg cat (List.filter (fun t => (pt_Enabled t =? 1) && bool_decide (TargetCategory t = cat)) (pd_targets db)) (aggregate rows) byAgent) → report_ok vr) as Hsimple.
  { intros cat vr (v & -> & _)%list_elem_of_fmap. apply name_vantage_ok, judgeSimpleCategory_ok; [done|].
    pose proof (filter_length_le (fun t => (pt_Enabled t =? 1) && bool_decide (TargetCategory t = cat)) (pd_targets db)). lia. }
  assert (∀ g vr, g ∈ qc_Groups cfg → vr ∈ gr_Vantages (analyzeGroup cfg g.1 g.2 byName (aggregate rows) byAgent) → report_ok vr) as Hgroup.
  { intros g vr Hg (v & -> & _)%list_elem_of_fmap. apply name_vantage_ok, judgeVantage_ok; [done|].
    by eapply list.Forall_forall in Hgroups. }
  assert (∀ g vr, g ∈ (fun g => analyzeGroup cfg g.1 g.2 byName (aggregate rows) byAgent) <$> sorting.merge_sort group_le (qc_Groups cfg) →
            vr ∈ gr_Vantages g → report_ok vr) as Hgroups'.
  { intros g vr (g0 & -> & Hg0)%list_elem_of_fmap Hvr. rewrite sorting.merge_sort_Permutation in Hg0. by eapply Hgroup. }
  intros cr vr Hcr. rewrite !elem_of_cons, elem_of_nil in Hcr. destruct Hcr as [->|[->|[->|[]]]].
  1, 2: intros [H|(g & [] %elem_of_nil & _)]; by eapply Hsimple.
  intros [H|(g & Hg & Hvr)]; [|by eapply Hgroups'].
  cbn [cr_Vantages] in H. apply list_elem_of_In, in_concat in H as (vs & Hvs%list_elem_of_In & Hvr%list_elem_of_In).
  apply list_elem_of_fmap in Hvs as (g & -> & Hg).
  case_decide; [by eapply Hgroups'|by apply elem_of_nil in Hvr].
Qed.

(** * Seeding *)

Abbreviation is_system := (of_source ProbeSourceSystem).

Section seed.
Context (marshal : json → string) (cfg : ProbeQualityConfig).

(** A row says what the configuration says. *)
Definition matches (t : ProbeTarget) (qt : ProbeQualityTarget) : Prop :=
  is_system t ∧ pt_Name t = qt_Name qt ∧ pt_Module t = qt_Module qt ∧ pt_Target t = qt_Target qt
  ∧ pt_Options t = qualityOptionsJSON marshal (qt_Options qt).

(** After some configured targets have been gone through, starting from [ts0]. *)
Record seeding (ts0 : list ProbeTarget) (seen : list ProbeQualityTarget) (db : probe_db) : Prop := {
  sg_ok : targets_ok db;
  sg_others : filter (fun t => ¬ is_system t) (pd_targets db) = filter (fun t => ¬ is_system t) ts0;
  sg_seen : ∀ qt, qt ∈ seen → (∃ t, t ∈ ts0 ∧ pt_Name t = qt_Name qt ∧ ¬ is_system t) ∨ ∃ t, t ∈ pd_targets db ∧ matches t qt;
  sg_system : ∀ t, t ∈ pd_targets db → is_system t → (∃ qt, qt ∈ seen ∧ matches t qt) ∨ (t ∈ ts0 ∧ pt_Name t ∉ qt_Name <$> seen);
  sg_rest : ∀ t, t ∈ ts0 → pt_Name t ∉ qt_Name <$> seen → t ∈ pd_targets db
}.

Lemma filter_none_snoc {A} (P : A → Prop) `{!∀ x, Decision (P x)} (l : list A) x : ¬ P x → filter P (l ++ [x]) = filter P l.
Proof. intros Hx. rewrite list.filter_app. cbn. rewrite decide_False by done. by rewrite app_nil_r. Qed.

Lemma seed_step ts0 seen qt db db' :
  NoDup (pt_Name <$> ts0) → qt_Name qt ∉ qt_Name <$> seen → seeding ts0 seen db →
  seed_target marshal cfg (target_by_name ts0) (Some db) qt = Some db' → seeding ts0 (seen ++ [qt]) db'.
Proof.
  intros Hnd Hnew [Hok Ho Hseen Hsys Hrest]. unfold seed_target. cbn [mbind option_bind].
  assert (∀ x, x ∈ qt_Name <$> seen ++ [qt] ↔ x ∈ qt_Name <$> seen ∨ x = qt_Name qt) as Hin.
  { intros x. rewrite fmap_app, elem_of_app. cbn. by rewrite list_elem_of_singleton. }
  assert (∀ prev, prev ∈ ts0 → pt_Name prev = qt_Name qt → prev ∈ pd_targets db) as Hprev.
  { intros prev Hp Hn. apply Hrest; [done|]. by rewrite Hn. }
  destruct (target_by_name ts0 !! qt_Name qt) as [prev|] eqn:E.
  - apply lookup_target_by_name in E as [Hp Hn]; [|done].
    destruct (bool_decide (pt_Source prev = ProbeSourceSystem)) eqn:Es; cbn [negb].
    + apply bool_decide_eq_true in Es. destruct (_ && bool_decide (pt_Options prev = _)) eqn:Em.
      * rewrite !andb_true_iff, !bool_decide_eq_true in Em. destruct Em as [[Em1 Em2] Em3]. intros [= <-].
        assert (matches prev qt) as Hm by (by split_and!). split; try done.
        -- intros q [Hq| ->%list_elem_of_singleton]%elem_of_app; [by apply Hseen|]. right. exists prev. split; [by apply Hprev|done].
        -- intros t Ht Hs. destruct (Hsys t Ht Hs) as [(q & Hq & Hm')|[Ht0 Hn0]]; [left; exists q; rewrite elem_of_app; auto|].
           destruct (decide (pt_Name t = qt_Name qt)) as [En|En].
           ++ left. exists qt. split; [rewrite elem_of_app; right; left|]. replace t with prev; [done|]. eapply same_name; [exact Hnd|done|done|congruence].
           ++ right. split; [done|]. rewrite Hin. by intros [|].
        -- intros t Ht Hn'. apply Hrest; [done|]. rewrite Hin in Hn'. tauto.
      * intros ([db1 t'] & Hu & [= <-])%fmap_Some. apply update_spec in Hu as (Hok' & _ & t & Ht & Hid & -> & Hdb); [|done].
        assert (t = prev) as -> by (apply (same_id db _ _ Hok); [done|by apply Hprev|done]).
        set (p := mkParams _ _ _ _ _ _ _ _ _ _) in *. clear Em.
        assert (matches (with_params p prev) qt) as Hm by (by split_and!). split; [done| | | |].
        -- rewrite Hdb, update_others; [done|]. intros u Hu Eu. assert (u = prev) as -> by (apply (same_id db _ _ Hok); [done|by apply Hprev|done]). done.
        -- intros q [Hq| ->%list_elem_of_singleton]%elem_of_app.
           ++ destruct (Hseen q Hq) as [?|(u & Hu & Hmu)]; [by left|right]. exists u. split; [|done]. rewrite Hdb. apply elem_of_on_target.
              exists u. split; [done|]. destruct (Z.eqb_spec (pt_ID u) (pt_ID prev)) as [Eu|]; [|done]. exfalso.
              assert (u = prev) as -> by (apply (same_id db _ _ Hok); [done|by apply Hprev|done]). apply Hnew. rewrite <- Hn.
              destruct Hmu as (_ & -> & _). by apply list_elem_of_fmap_2.
           ++ right. exists (with_params p prev). split; [|done]. rewrite Hdb. apply elem_of_on_target. exists prev. by rewrite Z.eqb_refl.
        -- intros u Hu Hs. rewrite Hdb in Hu. apply elem_of_on_target in Hu as (w & Hw & ->).
           destruct (Z.eqb_spec (pt_ID w) (pt_ID prev)) as [Ew|Ew].
           ++ assert (w = prev) as -> by (apply (same_id db _ _ Hok); [done|by apply Hprev|done]). left. exists qt. split; [rewrite elem_of_app; right; left|done].
           ++ destruct (Hsys w Hw Hs) as [(q & Hq & Hm')|[Ht0 Hn0]]; [left; exists q; rewrite elem_of_app; auto|]. right. split; [done|].
              rewrite Hin. intros [?|En]; [done|]. apply Ew. f_equal. eapply same_name; [exact Hnd|done|done|congruence].
        -- intros u Hu Hnu. rewrite Hin in Hnu. rewrite Hdb. apply elem_of_on_target. exists u. split; [apply Hrest; tauto|].
           destruct (Z.eqb_spec (pt_ID u) (pt_ID prev)) as [Eu|]; [|done]. exfalso. apply Hnu. right. rewrite <- Hn. f_equal.
           eapply same_id; [exact Hok|apply Hrest; tauto|by apply Hprev|done].
    + apply bool_decide_eq_false in Es. intros [= <-]. split; try done.
      * intros q [Hq| ->%list_elem_of_singleton]%elem_of_app; [by apply Hseen|]. left. by exists prev.
      * intros t Ht Hs. destruct (Hsys t Ht Hs) as [(q & Hq & Hm')|[Ht0 Hn0]]; [left; exists q; rewrite elem_of_app; auto|]. right. split; [done|].
        rewrite Hin. intros [?|En]; [done|]. assert (t = prev) as -> by (eapply same_name; [exact Hnd|done|done|congruence]). done.
      * intros t Ht Hn'. apply Hrest; [done|]. rewrite Hin in Hn'. tauto.
  - assert (∀ t, t ∈ ts0 → pt_Name t ≠ qt_Name qt) as Hnone.
    { intros t Ht En. assert (target_by_name ts0 !! qt_Name qt = Some t) as H by (by apply lookup_target_by_name). congruence. }
    intros ([db1 t] & Hc & [= <-])%fmap_Some. apply create_spec in Hc as (Hok' & -> & Hdb & Hfree & _); [|done].
    set (p := mkParams _ _ _ _ _ _ _ _ _ _) in *. set (t := new_target _ p _) in *.
    assert (matches t qt) as Hm by (by split_and!). split; [done| | | |].
    + rewrite Hdb, filter_none_snoc; [done|]. intros H. by apply H.
    + intros q [Hq| ->%list_elem_of_singleton]%elem_of_app.
      * destruct (Hseen q Hq) as [?|(u & Hu & Hmu)]; [by left|right]. exists u. split; [|done]. rewrite Hdb, elem_of_app. by left.
      * right. exists t. split; [|done]. rewrite Hdb, elem_of_app. right. left.
    + intros u Hu Hs. rewrite Hdb in Hu. apply elem_of_app in Hu as [Hu| ->%list_elem_of_singleton].
      * destruct (Hsys u Hu Hs) as [(q & Hq & Hm')|[Ht0 Hn0]]; [left; exists q; rewrite elem_of_app; auto|]. right. split; [done|].
        rewrite Hin. intros [?|En]; [done|]. by apply (Hnone u).
      * left. exists qt. split; [rewrite elem_of_app; right; left|done].
    + intros u Hu Hnu. rewrite Hin in Hnu. rewrite Hdb, elem_of_app. left. apply Hrest; tauto.
Qed.
Lemma seed_loop ts0 seen qts db db' :
  NoDup (pt_Name <$> ts0) → NoDup (qt_Name <$> seen ++ qts) → seeding ts0 seen db →
  fold_left (seed_target marshal cfg (target_by_name ts0)) qts (Some db) = Some db' → seeding ts0 (seen ++ qts) db'.
Proof.
  intros Hnd. revert seen db. induction qts as [|qt qts IH]; intros seen db Hq Hs E; [injection E as <-; by rewrite app_nil_r|].
  cbn [fold_left] in E. destruct (seed_target marshal cfg (target_by_name ts0) (Some db) qt) as [db1|] eqn:E1.
  - replace (seen ++ qt :: qts) with ((seen ++ [qt]) ++ qts) in * by (by rewrite <- app_assoc). eapply IH; [done| |exact E].
    eapply seed_step; [done| |exact Hs|exact E1]. rewrite !fmap_app in Hq. apply list.NoDup_app in Hq as (Hq & _ & _).
    apply list.NoDup_app in Hq as (_ & Hdis & _). intros Hx. apply (Hdis _ Hx). left.
  - exfalso. clear -E. induction qts; [done|]. by apply IHqts.
Qed.

Definition drop_unwanted (wanted : list string) (l : list ProbeTarget) (db : probe_db) : probe_db :=
  fold_left (fun db t => if bool_decide (pt_Name t ∈ wanted) then db else delete_target (pt_ID t) db) l db.

Lemma drop_unwanted_spec wanted l db :
  (targets_ok db → targets_ok (drop_unwanted wanted l db))
  ∧ pd_targets (drop_unwanted wanted l db)
    = filter (fun u => ¬ Exists (fun t => pt_Name t ∉ wanted ∧ pt_ID t = pt_ID u) l) (pd_targets db).
Proof.
  revert db. induction l as [|t l IH]; intros db; cbn [drop_unwanted fold_left].
  - split; [done|]. symmetry. apply filter_all, list.Forall_forall. intros u _ H. inv H.
  - case_bool_decide as Hw.
    + destruct (IH db) as [H1 H2]. split; [done|]. unfold drop_unwanted in H2. rewrite H2. apply list_filter_iff. intros u. rewrite Exists_cons. tauto.
    + destruct (IH (delete_target (pt_ID t) db)) as [H1 H2]. split.
      * intros Hok. apply H1. unfold delete_target. apply delete_ok. exact Hok.
      * unfold drop_unwanted in H2. rewrite H2. unfold delete_target. cbn [DeleteProbeTarget set_targets pd_targets DeleteProbeTLSCertsByTarget DeleteProbeResultsByTarget set_certs set_results].
        generalize (pd_targets db). intros ts. induction ts as [|u ts IHt]; [done|]. rewrite filter_cons. cbn [List.filter].
        destruct (Z.eqb_spec (pt_ID u) (pt_ID t)) as [E|E]; cbn [negb].
        -- rewrite decide_False; [done|]. intros Hn. apply Hn. left. by split.
        -- rewrite filter_cons, IHt. destruct (decide (¬ Exists _ l)) as [Hd|Hd], (decide (¬ Exists _ (t :: l))) as [Hd'|Hd']; try done; exfalso.
           ++ apply Hd'. intros [[_ ?]|?]%Exists_cons; [congruence|tauto].
           ++ apply Hd. intros ?. apply Hd'. by right.
Qed.

Definition configured : list ProbeQualityTarget := g ← qc_Groups cfg; g.2.

Lemma seed_fixed db :
  NoDup (pt_Name <$> pd_targets db) →
  (∀ t, t ∈ pd_targets db → is_system t → ∃ qt, qt ∈ configured ∧ matches t qt) →
  (∀ qt, qt ∈ configured → (∃ t, t ∈ pd_targets db ∧ pt_Name t = qt_Name qt ∧ ¬ is_system t) ∨ ∃ t, t ∈ pd_targets db ∧ matches t qt) →
  qc_Enabled cfg = true → Seed marshal cfg db = Some db.
Proof.
  intros Hnd Hsys Hconf Hen. unfold Seed. rewrite Hen. cbn [negb]. fold configured. unfold ListProbeTargets.
  assert (∀ qts, (∀ qt, qt ∈ qts → qt ∈ configured) →
            fold_left (seed_target marshal cfg (target_by_name (pd_targets db))) qts (Some db) = Some db) as ->.
  { intros qts. induction qts as [|qt qts IH]; intros Hsub; [done|]. cbn [fold_left].
    assert (seed_target marshal cfg (target_by_name (pd_targets db)) (Some db) qt = Some db) as ->; [|apply IH; set_solver].
    unfold seed_target. cbn [mbind option_bind]. destruct (Hconf qt ltac:(set_solver)) as [(t & Ht & Hn & Hs)|(t & Ht & Hs & Hn & Hm1 & Hm2 & Hm3)].
    - rewrite (proj2 (lookup_target_by_name _ _ t Hnd)) by done. by rewrite bool_decide_false.
    - rewrite (proj2 (lookup_target_by_name _ _ t Hnd)) by done. by rewrite !bool_decide_true. }
  2: done. cbn [mbind option_bind]. f_equal.
  change (drop_unwanted (qt_Name <$> configured) (List.filter (fun t => bool_decide (pt_Source t = ProbeSourceSystem)) (pd_targets db)) db = db).
  assert (∀ l, (∀ t, t ∈ l → pt_Name t ∈ qt_Name <$> configured) → drop_unwanted (qt_Name <$> configured) l db = db) as Hdrop.
  { intros l. induction l as [|t l IH]; intros Hl; [done|]. cbn. rewrite bool_decide_true by (apply Hl; left). apply IH. intros u Hu. apply Hl. by right. }
  apply Hdrop. intros t [Ht Hs%bool_decide_eq_true]%list_elem_of_In%filter_In. apply list_elem_of_In in Ht.
  destruct (Hsys t Ht Hs) as (qt & Hq & _ & -> & _). by apply list_elem_of_fmap_2.
Qed.

(** Seeding settles.  When the configured names are distinct and the statements
    succeed, the system rows are then exactly what the configuration says (a
    name taken by a target of another source is left to it), all other rows are
    as before, the table is well-formed, and seeding again changes nothing. *)
Theorem seed_settles db db' (Hok : targets_ok db) (Hen : qc_Enabled cfg = true)
    (Hnames : NoDup (qt_Name <$> configured)) (Hseed : Seed marshal cfg db = Some db') :
  targets_ok db'
  ∧ filter (fun t => ¬ is_system t) (pd_targets db') = filter (fun t => ¬ is_system t) (pd_targets db)
  ∧ (∀ t, t ∈ pd_targets db' → is_system t → ∃ qt, qt ∈ configured ∧ matches t qt)
  ∧ (∀ qt, qt ∈ configured → (∃ t, t ∈ pd_targets db' ∧ pt_Name t = qt_Name qt ∧ ¬ is_system t) ∨ ∃ t, t ∈ pd_targets db' ∧ matches t qt)
  ∧ Seed marshal cfg db' = Some db'.
Proof.
  unfold Seed in Hseed. rewrite Hen in Hseed. cbn [negb] in Hseed. fold configured in Hseed. unfold ListProbeTargets in Hseed.
  apply bind_Some in Hseed as (db1 & Hloop & [= <-]). pose proof Hok as (_ & Hnd & _ & _).
  assert (seeding (pd_targets db) [] db) as H0.
  { split; [done|done|by intros ? ?%elem_of_nil| |done]. intros t Ht _. right. split; [done|]. by intros ?%elem_of_nil. }
  apply (seed_loop _ [] configured) in Hloop as [Hok1 Ho Hseen Hsys Hrest]; [|done|done|done]. cbn [app] in *.
  set (sysrows := List.filter (fun t => bool_decide (pt_Source t = ProbeSourceSystem)) (pd_targets db)).
  change (fold_left _ sysrows db1) with (drop_unwanted (qt_Name <$> configured) sysrows db1).
  destruct (drop_unwanted_spec (qt_Name <$> configured) sysrows db1) as [Hok2 Ht2]. specialize (Hok2 Hok1).
  assert (∀ t, t ∈ sysrows ↔ t ∈ pd_targets db ∧ is_system t) as Hrows.
  { intros t. unfold sysrows. rewrite list_elem_of_In, filter_In, <- list_elem_of_In, bool_decide_eq_true. done. }
  set (db2 := drop_unwanted _ sysrows db1) in *. clearbody db2.
  assert (∀ t, t ∈ pd_targets db2 ↔ t ∈ pd_targets db1 ∧ ¬ (∃ u, u ∈ sysrows ∧ pt_Name u ∉ qt_Name <$> configured ∧ pt_ID u = pt_ID t)) as Hin.
  { intros t. rewrite Ht2, list_elem_of_filter, Exists_exists. setoid_rewrite <- list_elem_of_In. tauto. }
  (* a dropped row is an unwanted system row of the table before *)
  assert (∀ u, u ∈ sysrows → pt_Name u ∉ qt_Name <$> configured → u ∈ pd_targets db1) as Hdrop.
  { intros u [Hu Hs]%Hrows Hn. by apply Hrest. }
  assert (∀ t, t ∈ pd_targets db1 → ¬ is_system t → t ∈ pd_targets db2) as Hkeep.
  { intros t Ht Hs. apply Hin. split; [done|]. intros (u & Hu & Hn & Eid).
    assert (u = t) as -> by (eapply same_id; [exact Hok1|by apply Hdrop|done|done]). apply Hs. by apply Hrows. }
  assert (∀ t qt, t ∈ pd_targets db1 → qt ∈ configured → matches t qt → t ∈ pd_targets db2) as Hkeep'.
  { intros t qt Ht Hq Hm. apply Hin. split; [done|]. intros (u & Hu & Hn & Eid).
    assert (u = t) as -> by (eapply same_id; [exact Hok1|by apply Hdrop|done|done]). apply Hn. destruct Hm as (_ & -> & _).
    by apply list_elem_of_fmap_2. }
  assert (∀ t, t ∈ pd_targets db2 → is_system t → ∃ qt, qt ∈ configured ∧ matches t qt) as Hsys2.
  { intros t [Ht Hnot]%Hin Hs. destruct (Hsys t Ht Hs) as [?|[Ht0 Hn]]; [done|]. exfalso. apply Hnot. exists t. split; [by apply Hrows|done]. }
  assert (∀ qt, qt ∈ configured → (∃ t, t ∈ pd_targets db2 ∧ pt_Name t = qt_Name qt ∧ ¬ is_system t) ∨ ∃ t, t ∈ pd_targets db2 ∧ matches t qt) as Hconf2.
  { intros qt Hq. destruct (Hseen qt Hq) as [(t & Ht & Hn & Hs)|(t & Ht & Hm)]; [left|right; exists t; eauto].
    exists t. split; [|done]. apply Hkeep; [|done].
    assert (t ∈ filter (fun t => ¬ is_system t) (pd_targets db1)) as H by (rewrite Ho; by apply list_elem_of_filter).
    by apply list_elem_of_filter in H as [_ ?]. }
  split_and!; [done| |done|done|by apply seed_fixed; [apply Hok2|..]].
  rewrite <- Ho, Ht2, list_filter_filter. apply filter_ext_in. intros t Ht. split; [tauto|]. intros Hs. split; [done|].
  apply Hkeep in Hs; [|done]. rewrite Ht2 in Hs. by apply list_elem_of_filter in Hs as [? _].
Qed.
End seed.

(** * Scenarios *)

Definition sample (id target : Z) (status vantage : string) : ProbeResult :=
  mkProbeResult id target status (f_of_Z 10) 0 "" "" "" (-1) "2026-01-01T00:00:00Z" vantage.

Definition matrix : list ProbeQualityTarget :=
  [mkQualityTarget "direct" "tcp" "1.1.1.1:443" []; mkQualityTarget "site" "http" "https://example.com/" [];
   mkQualityTarget "resolver" "dns" "example.com" []].

Definition matrix_id (name : string) : option Z :=
  if decide (name = "direct") then Some 1 else if decide (name = "site") then Some 2
  else if decide (name = "resolver") then Some 3 else None.

Definition settings (groups : list (string * list ProbeQualityTarget)) : ProbeQualityConfig :=
  mkQualityConfig true 60 60 800 200 (f_div (f_of_Z 9) (f_of_Z 10)) groups.

Definition no_names : list ProbeResult :=
  [sample 1 1 "success" "center"; sample 2 2 "fail" "center"; sample 3 3 "timeout" "center"; sample 4 2 "success" "agent:a";
   sample 5 3 "success" "agent:a"].

Lemma verdict_counts_witness :
  vr_Verdict (judgeVantage matrix (aggregate no_names) matrix_id "center" (settings [])) = QualityVerdictDNSFault
  ∧ present no_names matrix_id matrix "center" Direct.
Proof.
  assert (vr_Verdict (judgeVantage matrix (aggregate no_names) matrix_id "center" (settings [])) = QualityVerdictDNSFault) as H
    by (vm_compute; reflexivity).
  split; [exact H|].
  assert (Z.of_nat (length no_names) ≤ 2 ^ 52) as Hlen by (vm_compute; discriminate).
  exact (proj1 (proj1 (proj1 (proj2 (verdict_counts no_names matrix_id matrix "center" (settings []) Hlen))) H)).
Defined.

Definition system_row (id : Z) (name module target : string) (enabled : Z) : ProbeTarget :=
  mkProbeTarget id name module target 60 10 enabled "" None "" f_zero "" ProbeVantageAll "" None ProbeSourceSystem.

Definition seeded : probe_db :=
  mkProbeDb [system_row 1 "direct" "tcp" "1.1.1.1:443" 1; system_row 2 "site" "http" "https://example.com/" 1;
             system_row 3 "resolver" "dns" "example.com" 1] 3 no_names 5 [].

Lemma score_bounds_witness :
  Forall report_ok (cr ← qr_Categories (Analyze (settings [("domestic", matrix)]) 0 1767225600000000000 [] seeded); cr_Vantages cr).
Proof.
  apply list.Forall_forall. intros vr (cr & Hvr & Hcr)%list_elem_of_bind.
  apply (score_bounds (settings [("domestic", matrix)]) 0 1767225600000000000 [] seeded) with cr; [vm_compute; discriminate|reflexivity| |exact Hcr|by left].
  repeat constructor.
Defined.

Definition plain_options (_ : json) : string := "{}".

(** A table with a target that left the configuration, and one of a user. *)
Definition before_seed : probe_db :=
  mkProbeDb [system_row 1 "site" "http" "http://old.example.com/" 1; system_row 2 "gone" "icmp" "10.0.0.1" 1;
             mkProbeTarget 3 "resolver" "dns" "example.org" 60 10 1 "" None "" f_zero "" ProbeVantageCenter "" None ProbeSourceManual]
    3 no_names 5 [].

Lemma seed_settles_witness :
  pt_Name <$> from_option pd_targets [] (Seed plain_options (settings [("domestic", matrix)]) before_seed) = ["site"; "resolver"; "direct"]
  ∧ (Seed plain_options (settings [("domestic", matrix)]) before_seed ≫= Seed plain_options (settings [("domestic", matrix)]))
    = Seed plain_options (settings [("domestic", matrix)]) before_seed.
Proof.
  split; [vm_compute; reflexivity|].
  destruct (Seed plain_options (settings [("domestic", matrix)]) before_seed) as [db'|] eqn:E; [|reflexivity]. cbn [mbind option_bind].
  assert (targets_ok before_seed) as Hok.
  { split_and!; [refine (bool_decide_unpack _ _); vm_compute; exact I..| |]; [|vm_compute; discriminate].
    repeat constructor; vm_compute; done. }
  assert (NoDup (qt_Name <$> configured (settings [("domestic", matrix)]))) as Hn by (refine (bool_decide_unpack _ _); vm_compute; exact I).
  apply (seed_settles plain_options (settings [("domestic", matrix)]) before_seed db' Hok eq_refl Hn E).
Defined.

Definition switched_off : ProbeQualityConfig := mkQualityConfig false 60 60 800 200 (f_of_Z 1) [("domestic", matrix)].

(** Switching the feature off parks the targets, and switching it on again does
    not enable them: the refresh keeps the flag. *)
Example parked_for_good :
  (fun db => pt_Enabled <$> pd_targets db)
    <$> (Seed plain_options switched_off seeded ≫= Seed plain_options (settings [("domestic", matrix)])) = Some [0; 0; 0].
Proof. vm_compute. reflexivity. Qed.

(** A target that answers exactly every other probe from two vantages is down for
    the one comparison and has not failed for the other: it is left out of the
    verdict of both networks. *)
Example half_answered_is_down :
  let rows := [sample 1 2 "success" "center"; sample 2 2 "fail" "center"; sample 3 2 "fail" "agent:a"; sample 4 2 "success" "agent:a"] in
  crossVantageVerdict (per_vantage (aggregate rows) 2) = "target_down"
  ∧ (failed ∘ mkLeg "site" "http" ∘ stats <$> aggregate rows !! (2, "center")) = Some false
  ∧ vr_Verdict (judgeVantage matrix (aggregate rows) matrix_id "center" (settings [])) = QualityVerdictInsufficient.
Proof. vm_compute. done. Qed.

(** Without a resolver leg the verdict is never a fault of name resolution,
    although the direct path works and every site is dead. *)
Example dns_fault_unseen :
  let rows := [sample 1 1 "success" "center"; sample 2 2 "fail" "center"] in
  vr_Verdict (judgeVantage matrix (aggregate rows) matrix_id "center" (settings [])) = QualityVerdictDegraded.
Proof. vm_compute. reflexivity. Qed.

(** The columns of the quality category follow the iteration order of a map. *)
Example columns_unordered :
  let one := ("a", [mkQualityTarget "x" "http" "http://x/" []]) in
  let two := ("b", [mkQualityTarget "y" "http" "http://y/" []]) in
  let columns groups := (fun cr => mx_Name <$> cr_Targets cr) <$> qr_Categories (Analyze (settings groups) 0 0 [] seeded) in
  columns [one; two] = [[]; []; ["x"; "y"]] ∧ columns [two; one] = [[]; []; ["y"; "x"]].
Proof. vm_compute. done. Qed.
