(* ===== verification/ProbeRules.v ===== *)
(** The rules a probe target must satisfy (src/internal/domain/probe.go): the
    vantage grammar, the per-module options and the per-module target grammar,
    with the JSON form of the options (src/internal/service/probetarget/service.go).

    [url_parse] is net/url's parser: scheme, host (with and without the port) and port of a reference, or
    nothing for an error. *)

From S2P Require Import Prelude NetAddr Cidr Db RateLimit DeviceStore Json Attributes ProbeStore.

Open Scope Z_scope.

Record url_parts := mkUrl { u_Scheme : string; u_Host : string; u_Hostname : string; u_Port : string }.

(** * Vantage *)

Definition trim_prefix (p s : string) : string :=
  if has_prefix p s then String.substring (String.length p) (String.length s - String.length p) s else s.

Definition str_len (s : string) : Z := Z.of_nat (String.length s).

Definition NormalizeProbeVantage (v : string) : result string string :=
  let v := trim_space v in
  if decide (v = "") then Ok ProbeVantageCenter
  else if bool_decide (v = ProbeVantageCenter) || bool_decide (v = ProbeVantageAll) then Ok v
  else if has_prefix ProbeVantageAgentPrefix v then
    let id := trim_prefix ProbeVantageAgentPrefix v in
    if bool_decide (id = "") || (100 <? str_len id) then Err "vantage agent id must be 1-100 characters"
    else Ok v
  else Err ("vantage must be " +:+ quote "center" +:+ ", " +:+ quote "all" +:+ ", or " +:+ quote "agent:{agent_id}").

(** * Options *)

Record ProbeOptions := mkOptions {
  o_Method : string; o_ExpectedStatus : list Z; o_Keyword : string; o_KeywordMode : string; o_IgnoreTLSErrors : bool;
  o_Record : string; o_Resolver : string; o_ExpectedIPs : list string;
  o_Send : string; o_Expect : string; o_ExpectMode : string
}.

Definition ProbeKeywordContains : string := "contains".
Definition ProbeKeywordNotContains : string := "not_contains".
Definition ProbeKeywordRegex : string := "regex".
Definition ProbeRecordA : string := "A".
Definition ProbeRecordAAAA : string := "AAAA".
Definition ProbeRecordCNAME : string := "CNAME".
Definition ProbeRecordTXT : string := "TXT".

Definition set_string (s : string) : bool := negb (bool_decide (s = "")).
Definition set_list {A} (l : list A) : bool := match l with [] => false | _ => true end.

Definition httpSet (o : ProbeOptions) : bool :=
  set_string (o_Method o) || set_list (o_ExpectedStatus o) || set_string (o_Keyword o) || set_string (o_KeywordMode o)
  || o_IgnoreTLSErrors o.
Definition dnsSet (o : ProbeOptions) : bool := set_string (o_Record o) || set_string (o_Resolver o) || set_list (o_ExpectedIPs o).
Definition tcpSet (o : ProbeOptions) : bool := set_string (o_Send o) || set_string (o_Expect o) || set_string (o_ExpectMode o).

Definition guard_ (c : bool) (e : string) : result string unit := if c then Ok tt else Err e.

Definition matchMode (field mode : string) : result string unit :=
  guard_ (bool_decide (mode ∈ [""; ProbeKeywordContains; ProbeKeywordNotContains; ProbeKeywordRegex]))
    (field +:+ " must be contains, not_contains, or regex").

Definition http_options (o : ProbeOptions) : result string unit :=
  let? _ := guard_ (bool_decide (o_Method o ∈ [""; "GET"; "HEAD"])) "method must be GET or HEAD" in
  let? _ := guard_ (Nat.leb (length (o_ExpectedStatus o)) 16) "expected_status must hold at most 16 codes" in
  let? _ := guard_ (forallb (fun c => (100 <=? c) && (c <=? 599)) (o_ExpectedStatus o)) "expected_status codes must be 100-599" in
  let? _ := guard_ (str_len (o_Keyword o) <=? 256) "keyword must be at most 256 characters" in
  let? _ := guard_ (negb (bool_decide (o_Keyword o = "") && set_string (o_KeywordMode o))) "keyword_mode requires keyword" in
  matchMode "keyword_mode" (o_KeywordMode o).

Definition resolver_ok (r : string) : result string unit :=
  if decide (r = "") then Ok tt
  else
    let? _ := guard_ (negb (contains_str "/" r || bool_decide (trim_space r = ""))) "resolver must be a host or host:port" in
    let portStr := match SplitHostPort r with Some (_, p) => p | None => "" end in
    if decide (portStr = "") then Ok tt
    else match atoi portStr with
    | Some port => guard_ ((1 <=? port) && (port <=? 65535)) "resolver port must be 1-65535"
    | None => Err "resolver port must be 1-65535"
    end.

Definition dns_options (o : ProbeOptions) : result string unit :=
  let? _ := guard_ (bool_decide (o_Record o ∈ [""; ProbeRecordA; ProbeRecordAAAA; ProbeRecordCNAME; ProbeRecordTXT]))
              "record must be one of A, AAAA, CNAME, TXT" in
  let? _ := resolver_ok (o_Resolver o) in
  let? _ := guard_ (Nat.leb (length (o_ExpectedIPs o)) 8) "expected_ips must hold at most 8 addresses" in
  let? _ := guard_ (forallb (fun ip => bool_decide (is_Some (ParseIP ip))) (o_ExpectedIPs o))
              "expected_ips entries must be valid IP addresses" in
  guard_ (negb (set_list (o_ExpectedIPs o) && negb (bool_decide (o_Record o ∈ [""; ProbeRecordA; ProbeRecordAAAA]))))
    "expected_ips applies to record A or AAAA only".

Definition tcp_options (o : ProbeOptions) : result string unit :=
  let? _ := guard_ (str_len (o_Send o) <=? 256) "send must be at most 256 characters" in
  let? _ := guard_ (str_len (o_Expect o) <=? 256) "expect must be at most 256 characters" in
  let? _ := guard_ (negb (bool_decide (o_Expect o = "") && set_string (o_ExpectMode o))) "expect_mode requires expect" in
  matchMode "expect_mode" (o_ExpectMode o).

Definition bad_module : string := "module must be one of http, tls, tcp, icmp, dns".

Definition ValidateProbeOptions (module : string) (opts : option ProbeOptions) : result string unit :=
  match opts with
  | None => Ok tt
  | Some o =>
      if decide (module = "http") then
        let? _ := guard_ (negb (dnsSet o || tcpSet o)) "options contain dns/tcp fields that do not apply to the http module" in
        http_options o
      else if decide (module = "dns") then
        let? _ := guard_ (negb (httpSet o || tcpSet o)) "options contain http/tcp fields that do not apply to the dns module" in
        dns_options o
      else if decide (module = "tcp") then
        let? _ := guard_ (negb (httpSet o || dnsSet o)) "options contain http/dns fields that do not apply to the tcp module" in
        tcp_options o
      else if decide (module ∈ ["icmp"; "tls"]) then
        guard_ (negb (httpSet o || dnsSet o || tcpSet o)) ("the " +:+ module +:+ " module takes no options")
      else Err bad_module
  end.

(** * JSON form of the options *)

Definition option_members (o : ProbeOptions) : list (string * option json) :=
  [("method", omit_string (o_Method o)); ("expected_status", omit_array (fun c => JNumber (itoa c)) (o_ExpectedStatus o));
   ("keyword", omit_string (o_Keyword o)); ("keyword_mode", omit_string (o_KeywordMode o));
   ("ignore_tls_errors", omit_bool (o_IgnoreTLSErrors o)); ("record", omit_string (o_Record o));
   ("resolver", omit_string (o_Resolver o)); ("expected_ips", omit_array JString (o_ExpectedIPs o));
   ("send", omit_string (o_Send o)); ("expect", omit_string (o_Expect o)); ("expect_mode", omit_string (o_ExpectMode o))].

(** An array of scalars; [null] elements are zero values. *)
Definition as_scalars {A} (dec : option json → option A) (j : option json) : option (list A) :=
  match j with
  | None | Some JNull => Some []
  | Some (JArray l) => mapM (fun x => dec (Some x)) l
  | Some _ => None
  end.

(** Member names are compared as written. *)
Definition decode_options (o : jobject) : option ProbeOptions :=
  method ← as_string (jget "method" o);
  status ← as_scalars as_int (jget "expected_status" o);
  keyword ← as_string (jget "keyword" o);
  keyword_mode ← as_string (jget "keyword_mode" o);
  ignore ← as_bool (jget "ignore_tls_errors" o);
  record ← as_string (jget "record" o);
  resolver ← as_string (jget "resolver" o);
  ips ← as_scalars as_string (jget "expected_ips" o);
  send ← as_string (jget "send" o);
  expect ← as_string (jget "expect" o);
  expect_mode ← as_string (jget "expect_mode" o);
  Some (mkOptions method status keyword keyword_mode ignore record resolver ips send expect expect_mode).

Definition probeOptionsEmpty (opts : option ProbeOptions) : bool :=
  match opts with None => true | Some o => negb (httpSet o || dnsSet o || tcpSet o) end.

Definition marshalProbeOptions (opts : option ProbeOptions) : string :=
  match opts with
  | Some o => if probeOptionsEmpty opts then "" else marshal (JObject (members (option_members o)))
  | None => ""
  end.

Definition parseProbeOptions (s : string) : option ProbeOptions :=
  if decide (trim_space s = "") then None
  else
    o ← match unmarshal s with Some (JObject o) => decode_options o | Some JNull => decode_options [] | _ => None end;
    if probeOptionsEmpty (Some o) then None else Some o.

(** * Requests *)

Record ProbeTargetRequest := mkTargetReq {
  tr_Name : string; tr_Module : string; tr_Target : string; tr_IntervalSeconds : Z; tr_TimeoutSeconds : Z;
  tr_Enabled : option bool; tr_Notes : string; tr_Vantage : string; tr_Options : option ProbeOptions; tr_DeviceID : option Z
}.

Section url.
Context (url_parse : string → option url_parts).

Definition ValidateProbeTargetGrammar (module target : string) : result string unit :=
  if decide (module = "http") then
    match url_parse target with
    | Some u =>
        let? _ := guard_ (set_string (u_Scheme u) && set_string (u_Host u))
                    "target must be an absolute URL (e.g. https://example.com/healthz)" in
        let? _ := guard_ (bool_decide (u_Scheme u ∈ ["http"; "https"])) "target scheme must be http or https" in
        if decide (u_Port u = "") then Ok tt
        else guard_ (bool_decide (is_Some (atoi (u_Port u)))) "target port is not numeric"
    | None => Err "target must be an absolute URL (e.g. https://example.com/healthz)"
    end
  else if decide (module ∈ ["tls"; "tcp"]) then
    match SplitHostPort target with
    | Some (host, portStr) =>
        let? _ := guard_ (set_string host && set_string portStr) "target must be host:port (e.g. example.com:443)" in
        match atoi portStr with
        | Some port => guard_ ((1 <=? port) && (port <=? 65535)) "target port must be 1-65535"
        | None => Err "target port must be 1-65535"
        end
    | None => Err "target must be host:port (e.g. example.com:443)"
    end
  else if decide (module ∈ ["icmp"; "dns"]) then
    let? _ := guard_ (negb (contains_str "/" target || contains_str ":" target))
                "target must be a bare host or IP (no port, no path)" in
    guard_ (set_string (trim_space target)) "target is required"
  else Err bad_module.

Definition or_default (v def : Z) : Z := if v =? 0 then def else v.

Definition between (lo hi v : Z) : bool := (lo <=? v) && (v <=? hi).

Definition ValidateProbeTargetRequest (req : ProbeTargetRequest) : result string unit :=
  let name := trim_space (tr_Name req) in
  let interval := or_default (tr_IntervalSeconds req) 60 in
  let timeout := or_default (tr_TimeoutSeconds req) 10 in
  let? _ := guard_ (set_string name) "name is required" in
  let? _ := guard_ (str_len name <=? 100) "name must be at most 100 characters" in
  let? _ := guard_ (bool_decide (tr_Module req ∈ ValidProbeModules)) bad_module in
  let? _ := guard_ (set_string (trim_space (tr_Target req))) "target is required" in
  let? _ := guard_ (between ProbeIntervalMinSeconds ProbeIntervalMaxSeconds interval)
              ("interval_seconds must be between " +:+ itoa ProbeIntervalMinSeconds +:+ " and " +:+ itoa ProbeIntervalMaxSeconds) in
  let? _ := guard_ (between ProbeTimeoutMinSeconds ProbeTimeoutMaxSeconds timeout)
              ("timeout_seconds must be between " +:+ itoa ProbeTimeoutMinSeconds +:+ " and " +:+ itoa ProbeTimeoutMaxSeconds) in
  let? _ := guard_ (timeout <? interval) "timeout_seconds must be smaller than interval_seconds" in
  let? _ := guard_ (str_len (tr_Notes req) <=? 500) "notes must be at most 500 characters" in
  let? _ := NormalizeProbeVantage (tr_Vantage req) in
  let? _ := ValidateProbeOptions (tr_Module req) (tr_Options req) in
  ValidateProbeTargetGrammar (tr_Module req) (trim_space (tr_Target req)).

End url.
