(* ===== verification/ProbeService.v ===== *)
(** The CRUD facade over probe targets
    (src/internal/service/probetarget/service.go) with the read statements of
    src/internal/db/probe_targets.sql.go and probe_results.sql.go it uses.

    [device_exists] is the look-up of a device by id.  A constraint of the schema
    that refuses a statement is [ErrConstraint]; other failures of the database
    are left out.  Creation and update times are not part of a response. *)

From S2P Require Import Prelude Float64 Db DeviceStore Json ProbeStore Quality ProbeRules.
From stdpp Require sorting.

Open Scope Z_scope.

Inductive service_err :=
| ErrValidation (text : string)
| ErrProbeTargetNotFound
| ErrDuplicateName
| ErrConstraint.

#[export] Instance service_err_eq_dec : EqDecision service_err.
Proof. solve_decision. Defined.

(** * Read statements *)

Definition matches_search (search : string) (t : ProbeTarget) : bool :=
  bool_decide (search = "") || contains_str (to_lower search) (to_lower (pt_Name t))
  || contains_str (to_lower search) (to_lower (pt_Target t)).

(** LIMIT and OFFSET. *)
Definition page {A} (limit offset : Z) (l : list A) : list A := take (Z.to_nat limit) (drop (Z.to_nat offset) l).

Definition ListProbeTargetsSearch (search : string) (limit offset : Z) (db : probe_db) : list ProbeTarget :=
  page limit offset (List.filter (matches_search search) (pd_targets db)).

Definition CountProbeTargetsSearch (search : string) (db : probe_db) : Z :=
  Z.of_nat (length (List.filter (matches_search search) (pd_targets db))).

Definition on_track (id : Z) (vantage : string) (r : ProbeResult) : bool :=
  (pr_TargetID r =? id) && (bool_decide (vantage = "") || bool_decide (pr_Vantage r = vantage)).

Definition result_ge (a b : ProbeResult) : Prop := result_le b a.

#[export] Instance result_ge_dec : RelDecision result_ge.
Proof. intros a b. unfold result_ge. apply _. Defined.

Definition ListProbeResultsByTarget (id : Z) (vantage : string) (limit offset : Z) (db : probe_db) : list ProbeResult :=
  page limit offset (sorting.merge_sort result_ge (List.filter (on_track id vantage) (pd_results db))).

Definition CountProbeResultsByTarget (id : Z) (vantage : string) (db : probe_db) : Z :=
  Z.of_nat (length (List.filter (on_track id vantage) (pd_results db))).

Definition vantage_le (a b : ProbeResult) : Prop := String.leb (pr_Vantage a) (pr_Vantage b) = true.

#[export] Instance vantage_le_dec : RelDecision vantage_le.
Proof. intros a b. unfold vantage_le. apply _. Defined.

(** The row of the greatest id of each vantage. *)
Definition LatestProbeResultsPerVantage (id : Z) (db : probe_db) : list ProbeResult :=
  let rows := List.filter (fun r => pr_TargetID r =? id) (pd_results db) in
  sorting.merge_sort vantage_le
    (List.filter (fun r => forallb (fun r' => negb (bool_decide (pr_Vantage r' = pr_Vantage r)) || (pr_ID r' <=? pr_ID r)) rows) rows).

(** * Responses *)

Record ProbeVantageLatest := mkLatest {
  vl_Vantage : string; vl_Status : string; vl_LatencyMs : f64; vl_ErrorMessage : string; vl_CheckedAt : string
}.

Record ProbeTargetResponse := mkTargetResp {
  rs_ID : Z; rs_Name : string; rs_Module : string; rs_Target : string; rs_IntervalSeconds : Z; rs_TimeoutSeconds : Z;
  rs_Enabled : bool; rs_Notes : string; rs_LastRunAt : option Z; rs_LastStatus : string; rs_LastLatencyMs : f64;
  rs_LastError : string; rs_Vantage : string; rs_VantageLatest : list ProbeVantageLatest;
  rs_Options : option ProbeOptions; rs_DeviceID : Z; rs_Source : string
}.

Record ProbeResultResponse := mkResultResp {
  rr_ID : Z; rr_TargetID : Z; rr_Status : string; rr_LatencyMs : f64; rr_StatusCode : Z; rr_ErrorMessage : string;
  rr_TLSVersion : string; rr_CertNotAfter : string; rr_CertTrusted : option bool; rr_CheckedAt : string; rr_Vantage : string
}.

Definition toTargetResponse (t : ProbeTarget) : ProbeTargetResponse :=
  mkTargetResp (pt_ID t) (pt_Name t) (pt_Module t) (pt_Target t) (pt_IntervalSeconds t) (pt_TimeoutSeconds t)
    (pt_Enabled t =? 1) (pt_Notes t) (pt_LastRunAt t) (pt_LastStatus t) (pt_LastLatencyMs t) (pt_LastError t)
    (pt_Vantage t) [] (parseProbeOptions (pt_Options t)) (default 0 (pt_DeviceID t)) (pt_Source t).

Definition toResultResponse (r : ProbeResult) : ProbeResultResponse :=
  mkResultResp (pr_ID r) (pr_TargetID r) (pr_Status r) (pr_LatencyMs r) (pr_StatusCode r) (pr_ErrorMessage r)
    (pr_TlsVersion r) (pr_CertNotAfter r) (if 0 <=? pr_CertTrusted r then Some (pr_CertTrusted r =? 1) else None)
    (pr_CheckedAt r) (pr_Vantage r).

Definition latest_of (r : ProbeResult) : ProbeVantageLatest :=
  mkLatest (pr_Vantage r) (pr_Status r) (pr_LatencyMs r) (pr_ErrorMessage r) (pr_CheckedAt r).

Definition attachVantageLatest (db : probe_db) (resp : ProbeTargetResponse) : ProbeTargetResponse :=
  mkTargetResp (rs_ID resp) (rs_Name resp) (rs_Module resp) (rs_Target resp) (rs_IntervalSeconds resp) (rs_TimeoutSeconds resp)
    (rs_Enabled resp) (rs_Notes resp) (rs_LastRunAt resp) (rs_LastStatus resp) (rs_LastLatencyMs resp) (rs_LastError resp)
    (rs_Vantage resp) (latest_of <$> LatestProbeResultsPerVantage (rs_ID resp) db) (rs_Options resp) (rs_DeviceID resp)
    (rs_Source resp).

(** * Operations *)

Record UpdateProbeTargetRequest := mkUpdateReq {
  ur_Name : option string; ur_Module : option string; ur_Target : option string;
  ur_IntervalSeconds : option Z; ur_TimeoutSeconds : option Z; ur_Enabled : option bool; ur_Notes : option string;
  ur_Vantage : option string; ur_Options : option ProbeOptions; ur_DeviceID : option Z
}.

Section service.
Context (url_parse : string → option url_parts) (device_exists : Z → bool).

Definition checkNameFree (name : string) (selfID : Z) (db : probe_db) : result service_err unit :=
  match GetProbeTargetByName name db with
  | Some t => if pt_ID t =? selfID then Ok tt else Err ErrDuplicateName
  | None => Ok tt
  end.

Definition checkDeviceExists (id : Z) : result service_err unit :=
  if device_exists id then Ok tt else Err (ErrValidation ("device " +:+ itoa id +:+ " does not exist")).

Definition valid {A} (r : result string A) : result service_err A :=
  match r with Ok a => Ok a | Err e => Err (ErrValidation e) end.

Definition bool_int (b : bool) : Z := if b then 1 else 0.

(** The checks of [Create] and the row it would insert. *)
Definition create_params (req : ProbeTargetRequest) (db : probe_db) : result service_err target_params :=
  let? _ := valid (ValidateProbeTargetRequest url_parse req) in
  let name := trim_space (tr_Name req) in
  let? _ := checkNameFree name 0 db in
  let? deviceID := match tr_DeviceID req with
                   | Some d => if 0 <? d then let? _ := checkDeviceExists d in Ok (Some d) else Ok None
                   | None => Ok None
                   end in
  let options := marshalProbeOptions (tr_Options req) in
  let enabled := match tr_Enabled req with Some false => 0 | _ => 1 end in
  let? vantage := valid (NormalizeProbeVantage (tr_Vantage req)) in
  Ok (mkParams name (tr_Module req) (trim_space (tr_Target req)) (or_default (tr_IntervalSeconds req) 60)
        (or_default (tr_TimeoutSeconds req) 10) enabled (tr_Notes req) vantage options deviceID).

Definition Create (req : ProbeTargetRequest) (db : probe_db) : probe_db * result service_err ProbeTargetResponse :=
  match create_params req db with
  | Err e => (db, Err e)
  | Ok p =>
      match CreateProbeTarget p ProbeSourceManual db with
      | Some (db', t) => (db', Ok (toTargetResponse t))
      | None => (db, Err ErrConstraint)
      end
  end.

Definition Get (id : Z) (db : probe_db) : result service_err ProbeTargetResponse :=
  match GetProbeTarget id db with
  | Some t => Ok (attachVantageLatest db (toTargetResponse t))
  | None => Err ErrProbeTargetNotFound
  end.

Definition List_ (search : string) (limit offset : Z) (db : probe_db) : list ProbeTargetResponse * Z :=
  let limit := Z.min (Z.max limit 20) 100 in
  let search := trim_space search in
  ((fun t => attachVantageLatest db (toTargetResponse t)) <$> ListProbeTargetsSearch search limit (Z.max offset 0) db,
   CountProbeTargetsSearch search db).

Definition ListByDevice (deviceID : Z) (db : probe_db) : list ProbeTargetResponse * Z :=
  let out := (fun t => attachVantageLatest db (toTargetResponse t)) <$> ListProbeTargetsByDevice deviceID db in
  (out, Z.of_nat (length out)).

(** The merged options of an update. *)
Definition merged_options (existing : ProbeTarget) (req : UpdateProbeTargetRequest) (module : string) : option ProbeOptions :=
  match ur_Options req with
  | Some o => Some o
  | None => if decide (module = pt_Module existing) then parseProbeOptions (pt_Options existing) else None
  end.

(** The merge of [Update] with its checks: the columns to write, and whether the
    target is to be enabled. *)
Definition update_params (existing : ProbeTarget) (req : UpdateProbeTargetRequest) (db : probe_db)
    : result service_err (target_params * bool) :=
  let name := match ur_Name req with Some n => trim_space n | None => pt_Name existing end in
  let module := default (pt_Module existing) (ur_Module req) in
  let target := match ur_Target req with Some t => trim_space t | None => pt_Target existing end in
  let notes := default (pt_Notes existing) (ur_Notes req) in
  let interval := default (pt_IntervalSeconds existing) (ur_IntervalSeconds req) in
  let timeout := default (pt_TimeoutSeconds existing) (ur_TimeoutSeconds req) in
  let enabled := default (pt_Enabled existing =? 1) (ur_Enabled req) in
  let? vantage := match ur_Vantage req with Some v => valid (NormalizeProbeVantage v) | None => Ok (pt_Vantage existing) end in
  let options := merged_options existing req module in
  let? deviceID := match ur_DeviceID req with
                   | Some d => if 0 <? d then let? _ := checkDeviceExists d in Ok (Some d) else Ok None
                   | None => Ok (pt_DeviceID existing)
                   end in
  let optionsJSON := marshalProbeOptions options in
  let? _ := valid (ValidateProbeTargetRequest url_parse
                     (mkTargetReq name module target interval timeout (Some enabled) notes vantage options None)) in
  let? _ := if decide (name = pt_Name existing) then Ok tt else checkNameFree name (pt_ID existing) db in
  Ok (mkParams name module target interval timeout (pt_Enabled existing) notes vantage optionsJSON deviceID, enabled).

Definition Update (id : Z) (req : UpdateProbeTargetRequest) (db : probe_db)
    : probe_db * result service_err ProbeTargetResponse :=
  match GetProbeTarget id db with
  | None => (db, Err ErrProbeTargetNotFound)
  | Some existing =>
      match update_params existing req db with
      | Err e => (db, Err e)
      | Ok (p, enabled) =>
          match UpdateProbeTarget id p db with
          | None => (db, Err ErrConstraint)
          | Some (db', t) =>
              if Bool.eqb enabled (pt_Enabled existing =? 1) then (db', Ok (toTargetResponse t))
              else (ToggleProbeTargetEnabled id (bool_int enabled) db',
                    Ok (toTargetResponse (with_enabled (bool_int enabled) t)))
          end
      end
  end.

Definition Delete (id : Z) (db : probe_db) : probe_db * result service_err unit :=
  match GetProbeTarget id db with
  | None => (db, Err ErrProbeTargetNotFound)
  | Some _ =>
      let db := DeleteProbeTLSCertsByTarget id (DeleteProbeResultsByTarget id db) in
      (DeleteProbeTarget id db,
       if existsb (fun t => pt_ID t =? id) (pd_targets db) then Ok tt else Err ErrProbeTargetNotFound)
  end.

(** The vantage filter of [Results]: empty is none. *)
Definition result_filter (vantage : string) : result service_err string :=
  if decide (trim_space vantage = "") then Ok ""
  else
    let? v := valid (NormalizeProbeVantage vantage) in
    if decide (v = ProbeVantageAll)
    then Err (ErrValidation ("vantage filter must be " +:+ quote "center" +:+ " or " +:+ quote "agent:{agent_id}" +:+ ", not "
                             +:+ quote "all"))
    else Ok v.

Definition Results (targetID : Z) (vantage : string) (limit offset : Z) (db : probe_db)
    : result service_err (list ProbeResultResponse * Z) :=
  match GetProbeTarget targetID db with
  | None => Err ErrProbeTargetNotFound
  | Some _ =>
      let? v := result_filter vantage in
      let limit := Z.min (if limit <? 1 then 20 else limit) 100 in
      Ok (toResultResponse <$> ListProbeResultsByTarget targetID v limit (Z.max offset 0) db,
          CountProbeResultsByTarget targetID v db)
  end.

End service.
