(* ===== verification/ProbeServiceSpec.v ===== *)
(** Theorems on the probe rules and the probe service: the options survive their
    JSON form, what the service stores satisfies the rules, and an update changes
    what it was asked to change. *)

From S2P Require Import Prelude Float64 NetAddr Cidr Db RateLimit DeviceStore Json JsonSpec Attributes AttributesSpec ProbeStore.
From S2P Require Import Quality ProbeRules ProbeService.

Open Scope Z_scope.

(** * Options *)

Definition options_utf8 (opts : option ProbeOptions) : bool :=
  match opts with
  | None => true
  | Some o =>
      forallb utf8_valid ([o_Method o; o_Keyword o; o_KeywordMode o; o_Record o; o_Resolver o; o_Send o; o_Expect o; o_ExpectMode o]
                          ++ o_ExpectedIPs o)
  end.

(** An empty block is stored as none. *)
Definition normal_options (opts : option ProbeOptions) : option ProbeOptions :=
  if probeOptionsEmpty opts then None else opts.

Lemma guard_ok c e : guard_ c e = Ok tt ↔ c = true.
Proof. unfold guard_. by destruct c. Qed.

Ltac peel H :=
  let H1 := fresh H in let H2 := fresh H in
  apply rbind_ok in H as ([] & H1 & H2); rename H2 into H.

Ltac unfold_bounds := unfold between, ProbeIntervalMinSeconds, ProbeIntervalMaxSeconds, ProbeTimeoutMinSeconds, ProbeTimeoutMaxSeconds in *.

Lemma set_list_nil {A} (l : list A) : set_list l = false → l = [].
Proof. by destruct l. Qed.

Lemma valid_status module o :
  ValidateProbeOptions module (Some o) = Ok tt → Forall (fun c => 100 ≤ c ≤ 599) (o_ExpectedStatus o).
Proof.
  assert (httpSet o = false → Forall (fun c => 100 ≤ c ≤ 599) (o_ExpectedStatus o)) as Hnil.
  { unfold httpSet. rewrite !orb_false_iff. intros [[[[_ H%set_list_nil] _] _] _]. rewrite H. constructor. }
  unfold ValidateProbeOptions. repeat case_decide; intros Hv; try done.
  - peel Hv. unfold http_options in Hv. peel Hv. peel Hv. apply rbind_ok in Hv as ([] & Hv & _); apply guard_ok in Hv.
    rewrite forallb_forall in Hv. apply list.Forall_forall. intros c Hc%list_elem_of_In. specialize (Hv c Hc). cbn in Hv. lia.
  - apply rbind_ok in Hv as ([] & Hv & _); apply guard_ok in Hv. apply Hnil. apply negb_true_iff, orb_false_iff in Hv. tauto.
  - apply rbind_ok in Hv as ([] & Hv & _); apply guard_ok in Hv. apply Hnil. apply negb_true_iff, orb_false_iff in Hv. tauto.
  - apply guard_ok in Hv. apply Hnil. apply negb_true_iff, orb_false_iff in Hv as [Hv _]. apply orb_false_iff in Hv. tauto.
Qed.

Lemma status_literal c : 100 ≤ c ≤ 599 → number_literal (itoa c) = true.
Proof.
  intros Hc. assert (forallb (fun c => number_literal (itoa c)) (seqZ 100 500) = true) as H by (vm_compute; reflexivity).
  rewrite forallb_forall in H. apply H, list_elem_of_In, elem_of_seqZ. lia.
Qed.

Lemma option_members_names o : NoDup (option_members o).*1.
Proof. refine (bool_decide_unpack _ _). vm_compute. exact I. Qed.

Lemma members_ok depth l :
  NoDup l.*1 → Forall (fun kv => utf8_valid kv.1 = true ∧ ∀ j, kv.2 = Some j → json_ok (depth + 1) j = true) l → depth < max_depth →
  json_ok depth (JObject (members l)) = true.
Proof.
  intros Hn Hl Hd. cbn [json_ok]. rewrite !andb_true_iff. split_and!; [by apply Z.ltb_lt| |].
  - apply bool_decide_eq_true. by apply members_NoDup.
  - apply forallb_forall. intros [k j] Hin%list_elem_of_In. unfold members in Hin. apply list_elem_of_omap in Hin as ([k' [v|]] & Hin & E); [|done].
    cbn in E. injection E as -> ->. eapply list.Forall_forall in Hl; [|exact Hin]. destruct Hl as [Hk Hv]. cbn in *. by rewrite Hk, (Hv j).
Qed.

Lemma omit_string_ok depth s j : utf8_valid s = true → omit_string s = Some j → json_ok depth j = true.
Proof. unfold omit_string. case_decide; [done|]. by intros ? [= <-]. Qed.

Lemma omit_array_ok {A} depth (enc : A → json) l j :
  Forall (fun x => json_ok (depth + 1) (enc x) = true) l → depth < max_depth → omit_array enc l = Some j → json_ok depth j = true.
Proof.
  intros Hl Hd. destruct l as [|x l]; [done|]. cbn [omit_array]. intros [= <-]. cbn [json_ok]. rewrite (proj2 (Z.ltb_lt _ _)) by done.
  cbn [andb]. apply forallb_forall. intros y Hy%list_elem_of_In. change (y ∈ enc <$> x :: l) in Hy. apply list_elem_of_fmap in Hy as (z & -> & Hz).
  by eapply list.Forall_forall in Hl; [|exact Hz].
Qed.

Lemma options_json_ok o :
  options_utf8 (Some o) = true → Forall (fun c => 100 ≤ c ≤ 599) (o_ExpectedStatus o) →
  json_ok 0 (JObject (members (option_members o))) = true.
Proof.
  unfold options_utf8. cbn [app forallb]. rewrite !andb_true_iff. intros (U1 & U2 & U3 & U4 & U5 & U6 & U7 & U8 & Hips) Hst.
  apply members_ok; [apply option_members_names| |done]. unfold option_members.
  repeat (apply list.Forall_cons; split; [split; [vm_compute; reflexivity|]; cbn [snd]; intros j Hj|]); try (eapply omit_string_ok; [|exact Hj]; done);
    [| | |constructor].
  - eapply omit_array_ok; [|done|exact Hj]. eapply Forall_impl; [|exact Hst]. intros c Hc. by apply status_literal.
  - unfold omit_bool in Hj. destruct (o_IgnoreTLSErrors o); [|done]. by injection Hj as <-.
  - eapply omit_array_ok; [|done|exact Hj]. apply list.Forall_forall. intros ip Hip. cbn. rewrite forallb_forall in Hips.
    by apply Hips, list_elem_of_In.
Qed.

Lemma as_omit_scalars {A} (enc : A → json) dec (l : list A) :
  Forall (fun x => dec (Some (enc x)) = Some x) l → as_scalars dec (omit_array enc l) = Some l.
Proof.
  intros Hl. destruct l as [|x l]; [done|]. cbn [omit_array as_scalars]. apply mapM_Some. rewrite Forall2_fmap_l.
  apply Forall_Forall2_diag. done.
Qed.

Lemma decode_option_members o : Forall (fun c => 100 ≤ c ≤ 599) (o_ExpectedStatus o) →
  decode_options (members (option_members o)) = Some o.
Proof.
  intros Hst. unfold decode_options. rewrite !jget_members by apply option_members_names. unfold option_members.
  cbn [member String.eqb Ascii.eqb Bool.eqb]. rewrite !as_omit_string, as_omit_bool. rewrite !as_omit_scalars; [by destruct o| |by apply list.Forall_forall].
  eapply Forall_impl; [|exact Hst]. intros c Hc. cbn. apply atoi_itoa. cbn beta in Hc; unfold min_int64, max_int64; lia.
Qed.

(** A JSON object is no blank text. *)
Lemma trim_braces s : trim_space ("{" +:+ s +:+ "}") = "{" +:+ s +:+ "}".
Proof.
  assert (∀ t, strip_space (String "{" t) = None) as H1.
  { intros [|b [|c t]]; [done|cbn; by rewrite ?andb_false_r|cbn; by rewrite ?andb_false_r]. }
  assert (∀ t, strip_space_rev (String "}" t) = None) as H2.
  { intros [|b [|c t]]; [done| |]; cbn; rewrite ?andb_false_r, ?orb_false_r; cbn; rewrite ?andb_false_r; done. }
  unfold trim_space. change ("{" +:+ ?x) with (String "{" x). rewrite (trim_loop_fixed strip_space) by apply H1.
  rewrite trim_loop_fixed; [apply string_rev_involutive|]. rewrite string_rev_cons, string_rev_app. apply H2.
Qed.

Lemma parse_marshal_options opts :
  options_utf8 opts = true → (∀ o, opts = Some o → Forall (fun c => 100 ≤ c ≤ 599) (o_ExpectedStatus o)) →
  parseProbeOptions (marshalProbeOptions opts) = normal_options opts.
Proof.
  intros Hu Hst. unfold normal_options, marshalProbeOptions. destruct opts as [o|]; [|done].
  destruct (probeOptionsEmpty (Some o)) eqn:E; [done|]. specialize (Hst o eq_refl). unfold parseProbeOptions.
  rewrite unmarshal_marshal by (by apply options_json_ok). cbn [marshal]. rewrite trim_braces.
  change ("{" +:+ ?x) with (String "{" x). rewrite decide_False by done. rewrite decode_option_members by done. cbn [mbind option_bind]. by rewrite E.
Qed.

(** * Rows that satisfy the rules *)

Section rules.
Context (url_parse : string → option url_parts).

Lemma validate_iff req :
  ValidateProbeTargetRequest url_parse req = Ok tt ↔
  set_string (trim_space (tr_Name req)) = true ∧ str_len (trim_space (tr_Name req)) <=? 100 = true
  ∧ bool_decide (tr_Module req ∈ ValidProbeModules) = true ∧ set_string (trim_space (tr_Target req)) = true
  ∧ between ProbeIntervalMinSeconds ProbeIntervalMaxSeconds (or_default (tr_IntervalSeconds req) 60) = true
  ∧ between ProbeTimeoutMinSeconds ProbeTimeoutMaxSeconds (or_default (tr_TimeoutSeconds req) 10) = true
  ∧ or_default (tr_TimeoutSeconds req) 10 <? or_default (tr_IntervalSeconds req) 60 = true
  ∧ str_len (tr_Notes req) <=? 500 = true ∧ is_ok (NormalizeProbeVantage (tr_Vantage req)) = true
  ∧ ValidateProbeOptions (tr_Module req) (tr_Options req) = Ok tt
  ∧ ValidateProbeTargetGrammar url_parse (tr_Module req) (trim_space (tr_Target req)) = Ok tt.
Proof.
  unfold ValidateProbeTargetRequest, guard_.
  repeat (match goal with |- context [if ?b then Ok tt else Err _] => destruct b; cbn [rbind]; [|naive_solver] end).
  destruct (NormalizeProbeVantage _); cbn [rbind is_ok]; [|naive_solver].
  destruct (ValidateProbeOptions _ _) as [[]|]; cbn [rbind]; naive_solver.
Qed.

Lemma normalize_trim v : NormalizeProbeVantage (trim_space v) = NormalizeProbeVantage v.
Proof. unfold NormalizeProbeVantage. by rewrite trim_space_idemp. Qed.

Lemma normalize_idemp v v' : NormalizeProbeVantage v = Ok v' → NormalizeProbeVantage v' = Ok v'.
Proof.
  intros H. assert (v' = ProbeVantageCenter ∨ v' = trim_space v) as [->| ->]; [|done|by rewrite normalize_trim].
  unfold NormalizeProbeVantage in H. repeat case_match; naive_solver.
Qed.

(** The request that would create the row. *)
Definition row_request (t : ProbeTarget) (opts : option ProbeOptions) : ProbeTargetRequest :=
  mkTargetReq (pt_Name t) (pt_Module t) (pt_Target t) (pt_IntervalSeconds t) (pt_TimeoutSeconds t) (Some true) (pt_Notes t)
    (pt_Vantage t) opts None.

Definition row_valid (t : ProbeTarget) : Prop :=
  ∃ opts, options_utf8 opts = true ∧ normal_options opts = opts ∧ pt_Options t = marshalProbeOptions opts
  ∧ ValidateProbeTargetRequest url_parse (row_request t opts) = Ok tt.

Lemma status_of_valid module opts : ValidateProbeOptions module opts = Ok tt →
  ∀ o, opts = Some o → Forall (fun c => 100 ≤ c ≤ 599) (o_ExpectedStatus o).
Proof. intros H o ->. by eapply valid_status. Qed.

Lemma row_valid_options t : row_valid t → pt_Options t = marshalProbeOptions (parseProbeOptions (pt_Options t))
  ∧ options_utf8 (parseProbeOptions (pt_Options t)) = true
  ∧ ValidateProbeTargetRequest url_parse (row_request t (parseProbeOptions (pt_Options t))) = Ok tt.
Proof.
  intros (opts & Hu & Hn & Ho & Hv). assert (parseProbeOptions (pt_Options t) = opts) as ->.
  { rewrite Ho, parse_marshal_options; [done|done|]. apply validate_iff in Hv. eapply status_of_valid. apply Hv. }
  done.
Qed.

Lemma normal_idemp opts : normal_options (normal_options opts) = normal_options opts.
Proof. unfold normal_options. destruct (probeOptionsEmpty opts) eqn:E; [done|]. by rewrite E. Qed.

Lemma normal_utf8 opts : options_utf8 opts = true → options_utf8 (normal_options opts) = true.
Proof. unfold normal_options. by destruct (probeOptionsEmpty opts). Qed.

Lemma marshal_normal opts : marshalProbeOptions (normal_options opts) = marshalProbeOptions opts.
Proof.
  unfold normal_options. destruct (probeOptionsEmpty opts) eqn:E; [|done]. destruct opts as [o|]; [|done].
  unfold marshalProbeOptions. by rewrite E.
Qed.

Lemma validate_normal module opts : ValidateProbeOptions module opts = Ok tt → ValidateProbeOptions module (normal_options opts) = Ok tt.
Proof. unfold normal_options. by destruct (probeOptionsEmpty opts). Qed.

(** A row with the columns of a validated request is valid. *)
Lemma stored_valid req t :
  ValidateProbeTargetRequest url_parse req = Ok tt → options_utf8 (tr_Options req) = true →
  is_ok (NormalizeProbeVantage (pt_Vantage t)) = true →
  trim_space (pt_Name t) = trim_space (tr_Name req) → pt_Module t = tr_Module req →
  trim_space (pt_Target t) = trim_space (tr_Target req) →
  or_default (pt_IntervalSeconds t) 60 = or_default (tr_IntervalSeconds req) 60 →
  or_default (pt_TimeoutSeconds t) 10 = or_default (tr_TimeoutSeconds req) 10 →
  pt_Notes t = tr_Notes req → pt_Options t = marshalProbeOptions (tr_Options req) → row_valid t.
Proof.
  intros Hv Hu Hvan E1 E2 E3 E4 E5 E6 E8. exists (normal_options (tr_Options req)).
  split_and!; [by apply normal_utf8|apply normal_idemp|by rewrite marshal_normal|].
  apply validate_iff in Hv as (V1 & V2 & V3 & V4 & V5 & V6 & V7 & V8 & V9 & V10 & V11). apply validate_iff.
  cbn [row_request tr_Name tr_Module tr_Target tr_IntervalSeconds tr_TimeoutSeconds tr_Notes tr_Vantage tr_Options].
  rewrite E1, E2, E3, E4, E5, E6. split_and!; try done. by apply validate_normal.
Qed.

Lemma or_default_idemp v d : or_default (or_default v d) d = or_default v d.
Proof. unfold or_default. destruct (Z.eqb_spec v 0) as [->|]; [by destruct (d =? 0)|]. by destruct (Z.eqb_spec v 0). Qed.

Lemma normalize_ok v v' : NormalizeProbeVantage v = Ok v' → is_ok (NormalizeProbeVantage v') = true.
Proof. intros H. by rewrite (normalize_idemp _ _ H). Qed.

(** * The service *)

Context (device_exists : Z → bool).

Lemma valid_ok {A} (r : result string A) a : valid r = Ok a ↔ r = Ok a.
Proof. destruct r; cbn; naive_solver. Qed.

Lemma create_params_spec req db p :
  create_params url_parse device_exists req db = Ok p →
  ValidateProbeTargetRequest url_parse req = Ok tt ∧ checkNameFree (trim_space (tr_Name req)) 0 db = Ok tt
  ∧ tp_Name p = trim_space (tr_Name req) ∧ tp_Module p = tr_Module req ∧ tp_Target p = trim_space (tr_Target req)
  ∧ tp_IntervalSeconds p = or_default (tr_IntervalSeconds req) 60 ∧ tp_TimeoutSeconds p = or_default (tr_TimeoutSeconds req) 10
  ∧ tp_Notes p = tr_Notes req ∧ NormalizeProbeVantage (tr_Vantage req) = Ok (tp_Vantage p)
  ∧ tp_Options p = marshalProbeOptions (tr_Options req)
  ∧ (∀ d, tp_DeviceID p = Some d → tr_DeviceID req = Some d ∧ device_exists d = true).
Proof.
  unfold create_params. intros H. apply rbind_ok in H as ([] & Hv%valid_ok & H). apply rbind_ok in H as ([] & Hn & H).
  apply rbind_ok in H as (dev & Hd & H). apply rbind_ok in H as (v & Hvan%valid_ok & H). injection H as <-. cbn.
  split_and!; try done. intros d ->. destruct (tr_DeviceID req) as [d'|]; [|done]. destruct (0 <? d'); [|done].
  unfold checkDeviceExists in Hd. destruct (device_exists d') eqn:E; cbn in Hd; [|done]. by injection Hd as <-.
Qed.

Lemma name_free_of name self db :
  targets_ok db → checkNameFree name self db = Ok tt → name_free name self (pd_targets db) = true.
Proof.
  intros (_ & Hn & _) H. apply name_free_spec. intros t Ht Hne E. unfold checkNameFree in H.
  destruct (GetProbeTargetByName name db) as [u|] eqn:Eu.
  - apply find_in in Eu as [Hu Hun%bool_decide_eq_true]. destruct (Z.eqb_spec (pt_ID u) self); [|done].
    assert (t = u) as -> by (apply (same_name (pd_targets db)); congruence). done.
  - apply list_elem_of_In in Ht. pose proof (List.find_none _ _ Eu t Ht) as Hf. cbn beta in Hf. by rewrite bool_decide_eq_true_2 in Hf.
Qed.

Lemma create_total req db p :
  targets_ok db → create_params url_parse device_exists req db = Ok p → is_Some (CreateProbeTarget p ProbeSourceManual db).
Proof.
  intros Hok H. apply create_params_spec in H as (Hv & Hf & En & Em & _ & Ei & Et & _).
  apply validate_iff in Hv as (_ & _ & V3 & _ & V5 & V6 & _). unfold CreateProbeTarget. rewrite <- En in Hf.
  cbv zeta. change (pt_ID (new_target (pd_seq db + 1) p ProbeSourceManual)) with (pd_seq db + 1).
  assert (target_checks (new_target (pd_seq db + 1) p ProbeSourceManual) = true) as ->.
  { unfold target_checks. cbn [new_target pt_Module pt_IntervalSeconds pt_TimeoutSeconds pt_LastStatus pt_Source].
    rewrite Em, Ei, Et, V3. unfold_bounds. apply andb_true_iff in V5 as [-> ->], V6 as [-> ->]. done. }
  assert (name_free (tp_Name p) (pd_seq db + 1) (pd_targets db) = true) as ->; [|done].
  apply name_free_spec. intros t Ht _. pose proof (name_free_of _ _ _ Hok Hf) as Hfree. rewrite name_free_spec in Hfree.
  apply Hfree; [done|]. destruct Hok as (_ & _ & Hall & _). eapply list.Forall_forall in Hall; [|exact Ht]. lia.
Qed.

(** The row an update asks for. *)
Definition updated (t : ProbeTarget) (req : UpdateProbeTargetRequest) (vantage : string) : ProbeTarget :=
  let module := default (pt_Module t) (ur_Module req) in
  mkProbeTarget (pt_ID t)
    match ur_Name req with Some n => trim_space n | None => pt_Name t end
    module
    match ur_Target req with Some x => trim_space x | None => pt_Target t end
    (default (pt_IntervalSeconds t) (ur_IntervalSeconds req)) (default (pt_TimeoutSeconds t) (ur_TimeoutSeconds req))
    match ur_Enabled req with
    | Some b => if Bool.eqb b (pt_Enabled t =? 1) then pt_Enabled t else bool_int b
    | None => pt_Enabled t
    end
    (default (pt_Notes t) (ur_Notes req)) (pt_LastRunAt t) (pt_LastStatus t) (pt_LastLatencyMs t) (pt_LastError t)
    vantage (marshalProbeOptions (merged_options t req module))
    match ur_DeviceID req with Some d => if 0 <? d then Some d else None | None => pt_DeviceID t end
    (pt_Source t).

(** The vantage asked for, in its canonical form. *)
Definition new_vantage (t : ProbeTarget) (req : UpdateProbeTargetRequest) (v : string) : Prop :=
  match ur_Vantage req with Some w => NormalizeProbeVantage w = Ok v | None => v = pt_Vantage t end.

Lemma update_params_spec t req db p enabled :
  update_params url_parse device_exists t req db = Ok (p, enabled) →
  enabled = default (pt_Enabled t =? 1) (ur_Enabled req) ∧ new_vantage t req (tp_Vantage p)
  ∧ (tp_Name p = pt_Name t ∨ checkNameFree (tp_Name p) (pt_ID t) db = Ok tt)
  ∧ ValidateProbeTargetRequest url_parse
      (mkTargetReq (tp_Name p) (tp_Module p) (tp_Target p) (tp_IntervalSeconds p) (tp_TimeoutSeconds p) (Some enabled) (tp_Notes p)
         (tp_Vantage p) (merged_options t req (tp_Module p)) None) = Ok tt
  ∧ tp_Enabled p = pt_Enabled t
  ∧ updated t req (tp_Vantage p) =
    with_enabled (match ur_Enabled req with
                  | Some b => if Bool.eqb b (pt_Enabled t =? 1) then pt_Enabled t else bool_int b
                  | None => pt_Enabled t
                  end) (with_params p t).
Proof.
  unfold update_params. intros H. apply rbind_ok in H as (v & Hv & H). apply rbind_ok in H as (dev & Hd & H).
  apply rbind_ok in H as ([] & Hval%valid_ok & H). apply rbind_ok in H as ([] & Hn & H). injection H as <- <-.
  cbn [tp_Name tp_Module tp_Target tp_IntervalSeconds tp_TimeoutSeconds tp_Notes tp_Vantage tp_Enabled]. split_and!; try done.
  - unfold new_vantage. destruct (ur_Vantage req); [by apply valid_ok|by injection Hv].
  - case_decide; [by left|by right].
  - unfold updated, with_enabled, with_params. cbn. f_equal. destruct (ur_DeviceID req) as [d|]; [|by injection Hd].
    destruct (0 <? d); [|by injection Hd]. unfold checkDeviceExists in Hd. destruct (device_exists d); cbn in Hd; [by injection Hd|done].
Qed.

Lemma on_target_fuse id f g ts : (∀ t, pt_ID (f t) = pt_ID t) → on_target id g (on_target id f ts) = on_target id (fun t => g (f t)) ts.
Proof.
  intros Hf. unfold on_target. rewrite map_map. apply map_ext. intros t. destruct (pt_ID t =? id) eqn:E; [by rewrite Hf, E|by rewrite E].
Qed.

Lemma on_target_ext id f g ts : (∀ t, t ∈ ts → pt_ID t = id → f t = g t) → on_target id f ts = on_target id g ts.
Proof.
  intros H. unfold on_target. apply map_ext_in. intros t Ht%list_elem_of_In. destruct (Z.eqb_spec (pt_ID t) id); [by apply H|done].
Qed.

(** An interval or timeout of zero, spelled out. *)
Definition asks_zero (req : UpdateProbeTargetRequest) : Prop := ur_IntervalSeconds req = Some 0 ∨ ur_TimeoutSeconds req = Some 0.

Lemma checks_iff t : target_checks t = true ↔
  pt_Module t ∈ ValidProbeModules ∧ 10 ≤ pt_IntervalSeconds t ≤ 86400 ∧ 1 ≤ pt_TimeoutSeconds t ≤ 60
  ∧ pt_LastStatus t ∈ "" :: probe_statuses ∧ pt_Source t ∈ [ProbeSourceManual; ProbeSourceAuto; ProbeSourceSystem].
Proof. unfold target_checks. rewrite !andb_true_iff, !bool_decide_eq_true, !Z.leb_le. naive_solver lia. Qed.

Lemma or_default_nonzero v d : v ≠ 0 → or_default v d = v.
Proof. intros. unfold or_default. by destruct (Z.eqb_spec v 0). Qed.

Lemma update_accepted t req db p enabled :
  targets_ok db → t ∈ pd_targets db → update_params url_parse device_exists t req db = Ok (p, enabled) →
  is_Some (UpdateProbeTarget (pt_ID t) p db) ∨ asks_zero req.
Proof.
  intros Hok Ht H. pose proof Hok as (Hid & Hn & Hall & _).
  apply update_params_spec in H as (_ & _ & Hname & Hv & _ & Hup).
  eapply list.Forall_forall in Hall; [|exact Ht]. destruct Hall as (_ & Hc). apply checks_iff in Hc as (_ & Ci & Ct & Cl & Cs).
  assert (tp_IntervalSeconds p = default (pt_IntervalSeconds t) (ur_IntervalSeconds req)) as Ei by (symmetry; apply (f_equal pt_IntervalSeconds Hup)).
  assert (tp_TimeoutSeconds p = default (pt_TimeoutSeconds t) (ur_TimeoutSeconds req)) as Et by (symmetry; apply (f_equal pt_TimeoutSeconds Hup)).
  destruct (decide (tp_IntervalSeconds p = 0)) as [Zi|Zi].
  { right. left. rewrite Zi in Ei. destruct (ur_IntervalSeconds req); cbn in Ei; [congruence|lia]. }
  destruct (decide (tp_TimeoutSeconds p = 0)) as [Zt|Zt].
  { right. right. rewrite Zt in Et. destruct (ur_TimeoutSeconds req); cbn in Et; [congruence|lia]. }
  left. apply validate_iff in Hv as (_ & _ & V3 & _ & V5 & V6 & _). cbn in V3, V5, V6. rewrite !or_default_nonzero in V5, V6 by done.
  unfold UpdateProbeTarget, GetProbeTarget. rewrite (find_id _ _ Hid Ht). cbn [mbind option_bind].
  assert (target_checks (with_params p t) = true) as ->.
  { apply checks_iff. cbn. apply bool_decide_eq_true in V3. unfold_bounds. split_and!; try done; try lia. }
  assert (name_free (tp_Name p) (pt_ID t) (pd_targets db) = true) as ->; [|done].
  destruct Hname as [En|Hf]; [|by apply name_free_of]. apply name_free_spec. intros u Hu Hne E. apply Hne. f_equal.
  apply (same_name (pd_targets db)); congruence.
Qed.

Lemma rbind_err {E A B} (r : result E A) (k : A → result E B) e : rbind r k = Err e → r = Err e ∨ ∃ a, k a = Err e.
Proof. destruct r; cbn; [right; by eexists|left; congruence]. Qed.

(** The checks never blame the schema. *)
Lemma update_params_err t req db : update_params url_parse device_exists t req db ≠ Err ErrConstraint.
Proof.
  assert (∀ A (r : result string A), valid r ≠ Err ErrConstraint) as Hval by (by intros A []).
  assert (∀ d, checkDeviceExists device_exists d ≠ Err ErrConstraint) as Hdev by (intros d; unfold checkDeviceExists; by case_match).
  intros H. unfold update_params in H. apply rbind_err in H as [H|[v H]]; [by destruct (ur_Vantage req); [apply Hval in H|]|].
  apply rbind_err in H as [H|[d H]].
  { destruct (ur_DeviceID req) as [d|]; [|done]. destruct (0 <? d); [|done]. apply rbind_err in H as [H|[]]; [by apply Hdev in H|done]. }
  apply rbind_err in H as [H|[? H]]; [by apply Hval in H|]. apply rbind_err in H as [H|[? H]]; [|done].
  case_decide; [done|]. unfold checkNameFree in H. repeat case_match; done.
Qed.

(** The outcome of an update. *)
Lemma update_outcome id req db : targets_ok db →
  match Update url_parse device_exists id req db with
  | (db', Ok resp) => ∃ t p enabled, let t' := updated t req (tp_Vantage p) in
      t ∈ pd_targets db ∧ pt_ID t = id ∧ update_params url_parse device_exists t req db = Ok (p, enabled)
      ∧ UpdateProbeTarget id p db ≠ None ∧ resp = toTargetResponse t'
      ∧ db' = set_targets (on_target id (fun _ => t') (pd_targets db)) db
  | (db', Err e) => db' = db ∧ (e = ErrConstraint → asks_zero req)
  end.
Proof.
  intros Hok. unfold Update. destruct (GetProbeTarget id db) as [t|] eqn:Hg; [|done]. apply find_in in Hg as [Ht <-%Z.eqb_eq].
  destruct (update_params _ _ t req db) as [[p enabled]|e] eqn:Hp.
  2: { split; [done|]. intros ->. by apply update_params_err in Hp. }
  pose proof (update_accepted _ _ _ _ _ Hok Ht Hp) as Hacc. pose proof (update_params_spec _ _ _ _ _ Hp) as (-> & _ & _ & _ & Een & Hup).
  destruct (UpdateProbeTarget (pt_ID t) p db) as [[db' t']|] eqn:Hu; [|split; [done|intros _; by destruct Hacc as [[]|]]].
  apply update_spec in Hu as Hs; [|done]. destruct Hs as (_ & _ & u & Hin & Eid & -> & Hts).
  assert (u = t) as -> by (by apply (same_id db)).
  assert (db' = set_targets (on_target (pt_ID t) (with_params p) (pd_targets db)) db) as ->.
  { unfold UpdateProbeTarget in Hu. apply bind_Some in Hu as (w & _ & Hu). destruct (_ && _); [|done]. by injection Hu as <- _. }
  assert (with_enabled (pt_Enabled t) (with_params p t) = with_params p t) as Esame
    by (unfold with_enabled, with_params; cbn; by rewrite Een).
  destruct (ur_Enabled req) as [b|] eqn:Eb; cbn [default from_option] in *; unfold id in *.
  2: rewrite eqb_reflx.
  1: destruct (Bool.eqb b (pt_Enabled t =? 1)) eqn:Eq.
  all: exists t, p; eexists; cbv zeta; rewrite Hup, ?Esame; split_and!; try done; try (by rewrite Hu).
  all: unfold ToggleProbeTargetEnabled; cbn [set_targets pd_targets]; rewrite ?on_target_fuse by done; unfold set_targets; cbn;
    f_equal; apply on_target_ext; intros u Hu' Eu; by assert (u = t) as -> by (by apply (same_id db)).
Qed.

(** * The invariant *)

(** Rows a user manages satisfy the rules. *)
Definition manual_valid (db : probe_db) : Prop :=
  ∀ t, t ∈ pd_targets db → of_source ProbeSourceManual t → row_valid t.

(** Results and certificates belong to a target. *)
Definition owned (db : probe_db) : Prop :=
  Forall (fun r => pr_TargetID r ∈ pt_ID <$> pd_targets db) (pd_results db)
  ∧ Forall (fun c => tc_TargetID c ∈ pt_ID <$> pd_targets db) (pd_certs db).

Definition service_inv (db : probe_db) : Prop := targets_ok db ∧ manual_valid db ∧ owned db.

(** The requests a client makes. *)
Inductive service_op :=
| OpCreate (req : ProbeTargetRequest)
| OpUpdate (id : Z) (req : UpdateProbeTargetRequest)
| OpDelete (id : Z).

Definition run_op (db : probe_db) (op : service_op) : probe_db :=
  match op with
  | OpCreate req => (Create url_parse device_exists req db).1
  | OpUpdate id req => (Update url_parse device_exists id req db).1
  | OpDelete id => (Delete id db).1
  end.

(** The text of a request comes from a JSON body. *)
Definition op_utf8 (op : service_op) : bool :=
  match op with
  | OpCreate req => options_utf8 (tr_Options req)
  | OpUpdate _ req => options_utf8 (ur_Options req)
  | OpDelete _ => true
  end.

Lemma create_outcome req db : targets_ok db →
  match Create url_parse device_exists req db with
  | (db', Ok resp) => ∃ p, let t := new_target (pd_seq db + 1) p ProbeSourceManual in
      create_params url_parse device_exists req db = Ok p ∧ resp = toTargetResponse t
      ∧ db' = mkProbeDb (pd_targets db ++ [t]) (pd_seq db + 1) (pd_results db) (pd_resultSeq db) (pd_certs db)
  | (db', Err e) => db' = db ∧ create_params url_parse device_exists req db = Err e
  end.
Proof.
  intros Hok. unfold Create. destruct (create_params _ _ req db) as [p|e] eqn:Hp; [|done].
  destruct (create_total _ _ _ Hok Hp) as [[db' t] Hc]. rewrite Hc. exists p. unfold CreateProbeTarget in Hc.
  destruct (_ && _); [|done]. by injection Hc as <- <-.
Qed.

Lemma create_inv req db : service_inv db → options_utf8 (tr_Options req) = true → service_inv (Create url_parse device_exists req db).1.
Proof.
  intros (Hok & Hm & Hres & Hcert) Hu. pose proof (create_outcome req db Hok) as H.
  destruct (Create _ _ req db) as [db' [resp|e]] eqn:HC; cbn [fst]; [|by destruct H as [-> _]].
  destruct H as (p & Hp & _ & ->). split_and!.
  - unfold Create in HC. rewrite Hp in HC. destruct (CreateProbeTarget p ProbeSourceManual db) as [[d t]|] eqn:Ec; [|done].
    injection HC as <- _. by apply create_spec in Ec as [? _].
  - intros t [Ht|Ht%list_elem_of_singleton]%elem_of_app Hsrc; [by apply Hm|]. subst t.
    apply create_params_spec in Hp as (Hv & _ & En & Em & Et & Ei & Eo & Enotes & Evan & Eopt & _).
    apply (stored_valid req); cbn [new_target pt_Vantage pt_Name pt_Module pt_Target pt_IntervalSeconds pt_TimeoutSeconds pt_Notes pt_Options];
      try done; rewrite ?En, ?Et, ?Ei, ?Eo, ?trim_space_idemp, ?or_default_idemp; try done.
    by eapply normalize_ok.
  - split; cbn [pd_results pd_certs pd_targets]; eapply Forall_impl; [|exact Hres| |exact Hcert]; intros x Hx; cbn beta in *;
      rewrite fmap_app; apply elem_of_app; by left.
Qed.

Lemma update_valid t req db p enabled :
  manual_valid db → t ∈ pd_targets db → of_source ProbeSourceManual t → options_utf8 (ur_Options req) = true →
  update_params url_parse device_exists t req db = Ok (p, enabled) → row_valid (updated t req (tp_Vantage p)).
Proof.
  intros Hm Ht Hs Hu Hp. destruct (row_valid_options _ (Hm t Ht Hs)) as (_ & Huo & _).
  apply update_params_spec in Hp as (-> & Hvan & _ & Hv & _ & Hup). rewrite Hup.
  eapply stored_valid; [exact Hv|..]; try done.
  - cbn [tr_Options]. unfold merged_options. destruct (ur_Options req) as [o|]; [done|]. by case_decide.
  - cbn. apply validate_iff in Hv. apply Hv.
  - rewrite <- Hup. cbn [tr_Options]. assert (tp_Module p = default (pt_Module t) (ur_Module req)) as ->; [|done].
    symmetry. apply (f_equal pt_Module Hup).
Qed.

Lemma update_inv id req db : service_inv db → options_utf8 (ur_Options req) = true → service_inv (Update url_parse device_exists id req db).1.
Proof.
  intros (Hok & Hm & Hres & Hcert) Hu. pose proof (update_outcome id req db Hok) as H.
  destruct (Update _ _ id req db) as [db' [resp|e]]; cbn [fst]; [|by destruct H as [-> _]].
  destruct H as (t & p & enabled & Ht & <- & Hp & Hacc & _ & ->).
  pose proof Hp as Hps. apply update_params_spec in Hps as (_ & _ & _ & _ & _ & Hup).
  assert (pt_ID <$> on_target (pt_ID t) (fun _ => updated t req (tp_Vantage p)) (pd_targets db) = pt_ID <$> pd_targets db) as Hids.
  { unfold on_target. change (map ?g ?l) with (g <$> l). rewrite <- list_fmap_compose. apply list_fmap_ext. intros _ u _. cbn.
    by destruct (Z.eqb_spec (pt_ID u) (pt_ID t)). }
  split_and!.
  - destruct (UpdateProbeTarget (pt_ID t) p db) as [[d u]|] eqn:Eu; [|done]. apply update_spec in Eu as (Hd & _ & w & Hw & Ew & _ & Hts); [|done].
    assert (w = t) as -> by (by apply (same_id db)). clear Ew Hw.
    pose proof (rewrite_ok (pt_ID t) (fun x => with_enabled (pt_Enabled (updated t req (tp_Vantage p))) (with_params p x)) db Hok) as Hrw.
    assert (on_target (pt_ID t) (fun _ => updated t req (tp_Vantage p)) (pd_targets db)
      = on_target (pt_ID t) (fun x => with_enabled (pt_Enabled (updated t req (tp_Vantage p))) (with_params p x)) (pd_targets db)) as ->.
    { apply on_target_ext. intros x Hx Ex. assert (x = t) as -> by (by apply (same_id db)). by rewrite Hup. }
    apply Hrw; [done|]. intros x Hx Ex. assert (x = t) as -> by (by apply (same_id db)). destruct Hd as (_ & Hn & Hall & _). rewrite Hts in *.
    assert (with_params p t ∈ on_target (pt_ID t) (with_params p) (pd_targets db)) as Hin.
    { apply elem_of_on_target. exists t. by rewrite Z.eqb_refl. }
    split.
    + eapply list.Forall_forall in Hall; [|exact Hin]. apply Hall.
    + intros v Hv Hne E. assert (v ∈ on_target (pt_ID t) (with_params p) (pd_targets db)) as Hv'.
      { apply elem_of_on_target. exists v. by rewrite (proj2 (Z.eqb_neq _ _)). }
      apply Hne. by rewrite (same_name _ _ _ Hn Hv' Hin E).
  - intros u (w & Hw & ->)%elem_of_on_target Hs. destruct (Z.eqb_spec (pt_ID w) (pt_ID t)); [|by apply Hm].
    by eapply update_valid.
  - split; cbn [pd_results pd_certs pd_targets set_targets]; by rewrite Hids.
Qed.

Lemma delete_inv id db : service_inv db → service_inv (Delete id db).1.
Proof.
  intros (Hok & Hm & Hres & Hcert). unfold Delete. destruct (GetProbeTarget id db); [|done]. cbn [fst].
  change (service_inv (DeleteProbeTarget id (DeleteProbeTLSCertsByTarget id (DeleteProbeResultsByTarget id db)))).
  assert (∀ x, x ∈ pt_ID <$> pd_targets db → x ≠ id →
    x ∈ pt_ID <$> List.filter (fun t => negb (pt_ID t =? id)) (pd_targets db)) as Hkeep.
  { intros x (t & -> & Ht)%list_elem_of_fmap Hne. apply list_elem_of_fmap_2, list_elem_of_In, filter_In. split; [by apply list_elem_of_In|].
    by rewrite (proj2 (Z.eqb_neq _ _)). }
  split_and!.
  - by apply (delete_ok id (DeleteProbeTLSCertsByTarget id (DeleteProbeResultsByTarget id db))).
  - intros t Ht Hs. apply Hm; [|done]. cbn in Ht. apply list_elem_of_In, filter_In in Ht as [Ht _]. by apply list_elem_of_In.
  - split; cbn [DeleteProbeTarget DeleteProbeTLSCertsByTarget DeleteProbeResultsByTarget set_targets set_certs set_results pd_results pd_certs
      pd_targets]; apply list.Forall_forall; intros x [Hx Hne%negb_true_iff%Z.eqb_neq]%list_elem_of_In%filter_In; apply Hkeep; try done;
      apply list_elem_of_In in Hx; [exact (proj1 (list.Forall_forall _ _) Hres x Hx)|exact (proj1 (list.Forall_forall _ _) Hcert x Hx)].
Qed.

Lemma run_ops_inv ops db : service_inv db → Forall (fun op => op_utf8 op = true) ops → service_inv (fold_left run_op ops db).
Proof.
  intros Hdb Hops. revert db Hdb. induction Hops as [|op ops Hop Hops IH]; intros db Hdb; [done|]. cbn [fold_left]. apply IH.
  destruct op; [by apply create_inv|by apply update_inv|by apply delete_inv].
Qed.

(** * Theorems *)

(** Validated options survive their storage: decoding the text written for
    an option block gives the block back, an empty block giving none. *)
Theorem options_roundtrip module opts :
  ValidateProbeOptions module opts = Ok tt → options_utf8 opts = true →
  parseProbeOptions (marshalProbeOptions opts) = normal_options opts.
Proof. intros Hv Hu. apply parse_marshal_options; [done|]. by eapply status_of_valid. Qed.

(** C25.  Whatever sequence of creations, updates and deletions clients ask for:
    every target a user manages passes the validation it passed when created,
    names stay unique, the schema's bounds hold, and every stored result and
    certificate belongs to a target that exists. *)
Theorem service_keeps_rules ops db :
  service_inv db → Forall (fun op => op_utf8 op = true) ops →
  let db' := fold_left run_op ops db in
  targets_ok db' ∧ owned db'
  ∧ ∀ t, t ∈ pd_targets db' → pt_Source t = ProbeSourceManual →
      ValidateProbeTargetRequest url_parse (row_request t (parseProbeOptions (pt_Options t))) = Ok tt.
Proof.
  intros Hdb Hops. destruct (run_ops_inv ops db Hdb Hops) as (Hok & Hm & Hown). cbv zeta. split_and!; [done|apply Hown..|].
  intros t Ht Hs. by apply row_valid_options, Hm.
Qed.

(** An update either fails and changes nothing, or rewrites the one row: the
    fields of the request (in canonical form), the others as they were, options
    dropped when the module changes; other targets, results and certificates
    stay.  The schema refuses a validated update only for an interval or timeout
    of zero. *)
Theorem update_exact id req db : targets_ok db →
  match Update url_parse device_exists id req db with
  | (db', Ok resp) => ∃ t v, t ∈ pd_targets db ∧ pt_ID t = id ∧ new_vantage t req v
      ∧ resp = toTargetResponse (updated t req v)
      ∧ pd_targets db' = on_target id (fun _ => updated t req v) (pd_targets db)
      ∧ pd_results db' = pd_results db ∧ pd_certs db' = pd_certs db
  | (db', Err e) => db' = db ∧ (e = ErrConstraint → asks_zero req)
  end.
Proof.
  intros Hok. pose proof (update_outcome id req db Hok) as H. destruct (Update _ _ id req db) as [db' [resp|e]]; [|done].
  destruct H as (t & p & enabled & Ht & Hid & Hp & _ & Hr & ->). exists t, (tp_Vantage p).
  apply update_params_spec in Hp as (_ & Hv & _). done.
Qed.

End rules.

(** * Witnesses *)

(** A parser that knows one reference. *)
Definition demo_url (s : string) : option url_parts :=
  if decide (s = "https://example.com/") then Some (mkUrl "https" "example.com" "example.com" "") else None.

Definition empty_db : probe_db := mkProbeDb [] 0 [] 0 [].

Definition keyword_options : ProbeOptions := mkOptions "HEAD" [200; 204] "ok <b>" "" false "" "" [] "" "" "".

Definition site_request : ProbeTargetRequest :=
  mkTargetReq " site " "http" "https://example.com/" 0 5 None "" "" (Some keyword_options) None.

Definition host_request : ProbeTargetRequest := mkTargetReq "host" "icmp" "10.0.0.1" 30 5 (Some false) "" "all" None None.

Definition no_change : UpdateProbeTargetRequest := mkUpdateReq None None None None None None None None None None.

Definition to_tcp : UpdateProbeTargetRequest :=
  mkUpdateReq None (Some "tcp") (Some "10.0.0.1:22") None None (Some true) None None None None.

Definition demo_ops : list service_op := [OpCreate site_request; OpCreate host_request; OpUpdate 2 to_tcp; OpDelete 1].

Definition demo_db : probe_db := fold_left (run_op demo_url (fun _ => false)) (take 2 demo_ops) empty_db.

Example demo_result :
  pd_targets (fold_left (run_op demo_url (fun _ => false)) demo_ops empty_db)
  = [mkProbeTarget 2 "host" "tcp" "10.0.0.1:22" 30 5 1 "" None "" f_zero "" "all" "" None "manual"].
Proof. vm_compute. reflexivity. Qed.

Lemma empty_inv url : service_inv url empty_db.
Proof.
  split; [unfold targets_ok; cbn; split_and!; [apply NoDup_nil_2|apply NoDup_nil_2|constructor|lia]|]. split; [|split; constructor].
  intros t Ht. by apply elem_of_nil in Ht.
Qed.

Lemma demo_ok : targets_ok demo_db.
Proof. apply (run_ops_inv demo_url (fun _ => false) (take 2 demo_ops) empty_db); [apply empty_inv|repeat constructor]. Qed.

Lemma options_roundtrip_witness :
  parseProbeOptions (marshalProbeOptions (Some keyword_options)) = Some keyword_options.
Proof. apply (options_roundtrip "http" (Some keyword_options)); vm_compute; reflexivity. Defined.

Lemma service_keeps_rules_witness :
  let db' := fold_left (run_op demo_url (fun _ => false)) demo_ops empty_db in
  targets_ok db' ∧ owned db'
  ∧ ∀ t, t ∈ pd_targets db' → pt_Source t = ProbeSourceManual →
      ValidateProbeTargetRequest demo_url (row_request t (parseProbeOptions (pt_Options t))) = Ok tt.
Proof. apply (service_keeps_rules demo_url (fun _ => false) demo_ops empty_db); [apply empty_inv|repeat constructor]. Defined.

Lemma update_exact_witness :
  match Update demo_url (fun _ => false) 2 to_tcp demo_db with
  | (db', Ok resp) => ∃ t v, t ∈ pd_targets demo_db ∧ pt_ID t = 2 ∧ new_vantage t to_tcp v
      ∧ resp = toTargetResponse (updated t to_tcp v)
      ∧ pd_targets db' = on_target 2 (fun _ => updated t to_tcp v) (pd_targets demo_db)
      ∧ pd_results db' = pd_results demo_db ∧ pd_certs db' = pd_certs demo_db
  | (db', Err e) => db' = demo_db ∧ (e = ErrConstraint → asks_zero to_tcp)
  end.
Proof. apply (update_exact demo_url (fun _ => false) 2 to_tcp demo_db). apply demo_ok. Defined.

(** An interval of zero means the default when a target is created; in an update
    it passes the same validation and the schema refuses the row. *)
Example zero_interval_refused :
  (Update demo_url (fun _ => false) 1 (mkUpdateReq None None None (Some 0) None None None None None None) demo_db).2 = Err ErrConstraint
  ∧ pt_IntervalSeconds <$> pd_targets demo_db = [60; 30].
Proof. split; vm_compute; reflexivity. Qed.

(** The port of an URL is only asked to be a number. *)
Definition far_port (s : string) : option url_parts := Some (mkUrl "http" "example.com:99999" "example.com" "99999").

Example url_port_unbounded :
  ValidateProbeTargetGrammar far_port "http" "http://example.com:99999/" = Ok tt
  ∧ ValidateProbeTargetGrammar far_port "tcp" "example.com:99999" = Err "target port must be 1-65535".
Proof. split; vm_compute; reflexivity. Qed.
