(* ===== verification/ProbeExecutor.v ===== *)
(** The execution of one probe (src/internal/service/probetarget/executor.go,
    executor_options.go, executor_dns.go): the module dispatcher and, per module,
    the reading of the network's answer into an outcome.

    The network is a record of answers ([net_world]): what a prober, a TLS
    handshake, a request, a connection, a resolver or a regular expression
    returns for its arguments, with the time it took.  Theorems hold for every
    such record. *)

From S2P Require Import Prelude NetAddr Cidr Db RateLimit ProbeStore ProbeRules.

Open Scope Z_scope.

(** * Answers of the network *)

(** [probe.Result] of a shared prober. *)
Record prober_result := mkProberResult { ps_Success : bool; ps_Latency : Z; ps_StatusCode : Z; ps_ErrorMessage : string }.

Record http_response := mkHttpResponse { hr_StatusCode : Z; hr_Body : result string string }.

Record net_world := mkWorld {
  w_probe : string → string → Z → result string prober_result;        (* Prober.Probe: module, target, timeout *)
  w_certs : string → Z → Z → list TLSCertRecord;                       (* certCollect: host, port, timeout *)
  w_request : string → string → option string;                        (* http.NewRequest: an error *)
  w_http : string → bool → string → Z → Z * result string http_response; (* client.Do, with the time taken *)
  w_dial : string → Z → Z * result string unit;
  w_write : string → string → option string;                          (* an error *)
  w_read : string → string * option string;                           (* the first bytes, and an error *)
  w_elapsed : string → Z;                                              (* time.Since(start) later in a run *)
  w_lookup : string → string → string → Z * (list string * option string); (* record, server, name: answers and error *)
  w_regex : string → string → result string bool;                     (* compile error, or the match *)
  w_url : string → option url_parts;
  w_quote : string → string;                                           (* the %q verb *)
  w_split_error : string → string                                      (* net.SplitHostPort's error *)
}.

(** * Outcomes *)

Record Outcome := mkOutcome_ {
  out_Status : string; out_Latency : Z; out_StatusCode : Z; out_ErrMsg : string;
  out_TLSVersion : string; out_CertNotAfter : string; out_CertTrusted : option bool; out_Certs : list TLSCertRecord
}.

Definition plain_outcome (status : string) (latency code : Z) (err : string) : Outcome :=
  mkOutcome_ status latency code err "" "" None [].

Definition classifyError (msg : string) : string :=
  let l := to_lower msg in
  if contains_str "timeout" l || contains_str "context deadline exceeded" l || contains_str "request canceled" l
  then "timeout" else "fail".

Definition outcomeFromResult (res : prober_result) : Outcome :=
  if ps_Success res then plain_outcome "success" (ps_Latency res) (ps_StatusCode res) ""
  else plain_outcome (classifyError (ps_ErrorMessage res)) (ps_Latency res) (ps_StatusCode res) (ps_ErrorMessage res).

(** The summary of a collected chain replaces the certificate fields. *)
Definition with_leaf (leaf : TLSCertRecord) (certs : list TLSCertRecord) (o : Outcome) : Outcome :=
  mkOutcome_ (out_Status o) (out_Latency o) (out_StatusCode o) (out_ErrMsg o) (ce_TLSVersion leaf) (ce_NotAfter leaf)
    (Some (ce_Trusted leaf)) certs.

Definition attachCerts (certs : list TLSCertRecord) (o : Outcome) : Outcome :=
  match certs with
  | leaf :: _ => if decide (ce_Error leaf = "") then with_leaf leaf certs o else o
  | [] => o
  end.

Definition error_cert (host : string) (port : Z) (err : string) : TLSCertRecord :=
  mkCert host port 0 "" "" "" "" "" "" "" "" "" "" "" "" "" "" 0 false false "" "" "" "" false err.

Definition statusExpected (expected : list Z) (code : Z) : bool :=
  match expected with [] => code <? 400 | _ => existsb (fun c => code =? c) expected end.

Definition intersects (want got : list string) : bool :=
  existsb (fun w => existsb (fun g => bool_decide (to_lower w = to_lower g)) got) want.

Definition format_list (l : list string) : string := "[" +:+ join " " l +:+ "]".

Definition resolveErr (err : option string) : string :=
  match err with
  | None => ""
  | Some e => if contains_str "no such host" e then "NXDOMAIN: no such host" else e
  end.

Section executor.
Context (w : net_world).

(** A match with the reason when it fails. *)
Definition matchPayload (mode pattern payload : string) : result string (bool * string) :=
  if decide (mode ∈ [""; ProbeKeywordContains]) then
    Ok (if contains_str pattern payload then (true, "") else (false, "body does not contain keyword"))
  else if decide (mode = ProbeKeywordNotContains) then
    Ok (if contains_str pattern payload then (false, "body contains forbidden keyword") else (true, ""))
  else if decide (mode = ProbeKeywordRegex) then
    match w_regex w pattern payload with
    | Err e => Err ("invalid regex: " +:+ e)
    | Ok true => Ok (true, "")
    | Ok false => Ok (false, "body does not match regex")
    end
  else Err ("unknown match mode " +:+ w_quote w mode).

(** The collector's list, never empty. *)
Definition collectCerts (host : string) (port timeout : Z) : TLSCertRecord * list TLSCertRecord :=
  match w_certs w host port timeout with
  | leaf :: rest => (leaf, leaf :: rest)
  | [] => let c := error_cert host port "tls handshake returned no records" in (c, [c])
  end.

(** The chain of an https target. *)
Definition withHTTPCerts (t : ProbeTarget) (timeout : Z) (o : Outcome) : Outcome :=
  match w_url w (pt_Target t) with
  | Some u =>
      if decide (u_Scheme u = "https") then
        let port := if decide (u_Port u = "") then 443 else default 443 (atoi (u_Port u)) in
        attachCerts (collectCerts (u_Hostname u) port timeout).2 o
      else o
  | None => o
  end.

Definition executeHTTP (t : ProbeTarget) (timeout : Z) : Outcome :=
  match w_probe w "http" (pt_Target t) timeout with
  | Err e => plain_outcome (classifyError e) 0 0 e
  | Ok res => withHTTPCerts t timeout (outcomeFromResult res)
  end.

Definition executeTLS (t : ProbeTarget) (timeout : Z) : Outcome :=
  match SplitHostPort (pt_Target t) with
  | None => plain_outcome "fail" 0 0 ("invalid target: " +:+ w_split_error w (pt_Target t))
  | Some (host, portStr) =>
      match atoi portStr with
      | None => plain_outcome "fail" 0 0 "invalid target port"
      | Some port =>
          let (leaf, certs) := collectCerts host port timeout in
          let latency := w_elapsed w (pt_Target t) in
          if decide (ce_Error leaf = "") then with_leaf leaf certs (plain_outcome "success" latency 0 "")
          else plain_outcome (classifyError (ce_Error leaf)) latency 0 (ce_Error leaf)
      end
  end.

Definition executeSimple (t : ProbeTarget) (module : string) (timeout : Z) : Outcome :=
  match w_probe w module (pt_Target t) timeout with
  | Err e => plain_outcome (classifyError e) 0 0 e
  | Ok res => outcomeFromResult res
  end.

(** The verdict on a response with options. *)
Definition http_verdict (opts : ProbeOptions) (method : string) (resp : http_response) : string * string :=
  if negb (statusExpected (o_ExpectedStatus opts) (hr_StatusCode resp))
  then ("fail", "http status " +:+ itoa (hr_StatusCode resp) +:+ " not in expected set")
  else if bool_decide (o_Keyword opts = "") || bool_decide (method = "HEAD") then ("success", "")
  else match hr_Body resp with
  | Err e => ("fail", "read body: " +:+ e)
  | Ok body =>
      match matchPayload (o_KeywordMode opts) (o_Keyword opts) body with
      | Err e => ("fail", e)
      | Ok (false, reason) => ("fail", reason)
      | Ok (true, _) => ("success", "")
      end
  end.

Definition executeHTTPOptions (t : ProbeTarget) (opts : ProbeOptions) (timeout : Z) : Outcome :=
  let method := if decide (o_Method opts = "HEAD") then "HEAD" else "GET" in
  match w_request w method (pt_Target t) with
  | Some e => plain_outcome "fail" 0 0 e
  | None =>
      match w_http w method (o_IgnoreTLSErrors opts) (pt_Target t) timeout with
      | (latency, Err e) => plain_outcome (classifyError e) latency 0 e
      | (latency, Ok resp) =>
          let (status, msg) := http_verdict opts method resp in
          withHTTPCerts t timeout (plain_outcome status latency (hr_StatusCode resp) msg)
      end
  end.

Definition executeTCPOptions (t : ProbeTarget) (opts : ProbeOptions) (timeout : Z) : Outcome :=
  match w_dial w (pt_Target t) timeout with
  | (latency, Err e) => plain_outcome (classifyError e) latency 0 e
  | (_, Ok _) =>
      let latency := w_elapsed w (pt_Target t) in
      match (if decide (o_Send opts = "") then None else w_write w (pt_Target t) (o_Send opts)) with
      | Some e => plain_outcome (classifyError e) latency 0 ("write payload: " +:+ e)
      | None =>
          if decide (o_Expect opts = "") then plain_outcome "success" latency 0 ""
          else
            let (buf, rerr) := w_read w (pt_Target t) in
            match buf, rerr with
            | EmptyString, Some e => plain_outcome (classifyError e) latency 0 ("read banner: " +:+ e)
            | _, _ =>
                match matchPayload (o_ExpectMode opts) (o_Expect opts) buf with
                | Err e => plain_outcome "fail" latency 0 e
                | Ok (false, reason) => plain_outcome "fail" latency 0 reason
                | Ok (true, _) => plain_outcome "success" latency 0 ""
                end
            end
      end
  end.

(** The address a pinned resolver is dialled at; empty is the system's. *)
Definition customResolver (resolver : string) : string :=
  match SplitHostPort resolver with
  | Some _ => resolver
  | None => if str_mem ":" resolver then "[" +:+ resolver +:+ "]:53" else resolver +:+ ":53"
  end.

Definition executeDNS (t : ProbeTarget) (timeout : Z) : Outcome :=
  let opts := parseProbeOptions (pt_Options t) in
  let record := match opts with
                | Some o => if decide (o_Record o = "") then ProbeRecordA else o_Record o
                | None => ProbeRecordA
                end in
  let resolver := match opts with Some o => trim_space (o_Resolver o) | None => "" end in
  let expectedIPs := match opts with Some o => o_ExpectedIPs o | None => [] end in
  let server := if decide (resolver = "") then "" else customResolver resolver in
  if negb (bool_decide (record ∈ [ProbeRecordA; ProbeRecordAAAA; ProbeRecordCNAME; ProbeRecordTXT]))
  then plain_outcome "fail" 0 0 ("unsupported dns record " +:+ record)
  else
    let '(elapsed, (addrs, err)) := w_lookup w record server (pt_Target t) in
    let fail := resolveErr err in
    if negb (bool_decide (fail = "")) then plain_outcome (classifyError fail) elapsed 0 fail
    else if set_list expectedIPs && bool_decide (record ∈ [ProbeRecordA; ProbeRecordAAAA]) && negb (intersects expectedIPs addrs)
    then plain_outcome "fail" elapsed 0
           ("resolved " +:+ format_list addrs +:+ " does not intersect expected_ips " +:+ format_list expectedIPs)
    else plain_outcome "success" elapsed 0 "".

Definition execute (t : ProbeTarget) : Outcome :=
  let timeout := pt_TimeoutSeconds t * nanos_per_second in
  let opts := parseProbeOptions (pt_Options t) in
  if decide (pt_Module t = "http") then
    match opts with Some o => executeHTTPOptions t o timeout | None => executeHTTP t timeout end
  else if decide (pt_Module t = "tls") then executeTLS t timeout
  else if decide (pt_Module t = "tcp") then
    match opts with Some o => executeTCPOptions t o timeout | None => executeSimple t "tcp" timeout end
  else if decide (pt_Module t = "icmp") then executeSimple t "icmp" timeout
  else if decide (pt_Module t = "dns") then executeDNS t timeout
  else plain_outcome "fail" 0 0 ("unknown module: " +:+ pt_Module t).

End executor.

(** * Properties *)

(** What the schema and the readers of a result rely on: a known status, no
    error text on success, a chain only with a clean leaf and its summary. *)
Definition outcome_ok (o : Outcome) : Prop :=
  out_Status o ∈ probe_statuses ∧ (out_Status o = "success" → out_ErrMsg o = "")
  ∧ match out_Certs o with
    | [] => True
    | leaf :: _ => ce_Error leaf = "" ∧ out_TLSVersion o = ce_TLSVersion leaf ∧ out_CertNotAfter o = ce_NotAfter leaf
                   ∧ out_CertTrusted o = Some (ce_Trusted leaf)
    end.

Lemma classify_status msg : classifyError msg ∈ ["fail"; "timeout"].
Proof. unfold classifyError. case_match; set_solver. Qed.

Lemma plain_ok status latency code err :
  status ∈ probe_statuses → (status = "success" → err = "") → outcome_ok (plain_outcome status latency code err).
Proof. done. Qed.

Lemma failed_ok msg latency code err : outcome_ok (plain_outcome (classifyError msg) latency code err).
Proof.
  pose proof (classify_status msg) as H. apply plain_ok; [unfold probe_statuses; set_solver|].
  intros E. rewrite E in H. apply elem_of_cons in H as [H|H]; [done|]. apply list_elem_of_singleton in H. done.
Qed.

Lemma result_ok res : outcome_ok (outcomeFromResult res).
Proof. unfold outcomeFromResult. destruct (ps_Success res); [apply plain_ok; [left|done]|apply failed_ok]. Qed.

Lemma attach_ok certs o : outcome_ok o → outcome_ok (attachCerts certs o).
Proof. intros (H1 & H2 & H3). unfold attachCerts. destruct certs as [|leaf certs]; [done|]. by case_decide. Qed.

Lemma withHTTPCerts_ok w t timeout o : outcome_ok o → outcome_ok (withHTTPCerts w t timeout o).
Proof.
  intros Ho. unfold withHTTPCerts. destruct (w_url w (pt_Target t)); [|done]. destruct (decide _); [|done]. by apply attach_ok.
Qed.

Lemma http_verdict_ok w opts method resp : let (status, msg) := http_verdict w opts method resp in
  status ∈ probe_statuses ∧ (status = "success" → msg = "").
Proof.
  unfold http_verdict. repeat (case_match; simplify_eq); (split; [unfold probe_statuses; set_solver|done]).
Qed.

Lemma execute_ok w t : outcome_ok (execute w t).
Proof.
  assert (∀ l c e, outcome_ok (plain_outcome "fail" l c e)) as Hf by (intros; apply plain_ok; [right; left|done]).
  assert (∀ l c, outcome_ok (plain_outcome "success" l c "")) as Hs by (intros; apply plain_ok; [left|done]).
  assert (∀ m timeout, outcome_ok (executeSimple w t m timeout)) as Hsimple.
  { intros. unfold executeSimple. destruct (w_probe _ _ _ _); [apply result_ok|apply failed_ok]. }
  unfold execute. cbv zeta. generalize (pt_TimeoutSeconds t * nanos_per_second). intros timeout.
  repeat destruct (decide _); [destruct (parseProbeOptions _) as [o|]| |destruct (parseProbeOptions _) as [o|]|..]; try done.
  - unfold executeHTTPOptions. destruct (w_request _ _ _); [done|]. destruct (w_http _ _ _ _ _) as [l [resp|er]]; [|apply failed_ok].
    pose proof (http_verdict_ok w o (if decide (o_Method o = "HEAD") then "HEAD" else "GET") resp) as H.
    destruct (http_verdict _ _ _ _) as [status msg]. apply withHTTPCerts_ok, plain_ok; apply H.
  - unfold executeHTTP. destruct (w_probe _ _ _ _); [apply withHTTPCerts_ok, result_ok|apply failed_ok].
  - unfold executeTLS. destruct (SplitHostPort _) as [[host port]|]; [|done]. destruct (atoi port); [|done].
    unfold collectCerts. destruct (w_certs _ _ _ _) as [|leaf certs]; cbn [ce_Error error_cert]; [by apply failed_ok|].
    destruct (decide (ce_Error leaf = "")); [|apply failed_ok]. split; [left|]. by split.
  - unfold executeTCPOptions. destruct (w_dial _ _ _) as [l [[]|er]]; [|apply failed_ok].
    destruct (if decide (o_Send o = "") then _ else _); [apply failed_ok|]. destruct (decide (o_Expect o = "")); [done|].
    destruct (w_read _ _) as [buf [er|]]; destruct buf as [|a buf]; try apply failed_ok; destruct (matchPayload _ _ _ _) as [[[] r]|]; done.
  - unfold executeDNS. destruct (negb _); [done|]. destruct (w_lookup _ _ _ _) as [l [addrs err]]. destruct (negb _); [apply failed_ok|].
    by destruct (_ && _).
Qed.
