(* ===== verification/ProbeEngine.v ===== *)
(** The probe engine (src/internal/service/probetarget/engine.go): due times,
    ticks, manual triggers and the recording of an outcome, and the ingestion of
    agents' results (dispatcher.go).

    A tick launches goroutines and waits for them, so a tick never overlaps the
    next one; manual triggers run beside it.  [step] is the interleaving
    semantics of launches, starts, triggers, completions and writes of other
    services to the tables.  The Prometheus gauges are left out. *)

From S2P Require Import Prelude Float64 Db ChangeDetect Transition DeviceStore Json ProbeStore ProbeRules ProbeService ProbeExecutor.

Open Scope Z_scope.

Record Engine := mkEngine {
  en_nextDue : gmap Z Z;
  en_inFlight : gset Z;
  en_transitions : transitionDetector
}.

Definition NewEngine (threshold : Z) : Engine := mkEngine ∅ ∅ (newTransitionDetector threshold).

Definition set_nextDue (m : gmap Z Z) (e : Engine) : Engine := mkEngine m (en_inFlight e) (en_transitions e).
Definition set_inFlight (s : gset Z) (e : Engine) : Engine := mkEngine (en_nextDue e) s (en_transitions e).
Definition set_transitions (d : transitionDetector) (e : Engine) : Engine := mkEngine (en_nextDue e) (en_inFlight e) d.

(** * Ticks *)

(** The center runs 'center' and 'all' plans. *)
Definition local_plan (t : ProbeTarget) : bool :=
  bool_decide (pt_Vantage t = ProbeVantageCenter) || bool_decide (pt_Vantage t = ProbeVantageAll).

Definition interval_ns (t : ProbeTarget) : Z := pt_IntervalSeconds t * nanos_per_second.

(** When a target is due: as planned, or at first sight by its last run. *)
Definition due_time (nextDue : gmap Z Z) (now : Z) (t : ProbeTarget) : Z :=
  match nextDue !! pt_ID t with
  | Some due => due
  | None => match pt_LastRunAt t with
            | Some lr => lr * nanos_per_second + interval_ns t
            | None => now
            end
  end.

Definition plan_target (now : Z) (acc : gmap Z Z * list ProbeTarget) (t : ProbeTarget) : gmap Z Z * list ProbeTarget :=
  let (nextDue, launched) := acc in
  if negb (local_plan t) then acc
  else
    let due := due_time nextDue now t in
    if now <? due then (<[pt_ID t := due]> nextDue, launched)
    else (<[pt_ID t := now + interval_ns t]> nextDue, launched ++ [t]).

(** The due times of the targets that are left, and the targets to launch. *)
Definition plan_tick (now : Z) (targets : list ProbeTarget) (nextDue : gmap Z Z) : gmap Z Z * list ProbeTarget :=
  let present : gset Z := list_to_set (pt_ID <$> targets) in
  fold_left (plan_target now) targets (filter (fun p => p.1 ∈ present) nextDue, []).

Definition tick (now : Z) (db : probe_db) (e : Engine) : Engine * list ProbeTarget :=
  let targets := ListEnabledProbeTargets db in
  let present : gset Z := list_to_set (pt_ID <$> targets) in
  let (nextDue, launched) := plan_tick now targets (en_nextDue e) in
  (mkEngine nextDue (en_inFlight e) (prune (en_transitions e) present), launched).

(** * Recording *)

Definition certTrustedDB (v : option bool) : Z := match v with None => -1 | Some b => bool_int b end.

(** [float64(d.Microseconds()) / 1000.0]. *)
Definition latency_ms (latency : Z) : f64 := f_div (f_of_Z (Z.quot latency 1000)) (f_of_Z 1000).

Definition cert_row (targetID : Z) (c : TLSCertRecord) : ProbeTlsCert :=
  mkTlsCert targetID (ce_Port c) (ce_CertIndex c) (ce_SubjectCN c) (ce_SubjectOrg c) (ce_Subject c) (ce_IssuerCN c)
    (ce_IssuerOrg c) (ce_Issuer c) (ce_SanDNS c) (ce_SanIP c) (ce_SanEmail c) (ce_Serial c) (ce_NotBefore c) (ce_NotAfter c)
    (ce_SigAlgorithm c) (ce_KeyAlgorithm c) (ce_KeyBits c) (bool_int (ce_IsCA c)) (bool_int (ce_SelfSigned c))
    (ce_FingerprintSHA256 c) (ce_PEM c) (ce_TLSVersion c) (ce_CipherSuite c) (bool_int (ce_Trusted c)) (ce_Error c).

Definition upsertCerts (targetID : Z) (certs : list TLSCertRecord) (db : probe_db) : probe_db :=
  fold_left (fun db c => CreateProbeTLSCert (cert_row targetID c) db) certs (DeleteProbeTLSCertsByTarget targetID db).

Definition result_row (t : ProbeTarget) (checkedAt : Z) (out : Outcome) (id : Z) : ProbeResult :=
  mkProbeResult id (pt_ID t) (out_Status out) (latency_ms (out_Latency out)) (out_StatusCode out) (out_ErrMsg out)
    (out_TLSVersion out) (out_CertNotAfter out) (certTrustedDB (out_CertTrusted out)) (format_RFC3339 checkedAt)
    ProbeVantageCenter.

(** The three writes; a refused one is logged. *)
Definition persist (t : ProbeTarget) (checkedAt : Z) (out : Outcome) (db : probe_db) : probe_db :=
  let db := default db (CreateProbeResult (result_row t checkedAt out) db) in
  let db := default db (SetProbeTargetLastResult (pt_ID t) (checkedAt / nanos_per_second) (out_Status out)
                          (latency_ms (out_Latency out)) (out_ErrMsg out) db) in
  match out_Certs out with [] => db | certs => upsertCerts (pt_ID t) certs db end.

Definition transition_event (t : ProbeTarget) (ct vantage status err : string) : ChangeEvent :=
  mkEvent ct EntityTypeProbeTarget "" (pt_ID t) None "" AnyNil
    (AnyJSON (Some (marshal (JObject [("error", JString err); ("module", JString (pt_Module t)); ("status", JString status);
       ("target", JString (pt_Target t)); ("target_name", JString (pt_Name t)); ("vantage", JString vantage)])))).

Section recorder.
Context {R : Type} `{!ChangeRecorder R}.

Record system := mkSystem { sy_engine : Engine; sy_db : probe_db; sy_recorder : option R }.

(** The state machine of the track and its event, when there is a recorder. *)
Definition observe_run (t : ProbeTarget) (vantage last status err : string) (s : system) : system :=
  match sy_recorder s with
  | None => s
  | Some r =>
      let (d, ct) := observe (en_transitions (sy_engine s)) (pt_ID t) vantage last status in
      mkSystem (set_transitions d (sy_engine s)) (sy_db s)
        (Some (if decide (ct = "") then r else Record_ r (transition_event t ct vantage status err)))
  end.

(** [LoadOrStore]: [None] is busy. *)
Definition begin_probe (t : ProbeTarget) (s : system) : option system :=
  if decide (pt_ID t ∈ en_inFlight (sy_engine s)) then None
  else Some (mkSystem (set_inFlight ({[pt_ID t]} ∪ en_inFlight (sy_engine s)) (sy_engine s)) (sy_db s) (sy_recorder s)).

(** The rest of [probeTarget] after the execution, the deferred release
    included. *)
Definition end_probe (t : ProbeTarget) (checkedAt : Z) (out : Outcome) (s : system) : system :=
  let s := mkSystem (sy_engine s) (persist t checkedAt out (sy_db s)) (sy_recorder s) in
  let s := observe_run t ProbeVantageCenter (pt_LastStatus t) (out_Status out) (out_ErrMsg out) s in
  mkSystem (set_inFlight (en_inFlight (sy_engine s) ∖ {[pt_ID t]}) (sy_engine s)) (sy_db s) (sy_recorder s).

Definition run_response (t : ProbeTarget) (checkedAt : Z) (out : Outcome) : ProbeResultResponse :=
  mkResultResp 0 (pt_ID t) (out_Status out) (latency_ms (out_Latency out)) (out_StatusCode out) (out_ErrMsg out)
    (out_TLSVersion out) (out_CertNotAfter out) (out_CertTrusted out) (format_RFC3339 checkedAt) "".

Inductive trigger_err := ErrNotFound | ErrProbeTargetDisabled | ErrProbeVantageNotLocal | ErrProbeBusy.

(** [probeTarget] without interference. *)
Definition probeTarget (w : net_world) (now : Z) (t : ProbeTarget) (s : system) : system * result trigger_err ProbeResultResponse :=
  match begin_probe t s with
  | None => (s, Err ErrProbeBusy)
  | Some s => let out := execute w t in (end_probe t now out s, Ok (run_response t now out))
  end.

(** The checks of [TriggerNow]. *)
Definition trigger_target (targetID : Z) (db : probe_db) : result trigger_err ProbeTarget :=
  match GetProbeTarget targetID db with
  | None => Err ErrNotFound
  | Some t =>
      if pt_Enabled t =? 0 then Err ErrProbeTargetDisabled
      else if negb (local_plan t) then Err ErrProbeVantageNotLocal
      else Ok t
  end.

Definition TriggerNow (w : net_world) (now targetID : Z) (s : system) : system * result trigger_err ProbeResultResponse :=
  match trigger_target targetID (sy_db s) with
  | Err e => (s, Err e)
  | Ok t => probeTarget w now t s
  end.

(** * Interleavings *)

(** A probe between its start and its completion. *)
Record run := mkRun { run_target : ProbeTarget; run_checkedAt : Z; run_ticked : bool }.

Record state := mkState {
  s_system : system;
  s_pending : list ProbeTarget;        (* launched by the tick, waiting for the semaphore *)
  s_running : list run
}.

Inductive event :=
| ETick (now : Z)
| EStart (id now : Z)
| ETrigger (id now : Z)
| EFinish (id : Z) (out : Outcome)
| EWrite (db : probe_db).

Definition ticked_runs (l : list run) : list run := List.filter run_ticked l.

Definition start_run (t : ProbeTarget) (now : Z) (ticked : bool) (st : state) : state :=
  match begin_probe t (s_system st) with
  | None => st
  | Some s => mkState s (s_pending st) (mkRun t now ticked :: s_running st)
  end.

(** The first element that satisfies [f], and the others. *)
Fixpoint take_first {A} (f : A → bool) (l : list A) : option (A * list A) :=
  match l with
  | [] => None
  | x :: l => if f x then Some (x, l) else '(y, l') ← take_first f l; Some (y, x :: l')
  end.

(** [None] is an event that cannot happen: a tick while the previous one waits,
    a start without a launch or a free slot, a completion without a run. *)
Definition step (maxConcurrency : nat) (st : state) (ev : event) : option state :=
  match ev with
  | ETick now =>
      match s_pending st, ticked_runs (s_running st) with
      | [], [] =>
          let s := s_system st in
          let (e, launched) := tick now (sy_db s) (sy_engine s) in
          Some (mkState (mkSystem e (sy_db s) (sy_recorder s)) launched (s_running st))
      | _, _ => None
      end
  | EStart id now =>
      if Nat.leb maxConcurrency (length (ticked_runs (s_running st))) then None
      else
        '(t, pending) ← take_first (fun t => pt_ID t =? id) (s_pending st);
        Some (start_run t now true (mkState (s_system st) pending (s_running st)))
  | ETrigger id now =>
      match trigger_target id (sy_db (s_system st)) with
      | Err _ => Some st
      | Ok t => Some (start_run t now false st)
      end
  | EFinish id out =>
      '(r, running) ← take_first (fun r => pt_ID (run_target r) =? id) (s_running st);
      Some (mkState (end_probe (run_target r) (run_checkedAt r) out (s_system st)) (s_pending st) running)
  | EWrite db => Some (mkState (mkSystem (sy_engine (s_system st)) db (sy_recorder (s_system st))) (s_pending st) (s_running st))
  end.

Fixpoint steps (maxConcurrency : nat) (st : state) (evs : list event) : option state :=
  match evs with
  | [] => Some st
  | ev :: evs => st ← step maxConcurrency st ev; steps maxConcurrency st evs
  end.

(** * Results of agents (dispatcher.go) *)

Record AgentResultReport := mkReport {
  ag_TargetID : Z; ag_Vantage : string; ag_Status : string; ag_LatencyMs : f64; ag_StatusCode : Z; ag_ErrorMessage : string;
  ag_TLSVersion : string; ag_CertNotAfter : string; ag_CertTrusted : option bool; ag_CheckedAt : string
}.

Definition agent_row (own : string) (r : AgentResultReport) (id : Z) : ProbeResult :=
  mkProbeResult id (ag_TargetID r) (ag_Status r) (ag_LatencyMs r) (ag_StatusCode r) (ag_ErrorMessage r) (ag_TLSVersion r)
    (ag_CertNotAfter r) (certTrustedDB (ag_CertTrusted r)) (ag_CheckedAt r) own.

(** One report: [None] is the refused insert that ends the batch. *)
Definition ingest_report (own : string) (r : AgentResultReport) (s : system) : option (system * bool) :=
  match GetProbeTarget (ag_TargetID r) (sy_db s) with
  | None => Some (s, false)
  | Some t =>
      db ← CreateProbeResult (agent_row own r) (sy_db s);
      Some (observe_run t own "" (ag_Status r) (ag_ErrorMessage r) (mkSystem (sy_engine s) db (sy_recorder s)), true)
  end.

Fixpoint ingest (own : string) (rs : list AgentResultReport) (accepted : Z) (s : system) : system * (Z * bool) :=
  match rs with
  | [] => (s, (accepted, true))
  | r :: rs =>
      match ingest_report own r s with
      | None => (s, (accepted, false))
      | Some (s, ok) => ingest own rs (if ok then accepted + 1 else accepted) s
      end
  end.

(** The number of accepted reports, and whether there was no error. *)
Definition IngestAgentResults (agentID : string) (rs : list AgentResultReport) (s : system) : system * (Z * bool) :=
  ingest (ProbeVantageAgentPrefix +:+ agentID) rs 0 s.

End recorder.

Arguments system R : clear implicits.
Arguments state R : clear implicits.
