(* ===== verification/ProbeEngineSpec.v ===== *)
(** Theorems on the probe engine: the cadence of ticks, mutual exclusion of runs,
    the recording of every run, and the track of an agent. *)

From S2P Require Import Prelude Float64 Db ChangeDetect Transition ProbeStore ProbeRules ProbeService ProbeExecutor ProbeEngine.

Open Scope Z_scope.

(** * Cadence *)

(** The times at which a sequence of ticks launches a target. *)
Fixpoint launches_of (id : Z) (ticks : list (Z * list ProbeTarget)) (nextDue : gmap Z Z) : list Z :=
  match ticks with
  | [] => []
  | (now, ts) :: ticks =>
      let (nextDue', launched) := plan_tick now ts nextDue in
      (if decide (id ∈ pt_ID <$> launched) then [now] else []) ++ launches_of id ticks nextDue'
  end.

(** The target is enabled, run by the center and has the interval. *)
Definition listed (id iv : Z) (tk : Z * list ProbeTarget) : Prop :=
  NoDup (pt_ID <$> tk.2) ∧ ∃ t, t ∈ tk.2 ∧ pt_ID t = id ∧ local_plan t = true ∧ interval_ns t = iv.

(** When it is due at the first tick. *)
Definition first_due (id : Z) (nextDue : gmap Z Z) (ticks : list (Z * list ProbeTarget)) (due : Z) : Prop :=
  match ticks with
  | [] => True
  | (now, ts) :: _ => ∃ t, t ∈ ts ∧ pt_ID t = id ∧ due_time nextDue now t = due
  end.

Lemma plan_others now ts acc id : id ∉ pt_ID <$> ts →
  (fold_left (plan_target now) ts acc).1 !! id = acc.1 !! id
  ∧ (id ∈ pt_ID <$> (fold_left (plan_target now) ts acc).2 ↔ id ∈ pt_ID <$> acc.2).
Proof.
  revert acc. induction ts as [|t ts IH]; intros [nd l] Hid; [done|]. cbn [fmap list_fmap] in Hid. apply not_elem_of_cons in Hid as [Hne Hid].
  cbn [fold_left]. destruct (IH (plan_target now (nd, l) t) Hid) as [-> ->]. unfold plan_target.
  destruct (negb (local_plan t)); [done|]. destruct (now <? due_time nd now t); cbn [fst snd]; rewrite lookup_insert_ne by done; [done|].
  split; [done|]. rewrite fmap_app, elem_of_app. cbn. rewrite list_elem_of_singleton. tauto.
Qed.

Lemma plan_tick_target now ts nd t :
  NoDup (pt_ID <$> ts) → t ∈ ts → local_plan t = true →
  let (nd', l) := plan_tick now ts nd in
  nd' !! pt_ID t = Some (if now <? due_time nd now t then due_time nd now t else now + interval_ns t)
  ∧ (pt_ID t ∈ pt_ID <$> l ↔ now <? due_time nd now t = false).
Proof.
  intros Hnd Ht Hloc. unfold plan_tick. set (present := list_to_set (pt_ID <$> ts) : gset Z).
  assert (pt_ID t ∈ present) as Hin by (apply elem_of_list_to_set; by apply list_elem_of_fmap_2).
  assert (filter (fun p : Z * Z => p.1 ∈ present) nd !! pt_ID t = nd !! pt_ID t) as Hfil.
  { destruct (nd !! pt_ID t) as [d|] eqn:E; [by apply map_lookup_filter_Some_2|by apply map_lookup_filter_None; left]. }
  generalize dependent (filter (fun p : Z * Z => p.1 ∈ present) nd). intros nd0 Hfil. clearbody present.
  apply list_elem_of_split in Ht as (ts1 & ts2 & ->). rewrite fmap_app in Hnd. cbn [fmap list_fmap] in Hnd.
  apply list.NoDup_app in Hnd as (_ & Hdis & [Hn2 _]%list.NoDup_cons). rewrite fold_left_app. cbn [fold_left].
  assert (pt_ID t ∉ pt_ID <$> ts1) as Hn1 by (intros H; apply (Hdis _ H); left).
  pose proof (plan_others now ts1 (nd0, []) _ Hn1) as [H1 H1l]. destruct (fold_left _ ts1 _) as [nd1 l1]. cbn [fst snd] in *.
  pose proof (plan_others now ts2 (plan_target now (nd1, l1) t) _ Hn2) as [H2 H2l].
  destruct (fold_left _ ts2 _) as [nd2 l2]. cbn [fst snd] in *. rewrite H2, H2l. unfold plan_target. rewrite Hloc. cbn [negb].
  assert (due_time nd1 now t = due_time nd now t) as -> by (unfold due_time; by rewrite H1, Hfil).
  destruct (now <? due_time nd now t); cbn [fst snd]; rewrite lookup_insert_eq.
  - split; [done|]. rewrite H1l. cbn. split; [by intros ?%elem_of_nil|done].
  - split; [done|]. split; [done|]. intros _. rewrite fmap_app, elem_of_app. right. left.
Qed.

(** The contract: launch at the first tick at or after the due time, then a full
    interval later. *)
Fixpoint greedy (iv due : Z) (times : list Z) : list Z :=
  match times with
  | [] => []
  | now :: times => if now <? due then greedy iv due times else now :: greedy iv (now + iv) times
  end.

Lemma launches_greedy id iv ticks nd due :
  Forall (listed id iv) ticks → first_due id nd ticks due → launches_of id ticks nd = greedy iv due ticks.*1.
Proof.
  intros Hl. revert nd due. induction Hl as [|[now ts] ticks (Hnd & t & Ht & <- & Hloc & <-) Hl IH]; intros nd due Hdue; [done|].
  destruct Hdue as (t' & Ht' & Eid & <-). cbn [launches_of fmap list_fmap greedy fst snd].
  assert (t' = t) as -> by (pose proof (find_id _ _ Hnd Ht) as H1; pose proof (find_id _ _ Hnd Ht') as H2; rewrite Eid in H2; congruence).
  pose proof (plan_tick_target now ts nd t Hnd Ht Hloc) as H. destruct (plan_tick now ts nd) as [nd' l]. destruct H as [Hnext Hin].
  assert (∀ d, nd' !! pt_ID t = Some d → first_due (pt_ID t) nd' ticks d) as Hfirst.
  { intros d Hd. destruct Hl as [|[now' ts'] ticks' (_ & u & Hu & Hid & _)]; [done|]. exists u. split_and!; [done|done|].
    unfold due_time. by rewrite Hid, Hd. }
  destruct (now <? due_time nd now t).
  - rewrite decide_False by (intros ?%Hin; done). by apply IH, Hfirst.
  - rewrite decide_True by (by apply Hin). cbn [app]. f_equal. by apply IH, Hfirst.
Qed.

Lemma greedy_from iv due times a : a ∈ greedy iv due times → 0 ≤ iv → due ≤ a ∧ a ∈ times.
Proof.
  revert due. induction times as [|now times IH]; intros due Ha Hiv; cbn in Ha; [by apply elem_of_nil in Ha|].
  destruct (Z.ltb_spec now due) as [Hlt|Hge].
  - destruct (IH _ Ha Hiv). split; [done|by right].
  - apply elem_of_cons in Ha as [->|Ha]; [split; [done|left]|]. destruct (IH _ Ha Hiv). split; [lia|by right].
Qed.

Lemma greedy_spaced iv due times i a b : 0 ≤ iv →
  greedy iv due times !! i = Some a → greedy iv due times !! S i = Some b → a + iv ≤ b.
Proof.
  intros Hiv. revert due i. induction times as [|now times IH]; intros due i Ha Hb; cbn in Ha, Hb; [done|].
  destruct (now <? due); [by eapply IH|]. destruct i as [|i]; cbn in Ha, Hb; [|by eapply IH].
  injection Ha as <-. destruct (greedy_from iv (now + iv) times b) as [? _]; [by eapply list_elem_of_lookup_2|done|done].
Qed.

Lemma greedy_covers iv due times now : 0 < iv → Sorted.StronglySorted Z.le times → now ∈ times → due ≤ now →
  ∃ a, a ∈ greedy iv due times ∧ a ≤ now < a + iv.
Proof.
  intros Hiv Hs. revert due. induction Hs as [|x times Hs IH Hx]; intros due Hin Hdue; [by apply elem_of_nil in Hin|].
  cbn [greedy]. apply elem_of_cons in Hin as [->|Hin].
  - destruct (Z.ltb_spec x due); [lia|]. exists x. split; [left|lia].
  - destruct (Z.ltb_spec x due) as [Hlt|Hge]; [by apply IH|]. rewrite list.Forall_forall in Hx. specialize (Hx now Hin).
    destruct (decide (x + iv ≤ now)) as [Hle|Hgt].
    + destruct (IH (x + iv) Hin Hle) as (a & Ha & ?). exists a. split; [by right|done].
    + exists x. split; [left|lia].
Qed.

(** C27.  As long as a target is enabled and run by the center with one interval,
    its launches are at least an interval apart and not before it is due, and at
    every tick from then on it was launched less than an interval ago: no tick
    is late by more than the time between ticks. *)
Theorem tick_cadence id iv ticks nd due :
  0 < iv → Sorted.StronglySorted Z.le ticks.*1 → Forall (listed id iv) ticks → first_due id nd ticks due →
  let ls := launches_of id ticks nd in
  (∀ i a b, ls !! i = Some a → ls !! S i = Some b → a + iv ≤ b)
  ∧ (∀ a, a ∈ ls → due ≤ a ∧ a ∈ ticks.*1)
  ∧ ∀ now, now ∈ ticks.*1 → due ≤ now → ∃ a, a ∈ ls ∧ a ≤ now < a + iv.
Proof.
  intros Hiv Hs Hl Hd. rewrite (launches_greedy id iv ticks nd due Hl Hd). cbv zeta. split_and!.
  - intros i a b. apply greedy_spaced. lia.
  - intros a Ha. eapply greedy_from; [done|lia].
  - intros now Hin Hdue. by apply greedy_covers.
Qed.

(** * Runs *)

Section runs.
Context {R : Type} `{!ChangeRecorder R}.

Definition run_id (r : run) : Z := pt_ID (run_target r).

(** One run per target, all of them and nothing else in flight, and no more
    scheduled runs than the bound. *)
Definition runs_ok (maxc : nat) (st : state R) : Prop :=
  NoDup (run_id <$> s_running st) ∧ en_inFlight (sy_engine (s_system st)) = list_to_set (run_id <$> s_running st)
  ∧ (length (ticked_runs (s_running st)) ≤ maxc)%nat.

Lemma take_first_spec {A} (f : A → bool) l x l' :
  take_first f l = Some (x, l') → f x = true ∧ ∃ l1 l2, l = l1 ++ x :: l2 ∧ l' = l1 ++ l2.
Proof.
  revert l'. induction l as [|y l IH]; intros l'; cbn; [done|]. destruct (f y) eqn:E.
  - intros [= <- <-]. split; [done|]. by exists [], l.
  - intros ([z l2] & Hz & [= -> <-])%bind_Some. destruct (IH _ Hz) as (Hf & l1 & l3 & -> & ->). split; [done|]. by exists (y :: l1), l3.
Qed.

Lemma start_ok maxc t now ticked (st : state R) :
  runs_ok maxc st → (ticked = true → (length (ticked_runs (s_running st)) < maxc)%nat) → runs_ok maxc (start_run t now ticked st).
Proof.
  intros (Hn & Hf & Hc) Hlt. unfold start_run, begin_probe. case_decide as Hd; [done|]. unfold runs_ok. cbn. split_and!.
  - apply list.NoDup_cons. split; [|done]. intros Hin. apply Hd. rewrite Hf. by apply elem_of_list_to_set.
  - by rewrite Hf.
  - destruct ticked; cbn; [by apply Hlt|done].
Qed.

Lemma end_probe_inFlight t at_ out (s : system R) :
  en_inFlight (sy_engine (end_probe t at_ out s)) = en_inFlight (sy_engine s) ∖ {[pt_ID t]}.
Proof.
  unfold end_probe, observe_run. cbn [sy_engine sy_recorder]. destruct (sy_recorder s); [|done]. by destruct (observe _ _ _ _ _).
Qed.

Lemma step_ok maxc (st st' : state R) ev : runs_ok maxc st → step maxc st ev = Some st' → runs_ok maxc st'.
Proof.
  intros Hok H. pose proof Hok as (Hn & Hf & Hc). destruct ev as [now|id now|id now|id out|db]; cbn [step] in H.
  - destruct (s_pending st); [|done]. destruct (ticked_runs (s_running st)) eqn:E; [|done]. destruct (tick _ _ _) as [e l] eqn:Et.
    injection H as <-. unfold runs_ok. cbn [s_running s_system sy_engine]. rewrite E. split_and!; [done| |cbn; lia].
    unfold tick in Et. destruct (plan_tick _ _ _). by injection Et as <- _.
  - destruct (Nat.leb_spec maxc (length (ticked_runs (s_running st)))) as [|Hlt]; [done|].
    apply bind_Some in H as ([t p] & _ & H). injection H as <-. by apply start_ok.
  - destruct (trigger_target _ _) as [t|]; injection H as <-; [by apply start_ok|done].
  - apply bind_Some in H as ([r l] & Hr & H). injection H as <-. apply take_first_spec in Hr as (<-%Z.eqb_eq & l1 & l2 & E & ->).
    unfold runs_ok. cbn [s_running s_system]. rewrite end_probe_inFlight. rewrite E in *. unfold ticked_runs in *.
    rewrite List.filter_app in *. rewrite !fmap_app in *. cbn [fmap list_fmap List.filter] in *. split_and!.
    + apply list.NoDup_app in Hn as (H1 & H2 & [H3 H4]%list.NoDup_cons). apply list.NoDup_app. split_and!; [done| |done].
      intros x Hx Hx2. apply (H2 x Hx). by right.
    + rewrite Hf. rewrite list_to_set_app_L, list_to_set_cons, list_to_set_app_L.
      apply list.NoDup_app in Hn as (H1 & H2 & [H3 H4]%list.NoDup_cons).
      assert (run_id r ∉ run_id <$> l1) as H5 by (intros Hx; apply (H2 _ Hx); left).
      change (pt_ID (run_target r)) with (run_id r). apply set_eq. intros x.
      rewrite elem_of_difference, !elem_of_union, !elem_of_singleton, !elem_of_list_to_set. split; [tauto|].
      intros Hx. split; [tauto|]. intros ->. tauto.
    + rewrite !length_app in *. destruct (run_ticked r); cbn in *; lia.
  - by injection H as <-.
Qed.

(** C26.  Under every interleaving of ticks, starts, manual triggers, completions
    and table writes: no target has two runs at a time, the guard holds exactly
    the targets that run (a completed run frees its target), and scheduled runs
    stay within the concurrency bound. *)
Theorem one_run_per_target maxc (s : system R) evs st :
  en_inFlight (sy_engine s) = ∅ → steps maxc (mkState s [] []) evs = Some st →
  NoDup (run_id <$> s_running st) ∧ en_inFlight (sy_engine (s_system st)) = list_to_set (run_id <$> s_running st)
  ∧ (length (ticked_runs (s_running st)) ≤ maxc)%nat.
Proof.
  intros Hs. assert (runs_ok maxc (mkState s [] [])) as Hok by (split_and!; [apply NoDup_nil_2|done|cbn; lia]).
  revert Hok. generalize (mkState s [] []). induction evs as [|ev evs IH]; intros st0 Hok H; cbn [steps] in H; [by injection H as <-|].
  apply bind_Some in H as (st1 & H1 & H2). eapply IH; [by eapply step_ok|done].
Qed.

(** * Recording *)

Lemma certs_upserted id certs db :
  upsertCerts id certs db = set_certs (pd_certs (DeleteProbeTLSCertsByTarget id db) ++ (cert_row id <$> certs)) db.
Proof.
  unfold upsertCerts. assert (∀ d, fold_left (fun d c => CreateProbeTLSCert (cert_row id c) d) certs d
    = set_certs (pd_certs d ++ (cert_row id <$> certs)) d) as H; [|by rewrite H].
  induction certs as [|c certs IH]; intros d; cbn [fold_left fmap list_fmap].
  - rewrite app_nil_r. by destruct d.
  - rewrite IH. unfold CreateProbeTLSCert, set_certs. cbn. by rewrite <- app_assoc.
Qed.

(** The tables after a recorded run. *)
Definition recorded (t : ProbeTarget) (at_ : Z) (out : Outcome) (db : probe_db) : probe_db :=
  mkProbeDb
    (on_target (pt_ID t) (with_last (at_ / nanos_per_second) (out_Status out) (latency_ms (out_Latency out)) (out_ErrMsg out)) (pd_targets db))
    (pd_seq db)
    (pd_results db ++ [result_row t at_ out (pd_resultSeq db + 1)]) (pd_resultSeq db + 1)
    match out_Certs out with
    | [] => pd_certs db
    | certs => List.filter (fun c => negb (tc_TargetID c =? pt_ID t)) (pd_certs db) ++ (cert_row (pt_ID t) <$> certs)
    end.

Lemma persist_recorded t at_ out db : outcome_ok out → persist t at_ out db = recorded t at_ out db.
Proof.
  intros (Hst & _). assert (out_Status out ∈ "" :: probe_statuses) as Hst' by (by right). unfold persist, CreateProbeResult.
  cbn [result_row pr_Status pr_CertTrusted]. rewrite bool_decide_eq_true_2 by done.
  assert ((-1 <=? certTrustedDB (out_CertTrusted out)) && (certTrustedDB (out_CertTrusted out) <=? 1) = true) as Ht
    by (by destruct (out_CertTrusted out) as [[]|]).
  rewrite <- andb_assoc, Ht. cbn [andb default from_option]. unfold id at 1. unfold SetProbeTargetLastResult. rewrite bool_decide_eq_true_2 by done.
  cbn [orb default from_option]. unfold recorded. destruct (out_Certs out) as [|c certs]; [done|]. rewrite certs_upserted. done.
Qed.

(** Whatever the network answers, a run is recorded: one row in the series of
    the center's track, the last result of the target, its chain replaced when one
    was collected, and nothing else in the tables; the target is free again
    afterwards.  A target that already runs is refused without a trace. *)
Theorem probe_recorded w now t (s : system R) :
  match probeTarget w now t s with
  | (s', Ok resp) =>
      pt_ID t ∉ en_inFlight (sy_engine s) ∧ en_inFlight (sy_engine s') = en_inFlight (sy_engine s)
      ∧ resp = run_response t now (execute w t) ∧ rr_Status resp ∈ probe_statuses
      ∧ sy_db s' = recorded t now (execute w t) (sy_db s)
  | (s', Err e) => e = ErrProbeBusy ∧ s' = s ∧ pt_ID t ∈ en_inFlight (sy_engine s)
  end.
Proof.
  pose proof (execute_ok w t) as Hok. unfold probeTarget, begin_probe. case_decide as Hd; [done|]. rewrite end_probe_inFlight. cbn [sy_engine en_inFlight set_inFlight].
  split_and!; [done|set_solver|done|apply Hok|]. unfold end_probe. cbn [sy_db]. rewrite persist_recorded by done.
  unfold observe_run. cbn [sy_recorder sy_db sy_engine]. destruct (sy_recorder s); [|done]. by destruct (observe _ _ _ _ _).
Qed.

(** * The track of an agent *)

Lemma observe_others d id v last status d' ct id' v' :
  observe d id v last status = (d', ct) → v' ≠ v → td_states d' !! (id', v') = td_states d !! (id', v').
Proof.
  unfold observe. intros H Hne. repeat case_match; simplify_eq; cbn; by rewrite lookup_insert_ne by congruence.
Qed.

Lemma observe_run_db t v last status err (s : system R) : sy_db (observe_run t v last status err s) = sy_db s.
Proof. unfold observe_run. destruct (sy_recorder s); [|done]. by destruct (observe _ _ _ _ _). Qed.

Lemma observe_run_others t v last status err (s : system R) id v' : v' ≠ v →
  td_states (en_transitions (sy_engine (observe_run t v last status err s))) !! (id, v')
  = td_states (en_transitions (sy_engine s)) !! (id, v').
Proof.
  intros Hne. unfold observe_run. destruct (sy_recorder s); [|done]. destruct (observe _ _ _ _ _) as [d ct] eqn:E. cbn.
  by eapply observe_others.
Qed.

(** The rows a batch adds: the reports on known targets, up to the first the
    schema refuses. *)
Fixpoint accepted_reports (ts : list ProbeTarget) (rs : list AgentResultReport) : list AgentResultReport * bool :=
  match rs with
  | [] => ([], true)
  | r :: rs =>
      if negb (existsb (fun t => pt_ID t =? ag_TargetID r) ts) then accepted_reports ts rs
      else if decide (ag_Status r ∈ probe_statuses) then let (l, ok) := accepted_reports ts rs in (r :: l, ok)
      else ([], false)
  end.

Fixpoint agent_rows (own : string) (seq : Z) (rs : list AgentResultReport) : list ProbeResult :=
  match rs with [] => [] | r :: rs => agent_row own r (seq + 1) :: agent_rows own (seq + 1) rs end.

Lemma find_existsb {A} (f : A → bool) l : (match List.find f l with Some _ => true | None => false end) = existsb f l.
Proof. induction l as [|x l IH]; [done|]. cbn. by destruct (f x). Qed.

Lemma ingest_spec own rs n (s : system R) :
  let (l, ok) := accepted_reports (pd_targets (sy_db s)) rs in
  let '(s', (k, ok')) := ingest own rs n s in
  ok' = ok ∧ k = n + Z.of_nat (length l)
  ∧ sy_db s' = mkProbeDb (pd_targets (sy_db s)) (pd_seq (sy_db s)) (pd_results (sy_db s) ++ agent_rows own (pd_resultSeq (sy_db s)) l)
                 (pd_resultSeq (sy_db s) + Z.of_nat (length l)) (pd_certs (sy_db s))
  ∧ en_nextDue (sy_engine s') = en_nextDue (sy_engine s) ∧ en_inFlight (sy_engine s') = en_inFlight (sy_engine s)
  ∧ ∀ id v, v ≠ own → td_states (en_transitions (sy_engine s')) !! (id, v) = td_states (en_transitions (sy_engine s)) !! (id, v).
Proof.
  revert n s. induction rs as [|r rs IH]; intros n s; cbn [accepted_reports ingest].
  { split_and!; [done|cbn; lia| |done..]. cbn. rewrite app_nil_r, Z.add_0_r. by destruct (sy_db s). }
  unfold ingest_report, GetProbeTarget. pose proof (find_existsb (fun t => pt_ID t =? ag_TargetID r) (pd_targets (sy_db s))) as Hex.
  destruct (List.find _ _) as [t|]; rewrite <- Hex; cbn [negb]; [|apply IH]. unfold CreateProbeResult. cbn [agent_row pr_Status pr_CertTrusted].
  assert ((-1 <=? certTrustedDB (ag_CertTrusted r)) && (certTrustedDB (ag_CertTrusted r) <=? 1) = true) as Ht
    by (by destruct (ag_CertTrusted r) as [[]|]). rewrite <- andb_assoc, Ht, andb_true_r.
  destruct (decide (ag_Status r ∈ probe_statuses)) as [Hst|Hst].
  2: { rewrite bool_decide_eq_false_2 by done. cbn. split_and!; [done|lia| |done..]. rewrite app_nil_r, Z.add_0_r. by destruct (sy_db s). }
  rewrite bool_decide_eq_true_2 by done. cbn [mbind option_bind].
  set (s1 := observe_run t own "" (ag_Status r) (ag_ErrorMessage r) _). specialize (IH (n + 1) s1).
  assert (sy_db s1 = mkProbeDb (pd_targets (sy_db s)) (pd_seq (sy_db s)) (pd_results (sy_db s) ++ [agent_row own r (pd_resultSeq (sy_db s) + 1)])
    (pd_resultSeq (sy_db s) + 1) (pd_certs (sy_db s))) as Hdb by (unfold s1; by rewrite observe_run_db).
  assert (en_nextDue (sy_engine s1) = en_nextDue (sy_engine s) ∧ en_inFlight (sy_engine s1) = en_inFlight (sy_engine s)) as [Hnd Hfl].
  { unfold s1, observe_run. cbn. destruct (sy_recorder s); [|done]. by destruct (observe _ _ _ _ _). }
  rewrite Hdb in IH. cbn [pd_targets pd_seq pd_results pd_resultSeq pd_certs] in IH.
  destruct (accepted_reports _ rs) as [l ok]. destruct (ingest own rs (n + 1) s1) as [s' [k ok']].
  destruct IH as (-> & -> & Hdb' & Hnd' & Hfl' & Htr). rewrite Hnd in Hnd'. rewrite Hfl in Hfl'. split_and!; [done|cbn [length]; lia| |done|done|].
  - rewrite Hdb'. cbn [agent_rows length]. rewrite <- app_assoc. f_equal. lia.
  - intros id v Hv. rewrite Htr by done. unfold s1. by rewrite observe_run_others by done.
Qed.

(** An agent writes only its own track: a batch appends one row, stamped with
    the agent's vantage whatever the payload claims, per report on a known target
    up to the first report with an invalid status; targets, certificates, due
    times and the state machines of all other tracks are as before. *)
Theorem agent_own_track agentID rs (s : system R) :
  let own := ProbeVantageAgentPrefix +:+ agentID in
  let (l, ok) := accepted_reports (pd_targets (sy_db s)) rs in
  let '(s', (k, ok')) := IngestAgentResults agentID rs s in
  ok' = ok ∧ k = Z.of_nat (length l)
  ∧ pd_targets (sy_db s') = pd_targets (sy_db s) ∧ pd_certs (sy_db s') = pd_certs (sy_db s)
  ∧ pd_results (sy_db s') = pd_results (sy_db s) ++ agent_rows own (pd_resultSeq (sy_db s)) l
  ∧ (∀ row, row ∈ agent_rows own (pd_resultSeq (sy_db s)) l → pr_Vantage row = own)
  ∧ en_nextDue (sy_engine s') = en_nextDue (sy_engine s)
  ∧ ∀ id v, v ≠ own → td_states (en_transitions (sy_engine s')) !! (id, v) = td_states (en_transitions (sy_engine s)) !! (id, v).
Proof.
  cbv zeta. unfold IngestAgentResults. set (own := ProbeVantageAgentPrefix +:+ agentID). pose proof (ingest_spec own rs 0 s) as H.
  destruct (accepted_reports _ rs) as [l ok]. destruct (ingest own rs 0 s) as [s' [k ok']]. destruct H as (-> & -> & -> & Hnd & _ & Htr).
  split_and!; try done. generalize (pd_resultSeq (sy_db s)). induction l as [|r l IH]; intros q row; cbn; [by intros ?%elem_of_nil|].
  intros [->|Hrow]%elem_of_cons; [done|]. by eapply IH.
Qed.

End runs.

(** * Witnesses *)

Definition pinged (id iv : Z) : ProbeTarget :=
  mkProbeTarget id ("t" +:+ itoa id) "icmp" "10.0.0.1" iv 5 1 "" None "" f_zero "" "center" "" None "manual".

Definition at_seconds (l : list Z) : list (Z * list ProbeTarget) :=
  (fun x => (x * nanos_per_second, [pinged 1 20; pinged 2 60])) <$> l.

Example launch_times :
  launches_of 1 (at_seconds [0; 10; 20; 31; 40; 51; 60]) ∅ = [0; 20 * nanos_per_second; 40 * nanos_per_second; 60 * nanos_per_second]
  ∧ launches_of 2 (at_seconds [0; 10; 20; 31; 40; 51; 60]) ∅ = [0; 60 * nanos_per_second].
Proof. split; vm_compute; reflexivity. Qed.

Lemma tick_cadence_witness :
  let ls := launches_of 1 (at_seconds [0; 10; 20; 31]) ∅ in
  (∀ i a b, ls !! i = Some a → ls !! S i = Some b → a + 20 * nanos_per_second ≤ b)
  ∧ (∀ a, a ∈ ls → 0 ≤ a ∧ a ∈ (at_seconds [0; 10; 20; 31]).*1)
  ∧ ∀ now, now ∈ (at_seconds [0; 10; 20; 31]).*1 → 0 ≤ now → ∃ a, a ∈ ls ∧ a ≤ now < a + 20 * nanos_per_second.
Proof.
  apply (tick_cadence 1 (20 * nanos_per_second) (at_seconds [0; 10; 20; 31]) ∅ 0).
  - vm_compute. reflexivity.
  - vm_compute. repeat constructor; discriminate.
  - assert (∀ x, listed 1 (20 * nanos_per_second) (x * nanos_per_second, [pinged 1 20; pinged 2 60])) as H.
    { intros x. split; [refine (bool_decide_unpack _ _); vm_compute; exact I|]. exists (pinged 1 20). split; [left|]. done. }
    unfold at_seconds. cbn [fmap list_fmap]. repeat (apply list.Forall_cons; split; [apply H|]). constructor.
  - exists (pinged 1 20). split; [left|]. done.
Defined.

Definition two_targets : probe_db := mkProbeDb [pinged 1 20; pinged 2 60] 2 [] 0 [].

Definition idle : system event_trace := mkSystem (NewEngine 3) two_targets (Some []).

Definition good_run : Outcome := plain_outcome "success" 1500000 0 "".

Definition busy_day : list event :=
  [ETick 0; ETrigger 2 1; EStart 1 1; EFinish 2 good_run; EFinish 1 good_run; EStart 2 2; EFinish 2 good_run; ETick (20 * nanos_per_second)].

Lemma one_run_per_target_witness :
  ∃ st, steps 1 (mkState idle [] []) busy_day = Some st ∧ NoDup (run_id <$> s_running st)
  ∧ en_inFlight (sy_engine (s_system st)) = list_to_set (run_id <$> s_running st)
  ∧ (length (ticked_runs (s_running st)) ≤ 1)%nat.
Proof.
  eexists. split; [vm_compute; reflexivity|].
  apply (one_run_per_target 1 idle busy_day); [reflexivity|vm_compute; reflexivity].
Defined.

(** The concurrency bound does not cover manual triggers. *)
Example triggers_unbounded :
  ∃ st, steps 1 (mkState idle [] []) [ETrigger 1 0; ETrigger 2 0] = Some st ∧ length (s_running st) = 2%nat.
Proof. eexists. split; vm_compute; reflexivity. Qed.

(** A run that outlives its target leaves a row that no target owns. *)
Example late_result_orphaned :
  ∃ st, steps 1 (mkState idle [] []) [ETrigger 1 0; EWrite (Delete 1 two_targets).1; EFinish 1 good_run] = Some st
  ∧ pt_ID <$> pd_targets (sy_db (s_system st)) = [2] ∧ pr_TargetID <$> pd_results (sy_db (s_system st)) = [1].
Proof. eexists. split_and!; vm_compute; reflexivity. Qed.

Definition reported (id : Z) (status : string) : AgentResultReport := mkReport id "center" status f_zero 0 "" "" "" None "2026-01-01T00:00:00Z".

(** Results of a disabled target are accepted, and a bad status ends the batch
    after the rows before it were written. *)
Example agent_batch :
  let s := mkSystem (NewEngine 3) (ToggleProbeTargetEnabled 1 0 two_targets) (Some ([] : event_trace)) in
  let '(s', (n, ok)) := IngestAgentResults "a1" [reported 1 "success"; reported 9 "success"; reported 2 "down"; reported 2 "fail"] s in
  n = 1 ∧ ok = false ∧ (fun r => (pr_TargetID r, pr_Vantage r)) <$> pd_results (sy_db s') = [(1, "agent:a1")].
Proof. vm_compute. split_and!; reflexivity. Qed.

(** Expected addresses are compared as text: another spelling of the answer is a
    failure. *)
Definition quiet_world (answer : list string) : net_world :=
  mkWorld (fun _ _ _ => Err "") (fun _ _ _ => []) (fun _ _ => None) (fun _ _ _ _ => (0, Err "")) (fun _ _ => (0, Ok tt)) (fun _ _ => None)
    (fun _ => ("", None)) (fun _ => 0) (fun _ _ _ => (0, (answer, None))) (fun _ _ => Ok true) (fun _ => None) (fun s => s) (fun s => s).

Definition expects (ips : list string) (record : string) : ProbeTarget :=
  mkProbeTarget 1 "dns" "dns" "example.com" 60 5 1 "" None "" f_zero "" "center"
    (marshalProbeOptions (Some (mkOptions "" [] "" "" false record "" ips "" "" ""))) None "manual".

Example spelling_matters :
  ValidateProbeOptions "dns" (parseProbeOptions (pt_Options (expects ["2001:db8:0::1"] "AAAA"))) = Ok tt
  ∧ out_Status (execute (quiet_world ["2001:db8::1"]) (expects ["2001:db8:0::1"] "AAAA")) = "fail"
  ∧ out_Status (execute (quiet_world ["2001:db8::1"]) (expects ["2001:DB8::1"] "AAAA")) = "success".
Proof. split_and!; vm_compute; reflexivity. Qed.

(** A keyword with method HEAD is accepted and never checked. *)
Definition served (body : string) : net_world :=
  mkWorld (fun _ _ _ => Err "") (fun _ _ _ => []) (fun _ _ => None) (fun _ _ _ _ => (0, Ok (mkHttpResponse 200 (Ok body))))
    (fun _ _ => (0, Ok tt)) (fun _ _ => None) (fun _ => ("", None)) (fun _ => 0) (fun _ _ _ => (0, ([], None))) (fun _ _ => Ok true)
    (fun _ => None) (fun s => s) (fun s => s).

Definition keyword_site (method : string) : ProbeTarget :=
  mkProbeTarget 1 "web" "http" "http://example.com/" 60 5 1 "" None "" f_zero "" "center"
    (marshalProbeOptions (Some (mkOptions method [] "healthy" "" false "" "" [] "" "" ""))) None "manual".

Example head_ignores_keyword :
  ValidateProbeOptions "http" (parseProbeOptions (pt_Options (keyword_site "HEAD"))) = Ok tt
  ∧ out_Status (execute (served "broken") (keyword_site "HEAD")) = "success"
  ∧ out_Status (execute (served "broken") (keyword_site "GET")) = "fail".
Proof. split_and!; vm_compute; reflexivity. Qed.
