(* ===== verification/Autogen.v ===== *)
(** Probe targets generated from discovered services
    (src/internal/service/probetarget/autogen.go): one reconciliation of the
    'auto' rows with the services the devices' scans identified.

    The parking loop ranges over a Go map; its steps are independent, and the
    model takes the rows in table order. *)

From S2P Require Import Prelude Db DeviceStore Json Attributes ProbeStore.

Open Scope Z_scope.

Record ProbeAutogenConfig := mkAutogenConfig {
  ac_Enabled : bool; ac_Services : list string; ac_DeviceTypes : list string; ac_IntervalSeconds : Z; ac_MaxTargets : Z
}.

(** A row of the device query: devices with a services column, by id. *)
Record autogen_device := mkAutogenDevice {
  ad_ID : Z; ad_Type : string; ad_IpAddress : string; ad_NetworkID : option Z; ad_DetectedServices : string
}.

Definition ListDevicesForProbeAutogen (devices : list Device) : list autogen_device :=
  (fun d => mkAutogenDevice (dev_ID d) (dev_Type d) (dev_IpAddress d) (dev_NetworkID d) (dev_DetectedServices d))
    <$> List.filter (fun d => negb (bool_decide (dev_DetectedServices d ∈ ["[]"; ""]))) devices.

Definition autogenName (deviceID : Z) (service : string) (port : Z) : string :=
  "auto-d" +:+ itoa deviceID +:+ "-" +:+ service +:+ "-" +:+ itoa port.

Definition autogenPlan (service ip : string) (port : Z) : string * string :=
  if decide (service = "http") then ("http", "http://" +:+ ip +:+ ":" +:+ itoa port +:+ "/")
  else if decide (service = "https") then ("http", "https://" +:+ ip +:+ ":" +:+ itoa port +:+ "/")
  else ("tcp", ip +:+ ":" +:+ itoa port).

(** The services column: names and ports. *)
Definition decode_autogen_service (o : jobject) : option (string * Z) :=
  name ← as_string (jget "name" o); port ← as_int (jget "port" o); Some (name, port).

Definition detected_services (text : string) : option (list (string * Z)) :=
  j ← unmarshal text; as_array decode_autogen_service (Some j).

(** A target the policy asks for. *)
Record wish := mkWish { wi_Name : string; wi_Module : string; wi_Target : string; wi_Vantage : string; wi_Device : Z }.

Definition agent_by_network (nets : list Network) : gmap Z string :=
  fold_left (fun m n =>
    match net_AgentID n with
    | Some a => if decide (trim_space a = "") then m else <[net_ID n := trim_space a]> m
    | None => m
    end) nets ∅.

Section policy.
Context (cfg : ProbeAutogenConfig) (nets : list Network).

Definition vantageFor (networkID : option Z) : string :=
  match networkID with
  | Some n => match agent_by_network nets !! n with
              | Some agent => ProbeVantageAgentPrefix +:+ agent
              | None => ProbeVantageCenter
              end
  | None => ProbeVantageCenter
  end.

Definition service_eligible (name : string) : bool :=
  match ac_Services cfg with
  | [] => true
  | l => bool_decide (name ∈ (fun s => to_lower (trim_space s)) <$> l)
  end.

Definition type_eligible (t : string) : bool := match ac_DeviceTypes cfg with [] => true | l => bool_decide (t ∈ l) end.

(** The targets of a device, in the order of its services. *)
Definition device_wishes (d : autogen_device) : list wish :=
  if negb (type_eligible (ad_Type d)) || bool_decide (ad_IpAddress d = "") then []
  else match detected_services (ad_DetectedServices d) with
  | None => []
  | Some svcs =>
      omap (fun '(svcName, port) =>
        let name := to_lower svcName in
        if negb (service_eligible name) || (port <=? 0) then None
        else let (module, target) := autogenPlan name (ad_IpAddress d) port in
             Some (mkWish (autogenName (ad_ID d) name port) module target (vantageFor (ad_NetworkID d)) (ad_ID d))) svcs
  end.

(** * The sweep *)

Record sweep := mkSweep {
  sw_db : probe_db; sw_autoCount : Z; sw_created : Z; sw_enabled : Z; sw_disabled : Z; sw_desired : gset string
}.

Definition on_db (db : probe_db) (s : sweep) : sweep :=
  mkSweep db (sw_autoCount s) (sw_created s) (sw_enabled s) (sw_disabled s) (sw_desired s).

Definition want (name : string) (s : sweep) : sweep :=
  mkSweep (sw_db s) (sw_autoCount s) (sw_created s) (sw_enabled s) (sw_disabled s) ({[name]} ∪ sw_desired s).

Definition count_enabled (s : sweep) : sweep :=
  mkSweep (sw_db s) (sw_autoCount s) (sw_created s) (sw_enabled s + 1) (sw_disabled s) (sw_desired s).

Definition count_created (s : sweep) : sweep :=
  mkSweep (sw_db s) (sw_autoCount s + 1) (sw_created s + 1) (sw_enabled s) (sw_disabled s) (sw_desired s).

(** A row of an earlier sweep follows the service; [None] is a refused update. *)
Definition follow (prev : ProbeTarget) (w : wish) (s : sweep) : option sweep :=
  s ← (if bool_decide (pt_Module prev = wi_Module w) && bool_decide (pt_Target prev = wi_Target w) then Some s
       else '(db, _) ← UpdateProbeTarget (pt_ID prev)
               (mkParams (pt_Name prev) (wi_Module w) (wi_Target w) (pt_IntervalSeconds prev) (pt_TimeoutSeconds prev)
                  (pt_Enabled prev) (pt_Notes prev) (wi_Vantage w) (pt_Options prev) (Some (wi_Device w))) (sw_db s);
            Some (on_db db s));
  if pt_Enabled prev =? 0
  then Some (count_enabled (on_db (ToggleProbeTargetEnabled (pt_ID prev) 1 (sw_db s)) s))
  else Some s.

Definition generated (w : wish) : target_params :=
  mkParams (wi_Name w) (wi_Module w) (wi_Target w) (ac_IntervalSeconds cfg) 10 1
    "auto-generated from a discovered service (#606)" (wi_Vantage w) "" (Some (wi_Device w)).

(** The services of one device; at the cap the rest of them is left.  The flag
    is whether no statement was refused. *)
Fixpoint sweep_services (autoByName : gmap string ProbeTarget) (ws : list wish) (s : sweep) : sweep * bool :=
  match ws with
  | [] => (s, true)
  | w :: ws =>
      let s := want (wi_Name w) s in
      match autoByName !! wi_Name w with
      | Some prev =>
          match follow prev w s with
          | Some s => sweep_services autoByName ws s
          | None => (s, false)
          end
      | None =>
          if ac_MaxTargets cfg <=? sw_autoCount s then (s, true)
          else match CreateProbeTarget (generated w) ProbeSourceAuto (sw_db s) with
          | Some (db, _) => sweep_services autoByName ws (count_created (on_db db s))
          | None => (s, false)
          end
      end
  end.

Fixpoint sweep_devices (autoByName : gmap string ProbeTarget) (ds : list autogen_device) (s : sweep) : sweep * bool :=
  match ds with
  | [] => (s, true)
  | d :: ds =>
      match sweep_services autoByName (device_wishes d) s with
      | (s, true) => sweep_devices autoByName ds s
      | (s, false) => (s, false)
      end
  end.

(** Rows that no service asks for are disabled. *)
Definition park_row (t : ProbeTarget) (s : sweep) : sweep :=
  if bool_decide (pt_Name t ∈ sw_desired s) || (pt_Enabled t =? 0) then s
  else mkSweep (ToggleProbeTargetEnabled (pt_ID t) 0 (sw_db s)) (sw_autoCount s) (sw_created s) (sw_enabled s) (sw_disabled s + 1)
         (sw_desired s).

Definition park_off (t : ProbeTarget) (s : sweep) : sweep :=
  if pt_Enabled t =? 1
  then mkSweep (ToggleProbeTargetEnabled (pt_ID t) 0 (sw_db s)) (sw_autoCount s) (sw_created s) (sw_enabled s) (sw_disabled s + 1)
         (sw_desired s)
  else s.

Definition auto_rows (db : probe_db) : list ProbeTarget :=
  List.filter (fun t => bool_decide (pt_Source t = ProbeSourceAuto)) (pd_targets db).

Definition Sweep (devices : list autogen_device) (db : probe_db) : sweep * bool :=
  let existing := auto_rows db in
  let s := mkSweep db (Z.of_nat (length existing)) 0 0 0 ∅ in
  if negb (ac_Enabled cfg) then (fold_left (fun s t => park_off t s) existing s, true)
  else
    match sweep_devices (target_by_name existing) devices s with
    | (s, false) => (s, false)
    | (s, true) => (fold_left (fun s t => park_row t s) existing s, true)
    end.

End policy.
