(* ===== verification/AutogenSpec.v ===== *)
(** Theorems on the generation of probe targets: what a sweep may touch, the cap,
    and the reconciliation with the discovered services. *)

From S2P Require Import Prelude Float64 Db DeviceStore Json Attributes ProbeStore ProbeRules Autogen.

Open Scope Z_scope.

Definition auto : ProbeTarget → Prop := of_source ProbeSourceAuto.

(** * One row *)

Lemma update_sets id p db db' t' :
  UpdateProbeTarget id p db = Some (db', t') → db' = set_targets (on_target id (with_params p) (pd_targets db)) db.
Proof. unfold UpdateProbeTarget. intros (t & _ & H)%bind_Some. destruct (_ && _); [|done]. by injection H as <- _. Qed.

Lemma on_target_id id ts : on_target id (fun t => t) ts = ts.
Proof. unfold on_target. rewrite <- (map_id ts) at 2. apply map_ext. intros t. by destruct (_ =? id). Qed.

Lemma on_target_compose id f g ts : (∀ t, pt_ID (f t) = pt_ID t) → on_target id g (on_target id f ts) = on_target id (fun t => g (f t)) ts.
Proof.
  intros Hf. unfold on_target. rewrite map_map. apply map_ext. intros t. destruct (pt_ID t =? id) eqn:E; [by rewrite Hf, E|by rewrite E].
Qed.

Lemma set_targets_id db : set_targets (pd_targets db) db = db.
Proof. by destruct db. Qed.

(** The drift of a row. *)
Definition stays (prev : ProbeTarget) (w : wish) : bool :=
  bool_decide (pt_Module prev = wi_Module w) && bool_decide (pt_Target prev = wi_Target w).

Definition followed (prev : ProbeTarget) (w : wish) (t t' : ProbeTarget) : Prop :=
  pt_ID t' = pt_ID t ∧ pt_Name t' = (if stays prev w then pt_Name t else pt_Name prev) ∧ pt_Source t' = pt_Source t
  ∧ pt_Module t' = (if stays prev w then pt_Module t else wi_Module w)
  ∧ pt_Target t' = (if stays prev w then pt_Target t else wi_Target w)
  ∧ pt_Enabled t' = (if pt_Enabled prev =? 0 then 1 else if stays prev w then pt_Enabled t else pt_Enabled prev).

Lemma follow_rows prev w s s' :
  follow prev w s = Some s' → targets_ok (sw_db s) →
  targets_ok (sw_db s')
  ∧ (∃ h, sw_db s' = set_targets (on_target (pt_ID prev) h (pd_targets (sw_db s))) (sw_db s) ∧ ∀ t, followed prev w t (h t))
  ∧ sw_autoCount s' = sw_autoCount s ∧ sw_desired s' = sw_desired s ∧ sw_created s' = sw_created s.
Proof.
  unfold follow. intros (s1 & H1 & H2)%bind_Some Hok.
  assert (targets_ok (sw_db s1) ∧ (∃ h, sw_db s1 = set_targets (on_target (pt_ID prev) h (pd_targets (sw_db s))) (sw_db s)
    ∧ ∀ t, pt_ID (h t) = pt_ID t ∧ pt_Name (h t) = (if stays prev w then pt_Name t else pt_Name prev) ∧ pt_Source (h t) = pt_Source t
         ∧ pt_Module (h t) = (if stays prev w then pt_Module t else wi_Module w)
         ∧ pt_Target (h t) = (if stays prev w then pt_Target t else wi_Target w)
         ∧ pt_Enabled (h t) = (if stays prev w then pt_Enabled t else pt_Enabled prev))
    ∧ sw_autoCount s1 = sw_autoCount s ∧ sw_desired s1 = sw_desired s ∧ sw_created s1 = sw_created s) as (Hok1 & (h & Hh & Hf) & Hc).
  { fold (stays prev w) in H1. destruct (stays prev w).
    - injection H1 as <-. split_and!; [done| |done..]. exists (fun t => t). by rewrite on_target_id, set_targets_id.
    - apply bind_Some in H1 as ([db u] & Hu & H1). injection H1 as <-. cbn. pose proof (update_sets _ _ _ _ _ Hu) as Hs.
      apply update_spec in Hu as (Hd & _); [|done]. split_and!; [done| |done..]. eexists. split; [exact Hs|]. done. }
  destruct (pt_Enabled prev =? 0) eqn:Ee; injection H2 as <-.
  - cbn. split_and!; [by apply toggle_ok| |apply Hc..]. exists (fun t => with_enabled 1 (h t)). split.
    + unfold ToggleProbeTargetEnabled. rewrite Hh. cbn [set_targets pd_targets]. rewrite on_target_compose by (intros t; apply Hf). done.
    + intros t. destruct (Hf t) as (H1' & H2' & H3' & H4' & H5' & _). unfold followed. rewrite Ee. cbn. done.
  - split_and!; [done| |apply Hc..]. exists h. split; [done|]. intros t. destruct (Hf t) as (? & ? & ? & ? & ? & ?). unfold followed. rewrite Ee. done.
Qed.

(** * The invariant of a sweep *)

Section sweep.
Context (cfg : ProbeAutogenConfig) (nets : list Network) (db0 : probe_db) (Hok0 : targets_ok db0).

Record swept (done : list wish) (s : sweep) : Prop := {
  sp_ok : targets_ok (sw_db s);
  sp_others : filter (fun t => ¬ auto t) (pd_targets (sw_db s)) = filter (fun t => ¬ auto t) (pd_targets db0);
  sp_results : pd_results (sw_db s) = pd_results db0;
  sp_certs : pd_certs (sw_db s) = pd_certs db0;
  (* rows of earlier sweeps are kept *)
  sp_kept : ∀ t0, t0 ∈ pd_targets db0 → auto t0 →
    ∃ t, t ∈ pd_targets (sw_db s) ∧ pt_ID t = pt_ID t0 ∧ pt_Name t = pt_Name t0 ∧ auto t;
  sp_done : ∀ w, w ∈ done → ∃ t, t ∈ pd_targets (sw_db s) ∧ pt_Name t = wi_Name w ∧ auto t;
  (* a row follows a service that was seen, or is as before *)
  sp_rows : ∀ t, t ∈ pd_targets (sw_db s) → auto t →
    (∃ w, w ∈ done ∧ wi_Name w = pt_Name t ∧ pt_Module t = wi_Module w ∧ pt_Target t = wi_Target w ∧ pt_Enabled t ≠ 0)
    ∨ (t ∈ pd_targets db0 ∧ pt_Name t ∉ wi_Name <$> done);
  sp_count : sw_autoCount s = Z.of_nat (length (auto_rows (sw_db s)))
}.

Lemma auto_rows_filter db : auto_rows db = filter auto (pd_targets db).
Proof.
  unfold auto_rows. induction (pd_targets db) as [|t ts IH]; [done|]. cbn [List.filter]. rewrite filter_cons, IH. unfold auto, of_source.
  case_bool_decide; [by rewrite decide_True|by rewrite decide_False].
Qed.

Lemma auto_count_on_target id f ts : (∀ t, pt_Source (f t) = pt_Source t) →
  length (filter auto (on_target id f ts)) = length (filter auto ts).
Proof.
  intros Hf. unfold on_target. induction ts as [|t ts IH]; [done|]. cbn [map]. set (u := if pt_ID t =? id then f t else t).
  assert (auto u ↔ auto t) as Hu by (unfold auto, of_source, u; destruct (pt_ID t =? id); by rewrite ?Hf).
  destruct (decide (auto t)); [rewrite !filter_cons_True by tauto|rewrite !filter_cons_False by tauto]; cbn [length]; congruence.
Qed.

Lemma elem_auto_rows t db : t ∈ auto_rows db ↔ t ∈ pd_targets db ∧ auto t.
Proof. rewrite auto_rows_filter, list_elem_of_filter. tauto. Qed.

Definition previous : gmap string ProbeTarget := target_by_name (auto_rows db0).

Lemma previous_Some n t : previous !! n = Some t ↔ t ∈ pd_targets db0 ∧ auto t ∧ pt_Name t = n.
Proof.
  unfold previous. rewrite lookup_target_by_name; [rewrite elem_auto_rows; tauto|]. rewrite auto_rows_filter.
  eapply sublist_NoDup; [|apply sublist_fmap_mono, sublist_filter]. apply Hok0.
Qed.

Lemma follow_swept done prev w s s' :
  swept done s → prev ∈ pd_targets db0 → auto prev → pt_Name prev = wi_Name w → follow prev w s = Some s' → swept (w :: done) s'.
Proof.
  intros Hs Hp Ha Hn Hf. destruct (follow_rows _ _ _ _ Hf (sp_ok _ _ Hs)) as (Hok & (h & Hdb & Hh) & Hcount & Hdes & _).
  destruct (sp_kept _ _ Hs prev Hp Ha) as (u & Hu & Huid & Hun & Hua).
  assert (∀ t, t ∈ pd_targets (sw_db s) → pt_ID t = pt_ID prev → t = u) as Huniq.
  { intros t Ht Hid. apply (same_id (sw_db s)); [apply Hs|done|done|congruence]. }
  assert (pd_targets (sw_db s') = on_target (pt_ID prev) h (pd_targets (sw_db s))) as Hts by (by rewrite Hdb).
  destruct (Hh u) as (H1 & H2 & H3 & H4 & H5 & H6). assert (pt_Name (h u) = pt_Name u) as H2' by (rewrite H2; by destruct (stays prev w)).
  assert (h u ∈ pd_targets (sw_db s')) as Hhu by (rewrite Hts; apply elem_of_on_target; exists u; by rewrite (proj2 (Z.eqb_eq _ _))).
  split.
  - done.
  - rewrite Hts. rewrite (update_others ProbeSourceAuto); [apply Hs|]. intros t Ht Hid. rewrite (Huniq t Ht Hid). split; [done|].
    unfold of_source. rewrite H3. done.
  - rewrite Hdb. apply Hs.
  - rewrite Hdb. apply Hs.
  - intros t0 Ht0 Ha0. destruct (sp_kept _ _ Hs t0 Ht0 Ha0) as (t & Ht & Hid & Hnm & Hat). destruct (decide (pt_ID t = pt_ID prev)) as [E|E].
    + rewrite (Huniq t Ht E) in *. exists (h u). split_and!; [done|congruence|congruence|]. unfold auto, of_source. rewrite H3. done.
    + exists t. split; [|done]. rewrite Hts. apply elem_of_on_target. exists t. by rewrite (proj2 (Z.eqb_neq _ _)).
  - intros w' [->|Hw']%elem_of_cons.
    + exists (h u). split_and!; [done|congruence|]. unfold auto, of_source. rewrite H3. done.
    + destruct (sp_done _ _ Hs w' Hw') as (t & Ht & Hnm & Hat). destruct (decide (pt_ID t = pt_ID prev)) as [E|E].
      * rewrite (Huniq t Ht E) in *. exists (h u). split_and!; [done|congruence|]. unfold auto, of_source. rewrite H3. done.
      * exists t. split; [|done]. rewrite Hts. apply elem_of_on_target. exists t. by rewrite (proj2 (Z.eqb_neq _ _)).
  - intros t Ht Hat. rewrite Hts in Ht. apply elem_of_on_target in Ht as (v & Hv & ->). destruct (Z.eqb_spec (pt_ID v) (pt_ID prev)) as [E|E].
    + rewrite (Huniq v Hv E) in *. left. destruct (stays prev w) eqn:Est.
      * unfold stays in Est. apply andb_true_iff in Est as [Em%bool_decide_eq_true Et%bool_decide_eq_true].
        destruct (sp_rows _ _ Hs u Hu Hua) as [(w' & Hw' & Hwn & Hm & Htg & Hen)|[Hu0 _]].
        -- exists w'. split; [by right|]. split_and!; [congruence..|]. rewrite H6. destruct (pt_Enabled prev =? 0); [lia|done].
        -- assert (u = prev) as -> by (by apply (same_id db0)). exists w. split; [left|]. split_and!; [congruence..|].
           rewrite H6. destruct (Z.eqb_spec (pt_Enabled prev) 0); [lia|done].
      * exists w. split; [left|]. split_and!; [congruence..|]. rewrite H6. destruct (Z.eqb_spec (pt_Enabled prev) 0); [lia|done].
    + assert (pt_Name v ≠ wi_Name w) as Hne.
      { intros Enm. apply E. rewrite <- Huid. f_equal. apply (same_name (pd_targets (sw_db s))); [apply Hs|done|done|congruence]. }
      destruct (sp_rows _ _ Hs v Hv Hat) as [(w' & Hw' & ?)|[Hv0 Hnot]]; [left; exists w'; split; [by right|done]|right].
      split; [done|]. cbn [fmap list_fmap]. apply not_elem_of_cons. done.
  - rewrite Hcount, (sp_count _ _ Hs), !auto_rows_filter, Hts, auto_count_on_target; [done|]. intros t. apply Hh.
Qed.

Lemma want_swept done n s : swept done s → swept done (want n s).
Proof. intros []. by split. Qed.

Lemma create_swept done w s db t :
  swept done s → previous !! wi_Name w = None → CreateProbeTarget (generated cfg w) ProbeSourceAuto (sw_db s) = Some (db, t) →
  swept (w :: done) (count_created (on_db db s)).
Proof.
  intros Hs Hnone Hc. pose proof Hc as Hc'. apply create_spec in Hc as (Hok & -> & Hts & Hfresh & Hres); [|apply Hs].
  assert (pd_certs db = pd_certs (sw_db s)) as Hcert.
  { unfold CreateProbeTarget in Hc'. destruct (_ && _); [|done]. by injection Hc' as <-. }
  set (t := new_target _ _ _) in *. assert (auto t) as Hat by done. assert (pt_Name t = wi_Name w) as Hn by done.
  assert (∀ u, u ∈ pd_targets (sw_db s) → u ∈ pd_targets db) as Hin by (intros u Hu; rewrite Hts; apply elem_of_app; by left).
  split; cbn [sw_db count_created on_db].
  - done.
  - rewrite Hts, list.filter_app. rewrite filter_cons_False by (intros H; by apply H). rewrite filter_nil, app_nil_r. apply Hs.
  - rewrite Hres. apply Hs.
  - rewrite Hcert. apply Hs.
  - intros t0 Ht0 Ha0. destruct (sp_kept _ _ Hs t0 Ht0 Ha0) as (u & Hu & ?). exists u. split; [by apply Hin|done].
  - intros w' [->|Hw']%elem_of_cons.
    + exists t. split; [rewrite Hts; apply elem_of_app; right; left|done].
    + destruct (sp_done _ _ Hs w' Hw') as (u & Hu & ?). exists u. split; [by apply Hin|done].
  - intros u Hu Hau. rewrite Hts in Hu. apply elem_of_app in Hu as [Hu| ->%list_elem_of_singleton].
    + destruct (sp_rows _ _ Hs u Hu Hau) as [(w' & Hw' & ?)|[Hu0 Hnot]]; [left; exists w'; split; [by right|done]|right].
      split; [done|]. cbn [fmap list_fmap]. apply not_elem_of_cons. split; [|done]. by apply Hfresh.
    + left. exists w. split; [left|done].
  - cbn [sw_autoCount count_created on_db]. rewrite (sp_count _ _ Hs), !auto_rows_filter, Hts, list.filter_app, filter_cons_True by done.
    rewrite length_app. cbn. lia.
Qed.

(** * The loops *)

Lemma services_any ws done s s' ok :
  swept done s → sweep_services cfg previous ws s = (s', ok) →
  (∃ done', swept done' s') ∧ sw_autoCount s' ≤ Z.max (sw_autoCount s) (ac_MaxTargets cfg).
Proof.
  revert done s. induction ws as [|w ws IH]; intros done s Hs H; cbn [sweep_services] in H.
  { injection H as <- <-. split; [by exists done|lia]. }
  apply (want_swept _ (wi_Name w)) in Hs. change (sw_autoCount s) with (sw_autoCount (want (wi_Name w) s)).
  set (s1 := want (wi_Name w) s) in *. clearbody s1. destruct (previous !! wi_Name w) as [prev|] eqn:Ep.
  - destruct (follow prev w s1) as [s2|] eqn:Ef; [|injection H as <- <-; split; [by exists done|lia]].
    apply previous_Some in Ep as (Hp & Ha & Hn). destruct (follow_rows _ _ _ _ Ef (sp_ok _ _ Hs)) as (_ & _ & <- & _).
    eapply IH; [|done]. by eapply follow_swept.
  - destruct (Z.leb_spec (ac_MaxTargets cfg) (sw_autoCount s1)); [injection H as <- <-; split; [by exists done|lia]|].
    destruct (CreateProbeTarget _ _ _) as [[db t]|] eqn:Ec; [|injection H as <- <-; split; [by exists done|lia]].
    destruct (IH _ _ (create_swept _ _ _ _ _ Hs Ep Ec) H) as [Hd Hc]. split; [done|]. cbn in Hc. lia.
Qed.

(** Below the cap every service is seen. *)
Lemma services_all ws done s s' :
  swept done s → sw_autoCount s + Z.of_nat (length ws) ≤ ac_MaxTargets cfg → sweep_services cfg previous ws s = (s', true) →
  swept (rev ws ++ done) s' ∧ sw_desired s' = list_to_set (wi_Name <$> ws) ∪ sw_desired s
  ∧ sw_autoCount s' ≤ sw_autoCount s + Z.of_nat (length ws).
Proof.
  revert done s. induction ws as [|w ws IH]; intros done s Hs Hcap H; cbn [sweep_services] in H.
  { injection H as <-. split_and!; [done|set_solver|cbn; lia]. }
  apply (want_swept _ (wi_Name w)) in Hs. cbn [length] in *. cbn [rev]. rewrite <- app_assoc.
  assert (∀ s2, swept (w :: done) s2 → sw_desired s2 = sw_desired (want (wi_Name w) s) → sw_autoCount s2 ≤ sw_autoCount s + 1 →
    sweep_services cfg previous ws s2 = (s', true) →
    swept (rev ws ++ [w] ++ done) s' ∧ sw_desired s' = list_to_set (wi_Name <$> w :: ws) ∪ sw_desired s
    ∧ sw_autoCount s' ≤ sw_autoCount s + Z.of_nat (S (length ws))) as Hgo.
  { intros s2 Hs2 Hd2 Hc2 H2. destruct (IH _ _ Hs2 ltac:(lia) H2) as (H3 & H4 & H5). split_and!; [done| |lia].
    rewrite H4, Hd2. cbn [fmap list_fmap list_to_set want sw_desired]. set_solver. }
  change (sw_autoCount s) with (sw_autoCount (want (wi_Name w) s)) in *.
  destruct (previous !! wi_Name w) as [prev|] eqn:Ep.
  - destruct (follow prev w _) as [s2|] eqn:Ef; [|done]. apply previous_Some in Ep as (Hp & Ha & Hn).
    destruct (follow_rows _ _ _ _ Ef (sp_ok _ _ Hs)) as (_ & _ & E1 & E2 & _). apply (Hgo s2); [by eapply follow_swept|done|lia|done].
  - destruct (Z.leb_spec (ac_MaxTargets cfg) (sw_autoCount (want (wi_Name w) s))); [lia|].
    destruct (CreateProbeTarget _ _ _) as [[db t]|] eqn:Ec; [|done].
    eapply Hgo; [by eapply create_swept|done|cbn; lia|done].
Qed.

Lemma devices_any ds done s s' ok :
  swept done s → sweep_devices cfg nets previous ds s = (s', ok) →
  (∃ done', swept done' s') ∧ sw_autoCount s' ≤ Z.max (sw_autoCount s) (ac_MaxTargets cfg).
Proof.
  revert done s. induction ds as [|d ds IH]; intros done s Hs H; cbn [sweep_devices] in H.
  { injection H as <- <-. split; [by exists done|lia]. }
  destruct (sweep_services _ _ _ s) as [s1 b] eqn:E. destruct (services_any _ _ _ _ _ Hs E) as [[done1 Hs1] Hc].
  destruct b; [|injection H as <- <-; split; [by exists done1|done]]. destruct (IH _ _ Hs1 H) as [? ?]. split; [done|lia].
Qed.

Lemma devices_all ds done s s' :
  swept done s → sw_autoCount s + Z.of_nat (length (concat (device_wishes cfg nets <$> ds))) ≤ ac_MaxTargets cfg →
  sweep_devices cfg nets previous ds s = (s', true) →
  ∃ done', swept done' s' ∧ (∀ w, w ∈ done' ↔ w ∈ done ∨ w ∈ concat (device_wishes cfg nets <$> ds))
  ∧ sw_desired s' = list_to_set (wi_Name <$> concat (device_wishes cfg nets <$> ds)) ∪ sw_desired s.
Proof.
  revert done s. induction ds as [|d ds IH]; intros done s Hs Hcap H; cbn [sweep_devices] in H.
  { injection H as <-. exists done. split_and!; [done| |cbn; set_solver]. intros w. cbn. rewrite elem_of_nil. tauto. }
  rewrite fmap_cons in *. cbn [concat] in *. rewrite length_app in Hcap.
  destruct (sweep_services _ _ _ s) as [s1 []] eqn:E; [|done]. destruct (services_all (device_wishes cfg nets d) done s s1 Hs ltac:(lia) E) as (Hs1 & Hd1 & Hc1).
  destruct (IH _ _ Hs1 ltac:(lia) H) as (done' & Hs' & Hw & Hd'). exists done'. split_and!; [done| |].
  - intros w. rewrite Hw, !elem_of_app, list_elem_of_In, <- in_rev, <- list_elem_of_In. tauto.
  - rewrite Hd', Hd1, fmap_app, list_to_set_app_L. set_solver.
Qed.

Lemma start_swept : swept [] (mkSweep db0 (Z.of_nat (length (auto_rows db0))) 0 0 0 ∅).
Proof.
  split; cbn; try done.
  - intros t0 Ht0 Ha. by exists t0.
  - intros w Hw. by apply elem_of_nil in Hw.
  - intros t Ht Ha. right. split; [done|]. by intros ?%elem_of_nil.
Qed.

(** * Parking *)

(** Disabling rows by id changes only auto rows. *)
Definition only_auto (db db' : probe_db) : Prop :=
  targets_ok db' ∧ filter (fun t => ¬ auto t) (pd_targets db') = filter (fun t => ¬ auto t) (pd_targets db)
  ∧ pd_results db' = pd_results db ∧ pd_certs db' = pd_certs db ∧ length (auto_rows db') = length (auto_rows db).

Lemma toggle_only_auto id e db : targets_ok db → (∃ t, t ∈ pd_targets db ∧ pt_ID t = id ∧ auto t) →
  only_auto db (ToggleProbeTargetEnabled id e db).
Proof.
  intros Hok (t & Ht & Hid & Ha). split_and!; [by apply toggle_ok| |done|done|].
  - cbn. apply (update_others ProbeSourceAuto). intros u Hu Eu. assert (u = t) as -> by (apply (same_id db); [done..|congruence]). done.
  - rewrite !auto_rows_filter. cbn. by apply auto_count_on_target.
Qed.

Lemma only_auto_trans a b c : only_auto a b → only_auto b c → only_auto a c.
Proof. intros (H1 & H2 & H3 & H4 & H5) (K1 & K2 & K3 & K4 & K5). split_and!; [done|congruence..]. Qed.

(** Rows of the sweep's start, still there under their ids. *)
Definition has_rows (l : list ProbeTarget) (db : probe_db) : Prop :=
  ∀ t0, t0 ∈ l → ∃ t, t ∈ pd_targets db ∧ pt_ID t = pt_ID t0 ∧ pt_Name t = pt_Name t0 ∧ auto t.

Lemma toggle_has_rows l id e db : has_rows l db → has_rows l (ToggleProbeTargetEnabled id e db).
Proof.
  intros H t0 Ht0. destruct (H t0 Ht0) as (t & Ht & Hid & Hn & Ha). cbn [ToggleProbeTargetEnabled set_targets pd_targets].
  exists (if pt_ID t =? id then with_enabled e t else t). split; [apply elem_of_on_target; by exists t|]. by destruct (pt_ID t =? id).
Qed.

(** The step of a parking loop. *)
Definition parks (f : ProbeTarget → sweep → sweep) : Prop :=
  ∀ t s, (f t s = s ∨ sw_db (f t s) = ToggleProbeTargetEnabled (pt_ID t) 0 (sw_db s)) ∧ sw_desired (f t s) = sw_desired s.

Lemma park_parks : parks park_row.
Proof. intros t s. unfold park_row. destruct (_ || _); [by split; [left|]|]. split; [right|]; done. Qed.

Lemma park_off_parks : parks park_off.
Proof. intros t s. unfold park_off. destruct (_ =? 1); [|by split; [left|]]. split; [right|]; done. Qed.

Lemma parking_only_auto f l s : parks f → targets_ok (sw_db s) → has_rows l (sw_db s) →
  only_auto (sw_db s) (sw_db (fold_left (fun s t => f t s) l s)).
Proof.
  intros Hf. revert s. induction l as [|t l IH]; intros s Hok Hrows; [by split_and!|]. cbn [fold_left].
  destruct (Hf t s) as [[E|E] _].
  - rewrite E. apply IH; [done|]. intros t0 Ht0. apply Hrows. by right.
  - assert (only_auto (sw_db s) (sw_db (f t s))) as H1.
    { rewrite E. apply toggle_only_auto; [done|]. destruct (Hrows t ltac:(left)) as (u & ? & ? & _ & ?). by exists u. }
    eapply only_auto_trans; [exact H1|]. apply IH; [apply H1|]. rewrite E. apply toggle_has_rows. intros t0 Ht0. apply Hrows. by right.
Qed.

(** After the parking loop the rows without a service are disabled, the others
    as they were. *)
Lemma parking_rows names l s : targets_ok (sw_db s) → sw_desired s = names → has_rows l (sw_db s) →
  (∀ t, t ∈ pd_targets (sw_db s) → auto t → pt_Name t ∉ names →
     pt_Enabled t = 0 ∨ ∃ t0, t0 ∈ l ∧ pt_ID t0 = pt_ID t ∧ pt_Name t0 = pt_Name t ∧ pt_Enabled t0 = pt_Enabled t) →
  ∀ t, t ∈ pd_targets (sw_db (fold_left (fun s t => park_row t s) l s)) → auto t →
    (pt_Name t ∉ names → pt_Enabled t = 0) ∧ (pt_Name t ∈ names → t ∈ pd_targets (sw_db s)).
Proof.
  revert s. induction l as [|t1 l IH]; intros s Hok Hdes Hrows Hinv t Ht Ha; cbn [fold_left] in Ht.
  { split; [|done]. intros Hn. destruct (Hinv t Ht Ha Hn) as [|(t0 & Ht0 & _)]; [done|by apply elem_of_nil in Ht0]. }
  assert (has_rows l (sw_db s)) as Hrows' by (intros t0 Ht0; apply Hrows; by right).
  destruct (Hrows t1 ltac:(left)) as (u1 & Hu1 & Hid1 & Hn1 & Ha1).
  unfold park_row in Ht at 2. rewrite Hdes in Ht. destruct (_ || _) eqn:E.
  - apply (IH s); try done. intros v Hv Hav Hnv. destruct (Hinv v Hv Hav Hnv) as [|(t0 & Ht0 & Hid & Hnm & He)]; [by left|].
    apply elem_of_cons in Ht0 as [->|Ht0]; [|right; by exists t0]. left. apply orb_true_iff in E as [E|E%Z.eqb_eq]; [|congruence].
    apply bool_decide_eq_true in E. rewrite Hnm in E. done.
  - apply orb_false_iff in E as [E%bool_decide_eq_false _]. set (s1 := mkSweep _ _ _ _ _ _) in Ht.
    assert (∀ v, v ∈ pd_targets (sw_db s1) → ∃ v0, v0 ∈ pd_targets (sw_db s) ∧ v = if pt_ID v0 =? pt_ID t1 then with_enabled 0 v0 else v0) as Hs1.
    { intros v Hv. apply elem_of_on_target in Hv as (v0 & ? & ->). by exists v0. }
    assert (∀ v0, v0 ∈ pd_targets (sw_db s) → pt_ID v0 = pt_ID t1 → pt_Name v0 ∉ names) as Hnot.
    { intros v0 Hv0 Hid0. assert (v0 = u1) as -> by (apply (same_id (sw_db s)); [done..|congruence]). by rewrite Hn1. }
    destruct (IH s1) with (t := t) as [Hp Hq]; try done.
    + by apply toggle_ok.
    + by apply toggle_has_rows.
    + intros v Hv Hav Hnv. destruct (Hs1 v Hv) as (v0 & Hv0 & ->). destruct (Z.eqb_spec (pt_ID v0) (pt_ID t1)); [by left|].
      destruct (Hinv v0 Hv0 Hav Hnv) as [|(t0 & Ht0 & Hid & Hnm & He)]; [by left|right].
      apply elem_of_cons in Ht0 as [->|Ht0]; [done|by exists t0].
    + split; [done|]. intros Hn. destruct (Hs1 t (Hq Hn)) as (v0 & Hv0 & ->). destruct (Z.eqb_spec (pt_ID v0) (pt_ID t1)); [|done].
      by destruct (Hnot v0 Hv0).
Qed.
End sweep.

(** * Theorems *)

Section theorems.
Context (cfg : ProbeAutogenConfig) (nets : list Network).

(** A sweep, finished or broken off, touches only generated rows: manual and
    built-in targets, results and certificates are as before, the constraints of
    the table hold, and the number of generated rows exceeds neither the cap nor
    what it was. *)
Theorem sweep_scope devices db s ok : targets_ok db → Sweep cfg nets devices db = (s, ok) →
  targets_ok (sw_db s) ∧ filter (fun t => ¬ auto t) (pd_targets (sw_db s)) = filter (fun t => ¬ auto t) (pd_targets db)
  ∧ pd_results (sw_db s) = pd_results db ∧ pd_certs (sw_db s) = pd_certs db
  ∧ Z.of_nat (length (auto_rows (sw_db s))) ≤ Z.max (Z.of_nat (length (auto_rows db))) (ac_MaxTargets cfg).
Proof.
  intros Hok H. unfold Sweep in H. pose proof (start_swept db Hok) as Hs.
  assert (∀ l, (∀ t, t ∈ l → t ∈ auto_rows db) → has_rows l db) as Hrows0.
  { intros l Hl t0 [Ht0 Ha]%Hl%elem_auto_rows. by exists t0. }
  destruct (negb (ac_Enabled cfg)).
  - injection H as <- <-. destruct (parking_only_auto park_off (auto_rows db) (mkSweep db (Z.of_nat (length (auto_rows db))) 0 0 0 ∅))
      as (H1 & H2 & H3 & H4 & H5); [apply park_off_parks|done|by apply Hrows0|]. cbn [sw_db] in *. split_and!; [done..|lia].
  - destruct (sweep_devices _ _ _ _ _) as [s1 b] eqn:E. destruct (devices_any cfg nets db Hok _ _ _ _ _ Hs E) as [[done Hs1] Hc].
    assert (sw_autoCount s1 = Z.of_nat (length (auto_rows (sw_db s1)))) as Hn by apply Hs1. cbn [sw_autoCount] in Hc.
    destruct b; injection H as <- <-; [|split_and!; [apply Hs1..|lia]].
    destruct (parking_only_auto park_row (auto_rows db) s1) as (H1 & H2 & H3 & H4 & H5); [apply park_parks|apply Hs1| |].
    { intros t0 [Ht0 Ha]%elem_auto_rows. by apply Hs1. }
    split_and!; [done|by rewrite H2; apply Hs1|by rewrite H3; apply Hs1|by rewrite H4; apply Hs1|lia].
Qed.

(** C28.  A finished sweep below the cap reconciles: every eligible service has its
    target, enabled and with the module and address of the service; every other
    generated target is disabled. *)
Theorem sweep_reconciles devices db s :
  let wishes := concat (device_wishes cfg nets <$> devices) in
  targets_ok db → ac_Enabled cfg = true → Z.of_nat (length (auto_rows db)) + Z.of_nat (length wishes) ≤ ac_MaxTargets cfg →
  Sweep cfg nets devices db = (s, true) →
  (∀ w, w ∈ wishes → ∃ t, t ∈ pd_targets (sw_db s) ∧ auto t ∧ pt_Name t = wi_Name w)
  ∧ ∀ t, t ∈ pd_targets (sw_db s) → auto t →
      (pt_Name t ∈ wi_Name <$> wishes → pt_Enabled t ≠ 0
         ∧ ∃ w, w ∈ wishes ∧ wi_Name w = pt_Name t ∧ pt_Module t = wi_Module w ∧ pt_Target t = wi_Target w)
      ∧ (pt_Name t ∉ wi_Name <$> wishes → pt_Enabled t = 0).
Proof.
  intros wishes Hok Hen Hcap H. unfold Sweep in H. rewrite Hen in H. cbn [negb] in H.
  destruct (sweep_devices _ _ _ _ _) as [s1 []] eqn:E; [|done]. injection H as <-.
  destruct (devices_all cfg nets db Hok _ _ _ _ (start_swept db Hok) Hcap E) as (done & Hs1 & Hw & Hdes). fold wishes in Hw, Hdes.
  cbn [sw_desired] in Hdes. assert (∀ w, w ∈ done ↔ w ∈ wishes) as Hdone by (intros w; rewrite Hw, elem_of_nil; tauto).
  assert (has_rows (auto_rows db) (sw_db s1)) as Hrows by (intros t0 [Ht0 Ha]%elem_auto_rows; by apply Hs1).
  assert (∀ n, n ∈ wi_Name <$> done ↔ n ∈ wi_Name <$> wishes) as Hnames by (intros n; rewrite !list_elem_of_fmap; naive_solver).
  split.
  - intros w Hin. apply Hdone in Hin. destruct (sp_done _ _ _ Hs1 w Hin) as (t & Ht & Hn & Ha).
    assert (∀ l s0, (∃ t, t ∈ pd_targets (sw_db s0) ∧ pt_Name t = wi_Name w ∧ auto t) →
      ∃ t, t ∈ pd_targets (sw_db (fold_left (fun s t => park_row t s) l s0)) ∧ auto t ∧ pt_Name t = wi_Name w) as Hfold.
    { intros l. induction l as [|x l IH]; intros s0 (v & Hv & Hvn & Hva); cbn [fold_left]; [by exists v|]. apply IH.
      destruct (park_parks x s0) as [[->|Ep] _]; [by exists v|]. rewrite Ep. exists (if pt_ID v =? pt_ID x then with_enabled 0 v else v).
      split; [apply elem_of_on_target; by exists v|]. by destruct (_ =? _). }
    apply Hfold. by exists t.
  - intros t Ht Ha. destruct (parking_rows (sw_desired s1) (auto_rows db) s1) with (t := t) as [Hp Hq]; try done.
    { apply Hs1. }
    { intros v Hv Hav Hnv. destruct (sp_rows _ _ _ Hs1 v Hv Hav) as [(w & Hin & Hn & _)|[Hv0 _]].
      - destruct Hnv. rewrite Hdes, <- Hn. apply elem_of_union_l, elem_of_list_to_set, Hnames. by apply list_elem_of_fmap_2.
      - right. exists v. split; [by apply elem_auto_rows|done]. }
    assert (∀ n, n ∈ sw_desired s1 ↔ n ∈ wi_Name <$> wishes) as Hd by (intros n; rewrite Hdes, elem_of_union, elem_of_list_to_set; set_solver).
    rewrite Hd in Hp, Hq. split; [|done]. intros Hn. destruct (sp_rows _ _ _ Hs1 t (Hq Hn) Ha) as [(w & Hin & ? & ? & ? & ?)|[_ Hnot]].
    + split; [done|]. exists w. split; [by apply Hdone|done].
    + destruct Hnot. by apply Hnames.
Qed.

End theorems.

(** * Witnesses *)

Definition service (name : string) (port : Z) : json := JObject [("name", JString name); ("port", JNumber (itoa port))].

Definition host (id : Z) (ip : string) (services : list json) : autogen_device :=
  mkAutogenDevice id "server" ip (Some 1) (marshal (JArray services)).

Definition policy (max : Z) : ProbeAutogenConfig := mkAutogenConfig true [] [] 300 max.

Definition lan (agent : option string) : list Network := [mkNetwork 1 "lan" None agent].

Definition auto_row (id : Z) (name module target : string) (enabled : Z) : ProbeTarget :=
  mkProbeTarget id name module target 300 10 enabled "" None "" f_zero "" "center" "" (Some 7) "auto".

Definition manual_row (id : Z) : ProbeTarget :=
  mkProbeTarget id "mine" "icmp" "10.0.0.1" 60 10 1 "" None "" f_zero "" "center" "" None "manual".

(** A manual row, a parked row whose service is back, and a row whose service is
    gone. *)
Definition before : probe_db :=
  mkProbeDb [manual_row 1; auto_row 2 "auto-d7-http-80" "http" "http://10.0.0.7:80/" 0; auto_row 3 "auto-d7-ssh-22" "tcp" "10.0.0.7:22" 1]
    3 [] 0 [].

Definition scanned : list autogen_device := [host 7 "10.0.0.7" [service "http" 80; service "HTTPS" 443; service "miot" 0]].

Lemma before_ok : targets_ok before.
Proof. unfold targets_ok. cbn. split_and!; [refine (bool_decide_unpack _ _); vm_compute; exact I..| |lia]. repeat constructor; vm_compute; congruence. Qed.

Example one_sweep :
  let '(s, ok) := Sweep (policy 10) (lan (Some "a1")) scanned before in
  ok = true ∧ (sw_created s, sw_enabled s, sw_disabled s) = (1, 1, 1)
  ∧ (fun t => (pt_Name t, pt_Enabled t, pt_Vantage t)) <$> pd_targets (sw_db s)
    = [("mine", 1, "center"); ("auto-d7-http-80", 1, "center"); ("auto-d7-ssh-22", 0, "center"); ("auto-d7-https-443", 1, "agent:a1")].
Proof. vm_compute. split_and!; reflexivity. Qed.

Lemma sweep_scope_witness :
  let s := (Sweep (policy 10) (lan (Some "a1")) scanned before).1 in
  targets_ok (sw_db s) ∧ filter (fun t => ¬ auto t) (pd_targets (sw_db s)) = filter (fun t => ¬ auto t) (pd_targets before)
  ∧ pd_results (sw_db s) = pd_results before ∧ pd_certs (sw_db s) = pd_certs before
  ∧ Z.of_nat (length (auto_rows (sw_db s))) ≤ Z.max (Z.of_nat (length (auto_rows before))) 10.
Proof. apply (sweep_scope (policy 10) (lan (Some "a1")) scanned before _ true); [apply before_ok|vm_compute; reflexivity]. Defined.

Lemma sweep_reconciles_witness :
  let s := (Sweep (policy 10) (lan (Some "a1")) scanned before).1 in
  let wishes := concat (device_wishes (policy 10) (lan (Some "a1")) <$> scanned) in
  (∀ w, w ∈ wishes → ∃ t, t ∈ pd_targets (sw_db s) ∧ auto t ∧ pt_Name t = wi_Name w)
  ∧ ∀ t, t ∈ pd_targets (sw_db s) → auto t →
      (pt_Name t ∈ wi_Name <$> wishes → pt_Enabled t ≠ 0
         ∧ ∃ w, w ∈ wishes ∧ wi_Name w = pt_Name t ∧ pt_Module t = wi_Module w ∧ pt_Target t = wi_Target w)
      ∧ (pt_Name t ∉ wi_Name <$> wishes → pt_Enabled t = 0).
Proof.
  apply (sweep_reconciles (policy 10) (lan (Some "a1")) scanned before); [apply before_ok|reflexivity|vm_compute; congruence|vm_compute; reflexivity].
Defined.

(** At the cap the rest of a device's services is not looked at, and targets of
    services that are still there are parked. *)
Example cap_parks_live_targets :
  let '(s, ok) := Sweep (policy 2) (lan None) [host 7 "10.0.0.7" [service "http" 80; service "https" 443; service "ssh" 22]] before in
  ok = true ∧ (fun t => (pt_Name t, pt_Enabled t)) <$> auto_rows (sw_db s) = [("auto-d7-http-80", 1); ("auto-d7-ssh-22", 0)].
Proof. vm_compute. split; reflexivity. Qed.

(** A service listed twice (the port over tcp and udp) breaks the sweep off, and
    nothing is parked. *)
Example repeated_service_breaks_sweep :
  let '(s, ok) := Sweep (policy 10) (lan None) [host 8 "10.0.0.8" [service "dns" 53; service "dns" 53]] before in
  ok = false ∧ (fun t => (pt_Name t, pt_Enabled t)) <$> auto_rows (sw_db s)
               = [("auto-d7-http-80", 0); ("auto-d7-ssh-22", 1); ("auto-d8-dns-53", 1)].
Proof. vm_compute. split; reflexivity. Qed.

(** A change of the network's agent alone is not followed. *)
Example vantage_not_followed :
  let '(s, ok) := Sweep (policy 10) (lan (Some "a1")) [host 7 "10.0.0.7" [service "ssh" 22]] before in
  ok = true ∧ (fun t => (pt_Name t, pt_Vantage t)) <$> auto_rows (sw_db s)
              = [("auto-d7-http-80", "center"); ("auto-d7-ssh-22", "center")].
Proof. vm_compute. split; reflexivity. Qed.

(** The address of an IPv6 device is not bracketed: the target is one the rules
    refuse. *)
Example ipv6_target_malformed :
  autogenPlan "ssh" "fd00::7" 22 = ("tcp", "fd00::7:22")
  ∧ ValidateProbeTargetGrammar (fun _ => None) "tcp" "fd00::7:22" = Err "target must be host:port (e.g. example.com:443)".
Proof. split; vm_compute; reflexivity. Qed.
