(* ===== verification/ProbeDispatch.v ===== *)
(** The dispatch of probe plans to agents
    (src/internal/service/probetarget/dispatcher.go): the plan of every agent, its
    fingerprint, and when a plan is sent again.

    [sha256] is crypto/sha256 with hex.EncodeToString.  The options column is text
    the encoder wrote, so a raw message is re-emitted as it is.  The loop over the
    agents with a plan ranges over a Go map; the model takes the agents in the
    order of the map's enumeration.  The sender is an interface; the command queue
    of the center implements it. *)

From S2P Require Import Prelude Db DeviceStore Json AgentCommand ProbeStore ProbeRules.
From stdpp Require sorting.

Open Scope Z_scope.

Record Spec := mkSpec {
  sc_ID : Z; sc_Name : string; sc_Module : string; sc_Target : string; sc_IntervalSeconds : Z; sc_TimeoutSeconds : Z;
  sc_Vantage : string; sc_Options : string
}.

Definition planRefreshInterval : Z := 5 * 60 * nanos_per_second.

Definition legacySupportedModules : gset string := {["icmp"; "http"; "tls"]}.

Record AgentDispatcher := mkDispatcher {
  di_lastFingerprint : gmap string string; di_lastSentAt : gmap string Z; di_lastHeldBack : gmap string Z
}.

Definition NewAgentDispatcher : AgentDispatcher := mkDispatcher ∅ ∅ ∅.

(** * Capabilities *)

(** The agents with a network, in the order of the networks. *)
Definition knownAgents (nets : list Network) : list string :=
  omap (fun n => a ← net_AgentID n; if decide (trim_space a = "") then None else Some (trim_space a)) nets.

Definition supported_set (column : string) : gset string :=
  list_to_set (List.filter (fun m => negb (bool_decide (m = ""))) (trim_space <$> split_on "," column)).

Definition agentCapabilities (rows : list AgentStatus) : gmap string (gset string) :=
  fold_left (fun caps r =>
    if decide (trim_space (as_SupportedModules r) = "") then caps
    else let set := supported_set (as_SupportedModules r) in
         if decide (set = ∅) then caps else <[as_AgentID r := set]> caps) rows ∅.

Definition agentSupports (caps : gmap string (gset string)) (agentID module : string) : bool :=
  match caps !! agentID with
  | Some set => bool_decide (module ∈ set)
  | None => bool_decide (module ∈ legacySupportedModules)
  end.

(** * Plans *)

Definition agentVantageFor (planVantage agentID : string) : string :=
  if decide (planVantage = ProbeVantageAll) then ProbeVantageAgentPrefix +:+ agentID else planVantage.

Definition spec_of (agentID : string) (t : ProbeTarget) : Spec :=
  mkSpec (pt_ID t) (pt_Name t) (pt_Module t) (pt_Target t) (pt_IntervalSeconds t) (pt_TimeoutSeconds t)
    (agentVantageFor (pt_Vantage t) agentID) (if decide (trim_space (pt_Options t) = "") then "" else pt_Options t).

Definition spec_le (a b : Spec) : Prop := sc_ID a ≤ sc_ID b.

#[export] Instance spec_le_dec : RelDecision spec_le.
Proof. intros a b. unfold spec_le. apply _. Defined.

Definition specs_of (agentID : string) (l : list ProbeTarget) : list Spec := sorting.merge_sort spec_le (spec_of agentID <$> l).

Definition spec_json (s : Spec) : option json :=
  options ← (if decide (sc_Options s = "") then Some [] else j ← unmarshal (sc_Options s); Some [("options", j)]);
  Some (JObject ([("id", JNumber (itoa (sc_ID s))); ("name", JString (sc_Name s)); ("module", JString (sc_Module s));
    ("target", JString (sc_Target s)); ("interval_seconds", JNumber (itoa (sc_IntervalSeconds s)));
    ("timeout_seconds", JNumber (itoa (sc_TimeoutSeconds s))); ("vantage", JString (sc_Vantage s))] ++ options)).

(** [json.Marshal] of the plan; nothing when it fails. *)
Definition plan_text (specs : list Spec) : string :=
  match mapM spec_json specs with Some l => marshal (JArray l) | None => "" end.

(** The targets of an agent, and how many it cannot run. *)
Record shipment := mkShipment { sh_perAgent : gmap string (list ProbeTarget); sh_heldBack : gmap string Z }.

Definition ship (caps : gmap string (gset string)) (t : ProbeTarget) (s : shipment) (agentID : string) : shipment :=
  if negb (agentSupports caps agentID (pt_Module t))
  then mkShipment (sh_perAgent s) (<[agentID := default 0 (sh_heldBack s !! agentID) + 1]> (sh_heldBack s))
  else mkShipment (<[agentID := default [] (sh_perAgent s !! agentID) ++ [t]]> (sh_perAgent s)) (sh_heldBack s).

(** The agents a target is for. *)
Definition recipients (agents : list string) (t : ProbeTarget) : list string :=
  if decide (pt_Vantage t = ProbeVantageAll) then agents
  else if has_prefix ProbeVantageAgentPrefix (pt_Vantage t) then
    let agentID := trim_prefix ProbeVantageAgentPrefix (pt_Vantage t) in if decide (agentID = "") then [] else [agentID]
  else [].

Definition group (caps : gmap string (gset string)) (agents : list string) (targets : list ProbeTarget) : shipment :=
  fold_left (fun s t => fold_left (ship caps t) (recipients agents t) s) targets (mkShipment ∅ ∅).

(** * Sending *)

(** What the dispatcher needs of the command queue: the agent, the plan with its
    fingerprint, the clock; whether it was enqueued. *)
Class CommandEnqueuer (Q : Type) := enqueue_plan : Z → string → list Spec → string → Q → Q * bool.

(** A sender that keeps every attempt with its outcome, newest first; the
    [k]-th attempt succeeds when [pt_ok k]. *)
Record plan_trace := mkTrace { pt_log : list (string * list Spec * bool); pt_ok : nat → bool }.

#[export] Instance plan_trace_enqueuer : CommandEnqueuer plan_trace := fun _ agentID specs _ q =>
  let ok := pt_ok q (length (pt_log q)) in (mkTrace ((agentID, specs, ok) :: pt_log q) (pt_ok q), ok).

(** The command queue of the center: a "probe" command with the plan. *)
Record command_queue := mkQueue { cq_service : AgentCommandService; cq_db : command_db; cq_marshal : CommandPayload → string }.

#[export] Instance command_queue_enqueuer : CommandEnqueuer command_queue := fun now agentID specs fp q =>
  let payload : CommandPayload := Some {["targets" := MemberOther (plan_text specs); "fingerprint" := MemberString fp]} in
  match Enqueue (cq_marshal q) (cq_service q) 0 no_faults now agentID "probe" payload (cq_db q) with
  | Some (db, r) => (mkQueue (cq_service q) db (cq_marshal q), is_ok r)
  | None => (q, false)
  end.

Section dispatch.
Context (sha256 : string → string) {Q : Type} `{!CommandEnqueuer Q}.

Definition PlanFingerprint (specs : list Spec) : string := sha256 (plan_text specs).

Definition sendPlan (now : Z) (agentID : string) (l : list ProbeTarget) (dq : AgentDispatcher * Q) : AgentDispatcher * Q :=
  let (d, q) := dq in
  let specs := specs_of agentID l in
  let fp := PlanFingerprint specs in
  let unchanged := bool_decide (fp = default "" (di_lastFingerprint d !! agentID)) in
  let recent := match di_lastSentAt d !! agentID with Some at_ => now - at_ <? planRefreshInterval | None => false end in
  if unchanged && (bool_decide (specs = []) || recent) then dq
  else
    let (q, ok) := enqueue_plan now agentID specs fp q in
    (if ok then mkDispatcher (<[agentID := fp]> (di_lastFingerprint d)) (<[agentID := now]> (di_lastSentAt d)) (di_lastHeldBack d)
     else d, q).

(** The first loop, over the agents with a plan. *)
Definition send_plans (now : Z) (plans : list (string * list ProbeTarget)) (dq : AgentDispatcher * Q) : AgentDispatcher * Q :=
  fold_left (fun dq p => sendPlan now p.1 p.2 dq) plans dq.

(** The second loop: known agents without a plan get the empty plan once. *)
Definition clear_plan (now : Z) (perAgent : gmap string (list ProbeTarget)) (dq : AgentDispatcher * Q) (agentID : string)
    : AgentDispatcher * Q :=
  if bool_decide (is_Some (perAgent !! agentID)) || bool_decide (default "" (di_lastFingerprint dq.1 !! agentID) = "") then dq
  else sendPlan now agentID [] dq.

(** The third loop: remember the held-back counts. *)
Definition note_held_back (heldBack : gmap string Z) (d : AgentDispatcher) (agentID : string) : AgentDispatcher :=
  let n := default 0 (heldBack !! agentID) in
  if default 0 (di_lastHeldBack d !! agentID) =? n then d
  else mkDispatcher (di_lastFingerprint d) (di_lastSentAt d) (<[agentID := n]> (di_lastHeldBack d)).

Definition DispatchTick (now : Z) (targets : list ProbeTarget) (nets : list Network) (status : list AgentStatus)
    (dq : AgentDispatcher * Q) : AgentDispatcher * Q :=
  let agents := knownAgents nets in
  let sh := group (agentCapabilities status) agents targets in
  let dq := send_plans now (map_to_list (sh_perAgent sh)) dq in
  let (d, q) := fold_left (clear_plan now (sh_perAgent sh)) agents dq in
  (fold_left (note_held_back (sh_heldBack sh)) agents d, q).

End dispatch.
