(* ===== verification/Orchestrator.v ===== *)
(** The pipeline of one host scan (src/internal/service/scannerv2/orchestrator.go,
    registry.go, interfaces.go): gathering evidence, folding it into the device
    fields, dispatching the service handlers with their cascade, and handing
    the results to the repository.

    Probes, classifiers and handlers are records of functions, as the Go
    interfaces; the repository is a class.  Handlers get the device by value,
    so the only effect of [EnrichDevice] is on the shared [Fields] map: it
    returns the new fields.  Errors of probes, handlers and repository calls
    are only logged. *)

From stdpp Require sorting.
From S2P Require Import Prelude Cidr Report DeviceStore StoreRecords Wire ProbeStore.

Open Scope Z_scope.

(** * Data *)

Notation fields := (gmap string string).

Definition get (k : string) (m : fields) : string := default "" (m !! k).

(** [CollectedData]: the concrete types of the handlers
    (handler/handler.go and cert_types.go). *)
Inductive CollectedData :=
| HTTPData (MetricsFound : bool) (MetricsURL : string)
| PrometheusData (MetricsURL Sample : string) (IsNode : bool)
| NodeExporterData (MetricsURL KernelVersion OSType : string) (MemTotalBytes CPUCount : Z)
| TLSCertCollected (ServiceName : string) (Port : Z) (Certs : list TLSCertRecord).

Record Trigger := mkTrigger { t_Service : string; t_Port : Z; t_Context : fields }.

Record ServiceContext := mkContext {
  sc_IP : string;
  sc_Identity : ServiceIdentity;
  sc_Fields : fields;
  sc_Evidence : list Evidence
}.

Record ServiceHandler := mkHandler {
  h_Service : string;
  h_GenerateHeartbeat : ServiceContext → option HeartbeatSpec;
  h_Collect : ServiceContext → option CollectedData * list Trigger;
  h_EnrichDevice : ServiceContext → option CollectedData → fields
}.

(** [ProbeHint]; the credential is opaque to the pipeline. *)
Record ProbeHint := mkHint {
  hint_Ports : list Z;
  hint_Community : string;
  hint_Timeout : Z;
  hint_PortSpec : string;
  hint_SNMPCredential : option Z
}.

Record ProbeSource := mkProbe { p_Name : string; p_Probe : string → ProbeHint → list Evidence }.

Record ServiceClassifier := mkClassifier { c_Service : string; c_Classify : list Evidence → list ServiceIdentity }.

(** * Registry *)

Record Registry := mkRegistry {
  reg_probes : gmap string ProbeSource;
  reg_classifiers : gmap string ServiceClassifier;
  reg_handlers : gmap string ServiceHandler
}.

Definition NewRegistry : Registry := mkRegistry ∅ ∅ ∅.

Definition RegisterProbe (p : ProbeSource) (r : Registry) : Registry :=
  mkRegistry (<[p_Name p := p]> (reg_probes r)) (reg_classifiers r) (reg_handlers r).

Definition RegisterClassifier (c : ServiceClassifier) (r : Registry) : Registry :=
  mkRegistry (reg_probes r) (<[c_Service c := c]> (reg_classifiers r)) (reg_handlers r).

Definition RegisterHandler (h : ServiceHandler) (r : Registry) : Registry :=
  mkRegistry (reg_probes r) (reg_classifiers r) (<[h_Service h := h]> (reg_handlers r)).

Definition ReplaceClassifier (c : ServiceClassifier) (r : Registry) : Registry := RegisterClassifier c r.

Definition name_le (a b : string) : Prop := String.leb a b = true.

#[export] Instance name_le_dec a b : Decision (name_le a b).
Proof. unfold name_le. apply _. Defined.

(** The values of a registry map by sorted name. *)
Definition by_name {A} (m : gmap string A) : list A :=
  omap (fun n => m !! n) (sorting.merge_sort name_le (map_to_list m).*1).

Definition Probes (r : Registry) : list ProbeSource := by_name (reg_probes r).
Definition Classifiers (r : Registry) : list ServiceClassifier := by_name (reg_classifiers r).
Definition Handlers (r : Registry) : list ServiceHandler := by_name (reg_handlers r).
Definition HandlerFor (service : string) (r : Registry) : option ServiceHandler := reg_handlers r !! service.

(** * Configuration *)

Record OrchestratorConfig := mkOrchConfig {
  oc_MaxConcurrentHosts : Z;
  oc_MaxCascadeDepth : Z;
  oc_PerHostTimeout : Z
}.

Definition applyDefaults (c : OrchestratorConfig) : OrchestratorConfig :=
  mkOrchConfig (if oc_MaxConcurrentHosts c <=? 0 then 50 else oc_MaxConcurrentHosts c)
    (if oc_MaxCascadeDepth c <=? 0 then 5 else oc_MaxCascadeDepth c)
    (if oc_PerHostTimeout c <=? 0 then 30 * 1000000000 else oc_PerHostTimeout c).

Definition SetTimeouts (perHost concurrentHosts : Z) (c : OrchestratorConfig) : OrchestratorConfig :=
  let c := applyDefaults c in
  mkOrchConfig (if 0 <? concurrentHosts then concurrentHosts else oc_MaxConcurrentHosts c) (oc_MaxCascadeDepth c)
    (if 0 <? perHost then perHost else oc_PerHostTimeout c).

(** The callbacks the engine injects are optional.  The MAC resolver returns
    the address, its interface, the vendor and the OUI prefix. *)
Record Orchestrator := mkOrchestrator {
  o_reg : Registry;
  o_cfg : OrchestratorConfig;
  o_seedEvidence : option (string → list Evidence);
  o_macResolver : option (string → string * string * string * string);
  o_neighborIdentityInfer : option (string → string → string → string → fields)
}.

Definition NewOrchestrator (reg : Registry) (cfg : OrchestratorConfig) : Orchestrator :=
  mkOrchestrator reg (applyDefaults cfg) None None None.

(** * Helpers on names *)

Definition stripWildcardPrefix (cn : string) : string :=
  match cn with
  | String "*" (String "." rest) => rest
  | _ => cn
  end.

Definition isWebServerName (brand : string) : bool := bool_decide (to_lower brand ∈ WebServerBrandNames).

Definition looksLikeBrandJunk (v : string) : bool := forall_string (fun a => negb (is_letter a)) v.

Definition containsFold (s substr : string) : bool := contains_str (to_lower substr) (to_lower s).

(** The cases of the switch, in order: keywords and brand. *)
Definition cert_brands : list (list string * string) :=
  [(["hikvision"; "hik"], "Hikvision"); (["dahua"], "Dahua"); (["axis"], "Axis");
   (["unifi"; "ubiquiti"], "Ubiquiti"); (["synology"], "Synology"); (["qnap"], "QNAP"); (["cisco"], "Cisco");
   (["fortinet"; "fortigate"], "Fortinet"); (["openwrt"], "OpenWrt"); (["istoreos"], "iStoreOS");
   (["gl-inet"; "glinet"], "GL.iNet")].

Definition certCNToBrand (cn : string) : string :=
  match List.find (fun c => existsb (containsFold (to_lower cn)) c.1) cert_brands with
  | Some c => c.2
  | None => ""
  end.

Definition certFieldsToBrand (subjectCN issuerOrg : string) : string :=
  let b := certCNToBrand subjectCN in
  if decide (b = "") then certCNToBrand issuerOrg else b.

(** The part of [s] before [c], when [c] occurs after the first byte. *)
Definition upto (c : ascii) (s : string) : option string :=
  match cut_at c s with
  | Some (l, _) => if decide (l = "") then None else Some l
  | None => None
  end.

Definition ssdpServerToOS (server : string) : string :=
  default "" (upto "/" (default server (upto " " server))).

Definition is_ws (a : ascii) : bool := (ascii_Z a =? 32) || (ascii_Z a =? 9).

(** [cur] is the token read so far. *)
Fixpoint split_tokens (cur s : string) : list string :=
  match s with
  | EmptyString => if decide (cur = "") then [] else [cur]
  | String a s =>
      if is_ws a then (if decide (cur = "") then split_tokens "" s else cur :: split_tokens "" s)
      else split_tokens (cur +:+ String a "") s
  end.

Definition splitWS (s : string) : list string := split_tokens "" s.

Fixpoint product_token (tokens : list string) : string :=
  match tokens with
  | [] => ""
  | t :: tokens =>
      if containsFold t "upnp" || containsFold t "ssdp" then product_token tokens
      else
        let product := default t (upto "/" t) in
        if isWebServerName product || looksLikeBrandJunk product then "" else product
  end.

Definition ssdpServerToBrand (server : string) : string :=
  let tokens := splitWS server in
  if Nat.ltb (length tokens) 3 then "" else product_token (drop 2 tokens).

(** * Folding evidence into the device fields *)

(** The guards of the fold: a value and an empty field. *)
Definition fill_field (k v : string) (m : fields) : fields :=
  if decide (v ≠ "" ∧ get k m = "") then <[k := v]> m else m.

Definition set_field_if (k v : string) (m : fields) : fields := if decide (v = "") then m else <[k := v]> m.

Definition fold_hostname (v : string) (m : fields) : fields :=
  if PlausibleHostname v then fill_field "node_hostname" v m else m.

Definition fold_cert (cn issuer : string) (m : fields) : fields :=
  let m := if decide (cn ≠ "" ∧ get "node_hostname" m = "" ∧ PlausibleHostname cn = true)
           then <["node_hostname" := stripWildcardPrefix cn]> m else m in
  let cnBrand := certFieldsToBrand cn issuer in
  let current := get "inferred_brand" m in
  if decide (cnBrand ≠ "" ∧ (current = "" ∨ isWebServerName current = true))
  then <["inferred_brand" := cnBrand]> m else m.

Definition mdns_brand_keys : list string := ["txt.vendor"; "txt.manufacturer"; "txt.md"; "txt.ty"].

Definition fold_mdns_brand (e : Evidence) (m : fields) : fields :=
  match List.find (fun k => negb (bool_decide (raw e k = "")) && negb (looksLikeBrandJunk (raw e k))) mdns_brand_keys with
  | Some k => fill_field "inferred_brand" (raw e k) m
  | None => m
  end.

Definition fold_ssdp (server : string) (m : fields) : fields :=
  if decide (server = "") then m
  else
    let m := if decide (get "os_type" m = "") then <["os_type" := ssdpServerToOS server]> m else m in
    if decide (get "inferred_brand" m = "") then <["inferred_brand" := ssdpServerToBrand server]> m else m.

Definition fold_fact (m : fields) (e : Evidence) : fields :=
  let k := e_Kind e in
  if decide (k = "mac") then
    set_field_if "oui_vendor" (raw e "oui_vendor")
      (set_field_if "oui_prefix" (raw e "oui_prefix")
         (fill_field "inferred_brand" (raw e "vendor") (fill_field "mac" (raw e "mac") m)))
  else if decide (k = "hostname") then fold_hostname (raw e "hostname") m
  else if decide (k = "tls") then fold_cert (raw e "subject_cn") (raw e "issuer_org") m
  else if decide (k = "mdns") then fold_mdns_brand e (fold_hostname (raw e "hostname") m)
  else if decide (k = "ssdp") then fold_ssdp (raw e "server") m
  else if decide (k = "netbios") then
    fill_field "netbios_workgroup" (raw e "workgroup") (fold_hostname (raw e "hostname") m)
  else m.

Definition fold_facts (evidence : list Evidence) : fields := fold_left fold_fact evidence ∅.

(** * Dispatch *)

Record pending := mkPending { pd_svc : ServiceIdentity; pd_context : option fields; pd_depth : Z }.

(** What the loop accumulates in the report; [ds_calls] lists the handlers that
    were called, with the depth of the call. *)
Record dispatched := mkDispatched {
  ds_Fields : fields;
  ds_Collected : gmap string CollectedData;
  ds_Heartbeats : list HeartbeatSpec;
  ds_calls : list (string * Z)
}.

Definition cascadeKey (s : ServiceIdentity) : string := s_Service s +:+ "@" +:+ itoa (s_Port s).

Definition with_context (s : ServiceIdentity) (ctx : option fields) : ServiceIdentity :=
  match ctx with
  | None => s
  | Some c => mkService (s_Service s) (s_Port s) (s_Protocol s) (s_Confidence s) (c ∪ s_Metadata s)
  end.

(** A cascaded service carries the trigger's context as its metadata. *)
Definition cascaded (depth : Z) (t : Trigger) : pending :=
  mkPending (mkService (t_Service t) (t_Port t) "" 0 (t_Context t)) (Some (t_Context t)) (depth + 1).

(** One call of a handler: collect, enrich, heartbeat at depth zero, triggers. *)
Definition call_handler (h : ServiceHandler) (ip : string) (evidence : list Evidence) (cur : pending) (st : dispatched)
    : dispatched * list pending :=
  let svc := with_context (pd_svc cur) (pd_context cur) in
  let ctx m := mkContext ip svc m evidence in
  let '(data, triggers) := h_Collect h (ctx (ds_Fields st)) in
  let m := h_EnrichDevice h (ctx (ds_Fields st)) data in
  (mkDispatched m
     (match data with Some d => <[s_Service (pd_svc cur) := d]> (ds_Collected st) | None => ds_Collected st end)
     (if pd_depth cur =? 0 then ds_Heartbeats st ++ option_list (h_GenerateHeartbeat h (ctx m)) else ds_Heartbeats st)
     (ds_calls st ++ [(cascadeKey (pd_svc cur), pd_depth cur)]),
   cascaded (pd_depth cur) <$> triggers).

(** The loop over the queue; [None] is out of fuel. *)
Fixpoint dispatch_loop (fuel : nat) (maxDepth : Z) (reg : Registry) (ip : string) (evidence : list Evidence)
    (queue : list pending) (visited : list string) (st : dispatched) : option dispatched :=
  match queue with
  | [] => Some st
  | cur :: queue =>
      match fuel with
      | O => None
      | S fuel =>
          let key := cascadeKey (pd_svc cur) in
          if bool_decide (key ∈ visited) then dispatch_loop fuel maxDepth reg ip evidence queue visited st
          else if maxDepth <? pd_depth cur then dispatch_loop fuel maxDepth reg ip evidence queue (key :: visited) st
          else match HandlerFor (s_Service (pd_svc cur)) reg with
               | None => dispatch_loop fuel maxDepth reg ip evidence queue (key :: visited) st
               | Some h =>
                   let '(st, more) := call_handler h ip evidence cur st in
                   dispatch_loop fuel maxDepth reg ip evidence (queue ++ more) (key :: visited) st
               end
      end
  end.

Definition initial (s : ServiceIdentity) : pending := mkPending s None 0.

Definition run_dispatch (fuel : nat) (o : Orchestrator) (ip : string) (evidence : list Evidence)
    (services : list ServiceIdentity) : option dispatched :=
  dispatch_loop fuel (oc_MaxCascadeDepth (o_cfg o)) (o_reg o) ip evidence (initial <$> services) []
    (mkDispatched (fold_facts evidence) ∅ [] []).

(** * The repository interface

    The methods the pipeline calls.  A failed call is logged: it shows as a
    state in which less was written. *)

Class Repository (R : Type) := {
  RecordEvidence_ : list Evidence → R → R;
  RecordServices_ : string → list ServiceIdentity → list Z → R → R;
  RecordDevice_ : string → fields → R → R;
  RecordHeartbeats_ : string → list HeartbeatSpec → R → R;
  RecordTLSCerts_ : string → list TLSCertRecord → R → R;
  RecordNeighbors_ : string → list NeighborSpec → R → R;
  RecordInterfaces_ : string → list InterfaceSpec → R → R;
  RecordRoutes_ : string → list RouteSpec → R → R;
  EnrichDeviceByMAC_ : string → fields → R → R
}.

(** The calls themselves, in order. *)
Inductive repo_call :=
| CallEvidence (ev : list Evidence)
| CallServices (ip : string) (services : list ServiceIdentity) (closed : list Z)
| CallDevice (ip : string) (m : fields)
| CallHeartbeats (ip : string) (specs : list HeartbeatSpec)
| CallTLSCerts (ip : string) (certs : list TLSCertRecord)
| CallNeighbors (ip : string) (ns : list NeighborSpec)
| CallInterfaces (ip : string) (faces : list InterfaceSpec)
| CallRoutes (ip : string) (rs : list RouteSpec)
| CallEnrich (mac : string) (m : fields).

#[export] Instance trace_Repository : Repository (list repo_call) := {
  RecordEvidence_ ev r := r ++ [CallEvidence ev];
  RecordServices_ ip ss closed r := r ++ [CallServices ip ss closed];
  RecordDevice_ ip m r := r ++ [CallDevice ip m];
  RecordHeartbeats_ ip hs r := r ++ [CallHeartbeats ip hs];
  RecordTLSCerts_ ip cs r := r ++ [CallTLSCerts ip cs];
  RecordNeighbors_ ip ns r := r ++ [CallNeighbors ip ns];
  RecordInterfaces_ ip faces r := r ++ [CallInterfaces ip faces];
  RecordRoutes_ ip rs r := r ++ [CallRoutes ip rs];
  EnrichDeviceByMAC_ mac m r := r ++ [CallEnrich mac m]
}.

Definition hasEvidenceKind (ev : list Evidence) (kind : string) : bool :=
  existsb (fun e => bool_decide (e_Kind e = kind)) ev.

Definition closedPortsFromEvidence (ev : list Evidence) : list Z :=
  e_Port <$> filter (fun e => e_Kind e = "port_closed" ∧ 0 < e_Port e) ev.

(** The iteration order over the map of collected data is not specified. *)
Definition extractTLSCerts (collected : gmap string CollectedData) : list TLSCertRecord :=
  concat ((fun kv => match kv.2 with TLSCertCollected _ _ certs => certs | _ => [] end) <$> map_to_list collected).

(** The neighbour's MAC and the identity it announces. *)
Definition neighbor_identity (infer : string → string → string → string → fields) (e : Evidence) : option (string * fields) :=
  let mac := raw e "neighbor_mac" in
  let sysName := raw e "sys_name" in
  let sysDesc := raw e "sys_desc" in
  let platform := raw e "platform" in
  if decide (e_Kind e = "neighbor" ∧ mac ≠ "" ∧ ¬ (sysName = "" ∧ sysDesc = "" ∧ platform = "")) then
    let m := infer mac sysName sysDesc platform in
    if decide (m = ∅) then None else Some (mac, m)
  else None.

(** [gather]: the probes run in parallel, their evidence is merged in the order
    of the sources. *)
Definition gather (o : Orchestrator) (ip : string) (hint : ProbeHint) : list Evidence :=
  concat ((fun p => p_Probe p ip hint) <$> Probes (o_reg o)).

Definition seeds (o : Orchestrator) (ip : string) : list Evidence :=
  match o_seedEvidence o with Some f => f ip | None => [] end.

(** The MAC re-read after the gathering. *)
Definition resolved_mac (o : Orchestrator) (ip : string) (evidence : list Evidence) : list Evidence :=
  match o_macResolver o with
  | Some f =>
      if hasEvidenceKind evidence "mac" then []
      else
        let '(mac, dev, vendor, ouiPrefix) := f ip in
        if decide (mac = "") then []
        else [mkEvidence "mac" 0
                (list_to_map ([("mac", mac); ("device", dev)]
                   ++ (if decide (vendor = "") then []
                       else [("vendor", vendor); ("oui_prefix", ouiPrefix); ("oui_vendor", vendor)])))]
  | None => []
  end.

Section run.
Context {R : Type} `{!Repository R}.

Definition unless_nil {A} (l : list A) (f : list A → R → R) (r : R) : R := if decide (length l = 0%nat) then r else f l r.

(** The tail of [dispatch]. *)
Definition persist_report (o : Orchestrator) (ip : string) (evidence : list Evidence) (st : dispatched) (r : R) : R :=
  let r := RecordHeartbeats_ ip (ds_Heartbeats st) (RecordDevice_ ip (ds_Fields st) r) in
  let r := unless_nil (extractTLSCerts (ds_Collected st)) (RecordTLSCerts_ ip) r in
  let r := unless_nil (ExtractNeighbors evidence) (RecordNeighbors_ ip) r in
  let r := unless_nil (ExtractInterfaces evidence) (RecordInterfaces_ ip) r in
  let r := unless_nil (ExtractRoutes evidence) (RecordRoutes_ ip) r in
  match o_neighborIdentityInfer o with
  | Some infer => fold_left (fun r me => EnrichDeviceByMAC_ me.1 me.2 r) (omap (neighbor_identity infer) evidence) r
  | None => r
  end.

Definition dispatch (fuel : nat) (o : Orchestrator) (ip : string) (evidence : list Evidence)
    (services : list ServiceIdentity) (r : R) : option (dispatched * R) :=
  st ← run_dispatch fuel o ip evidence services; Some (st, persist_report o ip evidence st r).

(** The report of a host that is not alive has no device. *)
Definition Run (fuel : nat) (o : Orchestrator) (ip : string) (hint : ProbeHint) (r : R) : option (HostReport * R) :=
  let evidence := seeds o ip ++ gather o ip hint in
  let r := RecordEvidence_ evidence r in
  if decide (length evidence = 0%nat) then Some (mkReport ip false 0 ∅ [] [] [] false, r)
  else
    let services := concat ((fun c => c_Classify c evidence) <$> Classifiers (o_reg o)) in
    let evidence := evidence ++ resolved_mac o ip evidence in
    let r := if decide (length services = 0%nat ∧ hasEvidenceKind evidence "port_closed" = false) then r
             else RecordServices_ ip services (closedPortsFromEvidence evidence) r in
    '(st, r) ← dispatch fuel o ip evidence services r;
    Some (mkReport ip true 0 (ds_Fields st) evidence services (ds_Heartbeats st) false, r).

(** * The engine (engine/engine.go)

    The hosts of a scan run concurrently; a report does not depend on what the
    other runs write, so the runs are taken in the order of the targets.
    [cancelled i] says whether the context is found done before host [i] is
    started, [no_slot] whether it is done while the scan waits for a slot.  The
    slice returned with the error of a cancelled scan is not used by its
    callers. *)

Record Engine := mkEngine {
  en_Orchestrator : Orchestrator;
  en_perProbeTimeout : Z;
  en_snmpCommunity : string;
  en_credResolver : option (Z → result string (option Z));
  en_allowReservedTargets : bool
}.

Inductive scan_err := ScanTarget (e : cidr_err) | ScanNoTargets | ScanCanceled | ScanCredential (e : string).

Definition expandTargets (fuel : nat) (e : Engine) (targets : string) : option (result cidr_err (list string)) :=
  ExpandTargetsFor fuel targets (en_allowReservedTargets e).

Definition EstimateTargetCount (fuel : nat) (e : Engine) (targets : string) : option (result cidr_err Z) :=
  r ← expandTargets fuel e targets; Some (let? ips := r in Ok (Z.of_nat (length ips))).

Definition scan_hint (e : Engine) (portSpec : string) (credentialID : Z) : result scan_err ProbeHint :=
  let hint cred := mkHint [] (en_snmpCommunity e) (en_perProbeTimeout e) portSpec cred in
  match en_credResolver e with
  | Some resolve =>
      if credentialID =? 0 then Ok (hint None)
      else match resolve credentialID with
           | Err e => Err (ScanCredential e)
           | Ok cred => Ok (hint cred)
           end
  | None => Ok (hint None)
  end.

(** The fan-out: the reports of the hosts that were started, and whether all were. *)
Fixpoint scan_hosts (fuel : nat) (o : Orchestrator) (hint : ProbeHint) (cancelled : nat → bool) (i : nat) (ips : list string)
    (r : R) : option (list HostReport * bool * R) :=
  match ips with
  | [] => Some ([], true, r)
  | ip :: ips =>
      if cancelled i then Some ([], false, r)
      else
        '(rep, r) ← Run fuel o ip hint r;
        '(reps, all, r) ← scan_hosts fuel o hint cancelled (S i) ips r;
        Some (rep :: reps, all, r)
  end.

Definition ScanTargetsWithPorts (fuel : nat) (e : Engine) (targets portSpec : string) (credentialID : Z) (no_slot : bool)
    (cancelled : nat → bool) (r : R) : option (result scan_err (list HostReport) * R) :=
  ex ← expandTargets fuel e targets;
  match ex with
  | Err err => Some (Err (ScanTarget err), r)
  | Ok ips =>
      if decide (length ips = 0%nat) then Some (Err ScanNoTargets, r)
      else if no_slot then Some (Err ScanCanceled, r)
      else match scan_hint e portSpec credentialID with
           | Err err => Some (Err err, r)
           | Ok hint =>
               '(reps, all, r) ← scan_hosts fuel (en_Orchestrator e) hint cancelled 0 ips r;
               Some (if all : bool then Ok (filter (fun rep => hr_Alive rep = true) reps) else Err ScanCanceled, r)
           end
  end.

Definition ScanTargets (fuel : nat) (e : Engine) (targets : string) := ScanTargetsWithPorts fuel e targets "".

End run.
