(* ===== verification/Handlers.v ===== *)
(** The service handlers (src/internal/service/scannerv2/handler): heartbeats,
    deep collection with the cascade http, prometheus, node_exporter, and the
    enrichment of the device fields.

    The network is two parameters: [fetch], the body of a 200 answer or the
    empty string ([fetchURL]), and [cert_chain] ([probe.CollectCertChain]). *)

From Stdlib Require Import SpecFloat.
From S2P Require Import Prelude Float64 Cidr Report Json Heartbeat ProbeStore Orchestrator.

Open Scope Z_scope.

(** * Field helpers (basic.go) *)

Definition setDeviceField (key value : string) (m : fields) : fields := <[key := value]> m.

Definition preserveExisting (key value : string) (m : fields) : fields :=
  if decide (get key m = "") then setDeviceField key value m else m.

Definition meta (svc : ServiceContext) (k : string) : string := get k (s_Metadata (sc_Identity svc)).

(** [if v, ok := Metadata[k]; ok && v != "" { f(key, v) }] *)
Definition from_meta (f : string → string → fields → fields) (svc : ServiceContext) (k key : string) (m : fields) : fields :=
  if decide (meta svc k = "") then m else f key (meta svc k) m.

Definition schemeFor (port : Z) : string := if port =? 443 then "https" else "http".

Definition urlFor (ip : string) (port : Z) (path : string) : string :=
  let path := if has_prefix "/" path then path else "/" +:+ path in
  schemeFor port +:+ "://" +:+ ip +:+ ":" +:+ itoa port +:+ path.

Definition hostPort (svc : ServiceContext) : string := sc_IP svc +:+ ":" +:+ itoa (s_Port (sc_Identity svc)).

Definition heartbeat (method target : string) : option HeartbeatSpec := Some (mkSpec method target 0 0 "" "").

Definition no_heartbeat : ServiceContext → option HeartbeatSpec := fun _ => None.
Definition tcp_heartbeat (svc : ServiceContext) : option HeartbeatSpec := heartbeat "tcp" (hostPort svc).
Definition no_collect : ServiceContext → option CollectedData * list Trigger := fun _ => (None, []).

(** * Handlers without collection (basic.go, services.go, mdns_ssdp.go, miot.go) *)

Definition SSHHandler : ServiceHandler := mkHandler "ssh" tcp_heartbeat no_collect
  (fun svc _ =>
     let m := sc_Fields svc in
     let m := if containsFold (meta svc "version") "Windows" then preserveExisting "inferred_type" "pc" m else m in
     from_meta preserveExisting svc "os_type" "os_type" m).

Definition camera_enrich (svc : ServiceContext) (_ : option CollectedData) : fields :=
  from_meta preserveExisting svc "inferred_brand" "inferred_brand" (preserveExisting "inferred_type" "camera" (sc_Fields svc)).

Definition RTSPHandler : ServiceHandler := mkHandler "rtsp" tcp_heartbeat no_collect camera_enrich.

Definition ONVIFHandler : ServiceHandler := mkHandler "onvif"
  (fun svc => let port := s_Port (sc_Identity svc) in
     heartbeat "http" (schemeFor port +:+ "://" +:+ sc_IP svc +:+ ":" +:+ itoa port +:+ "/onvif/device_service"))
  no_collect camera_enrich.

Definition CameraHandler : ServiceHandler := mkHandler "camera" (fun svc => heartbeat "icmp" (sc_IP svc)) no_collect
  (fun svc _ => from_meta setDeviceField svc "inferred_brand" "inferred_brand"
                  (setDeviceField "inferred_type" "camera" (sc_Fields svc))).

Definition SNMPHandler : ServiceHandler := mkHandler "snmp"
  (fun svc => Some (mkSpec "snmp" (sc_IP svc) 0 0
     (if decide (meta svc "snmp_community" = "") then "public" else meta svc "snmp_community") SysUpTimeOID))
  no_collect
  (fun svc _ => from_meta setDeviceField svc "os_type" "os_type"
     (from_meta setDeviceField svc "sys_descr" "inferred_description"
        (from_meta setDeviceField svc "inferred_brand" "inferred_brand"
           (from_meta setDeviceField svc "inferred_type" "inferred_type" (sc_Fields svc))))).

Definition mdnsSsdpEnrich (svc : ServiceContext) (_ : option CollectedData) : fields :=
  from_meta preserveExisting svc "model" "inferred_model"
    (from_meta preserveExisting svc "inferred_description" "inferred_description"
       (from_meta preserveExisting svc "inferred_brand" "inferred_brand"
          (from_meta preserveExisting svc "inferred_type" "inferred_type" (sc_Fields svc)))).

Definition MdnsHandler : ServiceHandler := mkHandler "mdns" no_heartbeat no_collect mdnsSsdpEnrich.
Definition DhcpHandler : ServiceHandler := mkHandler "dhcp" no_heartbeat no_collect mdnsSsdpEnrich.
Definition SsdpHandler : ServiceHandler := mkHandler "ssdp" no_heartbeat no_collect mdnsSsdpEnrich.

(** The separator of the description is U+00B7 between spaces. *)
Definition middle_dot : string := " " +:+ String "194"%char (String "183"%char " ").

Definition MiotHandler : ServiceHandler := mkHandler "miot" no_heartbeat no_collect
  (fun svc _ =>
     let m := sc_Fields svc in
     let b := meta svc "inferred_brand" in
     let current := get "inferred_brand" m in
     let m := if decide (b ≠ "" ∧ (current = "" ∨ isWebServerName current = true))
              then setDeviceField "inferred_brand" b m else m in
     let m := from_meta preserveExisting svc "inferred_model" "inferred_model" m in
     let parts := filter (fun s => s ≠ "") [meta svc "appliance"; meta svc "ecosystem"] in
     if decide (parts = []) then m else preserveExisting "inferred_description" (join middle_dot parts) m).

Definition server_enrich (svc : ServiceContext) (_ : option CollectedData) : fields :=
  preserveExisting "inferred_type" "server" (sc_Fields svc).

Definition serverServiceHandler (name : string) : ServiceHandler := mkHandler name tcp_heartbeat no_collect server_enrich.

Definition serverServiceNames : list string :=
  ["mysql"; "postgresql"; "redis"; "mongodb"; "mssql"; "memcached"; "smtp"; "pop3"; "imap"; "vnc"; "rdp"; "ldap"; "smb"].

Definition newServerHandlers : list ServiceHandler := serverServiceHandler <$> serverServiceNames.

(** * Parsing a node_exporter sample (handler.go)

    The regular expressions are written out: [first_match] is the leftmost
    match, a literal is skipped with [strip_lit]. *)

Fixpoint first_match {A} (f : string → option A) (s : string) : option A :=
  match f s with
  | Some a => Some a
  | None => match s with EmptyString => None | String _ s => first_match f s end
  end.

Fixpoint all_matches {A} (f : string → option A) (s : string) : list A :=
  option_list (f s) ++ match s with EmptyString => [] | String _ s => all_matches f s end.

(** The longest prefix of bytes in a class, and the rest. *)
Fixpoint span (f : ascii → bool) (s : string) : string * string :=
  match s with
  | EmptyString => ("", "")
  | String a s' => if f a then let '(l, r) := span f s' in (String a l, r) else ("", s)
  end.

Definition is_re_space (a : ascii) : bool :=
  let z := ascii_Z a in (z =? 32) || (z =? 9) || (z =? 10) || (z =? 12) || (z =? 13).

Definition is_number_char (a : ascii) : bool := is_digit a || str_mem a ".e+".

Definition reMemTotal (s : string) : option string :=
  r ← strip_lit "node_memory_MemTotal_bytes" s;
  let '(ws, r) := span is_re_space r in
  let '(num, _) := span is_number_char r in
  if decide (ws = "" ∨ num = "") then None else Some num.

Definition dq : string := String dquote "".

Definition reCPUCount (s : string) : option string :=
  r ← strip_lit ("node_cpu_seconds_total{cpu=" +:+ dq) s;
  let '(cpu, r) := span is_digit r in
  if decide (cpu ≠ "" ∧ has_prefix dq r = true) then Some cpu else None.

(** A label with a non-empty quoted value at the head of the string. *)
Definition label_value (label s : string) : option string :=
  r ← strip_lit (label +:+ "=" +:+ dq) s;
  let '(v, r) := span (fun a => negb (char_eqb a dquote)) r in
  if decide (v ≠ "" ∧ has_prefix dq r = true) then Some v else None.

(** The greedy [[^}]*] before the label: the last occurrence inside the braces. *)
Fixpoint last_label (label s : string) : option string :=
  match s with
  | EmptyString => None
  | String a s' =>
      if char_eqb a "}" then None
      else match last_label label s' with
           | Some v => Some v
           | None => label_value label s
           end
  end.

Definition re_uname (label s : string) : option string := r ← strip_lit "node_uname_info{" s; last_label label r.

(** [strconv.ParseFloat] of a number in the characters of the expression: the
    decimal digits and the exponent of ten. *)
Definition parse_decimal (s : string) : option (Z * Z) :=
  let s := default s (strip_lit "+" s) in
  let '(ip, r) := span is_digit s in
  let '(fp, r) := match strip_lit "." r with Some r => span is_digit r | None => ("", r) end in
  m ← (if decide (ip +:+ fp = "") then None else digits_val (ip +:+ fp) 0);
  e ← match strip_lit "e" r with
      | None => if decide (r = "") then Some 0 else None
      | Some r =>
          let r := default r (strip_lit "+" r) in
          if decide (r = "") then None else if forall_string is_digit r then digits_val r 0 else None
      end;
  Some (m, e - Z.of_nat (String.length fp)).

(** The correctly rounded quotient of two integers. *)
Definition f_of_ratio (n d : Z) : f64 :=
  if n =? 0 then f_zero
  else let '(m, e, l) := SFdiv_core_binary 53 1024 n 0 d 0 in binary_round_aux 53 1024 false m e l.

(** A value that is too large for a float is an error; one that is too large
    for [int64] converts to the smallest integer, as on amd64. *)
Definition parseMetricNumber (s : string) : Z :=
  match parse_decimal s with
  | None => 0
  | Some (m, e) =>
      match (if 0 <=? e then f_of_Z (m * 10 ^ e) else f_of_ratio m (10 ^ (- e))) with
      | S754_infinity _ => 0
      | x => if f_trunc x <=? max_int64 then f_trunc x else min_int64
      end
  end.

Definition parseNodeExporterSample (sample : string) : string * string * Z * Z :=
  (default "" (first_match (re_uname "release") sample), default "" (first_match (re_uname "sysname") sample),
   default 0 (parseMetricNumber <$> first_match reMemTotal sample),
   Z.of_nat (length (remove_dups (all_matches reCPUCount sample)))).

(** * The cascade (cascade.go, tls_collect.go) *)

(** The cases of the switch, in order: type and keywords. *)
Definition web_types : list (string * list string) :=
  [("router", ["routeros"; "mikrotik"; "tp-link"; "tp link"; "asuswrt"; "openwrt"; "padavan"; "asus router"; "edgeos";
               "edgemax"; "unifi"; "ubnt"; "router"]);
   ("nas", ["diskstation"; "synology"; "qnap"; "readynas"; "teramaster"; "asustor"; "nas"]);
   ("firewall", ["fortigate"; "palo alto"; "pfsense"; "opnsense"; "sonicwall"; "firewall"]);
   ("camera", ["hikvision"; "dahua"; "ip camera"; "ipc-"; "network camera"; "mibee cam"; "dvr"; "nvr"; "web components"]);
   ("switch", ["procurve"; "cisco catalyst"; "switch"]);
   ("embedded", ["nanopi"; "bananapi"; "raspberry pi"; "orangepi"; "rockpi"; "radxa"])].

Definition containsAny (s : string) (subs : list string) : bool := existsb (fun sub => contains_str sub s) subs.

Definition webTypeFromHints (svc : ServiceContext) : string :=
  let combined := to_lower (meta svc "server") +:+ " " +:+ to_lower (meta svc "title") +:+ " "
                  +:+ to_lower (get "node_hostname" (sc_Fields svc)) in
  match List.find (fun c => containsAny combined c.2) web_types with
  | Some c => c.1
  | None => ""
  end.

Definition brandFromKernel (kernel : string) : string :=
  if containsFold kernel "qnap" then "QNAP" else if containsFold kernel "synology" then "Synology" else "".

Section network.
Context (fetch : string → string) (cert_chain : string → Z → list TLSCertRecord).

(** The metrics URL of a context, with its default. *)
Definition metrics_url (svc : ServiceContext) : string :=
  if decide (meta svc "metrics_url" = "") then urlFor (sc_IP svc) (s_Port (sc_Identity svc)) "/metrics"
  else meta svc "metrics_url".

Definition metrics_sample (svc : ServiceContext) : string :=
  if decide (meta svc "sample" = "") then fetch (metrics_url svc) else meta svc "sample".

Definition scrape_context (url sample : string) : fields := list_to_map [("metrics_url", url); ("sample", sample)].

Definition http_collect (svc : ServiceContext) : option CollectedData * list Trigger :=
  let port := s_Port (sc_Identity svc) in
  let metricsURL := urlFor (sc_IP svc) port "/metrics" in
  let body := fetch metricsURL in
  if decide (body = "") then (Some (HTTPData false ""), [])
  else (Some (HTTPData true metricsURL), [mkTrigger "prometheus" port (scrape_context metricsURL body)]).

Definition http_enrich (svc : ServiceContext) (data : option CollectedData) : fields :=
  let m := match data with
           | Some (HTTPData true url) => setDeviceField "prometheus_url" url (sc_Fields svc)
           | _ => sc_Fields svc
           end in
  let t := webTypeFromHints svc in
  preserveExisting "inferred_type" (if decide (t = "") then "server" else t) m.

Definition HTTPHandler : ServiceHandler := mkHandler "http"
  (fun svc => heartbeat "http" (urlFor (sc_IP svc) (s_Port (sc_Identity svc)) "/")) http_collect http_enrich.

Definition prometheus_collect (svc : ServiceContext) : option CollectedData * list Trigger :=
  let url := metrics_url svc in
  let sample := metrics_sample svc in
  if decide (sample = "") then (Some (PrometheusData url "" false), [])
  else
    let isNode := contains_str "node_" sample || contains_str "node_exporter_build_info" sample in
    (Some (PrometheusData url sample isNode),
     if isNode then [mkTrigger "node_exporter" (s_Port (sc_Identity svc)) (scrape_context url sample)] else []).

Definition PrometheusHandler : ServiceHandler := mkHandler "prometheus" (fun svc => heartbeat "http" (metrics_url svc))
  prometheus_collect
  (fun svc data => match data with
                   | Some (PrometheusData url _ _) => if decide (url = "") then sc_Fields svc
                                                      else setDeviceField "prometheus_url" url (sc_Fields svc)
                   | _ => sc_Fields svc
                   end).

Definition node_exporter_collect (svc : ServiceContext) : option CollectedData * list Trigger :=
  let url := metrics_url svc in
  let sample := metrics_sample svc in
  if decide (sample = "") then (Some (NodeExporterData url "" "" 0 0), [])
  else let '(kernel, osType, mem, cpu) := parseNodeExporterSample sample in
       (Some (NodeExporterData url kernel osType mem cpu), []).

Definition node_exporter_enrich (svc : ServiceContext) (data : option CollectedData) : fields :=
  let m := sc_Fields svc in
  match data with
  | Some (NodeExporterData url kernel osType mem cpu) =>
      let m := if decide (url = "") then m else setDeviceField "node_exporter_url" url m in
      let m := if decide (kernel = "") then m
               else let m := setDeviceField "kernel_version" kernel m in
                    if decide (brandFromKernel kernel = "") then m
                    else setDeviceField "inferred_brand" (brandFromKernel kernel) m in
      let m := if decide (osType = "") then m else setDeviceField "os_type" osType m in
      let m := if 0 <? mem then setDeviceField "memory_total_bytes" (itoa mem) m else m in
      let m := if 0 <? cpu then setDeviceField "cpu_count" (itoa cpu) m else m in
      preserveExisting "inferred_type" (if 16 * 1024 * 1024 * 1024 <? mem then "pc" else "server") m
  | _ => m
  end.

Definition NodeExporterHandler : ServiceHandler :=
  mkHandler "node_exporter" no_heartbeat node_exporter_collect node_exporter_enrich.

Definition tls_collect (name : string) (svc : ServiceContext) : option CollectedData * list Trigger :=
  let port := s_Port (sc_Identity svc) in
  if port <=? 0 then (None, []) else (Some (TLSCertCollected name port (cert_chain (sc_IP svc) port)), []).

Definition tlsCollectHandler (name : string) : ServiceHandler := mkHandler name tcp_heartbeat (tls_collect name) server_enrich.

Definition tlsCollectNames : list string := ["https"; "ldaps"; "smtps"; "imaps"; "pop3s"; "ftps"; "ircs"; "telnets"].

Definition newTLSCollectHandlers : list ServiceHandler := tlsCollectHandler <$> tlsCollectNames.

Definition DefaultHandlers : list ServiceHandler :=
  [SSHHandler; HTTPHandler; PrometheusHandler; NodeExporterHandler; RTSPHandler; ONVIFHandler; SNMPHandler; CameraHandler;
   MiotHandler; MdnsHandler; SsdpHandler; DhcpHandler] ++ newServerHandlers ++ newTLSCollectHandlers.

(** The registration loop of [engine.NewEngine]. *)
Definition with_default_handlers (r : Registry) : Registry := fold_left (fun r h => RegisterHandler h r) DefaultHandlers r.

End network.
