(* ===== verification/OrchestratorSpec.v ===== *)
(** Theorems on the host pipeline: the dispatch loop returns for any handlers,
    calls each service once and follows the cascade within its depth; the
    standard handlers need three steps per service; strong type signals win
    over weak ones; the folding of evidence against a reference definition. *)

From S2P Require Import Prelude Cidr Report DeviceStore AttributesSpec Wire ProbeStore Orchestrator Handlers.

Open Scope Z_scope.

(** * The loop *)

Section loop.
Context (maxDepth : Z) (reg : Registry) (ip : string) (evidence : list Evidence).

Notation loop n q v st := (dispatch_loop n maxDepth reg ip evidence q v st).

Lemma loop_mono n m q v st r : loop n q v st = Some r → (n ≤ m)%nat → loop m q v st = Some r.
Proof.
  revert m q v st. induction n as [|n IH]; intros m q v st H Hm.
  - destruct q; [|done]. by destruct m.
  - destruct q as [|cur q]; [by destruct m|]. destruct m as [|m]; [lia|]. cbn [dispatch_loop] in *.
    assert (n ≤ m)%nat by lia.
    case_bool_decide; [by eapply IH|]. destruct (maxDepth <? pd_depth cur); [by eapply IH|].
    destruct (HandlerFor _ reg) as [h|]; [|by eapply IH].
    destruct (call_handler h ip evidence cur st) as [st' more]. by eapply IH.
Qed.

Lemma triggers_depth h cur st st' more :
  call_handler h ip evidence cur st = (st', more) → Forall (fun p => pd_depth p = pd_depth cur + 1) more.
Proof.
  unfold call_handler. destruct (h_Collect h _) as [data ts]. intros [= _ <-].
  apply list.Forall_fmap, list.Forall_forall. done.
Qed.

(** Beyond the depth nothing is called. *)
Lemma too_deep q v st : Forall (fun p => maxDepth < pd_depth p) q → ∃ n r, loop n q v st = Some r.
Proof.
  intros H. revert v. induction H as [|cur q Hd H IH]; intros v; [by exists 0%nat, st|].
  destruct (IH v) as (n1 & r1 & E1). destruct (IH (cascadeKey (pd_svc cur) :: v)) as (n2 & r2 & E2).
  destruct (decide (cascadeKey (pd_svc cur) ∈ v)) as [Hv|Hv].
  - exists (S n1), r1. cbn [dispatch_loop]. by rewrite bool_decide_true.
  - exists (S n2), r2. cbn [dispatch_loop]. rewrite bool_decide_false by done.
    by rewrite (proj2 (Z.ltb_lt _ _)).
Qed.

(** The queue holds one level of the cascade, then the next. *)
Lemma levels_return k d front back v st :
  maxDepth + 1 - d ≤ Z.of_nat k → Forall (fun p => pd_depth p = d) front → Forall (fun p => pd_depth p = d + 1) back →
  ∃ n r, loop n (front ++ back) v st = Some r.
Proof.
  revert d front back v st. induction k as [|k IHk]; intros d front back v st Hk Hf;
    revert back v st; (induction Hf as [|cur front Hd Hf IH]; intros back v st Hb; cbn [app]).
  1: { apply too_deep. eapply Forall_impl; [|exact Hb]. cbn. intros p ->. lia. }
  2: { rewrite <- (app_nil_r back). apply (IHk (d + 1)); [lia|done|constructor]. }
  all: pose proof (IH back v st Hb) as (n1 & r1 & E1);
    pose proof (IH back (cascadeKey (pd_svc cur) :: v) st Hb) as (n2 & r2 & E2);
    destruct (decide (cascadeKey (pd_svc cur) ∈ v)) as [Hv|Hv];
    [exists (S n1), r1; cbn [dispatch_loop]; by rewrite bool_decide_true|].
  - exists (S n2), r2. cbn [dispatch_loop]. rewrite bool_decide_false by done.
    by rewrite (proj2 (Z.ltb_lt _ _)) by lia.
  - destruct (maxDepth <? pd_depth cur) eqn:Hm.
    { exists (S n2), r2. cbn [dispatch_loop]. by rewrite bool_decide_false, Hm by done. }
    destruct (HandlerFor (s_Service (pd_svc cur)) reg) as [h|] eqn:Hh.
    2: { exists (S n2), r2. cbn [dispatch_loop]. by rewrite bool_decide_false, Hm, Hh by done. }
    destruct (call_handler h ip evidence cur st) as [st' more] eqn:Hc.
    pose proof (triggers_depth _ _ _ _ _ Hc) as Ht.
    destruct (IH (back ++ more) (cascadeKey (pd_svc cur) :: v) st') as (n3 & r3 & E3).
    { apply Forall_app. split; [done|]. eapply Forall_impl; [|exact Ht]. cbn. lia. }
    exists (S n3), r3. cbn [dispatch_loop]. rewrite bool_decide_false, Hm, Hh, Hc by done. by rewrite <- app_assoc.
Qed.

(** With weights that each call decreases, the weight of the queue is enough. *)
Lemma weights_return (w : pending → nat) :
  (∀ p, 0 < w p)%nat →
  (∀ p h st, HandlerFor (s_Service (pd_svc p)) reg = Some h →
     (sum_list (w <$> (call_handler h ip evidence p st).2) < w p)%nat) →
  ∀ n q v st, (sum_list (w <$> q) ≤ n)%nat → is_Some (loop n q v st).
Proof.
  intros Hpos Hdec n. induction n as [|n IH]; intros [|cur q] v st Hn; try by eexists.
  { cbn in Hn. specialize (Hpos cur). lia. }
  pose proof (Hpos cur). cbn [dispatch_loop]. cbn in Hn.
  case_bool_decide; [apply IH; lia|]. destruct (maxDepth <? pd_depth cur); [apply IH; lia|].
  destruct (HandlerFor _ reg) as [h|] eqn:Hh; [|apply IH; lia].
  pose proof (Hdec cur h st Hh) as Hd. destruct (call_handler h ip evidence cur st) as [st' more]. cbn in Hd.
  apply IH. rewrite fmap_app, sum_list_with_app. lia.
Qed.

(** ** Calls *)

Lemma call_calls h cur st st' more :
  call_handler h ip evidence cur st = (st', more) →
  ds_calls st' = ds_calls st ++ [(cascadeKey (pd_svc cur), pd_depth cur)].
Proof. unfold call_handler. destruct (h_Collect h _) as [data ts]. by intros [= <- _]. Qed.

Lemma loop_calls_prefix n q v st r : loop n q v st = Some r → ds_calls st `prefix_of` ds_calls r.
Proof.
  revert q v st. induction n as [|n IH]; intros [|cur q] v st H; try done; try (by injection H as <-).
  cbn [dispatch_loop] in H. case_bool_decide; [by eapply IH|].
  destruct (maxDepth <? pd_depth cur); [by eapply IH|].
  destruct (HandlerFor _ reg) as [h|]; [|by eapply IH].
  destruct (call_handler h ip evidence cur st) as [st' more] eqn:Hc. apply IH in H. etrans; [|exact H].
  rewrite (call_calls _ _ _ _ _ Hc). by apply prefix_app_r.
Qed.

Record calls_ok (v : list string) (st : dispatched) : Prop := mkCallsOk {
  co_once : NoDup (ds_calls st).*1;
  co_visited k : k ∈ (ds_calls st).*1 → k ∈ v;
  co_depth : Forall (fun c => 0 ≤ c.2 ≤ maxDepth) (ds_calls st)
}.

Lemma calls_ok_visit k v st : calls_ok v st → calls_ok (k :: v) st.
Proof. intros [H1 H2 H3]. split; [done| |done]. intros j Hj. right. by apply H2. Qed.

Lemma calls_ok_call h cur v st st' more :
  call_handler h ip evidence cur st = (st', more) → cascadeKey (pd_svc cur) ∉ v → 0 ≤ pd_depth cur ≤ maxDepth →
  calls_ok v st → calls_ok (cascadeKey (pd_svc cur) :: v) st'.
Proof.
  intros Hc Hv Hd [H1 H2 H3]. pose proof (call_calls _ _ _ _ _ Hc) as E. split; rewrite E, ?fmap_app.
  - apply list.NoDup_app. split_and!; [done| |apply list.NoDup_singleton].
    intros k Hk%H2 ->%list_elem_of_singleton. done.
  - intros k [Hk%H2| ->%list_elem_of_singleton]%elem_of_app; [by right|by left].
  - apply Forall_app. split; [done|]. by apply list.Forall_singleton.
Qed.

Lemma loop_calls_ok n q v st r :
  loop n q v st = Some r → Forall (fun p => 0 ≤ pd_depth p) q → calls_ok v st → ∃ v', calls_ok v' r.
Proof.
  revert q v st. induction n as [|n IH]; intros [|cur q] v st H Hq Hok; try done; try (injection H as <-; by exists v).
  apply list.Forall_cons in Hq as [Hcur Hq]. pose proof (calls_ok_visit (cascadeKey (pd_svc cur)) _ _ Hok) as Hv.
  cbn [dispatch_loop] in H. case_bool_decide as Hin; [by eapply IH|].
  destruct (maxDepth <? pd_depth cur) eqn:Hm; [by eapply IH|]. apply Z.ltb_ge in Hm.
  destruct (HandlerFor _ reg) as [h|]; [|by eapply IH].
  destruct (call_handler h ip evidence cur st) as [st' more] eqn:Hc. eapply IH; [exact H| |].
  - apply Forall_app. split; [done|]. eapply Forall_impl; [|by eapply triggers_depth]. cbn. lia.
  - by eapply calls_ok_call.
Qed.

(** The services of the report come first in the queue: each is visited at depth
    zero, and called when it has a handler. *)
Lemma loop_services n ss back v st r :
  0 ≤ maxDepth → loop n ((initial <$> ss) ++ back) v st = Some r →
  (∀ k, k ∈ v → (k, 0) ∈ ds_calls st ∨ ∃ s, cascadeKey s = k ∧ HandlerFor (s_Service s) reg = None) →
  ∀ s, s ∈ ss → (cascadeKey s, 0) ∈ ds_calls r ∨ ∃ s', cascadeKey s' = cascadeKey s ∧ HandlerFor (s_Service s') reg = None.
Proof.
  intros Hmax. revert n back v st. induction ss as [|x ss IH]; intros n back v st H Hv s Hs; [by apply not_elem_of_nil in Hs|].
  destruct n as [|n]; [done|]. cbn [fmap list_fmap app dispatch_loop] in H. cbn [pd_svc pd_depth initial] in H.
  assert (∀ k, (k, 0) ∈ ds_calls st → (k, 0) ∈ ds_calls r) as Hkeep.
  { pose proof (loop_calls_prefix (S n) (initial x :: (initial <$> ss) ++ back) v st r H) as Hp.
    intros k Hk. by eapply elem_of_prefix. }
  case_bool_decide as Hin.
  { apply elem_of_cons in Hs as [->|Hs]; [|by eapply IH]. destruct (Hv _ Hin) as [Hc|Hc]; [left; by apply Hkeep|by right]. }
  rewrite (proj2 (Z.ltb_ge _ _)) in H by done.
  destruct (HandlerFor (s_Service x) reg) as [h|] eqn:Hh.
  - destruct (call_handler h ip evidence (initial x) st) as [st' more] eqn:Hc. rewrite <- app_assoc in H.
    pose proof (call_calls _ _ _ _ _ Hc) as E. cbn [pd_svc pd_depth initial] in E.
    pose proof (loop_calls_prefix _ _ _ _ _ H) as Hp.
    apply elem_of_cons in Hs as [->|Hs].
    + left. eapply elem_of_prefix; [|exact Hp]. rewrite E. apply elem_of_app. right. by left.
    + eapply IH; [exact H| |done]. intros k [->|Hk]%elem_of_cons; rewrite E.
      * left. apply elem_of_app. right. by left.
      * destruct (Hv _ Hk) as [?|?]; [left; apply elem_of_app; by left|by right].
  - assert (∀ k, k ∈ cascadeKey x :: v → (k, 0) ∈ ds_calls st ∨ ∃ s, cascadeKey s = k ∧ HandlerFor (s_Service s) reg = None) as Hv'.
    { intros k [->|Hk]%elem_of_cons; [right; by exists x|by apply Hv]. }
    apply elem_of_cons in Hs as [->|Hs]; [right; by exists x|by eapply IH].
Qed.

End loop.

(** * Keys *)

Lemma at_mem a x : str_mem "@" (a +:+ "@" +:+ x) = true.
Proof.
  induction a as [|c a IH]; [done|]. change (String c a +:+ "@" +:+ x) with (String c (a +:+ "@" +:+ x)).
  cbn [str_mem]. by rewrite IH, orb_true_r.
Qed.

Lemma app_at_inj a b x y :
  str_mem "@" x = false → str_mem "@" y = false → a +:+ "@" +:+ x = b +:+ "@" +:+ y → a = b ∧ x = y.
Proof.
  intros Hx Hy. revert b. induction a as [|c a IH]; intros [|d b] E.
  - by injection E.
  - assert (x = b +:+ "@" +:+ y) as -> by (by injection E). by rewrite at_mem in Hx.
  - assert (a +:+ "@" +:+ x = y) as <- by (by injection E). by rewrite at_mem in Hy.
  - injection E as -> E. by apply IH in E as [-> ->].
Qed.

Lemma pretty_N_go_at x s : str_mem "@" s = false → str_mem "@" (pretty_N_go x s) = false.
Proof.
  revert s. induction (N.lt_wf_0 x) as [x _ IH]; intros s Hs.
  destruct (decide (x = 0)%N) as [->|Hx]; [by rewrite pretty_N_go_0|].
  rewrite pretty_N_go_step by lia. apply IH; [apply N.div_lt; lia|]. cbn. rewrite Hs, orb_false_r.
  assert (x `mod` 10 < 10)%N as Hd by (apply N.mod_lt; lia). revert Hd. generalize (x `mod` 10)%N. intros d Hd.
  destruct d as [|d]; [done|]. do 4 (destruct d as [d|d|]; try done; try lia).
Qed.

Lemma itoa_at z : str_mem "@" (itoa z) = false.
Proof.
  unfold itoa, pretty. destruct z as [|p|p]; cbn [pretty_Z]; [done| |];
    unfold pretty, pretty_positive, pretty, pretty_N; rewrite decide_False by done; [by apply pretty_N_go_at|].
  change (str_mem "@" (pretty_N_go (Npos p) "") = false). by apply pretty_N_go_at.
Qed.

Lemma cascadeKey_service s s' : cascadeKey s = cascadeKey s' → s_Service s = s_Service s'.
Proof. intros E. by apply app_at_inj in E as [? _]; [|apply itoa_at..]. Qed.

(** * Termination and calls *)

(** C8.  Dispatching returns, whatever the handlers trigger: the depth bounds the
    cascade, and any larger amount of fuel gives the same result. *)
Theorem dispatch_terminates o ip evidence services :
  ∃ n st, ∀ m, (n ≤ m)%nat → run_dispatch m o ip evidence services = Some st.
Proof.
  destruct (levels_return (oc_MaxCascadeDepth (o_cfg o)) (o_reg o) ip evidence
    (Z.to_nat (oc_MaxCascadeDepth (o_cfg o) + 1)) 0 (initial <$> services) [] [] (mkDispatched (fold_facts evidence) ∅ [] []))
    as (n & st & H); [lia|by apply list.Forall_fmap, list.Forall_forall|constructor|].
  rewrite app_nil_r in H. exists n, st. intros m Hm. by eapply loop_mono.
Qed.

(** C9.  No service at a port is handled twice and no call is deeper than the
    configured depth; every classified service that has a handler is handled,
    at depth zero. *)
Theorem dispatch_calls_once fuel o ip evidence services st
    (Hmax : 0 ≤ oc_MaxCascadeDepth (o_cfg o)) (Hrun : run_dispatch fuel o ip evidence services = Some st) :
  NoDup (ds_calls st).*1
  ∧ Forall (fun c => 0 ≤ c.2 ≤ oc_MaxCascadeDepth (o_cfg o)) (ds_calls st)
  ∧ ∀ s, s ∈ services → is_Some (HandlerFor (s_Service s) (o_reg o)) → (cascadeKey s, 0) ∈ ds_calls st.
Proof.
  unfold run_dispatch in Hrun.
  destruct (loop_calls_ok _ _ _ _ _ _ _ _ _ Hrun) as (v & [H1 _ H3]).
  { apply list.Forall_fmap, list.Forall_forall. intros s _. cbn. lia. }
  { split; [constructor|intros k Hk; by apply not_elem_of_nil in Hk|constructor]. }
  split_and!; [done..|]. intros s Hs [h Hh]. rewrite <- (app_nil_r (initial <$> services)) in Hrun.
  destruct (loop_services _ _ _ _ _ _ _ _ _ _ Hmax Hrun) with (s := s) as [?|(s' & E & Hn)]; [|done|done|].
  { intros k Hk. by apply not_elem_of_nil in Hk. }
  apply cascadeKey_service in E. congruence.
Qed.

(** * The standard handlers *)

Section standard.
Context (fetch : string → string) (cert_chain : string → Z → list TLSCertRecord).

Definition standard_registry (r : Registry) : Prop := reg_handlers r = reg_handlers (with_default_handlers fetch cert_chain NewRegistry).

Lemma registered (l : list ServiceHandler) r s h :
  HandlerFor s (fold_left (fun r h => RegisterHandler h r) l r) = Some h → (h ∈ l ∧ h_Service h = s) ∨ HandlerFor s r = Some h.
Proof.
  revert r. induction l as [|x l IH]; intros r H; [by right|]. cbn in H.
  apply IH in H as [[H1 H2]|H]; [left; split; [by right|done]|]. unfold HandlerFor, RegisterHandler in H. cbn in H.
  destruct (decide (h_Service x = s)) as [<-|Hne]; [rewrite lookup_insert_eq in H|rewrite lookup_insert_ne in H by done].
  - injection H as <-. left. split; [by left|done].
  - by right.
Qed.

Lemma standard_handler r s h :
  standard_registry r → HandlerFor s r = Some h → h ∈ DefaultHandlers fetch cert_chain ∧ h_Service h = s.
Proof.
  intros Hr H. unfold HandlerFor in H. rewrite Hr in H. apply registered in H as [?|H]; [done|].
  unfold HandlerFor, NewRegistry in H. cbn [reg_handlers] in H. by rewrite lookup_empty in H.
Qed.

(** What holds of the named handlers and of the two families holds of all. *)
Lemma standard_ind (P : ServiceHandler → Prop) :
  P SSHHandler → P (HTTPHandler fetch) → P (PrometheusHandler fetch) → P (NodeExporterHandler fetch) → P RTSPHandler →
  P ONVIFHandler → P SNMPHandler → P CameraHandler → P MiotHandler → P MdnsHandler → P SsdpHandler → P DhcpHandler →
  (∀ n, n ∈ serverServiceNames → P (serverServiceHandler n)) →
  (∀ n, n ∈ tlsCollectNames → P (tlsCollectHandler cert_chain n)) →
  ∀ h, h ∈ DefaultHandlers fetch cert_chain → P h.
Proof.
  intros. unfold DefaultHandlers in *.
  repeat match goal with
  | H : _ ∈ _ :: _ |- _ => apply elem_of_cons in H as [->|H]; [done|]
  | H : _ ∈ (_ :: _) ++ _ |- _ => cbn [app] in H
  end.
  match goal with H : _ ∈ [] ++ _ |- _ => cbn [app] in H | _ => idtac end.
  match goal with H : _ ∈ _ ++ _ |- _ => apply elem_of_app in H as [(n & -> & ?)%list_elem_of_fmap|(n & -> & ?)%list_elem_of_fmap] end;
    auto.
Qed.

(** How many calls a service can lead to. *)
Definition name_weight (n : string) : nat := if decide (n = "http") then 3 else if decide (n = "prometheus") then 2 else 1.

Definition weight (p : pending) : nat := name_weight (s_Service (pd_svc p)).

Definition few_triggers (h : ServiceHandler) : Prop :=
  ∀ svc, (sum_list ((fun t => name_weight (t_Service t)) <$> (h_Collect h svc).2) < name_weight (h_Service h))%nat.

Lemma standard_triggers h : h ∈ DefaultHandlers fetch cert_chain → few_triggers h.
Proof.
  revert h. apply (standard_ind few_triggers); try (intros svc; by apply Nat.ltb_lt).
  - intros svc. cbn [h_Collect HTTPHandler h_Service]. unfold http_collect. cbv zeta. case_decide; by apply Nat.ltb_lt.
  - intros svc. cbn [h_Collect PrometheusHandler h_Service]. unfold prometheus_collect. cbv zeta.
    case_decide; [by apply Nat.ltb_lt|]. destruct (_ || _); by apply Nat.ltb_lt.
  - intros svc. cbn [h_Collect NodeExporterHandler h_Service]. unfold node_exporter_collect. cbv zeta.
    case_decide; [by apply Nat.ltb_lt|].
    destruct (parseNodeExporterSample _) as [[[? ?] ?] ?]. by apply Nat.ltb_lt.
  - intros n _ svc. unfold name_weight. cbn. repeat case_decide; lia.
  - intros n _ svc. cbn [h_Collect tlsCollectHandler h_Service]. unfold tls_collect, name_weight. cbv zeta.
    destruct (_ <=? 0); cbn; repeat case_decide; lia.
Qed.

Lemma standard_weight h p ip evidence st :
  h ∈ DefaultHandlers fetch cert_chain → h_Service h = s_Service (pd_svc p) →
  (sum_list (weight <$> (call_handler h ip evidence p st).2) < weight p)%nat.
Proof.
  intros H%standard_triggers E. unfold call_handler.
  specialize (H (mkContext ip (with_context (pd_svc p) (pd_context p)) (ds_Fields st) evidence)).
  destruct (h_Collect h _) as [data ts]. cbn [snd] in *. rewrite <- list_fmap_compose. rewrite E in H. exact H.
Qed.

(** Three steps for each service suffice with the standard handlers: an http
    service leads to a prometheus and a node_exporter call at most. *)
Theorem standard_dispatch_returns o ip evidence services
    (Hreg : standard_registry (o_reg o)) : is_Some (run_dispatch (3 * length services) o ip evidence services).
Proof.
  apply (weights_return _ _ _ _ weight).
  - intros p. unfold weight, name_weight. repeat case_decide; lia.
  - intros p h st Hh. apply (standard_handler _ _ _ Hreg) in Hh as [? ?]. by apply standard_weight.
  - induction services as [|s l IH]; [done|]. cbn. cbn in IH. unfold weight at 1, name_weight. repeat case_decide; lia.
Qed.

(** ** Types *)

(** The services whose handler sets the type over any other. *)
Definition strong_type (s : ServiceIdentity) : option string :=
  if decide (s_Service s = "camera") then Some "camera"
  else if decide (s_Service s = "snmp" ∧ get "inferred_type" (s_Metadata s) ≠ "") then Some (get "inferred_type" (s_Metadata s))
  else None.

Definition type_of (m : fields) : string := get "inferred_type" m.

Lemma get_set k v m : get k (setDeviceField k v m) = v.
Proof. unfold get, setDeviceField. by rewrite lookup_insert_eq. Qed.

Lemma get_set_ne k k' v m : k' ≠ k → get k (setDeviceField k' v m) = get k m.
Proof. intros. unfold get, setDeviceField. by rewrite lookup_insert_ne. Qed.

(** A value that is there is kept. *)
Definition retains (k : string) (m m' : fields) : Prop := get k m ≠ "" → get k m' = get k m.

Lemma retains_refl k m : retains k m m.
Proof. done. Qed.

Lemma retains_set k k' v m m' : k' ≠ k → retains k m m' → retains k m (setDeviceField k' v m').
Proof. intros Hk H Hm. rewrite get_set_ne by done. by apply H. Qed.

Lemma retains_preserve k k' v m m' : retains k m m' → retains k m (preserveExisting k' v m').
Proof.
  intros H Hm. specialize (H Hm). unfold preserveExisting. case_decide as Hk; [|done].
  rewrite get_set_ne; [done|]. intros ->. congruence.
Qed.

Lemma retains_meta_preserve svc j k k' m m' : retains k m m' → retains k m (from_meta preserveExisting svc j k' m').
Proof. intros H. unfold from_meta. case_decide; [done|by apply retains_preserve]. Qed.

Lemma retains_meta_set svc j k k' m m' : k' ≠ k → retains k m m' → retains k m (from_meta setDeviceField svc j k' m').
Proof. intros Hk H. unfold from_meta. case_decide; [done|by apply retains_set]. Qed.

Ltac keep :=
  cbv zeta; repeat match goal with |- retains _ _ (if ?b then _ else _) => destruct b end;
  repeat first [apply retains_refl | apply retains_preserve | apply retains_meta_preserve
    | apply retains_set; [done|] | apply retains_meta_set; [done|]
    | match goal with |- retains _ _ (if ?b then _ else _) => destruct b end].

(** A handler pins a strong type and retains any type that is there. *)
Definition types_well (h : ServiceHandler) : Prop :=
  ∀ svc data, h_Service h = s_Service (sc_Identity svc) →
  match strong_type (sc_Identity svc) with
  | Some t => type_of (h_EnrichDevice h svc data) = t
  | None => retains "inferred_type" (sc_Fields svc) (h_EnrichDevice h svc data)
  end.

Lemma weak_handler h :
  h_Service h ≠ "camera" → h_Service h ≠ "snmp" →
  (∀ svc data, retains "inferred_type" (sc_Fields svc) (h_EnrichDevice h svc data)) → types_well h.
Proof.
  intros Hc Hs H svc data E. unfold strong_type.
  rewrite decide_False by congruence. rewrite decide_False by (intros [? _]; congruence). apply H.
Qed.

Lemma get_meta_set svc j k m : get k (from_meta setDeviceField svc j k m) = if decide (meta svc j = "") then get k m else meta svc j.
Proof. unfold from_meta. case_decide; [done|apply get_set]. Qed.

Lemma get_meta_set_ne svc j k k' m : k' ≠ k → get k (from_meta setDeviceField svc j k' m) = get k m.
Proof. intros. unfold from_meta. case_decide; [done|by apply get_set_ne]. Qed.

Lemma snmp_types : types_well SNMPHandler.
Proof.
  intros svc data E. cbn [h_Service SNMPHandler] in E. unfold strong_type. rewrite decide_False by (by rewrite <- E).
  unfold type_of. cbn [h_EnrichDevice SNMPHandler].
  case_decide as H.
  - rewrite !get_meta_set_ne by done. rewrite get_meta_set. unfold meta. by rewrite decide_False by (by destruct H).
  - assert (meta svc "inferred_type" = "") as E'.
    { unfold meta. destruct (decide (get "inferred_type" (s_Metadata (sc_Identity svc)) = "")); [done|]. exfalso. by apply H. }
    keep. intros _. rewrite get_meta_set. by rewrite decide_True.
Qed.

Lemma camera_types : types_well CameraHandler.
Proof.
  intros svc data E. cbn [h_Service CameraHandler] in E. unfold strong_type. rewrite decide_True by done.
  unfold type_of. cbn [h_EnrichDevice CameraHandler]. rewrite get_meta_set_ne by done. apply get_set.
Qed.

Lemma server_family (names : list string) n h :
  bool_decide ("camera" ∉ names ∧ "snmp" ∉ names) = true → n ∈ names → h_Service h = n →
  (∀ svc data, h_EnrichDevice h svc data = server_enrich svc data) → types_well h.
Proof.
  intros [Hc Hs]%bool_decide_eq_true Hn E He. apply weak_handler; [congruence..|]. intros svc data. rewrite He.
  unfold server_enrich. keep.
Qed.

Lemma standard_types h : h ∈ DefaultHandlers fetch cert_chain → types_well h.
Proof.
  revert h. apply (standard_ind types_well); try apply snmp_types; try apply camera_types;
    try (intros n Hn; by eapply server_family; [|exact Hn|..]);
    (apply weak_handler; [done..|]; intros svc data; cbn [h_EnrichDevice SSHHandler RTSPHandler ONVIFHandler MiotHandler
      MdnsHandler SsdpHandler DhcpHandler HTTPHandler PrometheusHandler NodeExporterHandler];
     unfold http_enrich, camera_enrich, mdnsSsdpEnrich, node_exporter_enrich; try (by keep)).
  - cbv zeta. apply retains_preserve. destruct data as [[[] ?| | |]|]; keep.
  - destruct data as [[| | |]|]; keep.
  - destruct data as [[| | |]|]; keep.
Qed.

Definition cascade_names : list string := ["prometheus"; "node_exporter"].

Lemma standard_cascades h svc :
  h ∈ DefaultHandlers fetch cert_chain → Forall (fun t => t_Service t ∈ cascade_names) (h_Collect h svc).2.
Proof.
  revert svc. intros svc Hh. revert h Hh.
  apply (standard_ind (fun h => Forall (fun t => t_Service t ∈ cascade_names) (h_Collect h svc).2)); try (by constructor).
  - cbn [h_Collect HTTPHandler]. unfold http_collect. cbv zeta. case_decide; [constructor|]. apply list.Forall_singleton. by left.
  - cbn [h_Collect PrometheusHandler]. unfold prometheus_collect. cbv zeta. case_decide; [constructor|].
    destruct (_ || _); [|constructor]. apply list.Forall_singleton. right. by left.
  - cbn [h_Collect NodeExporterHandler]. unfold node_exporter_collect. cbv zeta. case_decide; [constructor|].
    destruct (parseNodeExporterSample _) as [[[? ?] ?] ?]. constructor.
  - intros n Hn. cbn [h_Collect tlsCollectHandler]. unfold tls_collect. cbv zeta. destruct (_ <=? 0); constructor.
Qed.

Definition strong (p : pending) : option string := strong_type (with_context (pd_svc p) (pd_context p)).

Lemma cascaded_weak d ts : Forall (fun t => t_Service t ∈ cascade_names) ts → Forall (fun p => strong p = None) (cascaded d <$> ts).
Proof.
  intros H. apply list.Forall_fmap. eapply Forall_impl; [|exact H]. intros [n port c] Ht. unfold compose, strong, strong_type.
  cbn [cascaded pd_svc pd_context with_context s_Service s_Metadata t_Service t_Context] in *.
  assert (n ≠ "camera" ∧ n ≠ "snmp") as [Hc Hs].
  { split; intros ->; revert Ht; refine (bool_decide_unpack _ _); exact I. }
  rewrite decide_False by done. by rewrite decide_False by (by intros [? _]).
Qed.

(** The pending services that will be looked at: the first of each key. *)
Definition effective (v : list string) (q : list pending) : list pending := first_by (fun p => cascadeKey (pd_svc p)) v q.

Lemma effective_weak v q more :
  Forall (fun p => strong p = None) more → omap strong (effective v (q ++ more)) = omap strong (effective v q).
Proof.
  intros H. unfold effective. revert v. induction q as [|p q IH]; intros v; cbn [app].
  - revert v. induction H as [|x more Hx H IH]; intros v; [done|]. cbn [first_by]. case_decide; [apply IH|].
    cbn [omap list_omap]. rewrite Hx. apply IH.
  - cbn [first_by]. case_decide; [apply IH|]. cbn [omap list_omap]. by rewrite IH.
Qed.

Lemma registration_kept (l : list ServiceHandler) r s :
  is_Some (HandlerFor s r) ∨ s ∈ h_Service <$> l → is_Some (HandlerFor s (fold_left (fun r h => RegisterHandler h r) l r)).
Proof.
  revert r. induction l as [|x l IH]; intros r H; cbn [fold_left].
  { destruct H as [H|H]; [done|by apply not_elem_of_nil in H]. }
  apply IH. unfold HandlerFor, RegisterHandler in *. cbn [reg_handlers].
  destruct (decide (h_Service x = s)) as [<-|Hne]; [left; by rewrite lookup_insert_eq|].
  rewrite lookup_insert_ne by done. destruct H as [H|[->|H]%elem_of_cons]; [by left|done|by right].
Qed.

Lemma strong_handled r s : standard_registry r → HandlerFor (s_Service s) r = None → strong_type s = None.
Proof.
  intros Hr Hn. unfold strong_type.
  assert (∀ n, n ∈ ["camera"; "snmp"] → s_Service s ≠ n) as H.
  { intros n Hin <-. unfold HandlerFor in Hn. rewrite Hr in Hn.
    destruct (registration_kept (DefaultHandlers fetch cert_chain) NewRegistry (s_Service s)) as [h E]; [|unfold HandlerFor in E; unfold
      with_default_handlers in Hn; congruence].
    right. apply elem_of_cons in Hin as [E|E%list_elem_of_singleton]; rewrite E; refine (bool_decide_unpack _ _); vm_compute; exact I. }
  rewrite decide_False by (apply H; by left). rewrite decide_False; [done|]. intros [E _]. revert E. apply H. right. by left.
Qed.

Lemma with_context_service s c : s_Service (with_context s c) = s_Service s.
Proof. by destruct c. Qed.

Lemma call_types h ip evidence cur st st' more :
  h ∈ DefaultHandlers fetch cert_chain → h_Service h = s_Service (pd_svc cur) →
  call_handler h ip evidence cur st = (st', more) →
  Forall (fun p => strong p = None) more
  ∧ match strong cur with
    | Some t => type_of (ds_Fields st') = t
    | None => retains "inferred_type" (ds_Fields st) (ds_Fields st')
    end.
Proof.
  intros Hh Es Hc. unfold call_handler in Hc.
  pose proof (standard_cascades h (mkContext ip (with_context (pd_svc cur) (pd_context cur)) (ds_Fields st) evidence) Hh) as Hw.
  pose proof (standard_types h Hh (mkContext ip (with_context (pd_svc cur) (pd_context cur)) (ds_Fields st) evidence)) as Ht.
  cbn [sc_Identity sc_Fields] in Ht. destruct (h_Collect h _) as [data ts]. injection Hc as <- <-. cbn [snd] in Hw.
  split; [by apply cascaded_weak|]. cbn [ds_Fields]. apply Ht. by rewrite with_context_service.
Qed.

Lemma strong_nonempty s t : strong_type s = Some t → t ≠ "".
Proof. unfold strong_type. case_decide; [by intros [= <-]|]. case_decide as Ht; [|done]. intros [= <-]. by destruct Ht. Qed.

Lemma omap_step {A B} (f : A → option B) x l :
  omap f (x :: l) = match f x with Some y => y :: omap f l | None => omap f l end.
Proof. done. Qed.

Lemma loop_types maxDepth reg ip evidence n q v st r :
  standard_registry reg → dispatch_loop n maxDepth reg ip evidence q v st = Some r →
  Forall (fun p => pd_depth p ≤ maxDepth ∨ strong p = None) q →
  match list.last (omap strong (effective v q)) with
  | Some t => type_of (ds_Fields r) = t
  | None => retains "inferred_type" (ds_Fields st) (ds_Fields r)
  end.
Proof.
  intros Hreg. revert q v st. induction n as [|n IH]; intros [|cur q] v st H Hq; try done; try (by injection H as <-).
  apply list.Forall_cons in Hq as [Hcur Hq]. cbn [dispatch_loop] in H. unfold effective. cbn [first_by]. fold (effective v q).
  fold (effective (cascadeKey (pd_svc cur) :: v) q).
  case_bool_decide as Hin; [rewrite decide_True by done; by apply IH|]. rewrite decide_False by done.
  assert (strong cur = None → dispatch_loop n maxDepth reg ip evidence q (cascadeKey (pd_svc cur) :: v) st = Some r →
    match list.last (omap strong (cur :: effective (cascadeKey (pd_svc cur) :: v) q)) with
    | Some t => type_of (ds_Fields r) = t
    | None => retains "inferred_type" (ds_Fields st) (ds_Fields r)
    end) as Hskip.
  { intros Hs Hl. cbn [omap list_omap]. rewrite Hs. by apply IH. }
  destruct (maxDepth <? pd_depth cur) eqn:Hm; [apply Hskip; [|done]; apply Z.ltb_lt in Hm; destruct Hcur; [lia|done]|].
  destruct (HandlerFor (s_Service (pd_svc cur)) reg) as [h|] eqn:Hh.
  2: { apply Hskip; [|done]. apply (strong_handled reg); [done|]. by rewrite with_context_service. }
  apply (standard_handler _ _ _ Hreg) in Hh as [Hh Es].
  destruct (call_handler h ip evidence cur st) as [st' more] eqn:Hc.
  destruct (call_types _ _ _ _ _ _ _ Hh Es Hc) as [Hmore Hty].
  apply IH in H; [|apply Forall_app; split; [done|]; eapply Forall_impl; [|exact Hmore]; cbn; tauto].
  rewrite effective_weak in H by done. rewrite omap_step.
  destruct (strong cur) as [t|] eqn:Hs.
  - destruct (omap strong _) as [|x l]; cbn [list.last] in H |- *.
    2: { fold (list.last (x :: l)) in *. destruct (list.last (x :: l)) eqn:El; [exact H|]. by apply list.last_None in El. }
    unfold type_of in *. rewrite H; [done|]. rewrite Hty. by eapply strong_nonempty.
  - destruct (list.last _) as [t|]; [done|]. intros Hne. rewrite H; [by apply Hty|]. by rewrite Hty.
Qed.

End standard.

(** C10.  With the standard handlers, the type of the device is that of the last
    camera, or SNMP service with a type, among the classified services: no
    weaker signal (web server, RTSP, mDNS, server ports) overrides it, in
    whatever order the services come. *)
Theorem strong_type_wins fetch cert_chain fuel o ip evidence services st t
    (Hreg : standard_registry fetch cert_chain (o_reg o)) (Hmax : 0 ≤ oc_MaxCascadeDepth (o_cfg o))
    (Hrun : run_dispatch fuel o ip evidence services = Some st)
    (Hlast : list.last (omap strong_type (first_by cascadeKey [] services)) = Some t) :
  get "inferred_type" (ds_Fields st) = t.
Proof.
  unfold run_dispatch in Hrun. apply (loop_types fetch cert_chain) in Hrun; [|done|].
  - assert (∀ v, omap strong (effective v (initial <$> services)) = omap strong_type (first_by cascadeKey v services)) as E.
    { clear. unfold effective. induction services as [|s l IH]; intros v; [done|]. cbn [fmap list_fmap first_by].
      cbn [pd_svc initial]. case_decide; [apply IH|]. cbn [omap list_omap]. rewrite IH. done. }
    rewrite E, Hlast in Hrun. exact Hrun.
  - apply list.Forall_fmap, list.Forall_forall. intros s _. left. done.
Qed.

(** * Folding evidence *)

Local Notation HOST := "node_hostname".
Local Notation BRAND := "inferred_brand".

(** The hostname a piece of evidence offers. *)
Definition offered_hostname (e : Evidence) : string :=
  let k := e_Kind e in
  let name := plausible_or_empty (raw e "hostname") in
  if decide (k = "hostname") then name else if decide (k = "mdns") then name else if decide (k = "netbios") then name
  else if decide (k = "tls") then stripWildcardPrefix (plausible_or_empty (raw e "subject_cn"))
  else "".

(** The brand it offers. *)
Definition mdns_brand (e : Evidence) : string :=
  default "" (raw e <$> List.find (fun k => negb (bool_decide (raw e k = "")) && negb (looksLikeBrandJunk (raw e k))) mdns_brand_keys).

Definition offered_brand (e : Evidence) : string :=
  let k := e_Kind e in
  if decide (k = "mac") then raw e "vendor"
  else if decide (k = "tls") then certFieldsToBrand (raw e "subject_cn") (raw e "issuer_org")
  else if decide (k = "mdns") then mdns_brand e
  else if decide (k = "ssdp") then ssdpServerToBrand (raw e "server")
  else "".

(** An offer is taken when there is no brand yet, and a certificate's also in
    the place of a web server's name. *)
Definition takes (e : Evidence) (b : string) : Prop := b = "" ∨ (e_Kind e = "tls" ∧ offered_brand e ≠ "" ∧ isWebServerName b = true).

#[local] Instance takes_dec e b : Decision (takes e b).
Proof. unfold takes. apply _. Defined.

(** Decisions on literals. *)
Ltac kinds :=
  repeat match goal with |- context [decide (String ?a ?s = String ?b ?t)] =>
    let X := fresh in
    destruct (decide (String a s = String b t)) as [X|X]; [try discriminate X|try (exfalso; apply X; reflexivity)] end.

Lemma get_insert k k' v (m : fields) : get k (<[k' := v]> m) = if decide (k' = k) then v else get k m.
Proof. unfold get. case_decide as E; [subst; by rewrite lookup_insert_eq|by rewrite lookup_insert_ne]. Qed.

Lemma get_fill k v m : get k (fill_field k v m) = if decide (get k m = "") then v else get k m.
Proof.
  unfold fill_field. destruct (decide (get k m = "")) as [E|E].
  - case_decide as H; [rewrite get_insert; by rewrite decide_True|]. rewrite E.
    destruct (decide (v = "")); [done|]. exfalso. by apply H.
  - rewrite decide_False by (by intros [? ?]). done.
Qed.

Lemma get_fill_ne k k' v m : k' ≠ k → get k (fill_field k' v m) = get k m.
Proof. intros. unfold fill_field. case_decide; [|done]. rewrite get_insert. by rewrite decide_False. Qed.

Lemma get_set_if_ne k k' v m : k' ≠ k → get k (set_field_if k' v m) = get k m.
Proof. intros. unfold set_field_if. case_decide; [done|]. rewrite get_insert. by rewrite decide_False. Qed.

Lemma get_hostname v m : get HOST (fold_hostname v m) = if decide (get HOST m = "") then plausible_or_empty v else get HOST m.
Proof.
  unfold fold_hostname, plausible_or_empty. destruct (PlausibleHostname v); [apply get_fill|]. by case_decide.
Qed.

Lemma get_hostname_ne k v m : HOST ≠ k → get k (fold_hostname v m) = get k m.
Proof. intros. unfold fold_hostname. destruct (PlausibleHostname v); [by apply get_fill_ne|done]. Qed.

Lemma get_mdns_ne k e m : BRAND ≠ k → get k (fold_mdns_brand e m) = get k m.
Proof. intros. unfold fold_mdns_brand. destruct (List.find _ _); [by apply get_fill_ne|done]. Qed.

Lemma get_mdns e m : get BRAND (fold_mdns_brand e m) = if decide (get BRAND m = "") then mdns_brand e else get BRAND m.
Proof. unfold fold_mdns_brand, mdns_brand. destruct (List.find _ _); [apply get_fill|]. cbn. by case_decide. Qed.

Lemma get_cert_host cn issuer m :
  get HOST (fold_cert cn issuer m) = if decide (get HOST m = "") then stripWildcardPrefix (plausible_or_empty cn) else get HOST m.
Proof.
  unfold fold_cert. cbv zeta. set (m' := if decide _ then _ else m).
  transitivity (get HOST m').
  { clearbody m'. case_decide; [|reflexivity]. rewrite get_insert. by rewrite decide_False. }
  unfold m', plausible_or_empty. destruct (decide (get HOST m = "")) as [E|E].
  - case_decide as H.
    + rewrite get_insert, decide_True by done. by destruct H as (_ & _ & ->).
    + destruct (PlausibleHostname cn) eqn:Hp; [|done]. exfalso. apply H. refine (conj _ (conj E eq_refl)). by intros ->.
  - rewrite decide_False; [done|]. by intros (_ & ? & _).
Qed.

Lemma get_cert_brand e m :
  e_Kind e = "tls" →
  get BRAND (fold_cert (raw e "subject_cn") (raw e "issuer_org") m)
  = if decide (takes e (get BRAND m)) then offered_brand e else get BRAND m.
Proof.
  intros Hk. assert (certFieldsToBrand (raw e "subject_cn") (raw e "issuer_org") = offered_brand e) as Eb.
  { unfold offered_brand. rewrite Hk. cbv zeta. kinds. done. }
  unfold fold_cert. cbv zeta. rewrite Eb. set (m' := if decide _ then _ else m).
  assert (get BRAND m' = get BRAND m) as E.
  { unfold m'. case_decide; [|done]. rewrite get_insert. by rewrite decide_False. }
  clearbody m'. rewrite E. destruct (decide (takes e (get BRAND m))) as [H|H].
  - destruct (decide (offered_brand e = "")) as [Eo|Eo].
    + rewrite decide_False by (by intros [? _]). rewrite E, Eo. by destruct H as [?|(_ & ? & _)].
    + rewrite decide_True; [rewrite get_insert; by rewrite decide_True|]. split; [done|]. destruct H as [?|(_ & _ & ?)]; tauto.
  - rewrite decide_False; [done|]. intros [H1 [H2|H2]]; apply H; [by left|by right].
Qed.

(** One step of the fold, on the two names. *)
Ltac by_kind e :=
  unfold fold_fact; cbv zeta;
  let at_kind K := (let H := fresh in destruct (decide (e_Kind e = K)) as [H|H]; [try rewrite !H; kinds|]) in
  at_kind "mac"; [|at_kind "hostname"; [|at_kind "tls"; [|at_kind "mdns"; [|at_kind "ssdp"; [|at_kind "netbios"]]]]].

Lemma get_ssdp_ne k server m : BRAND ≠ k → "os_type" ≠ k → get k (fold_ssdp server m) = get k m.
Proof.
  intros. unfold fold_ssdp. cbv zeta. case_decide; [done|]. repeat case_decide; rewrite ?get_insert, ?decide_False by done; done.
Qed.

Lemma get_ssdp server m : get BRAND (fold_ssdp server m) = if decide (get BRAND m = "") then ssdpServerToBrand server else get BRAND m.
Proof.
  unfold fold_ssdp. cbv zeta. destruct (decide (server = "")) as [->|Hs]; [by case_decide|].
  set (m' := if decide _ then _ else m).
  assert (get BRAND m' = get BRAND m) as E by (unfold m'; case_decide; [rewrite get_insert; by rewrite decide_False|done]).
  rewrite E. case_decide; [rewrite get_insert; by rewrite decide_True|exact E].
Qed.

Lemma fold_host m e : get HOST (fold_fact m e) = if decide (get HOST m = "") then offered_hostname e else get HOST m.
Proof.
  unfold offered_hostname. by_kind e; cbv zeta.
  - rewrite !get_set_if_ne, !get_fill_ne by done. by case_decide.
  - apply get_hostname.
  - apply get_cert_host.
  - rewrite get_mdns_ne by done. apply get_hostname.
  - rewrite get_ssdp_ne by done. by case_decide.
  - rewrite get_fill_ne by done. apply get_hostname.
  - repeat case_decide; done.
Qed.

Lemma fold_brand m e : get BRAND (fold_fact m e) = if decide (takes e (get BRAND m)) then offered_brand e else get BRAND m.
Proof.
  assert (e_Kind e ≠ "tls" → ∀ x, (if decide (takes e (get BRAND m)) then x else get BRAND m)
    = if decide (get BRAND m = "") then x else get BRAND m) as Ht.
  { intros Hk x. unfold takes. repeat case_decide; tauto. }
  destruct (decide (e_Kind e = "tls")) as [Hk|Hk].
  { unfold fold_fact. cbv zeta. rewrite Hk. kinds. rewrite get_cert_brand by done. done. }
  rewrite (Ht Hk). clear Ht. unfold offered_brand. by_kind e; cbv zeta; try done.
  - rewrite !get_set_if_ne by done. rewrite get_fill. by rewrite !get_fill_ne by done.
  - rewrite get_hostname_ne by done. by case_decide.
  - rewrite get_mdns. by rewrite get_hostname_ne by done.
  - apply get_ssdp.
  - rewrite get_fill_ne, get_hostname_ne by done. by case_decide.
  - repeat case_decide; done.
Qed.

Lemma cert_not_web cn issuer : isWebServerName (certFieldsToBrand cn issuer) = false.
Proof.
  assert (∀ s, isWebServerName (certCNToBrand s) = false) as H.
  { intros s. unfold certCNToBrand. destruct (List.find _ _) as [c|] eqn:E; [|done]. apply List.find_some in E as [Hin _].
    assert (forallb (fun c => negb (isWebServerName c.2)) cert_brands = true) as Hall by (vm_compute; reflexivity).
    rewrite forallb_forall in Hall. by apply negb_true_iff, Hall. }
  unfold certFieldsToBrand. cbv zeta. case_decide; apply H.
Qed.

Lemma ssdp_not_web server : isWebServerName (ssdpServerToBrand server) = false.
Proof.
  unfold ssdpServerToBrand. cbv zeta. destruct (Nat.ltb _ _); [done|].
  induction (drop 2 (splitWS server)) as [|t l IH]; [done|]. cbn [product_token].
  destruct (_ || _); [done|]. cbv zeta. set (p := default t _). destruct (isWebServerName p) eqn:E; [done|].
  by destruct (looksLikeBrandJunk p).
Qed.

Lemma web_offer e : isWebServerName (offered_brand e) = true → e_Kind e = "mac" ∨ e_Kind e = "mdns".
Proof.
  unfold offered_brand. cbv zeta. intros H. case_decide; [by left|].
  case_decide; [by rewrite cert_not_web in H|]. case_decide; [by right|].
  case_decide; [by rewrite ssdp_not_web in H|done].
Qed.

Definition hosts_ok (ev : list Evidence) (m : fields) : Prop :=
  get HOST m = default "" (head (filter (fun s => s ≠ "") (offered_hostname <$> ev))).

Record brands_ok (ev : list Evidence) (b : string) : Prop := mkBrandsOk {
  bo_source : b = "" ∨ ∃ e, e ∈ ev ∧ offered_brand e = b;
  bo_empty e : b = "" → e ∈ ev → offered_brand e = "";
  bo_web e : isWebServerName b = true → e ∈ ev → e_Kind e = "tls" → offered_brand e = ""
}.

Lemma fold_facts_snoc ev e : fold_facts (ev ++ [e]) = fold_fact (fold_facts ev) e.
Proof. unfold fold_facts. by rewrite fold_left_app. Qed.

Lemma hosts_folded ev : hosts_ok ev (fold_facts ev).
Proof.
  unfold hosts_ok. induction ev as [|e ev IH] using rev_ind; [done|].
  rewrite fold_facts_snoc, fold_host, IH, fmap_app, list.filter_app. cbn [fmap list_fmap].
  destruct (filter _ (offered_hostname <$> ev)) as [|x l] eqn:El.
  - rewrite decide_True by done. rewrite filter_cons. case_decide as Hs; [done|]. cbn.
    by destruct (decide (offered_hostname e = "")).
  - cbn. rewrite decide_False; [done|]. assert (x ∈ filter (fun s => s ≠ "") (offered_hostname <$> ev)) as Hx by (rewrite El; by left).
    by apply list_elem_of_filter in Hx as [? _].
Qed.

Lemma brands_step ev e b : brands_ok ev b → brands_ok (ev ++ [e]) (if decide (takes e b) then offered_brand e else b).
Proof.
  intros [H1 H2 H3]. case_decide as Ht.
  - assert (offered_brand e = "" → b = "") as Hb by (intros; by destruct Ht as [?|(_ & ? & _)]).
    split.
    + right. exists e. split; [|done]. apply elem_of_app. right. by left.
    + intros e' He [Hin| ->%list_elem_of_singleton]%elem_of_app; [|done]. apply H2; auto.
    + intros e' Hw Hin Hk. destruct (decide (e_Kind e = "tls")) as [Htls|Htls].
      { apply web_offer in Hw as [?|?]; congruence. }
      assert (b = "") as Eb by (destruct Ht as [?|(? & _)]; done).
      apply elem_of_app in Hin as [Hin|E%list_elem_of_singleton]; [by apply H2|congruence].
  - assert (b ≠ "") as Hb by (intros ->; apply Ht; by left). split.
    + destruct H1 as [?|(e' & He' & E)]; [by left|]. right. exists e'. split; [|done]. apply elem_of_app. by left.
    + by intros e' ?.
    + intros e' Hw [Hin| ->%list_elem_of_singleton]%elem_of_app Hk; [by apply H3|].
      destruct (decide (offered_brand e = "")); [done|]. exfalso. apply Ht. by right.
Qed.

Lemma brands_folded ev : brands_ok ev (get BRAND (fold_facts ev)).
Proof.
  induction ev as [|e ev IH] using rev_ind.
  { split; [by left|intros e _ He; by apply not_elem_of_nil in He..]. }
  rewrite fold_facts_snoc, fold_brand. by apply brands_step.
Qed.

Lemma offered_plausible e : offered_hostname e = "" ∨ PlausibleHostname (offered_hostname e) = true.
Proof.
  assert (∀ s, plausible_or_empty s = "" ∨ PlausibleHostname (plausible_or_empty s) = true) as H.
  { intros s. unfold plausible_or_empty. destruct (PlausibleHostname s) eqn:E; [by right|by left]. }
  unfold offered_hostname. cbv zeta. repeat (case_decide; [try apply H|]); [|by left].
  destruct (H (raw e "subject_cn")) as [->|Hp]; [by left|]. revert Hp. generalize (plausible_or_empty (raw e "subject_cn")).
  intros s Hp. unfold stripWildcardPrefix. repeat case_match; subst; try (by right).
  match goal with |- ?r = "" ∨ _ => destruct (decide (r = "")) as [->|Hr]; [by left|right] end.
  unfold PlausibleHostname in *. apply andb_true_iff in Hp as [_ Hp]. rewrite bool_decide_false by done. exact Hp.
Qed.

(** The folded names.  The hostname is the first that the evidence offers, in
    order, and only a plausible one (valid UTF-8 without control characters).
    The brand is the name of a web server only when no certificate names a
    vendor, and then it comes from the vendor of the MAC prefix or an mDNS
    text record. *)
Theorem facts_folded evidence :
  let m := fold_facts evidence in
  get HOST m = default "" (head (filter (fun s => s ≠ "") (offered_hostname <$> evidence)))
  ∧ (get HOST m = "" ∨ PlausibleHostname (get HOST m) = true)
  ∧ (isWebServerName (get BRAND m) = true →
       (∀ e, e ∈ evidence → e_Kind e = "tls" → certFieldsToBrand (raw e "subject_cn") (raw e "issuer_org") = "")
       ∧ ∃ e, e ∈ evidence ∧ (e_Kind e = "mac" ∨ e_Kind e = "mdns") ∧ offered_brand e = get BRAND m).
Proof.
  cbv zeta. pose proof (hosts_folded evidence) as Hh. unfold hosts_ok in Hh. destruct (brands_folded evidence) as [H1 _ H3].
  split_and!; [done| |].
  - rewrite Hh. destruct (filter _ _) as [|x l] eqn:E; [by left|]. cbn.
    assert (x ∈ filter (fun s => s ≠ "") (offered_hostname <$> evidence)) as Hx by (rewrite E; by left).
    apply list_elem_of_filter in Hx as [_ (e & -> & _)%list_elem_of_fmap]. apply offered_plausible.
  - intros Hw. split.
    + intros e He Hk. specialize (H3 e Hw He Hk). unfold offered_brand in H3. rewrite Hk in H3. cbv zeta in H3. revert H3. by kinds.
    + destruct H1 as [E|(e & He & E)]; [by rewrite E in Hw|]. exists e. split_and!; [done| |done]. apply web_offer. by rewrite E.
Qed.

(** * Concrete scans *)

Definition demo_sample : string := "node_uname_info{} 1 node_memory_MemTotal_bytes 8.59e+09 ".

Definition demo_fetch (url : string) : string := if decide (url = "http://10.0.0.9:9100/metrics") then demo_sample else "".

Definition demo_chain (ip : string) (port : Z) : list TLSCertRecord :=
  [mkCert ip port 0 "cn" "" "" "" "" "" "" "" "" "" "" "" "" "" 0 false false "" "" "" "" false ""].

Definition demo_orchestrator : Orchestrator :=
  NewOrchestrator (with_default_handlers demo_fetch demo_chain NewRegistry) (mkOrchConfig 0 0 0).

Definition seen (name : string) (port : Z) : ServiceIdentity := mkService name port "tcp" 900 ∅.

Definition router : ServiceIdentity := mkService "snmp" 161 "udp" 900 {["inferred_type" := "router"]}.

Definition demo_services : list ServiceIdentity := [router; seen "http" 9100; seen "ssh" 22; seen "http" 9100].

Definition demo_scan : dispatched :=
  default (mkDispatched ∅ ∅ [] []) (run_dispatch 12 demo_orchestrator "10.0.0.9" [] demo_services).

(** The cascade of the demo: http, then prometheus and node_exporter. *)
Example demo_calls : ds_calls demo_scan =
  [("snmp@161", 0); ("http@9100", 0); ("ssh@22", 0); ("prometheus@9100", 1); ("node_exporter@9100", 2)].
Proof. vm_compute. reflexivity. Qed.

Lemma dispatch_calls_once_witness :
  0 ≤ oc_MaxCascadeDepth (o_cfg demo_orchestrator)
  ∧ run_dispatch 12 demo_orchestrator "10.0.0.9" [] demo_services = Some demo_scan
  ∧ (NoDup (ds_calls demo_scan).*1
     ∧ Forall (fun c => 0 ≤ c.2 ≤ oc_MaxCascadeDepth (o_cfg demo_orchestrator)) (ds_calls demo_scan)
     ∧ ∀ s, s ∈ demo_services → is_Some (HandlerFor (s_Service s) (o_reg demo_orchestrator)) → (cascadeKey s, 0) ∈ ds_calls demo_scan).
Proof.
  assert (run_dispatch 12 demo_orchestrator "10.0.0.9" [] demo_services = Some demo_scan) as H by (vm_compute; reflexivity).
  split; [by vm_compute|]. split; [exact H|].
  apply (dispatch_calls_once 12 demo_orchestrator "10.0.0.9" [] demo_services demo_scan); [by vm_compute|exact H].
Defined.

Lemma standard_dispatch_returns_witness :
  standard_registry demo_fetch demo_chain (o_reg demo_orchestrator)
  ∧ is_Some (run_dispatch (3 * length demo_services) demo_orchestrator "10.0.0.9" [] demo_services).
Proof.
  split; [reflexivity|]. apply (standard_dispatch_returns demo_fetch demo_chain demo_orchestrator "10.0.0.9" [] demo_services).
  reflexivity.
Defined.

Lemma strong_type_wins_witness :
  list.last (omap strong_type (first_by cascadeKey [] demo_services)) = Some "router"
  ∧ get "inferred_type" (ds_Fields demo_scan) = "router".
Proof.
  split; [vm_compute; reflexivity|].
  apply (strong_type_wins demo_fetch demo_chain 12 demo_orchestrator "10.0.0.9" [] demo_services demo_scan "router").
  - reflexivity.
  - by vm_compute.
  - vm_compute. reflexivity.
  - vm_compute. reflexivity.
Defined.

(** The data of a second port of the same service replaces the first: of the
    certificate chains of two https ports one is recorded. *)
Example second_chain_lost :
  ce_Port <$> default [] ((fun st => extractTLSCerts (ds_Collected st)) <$>
    run_dispatch 12 demo_orchestrator "10.0.0.9" [] [seen "https" 443; seen "https" 8443]) = [8443].
Proof. vm_compute. reflexivity. Qed.

(** A host that answers no probe is alive when the passive cache knows a name
    for it. *)
Definition leased : Orchestrator :=
  mkOrchestrator NewRegistry (applyDefaults (mkOrchConfig 0 0 0))
    (Some (fun _ => [mkEvidence "hostname" 0 {["hostname" := "tv"]}])) None None.

Definition no_hint : ProbeHint := mkHint [] "" 0 "" None.

Example seeded_host_alive :
  (hr_Alive ∘ fst <$> Run 1 leased "10.0.0.9" no_hint (@nil repo_call)) = Some true
  ∧ (hr_Alive ∘ fst <$> Run 1 (NewOrchestrator NewRegistry (mkOrchConfig 0 0 0)) "10.0.0.9" no_hint (@nil repo_call)) = Some false.
Proof. split; vm_compute; reflexivity. Qed.

(** The report of a scan has no round-trip time, whatever the probes measured. *)
Lemma rtt_not_reported {R} `{!Repository R} fuel o ip hint (r r' : R) rep :
  Run fuel o ip hint r = Some (rep, r') → hr_RTTMs rep = 0.
Proof.
  unfold Run. cbv zeta. case_decide; [by intros [= <- _]|].
  destruct (dispatch _ _ _ _ _ _) as [[st r1]|]; cbn; [|done]. by intros [= <- _].
Qed.
