(* ===== verification/Reconcile.v ===== *)
(** The reconciliation of network attribution
    (src/internal/service/scannerv2/reconcile/reconcile.go): detection of
    devices outside the CIDR of their network, and the two startup clean-ups.

    The state is the tables its statements touch.  [ok] says of each statement
    whether it succeeds.  The cache of networks is a Go map: [order] gives the
    order in which a loop over it visits the networks. *)

From S2P Require Import Prelude NetAddr Cidr Db.

Open Scope Z_scope.

Record reconcile_db := mkReconcileDb {
  rd_devices : list Device;
  rd_snapshots : list ScanSnapshot;
  rd_networks : list Network
}.

Record netCache := mkNetCache {
  nc_id : Z;
  nc_name : string;
  nc_cidr : string;
  nc_ipNet : option IPNet
}.

Record Mismatch := mkMismatch {
  mm_DeviceID : Z;
  mm_IP : string;
  mm_NetworkID : Z;
  mm_Network : string;
  mm_CIDR : string
}.

Inductive reconcile_stmt :=
| QNetworks | QNetworkDevices (net : Z) | QCanonical (ip : string) (net : Z) | QMac (id : Z) | QSameMac (mac : string) (id : Z)
| DLease (net : Z) (ip : string) | DDevice (id : Z) | DAddress (net : Z) (ip : string).

(** [LIKE '#park:%'] ignores the case of letters. *)
Definition parked (ip : string) : bool := has_prefix "#park:" (to_lower ip).

Section reconcile.
Context (ok : reconcile_stmt → bool).
Context (order : Z → list netCache → list netCache).

Definition cache_of (n : Network) : netCache :=
  let cidr := default "" (net_Cidr n) in
  mkNetCache (net_ID n) (net_Name n) cidr (match ParseNetwork cidr with Ok p => Some p | Err _ => None end).

Definition refreshNetworks (db : reconcile_db) : option (list netCache) :=
  if ok QNetworks then Some (cache_of <$> rd_networks db) else None.

Definition stamped_with (net : Z) (d : Device) : Prop :=
  dev_NetworkID d = Some net ∧ dev_IpAddress d ≠ "" ∧ parked (dev_IpAddress d) = false.

#[export] Instance stamped_with_dec net d : Decision (stamped_with net d).
Proof. unfold stamped_with. apply _. Defined.

Definition checkNetwork (n : netCache) (db : reconcile_db) : option (list Mismatch) :=
  if ok (QNetworkDevices (nc_id n)) then
    Some ((fun d => mkMismatch (dev_ID d) (dev_IpAddress d) (nc_id n) (nc_name n) (nc_cidr n))
          <$> filter (fun d => stamped_with (nc_id n) d ∧ ContainsIP (nc_ipNet n) (dev_IpAddress d) = false) (rd_devices db))
  else None.

(** A network without a usable CIDR is skipped, as is one whose check fails. *)
Definition network_mismatches (n : netCache) (db : reconcile_db) : list Mismatch :=
  match nc_ipNet n with
  | None => []
  | Some _ => default [] (checkNetwork n db)
  end.

(** The result carries the refreshed cache. *)
Definition reconcileOnce (db : reconcile_db) : option (list netCache * list Mismatch) :=
  nets ← refreshNetworks db;
  Some (nets, concat ((fun n => network_mismatches n db) <$> order 0 nets)).

Definition Reconcile (db : reconcile_db) : option (list Mismatch) := snd <$> reconcileOnce db.

(** ** CleanupGhosts *)

Record CleanupStats := mkStats {
  cs_Mismatches : Z;
  cs_Rehomed : Z;
  cs_Unresolved : Z;
  cs_RehomedIPs : list string;
  cs_UnresolvedIPs : list string
}.

(** The network the address belongs to: the first the loop meets. *)
Definition correct_network (nets : list netCache) (m : Mismatch) : option Z :=
  nc_id <$> List.find (fun n => ContainsIP (nc_ipNet n) (mm_IP m)) (order (mm_DeviceID m) nets).

Definition count_at (ip : string) (net : Z) (db : reconcile_db) : Z :=
  Z.of_nat (length (filter (fun d => dev_IpAddress d = ip ∧ dev_NetworkID d = Some net) (rd_devices db))).

Definition mac_by_id (id : Z) (db : reconcile_db) : string :=
  default "" (dev_MacAddress <$> head (filter (fun d => dev_ID d = id) (rd_devices db))).

Definition count_mac (mac : string) (id : Z) (db : reconcile_db) : Z :=
  Z.of_nat (length (filter (fun d => dev_MacAddress d = mac ∧ dev_ID d ≠ id) (rd_devices db))).

Definition has_canonical (nets : list netCache) (m : Mismatch) (db : reconcile_db) : bool :=
  match correct_network nets m with
  | Some net => ok (QCanonical (mm_IP m) net) && (0 <? count_at (mm_IP m) net db)
  | None => false
  end
  || let mac := if ok (QMac (mm_DeviceID m)) then mac_by_id (mm_DeviceID m) db else "" in
     negb (bool_decide (mac = "")) && ok (QSameMac mac (mm_DeviceID m)) && (0 <? count_mac mac (mm_DeviceID m) db).

Definition delete_lease (net : Z) (ip : string) (db : reconcile_db) : reconcile_db :=
  mkReconcileDb (rd_devices db) (filter (fun s => ¬ (ss_NetworkID s = net ∧ ss_Ip s = ip)) (rd_snapshots db)) (rd_networks db).

Definition delete_device (id : Z) (db : reconcile_db) : reconcile_db :=
  mkReconcileDb (filter (fun d => dev_ID d ≠ id) (rd_devices db)) (rd_snapshots db) (rd_networks db).

Definition cleanup_one (nets : list netCache) (acc : reconcile_db * CleanupStats) (m : Mismatch) : reconcile_db * CleanupStats :=
  let '(db, st) := acc in
  if negb (has_canonical nets m db) then
    (db, mkStats (cs_Mismatches st) (cs_Rehomed st) (cs_Unresolved st + 1) (cs_RehomedIPs st) (cs_UnresolvedIPs st ++ [mm_IP m]))
  else if negb (ok (DLease (mm_NetworkID m) (mm_IP m))) then acc
  else
    let db := delete_lease (mm_NetworkID m) (mm_IP m) db in
    if negb (ok (DDevice (mm_DeviceID m))) then (db, st)
    else (delete_device (mm_DeviceID m) db,
          mkStats (cs_Mismatches st) (cs_Rehomed st + 1) (cs_Unresolved st) (cs_RehomedIPs st ++ [mm_IP m]) (cs_UnresolvedIPs st)).

Definition CleanupGhosts (db : reconcile_db) : reconcile_db * option CleanupStats :=
  match reconcileOnce db with
  | None => (db, None)
  | Some (nets, mismatches) =>
      let '(db, st) := fold_left (cleanup_one nets) mismatches (db, mkStats (Z.of_nat (length mismatches)) 0 0 [] []) in
      (db, Some st)
  end.

(** ** CleanupReservedAddressDevices *)

Definition broadcastAddr (n : IPNet) : ip :=
  zip_with (fun b m => Z.lor b (255 - m)) (default [] (IPMask (net_IP n) (net_Mask n))) (net_Mask n).

(** The addresses that can never be a host of the network. *)
Definition reserved_addresses (n : netCache) : list string :=
  match nc_ipNet n with
  | None => []
  | Some p =>
      let '(ones, bits) := MaskSize (net_Mask p) in
      if negb (bits =? 32) || (31 <=? ones) then []
      else [ip_string (default [] (IPMask (net_IP p) (net_Mask p))); ip_string (broadcastAddr p)]
  end.

Definition at_address (net : Z) (ip : string) (d : Device) : Prop := dev_NetworkID d = Some net ∧ dev_IpAddress d = ip.

#[export] Instance at_address_dec net ip d : Decision (at_address net ip d).
Proof. unfold at_address. apply _. Defined.

Definition delete_address (net : Z) (ip : string) (db : reconcile_db) : reconcile_db :=
  mkReconcileDb (filter (fun d => ¬ at_address net ip d) (rd_devices db)) (rd_snapshots db) (rd_networks db).

(** The two deletions of an address; an error ends the pass. *)
Definition remove_address (net : Z) (ip : string) (db : reconcile_db) (removed : list string)
    : reconcile_db * list string * bool :=
  if negb (ok (DLease net ip)) then (db, removed, false)
  else
    let db := delete_lease net ip db in
    if negb (ok (DAddress net ip)) then (db, removed, false)
    else (delete_address net ip db,
          if existsb (fun d => bool_decide (at_address net ip d)) (rd_devices db) then removed ++ [ip] else removed, true).

Fixpoint remove_addresses (l : list (Z * string)) (db : reconcile_db) (removed : list string) : reconcile_db * list string * bool :=
  match l with
  | [] => (db, removed, true)
  | (net, ip) :: l =>
      let '(db, removed, fine) := remove_address net ip db removed in
      if fine : bool then remove_addresses l db removed else (db, removed, false)
  end.

(** The removed addresses, and whether the pass ended without an error. *)
Definition CleanupReservedAddressDevices (db : reconcile_db) : reconcile_db * list string * bool :=
  match refreshNetworks db with
  | None => (db, [], false)
  | Some nets => remove_addresses (concat ((fun n => pair (nc_id n) <$> reserved_addresses n) <$> order 0 nets)) db []
  end.

End reconcile.
