(* ===== verification/ReconcileSpec.v ===== *)
(** Theorems on the reconciliation: what the ghost clean-up may remove, that a
    second pass removes nothing, and that the removal of reserved addresses
    spares every address a scan would use. *)

From S2P Require Import Prelude NetAddr Cidr CidrSpec Db Reconcile.

Open Scope Z_scope.

(** A device outside the CIDR of the network it is stamped with; networks
    without a usable CIDR and parked rows do not count. *)
Definition misplaced (db : reconcile_db) (n : Network) (d : Device) : Prop :=
  n ∈ rd_networks db ∧ stamped_with (net_ID n) d
  ∧ ∃ p, ParseNetwork (default "" (net_Cidr n)) = Ok p ∧ ContainsIP (Some p) (dev_IpAddress d) = false.

Definition mismatch_of (n : Network) (d : Device) : Mismatch :=
  mkMismatch (dev_ID d) (dev_IpAddress d) (net_ID n) (net_Name n) (default "" (net_Cidr n)).

(** A device that is where it should be: the CIDR of its network holds it. *)
Definition well_placed (db : reconcile_db) (d : Device) : Prop :=
  ∃ n p, n ∈ rd_networks db ∧ dev_NetworkID d = Some (net_ID n)
    ∧ ParseNetwork (default "" (net_Cidr n)) = Ok p ∧ ContainsIP (Some p) (dev_IpAddress d) = true.

Record tables_ok (db : reconcile_db) : Prop := mkTablesOk {
  to_devices : NoDup (dev_ID <$> rd_devices db);
  to_networks : NoDup (net_ID <$> rd_networks db)
}.

Definition any_order (order : Z → list netCache → list netCache) : Prop := ∀ k l, order k l ≡ₚ l.

Definition no_faults : reconcile_stmt → bool := fun _ => true.

Section pass.
Context (ok : reconcile_stmt → bool) (order : Z → list netCache → list netCache) (Hord : any_order order).

Lemma ordered k l (n : netCache) : n ∈ order k l → n ∈ l.
Proof. pose proof (Hord k l) as E. by rewrite E. Qed.

Lemma mismatch_spec db nets ms m :
  reconcileOnce ok order db = Some (nets, ms) → m ∈ ms →
  nets = cache_of <$> rd_networks db ∧ ∃ n d, d ∈ rd_devices db ∧ misplaced db n d ∧ m = mismatch_of n d.
Proof.
  unfold reconcileOnce, refreshNetworks. destruct (ok QNetworks); [|done]. cbn. intros [= <- <-] Hm. split; [done|].
  apply elem_of_concat in Hm as (l & Hl & Hm). apply list_elem_of_fmap in Hl as (nc & -> & Hn).
  apply ordered in Hn. apply list_elem_of_fmap in Hn as (n & -> & Hn). unfold network_mismatches in Hm. cbn [nc_ipNet cache_of] in Hm.
  destruct (ParseNetwork _) as [p|] eqn:Hp; [|by apply not_elem_of_nil in Hm].
  unfold checkNetwork in Hm. destruct (ok _); [|by apply not_elem_of_nil in Hm]. cbn in Hm.
  apply list_elem_of_fmap in Hm as (d & -> & Hd). apply list_elem_of_filter in Hd as [[Hs Hc] Hd].
  exists n, d. split_and!; [done| |done]. split_and!; [done..|]. exists p. split; [done|]. cbn in Hc. by rewrite Hp in Hc.
Qed.

(** ** The loop *)

(** What speaks for removing a device: a well-placed copy at its address, or a
    row with its MAC. *)
Definition copy_of (db : reconcile_db) (m : Mismatch) (c : Device) : Prop :=
  (dev_IpAddress c = mm_IP m ∧ well_placed db c)
  ∨ (dev_ID c ≠ mm_DeviceID m ∧ dev_MacAddress c ≠ ""
     ∧ ∃ d, d ∈ rd_devices db ∧ dev_ID d = mm_DeviceID m ∧ dev_MacAddress d = dev_MacAddress c).

Lemma count_pos {A} (P : A → Prop) `{!∀ x, Decision (P x)} (l : list A) :
  (0 <? Z.of_nat (length (filter P l))) = true → ∃ x, x ∈ l ∧ P x.
Proof.
  intros Hlt. apply Z.ltb_lt in Hlt. destruct (filter P l) as [|x k] eqn:E; [cbn in Hlt; lia|]. exists x.
  assert (x ∈ filter P l) as Hx by (rewrite E; by left). apply list_elem_of_filter in Hx as [? ?]. done.
Qed.

Lemma canonical_copy db0 db m :
  rd_networks db = rd_networks db0 → (∀ d, d ∈ rd_devices db → d ∈ rd_devices db0) →
  has_canonical ok order (cache_of <$> rd_networks db0) m db = true → ∃ c, c ∈ rd_devices db ∧ copy_of db0 m c.
Proof.
  intros Hnet Hsub. unfold has_canonical. intros [H|H]%orb_true_iff.
  - unfold correct_network in H. destruct (List.find _ _) as [nc|] eqn:F; [|done].
    apply List.find_some in F as [Hin Hc]. cbn in H. apply andb_true_iff in H as [_ H]. apply count_pos in H as (c & Hc' & Hip & Hn).
    exists c. split; [done|]. left. split; [done|]. apply list_elem_of_In, ordered in Hin.
    apply list_elem_of_fmap in Hin as (n & -> & Hn'). cbn [nc_ipNet cache_of] in Hc.
    destruct (ParseNetwork _) as [p|] eqn:Hp; [|done]. exists n, p. split_and!; [done..|]. by rewrite Hip.
  - cbv zeta in H. apply andb_true_iff in H as [H Hcnt]. apply andb_true_iff in H as [Hmac _].
    destruct (ok (QMac _)); [|done]. unfold mac_by_id in *.
    destruct (head (filter _ (rd_devices db))) as [d|] eqn:Hd; [|done]. cbn in *.
    apply count_pos in Hcnt as (c & Hc & Em & Hid). exists c. split; [done|]. right. split; [done|].
    apply negb_true_iff, bool_decide_eq_false in Hmac. split; [by rewrite Em|]. exists d.
    assert (d ∈ filter (fun d => dev_ID d = mm_DeviceID m) (rd_devices db)) as Hin by (destruct (filter _ _); [done|injection Hd as ->; by left]).
    apply list_elem_of_filter in Hin as [? ?]. split_and!; auto.
Qed.

(** The state of the loop: some ids are gone, each with a copy that was there. *)
Record cleaned (db0 db : reconcile_db) (ms : list Mismatch) (gone : list Z) : Prop := mkCleaned {
  cl_devices : rd_devices db = filter (fun d => dev_ID d ∉ gone) (rd_devices db0);
  cl_networks : rd_networks db = rd_networks db0;
  cl_snapshots s : s ∈ rd_snapshots db0 → s ∉ rd_snapshots db → ∃ m, m ∈ ms ∧ ss_NetworkID s = mm_NetworkID m ∧ ss_Ip s = mm_IP m;
  cl_copy id : id ∈ gone → ∃ m c, m ∈ ms ∧ mm_DeviceID m = id ∧ c ∈ rd_devices db0 ∧ copy_of db0 m c
}.

Lemma cleaned_start db ms : cleaned db db ms [].
Proof.
  split; [|done|done|].
  - symmetry. apply filter_all, list.Forall_forall. intros d _. apply not_elem_of_nil.
  - intros id H. by apply not_elem_of_nil in H.
Qed.

Lemma cleaned_keep db0 db ms gone : cleaned db0 db ms gone → ∀ d, d ∈ rd_devices db → d ∈ rd_devices db0.
Proof. intros [H _ _ _] d. rewrite H. intros Hd%list_elem_of_filter. tauto. Qed.

Lemma cleaned_lease db0 db ms gone m :
  m ∈ ms → cleaned db0 db ms gone → cleaned db0 (delete_lease (mm_NetworkID m) (mm_IP m) db) ms gone.
Proof.
  intros Hm [H1 H2 H3 H4]. split; [done|done| |done]. cbn [rd_snapshots delete_lease]. intros s Hs Hout.
  destruct (decide (s ∈ rd_snapshots db)) as [Hin|Hin]; [|by apply H3]. exists m. split; [done|].
  destruct (decide (ss_NetworkID s = mm_NetworkID m ∧ ss_Ip s = mm_IP m)) as [?|Hne]; [done|]. exfalso. apply Hout.
  by apply list_elem_of_filter.
Qed.

Lemma cleaned_step db0 ms gone m acc :
  m ∈ ms → cleaned db0 acc.1 ms gone →
  ∃ gone', cleaned db0 (cleanup_one ok order (cache_of <$> rd_networks db0) acc m).1 ms gone'.
Proof.
  intros Hm Hc. destruct acc as [db st]. cbn [fst] in Hc. unfold cleanup_one.
  destruct (has_canonical _ _ _ m db) eqn:Hcan; cbn [negb]; [|by exists gone].
  destruct (ok (DLease _ _)); cbn [negb]; [|by exists gone].
  pose proof (cleaned_lease _ _ _ _ _ Hm Hc) as Hl. destruct (ok (DDevice _)); cbn [negb]; [|by exists gone].
  apply canonical_copy in Hcan as (c & Hin & Hcopy); [|by destruct Hc|by eapply cleaned_keep].
  exists (mm_DeviceID m :: gone). destruct Hl as [H1 H2 H3 H4]. split; cbn [fst]; [|done|done|].
  - cbn [rd_devices delete_device]. rewrite H1, list_filter_filter. apply list_filter_iff. intros d. set_solver.
  - intros id [->|Hid]%elem_of_cons; [|by apply H4]. exists m, c. split_and!; [done..| |done].
    by eapply cleaned_keep.
Qed.

Lemma cleaned_loop db0 ms l acc gone :
  (∀ m, m ∈ l → m ∈ ms) → cleaned db0 acc.1 ms gone →
  ∃ gone', cleaned db0 (fold_left (cleanup_one ok order (cache_of <$> rd_networks db0)) l acc).1 ms gone'.
Proof.
  revert acc gone. induction l as [|m l IH]; intros acc gone Hl Hc; cbn [fold_left]; [by exists gone|].
  destruct (cleaned_step db0 ms gone m acc) as [gone' Hc']; [apply Hl; by left|done|].
  eapply IH; [|exact Hc']. intros m' Hm'. apply Hl. by right.
Qed.

Lemma cleanup_cleaned db db' st :
  CleanupGhosts ok order db = (db', Some st) →
  ∃ nets ms gone, reconcileOnce ok order db = Some (nets, ms) ∧ cleaned db db' ms gone.
Proof.
  unfold CleanupGhosts. destruct (reconcileOnce _ _ db) as [[nets ms]|] eqn:Hr; [|done].
  assert (nets = cache_of <$> rd_networks db) as ->.
  { revert Hr. unfold reconcileOnce, refreshNetworks. destruct (ok QNetworks); [|done]. by intros [= <- _]. }
  destruct (cleaned_loop db ms ms (db, mkStats (Z.of_nat (length ms)) 0 0 [] []) []) as [gone Hc]; [done|apply cleaned_start|].
  destruct (fold_left _ ms _) as [db1 st1]. intros [= <- _]. by exists (cache_of <$> rd_networks db), ms, gone.
Qed.

End pass.

Lemma well_placed_not db n d : tables_ok db → well_placed db d → ¬ misplaced db n d.
Proof.
  intros [_ Hn] (n' & p & Hin & Hd & Hp & Hc) (Hin' & (Hd' & _) & p' & Hp' & Hc').
  assert (n' = n) as -> by (eapply (NoDup_key net_ID); [exact Hn|done|done|congruence]). congruence.
Qed.

(** C11.  Whatever statements fail and in whatever order the networks are visited,
    the clean-up of ghosts removes only devices that are outside the CIDR of
    their network; each has, among the rows before, a well-placed device at
    its address that is kept, or another row with its MAC.  Every other device
    stays as it was, and leases are deleted only for mismatched addresses. *)
Theorem ghosts_removed_safely ok order db db' st
    (Hord : any_order order) (Hok : tables_ok db) (Hrun : CleanupGhosts ok order db = (db', Some st)) :
  (∀ d, d ∈ rd_devices db' → d ∈ rd_devices db)
  ∧ (∀ d, d ∈ rd_devices db → (∀ n, ¬ misplaced db n d) → d ∈ rd_devices db')
  ∧ (∀ d, d ∈ rd_devices db → d ∉ rd_devices db' →
       (∃ n, misplaced db n d)
       ∧ ∃ c, c ∈ rd_devices db
           ∧ ((dev_IpAddress c = dev_IpAddress d ∧ well_placed db c ∧ c ∈ rd_devices db')
              ∨ (dev_ID c ≠ dev_ID d ∧ dev_MacAddress c = dev_MacAddress d ∧ dev_MacAddress d ≠ "")))
  ∧ (∀ s, s ∈ rd_snapshots db → s ∉ rd_snapshots db' →
       ∃ n d, d ∈ rd_devices db ∧ misplaced db n d ∧ ss_NetworkID s = net_ID n ∧ ss_Ip s = dev_IpAddress d).
Proof.
  destruct (cleanup_cleaned ok order Hord _ _ _ Hrun) as (nets & ms & gone & Hr & [H1 H2 H3 H4]).
  pose proof (fun m => mismatch_spec ok order Hord db nets ms m Hr) as Hms.
  assert (∀ d, d ∈ rd_devices db → (∀ n, ¬ misplaced db n d) → d ∈ rd_devices db') as Hstay.
  { intros d Hd Hnot. rewrite H1. apply list_elem_of_filter. split; [|done]. intros (m & c & Hm & E & _)%H4.
    destruct (Hms m Hm) as (_ & n & d' & Hd' & Hmis & ->). cbn in E.
    assert (d' = d) as -> by (by eapply (NoDup_key dev_ID); [apply (to_devices _ Hok)|..]). by apply (Hnot n). }
  split_and!; [intros d; rewrite H1; by intros [_ ?]%list_elem_of_filter|done| |].
  - intros d Hd Hout. assert (dev_ID d ∈ gone) as Hg.
    { destruct (decide (dev_ID d ∈ gone)); [done|]. exfalso. apply Hout. rewrite H1. by apply list_elem_of_filter. }
    apply H4 in Hg as (m & c & Hm & E & Hc & Hcopy). destruct (Hms m Hm) as (_ & n & d' & Hd' & Hmis & ->). cbn in E, Hcopy.
    assert (d' = d) as -> by (by eapply (NoDup_key dev_ID); [apply (to_devices _ Hok)|..]).
    split; [by exists n|]. exists c. split; [done|]. destruct Hcopy as [[Hip Hw]|(Hid & Hmac & d2 & Hd2 & E2 & Em)].
    + left. split_and!; [done..|]. apply Hstay; [done|]. intros n'. by apply well_placed_not.
    + right. cbn in Hid, E2. assert (d2 = d) as -> by (by eapply (NoDup_key dev_ID); [apply (to_devices _ Hok)|..]).
      split_and!; [done|done|congruence].
  - intros s Hs Hout. destruct (H3 s Hs Hout) as (m & Hm & E1 & E2). destruct (Hms m Hm) as (_ & n & d & Hd & Hmis & ->).
    by exists n, d.
Qed.

(** * A second pass *)

Section second.
Context (order : Z → list netCache → list netCache) (Hord : any_order order).

Lemma in_order k l (n : netCache) : n ∈ l → n ∈ order k l.
Proof. pose proof (Hord k l) as E. by rewrite E. Qed.

Lemma reconcile_total db : ∃ ms, reconcileOnce no_faults order db = Some (cache_of <$> rd_networks db, ms).
Proof. by eexists. Qed.

Lemma mismatch_complete db nets ms n d :
  reconcileOnce no_faults order db = Some (nets, ms) → d ∈ rd_devices db → misplaced db n d → mismatch_of n d ∈ ms.
Proof.
  unfold reconcileOnce, refreshNetworks. cbn. intros [= <- <-] Hd (Hn & Hs & p & Hp & Hc).
  apply elem_of_concat. eexists. split.
  - apply list_elem_of_fmap_2, in_order, list_elem_of_fmap_2. exact Hn.
  - unfold network_mismatches, checkNetwork. cbn. rewrite Hp. cbn.
    apply list_elem_of_fmap. exists d. split; [done|]. by apply list_elem_of_filter.
Qed.

Lemma count_sub {A} (P : A → Prop) `{!∀ x, Decision (P x)} (Q : A → Prop) `{!∀ x, Decision (Q x)} (l : list A) :
  (0 <? Z.of_nat (length (filter P (filter Q l)))) = true → (0 <? Z.of_nat (length (filter P l))) = true.
Proof.
  intros Hc. apply count_pos in Hc as (x & Hx & HP). apply list_elem_of_filter in Hx as [_ Hx].
  apply Z.ltb_lt. assert (x ∈ filter P l) as Hin by (by apply list_elem_of_filter).
  destruct (filter P l); [by apply not_elem_of_nil in Hin|]. cbn. lia.
Qed.

Lemma by_id db d : NoDup (dev_ID <$> rd_devices db) → d ∈ rd_devices db → mac_by_id (dev_ID d) db = dev_MacAddress d.
Proof.
  intros Hn Hd. unfold mac_by_id. destruct (filter _ (rd_devices db)) as [|x l] eqn:E.
  - assert (d ∈ filter (fun d' => dev_ID d' = dev_ID d) (rd_devices db)) as Hin by (by apply list_elem_of_filter).
    rewrite E in Hin. by apply not_elem_of_nil in Hin.
  - assert (x ∈ filter (fun d' => dev_ID d' = dev_ID d) (rd_devices db)) as Hin by (rewrite E; by left).
    apply list_elem_of_filter in Hin as [? ?]. cbn. f_equal. by eapply (NoDup_key dev_ID).
Qed.

(** Fewer devices are never more of a reason. *)
Lemma canonical_sub nets m db1 db2 (Q : Device → Prop) `{!∀ x, Decision (Q x)} :
  NoDup (dev_ID <$> rd_devices db1) → rd_devices db2 = filter Q (rd_devices db1) →
  has_canonical no_faults order nets m db2 = true → has_canonical no_faults order nets m db1 = true.
Proof.
  intros Hn E. unfold has_canonical, count_at, count_mac. cbn [no_faults andb]. rewrite E, !orb_true_iff. intros [Hc|Hc].
  - left. destruct (correct_network _ _ _); [|done]. by eapply count_sub.
  - right. cbv zeta in *. destruct (decide (mac_by_id (mm_DeviceID m) db2 = "")) as [E0|E0].
    { by rewrite bool_decide_true in Hc by done. }
    assert (mac_by_id (mm_DeviceID m) db2 = mac_by_id (mm_DeviceID m) db1) as Em.
    { unfold mac_by_id in E0 |- *. rewrite E in E0 |- *. 
      destruct (filter (fun d => dev_ID d = mm_DeviceID m) (filter Q (rd_devices db1))) as [|x l] eqn:Ef; [done|].
      assert (x ∈ filter (fun d => dev_ID d = mm_DeviceID m) (filter Q (rd_devices db1))) as Hx by (rewrite Ef; by left).
      apply list_elem_of_filter in Hx as [Hid [_ Hx]%list_elem_of_filter].
      pose proof (by_id db1 x Hn Hx) as Hb. rewrite Hid in Hb. unfold mac_by_id in Hb. cbn. by rewrite Hb. }
    rewrite <- Em. apply andb_true_iff in Hc as [H1 H2]. rewrite H1. cbn [andb]. by eapply count_sub.
Qed.

(** After the loop, a mismatch is gone or still without a copy. *)
Lemma settled_loop nets l acc :
  NoDup (dev_ID <$> rd_devices acc.1) →
  let acc' := fold_left (cleanup_one no_faults order nets) l acc in
  (∃ gone : list Z, rd_devices acc'.1 = filter (fun d => dev_ID d ∉ gone) (rd_devices acc.1))
  ∧ rd_networks acc'.1 = rd_networks acc.1
  ∧ (∀ m, m ∈ l → (∀ d, d ∈ rd_devices acc'.1 → dev_ID d ≠ mm_DeviceID m) ∨ has_canonical no_faults order nets m acc'.1 = false)
  ∧ cs_Rehomed acc'.2 + cs_Unresolved acc'.2 = cs_Rehomed acc.2 + cs_Unresolved acc.2 + Z.of_nat (length l)
  ∧ cs_Mismatches acc'.2 = cs_Mismatches acc.2.
Proof.
  cbv zeta. revert acc. induction l as [|m l IH]; intros acc Hn; cbn [fold_left].
  { split_and!; [|done| |cbn; lia|done]; [|intros m Hm; by apply not_elem_of_nil in Hm].
    exists []. symmetry. apply filter_all, list.Forall_forall. intros d _. apply not_elem_of_nil. }
  destruct acc as [db st]. cbn [fst] in Hn.
  assert (∃ gone : list Z, rd_devices (cleanup_one no_faults order nets (db, st) m).1 = filter (fun d => dev_ID d ∉ gone) (rd_devices db)) as [g0 E0].
  { unfold cleanup_one. cbn [no_faults negb]. destruct (has_canonical _ _ _ m db); cbn.
    - exists [mm_DeviceID m]. apply list_filter_iff. intros d. set_solver.
    - exists []. symmetry. apply filter_all, list.Forall_forall. intros d _. apply not_elem_of_nil. }
  destruct (IH (cleanup_one no_faults order nets (db, st) m)) as ([g1 E1] & Hnet & Hall & Hsum & Hmis).
  { rewrite E0. eapply sublist_NoDup; [exact Hn|]. apply sublist_fmap_mono, sublist_filter. }
  set (acc' := fold_left _ l _) in *.
  assert (rd_devices acc'.1 = filter (fun d => dev_ID d ∉ g0 ++ g1) (rd_devices db)) as E2.
  { rewrite E1, E0, list_filter_filter. apply list_filter_iff. intros d. set_solver. }
  split_and!.
  - by exists (g0 ++ g1).
  - rewrite Hnet. unfold cleanup_one. cbn [no_faults negb]. by destruct (has_canonical _ _ _ m db).
  - intros m' [->|Hm']%elem_of_cons; [|by apply Hall]. destruct (has_canonical no_faults order nets m db) eqn:Hc.
    + left. intros d Hd. rewrite E1 in Hd. apply list_elem_of_filter in Hd as [_ Hd]. revert Hd. unfold cleanup_one.
      rewrite Hc. cbn. by intros [? _]%list_elem_of_filter.
    + right. destruct (has_canonical no_faults order nets m acc'.1) eqn:Hc'; [|done].
      by rewrite (canonical_sub nets m db acc'.1 _ Hn E2 Hc') in Hc.
  - rewrite Hsum. unfold cleanup_one. cbn [no_faults negb]. destruct (has_canonical _ _ _ m db); cbn [negb snd cs_Rehomed cs_Unresolved length]; lia.
  - rewrite Hmis. unfold cleanup_one. cbn [no_faults negb]. by destruct (has_canonical _ _ _ m db).
Qed.

Lemma idle_loop nets l db st :
  (∀ m, m ∈ l → has_canonical no_faults order nets m db = false) →
  (fold_left (cleanup_one no_faults order nets) l (db, st)).1 = db
  ∧ cs_Rehomed (fold_left (cleanup_one no_faults order nets) l (db, st)).2 = cs_Rehomed st.
Proof.
  revert st. induction l as [|m l IH]; intros st Hl; [done|]. cbn [fold_left]. unfold cleanup_one at 2 4.
  rewrite Hl by (by left). cbn [negb].
  match goal with |- context [fold_left _ l (db, ?st')] => destruct (IH st') as [H1 H2] end.
  { intros m' Hm'. apply Hl. by right. }
  split; [exact H1|exact H2].
Qed.

End second.

(** Without database faults, every mismatch of a clean-up is removed or left
    for the operator, and a second clean-up that visits the networks in the
    same order removes nothing. *)
Theorem cleanup_settles order db db' st
    (Hord : any_order order) (Hok : tables_ok db) (Hrun : CleanupGhosts no_faults order db = (db', Some st)) :
  cs_Rehomed st + cs_Unresolved st = cs_Mismatches st
  ∧ ∃ st', CleanupGhosts no_faults order db' = (db', Some st') ∧ cs_Rehomed st' = 0 ∧ cs_Unresolved st' = cs_Mismatches st'.
Proof.
  unfold CleanupGhosts in *. destruct (reconcile_total order db) as [ms Hr]. rewrite Hr in Hrun.
  destruct (settled_loop order Hord (cache_of <$> rd_networks db) ms (db, mkStats (Z.of_nat (length ms)) 0 0 [] []))
    as ([gone E] & Hnet & Hall & Hsum & Hmis); [apply Hok|].
  destruct (fold_left _ ms _) as [db1 st1]. injection Hrun as -> ->. cbn [fst snd cs_Rehomed cs_Unresolved cs_Mismatches] in *.
  split; [lia|]. destruct (reconcile_total order db') as [ms' Hr']. rewrite Hr'.
  assert (∀ m, m ∈ ms' → has_canonical no_faults order (cache_of <$> rd_networks db') m db' = false) as Hidle.
  { intros m Hm. destruct (mismatch_spec no_faults order Hord _ _ _ _ Hr' Hm) as (_ & n & d & Hd & Hmis' & ->).
    rewrite Hnet. assert (d ∈ rd_devices db) as Hd0 by (rewrite E in Hd; by apply list_elem_of_filter in Hd as [_ ?]).
    destruct (Hall (mismatch_of n d)) as [Hgone|?]; [|exfalso; by apply (Hgone d)|done].
    eapply mismatch_complete; [done|exact Hr|done|]. unfold misplaced in *. by rewrite <- Hnet. }
  destruct (idle_loop order _ _ db' (mkStats (Z.of_nat (length ms')) 0 0 [] []) Hidle) as [E1 E2].
  destruct (settled_loop order Hord (cache_of <$> rd_networks db') ms' (db', mkStats (Z.of_nat (length ms')) 0 0 [] []))
    as (_ & _ & _ & Hsum' & Hmis2).
  { cbn [fst]. rewrite E. eapply sublist_NoDup; [apply (to_devices _ Hok)|]. apply sublist_fmap_mono, sublist_filter. }
  destruct (fold_left _ ms' _) as [db2 st2]. cbn [fst snd cs_Rehomed cs_Unresolved cs_Mismatches] in *. subst db2.
  exists st2. split_and!; [done|done|lia].
Qed.

(** * Reserved addresses *)

Lemma ParseNetwork_v4 cidr p :
  ParseNetwork cidr = Ok p → length (net_Mask p) = 4%nat →
  ∃ base n, p = net4 base n ∧ ip_wf base ∧ length base = 4%nat ∧ 0 ≤ n ≤ 32 ∧ be_val base = trunc (32 - n) (be_val base).
Proof.
  unfold ParseNetwork. destruct (is_empty _); [done|]. destruct (if str_mem _ _ then _ else _) as [s|]; [|done]. cbn [rbind].
  destruct (ParseCIDR s) as [p'|] eqn:Hp; [|done]. intros [= ->] Hm. eapply ParseCIDR_v4; [exact Hp|]. revert Hp. unfold ParseCIDR.
  destruct (cut_at _ s) as [[addr mask]|]; [|done]. destruct (ParseAddr addr) as [a|] eqn:A; [|done].
  destruct (dtoi mask) as [[n i]|]; [|done]. destruct (negb _ || _); [done|]. apply ParseAddr_wf in A as [_ [Hl|Hl]]; rewrite Hl.
  - rewrite IPMask_v4 by done. intros <-%(inj Some). cbn [net_IP]. unfold and_bytes. by rewrite length_zip_with, CIDRMask_length, Hl.
  - destruct (IPMask _ _); [|done]. intros <-%(inj Some). cbn [net_Mask] in Hm. by rewrite CIDRMask_length in Hm.
Qed.

Lemma IPMask_aligned base n :
  ip_wf base → length base = 4%nat → be_val base = trunc (32 - n) (be_val base) → 0 ≤ n ≤ 32 →
  IPMask base (CIDRMask n 4) = Some base.
Proof.
  intros Hw Hl Hal Hn. unfold IPMask. rewrite CIDRMask_length, Hl. cbn [Nat.eqb andb].
  rewrite andb_false_r. cbn [andb]. rewrite Hl, CIDRMask_length. cbn [Nat.eqb]. f_equal.
  pose proof (and_CIDRMask base n Hw) as E. pose proof (and_CIDRMask_wf base n Hw) as W. rewrite Hl in E, W. change (8 * Z.of_nat 4) with 32 in E.
  apply be_val_inj; [apply W; lia|done| |rewrite E by lia; by rewrite <- Hal].
  unfold and_bytes. by rewrite length_zip_with, CIDRMask_length, Hl.
Qed.

(** The reserved addresses of an IPv4 block are its first and its last. *)
Lemma reserved_net4 i name cidr base n :
  ip_wf base → length base = 4%nat → be_val base = trunc (32 - n) (be_val base) → 0 ≤ n ≤ 32 →
  reserved_addresses (mkNetCache i name cidr (Some (net4 base n)))
  = if 31 <=? n then [] else [show4 (be_val base); show4 (be_val base + 2 ^ (32 - n) - 1)].
Proof.
  intros Hw Hl Hal Hn. unfold reserved_addresses, broadcastAddr, net4. cbn [nc_ipNet net_IP net_Mask].
  rewrite MaskSize_CIDRMask by lia. change (8 * Z.of_nat 4) with 32. cbn [Z.eqb Pos.eqb negb orb].
  destruct (Z.leb_spec 31 n); [done|]. rewrite IPMask_aligned by done. cbn [default from_option]. unfold id, show4.
  rewrite ip4_be_val by done. do 3 f_equal. fold or_not.
  pose proof (or_CIDRMask base n Hw) as E. pose proof (or_CIDRMask_wf base n Hw) as W. cbv zeta in E. rewrite Hl in E, W.
  change (8 * Z.of_nat 4) with 32 in E. rewrite <- Hal in E. rewrite <- E by lia.
  rewrite ip4_be_val; [done|apply W; lia|]. by rewrite length_zip_with, CIDRMask_length, Hl.
Qed.

Lemma show4_inj v w : 0 ≤ v < 2 ^ 32 → 0 ≤ w < 2 ^ 32 → show4 v = show4 w → v = w.
Proof.
  intros Hv Hw E. unfold show4 in E. destruct (ip4_wf v), (ip4_wf w).
  assert (ParseIP (ip_string (ip4 v)) = ParseIP (ip_string (ip4 w))) as Ep by (by rewrite E).
  rewrite !ParseIP_string_4 in Ep by done. apply (inj Some), (inj (app v4InV6Prefix)) in Ep.
  rewrite <- (be_val_ip4 v), <- (be_val_ip4 w) by done. by rewrite Ep.
Qed.

(** An address of an IPv4 block is reserved or one of its hosts, not both. *)
Lemma reserved_or_host i name cidr base n fuel l v :
  ip_wf base → length base = 4%nat → be_val base = trunc (32 - n) (be_val base) → 0 ≤ n ≤ 32 →
  enumerateCIDR fuel (net4 base n) = Some l → be_val base ≤ v < be_val base + 2 ^ (32 - n) →
  show4 v ∈ l ↔ show4 v ∉ reserved_addresses (mkNetCache i name cidr (Some (net4 base n))).
Proof.
  intros Hw Hl Hal Hn He Hv. rewrite reserved_net4 by done.
  pose proof (be_val_range base Hw) as Hr. rewrite Hl in Hr. change (8 * Z.of_nat 4) with 32 in Hr.
  pose proof (block_fits base n Hw Hl Hal Hn) as Hfit.
  destruct (decide (n = 0)) as [->|Hn0].
  { revert He. unfold enumerateCIDR, net4. cbn [net_IP net_Mask]. rewrite MaskSize_CIDRMask by lia. change (0 =? _) with false. cbn iota.
    rewrite IPMask_aligned by done. cbn [default from_option]. unfold id. intros (ips & Hl' & _)%fmap_Some.
    pose proof (enum_loop_all fuel base (be_val base) Hw Hl Hal Hr) as Hno. rewrite ip4_be_val in Hno by done.
    unfold net4 in Hno. by rewrite Hno in Hl'. }
  apply (enumerateCIDR_mono _ (fuel + S (Z.to_nat (2 ^ (32 - n))))) in He; [|lia].
  rewrite enumerateCIDR_net4 in He by (done || lia). injection He as <-. unfold hosts4.
  destruct (Z.eqb_spec n 32) as [->|]; [cbn in Hv |- *|destruct (Z.eqb_spec n 31) as [->|]; [change (2 ^ (32 - 31)) with 2 in *|]].
  - replace v with (be_val base) by lia. set_solver.
  - split; [intros _; apply not_elem_of_nil|intros _]. apply list_elem_of_fmap_2, elem_of_seqZ. lia.
  - destruct (Z.leb_spec 31 n); [lia|]. rewrite !not_elem_of_cons, list_elem_of_fmap. split.
    + intros (w & E & [Hw1 Hw2]%elem_of_seqZ). apply show4_inj in E as ->; [|lia..].
      split_and!; [intros E; apply show4_inj in E; lia..|apply not_elem_of_nil].
    + intros (H1 & H2 & _). exists v. split; [done|]. apply elem_of_seqZ.
      assert (v ≠ be_val base) by (by intros ->). assert (v ≠ be_val base + 2 ^ (32 - n) - 1) by (by intros ->). lia.
Qed.

(** The loop removes the devices at a prefix of the addresses, all of them
    when no statement fails, and reports their addresses. *)
Definition placed_in (l : list (Z * string)) (d : Device) : Prop := ∃ net, dev_NetworkID d = Some net ∧ (net, dev_IpAddress d) ∈ l.

#[export] Instance placed_in_dec l d : Decision (placed_in l d).
Proof.
  unfold placed_in. destruct (dev_NetworkID d) as [net|]; [|right; naive_solver].
  destruct (decide ((net, dev_IpAddress d) ∈ l)); [left; eauto|right; naive_solver].
Defined.

Lemma placed_cons net ip l d : placed_in ((net, ip) :: l) d ↔ at_address net ip d ∨ placed_in l d.
Proof.
  unfold placed_in, at_address. setoid_rewrite elem_of_cons. split.
  - intros (k & Hk & [[= -> <-]|Hin]); eauto.
  - intros [[? <-]|(k & Hk & Hin)]; eauto.
Qed.

Lemma removed_loop ok l db rem db' rem' fine :
  remove_addresses ok l db rem = (db', rem', fine) →
  ∃ k : list (Z * string), k `prefix_of` l ∧ (fine = true → k = l)
  ∧ (∀ d, d ∈ rd_devices db' ↔ d ∈ rd_devices db ∧ ¬ placed_in k d)
  ∧ (∀ s, s ∈ rd_snapshots db → s ∈ rd_snapshots db' ∨ (ss_NetworkID s, ss_Ip s) ∈ l)
  ∧ (∀ ip, ip ∈ rem' ↔ ip ∈ rem ∨ ∃ d, d ∈ rd_devices db ∧ d ∉ rd_devices db' ∧ dev_IpAddress d = ip).
Proof.
  revert db rem. induction l as [|[net ip] l IH]; intros db rem; cbn [remove_addresses].
  { intros [= <- <- <-]. exists []. split_and!; [done|done| |auto|naive_solver].
    intros d. split; [|tauto]. intros ?. split; [done|]. intros (? & _ & Hn). by apply not_elem_of_nil in Hn. }
  assert (∀ d, ¬ placed_in [] d) as Hnil by (intros d (? & _ & Hn); by apply not_elem_of_nil in Hn).
  unfold remove_address. destruct (ok (DLease net ip)); cbn [negb].
  2:{ intros [= <- <- <-]. exists []. split_and!; [apply prefix_nil|done|naive_solver|auto|naive_solver]. }
  assert (∀ s, s ∈ rd_snapshots db → s ∈ rd_snapshots (delete_lease net ip db) ∨ (ss_NetworkID s, ss_Ip s) ∈ (net, ip) :: l) as Hs.
  { intros s Hs. destruct (decide (ss_NetworkID s = net ∧ ss_Ip s = ip)) as [[-> ->]|Hne]; [right; by left|left].
    by apply list_elem_of_filter. }
  destruct (ok (DAddress net ip)); cbn [negb].
  2:{ intros [= <- <- <-]. exists []. split_and!; [apply prefix_nil|done|cbn; naive_solver|done|cbn; naive_solver]. }
  set (rem1 := if existsb _ _ then _ else _). intros (k & Hp & Hall & Hd & Hsn & Hrem)%IH.
  assert (∀ d, d ∈ rd_devices (delete_address net ip (delete_lease net ip db)) ↔ d ∈ rd_devices db ∧ ¬ at_address net ip d) as Hd1
    by (intros d; cbn; rewrite list_elem_of_filter; tauto).
  exists ((net, ip) :: k). split_and!.
  - by apply prefix_cons.
  - intros Hf. by rewrite Hall.
  - intros d. rewrite Hd, Hd1, placed_cons. tauto.
  - intros s Hin. destruct (Hs s Hin) as [Hin1|?]; [|auto]. destruct (Hsn s Hin1) as [?|?]; [auto|]. right. by right.
  - assert (∀ a, a ∈ rem1 ↔ a ∈ rem ∨ a = ip ∧ ∃ d, d ∈ rd_devices db ∧ at_address net ip d) as Hrem1.
    { intros a. subst rem1. destruct (existsb _ _) eqn:Hx.
      - apply List.existsb_exists in Hx as (d & Hin%list_elem_of_In & Hat%bool_decide_eq_true).
        rewrite elem_of_app, list_elem_of_singleton. naive_solver.
      - split; [auto|]. intros [?|(-> & d & Hin & Hat)]; [done|]. apply not_true_iff_false in Hx. destruct Hx.
        apply List.existsb_exists. exists d. split; [by apply list_elem_of_In|]. by apply bool_decide_eq_true. }
    intros a. rewrite Hrem, Hrem1. setoid_rewrite Hd. setoid_rewrite Hd1. unfold at_address. split.
    + intros [[?|(-> & d & Hin & Hn & Hat)]|(d & [Hin Hn] & Hout & <-)]; [by left|right; exists d; tauto|right; exists d; tauto].
    + intros [?|(d & Hin & Hout & <-)]; [by left; left|].
      destruct (decide (at_address net ip d)) as [[Hn Hip]|Hno]; [left; right; eauto|right; exists d; unfold at_address in Hno; tauto].
Qed.

Lemma reserved_listed order db net ip :
  any_order order →
  (net, ip) ∈ concat ((fun n => pair (nc_id n) <$> reserved_addresses n) <$> order 0 (cache_of <$> rd_networks db))
  ↔ ∃ n, n ∈ rd_networks db ∧ net = net_ID n ∧ ip ∈ reserved_addresses (cache_of n).
Proof.
  intros Hord. rewrite elem_of_concat. split.
  - intros (l & Hl & Hin). apply list_elem_of_fmap in Hl as (nc & -> & Hn). apply ordered in Hn; [|done].
    apply list_elem_of_fmap in Hn as (n & -> & Hn). apply list_elem_of_fmap in Hin as (a & [= -> ->] & Ha). by exists n.
  - intros (n & Hn & -> & Ha). eexists. split; [by apply list_elem_of_fmap_2, in_order, list_elem_of_fmap_2|].
    by apply (list_elem_of_fmap_2 (pair (nc_id (cache_of n)))).
Qed.

(** A reserved address is the first or the last of an IPv4 block. *)
Lemma reserved_inv n ip :
  ip ∈ reserved_addresses (cache_of n) →
  ∃ p, ParseNetwork (default "" (net_Cidr n)) = Ok p ∧ ∀ fuel l, enumerateCIDR fuel p = Some l → ip ∉ l.
Proof.
  intros Hin. assert (Hin0 := Hin). unfold reserved_addresses, cache_of in Hin0. cbn [nc_ipNet] in Hin0.
  destruct (ParseNetwork _) as [p|] eqn:Hp; [|by apply not_elem_of_nil in Hin0]. exists p. split; [done|]. intros fuel l He Hl.
  assert (length (net_Mask p) = 4%nat) as Hm.
  { unfold MaskSize in Hin0. destruct (simpleMaskLength (net_Mask p)) as [k|]; [|by apply not_elem_of_nil in Hin0].
    destruct (Z.eqb_spec (8 * Z.of_nat (length (net_Mask p))) 32); [lia|by apply not_elem_of_nil in Hin0]. }
  destruct (ParseNetwork_v4 _ _ Hp Hm) as (base & k & -> & Hw & Hlen & Hk & Hal).
  unfold cache_of in Hin. cbv zeta in Hin. rewrite Hp in Hin. assert (Hres := Hin). rewrite reserved_net4 in Hin by done.
  assert (0 < 2 ^ (32 - k)) by (apply Z.pow_pos_nonneg; lia).
  destruct (31 <=? k); [by apply not_elem_of_nil in Hin|].
  apply elem_of_cons in Hin as [->|Hin%list_elem_of_singleton]; [|subst ip].
  all: eapply reserved_or_host in Hl; [by apply Hl|done..|]; lia.
Qed.

(** Whatever statements fail, the removal of reserved addresses deletes only
    devices at an address no scan of their network enumerates, and reports
    exactly the addresses it emptied.  When no statement fails, every device
    left at an IPv4 address of its network's block is at an address a scan of
    that network enumerates. *)
Theorem reserved_removed ok order db db' removed fine
    (Hord : any_order order) (Hrun : CleanupReservedAddressDevices ok order db = (db', removed, fine)) :
  (∀ d, d ∈ rd_devices db' → d ∈ rd_devices db)
  ∧ (∀ d, d ∈ rd_devices db → d ∉ rd_devices db' →
       ∃ n p, n ∈ rd_networks db ∧ dev_NetworkID d = Some (net_ID n) ∧ ParseNetwork (default "" (net_Cidr n)) = Ok p
         ∧ ∀ fuel l, enumerateCIDR fuel p = Some l → dev_IpAddress d ∉ l)
  ∧ (∀ ip, ip ∈ removed ↔ ∃ d, d ∈ rd_devices db ∧ d ∉ rd_devices db' ∧ dev_IpAddress d = ip)
  ∧ (fine = true → ∀ d n p a fuel l,
       d ∈ rd_devices db' → n ∈ rd_networks db → dev_NetworkID d = Some (net_ID n) →
       ParseNetwork (default "" (net_Cidr n)) = Ok p → length (net_Mask p) = 4%nat →
       ip_wf a → length a = 4%nat → dev_IpAddress d = ip_string a → Contains p a = true →
       enumerateCIDR fuel p = Some l → dev_IpAddress d ∈ l).
Proof.
  revert Hrun. unfold CleanupReservedAddressDevices, refreshNetworks. destruct (ok QNetworks).
  2:{ intros [= <- <- <-]. split_and!; [done|done| |done]. intros ip. split; [by intros ?%not_elem_of_nil|naive_solver]. }
  intros (k & Hpre & Hall & Hd & _ & Hrem)%removed_loop. split_and!.
  - intros d [? _]%Hd. done.
  - intros d Hin Hout. assert (placed_in k d) as (net & Hnet & Hk).
    { destruct (decide (placed_in k d)); [done|]. destruct Hout. by apply Hd. }
    eapply elem_of_prefix in Hk; [|exact Hpre]. apply reserved_listed in Hk as (n & Hn & -> & Hres); [|done].
    apply reserved_inv in Hres as (p & Hp & Hno). by exists n, p.
  - intros ip. rewrite Hrem. split; [intros [?%not_elem_of_nil|?]; done|by right].
  - intros Hf d n p a fuel l [Hin Hnot]%Hd Hn Hnet Hp Hm Hwa Hla Hip Hc He. specialize (Hall Hf) as ->.
    destruct (ParseNetwork_v4 _ _ Hp Hm) as (base & m & -> & Hw & Hlen & Hk & Hal).
    pose proof (be_val_range a Hwa) as Hr. rewrite Hla in Hr. change (8 * Z.of_nat 4) with 32 in Hr.
    rewrite <- (ip4_be_val a) in Hip, Hc by done. rewrite Contains_ip4, bool_decide_eq_true in Hc by done.
    fold (show4 (be_val a)) in Hip. rewrite Hip. eapply (reserved_or_host (net_ID n)); [done..|]. intros Hres. apply Hnot.
    exists (net_ID n). split; [done|]. apply reserved_listed; [done|]. exists n. split_and!; [done..|]. rewrite Hip.
    unfold cache_of. cbv zeta. rewrite Hp. exact Hres.
Qed.

(** * On concrete tables *)

Definition as_listed : Z → list netCache → list netCache := fun _ l => l.

Lemma as_listed_order : any_order as_listed.
Proof. by intros k l. Qed.

Definition lan_a : Network := mkNetwork 1 "a" (Some "10.0.0.0/24") None.
Definition lan_b : Network := mkNetwork 2 "b" (Some "10.0.1.0/24") None.

Definition host_at (id : Z) (ip mac : string) (net : Z) : Device :=
  mkDevice id "" "host" "server" "" "" "online" ip mac "scanner_v2" "" "" "" "" "" (Some net) None None None 0.

(** Device 2 is a copy of device 1 stamped with the wrong network, device 3
    has no counterpart, device 4 is at a broadcast address. *)
Definition drifted : reconcile_db :=
  mkReconcileDb [host_at 1 "10.0.0.5" "00:11:22:33:44:55" 1; host_at 2 "10.0.0.5" "" 2; host_at 3 "10.9.0.1" "" 2; host_at 4 "10.0.1.255" "" 2]
    [mkScanSnapshot 1 2 None "10.0.0.5" "" "" 0 0 0 None] [lan_a; lan_b].

Definition settled : reconcile_db :=
  mkReconcileDb [host_at 1 "10.0.0.5" "00:11:22:33:44:55" 1; host_at 3 "10.9.0.1" "" 2; host_at 4 "10.0.1.255" "" 2] [] [lan_a; lan_b].

Lemma drifted_ok : tables_ok drifted.
Proof. split; refine (bool_decide_unpack _ _); vm_compute; exact I. Qed.

Lemma drifted_run : CleanupGhosts no_faults as_listed drifted = (settled, Some (mkStats 2 1 1 ["10.0.0.5"] ["10.9.0.1"])).
Proof. vm_compute. reflexivity. Qed.

Lemma ghosts_removed_safely_witness : host_at 1 "10.0.0.5" "00:11:22:33:44:55" 1 ∈ rd_devices settled.
Proof.
  apply (ghosts_removed_safely no_faults as_listed drifted settled _ as_listed_order drifted_ok drifted_run); [by left|].
  intros n. apply well_placed_not; [apply drifted_ok|]. exists lan_a, (mkIPNet [10;0;0;0] [255;255;255;0]).
  split; [by left|]. vm_compute. done.
Defined.

Lemma cleanup_settles_witness :
  ∃ st, CleanupGhosts no_faults as_listed settled = (settled, Some st) ∧ cs_Rehomed st = 0 ∧ cs_Unresolved st = cs_Mismatches st.
Proof. apply (cleanup_settles as_listed drifted settled _ as_listed_order drifted_ok drifted_run). Defined.

Lemma reserved_removed_witness :
  "10.0.1.255" ∈ (CleanupReservedAddressDevices no_faults as_listed drifted).1.2
  ∧ ¬ ("10.0.0.5" ∈ (CleanupReservedAddressDevices no_faults as_listed drifted).1.2).
Proof.
  destruct (CleanupReservedAddressDevices no_faults as_listed drifted) as [[db' removed] fine] eqn:Hrun.
  destruct (reserved_removed no_faults as_listed drifted db' removed fine as_listed_order Hrun) as (_ & _ & Hrem & _).
  assert (db' = (CleanupReservedAddressDevices no_faults as_listed drifted).1.1) as -> by (by rewrite Hrun).
  cbn [fst snd]. split.
  - apply Hrem. exists (host_at 4 "10.0.1.255" "" 2). split_and!; [by do 3 right; left| |done].
    refine (bool_decide_unpack _ _). vm_compute. exact I.
  - intros (d & Hd & Hout & Hip)%Hrem. apply Hout.
    assert (Forall (fun d => dev_IpAddress d = "10.0.0.5" → d ∈ rd_devices (CleanupReservedAddressDevices no_faults as_listed drifted).1.1)
              (rd_devices drifted)) as Hall by (refine (bool_decide_unpack _ _); vm_compute; exact I).
    rewrite list.Forall_forall in Hall. by apply Hall.
Defined.

(** The row of device 2 is removed because another device, with another MAC,
    holds its address in the network the address belongs to: its MAC is then
    in no row. *)
Definition taken_over : reconcile_db :=
  mkReconcileDb [host_at 1 "10.0.0.5" "00:11:22:33:44:55" 1; host_at 2 "10.0.0.5" "66:77:88:99:aa:bb" 2] [] [lan_a; lan_b].

Lemma identity_lost : dev_MacAddress <$> rd_devices (CleanupGhosts no_faults as_listed taken_over).1 = ["00:11:22:33:44:55"].
Proof. vm_compute. reflexivity. Qed.

(** A row synthesized from a MAC-only sighting asserts no address, and is
    reported as outside its network on every pass. *)
Definition anchored : reconcile_db :=
  mkReconcileDb [host_at 1 "#anchor:00:11:22:33:44:55" "00:11:22:33:44:55" 1] [] [lan_a].

Lemma anchor_counts_as_drift : length <$> Reconcile no_faults as_listed anchored = Some 1%nat.
Proof. vm_compute. reflexivity. Qed.
