(* ===== verification/Retention.v ===== *)
(** The retention sweep (src/internal/service/scannerv2/cleanup/cleanup.go) and
    its settings ([normalizeRetention] of src/internal/config/config.go).

    The timestamps of the swept tables are text, compared byte by byte; NULL
    compares with nothing.  What the sqlite driver makes of a Go time is the
    parameter [bind].  A statement with LIMIT and no order may pick any of the
    rows: [pick] and [pick_devices] list the candidates in the order the engine
    finds them.  What happens to a statement is said by oracles. *)

From S2P Require Import Prelude NetAddr Db DeviceStore Json.

Open Scope Z_scope.

(** * Settings *)

Record RetentionConfig := mkRetentionConfig {
  rc_HeartbeatResultsDays : Z;
  rc_DeviceLivenessDays : Z;
  rc_ScanResultsDays : Z;
  rc_ScanTaskRunsDays : Z;
  rc_AuditLogsDays : Z;
  rc_NotificationLogDays : Z;
  rc_ServiceEvidenceDays : Z;
  rc_ChangeLogDays : Z;
  rc_DeviceNeighborsDays : Z;
  rc_DeviceSpeaksDays : Z;
  rc_HostServicesDays : Z;
  rc_HostTLSCertsDays : Z;
  rc_ProbeResultsDays : Z;
  rc_SweepIntervalHours : Z;
  rc_BatchSize : Z
}.

Definition or_days (v d : Z) : Z := if v <=? 0 then d else v.

(** [heartbeat] and [scanner] are the older settings [heartbeat.retention_days]
    and [scanner.retention_days]. *)
Definition normalizeRetention (heartbeat scanner : Z) (r : RetentionConfig) : RetentionConfig :=
  let hb := or_days (rc_HeartbeatResultsDays r) (if 0 <? heartbeat then heartbeat else 7) in
  mkRetentionConfig hb (or_days (rc_DeviceLivenessDays r) hb)
    (or_days (rc_ScanResultsDays r) (if 0 <? scanner then scanner else 30))
    (or_days (rc_ScanTaskRunsDays r) 30) (or_days (rc_AuditLogsDays r) 90) (or_days (rc_NotificationLogDays r) 30)
    (or_days (rc_ServiceEvidenceDays r) 14) (or_days (rc_ChangeLogDays r) 30) (or_days (rc_DeviceNeighborsDays r) 90)
    (or_days (rc_DeviceSpeaksDays r) 30) (or_days (rc_HostServicesDays r) 30) (or_days (rc_HostTLSCertsDays r) 30)
    (or_days (rc_ProbeResultsDays r) 30) (or_days (rc_SweepIntervalHours r) 6) (or_days (rc_BatchSize r) 5000).

(** The handles are present or nil. *)
Record Service := mkService {
  sv_heartbeatQueries : bool;
  sv_heartbeatDB : bool;
  sv_mainDB : bool;
  sv_cfg : RetentionConfig;
  sv_interval : Z;
  sv_batch : Z
}.

Definition hour : Z := 60 * minute.

Definition New (heartbeatQueries heartbeatDB mainDB : bool) (cfg : RetentionConfig) : Service :=
  mkService heartbeatQueries heartbeatDB mainDB cfg
    (or_days (rc_SweepIntervalHours cfg * hour) (6 * hour)) (or_days (rc_BatchSize cfg) 5000).

(** * Times as text *)

Definition date_text (secs : Z) : string :=
  let '(y, m, d) := civil_of_days (secs / 86400) in pad4 y +:+ "-" +:+ pad2 m +:+ "-" +:+ pad2 d.

Definition clock_text (secs : Z) : string :=
  let s := secs mod 86400 in pad2 (s / 3600) +:+ ":" +:+ pad2 (s / 60 mod 60) +:+ ":" +:+ pad2 (s mod 60).

(** SQLite's [CURRENT_TIMESTAMP]. *)
Definition current_timestamp (t : Z) : string :=
  let secs := t / nanos_per_second in date_text secs +:+ " " +:+ clock_text secs.

(** The digits of a fraction of [k] places without trailing zeros. *)
Fixpoint fraction (k : nat) (n : Z) : string :=
  match k with
  | O => ""
  | S k => if n =? 0 then "" else let p := 10 ^ Z.of_nat k in itoa (n / p) +:+ fraction k (n mod p)
  end.

Definition format_RFC3339Nano (t : Z) : string :=
  let secs := t / nanos_per_second in
  let ns := t mod nanos_per_second in
  date_text secs +:+ "T" +:+ clock_text secs +:+ (if ns =? 0 then "" else "." +:+ fraction 9 ns) +:+ "Z".

(** [time.Time{}]: the start of year 1. *)
Definition zero_time : Z := -62135596800 * nanos_per_second.
Definition IsZero (t : Z) : bool := t =? zero_time.

(** [t.AddDate(0, 0, -days)] in the local zone, [zone] its offset in seconds at
    an instant in seconds: the wall clock goes back, then is looked up again. *)
Definition days_back (zone : Z → Z) (t days : Z) : Z :=
  let secs := t / nanos_per_second in
  let wall := secs + zone secs - days * 86400 in
  (if zone wall =? 0 then wall else wall - zone (wall - zone wall)) * nanos_per_second + t mod nanos_per_second.

(** * Rows *)

Inductive row_data :=
| Opaque
| Removed (agent : string) (net : option Z) (entity : Z) (before : string).

Record time_row := mkTimeRow { tr_ID : Z; tr_At : option string; tr_Data : row_data }.

#[export] Instance row_data_eq_dec : EqDecision row_data.
Proof. solve_decision. Defined.

#[export] Instance time_row_eq_dec : EqDecision time_row.
Proof. solve_decision. Defined.

(** The columns of [devices] the sweep reads. *)
Record dev_row := mkDevRow {
  dr_ID : Z;
  dr_Uuid : string;
  dr_Name : string;
  dr_Type : string;
  dr_Brand : string;
  dr_Model : string;
  dr_Mac : string;
  dr_IP : string;
  dr_NetworkID : option Z;
  dr_OfflineSince : option string;
  dr_ScanSource : string;
  dr_Status : string
}.

#[export] Instance dev_row_eq_dec : EqDecision dev_row.
Proof. solve_decision. Defined.

Record retention_db := mkRetentionDb {
  rt_tables : gmap string (list time_row);
  rt_logSeq : Z;
  rt_devices : list dev_row;
  rt_configs : list HeartbeatConfig
}.

Definition rows_of (table : string) (db : retention_db) : list time_row := default [] (rt_tables db !! table).

Definition with_rows (table : string) (rows : list time_row) (db : retention_db) : retention_db :=
  mkRetentionDb (<[table := rows]> (rt_tables db)) (rt_logSeq db) (rt_devices db) (rt_configs db).

(** A comparison with NULL is not true. *)
Definition before_text (bound : string) (at_ : option string) : Prop :=
  match at_ with Some s => String.ltb s bound = true | None => False end.

#[export] Instance before_text_dec bound at_ : Decision (before_text bound at_).
Proof. destruct at_; cbn; apply _. Defined.

Definition past (bound : string) (r : time_row) : Prop := before_text bound (tr_At r).

#[export] Instance past_dec bound r : Decision (past bound r).
Proof. unfold past. apply _. Defined.

(** Why a sweep does not return. *)
Inductive stuck := OutOfFuel | NilHandle.

Inductive attempt := Fine | Failed | Cancelled.

Section sweep.
Context (zone : Z → Z) (bind : Z → string) (now : Z).
Context (pick : list time_row → list time_row) (pick_devices : list dev_row → list dev_row).
Context (pick_configs : list HeartbeatConfig → list HeartbeatConfig).

(** * The sweep of one table *)

Definition cutoff (days : Z) : Z := if days <=? 0 then zero_time else days_back zone now days.

(** [DELETE ... WHERE id IN (SELECT id ... WHERE at < bound LIMIT limit)]: what
    is left and the number of rows deleted. *)
Definition delete_batch (bound : string) (limit : Z) (rows : list time_row) : list time_row * Z :=
  let victims := tr_ID <$> take (Z.to_nat limit) (pick (filter (past bound) rows)) in
  let kept := filter (fun r => tr_ID r ∉ victims) rows in
  (kept, Z.of_nat (length rows - length kept)).

Fixpoint sweep_loop (fuel : nat) (batch : Z) (bound : string) (world : nat → attempt) (i : nat) (rows : list time_row) (total : Z)
    : result stuck (list time_row * Z) :=
  match fuel with
  | O => Err OutOfFuel
  | S fuel =>
      match world i with
      | Fine =>
          let '(rows, n) := delete_batch bound batch rows in
          if n <? batch then Ok (rows, total + n)
          else sweep_loop fuel batch bound world (S i) rows (total + n)
      | _ => Ok (rows, total)
      end
  end.

(** [text] is how the statement gets its bound; [world] says of each turn of
    the loop whether the context is cancelled or the statement fails. *)
Definition sweepBatched (fuel : nat) (s : Service) (world : string → nat → attempt) (table : string) (days : Z) (text : Z → string)
    (db : retention_db) : result stuck retention_db :=
  let cut := cutoff days in
  if IsZero cut then Ok db
  else
    let? swept := sweep_loop fuel (sv_batch s) (text cut) (world table) 0 (rows_of table db) 0 in
    Ok (with_rows table swept.1 db).

Section tables.
Context (fuel : nat) (world : string → nat → attempt) (s : Service).
Let cfg : RetentionConfig := sv_cfg s.

Definition pruneHeartbeatResults (db : retention_db) : result stuck retention_db :=
  if negb (sv_heartbeatQueries s) then Ok db
  else sweepBatched fuel s world "heartbeat_results" (rc_HeartbeatResultsDays cfg) bind db.

(** The statement runs on [heartbeatDB], which only the absence of
    [heartbeatQueries] guards; a cancelled context ends the sweep before. *)
Definition pruneDeviceLiveness (db : retention_db) : result stuck retention_db :=
  if negb (sv_heartbeatQueries s) then Ok db
  else if negb (sv_heartbeatDB s) then
    if IsZero (cutoff (rc_DeviceLivenessDays cfg)) then Ok db
    else match world "device_liveness" 0%nat with Cancelled => Ok db | _ => Err NilHandle end
  else sweepBatched fuel s world "device_liveness" (rc_DeviceLivenessDays cfg) format_RFC3339 db.

Definition pruneScanResults := sweepBatched fuel s world "scan_results" (rc_ScanResultsDays cfg) bind.
Definition pruneScanTaskRuns := sweepBatched fuel s world "scan_task_runs" (rc_ScanTaskRunsDays cfg) bind.
Definition pruneAuditLogs := sweepBatched fuel s world "audit_logs" (rc_AuditLogsDays cfg) bind.
Definition pruneNotificationLogs := sweepBatched fuel s world "notification_log" (rc_NotificationLogDays cfg) bind.
Definition pruneServiceEvidence := sweepBatched fuel s world "service_evidence" (rc_ServiceEvidenceDays cfg) bind.
Definition pruneChangeLog := sweepBatched fuel s world "change_log" (rc_ChangeLogDays cfg) bind.
Definition pruneDeviceNeighbors := sweepBatched fuel s world "device_neighbors" (rc_DeviceNeighborsDays cfg) bind.
Definition pruneDeviceSpeaks := sweepBatched fuel s world "device_speaks_with" (rc_DeviceSpeaksDays cfg) bind.
Definition pruneHostServices := sweepBatched fuel s world "host_services" (rc_HostServicesDays cfg) bind.
Definition pruneHostTLSCerts := sweepBatched fuel s world "host_tls_certs" (rc_HostTLSCertsDays cfg) bind.
Definition pruneProbeResults := sweepBatched fuel s world "probe_results" (rc_ProbeResultsDays cfg) format_RFC3339.

End tables.

(** * Writes that wait for the lock *)

(** One turn of [execWithBusyRetry]: whether the context is cancelled before
    it, the error of the statement, and whether it is cancelled while waiting. *)
Record exec_turn := mkExecTurn { et_cancelled : bool; et_error : option string; et_cancelledWaiting : bool }.

Definition maxAttempts : nat := 6.
Definition initialWait : Z := 100 * 1000000.

Definition busy (err : string) : bool := contains_str "busy" err || contains_str "locked" err.

(** The error, and the waits on the way. *)
Fixpoint retry_loop (tries attempt : nat) (w : nat → exec_turn) (lastErr : option string) : option string * list Z :=
  match tries with
  | O => (lastErr, [])
  | S tries =>
      if et_cancelled (w attempt) then (Some "context canceled", [])
      else match et_error (w attempt) with
      | None => (None, [])
      | Some e =>
          if negb (busy e) then (Some e, [])
          else
            let wait := initialWait * 2 ^ Z.of_nat attempt in
            if et_cancelledWaiting (w attempt) then (Some "context canceled", [wait])
            else let '(r, waits) := retry_loop tries (S attempt) w (Some e) in (r, wait :: waits)
      end
  end.

Definition execWithBusyRetry (w : nat → exec_turn) : option string := (retry_loop maxAttempts 0 w None).1.

(** * Roamed orphans *)

Definition roamedOrphanWindow : Z := 10 * minute.

(** [strconv.Quote] ([%q]); [isPrint] says which runes beyond ASCII Go calls
    printable. *)
Context (isPrint : Z → bool).

Definition hex2 (z : Z) : string := String (hex_char (Z.shiftr z 4)) (String (hex_char (Z.land z 15)) "").

Definition q_ascii (a : ascii) : string :=
  let z := ascii_Z a in
  let esc c := String backslash (String c "") in
  if (z =? 34) || (z =? 92) then esc a
  else if (32 <=? z) && (z <=? 126) then String a ""
  else if z =? 7 then esc "a"%char else if z =? 8 then esc "b"%char else if z =? 12 then esc "f"%char
  else if z =? 10 then esc "n"%char else if z =? 13 then esc "r"%char else if z =? 9 then esc "t"%char
  else if z =? 11 then esc "v"%char else String backslash (String "x" (hex2 z)).

Definition q_rune (bytes : string) (r : Z) : string :=
  if isPrint r then bytes
  else if r <? 65536 then u_escape r
  else String backslash (String "U" (hex2 (Z.shiftr r 24) +:+ hex2 (Z.land (Z.shiftr r 16) 255)
         +:+ hex2 (Z.land (Z.shiftr r 8) 255) +:+ hex2 (Z.land r 255))).

Fixpoint q_body (s : string) : string :=
  match rune_size s, s with
  | _, EmptyString => ""
  | 1%nat, String a s' => q_ascii a +:+ q_body s'
  | 2%nat, String a (String b s') =>
      q_rune (String a (String b "")) ((ascii_Z a - 192) * 64 + (ascii_Z b - 128)) +:+ q_body s'
  | 3%nat, String a (String b (String c s')) =>
      q_rune (String a (String b (String c ""))) ((ascii_Z a - 224) * 4096 + (ascii_Z b - 128) * 64 + (ascii_Z c - 128)) +:+ q_body s'
  | 4%nat, String a (String b (String c (String d s'))) =>
      q_rune (String a (String b (String c (String d ""))))
        ((ascii_Z a - 240) * 262144 + (ascii_Z b - 128) * 4096 + (ascii_Z c - 128) * 64 + (ascii_Z d - 128)) +:+ q_body s'
  | _, String a s' => String backslash (String "x" (hex2 (ascii_Z a))) +:+ q_body s'
  end.

Definition q (s : string) : string := String dquote (q_body s +:+ String dquote "").

Definition before_json (c : dev_row) : string :=
  let member k v := q k +:+ ":" +:+ q v in
  "{" +:+ member "name" (dr_Name c) +:+ "," +:+ member "type" (dr_Type c) +:+ "," +:+ member "brand" (dr_Brand c) +:+ ","
  +:+ member "model" (dr_Model c) +:+ "," +:+ member "mac_address" (dr_Mac c) +:+ "," +:+ member "ip_address" (dr_IP c) +:+ ","
  +:+ member "device_uuid" (dr_Uuid c) +:+ "," +:+ member "status" "offline" +:+ "}".

Definition logDeviceRemoved (w : nat → exec_turn) (c : dev_row) (reason : string) (db : retention_db) : retention_db :=
  match execWithBusyRetry w with
  | Some _ => db
  | None =>
      let row := mkTimeRow (rt_logSeq db + 1) (Some (current_timestamp now)) (Removed reason (dr_NetworkID c) (dr_ID c) (before_json c)) in
      mkRetentionDb (<["change_log" := rows_of "change_log" db ++ [row]]> (rt_tables db)) (rt_logSeq db + 1) (rt_devices db) (rt_configs db)
  end.

(** A stale duplicate: the MAC is online on another row. *)
Definition roamed_orphan (bound : string) (devices : list dev_row) (d : dev_row) : Prop :=
  dr_ScanSource d = "scanner_v2" ∧ dr_Status d = "offline" ∧ dr_Mac d ≠ "" ∧ before_text bound (dr_OfflineSince d)
  ∧ Exists (fun d2 => dr_Mac d2 = dr_Mac d ∧ dr_ID d2 ≠ dr_ID d ∧ dr_Status d2 = "online") devices.

#[export] Instance roamed_orphan_dec bound devices d : Decision (roamed_orphan bound devices d).
Proof. unfold roamed_orphan. apply _. Defined.

(** What happens in a pass: the state of the context and of the query at a
    turn, whether a row can be scanned, and the turns of each write. *)
Record roam_world := mkRoamWorld {
  rw_select : nat → attempt;
  rw_scan : dev_row → bool;
  rw_log : nat → Z → nat → exec_turn;
  rw_delete : nat → Z → nat → exec_turn
}.

(** A row that cannot be scanned ends the batch. *)
Fixpoint scan_rows (ok : dev_row → bool) (l : list dev_row) : list dev_row :=
  match l with
  | [] => []
  | d :: l => if ok d then d :: scan_rows ok l else []
  end.

Definition remove_orphan (w : roam_world) (i : nat) (db : retention_db) (c : dev_row) : retention_db :=
  let db := logDeviceRemoved (rw_log w i (dr_ID c)) c "roamed_orphan" db in
  match execWithBusyRetry (rw_delete w i (dr_ID c)) with
  | Some _ => db
  | None => mkRetentionDb (rt_tables db) (rt_logSeq db) (filter (fun d => dr_ID d ≠ dr_ID c) (rt_devices db)) (rt_configs db)
  end.

Definition orphan_batch (bound : string) (batch : Z) (w : roam_world) (devices : list dev_row) : list dev_row :=
  scan_rows (rw_scan w) (take (Z.to_nat batch) (pick_devices (filter (roamed_orphan bound devices) devices))).

Fixpoint roam_loop (fuel : nat) (batch : Z) (bound : string) (w : roam_world) (i : nat) (db : retention_db) : result stuck retention_db :=
  match fuel with
  | O => Err OutOfFuel
  | S fuel =>
      match rw_select w i with
      | Fine =>
          let cs := orphan_batch bound batch w (rt_devices db) in
          let db := fold_left (remove_orphan w i) cs db in
          if Z.of_nat (length cs) <? batch then Ok db else roam_loop fuel batch bound w (S i) db
      | _ => Ok db
      end
  end.

Definition pruneRoamedOrphans (fuel : nat) (s : Service) (w : roam_world) (db : retention_db) : result stuck retention_db :=
  if negb (sv_mainDB s) then Ok db
  else roam_loop fuel (sv_batch s) (format_RFC3339Nano (now - roamedOrphanWindow)) w 0 db.

(** * Orphaned heartbeat configurations *)

Definition reap_batch : Z := 500.

Definition no_device (devices : list dev_row) (c : HeartbeatConfig) : Prop := hc_DeviceID c ∉ dr_ID <$> devices.

#[export] Instance no_device_dec devices c : Decision (no_device devices c).
Proof. unfold no_device. apply _. Defined.

Definition reap (db : retention_db) : retention_db * Z :=
  let victims := hc_ID <$> take (Z.to_nat reap_batch) (pick_configs (filter (no_device (rt_devices db)) (rt_configs db))) in
  let kept := filter (fun c => hc_ID c ∉ victims) (rt_configs db) in
  (mkRetentionDb (rt_tables db) (rt_logSeq db) (rt_devices db) kept, Z.of_nat (length (rt_configs db) - length kept)).

(** [changes] answers the second statement, which the pool may run on another
    connection: the number it gives need not be that of the deletion. *)
Record reap_world := mkReapWorld {
  pw_cancelled : nat → bool;
  pw_exec : nat → nat → exec_turn;
  pw_changes : nat → Z → option Z
}.

Fixpoint reap_loop (fuel : nat) (w : reap_world) (i : nat) (db : retention_db) : result stuck retention_db :=
  match fuel with
  | O => Err OutOfFuel
  | S fuel =>
      if pw_cancelled w i then Ok db
      else match execWithBusyRetry (pw_exec w i) with
      | Some _ => Ok db
      | None =>
          let '(db, n) := reap db in
          match pw_changes w i n with
          | None => Ok db
          | Some n => if n =? 0 then Ok db else if reap_batch <=? n then reap_loop fuel w (S i) db else Ok db
          end
      end
  end.

Definition pruneOrphanHeartbeatConfigs (fuel : nat) (s : Service) (w : reap_world) (db : retention_db) : result stuck retention_db :=
  if negb (sv_mainDB s) then Ok db else reap_loop fuel w 0 db.

(** * One pass *)

Definition runOnce (fuel : nat) (s : Service) (world : string → nat → attempt) (rw : roam_world) (pw : reap_world)
    (db : retention_db) : result stuck retention_db :=
  let? db := pruneHeartbeatResults fuel world s db in
  let? db := pruneDeviceLiveness fuel world s db in
  let? db := pruneScanResults fuel world s db in
  let? db := pruneScanTaskRuns fuel world s db in
  let? db := pruneAuditLogs fuel world s db in
  let? db := pruneNotificationLogs fuel world s db in
  let? db := pruneServiceEvidence fuel world s db in
  let? db := pruneChangeLog fuel world s db in
  let? db := pruneDeviceNeighbors fuel world s db in
  let? db := pruneDeviceSpeaks fuel world s db in
  let? db := pruneHostServices fuel world s db in
  let? db := pruneHostTLSCerts fuel world s db in
  let? db := pruneProbeResults fuel world s db in
  let? db := pruneRoamedOrphans fuel s rw db in
  pruneOrphanHeartbeatConfigs fuel s pw db.

End sweep.
