(* ===== verification/RetentionSpec.v ===== *)
(** Theorems on the retention sweep: a pass leaves exactly the rows inside the
    windows, and removes a duplicate device only when an online row with its
    MAC stays. *)

From S2P Require Import Prelude NetAddr Db DeviceStore Json Retention.

Open Scope Z_scope.

(** * Batched deletion, for any kind of row *)

Section batched.
Context {A : Type} (key : A → Z) (P : A → Prop) `{!∀ x, Decision (P x)} (pick : list A → list A).
Context (Hpick : ∀ l, pick l ≡ₚ l).











End batched.

(** * The sweep of one table *)

Section tables.
Context (pick : list time_row → list time_row) (Hpick : ∀ l, pick l ≡ₚ l).



End tables.

(** * All tables *)

Section plan.
Context (zone : Z → Z) (bind : Z → string) (now : Z).
Context (pick : list time_row → list time_row) (Hpick : ∀ l, pick l ≡ₚ l).
Context (fuel : nat) (world : string → nat → attempt) (s : Service) (Hbatch : 0 < sv_batch s).


(** A row is past its window; a window that is not configured has no past. *)
Definition expired (days : Z) (text : Z → string) (r : time_row) : Prop :=
  IsZero (cutoff zone now days) = false ∧ past (text (cutoff zone now days)) r.

#[export] Instance expired_dec days text r : Decision (expired days text r).
Proof. unfold expired. apply _. Defined.









End plan.

(** * Roamed orphans *)


Section roam.
Context (now : Z) (pick : list dev_row → list dev_row) (Hpick : ∀ l, pick l ≡ₚ l) (isPrint : Z → bool) (bound : string) (w : roam_world).















End roam.

(** * Orphaned heartbeat configurations *)

Section reap.
Context (pick : list HeartbeatConfig → list HeartbeatConfig) (Hpick : ∀ l, pick l ≡ₚ l) (w : reap_world).




End reap.

(** * A pass *)






Definition orphan_bound (now : Z) : string := format_RFC3339Nano (now - roamedOrphanWindow).

Section pass.
Context (zone : Z → Z) (bind : Z → string) (now : Z).
Context (pick : list time_row → list time_row) (Hpick : ∀ l, pick l ≡ₚ l).
Context (pd : list dev_row → list dev_row) (Hpd : ∀ l, pd l ≡ₚ l).
Context (pc : list HeartbeatConfig → list HeartbeatConfig) (Hpc : ∀ l, pc l ≡ₚ l).
Context (isPrint : Z → bool) (fuel : nat) (world : string → nat → attempt) (s : Service) (rw : roam_world) (pw : reap_world).





End pass.



(** * On concrete tables *)

Definition utc : Z → Z := fun _ => 0.
Definition noon : Z := 1767268800 * nanos_per_second.
Definition as_found {A} : list A → list A := fun l => l.
Definition ascii_only : Z → bool := fun _ => false.

Definition done_turn : exec_turn := mkExecTurn false None false.
Definition calm_roam : roam_world := mkRoamWorld (fun _ => Fine) (fun _ => true) (fun _ _ _ => done_turn) (fun _ _ _ => done_turn).
Definition calm_tables : string → nat → attempt := fun _ _ => Fine.

Definition sweeper : Service := New true true true (normalizeRetention 0 0 (mkRetentionConfig 0 0 0 0 0 0 0 0 0 0 0 0 0 0 2)).

Definition roaming (id : Z) (net : Z) (status : string) (since : option string) : dev_row :=
  mkDevRow id "u" "phone" "phone" "" "" "00:11:22:33:44:55" "10.0.0.5" (Some net) since "scanner_v2" status.

Definition stale : time_row := mkTimeRow 1 (Some "2025-11-01T00:00:00Z") Opaque.
Definition fresh : time_row := mkTimeRow 2 (Some "2025-12-31T00:00:00Z") Opaque.

Definition before_pass : retention_db :=
  mkRetentionDb {["scan_results" := [stale; fresh]]} 0
    [roaming 1 1 "offline" (Some "2026-01-01T11:00:00Z"); roaming 2 2 "online" None; roaming 3 3 "offline" (Some "2026-01-01T11:55:00Z")]
    [mkHbConfig 7 1 "icmp" "10.0.0.5" 60 5 "" "" 1; mkHbConfig 8 2 "icmp" "10.0.0.5" 60 5 "" "" 1].










(** * What the sweep does not do as described *)

(** The status writers of the heartbeat service stamp [CURRENT_TIMESTAMP],
    whose text is below every RFC3339 text of its day: the settling window does
    not protect a device that went offline one second ago. *)
Definition just_left : retention_db :=
  mkRetentionDb ∅ 0 [roaming 1 1 "offline" (Some (current_timestamp (noon - nanos_per_second))); roaming 2 2 "online" None] [].

Lemma window_not_kept :
  (fun db => dr_ID <$> rt_devices db) <$> (match pruneRoamedOrphans noon as_found ascii_only 10 sweeper calm_roam just_left with Ok db => Some db | Err _ => None end)
  = Some [2].
Proof. vm_compute. reflexivity. Qed.

(** When the deletions of a full batch fail for another reason than the lock (an I/O error),
    the loop selects the same batch again and never ends. *)
Definition refused_turn : exec_turn := mkExecTurn false (Some "disk I/O error") false.
Definition refusing : roam_world := mkRoamWorld (fun _ => Fine) (fun _ => true) (fun _ _ _ => done_turn) (fun _ _ _ => refused_turn).

Lemma roam_diverges fuel i db :
  rt_devices db = rt_devices before_pass →
  roam_loop noon as_found ascii_only fuel 1 (orphan_bound noon) refusing i db = Err OutOfFuel.
Proof.
  revert i db. induction fuel as [|fuel IH]; intros i db Hd; [done|]. cbn [roam_loop rw_select refusing]. cbv zeta. rewrite Hd.
  assert (orphan_batch as_found (orphan_bound noon) 1 refusing (rt_devices before_pass) = [roaming 1 1 "offline" (Some "2026-01-01T11:00:00Z")]) as ->
    by (vm_compute; reflexivity).
  cbn [length fold_left]. change (Z.of_nat 1 <? 1) with false. cbn iota. apply IH. unfold remove_orphan. cbn [rw_delete refusing].
  change (execWithBusyRetry (fun _ => refused_turn)) with (Some "disk I/O error"). cbn iota.
  unfold logDeviceRemoved. by destruct (execWithBusyRetry _).
Qed.

(** A name with a control character gives a snapshot that is not JSON. *)
Lemma snapshot_not_json :
  unmarshal (before_json ascii_only (mkDevRow 1 "u" (String "007" "") "phone" "" "" "" "" None None "" "offline")) = None.
Proof. vm_compute. reflexivity. Qed.

(** After the last of six attempts the write waits once more, 3.2 s for
    nothing. *)
Lemma last_wait_in_vain :
  (retry_loop maxAttempts 0 (fun _ => mkExecTurn false (Some "database is locked (5) (SQLITE_BUSY)") false) None).2
  = (fun ms => ms * 1000000) <$> [100; 200; 400; 800; 1600; 3200].
Proof. vm_compute. reflexivity. Qed.

(** A service with queries but without the raw connection of the heartbeat
    database does not skip the liveness series. *)
Lemma liveness_not_skipped :
  pruneDeviceLiveness utc noon as_found 10 calm_tables (New true false true (sv_cfg sweeper)) before_pass = Err NilHandle.
Proof. vm_compute. reflexivity. Qed.

(** The second statement of the reaping may be answered by a connection that
    changed nothing: the first batch is then the last. *)
Definition other_connection : reap_world := mkReapWorld (fun _ => false) (fun _ _ => done_turn) (fun _ _ => Some 0).

Definition many_orphans : retention_db :=
  mkRetentionDb ∅ 0 [] ((fun i => mkHbConfig i 1 "icmp" "" 60 5 "" "" 1) <$> seqZ 1 501).

Lemma reap_stops_early :
  (fun db => length (rt_configs db)) <$> (match reap_loop as_found 10 other_connection 0 many_orphans with Ok db => Some db | Err _ => None end)
  = Some 1%nat.
Proof. vm_compute. reflexivity. Qed.
