(* ===== verification/Archive.v ===== *)
(** The asset archive (src/internal/service/archive: archive.go, pattern.go and
    the writes of api.go; statements in src/internal/db/asset_archive.sql.go):
    the engine that moves devices into the archive and back, its learner of
    periodic devices, and the manual operations.

    Times are Go times in nanoseconds, [None] where the column is NULL.  The
    stages of a pass read the clock separately.  [ok] says of a statement
    whether it succeeds, [alive] whether the context is still open when a stage
    comes to a row. *)

From stdpp Require sorting.
From S2P Require Import Prelude Float64 Db Retention.

Open Scope Z_scope.

(** * Settings *)

Record ArchiveSmartConfig := mkArchiveSmart { sm_Disabled : bool; sm_MinHistoryDays : Z; sm_MaxThresholdDays : Z }.

Record ArchiveConfig := mkArchiveConfig {
  arc_OfflineDays : Z;
  arc_RestoreOnlineMinutes : Z;
  arc_SweepIntervalSeconds : Z;
  arc_Smart : ArchiveSmartConfig
}.

Definition normalizeArchive (c : ArchiveConfig) : ArchiveConfig :=
  mkArchiveConfig (or_days (arc_OfflineDays c) 7) (or_days (arc_RestoreOnlineMinutes c) 60) (or_days (arc_SweepIntervalSeconds c) 60)
    (mkArchiveSmart (sm_Disabled (arc_Smart c)) (or_days (sm_MinHistoryDays (arc_Smart c)) 60) (or_days (sm_MaxThresholdDays (arc_Smart c)) 30)).

(** The service keeps the settings and the interval of its ticks. *)
Record ArchiveService := mkArchiveService { as_cfg : ArchiveConfig; as_interval : Z }.

Definition NewArchive (cfg : ArchiveConfig) : ArchiveService :=
  let cfg := mkArchiveConfig (or_days (arc_OfflineDays cfg) 7) (or_days (arc_RestoreOnlineMinutes cfg) 60)
               (or_days (arc_SweepIntervalSeconds cfg) 60)
               (mkArchiveSmart (sm_Disabled (arc_Smart cfg)) (or_days (sm_MinHistoryDays (arc_Smart cfg)) 60)
                  (or_days (sm_MaxThresholdDays (arc_Smart cfg)) 30)) in
  mkArchiveService cfg (arc_SweepIntervalSeconds cfg * nanos_per_second).

(** [overlay] is the value of the settings center, if there is one. *)
Definition effectiveCfg (s : ArchiveService) (overlay : option ArchiveConfig) : ArchiveConfig :=
  let cfg := as_cfg s in
  match overlay with
  | None => cfg
  | Some o =>
      mkArchiveConfig (if 0 <? arc_OfflineDays o then arc_OfflineDays o else arc_OfflineDays cfg)
        (if 0 <? arc_RestoreOnlineMinutes o then arc_RestoreOnlineMinutes o else arc_RestoreOnlineMinutes cfg)
        (arc_SweepIntervalSeconds cfg) (arc_Smart cfg)
  end.

Definition EffectiveThreshold (s : ArchiveService) (overlay : option ArchiveConfig) (override : Z) : Z :=
  if 0 <? override then override else arc_OfflineDays (effectiveCfg s overlay).

(** * Rows *)

Definition PinNone : string := "".
Definition PinForceArchive : string := "force_archive".
Definition PinForceActive : string := "force_active".

Record arch_device := mkArchDevice {
  ad_ID : Z;
  ad_Mac : string;
  ad_ScanSource : string;
  ad_Status : string;
  ad_OfflineSince : option Z;
  ad_ArchivedAt : option Z;
  ad_Pin : string;
  ad_Override : option Z;
  ad_OnlineSince : option Z;
  ad_Periodic : Z;
  ad_CycleDays : f64;
  ad_UpdatedAt : Z
}.

(** The values of the map a detail is marshalled from. *)
Inductive detail_value := DInt (z : Z) | DBool (b : bool) | DString (s : string) | DFloat (f : f64).

Record arch_event := mkArchEvent {
  ae_ID : Z;
  ae_DeviceID : Z;
  ae_Event : string;
  ae_TriggeredBy : string;
  ae_Detail : list (string * detail_value);
  ae_OccurredAt : Z
}.

Record arch_db := mkArchDb { ar_devices : list arch_device; ar_events : list arch_event; ar_eventSeq : Z }.

Definition map_devices (f : arch_device → arch_device) (db : arch_db) : arch_db :=
  mkArchDb (f <$> ar_devices db) (ar_events db) (ar_eventSeq db).

Definition set_archive (archived online : option Z) (now : Z) (d : arch_device) : arch_device :=
  mkArchDevice (ad_ID d) (ad_Mac d) (ad_ScanSource d) (ad_Status d) (ad_OfflineSince d) archived (ad_Pin d) (ad_Override d) online
    (ad_Periodic d) (ad_CycleDays d) now.

Definition set_pin (pin : string) (now : Z) (d : arch_device) : arch_device :=
  mkArchDevice (ad_ID d) (ad_Mac d) (ad_ScanSource d) (ad_Status d) (ad_OfflineSince d) (ad_ArchivedAt d) pin (ad_Override d)
    (ad_OnlineSince d) (ad_Periodic d) (ad_CycleDays d) now.

Definition set_periodic (periodic : Z) (cycle : f64) (now : Z) (d : arch_device) : arch_device :=
  mkArchDevice (ad_ID d) (ad_Mac d) (ad_ScanSource d) (ad_Status d) (ad_OfflineSince d) (ad_ArchivedAt d) (ad_Pin d) (ad_Override d)
    (ad_OnlineSince d) periodic cycle now.

Definition set_override (o : option Z) (now : Z) (d : arch_device) : arch_device :=
  mkArchDevice (ad_ID d) (ad_Mac d) (ad_ScanSource d) (ad_Status d) (ad_OfflineSince d) (ad_ArchivedAt d) (ad_Pin d) o
    (ad_OnlineSince d) (ad_Periodic d) (ad_CycleDays d) now.

Definition is_archived (d : arch_device) : bool := match ad_ArchivedAt d with Some _ => true | None => false end.
Definition has_online (d : arch_device) : bool := match ad_OnlineSince d with Some _ => true | None => false end.

(** * Statements *)

Definition ArchiveDevice (now id : Z) (db : arch_db) : arch_db * Z :=
  let hit d := (ad_ID d =? id) && negb (is_archived d) in
  (map_devices (fun d => if hit d then set_archive (Some now) None now d else d) db, Z.of_nat (length (filter (fun d => hit d = true) (ar_devices db)))).

Definition StampArchivedOnlineSince (now : Z) (db : arch_db) : arch_db :=
  map_devices (fun d => if is_archived d && bool_decide (ad_Status d = "online") && negb (has_online d)
                        then set_archive (ad_ArchivedAt d) (Some now) now d else d) db.

Definition ListArchivedOnline (db : arch_db) : list arch_device :=
  filter (fun d => is_archived d && bool_decide (ad_Status d = "online") && has_online d = true) (ar_devices db).

Definition ListArchivedOnlineBroken (db : arch_db) : list arch_device :=
  filter (fun d => is_archived d && bool_decide (ad_Status d = "offline") && has_online d = true) (ar_devices db).

Definition RestoreArchivedDevice (now id : Z) (db : arch_db) : arch_db :=
  map_devices (fun d => if (ad_ID d =? id) && is_archived d then set_archive None None now d else d) db.

Definition ClearOnlineSince (now id : Z) (db : arch_db) : arch_db :=
  map_devices (fun d => if ad_ID d =? id then set_archive (ad_ArchivedAt d) None now d else d) db.

Definition SetDeviceArchivePin (pin : string) (now id : Z) (db : arch_db) : arch_db :=
  map_devices (fun d => if ad_ID d =? id then set_pin pin now d else d) db.

Definition SetDevicePeriodic (periodic : Z) (cycle : f64) (now id : Z) (db : arch_db) : arch_db :=
  map_devices (fun d => if ad_ID d =? id then set_periodic periodic cycle now d else d) db.

Definition UpdateArchiveThresholdOverride (o : option Z) (now id : Z) (db : arch_db) : arch_db :=
  map_devices (fun d => if ad_ID d =? id then set_override o now d else d) db.

Definition ListAutoArchiveCandidates (db : arch_db) : list arch_device :=
  filter (fun d => negb (is_archived d) && negb (bool_decide (ad_Pin d = PinForceActive)) && bool_decide (ad_ScanSource d = "scanner_v2")
                   && bool_decide (ad_Status d = "offline") && bool_decide (is_Some (ad_OfflineSince d)) = true) (ar_devices db).

Definition ListArchivedDeviceOverrides (db : arch_db) : list arch_device := filter (fun d => is_archived d = true) (ar_devices db).

Definition ListPeriodicDeviceStates (db : arch_db) : list arch_device := filter (fun d => ad_Periodic d = 1) (ar_devices db).

Definition InsertArchiveEvent (id : Z) (event trigger : string) (detail : list (string * detail_value)) (at_ : Z) (db : arch_db) : arch_db :=
  mkArchDb (ar_devices db) (ar_events db ++ [mkArchEvent (ar_eventSeq db + 1) id event trigger detail at_]) (ar_eventSeq db + 1).

(** [ORDER BY occurred_at, id]. *)
Definition event_le (a b : arch_event) : Prop :=
  ae_OccurredAt a < ae_OccurredAt b ∨ (ae_OccurredAt a = ae_OccurredAt b ∧ ae_ID a ≤ ae_ID b).

#[export] Instance event_le_dec a b : Decision (event_le a b).
Proof. unfold event_le. apply _. Defined.

Definition ListDeviceArchiveEvents (id : Z) (db : arch_db) : list arch_event :=
  sorting.merge_sort event_le (filter (fun e => ae_DeviceID e = id) (ar_events db)).

(** * The learner *)

Definition patternMinAppearances : nat := 3.

Definition f_hour : f64 := f_of_Z hour.

(** [Duration.Hours] and [int(d.Minutes())]. *)
Definition Hours (d : Z) : f64 := f_add (f_of_Z (Z.quot d hour)) (f_div (f_of_Z (Z.rem d hour)) f_hour).
Definition minutes (d : Z) : Z := f_trunc (f_add (f_of_Z (Z.quot d minute)) (f_div (f_of_Z (Z.rem d minute)) (f_of_Z minute))).

Definition appearance (events : list arch_event) : list Z :=
  ae_OccurredAt <$> filter (fun e => ae_TriggeredBy e ≠ "manual" ∧ (ae_Event e = "restored" ∨ ae_Event e = "online_blip")) events.

Fixpoint gaps_of (apps : list Z) : list f64 :=
  match apps with
  | a :: (b :: _) as rest => Hours (b - a) :: gaps_of rest
  | _ => []
  end.

Definition f_le (a b : f64) : Prop := f_ltb b a = false.

#[export] Instance f_le_dec a b : Decision (f_le a b).
Proof. unfold f_le. apply _. Defined.

Definition median_of (gaps : list f64) : f64 :=
  let sorted := sorting.merge_sort f_le gaps in default f_zero (sorted !! (length sorted / 2)%nat).

Definition recognize (cfg : ArchiveConfig) (apps : list Z) (now : Z) : option f64 :=
  if (length apps <? patternMinAppearances)%nat then None
  else
    let first := default 0 (head apps) in
    let last := default 0 (list.last apps) in
    if last - first <? sm_MinHistoryDays (arc_Smart cfg) * 24 * hour then None
    else
      let gaps := gaps_of apps in
      let median := median_of gaps in
      let lo := f_mul median (f_div (f_of_Z 3) (f_of_Z 4)) in
      let hi := f_mul median (f_div (f_of_Z 5) (f_of_Z 4)) in
      if existsb (fun g => f_ltb g lo || f_ltb hi g) gaps then None
      else if f_trunc (f_mul (f_mul (f_of_Z 2) median) f_hour) <? now - last then None
      else Some (f_div median (f_of_Z 24)).

Definition exemptionActive (cfg : ArchiveConfig) (thresholdDays : Z) : bool :=
  negb (sm_Disabled (arc_Smart cfg)) && (thresholdDays <? sm_MaxThresholdDays (arc_Smart cfg)).

Definition lastAppearance (events : list arch_event) : option Z := list.last (appearance events).

(** * The engine *)

Inductive arch_stage := AtPattern | AtLearn | AtAuto | AtStamp | AtRestore | AtBlip | AtManual.

Inductive arch_stmt :=
| QPeriodicStates | QOverrides | QCandidates | QOnline | QBroken | QDevice (id : Z) | QEvents (st : arch_stage) (id : Z)
| WStamp | WArchive (id : Z) | WRestore (st : arch_stage) (id : Z) | WClear (id : Z) | WPin (id : Z) | WOverride (id : Z)
| WPeriodic (st : arch_stage) (id : Z) | WEvent (st : arch_stage) (event : string) (id : Z).

Section engine.
Context (zone : Z → Z) (ok : arch_stmt → bool) (alive : arch_stage → Z → bool).

(** The event, and whether it was written. *)
Definition insertEvent (st : arch_stage) (id : Z) (event trigger : string) (detail : list (string * detail_value)) (now : Z) (db : arch_db)
    : arch_db * bool :=
  if ok (WEvent st event id) then (InsertArchiveEvent id event trigger detail now db, true) else (db, false).

Definition setPeriodic (st : arch_stage) (id : Z) (cycle : f64) (now : Z) (db : arch_db) : arch_db * bool :=
  if negb (ok (WPeriodic st id)) then (db, false)
  else insertEvent st id "pattern_learned" "pattern" [("cycle_days", DFloat cycle)] now (SetDevicePeriodic 1 cycle now id db).

Definition clearPattern (id now : Z) (reason : string) (db : arch_db) : arch_db * bool :=
  if negb (ok (WPeriodic AtPattern id)) then (db, false)
  else insertEvent AtPattern id "pattern_cleared" "pattern" [("reason", DString reason)] now (SetDevicePeriodic 0 f_zero now id db).

(** A loop over rows that a closed context ends. *)
Fixpoint each_row (st : arch_stage) (body : arch_device → arch_db → arch_db) (rows : list arch_device) (db : arch_db) : arch_db :=
  match rows with
  | [] => db
  | r :: rows => if alive st (ad_ID r) then each_row st body rows (body r db) else db
  end.

(** Whether the loop came to its end. *)
Definition all_alive (st : arch_stage) (rows : list arch_device) : bool := forallb (fun r => alive st (ad_ID r)) rows.

Definition expire_pattern (now : Z) (st : arch_device) (db : arch_db) : arch_db :=
  if negb (ok (QEvents AtPattern (ad_ID st))) then db
  else
    let absentLimit := f_trunc (f_mul (f_mul (f_mul (f_of_Z 2) (ad_CycleDays st)) (f_of_Z 24)) f_hour) in
    match lastAppearance (ListDeviceArchiveEvents (ad_ID st) db) with
    | None => db
    | Some last =>
        if negb (bool_decide (ad_Status st = "offline")) || (now - last <=? absentLimit) then db
        else (clearPattern (ad_ID st) now "absent_beyond_2x_cycle" db).1
    end.

Definition threshold_of (cfg : ArchiveConfig) (d : arch_device) : Z :=
  let o := default 0 (ad_Override d) in if 0 <? o then o else arc_OfflineDays cfg.

Definition learn_archived (cfg : ArchiveConfig) (now : Z) (d : arch_device) (db : arch_db) : arch_db :=
  if negb (exemptionActive cfg (threshold_of cfg d)) then db
  else if negb (ok (QEvents AtLearn (ad_ID d))) then db
  else match recognize cfg (appearance (ListDeviceArchiveEvents (ad_ID d) db)) now with
  | None => db
  | Some cycle =>
      let '(db, set) := setPeriodic AtLearn (ad_ID d) cycle now db in
      if negb set then db
      else if negb (ok (WRestore AtLearn (ad_ID d))) then db
      else (insertEvent AtLearn (ad_ID d) "restored" "pattern" [("cycle_days", DFloat cycle)] now (RestoreArchivedDevice now (ad_ID d) db)).1
  end.

Definition patternSweep (cfg : ArchiveConfig) (now : Z) (db : arch_db) : arch_db :=
  if negb (ok QPeriodicStates) then db
  else
    let states := ListPeriodicDeviceStates db in
    let db := each_row AtPattern (expire_pattern now) states db in
    if negb (all_alive AtPattern states) || sm_Disabled (arc_Smart cfg) || negb (ok QOverrides) then db
    else each_row AtLearn (learn_archived cfg now) (ListArchivedDeviceOverrides db) db.

Definition evaluateDevice (id thresholdDays : Z) (periodic : bool) (cfg : ArchiveConfig) (now : Z) (db : arch_db) : arch_db * bool :=
  if sm_Disabled (arc_Smart cfg) then (db, false)
  else if periodic then (db, thresholdDays <? sm_MaxThresholdDays (arc_Smart cfg))
  else if negb (exemptionActive cfg thresholdDays) then (db, false)
  else if negb (ok (QEvents AtAuto id)) then (db, false)
  else match recognize cfg (appearance (ListDeviceArchiveEvents id db)) now with
  | None => (db, false)
  | Some cycle => setPeriodic AtAuto id cycle now db
  end.

Definition archive_candidate (cfg : ArchiveConfig) (now : Z) (c : arch_device) (db : arch_db) : arch_db :=
  let thresholdDays := threshold_of cfg c in
  match ad_OfflineSince c with
  | None => db
  | Some since =>
      if days_back zone now thresholdDays <? since then db
      else
        let '(db, exempt) := evaluateDevice (ad_ID c) thresholdDays (ad_Periodic c =? 1) cfg now db in
        if exempt : bool then db
        else if negb (ok (WArchive (ad_ID c))) then db
        else (insertEvent AtAuto (ad_ID c) "archived" "auto_offline"
                [("offline_days", DInt thresholdDays); ("has_mac", DBool (negb (bool_decide (ad_Mac c = ""))))] now
                (ArchiveDevice now (ad_ID c) db).1).1
  end.

Definition autoArchive (cfg : ArchiveConfig) (now : Z) (db : arch_db) : arch_db :=
  if negb (ok QCandidates) then db else each_row AtAuto (archive_candidate cfg now) (ListAutoArchiveCandidates db) db.

Definition stampOnline (now : Z) (db : arch_db) : arch_db := if ok WStamp then StampArchivedOnlineSince now db else db.

Definition restore_row (cfg : ArchiveConfig) (now : Z) (r : arch_device) (db : arch_db) : arch_db :=
  if bool_decide (ad_Pin r = PinForceArchive) then db
  else match ad_OnlineSince r with
  | None => db
  | Some since =>
      if now - arc_RestoreOnlineMinutes cfg * minute <? since then db
      else if negb (ok (WRestore AtRestore (ad_ID r))) then db
      else (insertEvent AtRestore (ad_ID r) "restored" "auto_restore" [("online_minutes", DInt (minutes (now - since)))] now
              (RestoreArchivedDevice now (ad_ID r) db)).1
  end.

Definition restoreCheck (cfg : ArchiveConfig) (now : Z) (db : arch_db) : arch_db :=
  if negb (ok QOnline) then db else each_row AtRestore (restore_row cfg now) (ListArchivedOnline db) db.

Definition close_blip (now : Z) (r : arch_device) (db : arch_db) : arch_db :=
  let mins := match ad_OnlineSince r with Some since => minutes (now - since) | None => 0 end in
  if negb (ok (WClear (ad_ID r))) then db
  else (insertEvent AtBlip (ad_ID r) "online_blip" "auto_restore" [("online_minutes", DInt mins)] now (ClearOnlineSince now (ad_ID r) db)).1.

Definition blipCheck (now : Z) (db : arch_db) : arch_db :=
  if negb (ok QBroken) then db else each_row AtBlip (close_blip now) (ListArchivedOnlineBroken db) db.

Definition archive_pass (s : ArchiveService) (overlay : option ArchiveConfig) (clock : arch_stage → Z) (db : arch_db) : arch_db :=
  let cfg := effectiveCfg s overlay in
  blipCheck (clock AtBlip) (restoreCheck cfg (clock AtRestore) (stampOnline (clock AtStamp)
    (autoArchive cfg (clock AtAuto) (patternSweep cfg (clock AtPattern) db)))).

(** * Manual operations *)

Inductive arch_err := ErrNotArchived | ErrAlreadyArchived | ErrPinned | ErrInvalidPin | ErrNoDevice | ErrStatement.

Definition manual_event (id : Z) (event : string) (detail : list (string * detail_value)) (now : Z) (db : arch_db)
    : arch_db * option arch_err :=
  let '(db, written) := insertEvent AtManual id event "manual" detail now db in (db, if written then None else Some ErrStatement).

Definition ArchiveDeviceManually (id : Z) (reason : string) (now : Z) (db : arch_db) : arch_db * option arch_err :=
  if negb (ok (WArchive id)) then (db, Some ErrStatement)
  else
    let '(db', n) := ArchiveDevice now id db in
    if n =? 0 then (db', Some ErrAlreadyArchived) else manual_event id "archived" [("reason", DString reason)] now db'.

Definition setPin (id : Z) (pin : string) (now : Z) (db : arch_db) : arch_db * option arch_err :=
  if negb (ok (WPin id)) then (db, Some ErrStatement)
  else manual_event id (if decide (pin = PinNone) then "pin_cleared" else "pin_set") [("pin", DString pin)] now (SetDeviceArchivePin pin now id db).

Definition valid_pin (pin : string) : bool := bool_decide (pin ∈ [PinNone; PinForceArchive; PinForceActive]).

Definition SetPin (id : Z) (pin : string) (now : Z) (db : arch_db) : arch_db * option arch_err :=
  if valid_pin pin then setPin id pin now db else (db, Some ErrInvalidPin).

Definition RestoreDeviceManually (id : Z) (force : bool) (now : Z) (db : arch_db) : arch_db * option arch_err :=
  match (if ok (QDevice id) then head (filter (fun d => ad_ID d = id) (ar_devices db)) else None) with
  | None => (db, Some ErrNoDevice)
  | Some dev =>
      if negb (is_archived dev) then (db, Some ErrNotArchived)
      else
        let '(db, err) := if decide (ad_Pin dev = PinForceArchive) then
                            if negb force then (db, Some ErrPinned) else setPin (ad_ID dev) PinNone now db
                          else (db, None) in
        match err with
        | Some e => (db, Some e)
        | None =>
            if negb (ok (WRestore AtManual id)) then (db, Some ErrStatement)
            else manual_event id "restored" [] now (RestoreArchivedDevice now id db)
        end
  end.

Definition SetThresholdOverride (id days now : Z) (db : arch_db) : arch_db * option arch_err :=
  if ok (WOverride id) then (UpdateArchiveThresholdOverride (if 0 <? days then Some days else None) now id db, None)
  else (db, Some ErrStatement).

End engine.

Definition NormalizePin (v : string) : result arch_err string :=
  let v := trim_space v in if valid_pin v then Ok v else Err ErrInvalidPin.
