(* ===== verification/ArchiveSpec.v ===== *)
(** Theorems on the asset archive: what a pass may archive and restore, that
    it misses nothing without faults, and that an automatic restore follows an
    uninterrupted online stretch. *)

From S2P Require Import Prelude Float64 Db Retention Archive.

Open Scope Z_scope.

(** The columns a pass never writes. *)
Record same_asset (d d' : arch_device) : Prop := mkSame {
  sa_ID : ad_ID d' = ad_ID d;
  sa_Mac : ad_Mac d' = ad_Mac d;
  sa_Source : ad_ScanSource d' = ad_ScanSource d;
  sa_Status : ad_Status d' = ad_Status d;
  sa_Since : ad_OfflineSince d' = ad_OfflineSince d;
  sa_Pin : ad_Pin d' = ad_Pin d;
  sa_Override : ad_Override d' = ad_Override d
}.

Lemma same_refl d : same_asset d d.
Proof. by split. Qed.

Lemma same_trans a b c : same_asset a b → same_asset b c → same_asset a c.
Proof. intros [] []. split; congruence. Qed.

#[export] Hint Resolve same_refl : steward.

Definition unmoved (d d' : arch_device) : Prop := ad_ArchivedAt d' = ad_ArchivedAt d ∧ ad_OnlineSince d' = ad_OnlineSince d.

Definition evolves (R : arch_device → arch_device → Prop) (db db' : arch_db) : Prop := Forall2 R (ar_devices db) (ar_devices db').

Lemma evolves_refl R db : (∀ d, R d d) → evolves R db db.
Proof. intros HR. unfold evolves. induction (ar_devices db); by constructor. Qed.

Lemma evolves_map R db0 db f :
  (∀ d0 d, d0 ∈ ar_devices db0 → R d0 d → R d0 (f d)) → evolves R db0 db → evolves R db0 (map_devices f db).
Proof.
  unfold evolves, map_devices. cbn [ar_devices]. intros Hf HR. revert Hf.
  induction HR as [|d0 d l0 l H1 HR IH]; intros Hf; cbn [fmap list_fmap]; constructor.
  - apply Hf; [by left|done].
  - apply IH. intros x y Hx. apply Hf. by right.
Qed.

Section rows.
Context (ok : arch_stmt → bool) (alive : arch_stage → Z → bool).

Lemma each_row_inv (P : arch_db → Prop) st body rows db :
  (∀ r db, r ∈ rows → P db → P (body r db)) → P db → P (each_row alive st body rows db).
Proof.
  revert db. induction rows as [|r rows IH]; intros db Hb HP; [done|]. cbn [each_row].
  destruct (alive st (ad_ID r)); [|done]. apply IH; [intros x y Hx; apply Hb; by right|]. apply Hb; [by left|done].
Qed.

(** Without an end of the context each row is treated once, in order. *)
Lemma each_row_fold st body rows db :
  (∀ id, alive st id = true) → each_row alive st body rows db = fold_left (fun db r => body r db) rows db.
Proof. intros Ha. revert db. induction rows as [|r rows IH]; intros db; [done|]. cbn. by rewrite Ha, IH. Qed.

Lemma insert_devices st id ev tr det now db : ar_devices (insertEvent ok st id ev tr det now db).1 = ar_devices db.
Proof. unfold insertEvent. by destruct (ok _). Qed.

Lemma insert_evolves R st id ev tr det now db0 db :
  evolves R db0 db → evolves R db0 (insertEvent ok st id ev tr det now db).1.
Proof. unfold evolves. by rewrite insert_devices. Qed.

(** A statement of a row of the stage's start meets that row. *)
Lemma evolves_hit R db0 db f (r : arch_device) :
  NoDup (ad_ID <$> ar_devices db0) → r ∈ ar_devices db0 → (∀ d0 d, R d0 d → ad_ID d = ad_ID d0) →
  (∀ d, R r d → ad_ID d = ad_ID r → R r (f d)) →
  evolves R db0 db → evolves R db0 (map_devices (fun d => if ad_ID d =? ad_ID r then f d else d) db).
Proof.
  intros Hn Hr HID Hf. apply evolves_map. intros d0 d H0 HR. destruct (Z.eqb_spec (ad_ID d) (ad_ID r)) as [E|]; [|done].
  assert (d0 = r) as -> by (eapply (NoDup_key ad_ID); [exact Hn|done..|]; by rewrite <- (HID _ _ HR)). by apply Hf.
Qed.

(** * The stages *)

Definition by_pattern (d d' : arch_device) : Prop :=
  same_asset d d' ∧ (unmoved d d' ∨ (is_archived d = true ∧ ad_ArchivedAt d' = None ∧ ad_OnlineSince d' = None ∧ ad_Periodic d' = 1)).

Lemma periodic_unmoved p c now d : unmoved d (set_periodic p c now d) ∧ same_asset d (set_periodic p c now d).
Proof. by repeat split. Qed.

Lemma setPeriodic_devices st id c now db :
  (setPeriodic ok st id c now db).2 = true → ar_devices (setPeriodic ok st id c now db).1 = ar_devices (SetDevicePeriodic 1 c now id db).
Proof. unfold setPeriodic. destruct (ok (WPeriodic st id)); [|done]. cbn [negb]. intros _. by rewrite insert_devices. Qed.

Lemma setPeriodic_evolves R st id c now db0 db :
  (∀ d0 d, R d0 d → R d0 (set_periodic 1 c now d)) → evolves R db0 db → evolves R db0 (setPeriodic ok st id c now db).1.
Proof.
  intros HR Hev. unfold setPeriodic. destruct (ok (WPeriodic st id)); [|done]. cbn [negb]. apply insert_evolves, evolves_map; [|done].
  intros d0 d _ Hd. destruct (_ =? _); [by apply HR|done].
Qed.

Definition rcomp (R S : arch_device → arch_device → Prop) (x z : arch_device) : Prop := ∃ y, R x y ∧ S y z.

Lemma evolves_impl (R S : arch_device → arch_device → Prop) a b : (∀ x y, R x y → S x y) → evolves R a b → evolves S a b.
Proof. intros HS HR. eapply Forall2_impl; [exact HS|exact HR]. Qed.

Lemma evolves_comp R S a b c : evolves R a b → evolves S b c → evolves (rcomp R S) a c.
Proof.
  unfold evolves. intros HR. generalize (ar_devices c). induction HR as [|x y l k Hxy HR IH]; intros m HS; inversion_clear HS; constructor; [|by apply IH].
  by exists y.
Qed.

Lemma expire_evolves now rows db0 db :
  evolves (fun d d' => same_asset d d' ∧ unmoved d d') db0 db →
  evolves (fun d d' => same_asset d d' ∧ unmoved d d') db0 (each_row alive AtPattern (expire_pattern ok now) rows db).
Proof.
  apply each_row_inv. intros r db1 _ Hev. unfold expire_pattern. destruct (ok (QEvents _ _)); [|done]. cbn [negb].
  destruct (lastAppearance _); [|done]. destruct (_ || _); [done|]. unfold clearPattern. destruct (ok (WPeriodic _ _)); [|done]. cbn [negb].
  apply insert_evolves, evolves_map; [|done]. intros d0 d _ [Hs Hu]. destruct (_ =? _); [|done].
  split; [by eapply same_trans|done].
Qed.

Lemma learn_evolves cfg now rows db0 db :
  evolves by_pattern db0 db → evolves by_pattern db0 (each_row alive AtLearn (learn_archived ok cfg now) rows db).
Proof.
  apply each_row_inv. intros r db1 _ Hev. unfold learn_archived. destruct (exemptionActive _ _); [|done]. cbn [negb].
  destruct (ok (QEvents _ _)); [|done]. cbn [negb]. destruct (recognize _ _ _) as [c|]; [|done].
  assert (∀ d0 d, by_pattern d0 d → by_pattern d0 (set_periodic 1 c now d)) as Hset.
  { intros d0 d [Hs Hm]. split; [by eapply same_trans|]. destruct Hm as [Hu|(? & ? & ? & ?)]; [left; done|right; done]. }
  pose proof (setPeriodic_evolves by_pattern AtLearn (ad_ID r) c now db0 db1 Hset Hev) as Hp.
  destruct (setPeriodic ok AtLearn (ad_ID r) c now db1) as [db2 set] eqn:E. cbn [fst] in Hp. destruct set; [|done]. cbn [negb].
  destruct (ok (WRestore _ _)); [|done]. cbn [negb]. apply insert_evolves.
  assert (ar_devices db2 = ar_devices (SetDevicePeriodic 1 c now (ad_ID r) db1)) as Hd2.
  { pose proof (setPeriodic_devices AtLearn (ad_ID r) c now db1) as Hd. rewrite E in Hd. by apply Hd. }
  unfold evolves, RestoreArchivedDevice, map_devices. cbn [ar_devices]. rewrite Hd2. unfold SetDevicePeriodic, map_devices. cbn [ar_devices].
  rewrite <- list_fmap_compose. apply (evolves_map by_pattern db0 db1); [|done]. intros d0 d _ [Hs Hm]. cbn.
  destruct (Z.eqb_spec (ad_ID d) (ad_ID r)) as [Ei|Ei]; cbn.
  - rewrite (proj2 (Z.eqb_eq _ _) Ei). cbn [andb]. change (is_archived (set_periodic 1 c now d)) with (is_archived d).
    destruct (is_archived d) eqn:Ha; (split; [eapply same_trans; [exact Hs|done]|]).
    + right. split_and!; try done. unfold is_archived in *. destruct Hm as [[E1 _]|(? & E1 & _)]; [by rewrite <- E1|by rewrite E1 in Ha].
    + destruct Hm as [Hu|(? & ? & ? & ?)]; [left; done|right; done].
  - rewrite (proj2 (Z.eqb_neq _ _) Ei). done.
Qed.

Lemma pattern_evolves cfg now db : evolves by_pattern db (patternSweep ok alive cfg now db).
Proof.
  assert (evolves by_pattern db db) as H0 by (apply evolves_refl; intros d; split; [done|by left]).
  unfold patternSweep. destruct (ok QPeriodicStates); [|done]. cbn [negb].
  set (db1 := each_row _ AtPattern _ _ db).
  assert (evolves by_pattern db db1) as H1.
  { apply (evolves_impl (fun d d' => same_asset d d' ∧ unmoved d d')); [intros x y [? ?]; split; [done|by left]|].
    apply expire_evolves, evolves_refl. by repeat split. }
  destruct (_ || _); [done|]. by apply learn_evolves.
Qed.

(** What the pass may archive. *)
Definition overdue (zone : Z → Z) (cfg : ArchiveConfig) (now : Z) (d : arch_device) : Prop :=
  is_archived d = false ∧ ad_Pin d ≠ PinForceActive ∧ ad_ScanSource d = "scanner_v2" ∧ ad_Status d = "offline"
  ∧ ∃ since, ad_OfflineSince d = Some since ∧ since ≤ days_back zone now (threshold_of cfg d).

Definition by_auto (zone : Z → Z) (cfg : ArchiveConfig) (now : Z) (d d' : arch_device) : Prop :=
  same_asset d d' ∧ (ad_Periodic d = 1 → ad_Periodic d' = 1)
  ∧ (unmoved d d' ∨ (overdue zone cfg now d ∧ ad_ArchivedAt d' = Some now ∧ ad_OnlineSince d' = None)).

Lemma candidate_spec db d :
  d ∈ ListAutoArchiveCandidates db ↔
  d ∈ ar_devices db ∧ is_archived d = false ∧ ad_Pin d ≠ PinForceActive ∧ ad_ScanSource d = "scanner_v2" ∧ ad_Status d = "offline" ∧ is_Some (ad_OfflineSince d).
Proof.
  unfold ListAutoArchiveCandidates. rewrite list_elem_of_filter, !andb_true_iff, !negb_true_iff, !bool_decide_eq_true, bool_decide_eq_false. tauto.
Qed.

Lemma evaluate_evolves R id thr p cfg now db0 db :
  (∀ c d0 d, R d0 d → R d0 (set_periodic 1 c now d)) → evolves R db0 db → evolves R db0 (evaluateDevice ok id thr p cfg now db).1.
Proof.
  intros HR Hev. unfold evaluateDevice. destruct (sm_Disabled _); [done|]. destruct p; [done|]. destruct (exemptionActive _ _); [|done]. cbn [negb].
  destruct (ok _); [|done]. cbn [negb]. destruct (recognize _ _ _) as [c|]; [|done]. apply setPeriodic_evolves; [apply HR|exact Hev].
Qed.

Lemma candidate_evolves zone cfg now r db0 db :
  NoDup (ad_ID <$> ar_devices db0) → r ∈ ListAutoArchiveCandidates db0 → evolves (by_auto zone cfg now) db0 db →
  evolves (by_auto zone cfg now) db0 (archive_candidate zone ok cfg now r db).
Proof.
  intros Hn Hr Hev. apply candidate_spec in Hr as (Hin & Ha & Hp & Hsrc & Hst & [since Hsin]). unfold archive_candidate. rewrite Hsin.
  destruct (Z.ltb_spec (days_back zone now (threshold_of cfg r)) since) as [|Hpast]; [done|].
  assert (∀ c d0 d, by_auto zone cfg now d0 d → by_auto zone cfg now d0 (set_periodic 1 c now d)) as Hset.
  { intros c d0 d (Hs & _ & Hm). split_and!; [by eapply same_trans|done|]. destruct Hm as [?|(? & ? & ?)]; [by left|by right]. }
  pose proof (evaluate_evolves _ (ad_ID r) (threshold_of cfg r) (ad_Periodic r =? 1) cfg now db0 db Hset Hev) as He.
  destruct (evaluateDevice _ _ _ _ _ _ _) as [db2 exempt]. cbn [fst] in He. destruct exempt; [done|]. destruct (ok (WArchive _)); [|done]. cbn [negb].
  apply insert_evolves. unfold ArchiveDevice. cbn [fst]. apply evolves_map; [|done]. intros d0 d Hd0 (Hs & Hper & Hm).
  destruct (Z.eqb_spec (ad_ID d) (ad_ID r)) as [E|]; [|done]. cbn [andb]. destruct (is_archived d) eqn:Had; [done|]. cbn [negb].
  assert (d0 = r) as -> by (eapply (NoDup_key ad_ID); [exact Hn|done..|]; by rewrite <- (sa_ID _ _ Hs)).
  split_and!; [by eapply same_trans|done|]. right. split; [|done]. unfold overdue. split_and!; [done..|]. by exists since.
Qed.

Lemma auto_evolves zone cfg now db :
  NoDup (ad_ID <$> ar_devices db) → evolves (by_auto zone cfg now) db (autoArchive zone ok alive cfg now db).
Proof.
  intros Hn. assert (evolves (by_auto zone cfg now) db db) as H0 by (apply evolves_refl; intros d; split_and!; [done..|by left]).
  unfold autoArchive. destruct (ok QCandidates); [|done]. cbn [negb]. apply each_row_inv; [|done]. intros r db1 Hr Hev.
  by apply candidate_evolves.
Qed.

Lemma Forall2_map_self (R : arch_device → arch_device → Prop) f l : (∀ x, R x (f x)) → Forall2 R l (f <$> l).
Proof. intros HR. induction l; cbn; by constructor. Qed.

Definition by_stamp (now : Z) (d d' : arch_device) : Prop :=
  same_asset d d' ∧ ad_Periodic d' = ad_Periodic d ∧ ad_ArchivedAt d' = ad_ArchivedAt d
  ∧ (ad_OnlineSince d' = ad_OnlineSince d ∨ (is_archived d = true ∧ ad_Status d = "online" ∧ ad_OnlineSince d = None ∧ ad_OnlineSince d' = Some now)).

Lemma stamp_evolves now db : evolves (by_stamp now) db (stampOnline ok now db).
Proof.
  assert (evolves (by_stamp now) db db) as H0 by (apply evolves_refl; intros d; split_and!; [done..|by left]).
  unfold stampOnline. destruct (ok WStamp); [|done]. unfold evolves, StampArchivedOnlineSince, map_devices. cbn [ar_devices].
  apply Forall2_map_self. intros x.
  destruct (is_archived x) eqn:Ha; cbn [andb]; [|split_and!; [done..|by left]]. case_bool_decide as Hs; cbn [andb]; [|split_and!; [done..|by left]].
  unfold has_online. destruct (ad_OnlineSince x) eqn:Ho; cbn [negb]; [split_and!; [done..|by left]|]. split_and!; [done..|]. by right.
Qed.

Definition by_restore (cfg : ArchiveConfig) (now : Z) (d d' : arch_device) : Prop :=
  same_asset d d' ∧ ad_Periodic d' = ad_Periodic d
  ∧ (unmoved d d'
     ∨ (is_archived d = true ∧ ad_Status d = "online" ∧ ad_Pin d ≠ PinForceArchive
        ∧ (∃ since, ad_OnlineSince d = Some since ∧ since ≤ now - arc_RestoreOnlineMinutes cfg * minute)
        ∧ ad_ArchivedAt d' = None ∧ ad_OnlineSince d' = None)).

Lemma online_spec db d :
  d ∈ ListArchivedOnline db ↔ d ∈ ar_devices db ∧ is_archived d = true ∧ ad_Status d = "online" ∧ has_online d = true.
Proof. unfold ListArchivedOnline. rewrite list_elem_of_filter, !andb_true_iff, bool_decide_eq_true. tauto. Qed.

Lemma broken_spec db d :
  d ∈ ListArchivedOnlineBroken db ↔ d ∈ ar_devices db ∧ is_archived d = true ∧ ad_Status d = "offline" ∧ has_online d = true.
Proof. unfold ListArchivedOnlineBroken. rewrite list_elem_of_filter, !andb_true_iff, bool_decide_eq_true. tauto. Qed.

Lemma restore_evolves cfg now db :
  NoDup (ad_ID <$> ar_devices db) → evolves (by_restore cfg now) db (restoreCheck ok alive cfg now db).
Proof.
  intros Hn. assert (evolves (by_restore cfg now) db db) as H0 by (apply evolves_refl; intros d; split_and!; [done..|by left]).
  unfold restoreCheck. destruct (ok QOnline); [|done]. cbn [negb]. apply each_row_inv; [|done]. intros r db1 Hr Hev.
  apply online_spec in Hr as (Hin & Ha & Hst & Ho). unfold restore_row. case_bool_decide as Hp; [done|].
  destruct (ad_OnlineSince r) as [since|] eqn:Hs0; [|done]. destruct (Z.ltb_spec (now - arc_RestoreOnlineMinutes cfg * minute) since); [done|].
  destruct (ok (WRestore _ _)); [|done]. cbn [negb]. apply insert_evolves. unfold RestoreArchivedDevice. apply evolves_map; [|done].
  intros d0 d Hd0 (Hs & Hper & Hm). destruct (Z.eqb_spec (ad_ID d) (ad_ID r)) as [E|]; [|done]. cbn [andb]. destruct (is_archived d) eqn:Had; [|done].
  assert (d0 = r) as -> by (eapply (NoDup_key ad_ID); [exact Hn|done..|]; by rewrite <- (sa_ID _ _ Hs)).
  split_and!; [by eapply same_trans|done|]. right. split_and!; try done. by exists since.
Qed.

Definition by_blip (d d' : arch_device) : Prop :=
  same_asset d d' ∧ ad_Periodic d' = ad_Periodic d ∧ ad_ArchivedAt d' = ad_ArchivedAt d
  ∧ (ad_OnlineSince d' = ad_OnlineSince d ∨ (is_archived d = true ∧ ad_Status d = "offline" ∧ ad_OnlineSince d' = None)).

Lemma blip_evolves now db : NoDup (ad_ID <$> ar_devices db) → evolves by_blip db (blipCheck ok alive now db).
Proof.
  intros Hn. assert (evolves by_blip db db) as H0 by (apply evolves_refl; intros d; split_and!; [done..|by left]).
  unfold blipCheck. destruct (ok QBroken); [|done]. cbn [negb]. apply each_row_inv; [|done]. intros r db1 Hr Hev.
  apply broken_spec in Hr as (Hin & Ha & Hst & Ho). unfold close_blip. destruct (ok (WClear _)); [|done]. cbn [negb]. apply insert_evolves.
  apply evolves_hit; [done..|by intros d0 d [[] _]| |done]. intros d (Hs & Hper & E1 & Hm) _. split_and!; [by eapply same_trans|done|done|by right].
Qed.

Lemma evolves_ids (R : arch_device → arch_device → Prop) db db' :
  (∀ x y, R x y → same_asset x y) → evolves R db db' → ad_ID <$> ar_devices db' = ad_ID <$> ar_devices db.
Proof.
  unfold evolves. intros HR. induction 1 as [|x y l k Hxy _ IH]; [done|]. cbn [fmap list_fmap]. rewrite IH. f_equal. by apply HR.
Qed.

(** * A pass *)

Definition pass_rel (zone : Z → Z) (cfg : ArchiveConfig) (clock : arch_stage → Z) (d d' : arch_device) : Prop :=
  ∃ d1 d2 d3 d4, by_pattern d d1 ∧ by_auto zone cfg (clock AtAuto) d1 d2 ∧ by_stamp (clock AtStamp) d2 d3
    ∧ by_restore cfg (clock AtRestore) d3 d4 ∧ by_blip d4 d'.

Section pass.
Context (zone : Z → Z) (s : ArchiveService) (overlay : option ArchiveConfig) (clock : arch_stage → Z) (db : arch_db).
Context (Hn : NoDup (ad_ID <$> ar_devices db)).
Let cfg : ArchiveConfig := effectiveCfg s overlay.

Lemma NoDup_evolves (R : arch_device → arch_device → Prop) a b :
  (∀ x y, R x y → same_asset x y) → evolves R a b → NoDup (ad_ID <$> ar_devices a) → NoDup (ad_ID <$> ar_devices b).
Proof. intros HR Hev Ha. by rewrite (evolves_ids R a b HR Hev). Qed.

Lemma pass_stages :
  ∃ db1 db2 db3 db4, db2 = autoArchive zone ok alive cfg (clock AtAuto) db1 ∧ NoDup (ad_ID <$> ar_devices db1)
    ∧ db4 = restoreCheck ok alive cfg (clock AtRestore) db3 ∧ archive_pass zone ok alive s overlay clock db = blipCheck ok alive (clock AtBlip) db4
    ∧ evolves by_pattern db db1 ∧ evolves (by_auto zone cfg (clock AtAuto)) db1 db2 ∧ evolves (by_stamp (clock AtStamp)) db2 db3
    ∧ evolves (by_restore cfg (clock AtRestore)) db3 db4 ∧ evolves by_blip db4 (archive_pass zone ok alive s overlay clock db).
Proof.
  unfold archive_pass. fold cfg. pose proof (pattern_evolves cfg (clock AtPattern) db) as H1. set (db1 := patternSweep _ _ _ _ db) in *.
  assert (NoDup (ad_ID <$> ar_devices db1)) as Hn1 by (eapply NoDup_evolves; [|exact H1|done]; by intros x y []).
  pose proof (auto_evolves zone cfg (clock AtAuto) db1 Hn1) as H2. set (db2 := autoArchive _ _ _ _ _ db1) in *.
  assert (NoDup (ad_ID <$> ar_devices db2)) as Hn2 by (eapply NoDup_evolves; [|exact H2|done]; by intros x y []).
  pose proof (stamp_evolves (clock AtStamp) db2) as H3. set (db3 := stampOnline _ _ db2) in *.
  assert (NoDup (ad_ID <$> ar_devices db3)) as Hn3 by (eapply NoDup_evolves; [|exact H3|done]; by intros x y []).
  pose proof (restore_evolves cfg (clock AtRestore) db3 Hn3) as H4. set (db4 := restoreCheck _ _ _ _ db3) in *.
  assert (NoDup (ad_ID <$> ar_devices db4)) as Hn4 by (eapply NoDup_evolves; [|exact H4|done]; by intros x y []).
  exists db1, db2, db3, db4. split_and!; [done..|]. by apply blip_evolves.
Qed.

Lemma pass_evolves : evolves (pass_rel zone cfg clock) db (archive_pass zone ok alive s overlay clock db).
Proof.
  destruct pass_stages as (db1 & db2 & db3 & db4 & _ & _ & _ & _ & H1 & H2 & H3 & H4 & H5).
  eapply evolves_impl; [|exact (evolves_comp _ _ _ _ _ H1 (evolves_comp _ _ _ _ _ H2 (evolves_comp _ _ _ _ _ H3 (evolves_comp _ _ _ _ _ H4 H5))))].
  intros x y (d1 & R1 & d2 & R2 & d3 & R3 & d4 & R4 & R5). by exists d1, d2, d3, d4.
Qed.

End pass.
End rows.

Lemma passed_moves zone cfg clock d d' :
  pass_rel zone cfg clock d d' →
  same_asset d d'
      ∧ (is_archived d = false → is_archived d' = true → overdue zone cfg (clock AtAuto) d)
      ∧ (is_archived d = true → is_archived d' = false →
           ad_Periodic d' = 1
           ∨ (ad_Status d = "online" ∧ ad_Pin d ≠ PinForceArchive
              ∧ ∃ since, since ≤ clock AtRestore - arc_RestoreOnlineMinutes cfg * minute
                  ∧ (ad_OnlineSince d = Some since ∨ since = clock AtStamp))).
Proof.
  intros (d1 & d2 & d3 & d4 & [S1 M1] & (S2 & P2 & M2) & (S3 & P3 & A3 & M3) & (S4 & P4 & M4) & (S5 & P5 & A5 & _)).
  pose proof (same_trans _ _ _ S1 S2) as S12. pose proof (same_trans _ _ _ S12 S3) as S13. pose proof (same_trans _ _ _ S13 S4) as S14.
  pose proof (same_trans _ _ _ S14 S5) as S15. split; [done|].
  assert (is_archived d3 = is_archived d2 ∧ is_archived d' = is_archived d4) as [E3 E5] by (unfold is_archived; by rewrite A3, A5).
  split.
  - intros Ha Ha'. assert (unmoved d d1) as [U1 _] by (destruct M1 as [?|(? & _)]; [done|congruence]).
    destruct M2 as [[U2 _]|(Ho & _)].
    + assert (is_archived d2 = false) as E2 by (unfold is_archived in *; by rewrite U2, U1).
      destruct M4 as [[U4 _]|(? & _)]; [|congruence]. unfold is_archived in *. rewrite U4, A3, U2, U1 in E5. congruence.
    + destruct Ho as (_ & Hp & Hsrc & Hst & since & Hs & Hle). destruct S1. unfold overdue, threshold_of in *.
      split_and!; [done|congruence..|]. exists since. split; [congruence|]. by rewrite sa_Override0 in Hle.
  - intros Ha Ha'. destruct M1 as [[U1 O1]|(_ & _ & _ & Hper)]; [|left; rewrite P5, P4, P3; by apply P2].
    assert (is_archived d1 = true) as E1 by (unfold is_archived in *; by rewrite U1).
    destruct M2 as [[U2 O2]|((? & _) & _)]; [|congruence]. assert (is_archived d2 = true) as E2 by (unfold is_archived in *; by rewrite U2).
    destruct M4 as [[U4 _]|(_ & Hst & Hp & (since & Hs & Hle) & _)]; [unfold is_archived in *; rewrite U4 in E5; congruence|].
    right. destruct S13. split_and!; [congruence..|]. exists since. split; [done|].
    destruct M3 as [O3|(_ & _ & _ & O3)]; [left|right]; congruence.
Qed.


(** * Nothing overdue is left *)

Section complete.
Context (zone : Z → Z) (cfg : ArchiveConfig) (now : Z).
Let ok : arch_stmt → bool := fun _ => true.
Let alive : arch_stage → Z → bool := fun _ _ => true.

Definition exempted (d : arch_device) : Prop := ad_Periodic d = 1 ∧ exemptionActive cfg (threshold_of cfg d) = true.

Definition settled_asset (id : Z) (db : arch_db) : Prop := ∀ d, d ∈ ar_devices db → ad_ID d = id → is_archived d = true ∨ exempted d.

Lemma settled_map id f db :
  (∀ d, ad_ID (f d) = ad_ID d) → (∀ d, is_archived d = true ∨ exempted d → is_archived (f d) = true ∨ exempted (f d)) →
  settled_asset id db → settled_asset id (map_devices f db).
Proof. intros HID Hf Hs d (x & -> & Hx)%list_elem_of_fmap E. rewrite HID in E. by apply Hf, Hs. Qed.

Lemma devices_settled id db db' : ar_devices db' = ar_devices db → settled_asset id db → settled_asset id db'.
Proof. unfold settled_asset. by intros ->. Qed.

Lemma set_periodic_settled id k c db : settled_asset id db → settled_asset id (SetDevicePeriodic 1 c now k db).
Proof.
  apply settled_map; [intros d; by destruct (_ =? _)|]. intros d [Ha|[Hp He]]; destruct (_ =? _); [by left|by left|right; done|right; done].
Qed.

Lemma archive_settled id k db : settled_asset id db → settled_asset id (ArchiveDevice now k db).1.
Proof.
  apply settled_map; [intros d; by destruct (_ && _)|]. intros d [Ha|He]; destruct (_ && _); [by left..|by right].
Qed.

Lemma evaluate_cases id thr p db :
  let r := evaluateDevice ok id thr p cfg now db in
  (ar_devices r.1 = ar_devices db ∧ r.2 = (negb (sm_Disabled (arc_Smart cfg)) && p && (thr <? sm_MaxThresholdDays (arc_Smart cfg))))
  ∨ (∃ c, ar_devices r.1 = ar_devices (SetDevicePeriodic 1 c now id db) ∧ exemptionActive cfg thr = true).
Proof.
  cbv zeta. unfold evaluateDevice, exemptionActive. destruct (sm_Disabled _); [by left|]. destruct p; [by left|]. cbn [negb andb].
  destruct (thr <? _); [|by left]. cbn [negb]. destruct (recognize _ _ _) as [c|]; [|by left]. right. by exists c.
Qed.

Lemma body_settled id r db : settled_asset id db → settled_asset id (archive_candidate zone ok cfg now r db).
Proof.
  intros Hs. unfold archive_candidate. destruct (ad_OfflineSince r); [|done]. destruct (_ <? _); [done|].
  pose proof (evaluate_cases (ad_ID r) (threshold_of cfg r) (ad_Periodic r =? 1) db) as Hc. cbv zeta in Hc.
  destruct (evaluateDevice _ _ _ _ _ _ _) as [db1 ex]. cbn [fst snd] in Hc.
  assert (settled_asset id db1) as Hs1.
  { destruct Hc as [[E _]|(c & E & _)]; eapply devices_settled; [exact E|done|exact E|]. by apply set_periodic_settled. }
  destruct ex; [done|]. cbn [ok negb]. eapply devices_settled; [apply insert_devices|]. by apply archive_settled.
Qed.

(** The turn of an overdue row settles it. *)
Lemma own_body_settles r db0 db :
  NoDup (ad_ID <$> ar_devices db0) → r ∈ ar_devices db0 → overdue zone cfg now r → evolves (by_auto zone cfg now) db0 db →
  settled_asset (ad_ID r) (archive_candidate zone ok cfg now r db).
Proof.
  intros Hn Hr (Ha & _ & _ & _ & since & Hsin & Hle) Hev. unfold archive_candidate. rewrite Hsin.
  destruct (Z.ltb_spec (days_back zone now (threshold_of cfg r)) since); [lia|].
  assert (∀ d, d ∈ ar_devices db → ad_ID d = ad_ID r → by_auto zone cfg now r d) as Hrow.
  { intros d Hd E. apply list_elem_of_lookup_1 in Hd as [i Hi]. destruct (Forall2_lookup_r _ _ _ _ _ Hev Hi) as (d0 & Hi0 & Hb).
    assert (d0 = r) as ->; [|done]. eapply (NoDup_key ad_ID); [exact Hn|by eapply list_elem_of_lookup_2|done|].
    destruct Hb as [[] _]. congruence. }
  pose proof (evaluate_cases (ad_ID r) (threshold_of cfg r) (ad_Periodic r =? 1) db) as Hc. cbv zeta in Hc.
  destruct (evaluateDevice _ _ _ _ _ _ _) as [db1 ex]. cbn [fst snd] in Hc.
  destruct Hc as [[E ->]|(c & E & Hact)].
  - destruct (negb _ && _ && _) eqn:Hex.
    + intros d Hd Hid. rewrite E in Hd. right. destruct (Hrow d Hd Hid) as (Hs & Hper & _).
      apply andb_true_iff in Hex as [[Hdis Hp]%andb_true_iff Hthr]. apply Z.eqb_eq in Hp. split; [by apply Hper|].
      unfold exemptionActive, threshold_of in *. by rewrite (sa_Override _ _ Hs), Hdis, Hthr.
    + cbn [ok negb]. intros d Hd Hid. left. rewrite insert_devices in Hd. unfold ArchiveDevice, map_devices in Hd. cbn [fst ar_devices] in Hd.
      apply list_elem_of_fmap in Hd as (x & -> & Hx). destruct (Z.eqb_spec (ad_ID x) (ad_ID r)) as [Ex|Ex]; cbn [andb] in *; [|congruence].
      destruct (is_archived x) eqn:Hax; cbn [negb] in *; done.
  - assert (settled_asset (ad_ID r) db1) as Hs1.
    { intros d Hd Hid. rewrite E in Hd. unfold SetDevicePeriodic, map_devices in Hd. cbn [ar_devices] in Hd.
      apply list_elem_of_fmap in Hd as (x & -> & Hx). destruct (Z.eqb_spec (ad_ID x) (ad_ID r)) as [Ex|Ex]; [|congruence].
      right. split; [done|]. destruct (Hrow x Hx Ex) as [Hs _]. unfold threshold_of in *. cbn. by rewrite (sa_Override _ _ Hs). }
    destruct ex; [done|]. cbn [ok negb]. eapply devices_settled; [apply insert_devices|]. by apply archive_settled.
Qed.

Lemma auto_settles db d :
  NoDup (ad_ID <$> ar_devices db) → d ∈ ar_devices db → overdue zone cfg now d → settled_asset (ad_ID d) (autoArchive zone ok alive cfg now db).
Proof.
  intros Hn Hd Hov. unfold autoArchive. cbn [ok negb]. rewrite each_row_fold by done.
  assert (d ∈ ListAutoArchiveCandidates db) as Hc.
  { apply candidate_spec. destruct Hov as (? & ? & ? & ? & since & -> & _). by split_and!. }
  assert (evolves (by_auto zone cfg now) db db) as H0 by (apply evolves_refl; intros x; split_and!; [done..|by left]).
  assert (∀ rows db1, (∀ r, r ∈ rows → r ∈ ListAutoArchiveCandidates db) → evolves (by_auto zone cfg now) db db1 →
    d ∈ rows ∨ settled_asset (ad_ID d) db1 → settled_asset (ad_ID d) (fold_left (fun db r => archive_candidate zone ok cfg now r db) rows db1)) as Hloop.
  { induction rows as [|r rows IH]; intros db1 Hsub Hev Hor; cbn [fold_left].
    { destruct Hor as [?%not_elem_of_nil|?]; done. }
    apply IH; [intros x Hx; apply Hsub; by right|apply candidate_evolves; [done|apply Hsub; by left|done]|].
    destruct Hor as [[->|Hin]%elem_of_cons|Hs]; [|by left|right; by apply body_settled].
    right. by eapply own_body_settles. }
  apply Hloop; [done..|by left].
Qed.

End complete.

(** C16.  Without faults, after a pass every device found by a scan that is offline
    for longer than its threshold is in the archive, unless it is pinned active
    or exempt by a learned cycle. *)
Theorem overdue_archived zone s overlay clock db d'
    (Hn : NoDup (ad_ID <$> ar_devices db))
    (Hd' : d' ∈ ar_devices (archive_pass zone (fun _ => true) (fun _ _ => true) s overlay clock db))
    (Hov : overdue zone (effectiveCfg s overlay) (clock AtAuto) d') :
  ad_Periodic d' = 1 ∧ exemptionActive (effectiveCfg s overlay) (threshold_of (effectiveCfg s overlay) d') = true.
Proof.
  set (cfg := effectiveCfg s overlay) in *.
  destruct (pass_stages (fun _ => true) (fun _ _ => true) zone s overlay clock db Hn)
    as (db1 & db2 & db3 & db4 & E2 & Hn1 & _ & _ & H1 & H2 & H3 & H4 & H5). fold cfg in E2, H2, H4.
  apply list_elem_of_lookup_1 in Hd' as [i Hi]. destruct (Forall2_lookup_r _ _ _ _ _ H5 Hi) as (d4 & Hi4 & S5 & P5 & A5 & _).
  destruct (Forall2_lookup_r _ _ _ _ _ H4 Hi4) as (d3 & Hi3 & S4 & P4 & M4).
  destruct (Forall2_lookup_r _ _ _ _ _ H3 Hi3) as (d2 & Hi2 & S3 & P3 & A3 & _).
  destruct (Forall2_lookup_r _ _ _ _ _ H2 Hi2) as (d1 & Hi1 & S2 & P2 & M2).
  destruct Hov as (Ha & Hp & Hsrc & Hst & since & Hsin & Hle).
  pose proof (same_trans _ _ _ (same_trans _ _ _ S3 S4) S5) as S25. pose proof (same_trans _ _ _ S2 S25) as S15.
  assert (ad_ArchivedAt d4 = ad_ArchivedAt d3) as A4.
  { destruct M4 as [[? _]|(_ & Hon & _)]; [done|]. destruct S4, S5. congruence. }
  assert (ad_ArchivedAt d2 = ad_ArchivedAt d') as A2 by congruence.
  assert (overdue zone cfg (clock AtAuto) d1) as Hov1.
  { destruct S15. unfold overdue, threshold_of in *. split_and!; [|congruence..|].
    - destruct M2 as [[U _]|(_ & U & _)]; unfold is_archived in *; [by rewrite <- U, A2|]. rewrite <- A2, U in Ha. done.
    - exists since. split; [congruence|]. by rewrite sa_Override0 in Hle. }
  assert (settled_asset cfg (ad_ID d1) db2) as Hset.
  { rewrite E2. apply (auto_settles zone cfg (clock AtAuto) db1 d1 Hn1); [by eapply list_elem_of_lookup_2|done]. }
  destruct (Hset d2) as [Hx|[Hper Hex]]; [by eapply list_elem_of_lookup_2|by destruct S2| |].
  - unfold is_archived in *. rewrite A2 in Hx. congruence.
  - destruct S25. unfold threshold_of in *. rewrite sa_Override0. split; [congruence|done].
Qed.

(** * Restores follow an uninterrupted online stretch *)

Record blip_works (ok : arch_stmt → bool) (alive : arch_stage → Z → bool) : Prop := mkBlipWorks {
  bw_list : ok QBroken = true;
  bw_clear id : ok (WClear id) = true;
  bw_alive id : alive AtBlip id = true
}.

Definition clock_closed (id : Z) (db : arch_db) : Prop := ∀ d, d ∈ ar_devices db → ad_ID d = id → ad_OnlineSince d = None.

Lemma close_closes ok now r db id : ok (WClear (ad_ID r)) = true →
  ad_ID r = id ∨ clock_closed id db → clock_closed id (close_blip ok now r db).
Proof.
  intros Hok Hor d. unfold close_blip. rewrite Hok. cbn [negb]. rewrite insert_devices. unfold ClearOnlineSince, map_devices. cbn [ar_devices].
  intros (x & -> & Hx)%list_elem_of_fmap. destruct (Z.eqb_spec (ad_ID x) (ad_ID r)) as [E|E]; [done|]. intros Hid.
  destruct Hor as [Hr|Hc]; [congruence|by apply Hc].
Qed.

(** A working last stage leaves no clock running on an offline archived row. *)
Lemma blip_closes ok alive now db d' :
  blip_works ok alive → NoDup (ad_ID <$> ar_devices db) → d' ∈ ar_devices (blipCheck ok alive now db) →
  is_archived d' = true → ad_Status d' = "offline" → ad_OnlineSince d' = None.
Proof.
  intros [Hl Hc Ha] Hn Hd' Har Hst. pose proof (blip_evolves ok alive now db Hn) as Hev.
  apply list_elem_of_lookup_1 in Hd' as [i Hi]. destruct (Forall2_lookup_r _ _ _ _ _ Hev Hi) as (d & Hi0 & S & _ & A & M).
  destruct (ad_OnlineSince d) as [t|] eqn:Ho; [|destruct M as [?|(_ & _ & ?)]; [congruence|done]].
  assert (d ∈ ListArchivedOnlineBroken db) as Hb.
  { apply broken_spec. split_and!; [by eapply list_elem_of_lookup_2| |by destruct S; congruence|unfold has_online; by rewrite Ho].
    unfold is_archived in *. by rewrite A in Har. }
  assert (clock_closed (ad_ID d) (blipCheck ok alive now db)) as Hclosed.
  { unfold blipCheck. rewrite Hl. cbn [negb]. rewrite each_row_fold by done. revert Hb. generalize (ListArchivedOnlineBroken db) as rows.
    clear -Hc. intros rows Hin. assert (d ∈ rows ∨ clock_closed (ad_ID d) db) as Hor by (by left). clear Hin. revert db Hor.
    induction rows as [|r rows IH]; intros db Hor; cbn [fold_left]; [destruct Hor as [?%not_elem_of_nil|?]; done|].
    apply IH. destruct Hor as [[->|Hin]%elem_of_cons|Hcl]; [right; apply close_closes; auto|by left|right; apply close_closes; auto]. }
  apply Hclosed; [by eapply list_elem_of_lookup_2|by destruct S].
Qed.

(** Only archived rows have a running clock. *)
Definition clock_in_archive (d : arch_device) : Prop := is_Some (ad_OnlineSince d) → is_archived d = true.

(** What others may do to the table: rows come and go, columns change, but no
    clock is started and none moves to a live row. *)
Record keeps_clocks (db db' : arch_db) : Prop := mkKeeps {
  kc_ids : NoDup (ad_ID <$> ar_devices db');
  kc_clock d' t : d' ∈ ar_devices db' → ad_OnlineSince d' = Some t →
    is_archived d' = true ∧ ∃ d, d ∈ ar_devices db ∧ ad_ID d = ad_ID d' ∧ ad_OnlineSince d = Some t
}.

Definition status_of (id : Z) (db : arch_db) : option string := ad_Status <$> head (filter (fun d => ad_ID d = id) (ar_devices db)).

(** The manual operations. *)
Inductive manual_op := OpArchive (reason : string) | OpRestore (force : bool) | OpPin (pin : string) | OpThreshold (days : Z).

Definition run_manual (ok : arch_stmt → bool) (op : manual_op) (id now : Z) (db : arch_db) : arch_db :=
  match op with
  | OpArchive reason => (ArchiveDeviceManually ok id reason now db).1
  | OpRestore force => (RestoreDeviceManually ok id force now db).1
  | OpPin pin => (SetPin ok id pin now db).1
  | OpThreshold days => (SetThresholdOverride ok id days now db).1
  end.

(** The life of the table, with the status of one device at each pass. *)
Inductive archive_run (zone : Z → Z) (s : ArchiveService) (id : Z) : arch_db → list (Z * option string) → Prop :=
| run_start db : NoDup (ad_ID <$> ar_devices db) → Forall (fun d => ad_OnlineSince d = None) (ar_devices db) → archive_run zone s id db []
| run_other db db' obs : archive_run zone s id db obs → keeps_clocks db db' → archive_run zone s id db' obs
| run_op ok op k now db obs : archive_run zone s id db obs → archive_run zone s id (run_manual ok op k now db) obs
| run_pass ok alive overlay clock db obs :
    archive_run zone s id db obs → blip_works ok alive → clock AtStamp ≤ clock AtBlip → Forall (fun o => o.1 < clock AtStamp) obs →
    archive_run zone s id (archive_pass zone ok alive s overlay clock db) ((clock AtBlip, status_of id db) :: obs).

Lemma keeps_map (f : arch_device → arch_device) db :
  NoDup (ad_ID <$> ar_devices db) → Forall clock_in_archive (ar_devices db) → (∀ d, ad_ID (f d) = ad_ID d) →
  (∀ d t, ad_OnlineSince (f d) = Some t → ad_OnlineSince d = Some t ∧ (is_archived d = true → is_archived (f d) = true)) →
  keeps_clocks db (map_devices f db).
Proof.
  intros Hn Ha HID Hf. split; cbn [map_devices ar_devices].
  - rewrite <- list_fmap_compose. rewrite (list_fmap_ext _ ad_ID); [done|]. intros i x Hx. cbn. apply HID.
  - intros d' t (d & -> & Hd)%list_elem_of_fmap Ht. destruct (Hf d t Ht) as [Ho Hk]. split.
    + apply Hk. rewrite list.Forall_forall in Ha. apply (Ha d Hd). by rewrite Ho.
    + exists d. by rewrite HID.
Qed.

Lemma keeps_refl db : NoDup (ad_ID <$> ar_devices db) → Forall clock_in_archive (ar_devices db) → keeps_clocks db db.
Proof.
  intros Hn Ha. split; [done|]. intros d' t Hd' Ht. split; [|by exists d'].
  rewrite list.Forall_forall in Ha. apply (Ha d' Hd'). by rewrite Ht.
Qed.

Lemma keeps_devices db db1 db2 : ar_devices db2 = ar_devices db1 → keeps_clocks db db1 → keeps_clocks db db2.
Proof. intros E [H1 H2]. split; rewrite E; done. Qed.

Lemma keeps_inv db db1 : keeps_clocks db db1 → NoDup (ad_ID <$> ar_devices db1) ∧ Forall clock_in_archive (ar_devices db1).
Proof. intros [H1 H2]. split; [done|]. apply list.Forall_forall. intros d Hd [t Ht]. by apply (H2 d t). Qed.

Lemma keeps_trans a b c : keeps_clocks a b → keeps_clocks b c → keeps_clocks a c.
Proof.
  intros [_ H1] [H2 H3]. split; [done|]. intros d' t Hd' Ht. destruct (H3 d' t Hd' Ht) as (? & d & Hd & E & Ho). split; [done|].
  destruct (H1 d t Hd Ho) as (_ & x & ? & ? & ?). exists x. split_and!; [done|congruence|done].
Qed.

(** The single writes. *)
Section keep_writes.
Context (db0 db : arch_db) (Hk : keeps_clocks db0 db) (now id : Z).

Lemma keep_step f :
  (∀ d, ad_ID (f d) = ad_ID d) →
  (∀ d t, ad_OnlineSince (f d) = Some t → ad_OnlineSince d = Some t ∧ (is_archived d = true → is_archived (f d) = true)) →
  keeps_clocks db0 (map_devices f db).
Proof. intros HID Hf. destruct (keeps_inv _ _ Hk). eapply keeps_trans; [exact Hk|]. by apply keeps_map. Qed.

Lemma keep_event ok st k ev tr det n : keeps_clocks db0 (insertEvent ok st k ev tr det n db).1.
Proof. eapply keeps_devices; [apply insert_devices|done]. Qed.

Lemma keep_manual_event ok k ev det n : keeps_clocks db0 (manual_event ok k ev det n db).1.
Proof.
  unfold manual_event. pose proof (keep_event ok AtManual k ev "manual" det n) as H.
  by destruct (insertEvent _ _ _ _ _ _ _ db) as [db1 w].
Qed.

Lemma keep_pin pin : keeps_clocks db0 (SetDeviceArchivePin pin now id db).
Proof. apply keep_step; intros d; [by destruct (_ =? _)|]. intros t. by destruct (_ =? _). Qed.

Lemma keep_override o : keeps_clocks db0 (UpdateArchiveThresholdOverride o now id db).
Proof. apply keep_step; intros d; [by destruct (_ =? _)|]. intros t. by destruct (_ =? _). Qed.

Lemma keep_archive : keeps_clocks db0 (ArchiveDevice now id db).1.
Proof. apply keep_step; intros d; [by destruct (_ && _)|]. intros t. by destruct (_ && _). Qed.

Lemma keep_restore : keeps_clocks db0 (RestoreArchivedDevice now id db).
Proof. apply keep_step; intros d; [by destruct (_ && _)|]. intros t. by destruct (_ && _). Qed.

End keep_writes.

Lemma manual_keeps ok op id now db :
  NoDup (ad_ID <$> ar_devices db) → Forall clock_in_archive (ar_devices db) → keeps_clocks db (run_manual ok op id now db).
Proof.
  intros Hn Ha. pose proof (keeps_refl db Hn Ha) as H0.
  assert (∀ k pin, keeps_clocks db (setPin ok k pin now db).1) as Hpin.
  { intros k pin. unfold setPin. destruct (ok (WPin k)); [|done]. cbn [negb]. by apply keep_manual_event, keep_pin. }
  destruct op as [reason|force|pin|days]; cbn [run_manual].
  - unfold ArchiveDeviceManually. destruct (ok _); [|done]. cbn [negb]. pose proof (keep_archive db db H0 now id) as Hk.
    destruct (ArchiveDevice now id db) as [db1 n]. cbn [fst] in Hk. destruct (n =? 0); [done|]. by apply keep_manual_event.
  - unfold RestoreDeviceManually. destruct (if ok _ then _ else _) as [dev|]; [|done]. destruct (is_archived dev); [|done]. cbn [negb].
    assert (∀ db1 err, (if decide (ad_Pin dev = PinForceArchive) then if negb force then (db, Some ErrPinned) else setPin ok (ad_ID dev) PinNone now db else (db, None))
      = (db1, err) → keeps_clocks db db1) as Hfirst.
    { intros db1 err. case_decide; [|by intros [= <- _]]. destruct force; cbn [negb]; [|by intros [= <- _]].
      intros E. specialize (Hpin (ad_ID dev) PinNone). by rewrite E in Hpin. }
    destruct (if decide _ then _ else _) as [db1 err] eqn:E. specialize (Hfirst _ _ eq_refl). destruct err; [done|].
    destruct (ok (WRestore _ _)); [|done]. cbn [negb]. by apply keep_manual_event, keep_restore.
  - unfold SetPin. destruct (valid_pin pin); [apply Hpin|done].
  - unfold SetThresholdOverride. destruct (ok _); [|done]. by apply keep_override.
Qed.

(** ** The invariant *)

Record run_inv (id : Z) (db : arch_db) (obs : list (Z * option string)) : Prop := mkRunInv {
  ri_ids : NoDup (ad_ID <$> ar_devices db);
  ri_clocks : Forall clock_in_archive (ar_devices db);
  ri_steady d t0 : d ∈ ar_devices db → ad_ID d = id → ad_OnlineSince d = Some t0 →
    (∃ t, (t, Some "online") ∈ obs ∧ t0 ≤ t) ∧ ∀ t st, (t, st) ∈ obs → t0 ≤ t → st ≠ Some "offline"
}.

Lemma status_of_row id db d : NoDup (ad_ID <$> ar_devices db) → d ∈ ar_devices db → ad_ID d = id → status_of id db = Some (ad_Status d).
Proof.
  intros Hn Hd E. unfold status_of. destruct (filter _ (ar_devices db)) as [|x l] eqn:Ef.
  - assert (d ∈ filter (fun d => ad_ID d = id) (ar_devices db)) as Hin by (by apply list_elem_of_filter). rewrite Ef in Hin. by apply not_elem_of_nil in Hin.
  - assert (x ∈ filter (fun d => ad_ID d = id) (ar_devices db)) as Hin by (rewrite Ef; by left). apply list_elem_of_filter in Hin as [Ex Hx].
    cbn. f_equal. f_equal. eapply (NoDup_key ad_ID); [exact Hn|done..|congruence].
Qed.

Lemma pass_clock zone s ok alive overlay clock db d' t0 :
  NoDup (ad_ID <$> ar_devices db) → Forall clock_in_archive (ar_devices db) → blip_works ok alive →
  d' ∈ ar_devices (archive_pass zone ok alive s overlay clock db) → ad_OnlineSince d' = Some t0 →
  is_archived d' = true ∧ ad_Status d' ≠ "offline"
  ∧ ∃ d, d ∈ ar_devices db ∧ ad_ID d = ad_ID d' ∧ ad_Status d = ad_Status d'
      ∧ (ad_OnlineSince d = Some t0 ∨ (t0 = clock AtStamp ∧ ad_Status d = "online")).
Proof.
  intros Hn Hcl Hb Hd' Ht. destruct (pass_stages ok alive zone s overlay clock db Hn) as (db1 & db2 & db3 & db4 & _ & Hn1 & _ & E5 & H1 & H2 & H3 & H4 & H5).
  assert (NoDup (ad_ID <$> ar_devices db4)) as Hn4.
  { eapply NoDup_evolves; [|exact H4|]; [by intros x y []|]. eapply NoDup_evolves; [|exact H3|]; [by intros x y []|].
    eapply NoDup_evolves; [|exact H2|done]. by intros x y []. }
  assert (is_archived d' = true → ad_Status d' ≠ "offline") as Hoff.
  { intros Ha Hst. rewrite E5 in Hd'. pose proof (blip_closes ok alive (clock AtBlip) db4 d' Hb Hn4 Hd' Ha Hst). congruence. }
  apply list_elem_of_lookup_1 in Hd' as [i Hi]. destruct (Forall2_lookup_r _ _ _ _ _ H5 Hi) as (d4 & Hi4 & S5 & _ & A5 & M5).
  destruct (Forall2_lookup_r _ _ _ _ _ H4 Hi4) as (d3 & Hi3 & S4 & _ & M4).
  destruct (Forall2_lookup_r _ _ _ _ _ H3 Hi3) as (d2 & Hi2 & S3 & _ & A3 & M3).
  destruct (Forall2_lookup_r _ _ _ _ _ H2 Hi2) as (d1 & Hi1 & S2 & _ & M2).
  destruct (Forall2_lookup_r _ _ _ _ _ H1 Hi1) as (d & Hi0 & S1 & M1).
  pose proof (same_trans _ _ _ (same_trans _ _ _ S1 S2) (same_trans _ _ _ (same_trans _ _ _ S3 S4) S5)) as S.
  assert (d ∈ ar_devices db) as Hd by (by eapply list_elem_of_lookup_2).
  assert (ad_OnlineSince d4 = Some t0) as O4 by (destruct M5 as [?|(_ & _ & ?)]; congruence).
  assert (unmoved d3 d4) as [A4 O34] by (destruct M4 as [?|(_ & _ & _ & _ & _ & ?)]; [done|congruence]).
  assert (is_archived d2 = true → is_archived d' = true) as Har by (unfold is_archived; by rewrite A5, A4, A3).
  destruct M3 as [O3|(Ha2 & Hon & _ & O3)].
  - assert (unmoved d1 d2) as [A2 O2] by (destruct M2 as [?|(_ & _ & ?)]; [done|congruence]).
    assert (unmoved d d1) as [A1 O1] by (destruct M1 as [?|(_ & _ & ? & _)]; [done|congruence]).
    assert (ad_OnlineSince d = Some t0) as O by congruence.
    assert (is_archived d' = true) as Ha. { apply Har. unfold is_archived. rewrite A2, A1. rewrite list.Forall_forall in Hcl. apply (Hcl d Hd). by rewrite O. }
    destruct S. split_and!; [done|by apply Hoff|]. exists d. split_and!; [done|congruence..|by left].
  - assert (is_archived d' = true) as Ha by auto. split_and!; [done|by apply Hoff|]. exists d. destruct S. split_and!; [done|congruence..|].
    right. split; [congruence|]. destruct S1, S2. congruence.
Qed.

Lemma run_invariant zone s id db obs : archive_run zone s id db obs → run_inv id db obs.
Proof.
  induction 1 as [db Hn Hnone|db db' obs _ [I1 I2 I3] [K1 K2]|ok op k now db obs _ [I1 I2 I3]|ok alive overlay clock db obs _ [I1 I2 I3] Hb Hclk Hlt].
  - rewrite list.Forall_forall in Hnone. split; [done|apply list.Forall_forall|].
    + intros d Hd [t Ht]. by rewrite Hnone in Ht.
    + intros d t0 Hd _ Ht. by rewrite Hnone in Ht.
  - split; [done|by apply (keeps_inv db); split|]. intros d t0 Hd E Ht. destruct (K2 d t0 Hd Ht) as (_ & x & Hx & Ex & Hxt).
    apply (I3 x); [done|congruence|done].
  - destruct (manual_keeps ok op k now db I1 I2) as [K1 K2]. split; [done|by apply (keeps_inv db); split|].
    intros d t0 Hd E Ht. destruct (K2 d t0 Hd Ht) as (_ & x & Hx & Ex & Hxt). apply (I3 x); [done|congruence|done].
  - pose proof (fun d' t0 => pass_clock zone s ok alive overlay clock db d' t0 I1 I2 Hb) as Hp. split.
    + eapply NoDup_evolves; [|exact (pass_evolves ok alive zone s overlay clock db I1)|done].
      intros x y (d1 & d2 & d3 & d4 & [S1 _] & [S2 _] & [S3 _] & [S4 _] & [S5 _]).
      by eapply same_trans, same_trans, same_trans, same_trans.
    + apply list.Forall_forall. intros d' Hd' [t Ht]. by destruct (Hp d' t Hd' Ht).
    + intros d' t0 Hd' E Ht. destruct (Hp d' t0 Hd' Ht) as (_ & Hoff & d & Hd & Eid & Est & Hor).
      assert (status_of id db = Some (ad_Status d)) as Hst by (apply status_of_row; [done..|congruence]). rewrite Hst. split.
      * destruct Hor as [Ho|[-> Hon]]; [destruct (I3 d t0 Hd) as [(t & Hin & Hle) _]; [congruence|done|]; exists t; split; [by right|done]|].
        exists (clock AtBlip). rewrite Hon. split; [by left|done].
      * intros t st [[= -> ->]|Hin]%elem_of_cons Hle; [congruence|]. destruct Hor as [Ho|[-> Hon]].
        { destruct (I3 d t0 Hd) as [_ Hall]; [congruence|done|]. by eapply Hall. }
        rewrite list.Forall_forall in Hlt. specialize (Hlt _ Hin). cbn in Hlt. lia.
Qed.

(** C14.  In any life of the table in which the last stage of every pass, the one that
    watches for blips, meets no fault (other components write rows, there are
    manual operations, and the other stages of the passes may fail), a device
    that a pass takes from the archive without a learned cycle is not pinned to
    it, is online, and since the start of its clock, the restore time ago or
    longer, every pass has seen it not offline, one of them online.  The proviso
    is needed: a pass whose last stage failed can miss the gap ([gap_missed]). *)
Theorem restore_continuous zone s id db obs ok alive overlay clock d d'
    (Hrun : archive_run zone s id db obs)
    (Hd : d ∈ ar_devices db) (Hid : ad_ID d = id) (Harch : is_archived d = true)
    (Hd' : d' ∈ ar_devices (archive_pass zone ok alive s overlay clock db)) (Hid' : ad_ID d' = id) (Hlive : is_archived d' = false)
    (Hcycle : ad_Periodic d' ≠ 1) :
  ad_Pin d ≠ PinForceArchive ∧ ad_Status d = "online"
  ∧ ∃ t0, t0 ≤ clock AtRestore - arc_RestoreOnlineMinutes (effectiveCfg s overlay) * minute
      ∧ (t0 = clock AtStamp
         ∨ ((∃ t, (t, Some "online") ∈ obs ∧ t0 ≤ t) ∧ ∀ t st, (t, st) ∈ obs → t0 ≤ t → st ≠ Some "offline")).
Proof.
  destruct (run_invariant _ _ _ _ _ Hrun) as [I1 I2 I3]. pose proof (pass_evolves ok alive zone s overlay clock db I1) as Hev.
  apply list_elem_of_lookup_1 in Hd' as [i Hi]. destruct (Forall2_lookup_r _ _ _ _ _ Hev Hi) as (x & Hx & Hp).
  apply passed_moves in Hp as (S & _ & Hback). assert (x = d) as ->.
  { eapply (NoDup_key ad_ID); [exact I1|by eapply list_elem_of_lookup_2|done|]. destruct S. congruence. }
  destruct (Hback Harch Hlive) as [?|(Hst & Hpin & since & Hle & Hor)]; [done|]. split_and!; [done..|]. exists since. split; [done|].
  destruct Hor as [Ho|?]; [right|by left]. by apply (I3 d).
Qed.

(** * On concrete tables *)

Definition utc_zone : Z → Z := fun _ => 0.
Definition day : Z := 24 * hour.
Definition t_now : Z := 1767268800 * nanos_per_second.
Definition engine : ArchiveService := NewArchive (mkArchiveConfig 0 0 0 (mkArchiveSmart false 0 0)).

(** All stages of a pass at one time. *)
Definition at_time (t : Z) : arch_stage → Z := fun _ => t.
Definition all_ok : arch_stmt → bool := fun _ => true.
Definition open_ctx : arch_stage → Z → bool := fun _ _ => true.

Definition asset (id : Z) (status : string) (since archived : option Z) (pin : string) (online : option Z) (periodic : Z) : arch_device :=
  mkArchDevice id "00:11:22:33:44:55" "scanner_v2" status since archived pin None online periodic f_zero 0.

Lemma one_row id status since archived pin online periodic : NoDup (ad_ID <$> [asset id status since archived pin online periodic]).
Proof. apply list.NoDup_singleton. Qed.



(** The same device with a learned cycle stays. *)
Definition monthly : arch_db := mkArchDb [asset 1 "offline" (Some (t_now - 8 * day)) None "" None 1] [] 0.

Lemma overdue_archived_witness :
  ad_Periodic (asset 1 "offline" (Some (t_now - 8 * day)) None "" None 1) = 1
  ∧ exemptionActive (effectiveCfg engine None) 7 = true.
Proof.
  apply (overdue_archived utc_zone engine None (at_time t_now) monthly (asset 1 "offline" (Some (t_now - 8 * day)) None "" None 1)).
  - apply one_row.
  - assert (ar_devices (archive_pass utc_zone all_ok open_ctx engine None (at_time t_now) monthly)
      = [asset 1 "offline" (Some (t_now - 8 * day)) None "" None 1]) as E by (vm_compute; reflexivity).
    unfold all_ok, open_ctx in E. rewrite E. left.
  - unfold overdue. split_and!; [done..|]. exists (t_now - 8 * day). split; [done|]. vm_compute. done.
Defined.

(** Archived and back online: the first pass starts the clock, the pass an
    hour later restores it. *)
Definition came_back : arch_db := mkArchDb [asset 1 "online" None (Some (t_now - day)) "" None 0] [] 0.

Definition first_pass : arch_db := archive_pass utc_zone all_ok open_ctx engine None (at_time t_now) came_back.

Lemma came_back_run : archive_run utc_zone engine 1 first_pass [(t_now, Some "online")].
Proof.
  apply (run_pass utc_zone engine 1 all_ok open_ctx None (at_time t_now) came_back []); [|by split|done|constructor].
  apply run_start; [apply one_row|]. by apply list.Forall_singleton.
Qed.

Definition clocked : arch_device :=
  mkArchDevice 1 "00:11:22:33:44:55" "scanner_v2" "online" None (Some (t_now - day)) "" None (Some t_now) 0 f_zero t_now.
Definition returned : arch_device :=
  mkArchDevice 1 "00:11:22:33:44:55" "scanner_v2" "online" None None "" None None 0 f_zero (t_now + hour).

Lemma restore_continuous_witness : ad_Pin clocked ≠ PinForceArchive ∧ ad_Status clocked = "online".
Proof.
  assert (ar_devices first_pass = [clocked]) as E1 by (vm_compute; reflexivity).
  assert (ar_devices (archive_pass utc_zone all_ok open_ctx engine None (at_time (t_now + hour)) first_pass) = [returned]) as E2 by (vm_compute; reflexivity).
  destruct (restore_continuous utc_zone engine 1 first_pass [(t_now, Some "online")] all_ok open_ctx None (at_time (t_now + hour)) clocked returned
    came_back_run ltac:(rewrite E1; left) eq_refl eq_refl ltac:(rewrite E2; left) eq_refl eq_refl ltac:(discriminate)) as (H1 & H2 & _).
  split; [exact H1|exact H2].
Defined.

(** * What the engine does not do as described *)

Definition blip_at (k t : Z) : arch_event := mkArchEvent k 1 "online_blip" "auto_restore" [] t.

(** A device pinned to the archive leaves it when its cycle is recognized. *)
Definition pinned_monthly : arch_db :=
  mkArchDb [asset 1 "offline" (Some (t_now - day)) (Some (t_now - 70 * day)) PinForceArchive None 0]
    [blip_at 1 (t_now - 61 * day); blip_at 2 (t_now - 31 * day); blip_at 3 (t_now - day)] 3.

Lemma pin_overridden :
  (fun d => (ad_Pin d, is_archived d)) <$> ar_devices (archive_pass utc_zone all_ok open_ctx engine None (at_time t_now) pinned_monthly)
  = [(PinForceArchive, false)].
Proof. vm_compute. reflexivity. Qed.

(** A clear that fails while the device is offline is not retried once it is
    online again: the clock runs on over the gap. *)
Definition set_status (status : string) (db : arch_db) : arch_db :=
  map_devices (fun d => mkArchDevice (ad_ID d) (ad_Mac d) (ad_ScanSource d) status (ad_OfflineSince d) (ad_ArchivedAt d) (ad_Pin d) (ad_Override d)
                          (ad_OnlineSince d) (ad_Periodic d) (ad_CycleDays d) (ad_UpdatedAt d)) db.

Definition no_clear (q : arch_stmt) : bool := match q with WClear _ => false | _ => true end.

Lemma gap_missed :
  is_archived <$> ar_devices (archive_pass utc_zone all_ok open_ctx engine None (at_time (t_now + hour))
    (set_status "online" (archive_pass utc_zone no_clear open_ctx engine None (at_time (t_now + 30 * minute)) (set_status "offline" first_pass))))
  = [false].
Proof. vm_compute. reflexivity. Qed.

(** An unknown device is reported as already archived, and a pin on it is
    accepted with an event. *)
Lemma unknown_device :
  (ArchiveDeviceManually all_ok 9 "" t_now came_back).2 = Some ErrAlreadyArchived
  ∧ (SetPin all_ok 9 PinForceActive t_now came_back).2 = None
  ∧ length (ar_events (SetPin all_ok 9 PinForceActive t_now came_back).1) = 1%nat.
Proof. vm_compute. done. Qed.

(** The overlay does not reach the learner. *)
Lemma overlay_ignores_smart :
  sm_Disabled (arc_Smart (effectiveCfg engine (Some (mkArchiveConfig 5 5 5 (mkArchiveSmart true 1 1))))) = false.
Proof. reflexivity. Qed.
