(* ===== verification/TaskRules.v ===== *)
(** The rules on scan tasks (src/internal/domain/scanner.go), the port list of
    the port probe (src/internal/service/scannerv2/probe/ports.go) and the
    scopes of callers (src/internal/domain/scope.go, src/internal/authz).

    Errors of a validation are their texts; [None] is the nil error.  Whether
    gocron accepts a cron expression, and whether it can build a scheduler to
    ask, are the parameters [cron_ok] and [gocron_err]. *)

From stdpp Require sorting.
From S2P Require Import Prelude NetAddr Cidr DeviceStore Json Attributes.

Open Scope Z_scope.

(** * Pipelines *)

Definition maxTargetIPs : Z := 4096.
Definition minTimeout : Z := 1.
Definition maxTimeout : Z := 600.
Definition minConcurrentHosts : Z := 1.
Definition maxConcurrentHosts : Z := 200.
Definition DefaultConcurrentHosts : Z := 16.

Record ICMPConfig := mkICMP { ic_Enabled : bool; ic_Timeout : Z }.
Record SNMPConfig := mkSNMP { sn_Enabled : bool; sn_Community : string }.
Record PortScanConfig := mkPortScan { ps_Enabled : bool; ps_Ports : string; ps_ScanType : string }.
Record PrometheusStageConfig := mkPromStage { pr_Enabled : bool; pr_Ports : string }.

(** [ServiceDetect] and [NodeExporter] have their [enabled] flag only. *)
Record PipelineConfig := mkPipeline {
  pc_ICMP : ICMPConfig;
  pc_SNMP : SNMPConfig;
  pc_PortScan : PortScanConfig;
  pc_ServiceDetect : bool;
  pc_Prometheus : PrometheusStageConfig;
  pc_NodeExporter : bool
}.

Definition zero_pipeline : PipelineConfig :=
  mkPipeline (mkICMP false 0) (mkSNMP false "") (mkPortScan false "" "") false (mkPromStage false "") false.

Definition DefaultPipelineConfig : PipelineConfig :=
  mkPipeline (mkICMP true 2) (mkSNMP true "public") (mkPortScan true "22,80,443,9100" "connect") true
    (mkPromStage true "9090,9100") true.

(** [json.Marshal] of a pipeline. *)
Definition pipeline_json (c : PipelineConfig) : json :=
  JObject [("icmp", JObject [("enabled", JBool (ic_Enabled (pc_ICMP c))); ("timeout", JNumber (itoa (ic_Timeout (pc_ICMP c))))]);
           ("snmp", JObject [("enabled", JBool (sn_Enabled (pc_SNMP c))); ("community", JString (sn_Community (pc_SNMP c)))]);
           ("port_scan", JObject [("enabled", JBool (ps_Enabled (pc_PortScan c))); ("ports", JString (ps_Ports (pc_PortScan c)));
                                  ("scan_type", JString (ps_ScanType (pc_PortScan c)))]);
           ("service_detect", JObject [("enabled", JBool (pc_ServiceDetect c))]);
           ("prometheus", JObject [("enabled", JBool (pr_Enabled (pc_Prometheus c))); ("ports", JString (pr_Ports (pc_Prometheus c)))]);
           ("node_exporter", JObject [("enabled", JBool (pc_NodeExporter c))])].

(** [json.Unmarshal] into a zero struct with its error ignored: a member of
    another type leaves its field alone.  Member names are matched exactly. *)
Definition kept_bool (k : string) (o : jobject) : bool := match jget k o with Some (JBool b) => b | _ => false end.
Definition kept_string (k : string) (o : jobject) : string := match jget k o with Some (JString s) => s | _ => "" end.
Definition kept_int (k : string) (o : jobject) : Z := match jget k o with Some (JNumber t) => default 0 (atoi t) | _ => 0 end.
Definition kept_object (k : string) (o : jobject) : jobject := match jget k o with Some (JObject o') => o' | _ => [] end.

Definition stored_pipeline (text : string) : PipelineConfig :=
  match unmarshal text with
  | Some (JObject o) =>
      let icmp := kept_object "icmp" o in
      let snmp := kept_object "snmp" o in
      let ports := kept_object "port_scan" o in
      let prom := kept_object "prometheus" o in
      mkPipeline (mkICMP (kept_bool "enabled" icmp) (kept_int "timeout" icmp))
        (mkSNMP (kept_bool "enabled" snmp) (kept_string "community" snmp))
        (mkPortScan (kept_bool "enabled" ports) (kept_string "ports" ports) (kept_string "scan_type" ports))
        (kept_bool "enabled" (kept_object "service_detect" o))
        (mkPromStage (kept_bool "enabled" prom) (kept_string "ports" prom))
        (kept_bool "enabled" (kept_object "node_exporter" o))
  | _ => zero_pipeline
  end.

(** * Port lists *)

Definition is_port (p : Z) : bool := (1 <=? p) && (p <=? 65535).

Definition validate_port_part (part : string) : option string :=
  if str_mem "-"%char part then
    match split_on "-"%char part with
    | [a; b] =>
        match atoi a with
        | None => Some ("invalid port: " +:+ a)
        | Some start =>
            if negb (is_port start) then Some ("invalid port: " +:+ a)
            else match atoi b with
                 | None => Some ("invalid port range: " +:+ part)
                 | Some end_ => if negb (is_port end_) || (end_ <? start) then Some ("invalid port range: " +:+ part) else None
                 end
        end
    | _ => Some ("invalid port range: " +:+ part)
    end
  else match atoi part with
       | None => Some ("invalid port: " +:+ part)
       | Some port => if is_port port then None else Some ("invalid port: " +:+ part)
       end.

Fixpoint validate_port_parts (parts : list string) : option string :=
  match parts with
  | [] => None
  | p :: ps =>
      let part := trim_space p in
      if is_empty part then validate_port_parts ps
      else match validate_port_part part with
           | Some e => Some e
           | None => validate_port_parts ps
           end
  end.

Definition validatePortList (ports : string) : option string := validate_port_parts (split_on ","%char ports).

Definition ValidatePortList (ports : string) : option string := validatePortList ports.

Inductive port_err := InvalidRange (part : string) | RangeTooLarge (part : string) | InvalidPort (part : string).

(** [parsePortSpec]: the ports of a part of the list; [strings.Index(part, "-") > 0]
    is a dash that is not the first byte. *)
Definition port_part (part : string) : result port_err (list Z) :=
  match cut_at "-"%char part with
  | Some (String c lo', hi) =>
      let bad := Err (InvalidRange part) in
      match atoi (String c lo'), atoi hi with
      | Some lo, Some hi =>
          if (lo <? 1) || (hi <? lo) || (65535 <? hi) then bad
          else if 10000 <? hi - lo then Err (RangeTooLarge part)
          else Ok (seqZ lo (hi - lo + 1))
      | _, _ => bad
      end
  | _ =>
      let bad := Err (InvalidPort part) in
      match atoi part with
      | Some p => if (p <? 1) || (65535 <? p) then bad else Ok [p]
      | None => bad
      end
  end.

(** The loop appends the ports it has not seen. *)
Definition add_ports (out new : list Z) : list Z :=
  fold_left (fun out p => if decide (p ∈ out) then out else out ++ [p]) new out.

Fixpoint port_parts (parts : list string) (out : list Z) : result port_err (list Z) :=
  match parts with
  | [] => Ok out
  | p :: ps =>
      let part := trim_space p in
      if is_empty part then port_parts ps out
      else let? new := port_part part in port_parts ps (add_ports out new)
  end.

Definition parsePortSpec (spec : string) : result port_err (list Z) :=
  let? out := port_parts (split_on ","%char spec) [] in Ok (sorting.merge_sort Z.le out).

(** Ports of the fingerprint list that the spec holds come first, each once. *)
Definition priorityPortList (spec : string) (fingerprintPorts : list Z) : result port_err (list Z) :=
  let? all := parsePortSpec spec in
  if decide (fingerprintPorts = []) then Ok all
  else
    let fpSet := filter (fun p => is_port p = true) fingerprintPorts in
    let first := add_ports [] (filter (fun p => p ∈ all) fingerprintPorts) in
    Ok (first ++ filter (fun p => p ∉ fpSet) all).

Definition ValidatePipelineConfig (c : PipelineConfig) : option string :=
  let stage (name : string) (enabled : bool) (ports : string) :=
    if enabled && negb (is_empty ports)
    then (fun e => name +:+ ": " +:+ e) <$> validatePortList ports else None in
  match stage "port_scan" (ps_Enabled (pc_PortScan c)) (ps_Ports (pc_PortScan c)) with
  | Some e => Some e
  | None =>
      match stage "prometheus" (pr_Enabled (pc_Prometheus c)) (pr_Ports (pc_Prometheus c)) with
      | Some e => Some e
      | None =>
          if negb (ic_Enabled (pc_ICMP c)) && negb (sn_Enabled (pc_SNMP c)) && negb (ps_Enabled (pc_PortScan c))
             && negb (pc_ServiceDetect c) && negb (pr_Enabled (pc_Prometheus c)) && negb (pc_NodeExporter c)
          then Some "at least one pipeline stage must be enabled" else None
      end
  end.

(** * Counting targets *)

Definition countIPRange (rangeStr : string) : result string Z :=
  match split_on "-"%char rangeStr with
  | [p0; p1] =>
      let start := trim_space p0 in
      let endStr := trim_space p1 in
      match ParseIP start with
      | None => Err ("invalid IP in range: " +:+ start)
      | Some startIP =>
          match To4 startIP with
          | None => Err ("invalid IPv4 address in range: " +:+ start)
          | Some startIP =>
              let? endIP :=
                match ParseIP endStr with
                | Some parsed =>
                    match To4 parsed with
                    | None => Err ("invalid IPv4 address in range end: " +:+ endStr)
                    | Some endIP => Ok endIP
                    end
                | None =>
                    match atoi endStr with
                    | None => Err ("invalid IP range end: " +:+ endStr)
                    | Some endOctet =>
                        if (endOctet <? 0) || (255 <? endOctet) then Err ("invalid IP range end: " +:+ endStr)
                        else Ok (<[3%nat := u8 endOctet]> startIP)
                    end
                end in
              let startUint := u32_of startIP in
              let endUint := u32_of endIP in
              if endUint <? startUint
              then Err ("invalid IP range: end IP is before start IP in " +:+ rangeStr)
              else Ok (u32 (endUint - startUint + 1))
          end
      end
  | _ => Err ("invalid IP range: " +:+ rangeStr)
  end.

(** The body of the loop of [countTargetIPs], after the trim and the
    empty-part guard. *)
Definition count_part (part : string) : result string Z :=
  if str_mem "/"%char part then
    match ParseCIDR part with
    | None => Err ("invalid CIDR: " +:+ part)
    | Some n =>
        let '(ones, bits) := MaskSize (net_Mask n) in
        if 32 <? bits then Err ("IPv6 not supported: " +:+ part) else Ok (Z.shiftl 1 (bits - ones))
    end
  else if str_mem "-"%char part then countIPRange part
  else match ParseIP part with
       | None => Err ("invalid IP: " +:+ part)
       | Some _ => Ok 1
       end.

Fixpoint count_parts (parts : list string) (total : Z) : result string Z :=
  match parts with
  | [] => Ok total
  | p :: ps =>
      let part := trim_space p in
      if is_empty part then count_parts ps total
      else
        let? count := count_part part in
        if maxTargetIPs <? total + count then Ok (total + count) else count_parts ps (total + count)
  end.

Definition countTargetIPs (targets : string) : result string Z := count_parts (split_on ","%char targets) 0.

(** * Requests *)

Record ScanTaskRequest := mkTaskRequest {
  rq_Name : string;
  rq_Targets : string;
  rq_CronExpr : string;
  rq_PipelineConfig : PipelineConfig;
  rq_GlobalLabels : string;
  rq_Timeout : Z;
  rq_ConcurrentHosts : Z;
  rq_CredentialID : Z
}.

Record UpdateScanTaskRequest := mkUpdateRequest {
  up_Name : option string;
  up_Targets : option string;
  up_CronExpr : option string;
  up_PipelineConfig : option PipelineConfig;
  up_GlobalLabels : option string;
  up_Timeout : option Z;
  up_ConcurrentHosts : option Z;
  up_Enabled : option bool;
  up_CredentialID : option Z
}.

Section validation.
Context (cron_ok : string → bool) (gocron_err : option string).

Definition validateCronExpr (expr : string) : option string :=
  match gocron_err with
  | Some e => Some ("failed to create scheduler: " +:+ e)
  | None => if cron_ok expr then None else Some ("invalid cron expression: " +:+ expr)
  end.

Definition ValidateScanTaskRequest (req : ScanTaskRequest) (allowReservedTargets : bool) : option string :=
  if is_empty (trim_space (rq_Name req)) then Some "name is required"
  else if is_empty (trim_space (rq_Targets req)) then Some "targets is required"
  else match countTargetIPs (rq_Targets req) with
       | Err e => Some ("targets: " +:+ e)
       | Ok totalIPs =>
           if maxTargetIPs <? totalIPs
           then Some ("targets: too many IPs (" +:+ itoa totalIPs +:+ "), maximum is " +:+ itoa maxTargetIPs)
           else match ValidateTargetsFor (rq_Targets req) allowReservedTargets with
           | Some e => Some ("targets: " +:+ err_text e)
           | None =>
               if is_empty (rq_CronExpr req) then Some "cron_expr is required"
               else match validateCronExpr (rq_CronExpr req) with
               | Some e => Some ("cron_expr: " +:+ e)
               | None =>
                   if (rq_Timeout req <? minTimeout) || (maxTimeout <? rq_Timeout req)
                   then Some "timeout must be between 1 and 600 seconds"
                   else if (rq_ConcurrentHosts req <? minConcurrentHosts) || (maxConcurrentHosts <? rq_ConcurrentHosts req)
                   then Some "concurrent_hosts must be between 1 and 200"
                   else (fun e => "pipeline_config: " +:+ e) <$> ValidatePipelineConfig (rq_PipelineConfig req)
               end
           end
       end.

End validation.
