(* ===== verification/TaskRulesSpec.v ===== *)
(** Theorems on the rules of scan tasks: a request that passes validation
    expands within its limit, an accepted port list is read by the port probe,
    and a stored pipeline reads back. *)

From stdpp Require sorting.
From S2P Require Import Prelude NetAddr Cidr CidrSpec DeviceStore Json JsonSpec Attributes AttributesSpec TaskRules.

Open Scope Z_scope.

(** * Trimming a list of parts *)

(** One encoded white space. *)
Definition space_word (w : string) : Prop := strip_space w = Some "".

Lemma strip_split s s' : strip_space s = Some s' → ∃ w, space_word w ∧ s = w +:+ s'.
Proof.
  unfold space_word. destruct s as [|a s1]; [done|]. simpl.
  destruct (bool_decide (ascii_Z a ∈ _)) eqn:E1.
  { intros [= <-]. exists (String a ""). simpl. by rewrite E1. }
  destruct s1 as [|b s2]; [done|].
  destruct ((ascii_Z a =? 194) && _) eqn:E2.
  { intros [= <-]. exists (String a (String b "")). simpl. by rewrite E1, E2. }
  destruct s2 as [|c s3]; [done|].
  match goal with |- context [if ?b then Some s3 else None] => destruct b eqn:E3 end; [|done]. intros [= <-].
  exists (String a (String b (String c ""))). simpl. by rewrite E1, E2, E3.
Qed.

Lemma strip_word w s : space_word w → strip_space (w +:+ s) = Some s.
Proof.
  unfold space_word. destruct w as [|a w]; [done|].
  change (String a w +:+ s) with (String a (w +:+ s)). cbn beta iota zeta. simpl.
  destruct (bool_decide (ascii_Z a ∈ _)). { by intros [= ->]. }
  destruct w as [|b w]; [done|]. change (String b w +:+ s) with (String b (w +:+ s)). cbn beta iota zeta.
  destruct ((ascii_Z a =? 194) && _); [by intros [= ->]|].
  destruct w as [|c w]; [done|]. change (String c w +:+ s) with (String c (w +:+ s)). cbn beta iota zeta.
  match goal with |- context [if ?b then Some (w +:+ s) else None] => destruct b end; [by intros [= ->]|done].
Qed.

(** The reversed form strips the same words. *)
Lemma strip_rev_split s s' : strip_space_rev s = Some s' → ∃ w, space_word w ∧ s = String.rev w +:+ s'.
Proof.
  unfold space_word. destruct s as [|a s1]; [done|]. simpl.
  destruct (bool_decide (ascii_Z a ∈ _)) eqn:E1.
  { intros [= <-]. exists (String a ""). simpl. by rewrite E1. }
  destruct s1 as [|b s2]; [done|].
  destruct ((ascii_Z b =? 194) && _) eqn:E2.
  { intros [= <-]. exists (String b (String a "")). split; [|done]. simpl.
    apply andb_true_iff in E2 as [Eb%Z.eqb_eq Ea]. by rewrite Eb, Ea. }
  destruct s2 as [|c s3]; [done|].
  match goal with |- context [if ?b then Some s3 else None] => destruct b eqn:E3 end; [|done]. intros [= <-].
  exists (String c (String b (String a ""))). split; [|done]. simpl.
  rewrite E3. rewrite bool_decide_false by (intros Hc; rewrite !list_elem_of_In in Hc; simpl in Hc; lia).
  destruct ((ascii_Z c =? 194) && _) eqn:E4; [lia|done].
Qed.

Lemma strip_rev_word w s : space_word w → strip_space_rev (String.rev w +:+ s) = Some s.
Proof.
  unfold space_word. intros H. destruct w as [|a w]; [done|]. simpl in H.
  destruct (bool_decide (ascii_Z a ∈ _)) eqn:E1.
  { injection H as ->. simpl. by rewrite E1. }
  destruct w as [|b w]; [done|].
  destruct ((ascii_Z a =? 194) && _) eqn:E2.
  { injection H as ->. simpl. apply andb_true_iff in E2 as [Ea%Z.eqb_eq Eb].
    rewrite bool_decide_false by (intros Hc; rewrite !list_elem_of_In in Hc; simpl in Hc; lia). by rewrite Ea, Eb. }
  destruct w as [|c w]; [done|].
  match goal with _ : context [if ?b then Some w else None] |- _ => destruct b eqn:E3 end; [|done]. injection H as ->. simpl.
  rewrite bool_decide_false by (intros Hc; rewrite !list_elem_of_In in Hc; simpl in Hc; lia).
  destruct ((ascii_Z b =? 194) && _) eqn:E4; [lia|]. by rewrite E3.
Qed.

(** Words start with a byte that continues no encoding. *)
Lemma strip_app_word s w : strip_space s = None → s ≠ "" → space_word w → strip_space (s +:+ w) = None.
Proof.
  unfold space_word. intros H Hs Hw. destruct w as [|x w]; [done|].
  assert (ascii_Z x < 128 ∨ 194 ≤ ascii_Z x) as Hx.
  { simpl in Hw. destruct (bool_decide (ascii_Z x ∈ _)) eqn:E1.
    { apply bool_decide_eq_true in E1. rewrite !list_elem_of_In in E1. simpl in E1. lia. }
    destruct w as [|y w]; [done|]. destruct ((ascii_Z x =? 194) && _) eqn:E2; [lia|].
    destruct w as [|z w]; [done|].
    match goal with _ : context [if ?b then Some w else None] |- _ => destruct b eqn:E3 end; [lia|done]. }
  destruct s as [|a s]; [done|]. change (String a s +:+ String x w) with (String a (s +:+ String x w)). cbn beta iota zeta. simpl in *.
  destruct (bool_decide (ascii_Z a ∈ _)); [done|].
  destruct s as [|b s].
  { simpl. destruct ((ascii_Z a =? 194) && _) eqn:E2; [lia|]. destruct w as [|y w]; [done|].
    match goal with |- context [if ?b then Some w else None] => destruct b eqn:E3 end; [lia|done]. }
  change (String b s +:+ String x w) with (String b (s +:+ String x w)). cbn beta iota zeta.
  destruct ((ascii_Z a =? 194) && _); [done|].
  destruct s as [|c s].
  { simpl. match goal with |- context [if ?b then Some w else None] => destruct b eqn:E3 end; [lia|done]. }
  change (String c s +:+ String x w) with (String c (s +:+ String x w)). cbn beta iota zeta.
  match goal with |- context [if ?b then Some (s +:+ String x w) else None] => destruct b end; done.
Qed.

Lemma trim_loop_fuel f n m s :
  strips f → (String.length s ≤ n)%nat → (String.length s ≤ m)%nat → f "" = None → trim_loop f n s = trim_loop f m s.
Proof.
  intros Hf. revert m s. induction n as [|n IH]; intros m s Hn Hm H0.
  { destruct s; [|simpl in Hn; lia]. by rewrite (trim_loop_fixed f m). }
  destruct m as [|m]; [destruct s; [by rewrite (trim_loop_fixed f (S n))|simpl in Hm; lia]|].
  simpl. destruct (f s) as [s'|] eqn:E; [|done]. destruct (Hf _ _ E) as (_ & _ & Hl). apply IH; (done || lia).
Qed.

Definition trim_left (s : string) : string := trim_loop strip_space (String.length s) s.
Definition trim_right (s : string) : string :=
  String.rev (trim_loop strip_space_rev (String.length s) (String.rev s)).

Lemma trim_space_eq s : trim_space s = trim_right (trim_left s).
Proof. done. Qed.

Lemma trim_left_word w s : space_word w → trim_left (w +:+ s) = trim_left s.
Proof.
  intros Hw. unfold trim_left. pose proof (strip_word w s Hw) as E.
  destruct (strip_space_strips _ _ E) as (_ & _ & Hl).
  destruct (String.length (w +:+ s)) as [|n] eqn:En; [lia|]. simpl. rewrite E.
  apply trim_loop_fuel; [apply strip_space_strips|lia|lia|done].
Qed.

Lemma trim_right_word w s : space_word w → trim_right (s +:+ w) = trim_right s.
Proof.
  intros Hw. unfold trim_right. f_equal. rewrite string_rev_app.
  pose proof (strip_rev_word w (String.rev s) Hw) as E.
  destruct (strip_space_rev_strips _ _ E) as (_ & _ & Hl).
  rewrite <- (string_rev_length (s +:+ w)), string_rev_app, <- (string_rev_length s).
  destruct (String.length (String.rev w +:+ String.rev s)) as [|n] eqn:En; [lia|]. simpl. rewrite E.
  apply trim_loop_fuel; [apply strip_space_rev_strips|lia|lia|done].
Qed.

Lemma trim_left_nil : trim_left "" = "".
Proof. done. Qed.

(** A word at the end survives the left trim, or all of it is white space. *)
Lemma trim_left_app_word s w : space_word w → trim_left (s +:+ w) = trim_left s +:+ w ∨ (trim_left s = "" ∧ trim_left (s +:+ w) = "").
Proof.
  intros Hw. remember (String.length s) as n eqn:En. revert s En. induction n as [n IH] using lt_wf_ind. intros s ->.
  destruct (strip_space s) as [s'|] eqn:E.
  - destruct (strip_split _ _ E) as (v & Hv & ->).
    rewrite string_app_assoc, (trim_left_word v (s' +:+ w)), (trim_left_word v s') by done.
    apply (IH (String.length s')); [|done]. destruct (strip_space_strips _ _ E) as (_ & _ & Hl). done.
  - destruct s as [|a s].
    + right. split; [done|]. change ("" +:+ w) with w. rewrite <- (string_app_nil_r w), trim_left_word by done. done.
    + left. unfold trim_left. rewrite (trim_loop_fixed _ _ (String a s)) by done.
      rewrite trim_loop_fixed; [done|]. by apply strip_app_word.
Qed.

Lemma trim_word_l w s : space_word w → trim_space (w +:+ s) = trim_space s.
Proof. intros Hw. by rewrite !trim_space_eq, trim_left_word. Qed.

Lemma trim_word_r w s : space_word w → trim_space (s +:+ w) = trim_space s.
Proof.
  intros Hw. rewrite !trim_space_eq. destruct (trim_left_app_word s w Hw) as [->|[-> ->]]; [|done].
  by apply trim_right_word.
Qed.

(** A separator that is no byte of a white space. *)
Definition plain_sep (c : ascii) : Prop := ascii_Z c < 128 ∧ ascii_Z c ∉ [9; 10; 11; 12; 13; 32].

Lemma word_no_sep c w : plain_sep c → space_word w → str_mem c w = false.
Proof.
  intros [Hc Hn] Hw. unfold space_word in Hw. destruct w as [|a w]; [done|]. simpl in Hw.
  assert (∀ x, (ascii_Z x ∈ [9; 10; 11; 12; 13; 32] ∨ 128 ≤ ascii_Z x) → char_eqb x c = false) as Hne.
  { intros x Hx. unfold char_eqb. apply bool_decide_eq_false. intros ->. destruct Hx; [done|lia]. }
  destruct (bool_decide (ascii_Z a ∈ _)) eqn:E1.
  { injection Hw as ->. simpl. apply bool_decide_eq_true in E1. rewrite Hne by auto. done. }
  destruct w as [|b w]; [done|]. destruct ((ascii_Z a =? 194) && _) eqn:E2.
  { injection Hw as ->. simpl. rewrite !Hne by (right; lia). done. }
  destruct w as [|d w]; [done|].
  match goal with _ : context [if ?b then Some w else None] |- _ => destruct b eqn:E3 end; [|done].
  injection Hw as ->. simpl. rewrite !Hne by (right; lia). done.
Qed.

Lemma split_on_nonempty c s : ∃ h t, split_on c s = h :: t.
Proof. destruct s as [|a s]; simpl; [by eexists _, _|]. repeat case_match; by eexists _, _. Qed.

Lemma split_app_l c w s h t : str_mem c w = false → split_on c s = h :: t → split_on c (w +:+ s) = (w +:+ h) :: t.
Proof.
  intros Hw E. induction w as [|a w IH]; [done|]. simpl in Hw. apply orb_false_iff in Hw as [Ha Hw].
  change (String a w +:+ s) with (String a (w +:+ s)). simpl. rewrite Ha, IH by done. done.
Qed.

Lemma split_app_r c w s : str_mem c w = false →
  ∃ i l, split_on c s = i ++ [l] ∧ split_on c (s +:+ w) = i ++ [l +:+ w].
Proof.
  intros Hw. induction s as [|a s (i & l & E1 & E2)].
  { exists [], "". split; [done|]. by apply split_on_no_sep. }
  change (String a s +:+ w) with (String a (s +:+ w)). simpl. rewrite E1, E2.
  destruct (char_eqb a c); [by exists ("" :: i), l|].
  destruct i as [|x i]; simpl; [by exists [], (String a l)|by exists (String a x :: i), l].
Qed.

(** The parts of the trimmed text and of the text are the same once trimmed. *)
Lemma trim_parts c s : plain_sep c → trim_space <$> split_on c (trim_space s) = trim_space <$> split_on c s.
Proof.
  intros Hc. rewrite trim_space_eq. transitivity (trim_space <$> split_on c (trim_left s)).
  - unfold trim_right. generalize (String.length (trim_left s)). intros n. generalize (trim_left s). clear s.
    induction n as [|n IH]; intros s; simpl; [by rewrite string_rev_involutive|].
    destruct (strip_space_rev (String.rev s)) as [r|] eqn:E; [|by rewrite string_rev_involutive].
    destruct (strip_rev_split _ _ E) as (w & Hw & Hr). apply (f_equal String.rev) in Hr.
    rewrite string_rev_involutive, string_rev_app, string_rev_involutive in Hr. subst s.
    rewrite <- (string_rev_involutive r) at 1. rewrite IH.
    destruct (split_app_r c w (String.rev r) (word_no_sep c w Hc Hw)) as (i & l & -> & ->).
    rewrite !fmap_app. simpl. by rewrite trim_word_r.
  - unfold trim_left. generalize (String.length s). intros n. revert s.
    induction n as [|n IH]; intros s; simpl; [done|].
    destruct (strip_space s) as [r|] eqn:E; [|done].
    destruct (strip_split _ _ E) as (w & Hw & ->). rewrite IH.
    destruct (split_on_nonempty c r) as (h & t & Es).
    rewrite (split_app_l c w r h t), Es by (done || by apply word_no_sep). simpl. by rewrite trim_word_l.
Qed.

(** * An address has no dash *)

Lemma parse_group_dash s off acc o a rest : parse_group s off acc = Some (o, a, rest) → str_mem "-" s = str_mem "-" rest.
Proof.
  revert off acc. induction s as [|c s IH]; intros off acc; cbn [parse_group str_mem]; [intros; by simplify_eq|].
  destruct (NetAddr.hex_digit c) as [d|] eqn:E; [|intros; by simplify_eq].
  cbv zeta. destruct (3 <? off)%nat; [done|]. destruct (65535 <? _); [done|]. intros H%IH. rewrite H.
  assert (char_eqb c "-" = false) as ->; [|done]. unfold char_eqb. apply bool_decide_eq_false. by intros ->.
Qed.

Lemma parseIPv4Fields_dash s fields val n dot a : parseIPv4Fields s fields val n dot = Some a → str_mem "-" s = false.
Proof.
  revert fields val n dot. induction s as [|c s IH]; intros fields val n dot; simpl; [done|].
  unfold char_eqb at 2. intros H. repeat case_match; try done; apply IH in H; rewrite H, orb_false_r;
    apply bool_decide_eq_false; intros ->; done.
Qed.

Lemma char_no_dash c d : char_eqb c d = true → char_eqb d "-" = false → char_eqb c "-" = false.
Proof. unfold char_eqb. intros ->%bool_decide_eq_true. done. Qed.

Lemma parseIPv6_loop_dash fuel s out ell o e : parseIPv6_loop fuel s out ell = Some (o, e, "") → str_mem "-" s = false.
Proof.
  revert s out ell. induction fuel as [|fuel IH]; intros s out ell; cbn [parseIPv6_loop]; [intros; by simplify_eq|].
  destruct (parse_group s 0 0) as [[[off acc] rest]|] eqn:G; [|done].
  destruct (off =? 0)%nat; [done|]. rewrite (parse_group_dash _ _ _ _ _ _ G).
  destruct rest as [|c rest]; [done|]. destruct (char_eqb c ".") eqn:Ec.
  { intros H. repeat case_match; try done. rewrite <- (parse_group_dash _ _ _ _ _ _ G). by eapply parseIPv4Fields_dash. }
  cbv zeta. destruct (char_eqb c ":") eqn:Ec2; [|done]. cbn [negb str_mem].
  rewrite (char_no_dash _ _ Ec2) by done. destruct rest as [|c2 rest2]; [done|].
  destruct (char_eqb c2 ":") eqn:E2; [|by apply IH]. cbn [str_mem]. rewrite (char_no_dash _ _ E2) by done.
  destruct ell; [done|]. destruct rest2 as [|c3 rest3]; [done|]. by apply IH.
Qed.

Lemma parseIPv6_finish_nil r a : parseIPv6_finish r = Some a → ∃ o e, r = (o, e, "").
Proof. destruct r as [[o e] [|]]; [by eexists _, _|done]. Qed.

Lemma ParseIP_dash s a : ParseIP s = Some a → str_mem "-" s = false.
Proof.
  unfold ParseIP. intros (b & H & _)%fmap_Some. unfold ParseAddr in H. destruct (addr_kind_of s); [| |done].
  - by eapply parseIPv4Fields_dash.
  - destruct (str_mem "%" s); [done|]. unfold parseIPv6 in H.
    destruct s as [|x [|y s]]; [by apply bind_Some in H as (r & H & (? & ? & ->)%parseIPv6_finish_nil); apply parseIPv6_loop_dash in H..|].
    destruct (char_eqb x ":" && char_eqb y ":") eqn:E.
    + apply andb_true_iff in E as [Ex Ey]. cbn [str_mem].
      rewrite (char_no_dash _ _ Ex), (char_no_dash _ _ Ey) by done. destruct s as [|z s]; [done|].
      apply bind_Some in H as (r & H & (? & ? & ->)%parseIPv6_finish_nil). by apply parseIPv6_loop_dash in H.
    + apply bind_Some in H as (r & H & (? & ? & ->)%parseIPv6_finish_nil). by apply parseIPv6_loop_dash in H.
Qed.

(** * Counting and expanding *)

Lemma cut_at_None c s : str_mem c s = false → cut_at c s = None.
Proof.
  induction s as [|a s IH]; simpl; [done|]. intros [Ha Hs]%orb_false_iff. by rewrite Ha, IH.
Qed.

Lemma split_cut c s a b : split_on c s = [a; b] → cut_at c s = Some (a, b).
Proof.
  revert a. induction s as [|x s IH]; intros a; simpl; [done|]. destruct (char_eqb x c) eqn:Ex.
  - intros [= <- E]. destruct s as [|y s]; [by injection E as <-|].
    assert (str_mem c (String y s) = false ∧ b = String y s) as [_ ->]; [|done].
    clear -E. revert b E. generalize (String y s). clear. intros t b E. revert b E. induction t as [|z t IH]; intros b; simpl; [by intros [= <-]|].
    destruct (char_eqb z c) eqn:Ez; [by destruct (split_on_nonempty c t) as (h & k & ->)|].
    destruct (split_on c t) as [|h [|]] eqn:Et; [by destruct (split_on_nonempty c t) as (? & ? & ?); congruence| |done].
    intros [= <-]. destruct (IH h eq_refl) as [-> ->]. done.
  - destruct (split_on c s) as [|h t] eqn:Et; [done|]. intros [= <- ->]. by rewrite (IH h).
Qed.

(** A block within the limit is an IPv4 block. *)
Lemma ParseCIDR_bits part N ones bits :
  ParseCIDR part = Some N → MaskSize (net_Mask N) = (ones, bits) → bits ≤ 32 →
  ∃ base n, N = net4 base n ∧ ip_wf base ∧ length base = 4%nat ∧ 0 ≤ n ≤ 32
            ∧ be_val base = trunc (32 - n) (be_val base) ∧ ones = n ∧ bits = 32.
Proof.
  intros HN Hm Hb. assert (length (net_IP N) = 4%nat) as H4.
  { unfold ParseCIDR in HN. destruct (cut_at _ part) as [[addr mask]|]; [|done].
    destruct (ParseAddr addr) as [a|] eqn:A; [|done]. destruct (dtoi mask) as [[n i]|] eqn:D; [|done].
    destruct (negb _ || _) eqn:B; [done|]. apply orb_false_iff in B as [_ B%Z.ltb_ge].
    apply ParseAddr_wf in A as [Hw Hl]. assert (0 ≤ n) as Hn by (by eapply dtoi_nonneg).
    destruct Hl as [Hl|Hl]; rewrite Hl in *.
    - rewrite IPMask_v4 in HN by done. apply (inj Some) in HN. subst N. cbn [net_IP]. unfold and_bytes.
      by rewrite length_zip_with, CIDRMask_length, Hl.
    - destruct (IPMask _ _); [|done]. apply (inj Some) in HN. subst N. cbn [net_Mask] in Hm.
      rewrite MaskSize_CIDRMask in Hm by lia. injection Hm as _ <-. lia. }
  destruct (ParseCIDR_v4 _ _ HN H4) as (base & n & -> & ? & ? & ? & ?). exists base, n.
  cbn [net4 net_Mask] in Hm. rewrite MaskSize_CIDRMask in Hm by lia. injection Hm as <- <-. done.
Qed.

Lemma hosts4_length v n : 20 ≤ n ≤ 32 → (1 ≤ length (hosts4 v n))%nat ∧ Z.of_nat (length (hosts4 v n)) ≤ 2 ^ (32 - n).
Proof.
  intros Hn. assert (n ∈ seqZ 20 13) as Hin by (apply elem_of_seqZ; lia).
  unfold hosts4. destruct (Z.eqb_spec n 32) as [->|]; [simpl; lia|]. destruct (Z.eqb_spec n 31) as [->|]; [simpl; lia|].
  rewrite length_seqZ. assert (4 ≤ 2 ^ (32 - n)) by (apply (Z.pow_le_mono_r 2 2); lia). lia.
Qed.

(** What counts [c] addresses expands to between one and [c] of them, unless the
    range spans the whole address space, whose count wraps to zero. *)
Lemma countIPRange_bounds part c : countIPRange part = Ok c →
  ∃ a b, rangeBounds part = Ok (a, b) ∧ c = u32 (be_val b - be_val a + 1).
Proof.
  unfold countIPRange. destruct (split_on "-" part) as [|p0 [|p1 [|]]] eqn:Es; try done.
  apply split_cut in Es. unfold rangeBounds. rewrite Es. cbv zeta.
  destruct (ParseIP (trim_space p0)) as [st|] eqn:P; [|done].
  destruct (To4 st) as [st4|] eqn:T; [|done].
  apply ParseIP_wf in P as [Wst _]. destruct (To4_wf _ _ Wst T) as [W4 L4].
  intros (e4 & He & H)%rbind_ok.
  assert (ip_wf e4 ∧ length e4 = 4%nat ∧
    (match ParseIP (trim_space p1) with
     | Some e => Ok (To4 e)
     | None => match atoi (trim_space p1) with
               | Some n => if (n <? 0) || (255 <? n) then Err (ErrInvalidIPRange ("invalid range end " +:+ trim_space p1))
                           else Ok (Some (<[3%nat:=u8 n]> st4))
               | None => Err (ErrInvalidIPRange ("invalid range end " +:+ trim_space p1))
               end
     end : result cidr_err (option ip)) = Ok (Some e4)) as (We & Le & ->).
  { destruct (ParseIP (trim_space p1)) as [e|] eqn:P1.
    - apply ParseIP_wf in P1 as [Wp _]. destruct (To4 e) as [x|] eqn:Te; [|done]. injection He as ->.
      destruct (To4_wf _ _ Wp Te). done.
    - destruct (atoi (trim_space p1)) as [n|]; [|done]. destruct ((n <? 0) || (255 <? n)); [done|].
      injection He as <-. split_and!; [|by rewrite length_insert|done]. apply Forall_insert; [done|apply u8_range]. }
  cbn [rbind]. rewrite !u32_of_be_val in * by done.
  destruct (be_val e4 <? be_val st4); [done|]. injection H as <-. by exists st4, e4.
Qed.

Lemma count_part_expands fuel part allow c :
  count_part part = Ok c → c ≤ maxTargetIPs → validate_part part allow = None → (4096 < fuel)%nat →
  (∃ ips, expandSingle fuel part allow = Some (Ok ips) ∧ (1 ≤ length ips)%nat ∧ Z.of_nat (length ips) ≤ c)
  ∨ (0 ≤ c ∧ allow = true ∧ ∃ d, expandSingle fuel part allow = Some (Err (ErrTargetRangeTooLarge d))).
Proof.
  unfold count_part, maxTargetIPs. intros Hc Hle HV Hf. unfold expandSingle. unfold validate_part in HV.
  destruct (str_mem "/" part) eqn:Esl.
  { left. destruct (ParseCIDR part) as [N|] eqn:EN; [|done].
    destruct (MaskSize (net_Mask N)) as [ones bits] eqn:Em.
    destruct (Z.ltb_spec 32 bits); [done|]. injection Hc as <-.
    destruct (ParseCIDR_bits _ _ _ _ EN Em) as (base & n & -> & Hw & Hl & Hn & Hal & -> & ->); [done|].
    rewrite Z.shiftl_mul_pow2, Z.mul_1_l in Hle |- * by lia.
    assert (20 ≤ n). { destruct (Z.le_gt_cases 20 n); [done|]. assert (2 ^ 13 ≤ 2 ^ (32 - n)) by (apply Z.pow_le_mono_r; lia). lia. }
    destruct (hosts4_length (be_val base) n) as [L1 L2]; [lia|].
    exists (show4 <$> hosts4 (be_val base) n). rewrite length_fmap. split; [|done].
    rewrite enumerateCIDR_net4 by (done || lia). by destruct allow; [|rewrite HV]. }
  assert (ParseCIDR part = None) as EC by (unfold ParseCIDR; by rewrite cut_at_None).
  rewrite EC in *. destruct (str_mem "-" part) eqn:Ed.
  - destruct (ParseIP part) as [x|] eqn:EP; [apply ParseIP_dash in EP; congruence|].
    destruct (countIPRange_bounds _ _ Hc) as (a & b & EB & ->). rewrite EB in *.
    destruct (rangeBounds_wf _ _ _ EB) as (Wa & La & Wb & Lb & Hab).
    pose proof (be_val_range a Wa) as Ra. pose proof (be_val_range b Wb) as Rb.
    rewrite La in Ra. rewrite Lb in Rb. change (8 * Z.of_nat 4) with 32 in *.
    assert ((if allow then None else checkReserved part (Some a) (Some b)) = None) as Echk by (by destruct allow).
    rewrite Echk, enumerateRange_ok by done. cbv zeta.
    destruct (decide (be_val b - be_val a + 1 = 2 ^ 32)) as [E|E].
    + right. unfold u32. rewrite E. split; [done|]. destruct allow.
      * split; [done|]. by eexists.
      * apply checkReserved_None in HV as [H1 _]. apply reservedClass_4 in H1; [|done..].
        destruct H1. unfold reserved_val. lia.
    + left. unfold u32 in *. rewrite Z.mod_small in * by lia. unfold maxRangeIPs.
      destruct (Z.ltb_spec 65536 (be_val b - be_val a + 1)); [lia|].
      eexists. split; [done|]. rewrite length_fmap, length_seqZ. lia.
  - destruct (ParseIP part) as [x|] eqn:EP; [|done]. injection Hc as <-. left. cbv zeta in HV.
    destruct (negb allow && _); [done|]. by exists [ip_string x].
Qed.

Definition blank (p : string) : Prop := trim_space p = "".

Lemma empty_text_iff s : is_empty s = true ↔ s = "".
Proof. by destruct s. Qed.

Lemma count_parts_expands fuel parts allow total n :
  count_parts parts total = Ok n → n ≤ maxTargetIPs → 0 ≤ total → validate_parts parts allow = None → (4096 < fuel)%nat →
  (∃ ips, expand_parts fuel parts allow = Some (Ok ips) ∧ total + Z.of_nat (length ips) ≤ n ∧ (ips = [] → Forall blank parts))
  ∨ (allow = true ∧ ∃ d, expand_parts fuel parts allow = Some (Err (ErrTargetRangeTooLarge d))).
Proof.
  intros Hc Hn Ht HV Hf. revert total Hc Ht HV. induction parts as [|p ps IH]; intros total; simpl.
  { intros [= ->] _ _. left. exists []. simpl. split_and!; [done|lia|constructor]. }
  destruct (is_empty (trim_space p)) eqn:Ee.
  { intros Hc Ht HV. destruct (IH _ Hc Ht HV) as [(ips & ? & ? & Hb)|?]; [left|by right].
    exists ips. split_and!; [done..|]. intros E. constructor; [by apply empty_text_iff|by apply Hb]. }
  intros (c & Hp & Hc)%rbind_ok Ht HV.
  destruct (Z.ltb_spec maxTargetIPs (total + c)); [injection Hc as <-; lia|].
  destruct (validate_part (trim_space p) allow) eqn:EV; [done|].
  destruct (count_part_expands fuel _ allow _ Hp ltac:(lia) EV Hf) as [(l & El & L1 & L2)|(Hc0 & -> & d & El)]; rewrite El.
  - destruct (IH _ Hc ltac:(lia) HV) as [(ips & Ei & L & _)|(-> & d & Ei)]; rewrite Ei; cbn [fmap option_fmap option_map rbind].
    + left. exists (l ++ ips). rewrite length_app. split_and!; [done|lia|]. intros E. destruct l; [simpl in L1; lia|done].
    + right. by eauto.
  - right. by eauto.
Qed.

(** Both loops see the trimmed parts only. *)
Lemma count_parts_trim parts parts' total :
  trim_space <$> parts = trim_space <$> parts' → count_parts parts total = count_parts parts' total.
Proof.
  revert parts' total. induction parts as [|p ps IH]; intros [|p' ps'] total; try done. simpl. intros [= Hp Hps].
  rewrite Hp. destruct (is_empty (trim_space p')); [by apply IH|]. destruct (count_part (trim_space p')) as [c|]; [|done]. simpl.
  destruct (maxTargetIPs <? total + c); [done|]. by apply IH.
Qed.

Lemma Forall_blank_trim parts parts' :
  trim_space <$> parts = trim_space <$> parts' → Forall blank parts → Forall blank parts'.
Proof.
  revert parts'. induction parts as [|p ps IH]; intros [|p' ps']; try done. simpl. intros [= Hp Hps] HF.
  inversion HF as [|? ? H1 H2]; subst. constructor; [unfold blank in *; congruence|by apply IH].
Qed.

Lemma comma_sep : plain_sep ","%char.
Proof. split; [vm_compute; done|]. by refine (bool_decide_unpack _ _). Qed.

Section accepted.
Context (cron_ok : string → bool) (gocron_err : option string).

(** C17.  The targets of a request that passes validation expand, with room for
    4097 steps, to at least one and at most 4096 addresses.  The exceptions are
    a list of blanks only, which every run rejects as no valid target, and,
    under the reserved-targets escape hatch, a range that the expansion finds
    too large. *)
Theorem accepted_expands req allow fuel
    (H : ValidateScanTaskRequest cron_ok gocron_err req allow = None) (Hf : (4096 < fuel)%nat) :
  (∃ ips, ExpandTargetsFor fuel (rq_Targets req) allow = Some (Ok ips) ∧ (1 ≤ length ips ≤ 4096)%nat)
  ∨ (ExpandTargetsFor fuel (rq_Targets req) allow = Some (Err ErrNoValidTargets) ∧ Forall blank (split_on "," (rq_Targets req)))
  ∨ (allow = true ∧ ∃ d, ExpandTargetsFor fuel (rq_Targets req) allow = Some (Err (ErrTargetRangeTooLarge d))).
Proof.
  unfold ValidateScanTaskRequest in H. set (t := rq_Targets req) in *. clearbody t.
  destruct (is_empty (trim_space (rq_Name req))); [done|].
  destruct (is_empty (trim_space t)) eqn:Ee; [done|].
  destruct (countTargetIPs t) as [n|] eqn:Ec; [|done]. destruct (Z.ltb_spec maxTargetIPs n) as [|Hn]; [done|].
  destruct (ValidateTargetsFor t allow) eqn:EV; [done|]. clear H.
  unfold countTargetIPs in Ec. rewrite <- (count_parts_trim (split_on "," (trim_space t))) in Ec by (apply trim_parts, comma_sep).
  unfold ValidateTargetsFor in EV. cbv zeta in EV. rewrite Ee in EV.
  unfold ExpandTargetsFor. cbv zeta. rewrite Ee. unfold maxTargetIPs in Hn.
  destruct (count_parts_expands fuel _ allow _ _ Ec Hn ltac:(lia) EV Hf) as [(ips & Ei & L & Hb)|(-> & d & Ei)].
  - destruct (str_mem "," (trim_space t)) eqn:Em.
    + rewrite Ei. cbn [fmap option_fmap option_map rbind]. destruct ips as [|x ips].
      * right. left. split; [done|]. eapply Forall_blank_trim; [apply trim_parts, comma_sep|by apply Hb].
      * left. eexists. split; [done|]. simpl in L |- *. lia.
    + rewrite split_on_no_sep in Ei, Hb by done. simpl in Ei. rewrite trim_space_idemp, Ee in Ei.
      destruct (expandSingle fuel (trim_space t) allow) as [[l|]|]; [|done..]. simpl in Ei. rewrite app_nil_r in Ei.
      injection Ei as <-. left. exists l. split; [done|]. split; [|lia].
      destruct l; [|simpl; lia]. specialize (Hb eq_refl). apply Forall_inv in Hb. unfold blank in Hb.
      rewrite trim_space_idemp in Hb. apply empty_text_iff in Hb. congruence.
  - right. right. split; [done|]. destruct (str_mem "," (trim_space t)) eqn:Em.
    + rewrite Ei. by exists d.
    + rewrite split_on_no_sep in Ei by done. simpl in Ei. rewrite trim_space_idemp, Ee in Ei.
      destruct (expandSingle fuel (trim_space t) true) as [[l|e]|]; [done| |done]. injection Ei as ->. by exists d.
Qed.

End accepted.

Definition sample_request : ScanTaskRequest :=
  mkTaskRequest "office" " 10.1.2.0/30 , ,10.1.3.7-9" "0 3 * * *" DefaultPipelineConfig "{}" 30 16 0.

Lemma accepted_expands_witness :
  (∃ ips, ExpandTargetsFor 5000 (rq_Targets sample_request) false = Some (Ok ips) ∧ (1 ≤ length ips ≤ 4096)%nat)
  ∨ (ExpandTargetsFor 5000 (rq_Targets sample_request) false = Some (Err ErrNoValidTargets)
     ∧ Forall blank (split_on "," (rq_Targets sample_request)))
  ∨ (false = true ∧ ∃ d, ExpandTargetsFor 5000 (rq_Targets sample_request) false = Some (Err (ErrTargetRangeTooLarge d))).
Proof.
  apply (accepted_expands (fun e => bool_decide (e = "0 3 * * *")) None); [vm_compute; reflexivity|].
  apply Nat.ltb_lt. vm_compute. reflexivity.
Defined.

(** A list of separators passes validation, and every run of the task fails. *)
Lemma blank_targets_accepted :
  ValidateScanTaskRequest (fun _ => true) None
    (mkTaskRequest "office" "," "0 3 * * *" DefaultPipelineConfig "{}" 30 16 0) false = None
  ∧ ExpandTargets 5000 "," = Some (Err ErrNoValidTargets).
Proof. by vm_compute. Qed.

(** The count of the whole address space wraps to zero. *)
Lemma full_range_counts_zero : countIPRange "0.0.0.0-255.255.255.255" = Ok 0.
Proof. by vm_compute. Qed.

(** * Port lists *)

Lemma digits_no_dash s acc v : digits_val s acc = Some v → str_mem "-" s = false.
Proof.
  revert acc. induction s as [|c s IH]; intros acc; cbn [digits_val str_mem]; [done|].
  destruct (is_digit c) eqn:Ec; [|done]. intros H%IH. rewrite H, orb_false_r.
  unfold char_eqb. apply bool_decide_eq_false. by intros ->.
Qed.

Lemma digits_nonneg s acc v : 0 ≤ acc → digits_val s acc = Some v → 0 ≤ v.
Proof.
  revert acc. induction s as [|c s IH]; intros acc Ha; cbn [digits_val]; [by intros [= <-]|].
  destruct (is_digit c) eqn:Ec; [|done]. apply IH. unfold is_digit in Ec. lia.
Qed.

(** A positive number has no dash. *)
Lemma atoi_no_dash s v : atoi s = Some v → 1 ≤ v → str_mem "-" s = false.
Proof.
  unfold atoi. destruct s as [|c s]; [done|]. destruct (char_eqb c "-") eqn:Ec.
  - destruct s as [|d s]; [done|]. destruct (digits_val (String d s) 0) as [n|] eqn:Ed; [|done].
    apply digits_nonneg in Ed; [|done]. cbv zeta. destruct (_ && _); [|done]. intros [= <-]. lia.
  - destruct (char_eqb c "+") eqn:Ep.
    + destruct s as [|d s]; [done|]. destruct (digits_val (String d s) 0) as [n|] eqn:Ed; [|done].
      intros _ _.
      apply digits_no_dash in Ed. change (char_eqb c "-" || str_mem "-" (String d s) = false). by rewrite Ec, Ed.
    + destruct (digits_val (String c s) 0) as [n|] eqn:Ed; [|done]. intros _ _. by eapply digits_no_dash.
Qed.

Lemma cut_split c s a b : cut_at c s = Some (a, b) → str_mem c b = false → split_on c s = [a; b].
Proof.
  revert a. induction s as [|x s IH]; intros a; simpl; [done|]. destruct (char_eqb x c) eqn:Ex.
  - intros [= <- <-] Hb. by rewrite split_on_no_sep.
  - destruct (cut_at c s) as [[l r]|]; [|done]. intros [= <- <-] Hb. by rewrite (IH l).
Qed.

Lemma cut_mem c s a b : cut_at c s = Some (a, b) → str_mem c s = true.
Proof.
  revert a. induction s as [|x s IH]; intros a; simpl; [done|]. destruct (char_eqb x c); [done|].
  destruct (cut_at c s) as [[l r]|]; [|done]. intros [= _ ->]. by rewrite (IH l).
Qed.

Lemma port_part_ok part l : port_part part = Ok l → validate_port_part part = None ∧ Forall (fun p => 1 ≤ p ≤ 65535) l.
Proof.
  unfold port_part, validate_port_part. destruct (cut_at "-" part) as [[[|c lo'] hi]|] eqn:Ec.
  - cbv zeta. destruct (atoi part) as [p|] eqn:Ea; [|done]. destruct ((p <? 1) || (65535 <? p)) eqn:Ep; [done|].
    apply cut_mem in Ec. apply atoi_no_dash in Ea; [|lia]. congruence.
  - cbv zeta. destruct (atoi (String c lo')) as [lo|] eqn:El; [|done]. destruct (atoi hi) as [h|] eqn:Eh; [|done].
    destruct ((lo <? 1) || (h <? lo) || (65535 <? h)) eqn:Eb; [done|]. destruct (10000 <? h - lo); [done|]. intros [= <-].
    rewrite (cut_mem _ _ _ _ Ec), (cut_split _ _ _ _ Ec) by (eapply atoi_no_dash; [done|lia]).
    rewrite El, Eh. unfold is_port. split.
    + destruct (negb _) eqn:E1; [lia|]. destruct (negb _ || _) eqn:E2; [lia|done].
    + apply Forall_forall. intros p Hp%list_elem_of_In%elem_of_seqZ. lia.
  - assert (str_mem "-" part = false) as ->.
    { destruct (str_mem "-" part) eqn:Em; [|done]. exfalso. clear -Ec Em. induction part as [|x s IH]; [done|]. simpl in *.
      destruct (char_eqb x "-"); [done|]. destruct (cut_at "-" s) as [[]|]; [done|]. by apply IH. }
    cbv zeta. destruct (atoi part) as [p|]; [|done]. destruct ((p <? 1) || (65535 <? p)) eqn:Ep; [done|]. intros [= <-].
    unfold is_port. split; [by destruct (_ && _) eqn:E; [|lia]|]. apply list.Forall_singleton. lia.
Qed.

Lemma port_part_err part e : validate_port_part part = None → port_part part = Err e → e = RangeTooLarge part.
Proof.
  unfold port_part, validate_port_part. destruct (str_mem "-" part) eqn:Em.
  - destruct (split_on "-" part) as [|a [|b [|]]] eqn:Es; try done. rewrite (split_cut _ _ _ _ Es).
    destruct (atoi a) as [lo|] eqn:Ea; [|done]. destruct a as [|c a']; [done|]. rewrite Ea.
    unfold is_port. destruct (negb _) eqn:E1; [done|]. destruct (atoi b) as [h|]; [|done].
    destruct (negb _ || _) eqn:E2; [done|]. intros _. cbv zeta.
    destruct ((lo <? 1) || (h <? lo) || (65535 <? h)) eqn:Eb; [lia|]. destruct (10000 <? h - lo); [by intros [= <-]|done].
  - rewrite cut_at_None by done. cbv zeta. destruct (atoi part) as [p|]; [|done]. unfold is_port.
    destruct (_ && _) eqn:E; [|done]. intros _. destruct ((p <? 1) || (65535 <? p)) eqn:Ep; [lia|done].
Qed.

Lemma add_ports_spec new : ∀ out, NoDup out → NoDup (add_ports out new) ∧ ∀ p, p ∈ add_ports out new ↔ p ∈ out ∨ p ∈ new.
Proof.
  unfold add_ports. induction new as [|q new IH]; intros out Hn; simpl.
  { split; [done|]. intros p. rewrite elem_of_nil. tauto. }
  destruct (decide (q ∈ out)) as [Hq|Hq].
  - destruct (IH out Hn) as [H1 H2]. split; [done|]. intros p. rewrite H2, elem_of_cons. naive_solver.
  - destruct (IH (out ++ [q])) as [H1 H2].
    { apply list.NoDup_app. split_and!; [done| |apply list.NoDup_singleton]. intros x Hx ->%list_elem_of_singleton. done. }
    split; [done|]. intros p. rewrite H2, elem_of_app, list_elem_of_singleton, elem_of_cons. tauto.
Qed.

Lemma port_parts_ok parts out l : port_parts parts out = Ok l → NoDup out → Forall (fun p => 1 ≤ p ≤ 65535) out →
  validate_port_parts parts = None ∧ NoDup l ∧ Forall (fun p => 1 ≤ p ≤ 65535) l.
Proof.
  revert out. induction parts as [|p ps IH]; intros out; simpl; [by intros [= ->]|].
  destruct (is_empty (trim_space p)); [apply IH|]. intros (new & Hp & H)%rbind_ok Hn HF.
  destruct (port_part_ok _ _ Hp) as [-> Hnew]. destruct (add_ports_spec new out Hn) as [Hn' Hin].
  apply (IH _ H Hn'). apply list.Forall_forall. intros q [Hq|Hq]%Hin.
  - by apply (proj1 (list.Forall_forall _ _) HF).
  - by apply (proj1 (list.Forall_forall _ _) Hnew).
Qed.

Lemma port_parts_err parts out e : validate_port_parts parts = None → port_parts parts out = Err e → ∃ part, e = RangeTooLarge part.
Proof.
  revert out. induction parts as [|p ps IH]; intros out; simpl; [done|].
  destruct (is_empty (trim_space p)); [apply IH|]. destruct (validate_port_part (trim_space p)) eqn:EV; [done|]. intros HV.
  destruct (port_part (trim_space p)) as [new|e'] eqn:Ep; simpl; [by apply IH|]. intros [= ->].
  rewrite (port_part_err _ _ EV Ep). by eexists.
Qed.

(** The validation of port lists and the port probe agree: a list the probe
    reads was valid and yields distinct ports between 1 and 65535 in ascending
    order, and a valid list is refused by the probe only for a range of more
    than 10001 ports. *)
Theorem port_list_agrees spec :
  (∀ ps, parsePortSpec spec = Ok ps →
     validatePortList spec = None ∧ Sorted.StronglySorted Z.le ps ∧ NoDup ps ∧ Forall (fun p => 1 ≤ p ≤ 65535) ps)
  ∧ (∀ e, validatePortList spec = None → parsePortSpec spec = Err e → ∃ part, e = RangeTooLarge part).
Proof.
  unfold parsePortSpec, validatePortList. split.
  - intros ps (out & H & [= <-])%rbind_ok. destruct (port_parts_ok _ _ _ H) as (HV & Hn & HF); [constructor..|].
    split; [done|]. split; [apply sorting.StronglySorted_merge_sort; apply _|].
    pose proof (sorting.merge_sort_Permutation Z.le out) as Hp. by rewrite Hp.
  - intros e HV. destruct (port_parts _ _) as [out|e'] eqn:E; simpl; [done|]. intros [= <-]. by eapply port_parts_err.
Qed.

(** The order of the probe is a permutation of the list: nothing is scanned
    twice, nothing is left out. *)
Lemma priority_ports_all spec fps ps l :
  parsePortSpec spec = Ok ps → priorityPortList spec fps = Ok l → l ≡ₚ ps.
Proof.
  intros Hps. unfold priorityPortList. rewrite Hps. simpl.
  assert (NoDup ps ∧ Forall (fun p => 1 ≤ p ≤ 65535) ps) as [Hn HF].
  { unfold parsePortSpec in Hps. apply rbind_ok in Hps as (out & H & [= <-]).
    destruct (port_parts_ok _ _ _ H) as (HV & Hn & HF); [constructor..|].
    pose proof (sorting.merge_sort_Permutation Z.le out) as Hp. by rewrite Hp. }
  destruct (decide (fps = [])) as [->|]; [by intros [= ->]|]. intros [= <-].
  destruct (add_ports_spec (filter (fun p => p ∈ ps) fps) [] ltac:(constructor)) as [Hf Hin].
  apply list.NoDup_Permutation; [|done|].
  - apply list.NoDup_app. split_and!; [done| |by apply list.NoDup_filter].
    intros p [Hp%elem_of_nil|[Hp Hfp]%list_elem_of_filter]%Hin Hq%list_elem_of_filter; [done|].
    destruct Hq as [Hq _]. apply Hq. apply list_elem_of_filter. split; [|done].
    unfold is_port. pose proof (proj1 (list.Forall_forall _ _) HF p Hp) as R. cbn beta in R. lia.
  - intros p. rewrite elem_of_app, Hin, elem_of_nil, !list_elem_of_filter. split; [naive_solver|].
    intros Hp. destruct (decide (p ∈ fps)); [by left; right|]. right. split; [|done]. intros [_ ?]. done.
Qed.

(** * Pipelines *)

Lemma take_digits_pretty x s t : take_digits s = (s, "") → pretty_N_go x s = t → take_digits t = (t, "").
Proof.
  intros Hs <-. revert s Hs. induction (N.lt_wf_0 x) as [x _ IH]; intros s Hs.
  destruct (decide (x = 0)%N) as [->|Hx]; [by rewrite pretty_N_go_0|].
  rewrite pretty_N_go_step by lia. apply IH; [apply N.div_lt; lia|]. cbn [take_digits].
  destruct (digit_char (x `mod` 10)) as (-> & _); [by apply N.mod_lt|]. by rewrite Hs.
Qed.

Lemma pretty_lead x s : (0 < x)%N → ∃ d s', (0 < d < 10)%N ∧ pretty_N_go x s = String (pretty_N_char d) s'.
Proof.
  revert s. induction (N.lt_wf_0 x) as [x _ IH]; intros s Hx. rewrite pretty_N_go_step by done.
  destruct (decide (x `div` 10 = 0)%N) as [E|Hd].
  - rewrite E, pretty_N_go_0. exists (x `mod` 10)%N, s. split; [|done].
    pose proof (N.div_mod x 10 ltac:(done)). pose proof (N.mod_lt x 10 ltac:(done)). lia.
  - apply IH; [by apply N.div_lt|by apply N.neq_0_lt_0].
Qed.

Lemma lead_char d : (0 < d < 10)%N → char_eqb (pretty_N_char d) "0" = false ∧ char_eqb (pretty_N_char d) "-" = false.
Proof.
  intros Hd. assert (d = 1 ∨ d = 2 ∨ d = 3 ∨ d = 4 ∨ d = 5 ∨ d = 6 ∨ d = 7 ∨ d = 8 ∨ d = 9)%N as H by lia.
  repeat destruct H as [->|H]; [..|subst]; by vm_compute.
Qed.

(** [strconv.Itoa] writes number literals. *)
Lemma itoa_number_literal z : number_literal (itoa z) = true.
Proof.
  assert (∀ p, ∃ c t, pretty_N_go (Npos p) "" = String c t ∧ char_eqb c "0" = false ∧ char_eqb c "-" = false
                      ∧ int_part (String c t) = Some (String c t, "")) as H.
  { intros p. destruct (pretty_lead (Npos p) "") as (d & s' & Hd & E); [lia|]. destruct (lead_char d Hd) as [H0 Hm].
    exists (pretty_N_char d), s'. split_and!; [done..|]. unfold int_part. rewrite H0. unfold some_digits.
    by rewrite (take_digits_pretty (Npos p) "" _ eq_refl E). }
  apply bool_decide_eq_true. unfold itoa, pretty. destruct z as [|p|p]; [by vm_compute| |].
  - cbn [pretty_Z]. unfold pretty, pretty_positive, pretty, pretty_N. rewrite decide_False by done.
    destruct (H p) as (c & t & -> & _ & Hm & Hi). unfold scan_number. rewrite Hm, Hi. cbn. by rewrite !string_app_nil_r.
  - cbn [pretty_Z]. unfold pretty, pretty_positive, pretty, pretty_N. rewrite decide_False by done.
    destruct (H p) as (c & t & -> & _ & Hm & Hi).
    change ("-" +:+ String c t) with (String "-" (String c t)). unfold scan_number.
    change (char_eqb "-" "-") with true. cbv beta iota zeta. rewrite Hi. cbn. by rewrite !string_app_nil_r.
Qed.

(** The texts of a pipeline are valid UTF-8 and its number fits. *)
Definition pipeline_clean (c : PipelineConfig) : Prop :=
  min_int64 ≤ ic_Timeout (pc_ICMP c) ≤ max_int64
  ∧ Forall (fun s => utf8_valid s = true)
      [sn_Community (pc_SNMP c); ps_Ports (pc_PortScan c); ps_ScanType (pc_PortScan c); pr_Ports (pc_Prometheus c)].

Lemma pipeline_reads_back c : pipeline_clean c → stored_pipeline (marshal (pipeline_json c)) = c.
Proof.
  intros [Ht Hs]. destruct c as [[ie it] [se sc] [pe pp pt] sd [re rp] ne]. cbn in Ht, Hs.
  rewrite !list.Forall_cons in Hs. destruct Hs as (H1 & H2 & H3 & H4 & _).
  assert (json_ok 0 (pipeline_json (mkPipeline (mkICMP ie it) (mkSNMP se sc) (mkPortScan pe pp pt) sd (mkPromStage re rp) ne)) = true) as Hok.
  { unfold pipeline_json. cbn -[number_literal itoa utf8_valid bool_decide]. rewrite itoa_number_literal, H1, H2, H3, H4. by vm_compute. }
  unfold stored_pipeline. rewrite (unmarshal_marshal _ Hok). unfold pipeline_json. cbn [pc_ICMP ic_Timeout].
  pose proof (atoi_itoa it Ht) as Hn. revert Hn. generalize (itoa it). clear. intros n Hn. lazy -[atoi]. by rewrite Hn.
Qed.
