(* ===== verification/Scopes.v ===== *)
(** Network scopes of callers: src/internal/domain/scope.go, the SQL predicate
    of src/internal/authz/scopeql, the caching resolver and the grant table of
    src/internal/authz/scoperesolver, the grant handlers
    (src/internal/api/handler/network_grant.go) and the scope middleware
    (src/internal/api/middleware/scope.go).

    Times are nanoseconds.  [Resolve] reads the table between its look at the
    cache and its store; the two halves are [resolve_begin] and [resolve_end],
    so that other requests can come in between. *)

From stdpp Require sorting.
From S2P Require Import Prelude Db Cidr.

Open Scope Z_scope.

(** * Scopes *)

Definition ScopeModeOpen : string := "open".
Definition ScopeModeClosed : string := "closed".
Definition RoleAdmin : string := "admin".

Record NetScope := mkScope { sc_Global : bool; sc_NetworkIDs : list Z }.

Definition global_scope : NetScope := mkScope true [].

Definition AllowsNetwork (s : NetScope) (networkID : Z) : bool :=
  if sc_Global s then true else existsb (fun id => id =? networkID) (sc_NetworkIDs s).

(** [v] is the value of the context, if it holds one. *)
Definition ScopeFromContext (v : option NetScope) : NetScope := default global_scope v.

(** ** The predicate of a query *)

Inductive sql_pred := PredTrue | PredFalse | PredIn (col : string) (ids : list Z).

Definition NetworkPredicate (s : NetScope) (alias : string) : sql_pred :=
  if sc_Global s then PredTrue
  else
    let col := if is_empty alias then "network_id" else alias +:+ ".network_id" in
    if decide (sc_NetworkIDs s = []) then PredFalse else PredIn col (sc_NetworkIDs s).

(** Its text and the arguments bound to the marks. *)
Definition pred_text (p : sql_pred) : string :=
  match p with
  | PredTrue => "1=1"
  | PredFalse => "0"
  | PredIn col ids => col +:+ " IN (" +:+ join "," ((fun _ => "?") <$> ids) +:+ ")"
  end.

Definition pred_args (p : sql_pred) : list Z := match p with PredIn _ ids => ids | _ => [] end.

(** What it says of a row: [NULL IN (...)] selects nothing. *)
Definition pred_holds (p : sql_pred) (network_id : option Z) : bool :=
  match p with
  | PredTrue => true
  | PredFalse => false
  | PredIn _ ids => match network_id with Some n => existsb (fun id => id =? n) ids | None => false end
  end.

(** * Grants *)

Record Grant := mkGrant { gr_ID : Z; gr_UserID : Z; gr_NetworkID : Z; gr_GrantedAt : Z }.

Record grant_table := mkGrants { gt_rows : list Grant; gt_seq : Z }.

Definition grant_le (a b : Grant) : Prop := gr_NetworkID a ≤ gr_NetworkID b.

#[export] Instance grant_le_dec a b : Decision (grant_le a b).
Proof. unfold grant_le. apply _. Defined.

Definition ListByUser (t : grant_table) (userID : Z) : list Grant :=
  sorting.merge_sort grant_le (filter (fun g => gr_UserID g = userID) (gt_rows t)).

Definition NetworkIDsByUser (t : grant_table) (userID : Z) : list Z := gr_NetworkID <$> ListByUser t userID.

(** [UNIQUE(user_id, network_id)]. *)
Definition has_grant (t : grant_table) (userID networkID : Z) : bool :=
  existsb (fun g => (gr_UserID g =? userID) && (gr_NetworkID g =? networkID)) (gt_rows t).

(** [None] is the violated constraint. *)
Definition CreateGrant (now userID networkID : Z) (t : grant_table) : option (Z * grant_table) :=
  if has_grant t userID networkID then None
  else Some (gt_seq t + 1, mkGrants (gt_rows t ++ [mkGrant (gt_seq t + 1) userID networkID now]) (gt_seq t + 1)).

Definition DeleteGrant (id : Z) (t : grant_table) : bool * grant_table :=
  (existsb (fun g => gr_ID g =? id) (gt_rows t), mkGrants (filter (fun g => gr_ID g ≠ id) (gt_rows t)) (gt_seq t)).

Definition DeleteByUserNetwork (userID networkID : Z) (t : grant_table) : bool * grant_table :=
  (has_grant t userID networkID,
   mkGrants (filter (fun g => ¬ (gr_UserID g = userID ∧ gr_NetworkID g = networkID)) (gt_rows t)) (gt_seq t)).

(** * The resolver *)

Definition scopeCacheTTL : Z := 30 * nanos_per_second.

Record cacheEntry := mkEntry { ca_ids : list Z; ca_at : Z }.

Record Resolver := mkResolver { rv_mode : string; rv_cache : gmap Z cacheEntry }.

Definition NewResolver (mode : string) : Resolver := mkResolver mode ∅.

(** [None] is a nil resolver. *)
Definition Mode (r : option Resolver) : string := match r with None => ScopeModeOpen | Some r => rv_mode r end.

Definition cached (now : Z) (r : Resolver) (userID : Z) : option (list Z) :=
  match rv_cache r !! userID with
  | Some e => if now - ca_at e <? scopeCacheTTL then Some (ca_ids e) else None
  | None => None
  end.

Definition store (now userID : Z) (ids : list Z) (r : Resolver) : Resolver :=
  mkResolver (rv_mode r) (<[userID := mkEntry ids now]> (rv_cache r)).

Definition Invalidate (userID : Z) (r : option Resolver) : option Resolver :=
  (fun r => mkResolver (rv_mode r) (delete userID (rv_cache r))) <$> r.

Definition InvalidateAll (r : option Resolver) : option Resolver := (fun r => mkResolver (rv_mode r) ∅) <$> r.

(** The scope that needs no query, if there is one. *)
Definition resolve_begin (now : Z) (r : option Resolver) (userID : Z) (role : string) : option NetScope :=
  match r with
  | None => Some global_scope
  | Some r =>
      if decide (role = RoleAdmin) then Some global_scope
      else if negb (bool_decide (rv_mode r = ScopeModeClosed)) then Some global_scope
      else mkScope false <$> cached now r userID
  end.

(** [q] is the answer of the query, [None] when it failed. *)
Definition resolve_end (now : Z) (userID : Z) (q : option (list Z)) (r : Resolver) : NetScope * Resolver :=
  match q with
  | None => (global_scope, r)
  | Some ids => (mkScope false ids, store now userID ids r)
  end.

Definition Resolve (t0 t1 : Z) (r : option Resolver) (userID : Z) (role : string) (q : option (list Z)) : NetScope * option Resolver :=
  match resolve_begin t0 r userID role with
  | Some s => (s, r)
  | None => match r with
            | Some r => let '(s, r) := resolve_end t1 userID q r in (s, Some r)
            | None => (global_scope, None)
            end
  end.

(** * Handlers *)

Inductive grant_stmt := GrUser | GrNetwork | GrInsert | GrLookup | GrDelete.

Section handlers.
Context (ok : grant_stmt → bool).

(** The status of the answer, for a body that decodes; [users] and [networks]
    are the ids of those tables. *)
Definition CreateNetworkGrant (now userID networkID : Z) (users networks : list Z) (t : grant_table) (r : option Resolver)
    : Z * grant_table * option Resolver :=
  if (userID <=? 0) || (networkID <=? 0) then (400, t, r)
  else if negb (ok GrUser && bool_decide (userID ∈ users)) then (400, t, r)
  else if negb (ok GrNetwork && bool_decide (networkID ∈ networks)) then (400, t, r)
  else if negb (ok GrInsert) then (500, t, r)
  else match CreateGrant now userID networkID t with
       | None => (409, t, r)
       | Some (_, t') => (201, t', Invalidate userID r)
       end.

(** [idText] is the path parameter. *)
Definition DeleteNetworkGrant (idText : string) (t : grant_table) (r : option Resolver) : Z * grant_table * option Resolver :=
  match atoi idText with
  | None => (400, t, r)
  | Some id =>
      if id <=? 0 then (400, t, r)
      else if negb (ok GrLookup) then (500, t, r)
      else match list_find (fun g => gr_ID g = id) (gt_rows t) with
           | None => (404, t, r)
           | Some (_, g) =>
               if negb (ok GrDelete) then (500, t, r)
               else let '(hit, t') := DeleteGrant id t in
                    if hit then (204, t', Invalidate (gr_UserID g) r) else (404, t', r)
           end
  end.

End handlers.

(** * Middleware *)

(** [user] is the authenticated user and role; the result is the scope the
    context carries on, with the resolver. *)
Definition NetworkScope (t0 t1 : Z) (r : option Resolver) (user : option (Z * string)) (q : option (list Z))
    : option NetScope * option Resolver :=
  match user with
  | None => (None, r)
  | Some (userID, role) => let '(s, r) := Resolve t0 t1 r userID role q in (Some s, r)
  end.

(** [true] forwards the request, [false] answers 403.  [lookup] is the
    network_id of the device, [None] when there is no row or the read fails. *)
Definition ValidateDeviceScope (scope : option NetScope) (idText : string) (lookup : Z → option (option Z)) : bool :=
  let scope := ScopeFromContext scope in
  if sc_Global scope then true
  else match atoi idText with
       | None => true
       | Some id =>
           match lookup id with
           | None => true
           | Some None => false
           | Some (Some n) => AllowsNetwork scope n
           end
       end.
