(* ===== verification/ScopesSpec.v ===== *)
(** Theorems on network scopes: the query predicate says what the scope says,
    the handlers keep the cache exact, and under any interleaving a revoked
    grant is honoured for a bounded time only. *)

From stdpp Require sorting.
From S2P Require Import Prelude Db Cidr Scopes.

Open Scope Z_scope.

(** * The predicate *)

(** A row is visible in a scope when the scope is global or grants its network. *)
Definition visible (s : NetScope) (network_id : option Z) : bool :=
  sc_Global s || match network_id with Some n => AllowsNetwork s n | None => false end.

Lemma predicate_visible s alias network_id : pred_holds (NetworkPredicate s alias) network_id = visible s network_id.
Proof.
  unfold NetworkPredicate, visible, AllowsNetwork. destruct (sc_Global s); [done|].
  destruct (decide (sc_NetworkIDs s = [])) as [E|E]; cbn [pred_holds orb].
  - rewrite E. by destruct network_id.
  - done.
Qed.

Fixpoint count_char (c : ascii) (s : string) : nat :=
  match s with EmptyString => 0 | String a s => (if char_eqb a c then 1 else 0) + count_char c s end.

Lemma count_char_app c s t : count_char c (s +:+ t) = (count_char c s + count_char c t)%nat.
Proof. induction s as [|a s IH]; [done|]. change (String a s +:+ t) with (String a (s +:+ t)). cbn. rewrite IH. lia. Qed.

Lemma count_marks ids : count_char "?" (join "," ((fun _ : Z => "?") <$> ids)) = length ids.
Proof.
  induction ids as [|i ids IH]; [done|]. destruct ids as [|j ids]; [done|].
  change (join "," ((fun _ : Z => "?") <$> i :: j :: ids)) with ("?" +:+ "," +:+ join "," ((fun _ : Z => "?") <$> j :: ids)).
  rewrite !count_char_app, IH. done.
Qed.

(** Every mark of the text has its argument. *)
Lemma predicate_marks s alias : count_char "?" alias = 0%nat →
  count_char "?" (pred_text (NetworkPredicate s alias)) = length (pred_args (NetworkPredicate s alias)).
Proof.
  intros Ha. unfold NetworkPredicate. destruct (sc_Global s); [done|]. destruct (decide _); [done|].
  cbn [pred_text pred_args]. rewrite !count_char_app, count_marks.
  assert (count_char "?" (if is_empty alias then "network_id" else alias +:+ ".network_id") = 0%nat) as ->.
  { destruct alias as [|a alias]; [done|]. cbn [is_empty]. by rewrite count_char_app, Ha. }
  change (count_char "?" " IN (") with 0%nat. change (count_char "?" ")") with 0%nat. lia.
Qed.

(** * The cache under the handlers *)

Definition granted (t : grant_table) (userID networkID : Z) : Prop := networkID ∈ NetworkIDsByUser t userID.

Lemma granted_iff t u n : granted t u n ↔ ∃ g, g ∈ gt_rows t ∧ gr_UserID g = u ∧ gr_NetworkID g = n.
Proof.
  unfold granted, NetworkIDsByUser, ListByUser. rewrite list_elem_of_fmap. split.
  - intros (g & -> & Hg). rewrite sorting.merge_sort_Permutation, list_elem_of_filter in Hg. destruct Hg. eauto.
  - intros (g & Hg & Hu & <-). exists g. split; [done|]. by rewrite sorting.merge_sort_Permutation, list_elem_of_filter.
Qed.

#[export] Instance granted_dec t u n : Decision (granted t u n).
Proof. unfold granted. apply _. Defined.

Lemma has_grant_iff t u n : has_grant t u n = true ↔ granted t u n.
Proof.
  unfold has_grant. rewrite existsb_exists, granted_iff. setoid_rewrite <- list_elem_of_In. split.
  - intros (g & Hg & [Hu%Z.eqb_eq Hn%Z.eqb_eq]%andb_true_iff). eauto.
  - intros (g & Hg & <- & <-). exists g. by rewrite !Z.eqb_refl.
Qed.

Definition cache_exact (t : grant_table) (r : option Resolver) : Prop :=
  ∀ r', r = Some r' → ∀ u e, rv_cache r' !! u = Some e → ca_ids e = NetworkIDsByUser t u.

Lemma exact_begin now t r u role s :
  cache_exact t r → resolve_begin now r u role = Some s → s = global_scope ∨ s = mkScope false (NetworkIDsByUser t u).
Proof.
  intros He. unfold resolve_begin. destruct r as [r|]; [|intros [= <-]; by left].
  destruct (decide _); [intros [= <-]; by left|]. destruct (negb _); [intros [= <-]; by left|].
  intros (ids & Hc & ->)%fmap_Some. right. unfold cached in Hc. destruct (rv_cache r !! u) as [e|] eqn:E; [|done].
  destruct (_ <? _); [|done]. injection Hc as <-. by rewrite (He r eq_refl u e E).
Qed.

Lemma exact_invalidate t t' r u :
  (∀ v, v ≠ u → NetworkIDsByUser t' v = NetworkIDsByUser t v) → cache_exact t r → cache_exact t' (Invalidate u r).
Proof.
  intros Ht He. destruct r as [r|]; [|done]. intros ? [= <-] v e. cbn. intros [Hne Hl]%lookup_delete_Some.
  rewrite Ht by done. by apply (He r eq_refl v e).
Qed.

Lemma exact_store now t r u : cache_exact t (Some r) → cache_exact t (Some (store now u (NetworkIDsByUser t u) r)).
Proof.
  intros He ? [= <-] v e. cbn. intros [[<- <-]|[Hne Hl]]%lookup_insert_Some; [done|]. by apply (He r eq_refl v e).
Qed.

Lemma create_other now u n t id t' v : CreateGrant now u n t = Some (id, t') → v ≠ u → NetworkIDsByUser t' v = NetworkIDsByUser t v.
Proof.
  unfold CreateGrant. destruct (has_grant t u n); [done|]. intros [= <- <-] Hv. unfold NetworkIDsByUser, ListByUser. cbn.
  rewrite list.filter_app, list.filter_cons_False, list.filter_nil, app_nil_r by (cbn; congruence). done.
Qed.

Lemma delete_other id t g v :
  NoDup (gr_ID <$> gt_rows t) → g ∈ gt_rows t → gr_ID g = id → v ≠ gr_UserID g →
  NetworkIDsByUser (DeleteGrant id t).2 v = NetworkIDsByUser t v.
Proof.
  intros Hn Hg Hid Hv. unfold NetworkIDsByUser, ListByUser, DeleteGrant. cbn [snd gt_rows]. do 2 f_equal.
  rewrite list_filter_filter. apply filter_ext_in. intros x Hx. split; [tauto|]. intros Hu. split; [done|].
  intros E. apply Hv. rewrite <- Hu. f_equal. eapply (NoDup_key gr_ID); [exact Hn|done..|]. congruence.
Qed.

(** The writes of a request keep the cache exact, whether or not a statement
    fails: a grant or revocation is followed by the invalidation of its user. *)
Lemma handlers_exact ok now u n users networks idText t r :
  NoDup (gr_ID <$> gt_rows t) → cache_exact t r →
  (let '(_, t', r') := CreateNetworkGrant ok now u n users networks t r in cache_exact t' r')
  ∧ (let '(_, t', r') := DeleteNetworkGrant ok idText t r in cache_exact t' r').
Proof.
  intros Hn He. split.
  - unfold CreateNetworkGrant. do 4 (match goal with |- context [if ?b then _ else _] => destruct b; [done|] end).
    destruct (CreateGrant now u n t) as [[id t']|] eqn:E; [|done]. eapply exact_invalidate; [|done].
    intros v Hv. by eapply create_other.
  - unfold DeleteNetworkGrant. destruct (atoi idText) as [id|]; [|done]. destruct (id <=? 0); [done|].
    destruct (negb (ok GrLookup)); [done|]. destruct (list_find _ _) as [[i g]|] eqn:E; [|done].
    destruct (negb (ok GrDelete)); [done|]. apply list_find_Some in E as (Hl & Hid & _).
    apply list_elem_of_lookup_2 in Hl.
    pose proof (delete_other id t g) as Ho. unfold DeleteGrant in *. cbn [fst snd] in *.
    assert (existsb (λ g0 : Grant, gr_ID g0 =? id) (gt_rows t) = true) as ->.
    { apply existsb_exists. exists g. rewrite <- list_elem_of_In. split; [done|by apply Z.eqb_eq]. }
    eapply exact_invalidate; [|done]. intros v Hv. by apply Ho.
Qed.

(** * Interleaved requests *)

(** The table, the resolver, and the answers of queries that are not stored yet
    (user, ids, time of the read).  [au_revoked] is the record of revocations. *)
Record auth_state := mkAuth {
  au_now : Z;
  au_grants : grant_table;
  au_res : Resolver;
  au_reads : list (Z * list Z * Z);
  au_revoked : list (Z * Z * Z)
}.

Definition revoked_by (now : Z) (t t' : grant_table) : list (Z * Z * Z) :=
  (fun g => (gr_UserID g, gr_NetworkID g, now)) <$> filter (fun g => ¬ granted t' (gr_UserID g) (gr_NetworkID g)) (gt_rows t).

(** [latency] bounds the time between the read and the store of one request. *)
Inductive auth_step (latency : Z) : auth_state → auth_state → Prop :=
| step_tick d s :
    0 ≤ d → auth_step latency s (mkAuth (au_now s + d) (au_grants s) (au_res s) (au_reads s) (au_revoked s))
| step_write t' s :
    auth_step latency s (mkAuth (au_now s) t' (au_res s) (au_reads s) (revoked_by (au_now s) (au_grants s) t' ++ au_revoked s))
| step_invalidate u r' s :
    Invalidate u (Some (au_res s)) = Some r' →
    auth_step latency s (mkAuth (au_now s) (au_grants s) r' (au_reads s) (au_revoked s))
| step_invalidate_all r' s :
    InvalidateAll (Some (au_res s)) = Some r' →
    auth_step latency s (mkAuth (au_now s) (au_grants s) r' (au_reads s) (au_revoked s))
| step_read u role s :
    resolve_begin (au_now s) (Some (au_res s)) u role = None →
    auth_step latency s (mkAuth (au_now s) (au_grants s) (au_res s)
      ((u, NetworkIDsByUser (au_grants s) u, au_now s) :: au_reads s) (au_revoked s))
| step_store u ids t0 l1 l2 scope r' s :
    au_reads s = l1 ++ (u, ids, t0) :: l2 → au_now s - t0 ≤ latency →
    resolve_end (au_now s) u (Some ids) (au_res s) = (scope, r') →
    auth_step latency s (mkAuth (au_now s) (au_grants s) r' (l1 ++ l2) (au_revoked s)).

(** The grant was in force at [t0] or later. *)
Definition in_force (s : auth_state) (t0 u n : Z) : Prop :=
  granted (au_grants s) u n ∨ ∃ t, (u, n, t) ∈ au_revoked s ∧ t0 ≤ t ≤ au_now s.

Record auth_inv (latency : Z) (s : auth_state) : Prop := mkAuthInv {
  ai_reads : ∀ u ids t0, (u, ids, t0) ∈ au_reads s → t0 ≤ au_now s ∧ ∀ n, n ∈ ids → in_force s t0 u n;
  ai_cache : ∀ u e, rv_cache (au_res s) !! u = Some e →
    ca_at e ≤ au_now s ∧ ∃ t0, t0 ≤ ca_at e ∧ ca_at e - t0 ≤ latency ∧ ∀ n, n ∈ ca_ids e → in_force s t0 u n
}.

(** What was in force stays on record. *)
Lemma in_force_mono s s' t0 u n :
  au_now s ≤ au_now s' → t0 ≤ au_now s → (∀ x, x ∈ au_revoked s → x ∈ au_revoked s') →
  (granted (au_grants s) u n → granted (au_grants s') u n ∨ (u, n, au_now s) ∈ au_revoked s') →
  in_force s t0 u n → in_force s' t0 u n.
Proof.
  intros Hnow Ht Hr Hg [H|(t & Hin & Ht')].
  - destruct (Hg H) as [|Hn]; [by left|]. right. exists (au_now s). split; [done|lia].
  - right. exists t. split; [by apply Hr|lia].
Qed.

Lemma inv_mono latency s s' :
  au_now s ≤ au_now s' → (∀ x, x ∈ au_revoked s → x ∈ au_revoked s') →
  (∀ u n, granted (au_grants s) u n → granted (au_grants s') u n ∨ (u, n, au_now s) ∈ au_revoked s') →
  (∀ x, x ∈ au_reads s' → x ∈ au_reads s) →
  (∀ u e, rv_cache (au_res s') !! u = Some e → rv_cache (au_res s) !! u = Some e) →
  auth_inv latency s → auth_inv latency s'.
Proof.
  intros Hnow Hr Hg Hreads Hc [Ir Ic]. split.
  - intros u ids t0 Hin. destruct (Ir u ids t0 (Hreads _ Hin)) as [Ht Hf]. split; [lia|].
    intros n Hn. eapply in_force_mono; eauto.
  - intros u e He. destruct (Ic u e (Hc _ _ He)) as (Hat & t0 & Ht & Hl & Hf). split; [lia|]. exists t0. split_and!; [done..|].
    intros n Hn. eapply in_force_mono; eauto. lia.
Qed.

Lemma write_recorded now t t' u n : granted t u n → granted t' u n ∨ (u, n, now) ∈ revoked_by now t t'.
Proof.
  intros (g & Hg & Hu & Hn)%granted_iff. destruct (decide (granted t' u n)) as [|Hno]; [by left|]. right.
  apply list_elem_of_fmap. exists g. split; [by rewrite Hu, Hn|]. apply list_elem_of_filter. by rewrite Hu, Hn.
Qed.

Lemma auth_step_inv latency s s' : auth_inv latency s → auth_step latency s s' → auth_inv latency s'.
Proof.
  intros HI Hs. destruct Hs as [d s Hd|t' s|u r' s Hr|r' s Hr|u role s Hb|u ids t0 l1 l2 scope r' s Hl Hlat He].
  - eapply inv_mono; [..|exact HI]; cbn; auto. lia.
  - eapply inv_mono; [..|exact HI]; cbn; auto; [lia| |].
    + intros x Hx. apply elem_of_app. by right.
    + intros u n Hg. destruct (write_recorded (au_now s) _ t' _ _ Hg); [by left|]. right. apply elem_of_app. by left.
  - injection Hr as <-. eapply inv_mono; [..|exact HI]; cbn; auto; [lia|]. intros v e [_ ?]%lookup_delete_Some. done.
  - injection Hr as <-. eapply inv_mono; [..|exact HI]; cbn; auto; [lia|]. intros v e. by rewrite lookup_empty.
  - destruct HI as [Ir Ic]. split; [|exact Ic]. cbn. intros v ids t0 [[= -> -> ->]|Hin]%elem_of_cons; [|by apply Ir].
    split; [lia|]. intros n Hn. by left.
  - cbn in He. injection He as <- <-. destruct HI as [Ir Ic]. split; cbn.
    + intros v ids' t' Hin. apply Ir. rewrite Hl. apply elem_of_app in Hin. rewrite elem_of_app, elem_of_cons. tauto.
    + intros v e [[<- <-]|[_ Hv]]%lookup_insert_Some; [|by apply Ic].
      destruct (Ir u ids t0) as [Ht Hf]; [rewrite Hl; apply elem_of_app; right; by left|]. cbn. split; [lia|]. by exists t0.
Qed.

(** C20.  Whatever the interleaving of requests, writes to the grant table and
    invalidations, a scope answered from the cache allows only networks whose
    grant is in force or was revoked less than thirty seconds plus the latency
    of one query ago. *)
Theorem revocation_bounded latency mode t0 now0 s u role scope n
    (Hreach : rtc (auth_step latency) (mkAuth now0 t0 (NewResolver mode) [] []) s)
    (Hans : resolve_begin (au_now s) (Some (au_res s)) u role = Some scope)
    (Hclosed : sc_Global scope = false) (Hn : AllowsNetwork scope n = true) :
  granted (au_grants s) u n ∨ ∃ t, (u, n, t) ∈ au_revoked s ∧ au_now s - t < scopeCacheTTL + latency.
Proof.
  assert (auth_inv latency s) as [_ Ic].
  { refine (rtc_ind_r (auth_inv latency) _ _ _ s Hreach); [|intros; by eapply auth_step_inv].
    split; cbn; [intros ? ? ? []%elem_of_nil|]. intros v e. by rewrite lookup_empty. }
  unfold resolve_begin in Hans. destruct (decide _); [injection Hans as <-; done|]. destruct (negb _); [injection Hans as <-; done|].
  apply fmap_Some in Hans as (ids & Hc & ->). unfold cached in Hc. destruct (rv_cache (au_res s) !! u) as [e|] eqn:E; [|done].
  destruct (Z.ltb_spec (au_now s - ca_at e) scopeCacheTTL); [|done]. injection Hc as <-.
  destruct (Ic u e E) as (_ & r & Hr & Hl & Hf). unfold AllowsNetwork in Hn. cbn in Hn.
  apply existsb_exists in Hn as (m & Hm%list_elem_of_In & ->%Z.eqb_eq).
  destruct (Hf n Hm) as [|(t & Hin & Ht)]; [by left|]. right. exists t. split; [done|lia].
Qed.

(** A request reads the grants of user 7, the grant is revoked and the cache
    invalidated, and only then is the answer stored: five seconds later the
    cache still allows the network. *)
Definition race_start : auth_state := mkAuth 0 (mkGrants [mkGrant 1 7 3 0] 1) (NewResolver "closed") [] [].
Definition race_end : auth_state :=
  mkAuth (5 * nanos_per_second) (mkGrants [] 1) (mkResolver "closed" {[7 := mkEntry [3] 0]}) [] [(7, 3, 0)].

Lemma race_reachable : rtc (auth_step 0) race_start race_end.
Proof.
  eapply rtc_l; [exact (step_read 0 7 "viewer" race_start eq_refl)|].
  eapply rtc_l; [exact (step_write 0 (DeleteGrant 1 (au_grants race_start)).2 _)|].
  eapply rtc_l; [eapply (step_invalidate 0 7 (NewResolver "closed")); vm_compute; reflexivity|].
  eapply rtc_l; [eapply (step_store 0 7 [3] 0 [] []); [reflexivity|vm_compute; discriminate|reflexivity]|].
  eapply rtc_l; [eapply (step_tick 0 (5 * nanos_per_second)); vm_compute; discriminate|].
  vm_compute. apply rtc_refl.
Qed.

Lemma revocation_bounded_witness :
  granted (au_grants race_end) 7 3 ∨ ∃ t, (7, 3, t) ∈ au_revoked race_end ∧ au_now race_end - t < scopeCacheTTL + 0.
Proof.
  apply (revocation_bounded 0 "closed" (mkGrants [mkGrant 1 7 3 0] 1) 0 race_end 7 "viewer" (mkScope false [3]) 3).
  - exact race_reachable.
  - vm_compute. reflexivity.
  - reflexivity.
  - reflexivity.
Defined.
