(* ===== verification/TaskService.v ===== *)
(** Scan tasks: the scheduler (src/internal/service/scannerv2/scheduler), the
    task service (src/internal/service/scannerv2/taskservice), the bookkeeping
    of a run (src/internal/service/scannerv2/runner/runner.go) and the statements
    they use.

    [ok] says of a statement whether it succeeds.  Of gocron, which is not part
    of the repository, the model has the map of registered jobs: registering
    fails on an expression it does not accept ([cron_ok]), a removed job does not
    fire, and a job does not start while a run of the same job is going on
    (singleton mode).  Goroutines show as the order of [exec_begin] and
    [exec_end].  Service operations are taken one at a time.  Foreign keys are
    not enforced, as the database is opened without them. *)

From stdpp Require sorting.
From S2P Require Import Prelude NetAddr Cidr Db DeviceStore Json TaskRules Scopes.

Open Scope Z_scope.

(** * Tables *)

Record ScanTask := mkScanTask {
  t_ID : Z;
  t_Name : string;
  t_Targets : string;
  t_CronExpr : string;
  t_PipelineConfig : string;
  t_GlobalLabels : string;
  t_Timeout : Z;
  t_ConcurrentHosts : Z;
  t_CredentialID : option Z;
  t_NetworkID : option Z;
  t_Enabled : Z;
  t_LastRunAt : option Z;
  t_NextRunAt : option Z;
  t_LastRunStatus : option string;
  t_CreatedAt : Z;
  t_UpdatedAt : Z
}.

Record TaskRun := mkRun {
  ru_ID : Z;
  ru_TaskID : Z;
  ru_Status : string;
  ru_TotalHosts : Z;
  ru_AliveHosts : Z;
  ru_NewHosts : Z;
  ru_UpdatedHosts : Z;
  ru_DurationMs : Z;
  ru_ErrorMessage : string;
  ru_StartedAt : option Z;
  ru_FinishedAt : option Z;
  ru_CreatedAt : Z
}.

Record TaskResult := mkTaskResult {
  re_ID : Z;
  re_TaskID : Z;
  re_RunID : option Z;
  re_Ip : string;
  re_Alive : Z;
  re_RttMs : Z;
  re_Ports : string;
  re_Services : string;
  re_SnmpData : string;
  re_PrometheusDetected : Z;
  re_PrometheusUrl : string;
  re_NodeExporterDetected : Z;
  re_NodeExporterUrl : string;
  re_NodeExporterData : string;
  re_ScannedAt : Z
}.

(** [tk_networks] holds id and cidr of the networks. *)
Record task_db := mkTaskDb {
  tk_tasks : gmap Z ScanTask;
  tk_seq : Z;
  tk_runs : list TaskRun;
  tk_runSeq : Z;
  tk_results : list TaskResult;
  tk_networks : list (Z * string)
}.

Inductive task_stmt :=
| StGetTask | StCreateTask | StDeleteTask | StUpdateTask | StToggle | StListEnabled | StListTasks | StCountTasks
| StNetwork | StStamp | StScope | StLatestRun | StCreateRun | StUpdateRun | StTaskStatus | StListRuns | StCountRuns
| StListResults | StCountResults | StStale.

#[export] Instance task_stmt_eq_dec : EqDecision task_stmt.
Proof. solve_decision. Defined.

Definition with_tasks (f : gmap Z ScanTask → gmap Z ScanTask) (db : task_db) : task_db :=
  mkTaskDb (f (tk_tasks db)) (tk_seq db) (tk_runs db) (tk_runSeq db) (tk_results db) (tk_networks db).

Definition with_runs (f : list TaskRun → list TaskRun) (db : task_db) : task_db :=
  mkTaskDb (tk_tasks db) (tk_seq db) (f (tk_runs db)) (tk_runSeq db) (tk_results db) (tk_networks db).

(** ** Statements on tasks *)

Record task_params := mkParams {
  pa_Name : string;
  pa_Targets : string;
  pa_CronExpr : string;
  pa_PipelineConfig : string;
  pa_GlobalLabels : string;
  pa_Timeout : Z;
  pa_ConcurrentHosts : Z;
  pa_CredentialID : option Z
}.

Definition CreateScanTask (now : Z) (p : task_params) (db : task_db) : ScanTask * task_db :=
  let id := tk_seq db + 1 in
  let t := mkScanTask id (pa_Name p) (pa_Targets p) (pa_CronExpr p) (pa_PipelineConfig p) (pa_GlobalLabels p) (pa_Timeout p)
             (pa_ConcurrentHosts p) (pa_CredentialID p) None 1 None None None now now in
  (t, mkTaskDb (<[id := t]> (tk_tasks db)) id (tk_runs db) (tk_runSeq db) (tk_results db) (tk_networks db)).

Definition set_params (now : Z) (p : task_params) (t : ScanTask) : ScanTask :=
  mkScanTask (t_ID t) (pa_Name p) (pa_Targets p) (pa_CronExpr p) (pa_PipelineConfig p) (pa_GlobalLabels p) (pa_Timeout p)
    (pa_ConcurrentHosts p) (pa_CredentialID p) (t_NetworkID t) (t_Enabled t) (t_LastRunAt t) (t_NextRunAt t) (t_LastRunStatus t)
    (t_CreatedAt t) now.

Definition set_enabled (now enabled : Z) (t : ScanTask) : ScanTask :=
  mkScanTask (t_ID t) (t_Name t) (t_Targets t) (t_CronExpr t) (t_PipelineConfig t) (t_GlobalLabels t) (t_Timeout t)
    (t_ConcurrentHosts t) (t_CredentialID t) (t_NetworkID t) enabled (t_LastRunAt t) (t_NextRunAt t) (t_LastRunStatus t)
    (t_CreatedAt t) now.

Definition set_network (n : option Z) (t : ScanTask) : ScanTask :=
  mkScanTask (t_ID t) (t_Name t) (t_Targets t) (t_CronExpr t) (t_PipelineConfig t) (t_GlobalLabels t) (t_Timeout t)
    (t_ConcurrentHosts t) (t_CredentialID t) n (t_Enabled t) (t_LastRunAt t) (t_NextRunAt t) (t_LastRunStatus t)
    (t_CreatedAt t) (t_UpdatedAt t).

Definition set_task_status (now : Z) (last next : option Z) (status : option string) (t : ScanTask) : ScanTask :=
  mkScanTask (t_ID t) (t_Name t) (t_Targets t) (t_CronExpr t) (t_PipelineConfig t) (t_GlobalLabels t) (t_Timeout t)
    (t_ConcurrentHosts t) (t_CredentialID t) (t_NetworkID t) (t_Enabled t) last next status (t_CreatedAt t) now.

(** [UPDATE ... WHERE id = ?]. *)
Definition alter_task (f : ScanTask → ScanTask) (id : Z) (db : task_db) : task_db := with_tasks (alter f id) db.

(** [RETURNING]: no row is [sql.ErrNoRows]. *)
Definition UpdateScanTask (now : Z) (p : task_params) (id : Z) (db : task_db) : option (ScanTask * task_db) :=
  match tk_tasks db !! id with
  | None => None
  | Some t => Some (set_params now p t, alter_task (set_params now p) id db)
  end.

Definition ToggleScanTaskEnabled (now enabled id : Z) (db : task_db) : task_db := alter_task (set_enabled now enabled) id db.

Definition UpdateScanTaskStatus (now : Z) (last next : option Z) (status : option string) (id : Z) (db : task_db) : task_db :=
  alter_task (set_task_status now last next status) id db.

(** Rows affected. *)
Definition DeleteScanTask (id : Z) (db : task_db) : Z * task_db :=
  (match tk_tasks db !! id with Some _ => 1 | None => 0 end, with_tasks (delete id) db).

Definition task_le (a b : ScanTask) : Prop := t_ID a ≤ t_ID b.

#[export] Instance task_le_dec a b : Decision (task_le a b).
Proof. unfold task_le. apply _. Defined.

Definition tasks_by_id (m : gmap Z ScanTask) : list ScanTask := sorting.merge_sort task_le (snd <$> map_to_list m).

(** [? = '' OR INSTR(lower(name), lower(?)) > 0 OR INSTR(lower(targets), lower(?)) > 0]. *)
Definition task_matches (search : string) (t : ScanTask) : bool :=
  is_empty search || contains_str (to_lower search) (to_lower (t_Name t)) || contains_str (to_lower search) (to_lower (t_Targets t)).

(** [LIMIT ? OFFSET ?]; a negative offset is none. *)
Definition limit_offset {A} (limit offset : Z) (l : list A) : list A := take (Z.to_nat limit) (drop (Z.to_nat offset) l).

Definition ListScanTasksSearch (search : string) (limit offset : Z) (db : task_db) : list ScanTask :=
  limit_offset limit offset (filter (fun t => task_matches search t = true) (tasks_by_id (tk_tasks db))).

Definition CountScanTasksSearch (search : string) (db : task_db) : Z :=
  Z.of_nat (length (filter (fun t => task_matches search t = true) (tasks_by_id (tk_tasks db)))).

Definition ListEnabledScanTasks (db : task_db) : list ScanTask :=
  filter (fun t => t_Enabled t = 1) (snd <$> map_to_list (tk_tasks db)).

(** ** Statements on runs *)

Definition CreateScanTaskRun (now taskID : Z) (startedAt : option Z) (db : task_db) : TaskRun * task_db :=
  let id := tk_runSeq db + 1 in
  let r := mkRun id taskID "running" 0 0 0 0 0 "" startedAt None now in
  (r, mkTaskDb (tk_tasks db) (tk_seq db) (tk_runs db ++ [r]) id (tk_results db) (tk_networks db)).

Record run_params := mkRunParams {
  rp_Status : string;
  rp_TotalHosts : Z;
  rp_AliveHosts : Z;
  rp_NewHosts : Z;
  rp_UpdatedHosts : Z;
  rp_DurationMs : Z;
  rp_ErrorMessage : string;
  rp_FinishedAt : option Z
}.

Definition set_run (p : run_params) (r : TaskRun) : TaskRun :=
  mkRun (ru_ID r) (ru_TaskID r) (rp_Status p) (rp_TotalHosts p) (rp_AliveHosts p) (rp_NewHosts p) (rp_UpdatedHosts p)
    (rp_DurationMs p) (rp_ErrorMessage p) (ru_StartedAt r) (rp_FinishedAt p) (ru_CreatedAt r).

Definition UpdateScanTaskRun (p : run_params) (id : Z) (db : task_db) : task_db :=
  with_runs (fmap (fun r => if ru_ID r =? id then set_run p r else r)) db.

(** The run with the largest id. *)
Definition later_run (acc : option TaskRun) (r : TaskRun) : option TaskRun :=
  match acc with
  | None => Some r
  | Some a => if ru_ID a <? ru_ID r then Some r else Some a
  end.

Definition GetLatestRun (taskID : Z) (db : task_db) : option TaskRun :=
  fold_left later_run (filter (fun r => ru_TaskID r = taskID) (tk_runs db)) None.

Definition run_ge (a b : TaskRun) : Prop := ru_ID b ≤ ru_ID a.

#[export] Instance run_ge_dec a b : Decision (run_ge a b).
Proof. unfold run_ge. apply _. Defined.

Definition runs_of (taskID : Z) (db : task_db) : list TaskRun := filter (fun r => taskID = 0 ∨ ru_TaskID r = taskID) (tk_runs db).

Definition ListScanTaskRuns (taskID limit offset : Z) (db : task_db) : list TaskRun :=
  limit_offset limit offset (sorting.merge_sort run_ge (runs_of taskID db)).

Definition CountScanTaskRuns (taskID : Z) (db : task_db) : Z := Z.of_nat (length (runs_of taskID db)).

Definition task_result_ge (a b : TaskResult) : Prop := re_ScannedAt b ≤ re_ScannedAt a.

#[export] Instance task_result_ge_dec a b : Decision (task_result_ge a b).
Proof. unfold task_result_ge. apply _. Defined.

(** Without the filters on address and liveness, which the service leaves off. *)
Definition results_of (taskID : Z) (db : task_db) : list TaskResult :=
  filter (fun r => taskID = 0 ∨ re_TaskID r = taskID) (tk_results db).

Definition ListScanResults (taskID limit offset : Z) (db : task_db) : list TaskResult :=
  limit_offset limit offset (sorting.merge_sort task_result_ge (results_of taskID db)).

Definition CountScanResults (taskID : Z) (db : task_db) : Z := Z.of_nat (length (results_of taskID db)).

(** [started_at < datetime('now','-1 hour')], in seconds. *)
Definition stale_run (now : Z) (r : TaskRun) : bool :=
  bool_decide (ru_Status r = "running") && match ru_StartedAt r with Some t => t <? now - 3600 | None => false end.

Definition cleanupStaleRuns (ok : task_stmt → bool) (now : Z) (db : task_db) : task_db :=
  if negb (ok StStale) then db
  else with_runs (fmap (fun r => if stale_run now r
         then mkRun (ru_ID r) (ru_TaskID r) "failed" (ru_TotalHosts r) (ru_AliveHosts r) (ru_NewHosts r) (ru_UpdatedHosts r)
                (ru_DurationMs r) "stale run cleaned up on startup" (ru_StartedAt r) (Some now) (ru_CreatedAt r)
         else r)) db.

(** * The scheduler *)

Record job := mkJob { jb_id : Z; jb_cron : string; jb_targets : string }.

(** The arguments of [scanFunc]; the timeout in nanoseconds. *)
Record scan_args := mkArgs {
  ar_task : Z;
  ar_targets : string;
  ar_timeout : Z;
  ar_concurrent : Z;
  ar_credential : Z;
  ar_network : option Z
}.

Record execution := mkExec { ex_job : Z; ex_args : scan_args }.

(** [sd_cancel] maps a task to the execution whose cancel function it holds;
    [sd_execs] are the executions inside [scanFunc], [sd_cancelled] those whose
    context was cancelled. *)
Record Scheduler := mkSched {
  sd_jobs : gmap Z job;
  sd_jobSeq : Z;
  sd_cancel : gmap Z Z;
  sd_execs : gmap Z execution;
  sd_execSeq : Z;
  sd_cancelled : list Z;
  sd_started : bool
}.

Definition NewScheduler : Scheduler := mkSched ∅ 0 ∅ ∅ 0 [] false.

Definition with_jobs (f : gmap Z job → gmap Z job) (s : Scheduler) : Scheduler :=
  mkSched (f (sd_jobs s)) (sd_jobSeq s) (sd_cancel s) (sd_execs s) (sd_execSeq s) (sd_cancelled s) (sd_started s).

Definition removeJobLocked (taskID : Z) (s : Scheduler) : Scheduler := with_jobs (delete taskID) s.

Definition RemoveJob (taskID : Z) (s : Scheduler) : Scheduler := removeJobLocked taskID s.

Definition JobCount (s : Scheduler) : Z := Z.of_nat (size (sd_jobs s)).

Section scheduler.
Context (cron_ok : string → bool).

(** [true] is the nil error. *)
Definition registerJob (taskID : Z) (cronExpr targets : string) (s : Scheduler) : bool * Scheduler :=
  if cron_ok cronExpr
  then (true, mkSched (<[taskID := mkJob (sd_jobSeq s + 1) cronExpr targets]> (sd_jobs s)) (sd_jobSeq s + 1) (sd_cancel s)
                (sd_execs s) (sd_execSeq s) (sd_cancelled s) (sd_started s))
  else (false, s).

Definition AddJob (taskID : Z) (cronExpr targets : string) (s : Scheduler) : bool * Scheduler :=
  registerJob taskID cronExpr targets (removeJobLocked taskID s).

Definition UpdateJob (taskID : Z) (cronExpr targets : string) (s : Scheduler) : bool * Scheduler := AddJob taskID cronExpr targets s.

Definition StartScheduler (ok : task_stmt → bool) (now : Z) (db : task_db) (s : Scheduler) : task_db * Scheduler :=
  if sd_started s then (db, s)
  else
    let s := mkSched (sd_jobs s) (sd_jobSeq s) (sd_cancel s) (sd_execs s) (sd_execSeq s) (sd_cancelled s) true in
    let db := cleanupStaleRuns ok now db in
    (db, if ok StListEnabled
         then fold_left (fun s t => (registerJob (t_ID t) (t_CronExpr t) (t_Targets t) s).2) (ListEnabledScanTasks db) s
         else s).

End scheduler.

Definition StopScheduler (s : Scheduler) : Scheduler :=
  if negb (sd_started s) then s
  else mkSched (sd_jobs s) (sd_jobSeq s) (sd_cancel s) (sd_execs s) (sd_execSeq s) (sd_cancelled s) false.

(** [run_ok] is the answer of [RunNow]. *)
Definition TriggerJob (run_ok : bool) (taskID : Z) (s : Scheduler) : bool :=
  match sd_jobs s !! taskID with None => false | Some _ => run_ok end.

Definition CancelJob (taskID : Z) (s : Scheduler) : option Scheduler :=
  match sd_cancel s !! taskID with
  | None => None
  | Some e => Some (mkSched (sd_jobs s) (sd_jobSeq s) (sd_cancel s) (sd_execs s) (sd_execSeq s) (e :: sd_cancelled s) (sd_started s))
  end.

(** The tuning of a run. *)
Definition exec_args (targets : string) (t : ScanTask) : scan_args :=
  let timeout := i64 (t_Timeout t * nanos_per_second) in
  mkArgs (t_ID t) targets (if timeout <=? 0 then 300 * nanos_per_second else timeout)
    (if t_ConcurrentHosts t <=? 0 then 50 else t_ConcurrentHosts t) (default 0 (t_CredentialID t)) (t_NetworkID t).

(** [executeScan] up to the call of [scanFunc], of the job [j] of the task. *)
Definition exec_begin (ok : task_stmt → bool) (taskID : Z) (j : job) (db : task_db) (s : Scheduler) : Scheduler :=
  match (if ok StGetTask then tk_tasks db !! taskID else None) with
  | None => s
  | Some t =>
      let e := sd_execSeq s + 1 in
      mkSched (sd_jobs s) (sd_jobSeq s) (<[taskID := e]> (sd_cancel s)) (<[e := mkExec (jb_id j) (exec_args (jb_targets j) t)]> (sd_execs s))
        e (sd_cancelled s) (sd_started s)
  end.

(** The deferred clean-up of execution [e]. *)
Definition exec_end (e : Z) (s : Scheduler) : Scheduler :=
  match sd_execs s !! e with
  | None => s
  | Some x => mkSched (sd_jobs s) (sd_jobSeq s) (delete (ar_task (ex_args x)) (sd_cancel s)) (delete e (sd_execs s)) (sd_execSeq s)
                (sd_cancelled s) (sd_started s)
  end.

(** * The service *)

Inductive task_error :=
| ErrScanTaskNotFound
| ErrScanNotRunning
| ErrScanTaskDisabled
| ErrSchedulerNotAvailable
| ErrRejected (text : string)
| ErrValidation (text : string)
| ErrStatement (st : task_stmt)
| ErrRegister
| ErrRegisterRollback
| ErrReregister
| ErrTrigger.

(** [sv_conn]: whether the raw connection is set; [sv_sched] may be nil. *)
Record Service := mkService { sv_db : task_db; sv_conn : bool; sv_sched : option Scheduler; sv_allowReserved : bool }.

Definition put_db (db : task_db) (s : Service) : Service := mkService db (sv_conn s) (sv_sched s) (sv_allowReserved s).
Definition put_sched (sd : option Scheduler) (s : Service) : Service := mkService (sv_db s) (sv_conn s) sd (sv_allowReserved s).

Record ScanTaskResponse := mkTaskResponse {
  rs_ID : Z;
  rs_Name : string;
  rs_Targets : string;
  rs_CronExpr : string;
  rs_PipelineConfig : PipelineConfig;
  rs_GlobalLabels : string;
  rs_Timeout : Z;
  rs_ConcurrentHosts : Z;
  rs_CredentialID : option Z;
  rs_Enabled : bool;
  rs_LastRunAt : option Z;
  rs_NextRunAt : option Z;
  rs_LastRunStatus : string;
  rs_CreatedAt : Z;
  rs_UpdatedAt : Z
}.

Definition toTaskResponse (t : ScanTask) : ScanTaskResponse :=
  let pipeline := if is_empty (t_PipelineConfig t) then zero_pipeline else stored_pipeline (t_PipelineConfig t) in
  mkTaskResponse (t_ID t) (t_Name t) (t_Targets t) (t_CronExpr t) pipeline (t_GlobalLabels t) (t_Timeout t) (t_ConcurrentHosts t)
    (t_CredentialID t) (t_Enabled t =? 1) (t_LastRunAt t) (t_NextRunAt t) (default "" (t_LastRunStatus t)) (t_CreatedAt t) (t_UpdatedAt t).

Definition response_enabled (enabled : bool) (r : ScanTaskResponse) : ScanTaskResponse :=
  mkTaskResponse (rs_ID r) (rs_Name r) (rs_Targets r) (rs_CronExpr r) (rs_PipelineConfig r) (rs_GlobalLabels r) (rs_Timeout r)
    (rs_ConcurrentHosts r) (rs_CredentialID r) enabled (rs_LastRunAt r) (rs_NextRunAt r) (rs_LastRunStatus r) (rs_CreatedAt r) (rs_UpdatedAt r).

(** The int conversions keep every value on 64-bit platforms. *)
Record ScanRunResponse := mkRunResponse {
  rr_ID : Z;
  rr_TaskID : Z;
  rr_Status : string;
  rr_TotalHosts : Z;
  rr_AliveHosts : Z;
  rr_NewHosts : Z;
  rr_UpdatedHosts : Z;
  rr_DurationMs : Z;
  rr_ErrorMessage : string;
  rr_StartedAt : option Z;
  rr_FinishedAt : option Z;
  rr_CreatedAt : Z
}.

Definition toRunResponse (r : TaskRun) : ScanRunResponse :=
  mkRunResponse (ru_ID r) (ru_TaskID r) (ru_Status r) (ru_TotalHosts r) (ru_AliveHosts r) (ru_NewHosts r) (ru_UpdatedHosts r)
    (ru_DurationMs r) (ru_ErrorMessage r) (ru_StartedAt r) (ru_FinishedAt r) (ru_CreatedAt r).

Record ScanResultResponse := mkResultResponse {
  rt_ID : Z;
  rt_TaskID : Z;
  rt_RunID : Z;
  rt_IP : string;
  rt_Alive : bool;
  rt_RTTMs : Z;
  rt_Ports : string;
  rt_Services : string;
  rt_SNMPData : string;
  rt_PrometheusDetected : bool;
  rt_PrometheusURL : string;
  rt_NodeExporterDetected : bool;
  rt_NodeExporterURL : string;
  rt_NodeExporterData : string;
  rt_ScannedAt : Z
}.

Definition toScanResultResponse (r : TaskResult) : ScanResultResponse :=
  mkResultResponse (re_ID r) (re_TaskID r) (default 0 (re_RunID r)) (re_Ip r) (re_Alive r =? 1) (re_RttMs r) (re_Ports r) (re_Services r)
    (re_SnmpData r) (re_PrometheusDetected r =? 1) (re_PrometheusUrl r) (re_NodeExporterDetected r =? 1) (re_NodeExporterUrl r)
    (re_NodeExporterData r) (re_ScannedAt r).

Definition credentialIDPtr (id : Z) : option Z := if id =? 0 then None else Some id.

(** ** Networks of targets *)

(** [strings.FieldsFunc] on comma, space, tab and semicolon. *)
Definition field_sep (c : ascii) : bool := bool_decide (ascii_Z c ∈ [44; 32; 9; 59]).

Fixpoint fields_loop (s cur : string) : list string :=
  match s with
  | EmptyString => if is_empty cur then [] else [cur]
  | String c s =>
      if field_sep c then (if is_empty cur then fields_loop s "" else cur :: fields_loop s "")
      else fields_loop s (cur +:+ String c "")
  end.

Definition target_fields (s : string) : list string := fields_loop s "".

(** [net.IPNet.String] of a network with a mask of [net.CIDRMask]. *)
Definition net_string (n : IPNet) : string :=
  let nn := default (net_IP n) (To4 (net_IP n)) in
  let m := if (length (net_Mask n) =? 16)%nat && (length nn =? 4)%nat then drop 12 (net_Mask n) else net_Mask n in
  ip_string nn +:+ "/" +:+ itoa (MaskSize m).1.

Definition network_by_cidr (cidr : string) (db : task_db) : option Z :=
  (fun p => p.2.1) <$> list_find (fun n => n.2 = cidr) (tk_networks db).

Definition ResolveNetworkFromTargets (ok : task_stmt → bool) (targets : string) (db : task_db) : result task_stmt (option Z) :=
  match target_fields targets with
  | [f] =>
      let raw := trim_space f in
      match ParseCIDR raw with
      | None => Ok None
      | Some ipNet =>
          if negb (ok StNetwork) then Err StNetwork
          else match network_by_cidr (net_string ipNet) db with
               | Some id => Ok (Some id)
               | None => Ok (network_by_cidr raw db)
               end
      end
  | _ => Ok None
  end.

Definition stampTaskNetwork (ok : task_stmt → bool) (taskID : Z) (targets : string) (s : Service) : Service :=
  if negb (sv_conn s) then s
  else match ResolveNetworkFromTargets ok targets (sv_db s) with
       | Err _ => s
       | Ok netID => if ok StStamp then put_db (alter_task (set_network netID) taskID (sv_db s)) s else s
       end.

(** ** Operations *)

Definition GetScanTask (ok : task_stmt → bool) (id : Z) (db : task_db) : result task_error ScanTask :=
  if negb (ok StGetTask) then Err (ErrStatement StGetTask)
  else match tk_tasks db !! id with None => Err ErrScanTaskNotFound | Some t => Ok t end.

Section service.
Context (cron_ok : string → bool) (gocron_err : option string).
Context (ok : task_stmt → bool).

Definition CreateTask (now : Z) (req : ScanTaskRequest) (s : Service) : result task_error ScanTaskResponse * Service :=
  let req := if rq_ConcurrentHosts req =? 0
             then mkTaskRequest (rq_Name req) (rq_Targets req) (rq_CronExpr req) (rq_PipelineConfig req) (rq_GlobalLabels req)
                    (rq_Timeout req) DefaultConcurrentHosts (rq_CredentialID req)
             else req in
  match ValidateScanTaskRequest cron_ok gocron_err req (sv_allowReserved s) with
  | Some e => (Err (ErrRejected e), s)
  | None =>
      let cfgJSON := marshal (pipeline_json (rq_PipelineConfig req)) in
      if negb (ok StCreateTask) then (Err (ErrStatement StCreateTask), s)
      else
        let '(task, db) := CreateScanTask now
          (mkParams (rq_Name req) (rq_Targets req) (rq_CronExpr req) cfgJSON (rq_GlobalLabels req) (rq_Timeout req)
             (rq_ConcurrentHosts req) (credentialIDPtr (rq_CredentialID req))) (sv_db s) in
        let s := put_db db s in
        let '(registered, s) :=
          match sv_sched s with
          | None => (true, s)
          | Some sd => let '(b, sd) := AddJob cron_ok (t_ID task) (t_CronExpr task) (t_Targets task) sd in (b, put_sched (Some sd) s)
          end in
        if registered
        then (Ok (toTaskResponse task), stampTaskNetwork ok (t_ID task) (t_Targets task) s)
        else if ok StDeleteTask then (Err ErrRegister, put_db (DeleteScanTask (t_ID task) (sv_db s)).2 s)
        else (Err ErrRegisterRollback, s)
  end.

(** The merged columns of an update, or the error of its validation. *)
Definition merge_update (req : UpdateScanTaskRequest) (allow : bool) (existing : ScanTask) : result task_error task_params :=
  let? targets :=
    match up_Targets req with
    | None => Ok (t_Targets existing)
    | Some targets =>
        match ValidateTargetsFor targets allow with
        | Some e => Err (ErrValidation ("targets: " +:+ err_text e))
        | None => Ok targets
        end
    end in
  let? pipelineCfg :=
    match up_PipelineConfig req with
    | None => Ok (t_PipelineConfig existing)
    | Some c =>
        match ValidatePipelineConfig c with
        | Some e => Err (ErrValidation ("pipeline_config: " +:+ e))
        | None => Ok (marshal (pipeline_json c))
        end
    end in
  Ok (mkParams (default (t_Name existing) (up_Name req)) targets (default (t_CronExpr existing) (up_CronExpr req)) pipelineCfg
        (default (t_GlobalLabels existing) (up_GlobalLabels req)) (default (t_Timeout existing) (up_Timeout req))
        (default (t_ConcurrentHosts existing) (up_ConcurrentHosts req))
        (match up_CredentialID req with Some c => Some c | None => t_CredentialID existing end)).

(** The enabled flag to reach, and whether it changes. *)
Definition wanted_enabled (req : UpdateScanTaskRequest) (existing : ScanTask) : Z * bool :=
  match up_Enabled req with
  | None => (t_Enabled existing, false)
  | Some b =>
      let want := if b then 1 else 0 in
      if negb (want =? t_Enabled existing) then (want, true) else (t_Enabled existing, false)
  end.

(** The job follows the row. *)
Definition reconcile_job (id : Z) (existing : ScanTask) (p : task_params) (newEnabled : Z) (enabledChanged : bool)
    (sd : Scheduler) : bool * Scheduler :=
  let cronChanged := negb (bool_decide (pa_CronExpr p = t_CronExpr existing)) in
  let targetsChanged := negb (bool_decide (pa_Targets p = t_Targets existing)) in
  if newEnabled =? 0 then (true, RemoveJob id sd)
  else if cronChanged || targetsChanged || (enabledChanged && (newEnabled =? 1))
  then UpdateJob cron_ok id (pa_CronExpr p) (pa_Targets p) sd
  else (true, sd).

Definition UpdateTask (now id : Z) (req : UpdateScanTaskRequest) (s : Service) : result task_error ScanTaskResponse * Service :=
  match GetScanTask ok id (sv_db s) with
  | Err e => (Err e, s)
  | Ok existing =>
      match merge_update req (sv_allowReserved s) existing with
      | Err e => (Err e, s)
      | Ok p =>
          if negb (ok StUpdateTask) then (Err (ErrStatement StUpdateTask), s)
          else match UpdateScanTask now p id (sv_db s) with
          | None => (Err (ErrStatement StUpdateTask), s)
          | Some (task, db) =>
              let s := put_db db s in
              let '(newEnabled, enabledChanged) := wanted_enabled req existing in
              if enabledChanged && negb (ok StToggle) then (Err (ErrStatement StToggle), s)
              else
                let s := if enabledChanged then put_db (ToggleScanTaskEnabled now newEnabled id (sv_db s)) s else s in
                let '(registered, s) :=
                  match sv_sched s with
                  | None => (true, s)
                  | Some sd => let '(b, sd) := reconcile_job id existing p newEnabled enabledChanged sd in (b, put_sched (Some sd) s)
                  end in
                if negb registered then (Err ErrReregister, s)
                else
                  (Ok (response_enabled (newEnabled =? 1) (toTaskResponse task)),
                   if negb (bool_decide (pa_Targets p = t_Targets existing)) then stampTaskNetwork ok id (pa_Targets p) s else s)
          end
      end
  end.

Definition DeleteTask (id : Z) (s : Service) : option task_error * Service :=
  match GetScanTask ok id (sv_db s) with
  | Err e => (Some e, s)
  | Ok _ =>
      let s := put_sched (RemoveJob id <$> sv_sched s) s in
      if negb (ok StDeleteTask) then (Some (ErrStatement StDeleteTask), s)
      else let '(rows, db) := DeleteScanTask id (sv_db s) in
           (if rows =? 0 then Some ErrScanTaskNotFound else None, put_db db s)
  end.

(** [None] is the response with status triggered. *)
Definition TriggerTask (run_ok : bool) (id : Z) (s : Service) : option task_error :=
  match GetScanTask ok id (sv_db s) with
  | Err e => Some e
  | Ok task =>
      if t_Enabled task =? 0 then Some ErrScanTaskDisabled
      else match sv_sched s with
           | None => Some ErrSchedulerNotAvailable
           | Some sd => if TriggerJob run_ok id sd then None else Some ErrTrigger
           end
  end.

Definition cancelled_params : run_params := mkRunParams "cancelled" 0 0 0 0 0 "cancelled by user" None.

Definition CancelTask (id : Z) (s : Service) : option task_error * Service :=
  match GetScanTask ok id (sv_db s) with
  | Err e => (Some e, s)
  | Ok _ =>
      match sv_sched s with
      | None => (Some ErrScanNotRunning, s)
      | Some sd =>
          match CancelJob id sd with
          | None => (Some ErrScanNotRunning, s)
          | Some sd =>
              let s := put_sched (Some sd) s in
              (None,
               match (if ok StLatestRun then GetLatestRun id (sv_db s) else None) with
               | None => s
               | Some run =>
                   if bool_decide (ru_Status run = "running") && ok StUpdateRun
                   then put_db (UpdateScanTaskRun cancelled_params (ru_ID run) (sv_db s)) s else s
               end)
          end
      end
  end.

(** ** Reads *)

Definition taskNetworkInScope (taskID : Z) (scope : NetScope) (s : Service) : bool :=
  if sc_Global scope then true
  else if negb (sv_conn s) then true
  else if negb (ok StScope) then false
  else match tk_tasks (sv_db s) !! taskID with
       | None => false
       | Some t => match t_NetworkID t with Some n => AllowsNetwork scope n | None => false end
       end.

Definition GetTask (id : Z) (scope : NetScope) (s : Service) : result task_error ScanTaskResponse :=
  if negb (taskNetworkInScope id scope s) then Err ErrScanTaskNotFound
  else let? t := GetScanTask ok id (sv_db s) in Ok (toTaskResponse t).

Definition clamp_limit (limit : Z) : Z :=
  let limit := if limit <? 20 then 20 else limit in if 100 <? limit then 100 else limit.

Definition listTasksScoped (search : string) (limit offset : Z) (scope : NetScope) (s : Service)
    : result task_error (list ScanTaskResponse * Z) :=
  let pred := NetworkPredicate scope "" in
  let rows := filter (fun t => pred_holds pred (t_NetworkID t) && task_matches search t = true) (tasks_by_id (tk_tasks (sv_db s))) in
  if negb (ok StCountTasks) then Err (ErrStatement StCountTasks)
  else if negb (ok StListTasks) then Err (ErrStatement StListTasks)
  else Ok (toTaskResponse <$> limit_offset limit offset rows, Z.of_nat (length rows)).

Definition ListTasks (search : string) (limit offset : Z) (scope : NetScope) (s : Service)
    : result task_error (list ScanTaskResponse * Z) :=
  let limit := clamp_limit limit in
  let offset := if offset <? 0 then 0 else offset in
  if negb (sc_Global scope) && sv_conn s then listTasksScoped search limit offset scope s
  else if negb (ok StListTasks) then Err (ErrStatement StListTasks)
  else if negb (ok StCountTasks) then Err (ErrStatement StCountTasks)
  else Ok (toTaskResponse <$> ListScanTasksSearch search limit offset (sv_db s), CountScanTasksSearch search (sv_db s)).

Definition GetTaskRuns (taskID limit offset : Z) (scope : NetScope) (s : Service) : result task_error (list ScanRunResponse * Z) :=
  if negb (taskNetworkInScope taskID scope s) then Err ErrScanTaskNotFound
  else if negb (ok StListRuns) then Err (ErrStatement StListRuns)
  else if negb (ok StCountRuns) then Err (ErrStatement StCountRuns)
  else Ok (toRunResponse <$> ListScanTaskRuns taskID (clamp_limit limit) offset (sv_db s), CountScanTaskRuns taskID (sv_db s)).

Definition GetTaskResults (taskID limit offset : Z) (scope : NetScope) (s : Service) : result task_error (list ScanResultResponse * Z) :=
  if negb (taskNetworkInScope taskID scope s) then Err ErrScanTaskNotFound
  else if negb (ok StListResults) then Err (ErrStatement StListResults)
  else if negb (ok StCountResults) then Err (ErrStatement StCountResults)
  else Ok (toScanResultResponse <$> ListScanResults taskID (clamp_limit limit) offset (sv_db s), CountScanResults taskID (sv_db s)).

(** * The bookkeeping of a run *)

(** The run row, and the task marked as running; [None] when the row could not
    be written, which ends the run. *)
Definition run_begin (now taskID : Z) (db : task_db) : option (Z * task_db) :=
  if negb (ok StCreateRun) then None
  else let '(run, db) := CreateScanTaskRun now taskID (Some now) db in
       Some (ru_ID run,
             if ok StTaskStatus then UpdateScanTaskStatus now (Some now) None (Some "running") taskID db else db).

Definition run_finalize (now runID taskID total alive new updated durationMs : Z) (db : task_db) : task_db :=
  let db := if ok StUpdateRun
            then UpdateScanTaskRun (mkRunParams "completed" total alive new updated durationMs "" (Some now)) runID db else db in
  if ok StTaskStatus then UpdateScanTaskStatus now (Some now) None (Some "completed") taskID db else db.

Definition failRun (now runID taskID durationMs : Z) (msg : string) (db : task_db) : task_db :=
  let db := if ok StUpdateRun
            then UpdateScanTaskRun (mkRunParams "failed" 0 0 0 0 durationMs msg (Some now)) runID db else db in
  if ok StTaskStatus then UpdateScanTaskStatus now (Some now) None (Some "failed") taskID db else db.

End service.

(** The port list of a run: [port_scan.ports] of the stored pipeline; an object
    that does not decode leaves the global list. *)
Definition run_port_spec (t : ScanTask) : string :=
  match unmarshal (t_PipelineConfig t) with
  | Some (JObject o) =>
      match jget "port_scan" o with
      | Some (JObject p) =>
          match jget "enabled" p, jget "ports" p with
          | Some (JBool true), Some (JString ports) => ports
          | _, _ => ""
          end
      | _ => ""
      end
  | _ => ""
  end.

(** ** The network of a task without one *)

Fixpoint first_target (parts : list string) : string :=
  match parts with
  | [] => ""
  | p :: ps => let t := trim_space p in if is_empty t then first_target ps else t
  end.

(** [net.IPNet.String] of an address with a /32 mask: the 16-byte form of an
    IPv6 address does not fit the mask and prints as nil. *)
Definition target_net (first : string) : option (string * ip) :=
  match ParseCIDR first with
  | Some n => Some (net_string n, net_IP n)
  | None =>
      match ParseIP first with
      | Some a => Some (match To4 a with Some v4 => ip_string v4 +:+ "/32" | None => "<nil>" end, a)
      | None => None
      end
  end.

Definition networkIDForTargets (ok : task_stmt → bool) (targets : string) (db : task_db) : option Z :=
  let first := first_target (split_on ","%char targets) in
  if is_empty first then None
  else match target_net first with
       | None => None
       | Some (text, a) =>
           if negb (ok StNetwork) then None
           else (fun p => p.2.1) <$> list_find (fun n => match ParseCIDR n.2 with
                                                        | None => false
                                                        | Some parsed => bool_decide (text = net_string parsed) || Contains parsed a
                                                        end = true) (tk_networks db)
       end.

(** The network of a run. *)
Definition run_network (ok : task_stmt → bool) (singleton : option Z) (taskID : Z) (db : task_db) : option Z :=
  match (if ok StGetTask then tk_tasks db !! taskID else None) with
  | None => singleton
  | Some t =>
      match t_NetworkID t with
      | Some n => if 0 <? n then Some n
                  else match networkIDForTargets ok (t_Targets t) db with Some m => Some m | None => singleton end
      | None => match networkIDForTargets ok (t_Targets t) db with Some m => Some m | None => singleton end
      end
  end.

(** * Requests *)

(** The path parameter: whether a 400 was written, and the id the handler goes
    on with ([None] when it returns). *)
Definition parseScanID (idText : string) : bool * option Z :=
  match atoi idText with
  | None => (true, None)
  | Some id => if id <=? 0 then (true, Some 0) else (false, Some id)
  end.
