(* ===== verification/TaskServiceSpec.v ===== *)
(** Theorems on scan tasks: the registered jobs follow the rows, what a scope
    shows, and what the cancellation of a run leaves behind. *)

From stdpp Require sorting.
From S2P Require Import Prelude NetAddr Cidr Db DeviceStore Json TaskRules Scopes ScopesSpec TaskService.

Open Scope Z_scope.

(** * Jobs and rows *)

Section jobs.
Context (cron_ok : string → bool) (gocron_err : option string).

(** The job a row asks for. *)
Definition job_of (t : ScanTask) : option (string * string) :=
  if (t_Enabled t =? 1) && cron_ok (t_CronExpr t) then Some (t_CronExpr t, t_Targets t) else None.

Definition job_view (j : job) : string * string := (jb_cron j, jb_targets j).

(** Operations of the service, the scheduler and the runs. *)
Inductive task_op :=
| OpCreate (now : Z) (req : ScanTaskRequest)
| OpUpdate (now id : Z) (req : UpdateScanTaskRequest)
| OpDelete (id : Z)
| OpCancel (id : Z)
| OpStart (now : Z)
| OpFire (id : Z)
| OpDone (e : Z)
| OpRunBegin (now id : Z)
| OpRunFinalize (now run id total alive new updated ms : Z)
| OpRunFail (now run id ms : Z) (msg : string).

(** A registered job starts unless one of its runs is going on. *)
Definition fire (ok : task_stmt → bool) (id : Z) (db : task_db) (sd : Scheduler) : Scheduler :=
  match sd_jobs sd !! id with
  | None => sd
  | Some j => if existsb (fun kv => ex_job kv.2 =? jb_id j) (map_to_list (sd_execs sd)) then sd else exec_begin ok id j db sd
  end.

Definition apply_op (ok : task_stmt → bool) (op : task_op) (s : Service) : Service :=
  match op with
  | OpCreate now req => (CreateTask cron_ok gocron_err ok now req s).2
  | OpUpdate now id req => (UpdateTask cron_ok ok now id req s).2
  | OpDelete id => (DeleteTask ok id s).2
  | OpCancel id => (CancelTask ok id s).2
  | OpStart now =>
      match sv_sched s with
      | None => s
      | Some sd => let '(db, sd) := StartScheduler cron_ok ok now (sv_db s) sd in put_sched (Some sd) (put_db db s)
      end
  | OpFire id => put_sched (fire ok id (sv_db s) <$> sv_sched s) s
  | OpDone e => put_sched (exec_end e <$> sv_sched s) s
  | OpRunBegin now id => match run_begin ok now id (sv_db s) with None => s | Some (_, db) => put_db db s end
  | OpRunFinalize now run id total alive new updated ms =>
      put_db (run_finalize ok now run id total alive new updated ms (sv_db s)) s
  | OpRunFail now run id ms msg => put_db (failRun ok now run id ms msg (sv_db s)) s
  end.

(** Rows sit under their id, below the sequence, enabled or not. *)
Definition rows_wf (db : task_db) : Prop :=
  ∀ id t, tk_tasks db !! id = Some t → t_ID t = id ∧ id ≤ tk_seq db ∧ (t_Enabled t = 0 ∨ t_Enabled t = 1).

(** The job of [id] is the one its row asks for; before the start it may be missing. *)
Definition tracks (m : gmap Z ScanTask) (sd : Scheduler) (id : Z) : Prop :=
  job_view <$> sd_jobs sd !! id = m !! id ≫= job_of ∨ (sd_started sd = false ∧ sd_jobs sd !! id = None).

Definition in_sync (s : Service) : Prop :=
  rows_wf (sv_db s) ∧ ∀ sd, sv_sched s = Some sd → ∀ id, tracks (tk_tasks (sv_db s)) sd id.

(** ** Statements that leave the schedule alone *)

Definition same_schedule (f : ScanTask → ScanTask) : Prop :=
  ∀ t, t_ID (f t) = t_ID t ∧ t_Enabled (f t) = t_Enabled t ∧ t_CronExpr (f t) = t_CronExpr t ∧ t_Targets (f t) = t_Targets t.

Lemma alter_wf f id db :
  (∀ t, t_ID (f t) = t_ID t ∧ (t_Enabled t = 0 ∨ t_Enabled t = 1 → t_Enabled (f t) = 0 ∨ t_Enabled (f t) = 1)) →
  rows_wf db → rows_wf (alter_task f id db).
Proof.
  intros Hf Hw i t. cbn. rewrite lookup_alter_Some. intros [(<- & x & Hx & ->)|[_ Hx]]; [|by apply Hw].
  destruct (Hw _ _ Hx) as (? & ? & ?), (Hf x) as [-> He]. auto.
Qed.

Lemma alter_wanted f id m i : same_schedule f → (alter f id m : gmap Z ScanTask) !! i ≫= job_of = m !! i ≫= job_of.
Proof.
  intros Hf. destruct (decide (id = i)) as [<-|]; [|by rewrite lookup_alter_ne]. rewrite lookup_alter, decide_True by done.
  destruct (m !! id) as [t|]; [|done]. cbn. unfold job_of. by destruct (Hf t) as (_ & -> & -> & ->).
Qed.

Lemma sync_alter f id s : same_schedule f → in_sync s → in_sync (put_db (alter_task f id (sv_db s)) s).
Proof.
  intros Hf [Hw Hs]. split; cbn.
  - apply alter_wf; [|done]. intros t. destruct (Hf t) as (-> & -> & _). auto.
  - intros sd Hsd i. unfold tracks. rewrite alter_wanted by done. by apply Hs.
Qed.

Lemma network_same n : same_schedule (set_network n). Proof. done. Qed.
Lemma status_same now l n st : same_schedule (set_task_status now l n st). Proof. done. Qed.

Lemma sync_runs f s : in_sync s → in_sync (put_db (with_runs f (sv_db s)) s).
Proof. intros [Hw Hs]. by split. Qed.

Lemma sync_stamp ok id targets s : in_sync s → in_sync (stampTaskNetwork ok id targets s).
Proof.
  intros Hs. unfold stampTaskNetwork. destruct (negb (sv_conn s)); [done|]. destruct (ResolveNetworkFromTargets _ _ _); [|done].
  destruct (ok StStamp); [|done]. by apply sync_alter.
Qed.

(** A change of the scheduler that keeps jobs and the start. *)
Lemma sync_sched s sd sd' : sv_sched s = Some sd → sd_jobs sd' = sd_jobs sd → sd_started sd' = sd_started sd →
  in_sync s → in_sync (put_sched (Some sd') s).
Proof.
  intros Hsd Hj Hst [Hw Hs]. split; [done|]. intros ? [= <-] i. unfold tracks. rewrite Hj, Hst. by apply Hs.
Qed.

Lemma exec_begin_jobs ok id j db sd : sd_jobs (exec_begin ok id j db sd) = sd_jobs sd ∧ sd_started (exec_begin ok id j db sd) = sd_started sd.
Proof. unfold exec_begin. by destruct (if ok StGetTask then _ else _). Qed.

Lemma fire_jobs ok id db sd : sd_jobs (fire ok id db sd) = sd_jobs sd ∧ sd_started (fire ok id db sd) = sd_started sd.
Proof. unfold fire. destruct (sd_jobs sd !! id); [|done]. destruct (existsb _ _); [done|]. apply exec_begin_jobs. Qed.

Lemma exec_end_jobs e sd : sd_jobs (exec_end e sd) = sd_jobs sd ∧ sd_started (exec_end e sd) = sd_started sd.
Proof. unfold exec_end. by destruct (sd_execs sd !! e). Qed.

(** ** Operations on one row *)

(** An operation that touches only [id]: other rows and jobs stay. *)
Lemma sync_one s s' id :
  rows_wf (sv_db s') →
  (∀ i, i ≠ id → tk_tasks (sv_db s') !! i = tk_tasks (sv_db s) !! i) →
  (∀ sd', sv_sched s' = Some sd' → ∃ sd, sv_sched s = Some sd ∧ sd_started sd' = sd_started sd
     ∧ (∀ i, i ≠ id → sd_jobs sd' !! i = sd_jobs sd !! i)
     ∧ (tracks (tk_tasks (sv_db s)) sd id → tracks (tk_tasks (sv_db s')) sd' id)) →
  in_sync s → in_sync s'.
Proof.
  intros Hw Hrows Hsd [_ Hs]. split; [done|]. intros sd' E i. destruct (Hsd sd' E) as (sd & E0 & Hst & Hj & Ht).
  specialize (Hs sd E0). destruct (decide (i = id)) as [->|Hne]; [by apply Ht|].
  unfold tracks. rewrite Hst, Hj, Hrows by done. apply Hs.
Qed.

Lemma AddJob_at id cron targets sd :
  job_view <$> sd_jobs (AddJob cron_ok id cron targets sd).2 !! id = if cron_ok cron then Some (cron, targets) else None.
Proof.
  unfold AddJob, registerJob. destruct (cron_ok cron); cbn.
  - by rewrite lookup_insert, decide_True by done.
  - by rewrite lookup_delete, decide_True by done.
Qed.

Lemma AddJob_other id cron targets sd i : i ≠ id → sd_jobs (AddJob cron_ok id cron targets sd).2 !! i = sd_jobs sd !! i.
Proof.
  intros Hi. unfold AddJob, registerJob. destruct (cron_ok cron); cbn; rewrite ?lookup_insert_ne, lookup_delete_ne by done; done.
Qed.

Lemma AddJob_started id cron targets sd : sd_started (AddJob cron_ok id cron targets sd).2 = sd_started sd.
Proof. unfold AddJob, registerJob. by destruct (cron_ok cron). Qed.

Lemma AddJob_ok id cron targets sd : (AddJob cron_ok id cron targets sd).1 = cron_ok cron.
Proof. unfold AddJob, registerJob. by destruct (cron_ok cron). Qed.

Lemma accepted_cron req allow : ValidateScanTaskRequest cron_ok gocron_err req allow = None → cron_ok (rq_CronExpr req) = true.
Proof.
  unfold ValidateScanTaskRequest, validateCronExpr. intros H.
  destruct (is_empty (trim_space (rq_Name req))); [done|]. destruct (is_empty (trim_space (rq_Targets req))); [done|].
  destruct (countTargetIPs _); [|done]. destruct (_ <? _); [done|]. destruct (ValidateTargetsFor _ _); [done|].
  destruct (is_empty (rq_CronExpr req)); [done|]. destruct gocron_err; [done|]. by destruct (cron_ok (rq_CronExpr req)).
Qed.

Lemma sync_create ok now req s : in_sync s → in_sync (CreateTask cron_ok gocron_err ok now req s).2.
Proof.
  intros Hs. unfold CreateTask. cbv zeta. set (req' := if rq_ConcurrentHosts req =? 0 then _ else req). clearbody req'.
  destruct (ValidateScanTaskRequest _ _ req' _) eqn:EV; [done|]. apply accepted_cron in EV.
  destruct (negb (ok StCreateTask)); [done|]. cbn [CreateScanTask].
  set (t := mkScanTask _ _ _ _ _ _ _ _ _ _ _ _ _ _ _ _). set (db := mkTaskDb _ _ _ _ _ _).
  assert (rows_wf db) as Hw.
  { intros i x. cbn. destruct Hs as [Hw _]. intros [[<- <-]|[_ Hx]]%lookup_insert_Some; [cbn; lia|].
    destruct (Hw _ _ Hx) as (? & ? & ?). split_and!; [done|lia|done]. }
  destruct (sv_sched (put_db db s)) as [sd|] eqn:Esd; cbn in Esd.
  - pose proof (AddJob_ok (t_ID t) (t_CronExpr t) (t_Targets t) sd) as Eok.
    pose proof (AddJob_at (t_ID t) (t_CronExpr t) (t_Targets t) sd) as Eat.
    pose proof (AddJob_other (t_ID t) (t_CronExpr t) (t_Targets t) sd) as Eoth.
    pose proof (AddJob_started (t_ID t) (t_CronExpr t) (t_Targets t) sd) as Est.
    destruct (AddJob _ _ _ _ sd) as [b sd']. cbn in Eok, Eat, Eoth, Est. rewrite EV in Eok, Eat. subst b. cbn [snd].
    apply sync_stamp. apply (sync_one s _ (t_ID t)); [done| | |done]; cbn.
    + intros i Hi. by rewrite lookup_insert_ne.
    + intros ? [= <-]. exists sd. split_and!; [done..|]. intros _. left. rewrite Eat, lookup_insert, decide_True by done.
      cbn. unfold job_of. cbn. by rewrite EV.
  - cbn [snd]. apply sync_stamp. split; [done|]. cbn. by rewrite Esd.
Qed.

Lemma sync_delete ok id s : ok StDeleteTask = true → in_sync s → in_sync (DeleteTask ok id s).2.
Proof.
  intros Hok Hs. unfold DeleteTask. destruct (GetScanTask _ _ _); [|done]. rewrite Hok. cbn [negb].
  unfold DeleteScanTask. cbn [snd]. apply (sync_one s _ id); [| | |done]; cbn.
  - intros i t. cbn. intros [_ Ht]%lookup_delete_Some. by apply Hs.
  - intros i Hi. by rewrite lookup_delete_ne.
  - intros sd' (sd & -> & ->)%fmap_Some. exists sd. split_and!; [done..| |]; cbn.
    + intros i Hi. by rewrite lookup_delete_ne.
    + intros _. left. cbn. by simplify_map_eq.
Qed.

Lemma reconcile_other id existing p en ch sd i :
  i ≠ id → sd_jobs (reconcile_job cron_ok id existing p en ch sd).2 !! i = sd_jobs sd !! i.
Proof.
  intros Hi. unfold reconcile_job. destruct (en =? 0); [cbn; by rewrite lookup_delete_ne|].
  destruct (_ || _); [by apply AddJob_other|done].
Qed.

Lemma reconcile_started id existing p en ch sd : sd_started (reconcile_job cron_ok id existing p en ch sd).2 = sd_started sd.
Proof. unfold reconcile_job. destruct (en =? 0); [done|]. destruct (_ || _); [apply AddJob_started|done]. Qed.

(** The new flag is 0 or 1, and unchanged unless said so. *)
Lemma wanted_enabled_spec req existing en ch :
  wanted_enabled req existing = (en, ch) → t_Enabled existing = 0 ∨ t_Enabled existing = 1 →
  (en = 0 ∨ en = 1) ∧ (ch = false → en = t_Enabled existing).
Proof.
  unfold wanted_enabled. destruct (up_Enabled req) as [b|]; [|intros [= <- <-]; auto].
  destruct b; destruct (negb _); intros [= <- <-] ?; (split; [auto|done]).
Qed.

(** The row after an update, with the flag applied. *)
Definition updated_row (now : Z) (p : task_params) (en : Z) (ch : bool) (t : ScanTask) : ScanTask :=
  if ch then set_enabled now en (set_params now p t) else set_params now p t.

Lemma reconcile_at m sd id now existing p en ch :
  (en = 0 ∨ en = 1) → (ch = false → en = t_Enabled existing) → m !! id = Some existing →
  tracks m sd id → tracks (<[id := updated_row now p en ch existing]> m) (reconcile_job cron_ok id existing p en ch sd).2 id.
Proof.
  intros Hen Hch Hm Ht. unfold tracks. rewrite reconcile_started, lookup_insert, decide_True by done. cbn [mbind option_bind].
  assert (job_of (updated_row now p en ch existing) = if (en =? 1) && cron_ok (pa_CronExpr p) then Some (pa_CronExpr p, pa_Targets p) else None) as ->.
  { unfold job_of, updated_row. destruct ch; [done|]. rewrite (Hch eq_refl). done. }
  unfold reconcile_job. destruct (Z.eqb_spec en 0) as [->|Hne].
  { left. cbn. by rewrite lookup_delete, decide_True. }
  assert (en = 1) as -> by lia. cbn [Z.eqb Pos.eqb andb]. destruct (_ || _) eqn:E.
  { left. unfold UpdateJob. by rewrite AddJob_at. }
  apply orb_false_iff in E as [[Ec%negb_false_iff Et%negb_false_iff]%orb_false_iff Ech].
  apply bool_decide_eq_true in Ec, Et. rewrite andb_true_r in Ech. subst ch. specialize (Hch eq_refl).
  destruct Ht as [Ht|Ht]; [left|by right]. cbn. rewrite Ht, Hm. cbn. unfold job_of. by rewrite <- Hch, Ec, Et.
Qed.

Lemma sync_update ok now id req s : ok StToggle = true → in_sync s → in_sync (UpdateTask cron_ok ok now id req s).2.
Proof.
  intros Hok Hs. unfold UpdateTask, GetScanTask. destruct (negb (ok StGetTask)); [done|].
  destruct (tk_tasks (sv_db s) !! id) as [existing|] eqn:Em; [|done].
  destruct (merge_update _ _ _) as [p|]; [|done]. destruct (negb (ok StUpdateTask)); [done|].
  unfold UpdateScanTask. rewrite Em. destruct (wanted_enabled req existing) as [en ch] eqn:Ew.
  rewrite Hok, andb_false_r. destruct Hs as [Hw Ht]. destruct (Hw _ _ Em) as (Hid & _ & Hen0).
  destruct (wanted_enabled_spec _ _ _ _ Ew Hen0) as [Hen Hch].
  set (s1 := if ch then _ else _).
  assert (tk_tasks (sv_db s1) = <[id := updated_row now p en ch existing]> (tk_tasks (sv_db s))
          ∧ tk_seq (sv_db s1) = tk_seq (sv_db s) ∧ sv_sched s1 = sv_sched s) as (Erows & Eseq & Esched).
  { unfold s1, updated_row. destruct ch; cbn; (split; [|done]); apply map_eq; intros i;
      destruct (decide (i = id)) as [->|]; simplify_map_eq; done. }
  clearbody s1.
  assert (rows_wf (sv_db s1)) as Hw1.
  { intros i x. rewrite Erows, Eseq. intros [[<- <-]|[_ Hx]]%lookup_insert_Some; [|by apply Hw].
    destruct (Hw _ _ Em) as (? & ? & ?). unfold updated_row. destruct ch; cbn; auto. }
  assert (∀ s2, tk_tasks (sv_db s2) = tk_tasks (sv_db s1) → rows_wf (sv_db s2) →
    (∀ sd', sv_sched s2 = Some sd' → ∃ sd, sv_sched s = Some sd ∧ sd' = (reconcile_job cron_ok id existing p en ch sd).2) → in_sync s2) as Hgo.
  { intros s2 E2 Hw2 Hsd. apply (sync_one s s2 id); [done| | |by split].
    - intros i Hi. by rewrite E2, Erows, lookup_insert_ne.
    - intros sd' E. destruct (Hsd sd' E) as (sd & E0 & ->). exists sd. split_and!; [done|apply reconcile_started| |].
      + intros i Hi. by apply reconcile_other.
      + rewrite E2, Erows. by apply reconcile_at. }
  destruct (sv_sched s1) as [sd|] eqn:Esd.
  - destruct (reconcile_job _ _ _ _ _ _ sd) as [b sd'] eqn:Er.
    assert (in_sync (put_sched (Some sd') s1)) as H2.
    { apply Hgo; [done..|]. cbn. intros ? [= <-]. exists sd. by rewrite Er, <- Esched. }
    destruct (negb b); [done|]. cbn [snd]. destruct (negb _); [by apply sync_stamp|done].
  - assert (in_sync s1) as H2 by (apply Hgo; [done..|]; by rewrite Esd).
    cbn [negb snd]. destruct (negb _); [by apply sync_stamp|done].
Qed.

(** ** The start *)

Lemma register_fold l i w : ∀ sd,
  (∀ t, t ∈ l → t_Enabled t = 1) → (∀ t, t ∈ l → t_ID t = i → job_of t = w) →
  (job_view <$> sd_jobs sd !! i = w ∨ sd_jobs sd !! i = None) →
  let sd' := fold_left (fun s t => (registerJob cron_ok (t_ID t) (t_CronExpr t) (t_Targets t) s).2) l sd in
  sd_started sd' = sd_started sd
  ∧ (job_view <$> sd_jobs sd' !! i = w ∨ (sd_jobs sd' !! i = None ∧ ∀ t, t ∈ l → t_ID t ≠ i)).
Proof.
  induction l as [|t l IH]; intros sd Hen Hw Hx; cbn [fold_left].
  { split; [done|]. destruct Hx; [by left|]. right. split; [done|]. intros t []%elem_of_nil. }
  set (sd1 := (registerJob _ _ _ _ sd).2).
  assert (job_view <$> sd_jobs sd1 !! i = w ∨ (sd_jobs sd1 !! i = None ∧ t_ID t ≠ i)) as H1.
  { unfold sd1, registerJob. destruct (decide (t_ID t = i)) as [E|E].
    - left. pose proof (Hw t ltac:(by left) E) as Hj. unfold job_of in Hj. rewrite (Hen t) in Hj by (by left). cbn in Hj.
      destruct (cron_ok (t_CronExpr t)); cbn; [by rewrite E, lookup_insert, decide_True by done|].
      subst w. by destruct Hx as [-> | ->].
    - destruct (cron_ok (t_CronExpr t)); cbn; rewrite ?lookup_insert_ne by done; destruct Hx; auto. }
  assert (sd_started sd1 = sd_started sd) as Es by (unfold sd1, registerJob; by destruct (cron_ok _)).
  destruct (IH sd1) as [Hs Hr].
  - intros x Hin. apply Hen. by right.
  - intros x Hin. apply Hw. by right.
  - destruct H1 as [?|[? _]]; auto.
  - split; [congruence|]. destruct Hr as [Hr|[Hr Hl]]; [by left|].
    destruct H1 as [H1|[_ H1]].
    + (* a job once registered stays *)
      left. destruct w as [v|]; [|by rewrite Hr].
      exfalso. revert H1 Hr Hl. clear. intros H1 Hr Hl. revert H1 Hr. generalize sd1. clear sd1. intros s0. revert s0 Hl.
      induction l as [|x l IH]; intros s0 Hl H1 Hr; cbn in Hr; [by rewrite Hr in H1|].
      eapply IH; [..|exact Hr]; [intros y Hy; apply Hl; by right|].
      unfold registerJob. destruct (cron_ok _); cbn; [|done]. rewrite lookup_insert_ne; [done|]. apply Hl. by left.
    + right. split; [done|]. intros x [->|Hx']%elem_of_cons; [done|by apply Hl].
Qed.

Lemma enabled_rows db t : t ∈ ListEnabledScanTasks db ↔ t_Enabled t = 1 ∧ ∃ id, tk_tasks db !! id = Some t.
Proof.
  unfold ListEnabledScanTasks. rewrite list_elem_of_filter, list_elem_of_fmap. split.
  - intros [He ([id x] & -> & Hx%elem_of_map_to_list)]. eauto.
  - intros [He (id & Hx)]. split; [done|]. exists (id, t). split; [done|]. by apply elem_of_map_to_list.
Qed.

Lemma stale_tasks ok now db : tk_tasks (cleanupStaleRuns ok now db) = tk_tasks db ∧ tk_seq (cleanupStaleRuns ok now db) = tk_seq db.
Proof. unfold cleanupStaleRuns. by destruct (negb _). Qed.

Lemma sync_start ok now s sd :
  ok StListEnabled = true → sv_sched s = Some sd → in_sync s →
  in_sync (let '(db, sd) := StartScheduler cron_ok ok now (sv_db s) sd in put_sched (Some sd) (put_db db s)).
Proof.
  intros Hok Esd [Hw Hs]. specialize (Hs sd Esd). unfold StartScheduler. destruct (sd_started sd) eqn:Est.
  { split; [done|]. intros ? [= <-]. done. }
  rewrite Hok. destruct (stale_tasks ok now (sv_db s)) as [Et Eq]. set (db := cleanupStaleRuns ok now (sv_db s)) in *. clearbody db.
  split.
  { intros i t. cbn. rewrite Et, Eq. apply Hw. }
  intros sd' [= <-] i. cbn [sv_db put_sched put_db]. left. rewrite Et.
  destruct (register_fold (ListEnabledScanTasks db) i (tk_tasks (sv_db s) !! i ≫= job_of)
              (mkSched (sd_jobs sd) (sd_jobSeq sd) (sd_cancel sd) (sd_execs sd) (sd_execSeq sd) (sd_cancelled sd) true)) as [_ H].
  - by intros t [He _]%enabled_rows.
  - intros t [_ (id & Ht)]%enabled_rows Hid. rewrite Et in Ht. destruct (Hw _ _ Ht) as (Hid' & _).
    assert (id = i) as -> by congruence. by rewrite Ht.
  - cbn. destruct (Hs i) as [->|[_ ->]]; auto.
  - destruct H as [H|[Hn Hno]]; [done|]. rewrite Hn. cbn.
    destruct (tk_tasks (sv_db s) !! i) as [t|] eqn:Ei; [|done]. cbn. unfold job_of.
    destruct (Z.eqb_spec (t_Enabled t) 1) as [He|]; [|done]. exfalso. destruct (Hw _ _ Ei) as (Hid & _).
    apply (Hno t); [|done]. apply enabled_rows. split; [done|]. exists i. by rewrite Et.
Qed.

(** ** All operations *)

Lemma sync_run_status (ok : task_stmt → bool) st (f : task_db → task_db) id now l n v s :
  (∀ db, tk_tasks (f db) = tk_tasks db ∧ tk_seq (f db) = tk_seq db) → in_sync s →
  in_sync (put_db (if ok st then UpdateScanTaskStatus now l n v id (f (sv_db s)) else f (sv_db s)) s).
Proof.
  intros Hf Hs. destruct (Hf (sv_db s)) as [E1 E2].
  assert (in_sync (put_db (f (sv_db s)) s)) as H1.
  { destruct Hs as [Hw Hs]. split; [intros i t; cbn; rewrite E1, E2; apply Hw|]. cbn. intros sd E i. unfold tracks. rewrite E1. by apply Hs. }
  destruct (ok st); [|done]. by apply (sync_alter (set_task_status now l n v) id) in H1; [|apply status_same].
Qed.

Lemma sync_op ok op s :
  ok StToggle = true → ok StDeleteTask = true → ok StListEnabled = true → in_sync s → in_sync (apply_op ok op s).
Proof.
  intros H1 H2 H3 Hs. destruct op; cbn [apply_op].
  - by apply sync_create.
  - by apply sync_update.
  - by apply sync_delete.
  - unfold CancelTask. destruct (GetScanTask _ _ _); [|done]. destruct (sv_sched s) as [sd|] eqn:Esd; [|done].
    destruct (CancelJob id sd) as [sd'|] eqn:Ec; [|done]. cbn [snd].
    assert (in_sync (put_sched (Some sd') s)) as H'.
    { unfold CancelJob in Ec. destruct (sd_cancel sd !! id); [|done]. injection Ec as <-. by eapply sync_sched. }
    destruct (if ok StLatestRun then _ else _); [|done]. destruct (_ && _); [|done]. by apply (sync_runs _ _ H').
  - destruct (sv_sched s) as [sd|] eqn:Esd; [|done]. by apply sync_start.
  - destruct (sv_sched s) as [sd|] eqn:Esd; cbn; [|by destruct Hs as [Hw Hs]; split].
    eapply sync_sched; [exact Esd|apply fire_jobs..|done].
  - destruct (sv_sched s) as [sd|] eqn:Esd; cbn; [|by destruct Hs as [Hw Hs]; split].
    eapply sync_sched; [exact Esd|apply exec_end_jobs..|done].
  - unfold run_begin. destruct (negb (ok StCreateRun)); [done|]. cbn [CreateScanTaskRun].
    by apply (sync_run_status ok StTaskStatus (fun db => (CreateScanTaskRun now id (Some now) db).2)).
  - unfold run_finalize. cbv zeta.
    apply (sync_run_status ok StTaskStatus (fun db => if ok StUpdateRun then UpdateScanTaskRun _ run db else db)); [|done].
    intros db. by destruct (ok StUpdateRun).
  - unfold failRun. cbv zeta.
    apply (sync_run_status ok StTaskStatus (fun db => if ok StUpdateRun then UpdateScanTaskRun _ run db else db)); [|done].
    intros db. by destruct (ok StUpdateRun).
Qed.

(** C18.  From an empty scheduler on any set of tasks, after any sequence of
    creations, updates, deletions, cancellations, starts and runs, a job is
    registered for a task exactly when the task is enabled and gocron accepts
    its expression, and the job carries the expression and the targets of the
    row (before the start a job may be missing).  All statements may fail but
    the toggle, the deletion and the listing at the start. *)
Theorem jobs_follow_tasks (ops : list ((task_stmt → bool) * task_op)) db conn allow s
    (Hw : rows_wf db)
    (Hok : Forall (fun o => o.1 StToggle = true ∧ o.1 StDeleteTask = true ∧ o.1 StListEnabled = true) ops)
    (Hrun : fold_left (fun s o => apply_op o.1 o.2 s) ops (mkService db conn (Some NewScheduler) allow) = s) :
  ∀ sd, sv_sched s = Some sd → ∀ id, tracks (tk_tasks (sv_db s)) sd id.
Proof.
  subst s. assert (in_sync (mkService db conn (Some NewScheduler) allow)) as H0.
  { split; [done|]. intros ? [= <-] id. right. done. }
  revert H0. generalize (mkService db conn (Some NewScheduler) allow). revert Hok.
  induction ops as [|[ok op] ops IH]; intros Hok s0 H0; cbn [fold_left]; [by destruct H0|].
  apply list.Forall_cons in Hok as [(H1 & H2 & H3) Hok]. apply IH; [done|]. by apply sync_op.
Qed.

End jobs.

Definition all_ok : task_stmt → bool := fun _ => true.

Definition nightly : ScanTaskRequest := mkTaskRequest "office" "10.1.2.0/24" "0 3 * * *" DefaultPipelineConfig "{}" 30 0 0.

Definition no_change : UpdateScanTaskRequest := mkUpdateRequest None None None None None None None None None.

Definition empty_db : task_db := mkTaskDb ∅ 0 [] 0 [] [(4, "10.1.2.0/24"); (5, "10.1.0.0/16")].

Definition nightly_ops : list ((task_stmt → bool) * task_op) :=
  [(all_ok, OpStart 100); (all_ok, OpCreate 200 nightly); (all_ok, OpFire 1);
   (all_ok, OpUpdate 300 1 (mkUpdateRequest None (Some "10.1.0.0/16") None None None None None None None))].

Definition is_five_fields (e : string) : bool := (length (split_on " " e) =? 5)%nat.

Definition nightly_state : Service :=
  fold_left (fun s o => apply_op is_five_fields None o.1 o.2 s) nightly_ops (mkService empty_db true (Some NewScheduler) false).

Lemma jobs_follow_tasks_witness :
  ∃ sd, sv_sched nightly_state = Some sd ∧ tracks is_five_fields (tk_tasks (sv_db nightly_state)) sd 1.
Proof.
  destruct (sv_sched nightly_state) as [sd|] eqn:E; [|vm_compute in E; discriminate]. exists sd. split; [done|].
  eapply (jobs_follow_tasks is_five_fields None nightly_ops empty_db true false); [|repeat constructor|reflexivity|exact E].
  intros i t H. discriminate H.
Defined.

(** The job in that state is the one of the updated row. *)
Example nightly_job :
  (fun sd => job_view <$> sd_jobs sd !! 1) <$>
    sv_sched (fold_left (fun s o => apply_op is_five_fields None o.1 o.2 s) nightly_ops (mkService empty_db true (Some NewScheduler) false))
  = Some (Some ("0 3 * * *", "10.1.0.0/16")).
Proof. vm_compute. reflexivity. Qed.

(** * Reads in a scope *)

Lemma take_page {A} L k (l : list A) : limit_offset (Z.of_nat L) (Z.of_nat (k * L)) l = take L (drop (k * L) l).
Proof. unfold limit_offset. by rewrite !Nat2Z.id. Qed.

(** The pages from the first on make up the list. *)
Lemma pages_concat {A} L n (l : list A) :
  concat ((fun k => limit_offset (Z.of_nat L) (Z.of_nat (k * L)) l) <$> seq 0 n) = take (n * L) l.
Proof.
  induction n as [|n IH]; [done|]. rewrite seq_S, fmap_app, concat_app, IH. cbn [fmap list_fmap concat]. rewrite app_nil_r, take_page.
  replace (S n * L)%nat with (n * L + L)%nat by lia. by rewrite take_take_drop.
Qed.

Lemma by_id_elem m t : t ∈ tasks_by_id m ↔ ∃ id, m !! id = Some t.
Proof.
  unfold tasks_by_id. rewrite sorting.merge_sort_Permutation, list_elem_of_fmap. split.
  - intros ([id x] & -> & Hx%elem_of_map_to_list). eauto.
  - intros (id & Hx). exists (id, t). split; [done|]. by apply elem_of_map_to_list.
Qed.

#[export] Instance task_le_total : Total task_le.
Proof. intros a b. unfold task_le. lia. Qed.

#[export] Instance task_le_trans : Transitive task_le.
Proof. intros a b c. unfold task_le. lia. Qed.

Lemma by_id_sorted m : Sorted.StronglySorted task_le (tasks_by_id m).
Proof. apply (sorting.StronglySorted_merge_sort task_le). Qed.

Definition listed (search : string) (scope : NetScope) (db : task_db) : list ScanTask :=
  filter (fun t => visible scope (t_NetworkID t) && task_matches search t = true) (tasks_by_id (tk_tasks db)).

Section reads.
Context (s : Service) (Hconn : sv_conn s = true) (Hw : rows_wf (sv_db s)).

Lemma list_tasks_page search limit offset scope :
  ListTasks all_ok search limit offset scope s
  = Ok (toTaskResponse <$> limit_offset (clamp_limit limit) (if offset <? 0 then 0 else offset) (listed search scope (sv_db s)),
        Z.of_nat (length (listed search scope (sv_db s)))).
Proof using Hconn.
  unfold ListTasks. cbv zeta. rewrite Hconn, andb_true_r. unfold listed. destruct (sc_Global scope) eqn:Eg; cbn [negb all_ok].
  - unfold ListScanTasksSearch, CountScanTasksSearch.
    assert (filter (λ t : ScanTask, task_matches search t = true) (tasks_by_id (tk_tasks (sv_db s)))
            = filter (λ t : ScanTask, visible scope (t_NetworkID t) && task_matches search t = true) (tasks_by_id (tk_tasks (sv_db s)))) as ->.
    { apply filter_ext_in. intros t _. unfold visible. by rewrite Eg. }
    done.
  - unfold listTasksScoped. cbn [negb all_ok].
    assert (filter (λ t : ScanTask, pred_holds (NetworkPredicate scope "") (t_NetworkID t) && task_matches search t = true) (tasks_by_id (tk_tasks (sv_db s)))
            = filter (λ t : ScanTask, visible scope (t_NetworkID t) && task_matches search t = true) (tasks_by_id (tk_tasks (sv_db s)))) as ->.
    { apply filter_ext_in. intros t _. by rewrite predicate_visible. }
    done.
Qed.

Lemma in_scope_visible id scope t :
  tk_tasks (sv_db s) !! id = Some t → taskNetworkInScope all_ok id scope s = visible scope (t_NetworkID t).
Proof using Hconn.
  intros Ht. unfold taskNetworkInScope, visible. rewrite Hconn, Ht. cbn [negb all_ok].
  destruct (sc_Global scope); [done|]. by destruct (t_NetworkID t).
Qed.

End reads.

(** C19.  Paging through the listing of a scope yields every task of the scope
    that matches the search exactly once, in the order of ids, with its number
    as the total; and a task opens by id exactly when it is in the listing
    without a search. *)
Theorem scope_listing_exact s search scope L n
    (Hconn : sv_conn s = true) (Hw : rows_wf (sv_db s)) (HL : (20 ≤ L ≤ 100)%nat)
    (Hn : (length (listed search scope (sv_db s)) ≤ n * L)%nat) :
  concat ((fun k => match ListTasks all_ok search (Z.of_nat L) (Z.of_nat (k * L)) scope s with Ok (rows, _) => rows | Err _ => [] end)
            <$> seq 0 n)
  = toTaskResponse <$> listed search scope (sv_db s)
  ∧ Sorted.StronglySorted task_le (listed search scope (sv_db s)) ∧ NoDup (t_ID <$> listed search scope (sv_db s))
  ∧ ∀ id t, tk_tasks (sv_db s) !! id = Some t →
      (is_ok (GetTask all_ok id scope s) = true ↔ t ∈ listed "" scope (sv_db s)).
Proof.
  split_and!.
  - transitivity (concat ((fun k => toTaskResponse <$> limit_offset (Z.of_nat L) (Z.of_nat (k * L)) (listed search scope (sv_db s))) <$> seq 0 n)).
    + f_equal. apply list_fmap_ext. intros i k _. rewrite list_tasks_page by done.
      unfold clamp_limit. destruct (Z.ltb_spec (Z.of_nat L) 20); [lia|]. destruct (Z.ltb_spec 100 (Z.of_nat L)); [lia|].
      by destruct (Z.ltb_spec (Z.of_nat (k * L)) 0); [lia|].
    + transitivity (toTaskResponse <$> take (n * L) (listed search scope (sv_db s))); [|by rewrite take_ge]. rewrite <- pages_concat.
      generalize (seq 0 n). intros ks. induction ks as [|k ks IH]; [done|]. cbn. rewrite fmap_app. by f_equal.
  - eapply StronglySorted_sublist; [apply sublist_filter|apply by_id_sorted].
  - eapply sublist_NoDup; [|apply sublist_fmap_mono, sublist_filter]. unfold tasks_by_id.
    rewrite sorting.merge_sort_Permutation, <- list_fmap_compose.
    assert (t_ID ∘ snd <$> map_to_list (tk_tasks (sv_db s)) = fst <$> map_to_list (tk_tasks (sv_db s))) as ->.
    { apply list_fmap_ext. intros i [id t] Hi%list_elem_of_lookup_2%elem_of_map_to_list. cbn. by apply (Hw id t). }
    apply NoDup_fst_map_to_list.
  - intros id t Ht. unfold GetTask, GetScanTask. rewrite (in_scope_visible s Hconn id scope t Ht), Ht. cbn [all_ok negb rbind].
    unfold listed. rewrite list_elem_of_filter. unfold task_matches. cbn [is_empty orb]. rewrite andb_true_r.
    destruct (visible scope (t_NetworkID t)); cbn; [|naive_solver]. split; [|done]. intros _. split; [done|]. apply by_id_elem. eauto.
Qed.

Definition run_ops (ops : list ((task_stmt → bool) * task_op)) : Service :=
  fold_left (fun s o => apply_op is_five_fields None o.1 o.2 s) ops (mkService empty_db true (Some NewScheduler) false).

Definition created : list ((task_stmt → bool) * task_op) := [(all_ok, OpStart 100); (all_ok, OpCreate 200 nightly)].

Definition retarget (targets : string) : UpdateScanTaskRequest := mkUpdateRequest None (Some targets) None None None None None None None.

Lemma scope_listing_exact_witness :
  concat ((fun k => match ListTasks all_ok "OFFICE" 20 (Z.of_nat (k * 20)) (mkScope false [4]) (run_ops created) with
                    | Ok (rows, _) => rows | Err _ => [] end) <$> seq 0 1)
  = toTaskResponse <$> listed "OFFICE" (mkScope false [4]) (sv_db (run_ops created)).
Proof.
  apply (scope_listing_exact (run_ops created) "OFFICE" (mkScope false [4]) 20 1).
  - vm_compute. reflexivity.
  - intros i t. change (tk_tasks (sv_db (run_ops created))) with (<[1 := default (mkScanTask 0 "" "" "" "" "" 0 0 None None 0 None None None 0 0)
      (tk_tasks (sv_db (run_ops created)) !! 1)]> (∅ : gmap Z ScanTask)).
    intros [[<- <-]|[_ H]]%lookup_insert_Some; [vm_compute; split_and!; [reflexivity|discriminate|right; reflexivity]|discriminate H].
  - lia.
  - vm_compute. lia.
Defined.

(** * Behaviours worth knowing *)

(** An update does not look at the expression: one that gocron refuses is stored,
    the job of the enabled task is gone, and the answer is an error. *)
Lemma bad_cron_update cron_ok now id cron s sd t :
  cron_ok cron = false → cron ≠ t_CronExpr t → sv_sched s = Some sd → tk_tasks (sv_db s) !! id = Some t → t_Enabled t = 1 →
  let '(r, s') := UpdateTask cron_ok all_ok now id (mkUpdateRequest None None (Some cron) None None None None None None) s in
  r = Err ErrReregister ∧ (t_CronExpr <$> tk_tasks (sv_db s') !! id) = Some cron
  ∧ ∃ sd', sv_sched s' = Some sd' ∧ sd_jobs sd' !! id = None.
Proof.
  intros Hc Hne Hsd Ht He. unfold UpdateTask, GetScanTask. cbn [all_ok negb]. rewrite Ht. cbn [merge_update up_Targets up_PipelineConfig rbind].
  unfold UpdateScanTask. rewrite Ht. cbn. rewrite Hsd. unfold reconcile_job. cbn. rewrite He. cbn.
  rewrite (bool_decide_false (cron = t_CronExpr t)) by done. cbn. unfold UpdateJob, AddJob, registerJob. rewrite Hc. cbn.
  split_and!; [done| |].
  - by rewrite lookup_alter, decide_True, Ht by done.
  - eexists. split; [done|]. cbn. by rewrite lookup_delete, decide_True.
Qed.

(** A cancelled run ends with a closed context, so its last statements fail: the
    run is cancelled without an end, and the task is shown as running. *)
Example cancelled_task_running :
  let s := run_ops (created ++ [(all_ok, OpFire 1); (all_ok, OpRunBegin 300 1); (all_ok, OpCancel 1);
                                ((fun _ => false), OpRunFail 400 1 1 90 "scan failed: context canceled"); (all_ok, OpDone 1)]) in
  (t_LastRunStatus <$> tk_tasks (sv_db s) !! 1, (fun r => (ru_Status r, ru_FinishedAt r)) <$> tk_runs (sv_db s))
  = (Some (Some "running"), [("cancelled", None)]).
Proof. vm_compute. reflexivity. Qed.

(** A job replaced during its run starts a second one, and the end of the first
    takes the cancel function of the second. *)
Example replaced_job_overlaps :
  let ops := created ++ [(all_ok, OpFire 1); (all_ok, OpUpdate 300 1 (retarget "10.1.0.0/16")); (all_ok, OpFire 1); (all_ok, OpDone 1)] in
  ((fun sd => (map_to_list (sd_cancel sd), fst <$> map_to_list (sd_execs sd))) <$> sv_sched (run_ops ops),
   (CancelTask all_ok 1 (run_ops ops)).1)
  = (Some ([], [2]), Some ErrScanNotRunning).
Proof. vm_compute. reflexivity. Qed.

(** When the network of new targets cannot be resolved the old one stays. *)
Example stale_network :
  let s := run_ops (created ++ [((fun st => negb (bool_decide (st = StNetwork))), OpUpdate 300 1 (retarget "10.9.0.0/24"))]) in
  (fun t => (t_Targets t, t_NetworkID t)) <$> tk_tasks (sv_db s) !! 1 = Some ("10.9.0.0/24", Some 4).
Proof. vm_compute. reflexivity. Qed.

(** When the toggle fails the row has the new targets and the job the old ones. *)
Example toggle_failure_diverges :
  let s := run_ops (created ++ [((fun st => negb (bool_decide (st = StToggle))),
             OpUpdate 300 1 (mkUpdateRequest None (Some "10.9.0.0/24") None None None None None (Some false) None))]) in
  (t_Targets <$> tk_tasks (sv_db s) !! 1, (fun sd => jb_targets <$> sd_jobs sd !! 1) <$> sv_sched s)
  = (Some "10.9.0.0/24", Some (Some "10.1.2.0/24")).
Proof. vm_compute. reflexivity. Qed.

(** The runs of a deleted task stay. *)
Example deleted_task_runs :
  let s := run_ops (created ++ [(all_ok, OpRunBegin 300 1); (all_ok, OpDelete 1)]) in
  (tk_tasks (sv_db s) !! 1, ru_TaskID <$> tk_runs (sv_db s)) = (None, [1]).
Proof. vm_compute. reflexivity. Qed.

(** A negative id answers 400 and goes on with task 0. *)
Example negative_id : parseScanID "-5" = (true, Some 0).
Proof. vm_compute. reflexivity. Qed.
