(* ===== verification/Frames.v ===== *)
(** Raw frames of the discovery sources
    (src/internal/service/scannerv2/discovery: lldp_frame_real.go,
    cdp_frame_real.go, arp_scan_real.go, lldp_types.go, cdp_types.go).

    A packet is a list of bytes; indexing and slicing out of range panic in
    the source and are [None] here, as is a loop that runs out of fuel. *)

From S2P Require Import Prelude NetAddr Cidr Json.

Open Scope Z_scope.

(** * Bytes *)

Notation bytes := (list Z).

(** [data[lo:hi]]. *)
Definition slice (data : bytes) (lo hi : nat) : option bytes :=
  if (lo <=? hi)%nat && (hi <=? length data)%nat then Some (take (hi - lo) (drop lo data)) else None.

(** [binary.BigEndian.Uint16] and [Uint32]. *)
Definition Uint16 (b : bytes) : Z := Z.lor (byte_at b 1) (Z.shiftl (byte_at b 0) 8).
Definition Uint32 (b : bytes) : Z :=
  Z.lor (byte_at b 3) (Z.lor (Z.shiftl (byte_at b 2) 8) (Z.lor (Z.shiftl (byte_at b 1) 16) (Z.shiftl (byte_at b 0) 24))).

(** [net.HardwareAddr.String]. *)
Definition hex_byte (b : Z) : string := hex_bytes [b].
Definition mac_string (m : bytes) : string := join ":" (hex_byte <$> m).

(** * LLDP *)

Record LLDPEdge := mkLLDP {
  ll_NeighborMAC : string;
  ll_Protocol : string;
  ll_LocalMAC : string;
  ll_LocalPort : string;
  ll_RemotePort : string
}.

(** What one TLV of type [t] changes. *)
Definition lldp_tlv (t : Z) (payload : bytes) (e : LLDPEdge) : option LLDPEdge :=
  if t =? 1 then
    if (1 <=? length payload)%nat && (byte_at payload 0 =? 4) && (length payload =? 7)%nat then
      m ← slice payload 1 7;
      Some (mkLLDP (mac_string m) (ll_Protocol e) (ll_LocalMAC e) (ll_LocalPort e) (ll_RemotePort e))
    else Some e
  else if t =? 2 then
    if (1 <? length payload)%nat then
      p ← slice payload 1 (length payload);
      Some (mkLLDP (ll_NeighborMAC e) (ll_Protocol e) (ll_LocalMAC e) (ll_LocalPort e) (bytes_string p))
    else Some e
  else Some e.

Fixpoint lldp_loop (fuel : nat) (data : bytes) (i : nat) (e : LLDPEdge) : option LLDPEdge :=
  match fuel with
  | O => None
  | S fuel =>
      if (i + 1 <? length data)%nat then
        b0 ← data !! i;
        b1 ← data !! (i + 1)%nat;
        let tlv := Z.lor (u16 (Z.shiftl b0 8)) b1 in
        let t := Z.shiftr tlv 9 in
        let l := Z.to_nat (Z.land tlv 511) in
        let i := (i + 2)%nat in
        if (length data <? i + l)%nat then Some e
        else
          payload ← slice data i (i + l);
          if t =? 0 then Some e
          else e ← lldp_tlv t payload e; lldp_loop fuel data (i + l) e
      else Some e
  end.

Definition parseLLDPDU (fuel : nat) (data : bytes) (srcMAC iface localMAC : string) : option LLDPEdge :=
  lldp_loop fuel data 0 (mkLLDP srcMAC "LLDP" localMAC iface "").

(** * CDP *)

Record CDPEdge := mkCDP {
  cd_NeighborMAC : string;
  cd_Protocol : string;
  cd_LocalMAC : string;
  cd_LocalPort : string;
  cd_RemotePort : string;
  cd_DeviceID : string;
  cd_Platform : string;
  cd_SoftwareVersion : string;
  cd_NeighborIP : string
}.

(** One address entry: the first IPv4 address wins. *)
Definition cdp_address (protoType : Z) (fields : bytes) (found : string) : option string :=
  if (protoType =? 1) && (2 <=? length fields)%nat && (byte_at fields 0 =? 204) then
    let addrLen := byte_at fields 1 in
    if (addrLen =? 4) && (2 + Z.to_nat addrLen <=? length fields)%nat then
      a ← slice fields 2 (Z.to_nat (u8 (2 + addrLen)));
      Some (if decide (found = "") then ip_string a else found)
    else Some found
  else Some found.

(** [left] address entries remain of the announced number. *)
Fixpoint cdp_addresses (fuel : nat) (payload : bytes) (left : Z) (pos : nat) (found : string) : option string :=
  match fuel with
  | O => None
  | S fuel =>
      if (0 <? left) && (pos + 4 <=? length payload)%nat then
        pt ← slice payload pos (pos + 2);
        pl ← slice payload (pos + 2) (pos + 4);
        let protoLen := Z.to_nat (Uint16 pl) in
        let pos := (pos + 4)%nat in
        if (protoLen <? 1)%nat || (length payload <? pos + protoLen)%nat then Some found
        else
          fields ← slice payload pos (pos + protoLen);
          found ← cdp_address (Uint16 pt) fields found;
          cdp_addresses fuel payload (left - 1) (pos + protoLen) found
      else Some found
  end.

Definition with_device (s : string) (e : CDPEdge) : CDPEdge :=
  mkCDP (cd_NeighborMAC e) (cd_Protocol e) (cd_LocalMAC e) (cd_LocalPort e) (cd_RemotePort e) s
    (cd_Platform e) (cd_SoftwareVersion e) (cd_NeighborIP e).
Definition with_remote_port (s : string) (e : CDPEdge) : CDPEdge :=
  mkCDP (cd_NeighborMAC e) (cd_Protocol e) (cd_LocalMAC e) (cd_LocalPort e) s (cd_DeviceID e)
    (cd_Platform e) (cd_SoftwareVersion e) (cd_NeighborIP e).
Definition with_version (s : string) (e : CDPEdge) : CDPEdge :=
  mkCDP (cd_NeighborMAC e) (cd_Protocol e) (cd_LocalMAC e) (cd_LocalPort e) (cd_RemotePort e) (cd_DeviceID e)
    (cd_Platform e) s (cd_NeighborIP e).
Definition with_platform (s : string) (e : CDPEdge) : CDPEdge :=
  mkCDP (cd_NeighborMAC e) (cd_Protocol e) (cd_LocalMAC e) (cd_LocalPort e) (cd_RemotePort e) (cd_DeviceID e)
    s (cd_SoftwareVersion e) (cd_NeighborIP e).
Definition with_address (s : string) (e : CDPEdge) : CDPEdge :=
  mkCDP (cd_NeighborMAC e) (cd_Protocol e) (cd_LocalMAC e) (cd_LocalPort e) (cd_RemotePort e) (cd_DeviceID e)
    (cd_Platform e) (cd_SoftwareVersion e) s.

Definition unless_empty (f : string → CDPEdge → CDPEdge) (payload : bytes) (e : CDPEdge) : CDPEdge :=
  if (0 <? length payload)%nat then f (bytes_string payload) e else e.

Definition cdp_tlv (t : Z) (payload : bytes) (e : CDPEdge) : option CDPEdge :=
  if t =? 1 then Some (unless_empty with_device payload e)
  else if t =? 2 then
    if (4 <=? length payload)%nat then
      n ← slice payload 0 4;
      found ← cdp_addresses (S (length payload)) payload (Uint32 n) 4 (cd_NeighborIP e);
      Some (with_address found e)
    else Some e
  else if t =? 3 then Some (unless_empty with_remote_port payload e)
  else if t =? 5 then Some (unless_empty with_version payload e)
  else if t =? 6 then Some (unless_empty with_platform payload e)
  else Some e.

Fixpoint cdp_loop (fuel : nat) (data : bytes) (i : nat) (e : CDPEdge) : option CDPEdge :=
  match fuel with
  | O => None
  | S fuel =>
      if (i + 4 <=? length data)%nat then
        tb ← slice data i (i + 2);
        lb ← slice data (i + 2) (i + 4);
        let tlvLength := Z.to_nat (Uint16 lb) in
        if (tlvLength <? 4)%nat || (length data <? i + tlvLength)%nat then Some e
        else
          payload ← slice data (i + 4) (i + tlvLength);
          if Uint16 tb =? 0 then Some e
          else e ← cdp_tlv (Uint16 tb) payload e; cdp_loop fuel data (i + tlvLength) e
      else Some e
  end.

Definition parseCDPFrame (fuel : nat) (data : bytes) (srcMAC iface localMAC : string) : option CDPEdge :=
  if (length data <? 4)%nat then Some (mkCDP srcMAC "CDP" localMAC iface "" "" "" "" "")
  else
    version ← data !! 0%nat;
    if negb (version =? 2) then Some (mkCDP "" "CDP" localMAC iface "" "" "" "" "")
    else
      rest ← slice data 4 (length data);
      cdp_loop fuel rest 0 (mkCDP srcMAC "CDP" localMAC iface "" "" "" "" "").

(** * Received frames *)

(** The Ethernet source and the rest of a frame of ethertype [et]; [Some None]
    is a frame that is skipped. *)
Definition ethernet (et : Z) (frame : bytes) : option (option (bytes * bytes)) :=
  if (length frame <? 14)%nat then Some None
  else
    t ← slice frame 12 14;
    if negb (Uint16 t =? et) then Some None
    else
      src ← slice frame 6 12;
      rest ← slice frame 14 (length frame);
      Some (Some (src, rest)).

(** The loop bodies of [listen]: the address and MAC emitted as a sighting,
    and the edge handed to the neighbour sink. *)
Definition lldp_receive (iface localMAC : string) (frame : bytes) : option (option ((string * string) * LLDPEdge)) :=
  r ← ethernet 35020 frame;
  match r with
  | None => Some None
  | Some (src, lldpdu) =>
      e ← parseLLDPDU (S (length lldpdu)) lldpdu (mac_string src) iface localMAC;
      Some (if decide (ll_NeighborMAC e = "") then None else Some (("", ll_NeighborMAC e), e))
  end.

Definition cdp_receive (iface localMAC : string) (frame : bytes)
    : option (option (option (string * string) * CDPEdge)) :=
  r ← ethernet 8192 frame;
  match r with
  | None => Some None
  | Some (src, data) =>
      e ← parseCDPFrame (S (length data)) data (mac_string src) iface localMAC;
      Some (if decide (cd_NeighborMAC e = "") then None
            else Some (if decide (cd_NeighborIP e = "") then None else Some (cd_NeighborIP e, cd_NeighborMAC e), e))
  end.

(** * ARP scan *)

Definition arpOpRequest : Z := 1.
Definition arpOpReply : Z := 2.

(** [copy(f[lo:hi], src)]. *)
Definition copy_into (lo hi : nat) (src f : bytes) : bytes := list_inserts lo (take (hi - lo) src) f.

Definition buildARPRequest (srcMAC srcIP : bytes) : bytes :=
  let f := replicate 42 0 in
  let f := copy_into 6 12 srcMAC f in
  let f := list_inserts 12 [8; 6; 0; 1; 8; 0; 6; 4; 0; arpOpRequest] f in
  let f := copy_into 22 28 srcMAC f in
  copy_into 28 32 srcIP f.

Definition fillARPRequestTarget (template dstMAC srcMAC srcIP tgtIP : bytes) : bytes :=
  copy_into 38 42 tgtIP (copy_into 28 32 srcIP (copy_into 6 12 srcMAC (copy_into 0 6 dstMAC template))).

(** [None] is a panic, [Some None] is [ok = false]. *)
Definition parseARPReply (frame : bytes) : option (option (string * string)) :=
  if (length frame <? 42)%nat then Some None
  else
    h ← slice frame 12 18;
    if negb (bool_decide (h = [8; 6; 0; 1; 8; 0])) then Some None
    else
      b0 ← frame !! 20%nat;
      b1 ← frame !! 21%nat;
      if negb (Z.lor (u16 (Z.shiftl b0 8)) b1 =? arpOpReply) then Some None
      else
        m ← slice frame 22 28;
        a ← slice frame 28 32;
        Some (Some (ip_string a, mac_string m)).

(** The address before the slash, the first result of [net.ParseCIDR]. *)
Definition cidr_address (s : string) : option ip :=
  p ← cut_at "/"%char s; As16 <$> ParseAddr p.1.

Definition cur4inRange (cur netAddr bcast : ip) : bool :=
  negb (bytes_eqb cur netAddr) && negb (bytes_eqb cur bcast).

(** The broadcast address, byte by byte. *)
Definition host_bits (n m : Z) : Z := Z.lor n (255 - m).

Fixpoint host_loop (fuel : nat) (cur netAddr bcast : ip) : option (list ip) :=
  match fuel with
  | O => None
  | S fuel => if cur4inRange cur netAddr bcast then cons cur <$> host_loop fuel (incIP cur) netAddr bcast else Some []
  end.

Definition subnetHostIPs (fuel : nat) (cidr : string) : option (list ip) :=
  match ParseCIDR cidr, cidr_address cidr with
  | Some ipnet, Some a =>
      match To4 a, To4 (net_IP ipnet) with
      | Some ip4, Some netAddr =>
          let '(ones, bits) := MaskSize (net_Mask ipnet) in
          if negb (bits =? 32) then Some []
          else if 31 <=? ones then Some [ip4]
          else
            let bcast := zip_with host_bits netAddr (net_Mask ipnet) in
            host_loop fuel (incIP netAddr) netAddr bcast
      | _, _ => Some []
      end
  | _, _ => Some []
  end.
