(* ===== verification/Discovery.v ===== *)
(** The passive discovery coordinator
    (src/internal/service/scannerv2/discovery: discovery.go,
    network_resolver.go): sightings of the sources are deduplicated against a
    memory window and the device table, attributed to a network, identified
    or synthesized, and handed to the device bridge.

    All events run on one consumer goroutine: a run is a sequence of timed
    inputs.  The outlet and the tables are a class, which the device bridge of
    [AgentReport] implements. *)

From S2P Require Import Prelude Db NetAddr Cidr Report DeviceStore DeviceBridge DeviceType ChangeDetect AgentReport Orchestrator.

Open Scope Z_scope.

(** * Events *)

Record NewHostEvent := mkSighting {
  ev_IP : string;
  ev_MAC : string;
  ev_Source : string;
  ev_Hints : fields
}.

Record statsSnapshot := mkStats {
  st_EventsReceived : Z;
  st_SuppressedRecent : Z;
  st_KnownHostSkipped : Z;
  st_IdentifyTriggered : Z;
  st_IdentifyAlive : Z;
  st_IdentifyDead : Z;
  st_DeviceRecorded : Z;
  st_MACOnlyEnriched : Z;
  st_MACOnlyAnchored : Z;
  st_OffNetworkDropped : Z
}.

Record recentEvent := mkRecent {
  re_IP : string;
  re_MAC : string;
  re_Source : string;
  re_Outcome : string;
  re_At : Z
}.

Definition maxRecentEvents : nat := 20.
Definition dedupTTL : Z := 5 * minute.
Definition maxObservedIPs : nat := 4096.
Definition maxObsPerIP : nat := 4.

Definition macAnchorSources : list string := ["lldp_frame"; "cdp_frame"; "passive:ebpf:nd"].

Definition is_anchor (ev : NewHostEvent) : bool := bool_decide (ev_Source ev ∈ macAnchorSources).

Definition hint (ev : NewHostEvent) (k : string) : string := get k (ev_Hints ev).

Definition wifi_hints : list (string * string) :=
  [("wifi_signal_dbm", "signal_dbm"); ("wifi_ssid", "ssid"); ("wifi_connected_secs", "connected_secs")].

Definition hasWiFiHints (ev : NewHostEvent) : bool :=
  existsb (fun kv => negb (bool_decide (hint ev kv.1 = ""))) wifi_hints.

(** * Networks *)

Definition networkCacheTTL : Z := minute.

(** [nr_loaded] is [None] for the zero time. *)
Record NetworkResolver := mkResolver {
  nr_loaded : option Z;
  nr_nets : list (Z * IPNet)
}.

(** A nil database gives a nil resolver. *)
Definition NewNetworkResolver (db : bool) : option NetworkResolver := if db then Some (mkResolver None []) else None.

(** The rows with a usable CIDR. *)
Definition resolved_net (n : Network) : option (Z * IPNet) :=
  let cidr := default "" (net_Cidr n) in
  if decide (cidr = "") then None
  else match ParseNetwork cidr with Ok ipNet => Some (net_ID n, ipNet) | Err _ => None end.

(** [ok] is whether the query and its iteration succeed. *)
Definition refresh (ok : bool) (now : Z) (networks : list Network) (r : NetworkResolver) : result unit NetworkResolver :=
  let fresh := match nr_loaded r with Some t => now - t <? networkCacheTTL | None => false end in
  if fresh then Ok r
  else if ok then Ok (mkResolver (Some now) (omap resolved_net networks))
  else Err tt.

(** The longest prefix that contains the address, the first row on a tie. *)
Definition better (a : ip) (acc : option Z * Z) (n : Z * IPNet) : option Z * Z :=
  if negb (Contains n.2 a) then acc
  else let bits := (MaskSize (net_Mask n.2)).1 in
       if acc.2 <? bits then (Some n.1, bits) else acc.

Definition best_net (nets : list (Z * IPNet)) (a : ip) : option Z := (fold_left (better a) nets (None, -1)).1.

(** The new cache, the match, and whether any network is known. *)
Definition ResolveGate (ok : bool) (now : Z) (networks : list Network) (addr : string) (r : option NetworkResolver)
    : option NetworkResolver * (option Z * bool) :=
  match r with
  | None => (None, (None, false))
  | Some r =>
      if decide (addr = "") then (Some r, (None, false))
      else match refresh ok now networks r with
           | Err _ => (Some r, (None, false))
           | Ok r =>
               let any := (0 <? length (nr_nets r))%nat in
               (Some r, match ParseIP addr with
                        | None => (None, any)
                        | Some a => (best_net (nr_nets r) a, any)
                        end)
           end
  end.

Definition Resolve (ok : bool) (now : Z) (networks : list Network) (addr : string) (r : option NetworkResolver)
    : option NetworkResolver * option Z :=
  let '(r, (nid, _)) := ResolveGate ok now networks addr r in (r, nid).

(** * Observations *)

(** [first_key] is the key a map iteration yields first. *)
Definition Observe (first_key : gmap string (list Evidence) → option string) (addr : string) (evs : list Evidence)
    (obs : gmap string (list Evidence)) : gmap string (list Evidence) :=
  if decide (addr = "" ∨ evs = []) then obs
  else
    let obs := if (maxObservedIPs <=? size obs)%nat && bool_decide (obs !! addr = None)
               then match first_key obs with Some k => delete k obs | None => obs end
               else obs in
    let merged := default [] (obs !! addr) ++ evs in
    <[addr := drop (length merged - maxObsPerIP) merged]> obs.

Definition EvidenceFor (addr : string) (obs : gmap string (list Evidence)) : list Evidence := default [] (obs !! addr).

(** * Reports *)

Definition mac_sighting (mac : string) : Evidence := mkEvidence "mac" 0 {["mac" := mac]}.

(** Hints overwrite the fields of a synthesized report. *)
Definition synthesizeReport (ev : NewHostEvent) : HostReport :=
  let base : fields := {["inferred_type" := "unknown"]} in
  let base := if decide (ev_MAC ev = "") then base else <["mac" := ev_MAC ev]> base in
  mkReport (ev_IP ev) true 0 (ev_Hints ev ∪ base)
    (if decide (ev_MAC ev = "") then [] else [mac_sighting (ev_MAC ev)]) [] [] false.

Definition foldMAC (rep : HostReport) (mac : string) : HostReport :=
  if decide (mac = "") then rep
  else match hr_DeviceFields rep !! "mac" with
       | Some _ => rep
       | None => mkReport (hr_IP rep) (hr_Alive rep) (hr_RTTMs rep) (<["mac" := mac]> (hr_DeviceFields rep))
                   (hr_Evidence rep ++ [mac_sighting mac]) (hr_Services rep) (hr_Heartbeats rep) (hr_Passive rep)
       end.

Definition foldHints (rep : HostReport) (hints : fields) : HostReport :=
  mkReport (hr_IP rep) (hr_Alive rep) (hr_RTTMs rep) (hr_DeviceFields rep ∪ hints) (hr_Evidence rep)
    (hr_Services rep) (hr_Heartbeats rep) (hr_Passive rep).

Definition at_ip (addr : string) (rep : HostReport) : HostReport :=
  mkReport addr (hr_Alive rep) (hr_RTTMs rep) (hr_DeviceFields rep) (hr_Evidence rep) (hr_Services rep)
    (hr_Heartbeats rep) (hr_Passive rep).

(** * The outlet *)

(** The statements an event runs. *)
Inductive disc_stmt := DsNetworks | DsSinkNetworks | DsMac | DsIP | DsWiFi.

(** The time of an event, which of its statements succeed, and what the
    bridge draws. *)
Record call := mkCall {
  ca_now : Z;
  ca_ok : disc_stmt → bool;
  ca_bridge : bridge_faults;
  ca_uuid : string
}.

(** What the coordinator needs of the runner and the database: a report that
    is said to be new has left a row with its address and MAC. *)
Class HostSink (W : Type) := {
  sink_db : W → device_db;
  sink_put_db : device_db → W → W;
  sink_networks : W → list Network;
  sink_Apply : call → HostReport → W → W * bool;
  sink_put_get : ∀ db w, sink_db (sink_put_db db w) = db;
  sink_new_row : ∀ c rep w w', sink_Apply c rep w = (w', true) →
    ∃ row, row ∈ dd_rows (sink_db w') ∧ row_IP row = hr_IP rep ∧ row_MAC row = reportMAC rep
}.

(** The known-host pre-check. *)
Definition isKnownHost (ok : disc_stmt → bool) (nid : option Z) (addr mac : string) (db : device_db) : result unit bool :=
  let by_ip :=
    if ok DsIP then Ok (existsb (fun r => bool_decide (row_IP r = addr ∧ row_Network r = nid)) (dd_rows db))
    else Err tt in
  if decide (mac = "") then by_ip
  else if negb (ok DsMac) then Err tt
  else if existsb (fun r => bool_decide (row_MAC r = mac)) (dd_rows db) then Ok true
  else by_ip.

(** [json_patch(scan_attributes, json(?))] on the rows of a MAC, and how many. *)
Definition wifi_patch (now : Z) (ev : NewHostEvent) : jobject :=
  let base : fields := <["source" := ev_Source ev]> {["seen_at" := format_RFC3339 now]} in
  let wifi := fold_left (fun m kv => if decide (hint ev kv.1 = "") then m else <[kv.2 := hint ev kv.1]> m) wifi_hints base in
  [("wifi", string_object wifi)].

Definition enrich_mac (now : Z) (ev : NewHostEvent) (db : device_db) : device_db * nat :=
  let hit r := bool_decide (row_MAC r = ev_MAC ev) in
  (set_rows db
     ((fun r => if hit r then
                  touch (DBTime now) (with_info (fun i => set_attrs (patch_attrs (i_ScanAttributes i) (wifi_patch now ev)) i) r)
                else r) <$> dd_rows db),
   length (List.filter hit (dd_rows db))).

(** * The coordinator *)

Record Service (W : Type) := mkService {
  sv_trigger : bool;
  sv_ident : option (call → string → W → W * option HostReport);
  sv_nid : option Z;
  sv_hasDB : bool;
  sv_recent : gmap string Z;
  sv_stats : statsSnapshot;
  sv_nets : option NetworkResolver;
  sv_lastEvents : list recentEvent
}.
Arguments mkService {W} _ _ _ _ _ _ _ _.
Arguments sv_trigger {W} _.
Arguments sv_ident {W} _.
Arguments sv_nid {W} _.
Arguments sv_hasDB {W} _.
Arguments sv_recent {W} _.
Arguments sv_stats {W} _.
Arguments sv_nets {W} _.
Arguments sv_lastEvents {W} _.

Definition zero_stats : statsSnapshot := mkStats 0 0 0 0 0 0 0 0 0 0.

Section coordinator.
Context {W : Type} `{!HostSink W}.

Definition New (trigger : bool) (ident : option (call → string → W → W * option HostReport)) (db : bool) (networkID : Z) : Service W :=
  mkService trigger ident (if 0 <? networkID then Some networkID else None) db ∅ zero_stats (NewNetworkResolver db) [].

Definition bump (f : statsSnapshot → statsSnapshot) (s : Service W) : Service W :=
  mkService (sv_trigger s) (sv_ident s) (sv_nid s) (sv_hasDB s) (sv_recent s) (f (sv_stats s)) (sv_nets s) (sv_lastEvents s).

Definition set_recent (m : gmap string Z) (s : Service W) : Service W :=
  mkService (sv_trigger s) (sv_ident s) (sv_nid s) (sv_hasDB s) m (sv_stats s) (sv_nets s) (sv_lastEvents s).

Definition set_nets (r : option NetworkResolver) (s : Service W) : Service W :=
  mkService (sv_trigger s) (sv_ident s) (sv_nid s) (sv_hasDB s) (sv_recent s) (sv_stats s) r (sv_lastEvents s).

Definition seenRecently (key : string) (s : Service W) : bool := bool_decide (is_Some (sv_recent s !! key)).
Definition markSeen (now : Z) (key : string) (s : Service W) : Service W := set_recent (<[key := now]> (sv_recent s)) s.

Definition sweepRecent (now : Z) (s : Service W) : Service W :=
  set_recent (filter (fun kt => ¬ kt.2 < now - dedupTTL) (sv_recent s)) s.

Definition recordEvent (now : Z) (ev : NewHostEvent) (outcome : string) (s : Service W) : Service W :=
  let evs := sv_lastEvents s ++ [mkRecent (ev_IP ev) (ev_MAC ev) (ev_Source ev) outcome now] in
  mkService (sv_trigger s) (sv_ident s) (sv_nid s) (sv_hasDB s) (sv_recent s) (sv_stats s) (sv_nets s)
    (drop (length evs - maxRecentEvents) evs).

Definition add_received (t : statsSnapshot) : statsSnapshot :=
  mkStats (st_EventsReceived t + 1) (st_SuppressedRecent t) (st_KnownHostSkipped t) (st_IdentifyTriggered t) (st_IdentifyAlive t)
    (st_IdentifyDead t) (st_DeviceRecorded t) (st_MACOnlyEnriched t) (st_MACOnlyAnchored t) (st_OffNetworkDropped t).
Definition add_suppressed (t : statsSnapshot) : statsSnapshot :=
  mkStats (st_EventsReceived t) (st_SuppressedRecent t + 1) (st_KnownHostSkipped t) (st_IdentifyTriggered t) (st_IdentifyAlive t)
    (st_IdentifyDead t) (st_DeviceRecorded t) (st_MACOnlyEnriched t) (st_MACOnlyAnchored t) (st_OffNetworkDropped t).
Definition add_known (t : statsSnapshot) : statsSnapshot :=
  mkStats (st_EventsReceived t) (st_SuppressedRecent t) (st_KnownHostSkipped t + 1) (st_IdentifyTriggered t) (st_IdentifyAlive t)
    (st_IdentifyDead t) (st_DeviceRecorded t) (st_MACOnlyEnriched t) (st_MACOnlyAnchored t) (st_OffNetworkDropped t).
Definition add_identified (alive : bool) (t : statsSnapshot) : statsSnapshot :=
  mkStats (st_EventsReceived t) (st_SuppressedRecent t) (st_KnownHostSkipped t) (st_IdentifyTriggered t + 1)
    (st_IdentifyAlive t + if alive then 1 else 0) (st_IdentifyDead t + if alive then 0 else 1)
    (st_DeviceRecorded t) (st_MACOnlyEnriched t) (st_MACOnlyAnchored t) (st_OffNetworkDropped t).
Definition add_recorded (t : statsSnapshot) : statsSnapshot :=
  mkStats (st_EventsReceived t) (st_SuppressedRecent t) (st_KnownHostSkipped t) (st_IdentifyTriggered t) (st_IdentifyAlive t)
    (st_IdentifyDead t) (st_DeviceRecorded t + 1) (st_MACOnlyEnriched t) (st_MACOnlyAnchored t) (st_OffNetworkDropped t).
Definition add_enriched (t : statsSnapshot) : statsSnapshot :=
  mkStats (st_EventsReceived t) (st_SuppressedRecent t) (st_KnownHostSkipped t) (st_IdentifyTriggered t) (st_IdentifyAlive t)
    (st_IdentifyDead t) (st_DeviceRecorded t) (st_MACOnlyEnriched t + 1) (st_MACOnlyAnchored t) (st_OffNetworkDropped t).
Definition add_anchored (t : statsSnapshot) : statsSnapshot :=
  mkStats (st_EventsReceived t) (st_SuppressedRecent t) (st_KnownHostSkipped t) (st_IdentifyTriggered t) (st_IdentifyAlive t)
    (st_IdentifyDead t) (st_DeviceRecorded t + 1) (st_MACOnlyEnriched t) (st_MACOnlyAnchored t + 1) (st_OffNetworkDropped t).
Definition add_off_network (t : statsSnapshot) : statsSnapshot :=
  mkStats (st_EventsReceived t) (st_SuppressedRecent t) (st_KnownHostSkipped t) (st_IdentifyTriggered t) (st_IdentifyAlive t)
    (st_IdentifyDead t) (st_DeviceRecorded t) (st_MACOnlyEnriched t) (st_MACOnlyAnchored t) (st_OffNetworkDropped t + 1).

(** How a handler ends: the outcome it records, [None] when it records none. *)
Definition finish (c : call) (ev : NewHostEvent) (outcome : string) (s : Service W) (w : W)
    : Service W * W * option string :=
  (recordEvent (ca_now c) ev outcome s, w, Some outcome).

(** An unknown host is identified, or synthesized when the scan is off or it
    does not answer. *)
Definition identify (c : call) (ev : NewHostEvent) (s : Service W) (w : W) : HostReport * Service W * W :=
  match (if sv_trigger s then sv_ident s else None) with
  | Some ident =>
      let '(w, r) := ident c (ev_IP ev) w in
      match r with
      | Some rep => (foldHints (foldMAC rep (ev_MAC ev)) (ev_Hints ev), bump (add_identified true) s, w)
      | None => (synthesizeReport ev, bump (add_identified false) s, w)
      end
  | None => (synthesizeReport ev, s, w)
  end.

Definition mac_key (mac : string) : string := "mac:" +:+ mac.

Definition handleMACOnly (c : call) (ev : NewHostEvent) (s : Service W) (w : W) : Service W * W * option string :=
  let s := bump add_received s in
  let key := mac_key (ev_MAC ev) in
  if seenRecently key s then finish c ev "skipped_recent" (bump add_suppressed s) w
  else
    let s := markSeen (ca_now c) key s in
    if negb (sv_hasDB s) then (s, w, None)
    else match isKnownHost (ca_ok c) (sv_nid s) "" (ev_MAC ev) (sink_db w) with
         | Err _ => finish c ev "skipped_known" s w
         | Ok false =>
             if is_anchor ev then
               let '(w, isNew) := sink_Apply c (at_ip (AnchorIP (ev_MAC ev)) (synthesizeReport ev)) w in
               if isNew : bool then finish c ev "anchored_mac" (bump add_anchored s) w
               else finish c ev "skipped_known" s w
             else finish c ev "skipped_unknown_mac" s w
         | Ok true =>
             if is_anchor ev || negb (hasWiFiHints ev) then finish c ev "skipped_known" s w
             else if negb (ca_ok c DsWiFi) then finish c ev "skipped_known" s w
             else
               let '(db, n) := enrich_mac (ca_now c) ev (sink_db w) in
               let w := sink_put_db db w in
               if (n =? 0)%nat then finish c ev "skipped_unknown_mac" s w
               else finish c ev "enriched_mac" (bump add_enriched s) w
         end.

Definition handle (c : call) (ev : NewHostEvent) (s : Service W) (w : W) : Service W * W * option string :=
  if decide (ev_IP ev = "") then
    if decide (ev_MAC ev = "") then (s, w, None) else handleMACOnly c ev s w
  else
    let s := bump add_received s in
    if seenRecently (ev_IP ev) s then finish c ev "skipped_recent" (bump add_suppressed s) w
    else
      let s := markSeen (ca_now c) (ev_IP ev) s in
      let '(nets, (nid, anyKnown)) := ResolveGate (ca_ok c DsNetworks) (ca_now c) (sink_networks w) (ev_IP ev) (sv_nets s) in
      let s := set_nets nets s in
      if bool_decide (nid = None) && anyKnown then finish c ev "skipped_offnetwork" (bump add_off_network s) w
      else
        let known := if sv_hasDB s then isKnownHost (ca_ok c) (sv_nid s) (ev_IP ev) (ev_MAC ev) (sink_db w) else Ok false in
        match known with
        | Err _ => finish c ev "skipped_known" s w
        | Ok true => finish c ev "skipped_known" (bump add_known s) w
        | Ok false =>
            let '(rep, s, w) := identify c ev s w in
            let '(w, isNew) := sink_Apply c rep w in
            if isNew : bool then finish c ev "recorded" (bump add_recorded s) w
            else finish c ev "identify_failed" s w
        end.

(** * The loop *)

Inductive input := InEvent (c : call) (ev : NewHostEvent) | InSweep (now : Z).

Definition input_time (i : input) : Z := match i with InEvent c _ => ca_now c | InSweep t => t end.

(** One turn of [loop]; the log keeps the outcome of every event. *)
Definition step (i : input) (s : Service W) (w : W) : Service W * W * option (NewHostEvent * option string) :=
  match i with
  | InEvent c ev => let '(s, w, o) := handle c ev s w in (s, w, Some (ev, o))
  | InSweep now => (sweepRecent now s, w, None)
  end.

End coordinator.

(** * The device bridge as an outlet *)

(** [SinkAdapter]: the runner's network and agent, its resolver, and the
    reports handed to the forward hook. *)
Record SinkAdapter (R : Type) := mkAdapter {
  ad_center : center R;
  ad_networkID : option Z;
  ad_agentID : string;
  ad_Networks : option NetworkResolver;
  ad_Forward : bool;
  ad_forwarded : list HostReport
}.
Arguments mkAdapter {R} _ _ _ _ _ _.
Arguments ad_center {R} _.
Arguments ad_networkID {R} _.
Arguments ad_agentID {R} _.
Arguments ad_Networks {R} _.
Arguments ad_Forward {R} _.
Arguments ad_forwarded {R} _.

Section adapter.
Context (marshal : json → string) (tbl : typeRuleTable).
Context {R : Type} `{!ChangeRecorder R}.

Definition Apply (c : call) (rep : HostReport) (a : SinkAdapter R) : SinkAdapter R * bool :=
  let rep := mark_passive true rep in
  let '(nets, resolved) :=
    Resolve (ca_ok c DsSinkNetworks) (ca_now c) (ce_networks (ad_center a)) (hr_IP rep) (ad_Networks a) in
  let nid := match resolved with Some n => Some n | None => ad_networkID a end in
  let '(ce, res) := ApplyReport marshal tbl (ca_bridge c) (ca_uuid c) (ca_now c) rep nid (ad_agentID a) [] (ad_center a) in
  (mkAdapter ce (ad_networkID a) (ad_agentID a) nets (ad_Forward a)
     (if ad_Forward a then ad_forwarded a ++ [rep] else ad_forwarded a), res.1).

Definition adapter_db (a : SinkAdapter R) : device_db := br_db (ce_bridge (ad_center a)).

Definition adapter_put_db (db : device_db) (a : SinkAdapter R) : SinkAdapter R :=
  mkAdapter (with_bridge (with_db db (ce_bridge (ad_center a))) (ad_center a)) (ad_networkID a) (ad_agentID a)
    (ad_Networks a) (ad_Forward a) (ad_forwarded a).

End adapter.

(** [engineIdentifier]: the first report of a scan of the address. *)
Definition engine_identify {R} `{!Repository R} (fuel : nat) (e : option Engine) (cancelled : nat → bool) (addr : string) (r : R)
    : option (R * option HostReport) :=
  match e with
  | None => Some (r, None)
  | Some e =>
      '(res, r) ← ScanTargets fuel e addr 0 false cancelled r;
      Some (r, match res with
               | Ok (rep :: _) => if hr_Alive rep then Some rep else None
               | _ => None
               end)
  end.
