(* ===== verification/DiscoverySpec.v ===== *)
(** Properties of the discovery coordinator of [Discovery]: the device bridge
    implements its outlet, sightings are handled once per memory window, the
    counters and the ring are views of one log, a recorded host is known from
    then on, the observation cache is bounded, and networks are matched by
    longest prefix. *)

From S2P Require Import Prelude Db NetAddr Cidr Report DeviceStore DeviceBridge DeviceType ChangeDetect AgentReport Orchestrator BridgeSpec Discovery.

Open Scope Z_scope.

(** * The bridge is an outlet *)

Section bridge.
Context (marshal : json → string) (tbl : typeRuleTable).
Context {R : Type} `{!ChangeRecorder R}.

Lemma vantage_rows f now id addr mac n agent (s : bridge_state R) :
  dd_rows (br_db (recordVantage f now id addr mac n agent s)) = dd_rows (br_db s).
Proof.
  unfold recordVantage. destruct (id =? 0); [done|]. cbn [br_db]. destruct n as [n|]; [|done].
  destruct (_ && _); [apply upsert_rows|done].
Qed.

Lemma bridge_new_row f uuid now rep mac t n agent (s s' : bridge_state R) :
  bridge_new marshal f uuid now rep mac t n agent s = (s', true) →
  ∃ row, row ∈ dd_rows (br_db s') ∧ row_IP row = hr_IP rep ∧ row_MAC row = mac.
Proof.
  unfold bridge_new. set (iw := buildIdentityWrite _ _ _ _ _ _ _ _ _).
  destruct (build_fields marshal rep mac t (rep_field rep "inferred_brand") (rep_field rep "inferred_description")
              (rep_field rep "inferred_location") n (new_row 0)) as (E1 & E2 & E3 & _). fold iw in E1, E2, E3.
  unfold ApplyDeviceIdentity. rewrite E1. cbn [new_row res_ParkHolderID res_IsNew]. rewrite decide_False by auto.
  unfold createDeviceIdentity. destruct (_ && _); [|done]. intros [= <-]. rewrite vantage_rows.
  match goal with |- context [seed_configs ?f ?id ?rep ?s0] => rewrite (proj1 (seed_frame f id rep s0)) end.
  cbn [reset_failures recordDeviceAdded emit_event with_db br_db dd_rows].
  eexists. split; [apply elem_of_app; right; apply list_elem_of_singleton; reflexivity|]. cbn [row_IP row_MAC]. auto.
Qed.

Lemma bridge_reports_new f uuid now rep n agent aliases (s s' : bridge_state R) upd :
  applyDeviceBridge marshal tbl f uuid now rep n agent aliases s = (s', (true, upd)) →
  ∃ row, row ∈ dd_rows (br_db s') ∧ row_IP row = hr_IP rep ∧ row_MAC row = reportMAC rep.
Proof.
  unfold applyDeviceBridge. destruct (decide_type tbl rep) as [t src]. rewrite set_type_mac.
  destruct (ResolveDeviceIdentity _ _ _ _ _ _) as [res|]; [|done]. destruct (res_IsNew res).
  - destruct (bridge_new _ _ _ _ _ _ _ _ _ _) as [s1 b] eqn:E. intros [= -> -> _]. by apply bridge_new_row in E.
  - by destruct (bridge_existing _ _ _ _ _ _ _ _ _ _ _ _ _).
Qed.

#[export] Program Instance adapter_sink : HostSink (SinkAdapter R) := {|
  sink_db := adapter_db;
  sink_put_db := adapter_put_db;
  sink_networks a := ce_networks (ad_center a);
  sink_Apply := Apply marshal tbl
|}.
Next Obligation. done. Qed.
Next Obligation.
  intros c rep a a'. unfold Apply. destruct (Resolve _ _ _ _ _) as [nets nid]. unfold ApplyReport.
  destruct (applyDeviceBridge _ _ _ _ _ _ _ _ _ _) as [b [isNew upd]] eqn:E. cbn. intros [= <- ->].
  by apply bridge_reports_new in E.
Qed.

End bridge.

(** * Runs *)

Section run.
Context {W : Type} `{!HostSink W}.

Notation entry := (Z * NewHostEvent * option string)%type.

(** The log has every event with its time and recorded outcome. *)
Fixpoint run (ins : list input) (s : Service W) (w : W) : Service W * W * list entry :=
  match ins with
  | [] => (s, w, [])
  | i :: ins =>
      let '(s, w, o) := step i s w in
      let '(s, w, log) := run ins s w in
      (s, w, match o with Some (ev, o) => [(input_time i, ev, o)] | None => [] end ++ log)
  end.

Lemma run_snoc ins i s w :
  run (ins ++ [i]) s w
  = let '(s, w, log) := run ins s w in
    let '(s, w, o) := step i s w in
    (s, w, log ++ match o with Some (ev, o) => [(input_time i, ev, o)] | None => [] end).
Proof.
  revert s w. induction ins as [|j ins IH]; intros s w; cbn [run app].
  - destruct (step i s w) as [[s1 w1] o]. cbn. by rewrite app_nil_r.
  - destruct (step j s w) as [[s1 w1] o1]. rewrite IH. destruct (run ins s1 w1) as [[s2 w2] log].
    destruct (step i s2 w2) as [[s3 w3] o3]. by rewrite app_assoc.
Qed.

(** * The memory window *)

Definition event_key (ev : NewHostEvent) : string := if decide (ev_IP ev = "") then mac_key (ev_MAC ev) else ev_IP ev.

(** An event with neither address is ignored. *)
Definition addressed (ev : NewHostEvent) : Prop := ¬ (ev_IP ev = "" ∧ ev_MAC ev = "").

#[export] Instance addressed_dec ev : Decision (addressed ev).
Proof. unfold addressed. apply _. Defined.

Lemma identify_frame c ev (s s' : Service W) w w' rep :
  identify c ev s w = (rep, s', w') →
  sv_recent s' = sv_recent s ∧ sv_lastEvents s' = sv_lastEvents s
  ∧ (sv_stats s' = sv_stats s ∨ ∃ b, sv_stats s' = add_identified b (sv_stats s)).
Proof. unfold identify. intros H. repeat case_match; simplify_eq/=; eauto 10. Qed.

(** Splits a handler into its branches. *)
Ltac branches :=
  repeat (case_match; simplify_eq/=); try (match goal with H : finish _ _ _ _ _ = _ |- _ => unfold finish in H; simplify_eq/= end).

Lemma handleMACOnly_recent c ev (s s' : Service W) w w' o :
  handleMACOnly c ev s w = (s', w', o) →
  match sv_recent s !! mac_key (ev_MAC ev) with
  | Some _ => sv_recent s' = sv_recent s ∧ o = Some "skipped_recent"
  | None => sv_recent s' = <[mac_key (ev_MAC ev) := ca_now c]> (sv_recent s) ∧ o ≠ Some "skipped_recent"
  end.
Proof.
  unfold handleMACOnly, seenRecently. cbn [bump sv_recent]. destruct (sv_recent s !! _) as [t|] eqn:E.
  - rewrite bool_decide_true by eauto. unfold finish. by intros [= <- <- <-].
  - rewrite bool_decide_false by (by intros [? ?]). intros H. unfold finish in H. by branches.
Qed.

Lemma handle_recent c ev (s s' : Service W) w w' o :
  addressed ev → handle c ev s w = (s', w', o) →
  match sv_recent s !! event_key ev with
  | Some _ => sv_recent s' = sv_recent s ∧ o = Some "skipped_recent"
  | None => sv_recent s' = <[event_key ev := ca_now c]> (sv_recent s) ∧ o ≠ Some "skipped_recent"
  end.
Proof.
  intros Ha. unfold handle, event_key. case_decide as Hi.
  { case_decide as Hm; [by destruct Ha|]. apply handleMACOnly_recent. }
  unfold seenRecently. cbn [bump sv_recent]. destruct (sv_recent s !! ev_IP ev) as [t|] eqn:E.
  - rewrite bool_decide_true by eauto. unfold finish. by intros [= <- <- <-].
  - rewrite bool_decide_false by (by intros [? ?]). destruct (ResolveGate _ _ _ _ _) as [nets [nid any]].
    destruct (_ && any). { unfold finish. by intros [= <- <- <-]. }
    destruct (if sv_hasDB _ then _ else _) as [[]|].
    + unfold finish. by intros [= <- <- <-].
    + destruct (identify _ _ _ _) as [[rep s1] w1] eqn:I. apply identify_frame in I as (I & _).
      destruct (sink_Apply c rep w1) as [w2 []]; unfold finish; intros [= <- <- <-]; cbn; by rewrite I.
    + unfold finish. by intros [= <- <- <-].
Qed.

(** The times at which a key was handled, not suppressed. *)
Definition handled (k : string) (log : list entry) (t : Z) : Prop :=
  ∃ ev o, (t, ev, o) ∈ log ∧ addressed ev ∧ event_key ev = k ∧ o ≠ Some "skipped_recent".

Definition sweeps (ins : list input) : list Z := omap (fun i => match i with InSweep t => Some t | _ => None end) ins.

Definition in_order (ins : list input) : Prop := Sorted.StronglySorted Z.le (input_time <$> ins).

Record window_inv (ins : list input) (s : Service W) (log : list entry) : Prop := {
  wi_entry : ∀ k t, sv_recent s !! k = Some t → handled k log t ∧ ∀ sw, sw ∈ sweeps ins → sw ≤ t + dedupTTL;
  wi_handled : ∀ k t, handled k log t → (∃ t', t ≤ t' ∧ sv_recent s !! k = Some t') ∨ ∃ sw, sw ∈ sweeps ins ∧ t + dedupTTL < sw;
  wi_times : ∀ k t, handled k log t → ∃ i, i ∈ ins ∧ input_time i = t
}.

Lemma handled_app k l l' t : handled k (l ++ l') t ↔ handled k l t ∨ handled k l' t.
Proof. unfold handled. setoid_rewrite elem_of_app. naive_solver. Qed.

Lemma handled_one k t0 ev o t :
  handled k [(t0, ev, o)] t ↔ t = t0 ∧ addressed ev ∧ event_key ev = k ∧ o ≠ Some "skipped_recent".
Proof.
  unfold handled. setoid_rewrite list_elem_of_singleton. split; [|naive_solver].
  intros (ev' & o' & E & ?). by simplify_eq.
Qed.

Lemma in_order_snoc ins i : in_order (ins ++ [i]) → in_order ins ∧ ∀ j, j ∈ ins → input_time j ≤ input_time i.
Proof.
  unfold in_order. rewrite fmap_app. intros H. apply sorting.StronglySorted_app in H as (H1 & H2 & _). split; [done|].
  intros j Hj. apply H1; [apply list_elem_of_fmap; eauto|cbn; set_solver].
Qed.

Lemma sweeps_snoc ins i : sweeps (ins ++ [i]) = sweeps ins ++ match i with InSweep t => [t] | _ => [] end.
Proof. unfold sweeps. rewrite omap_app. by destruct i. Qed.

Lemma elem_of_sweeps sw ins : sw ∈ sweeps ins → ∃ i, i ∈ ins ∧ input_time i = sw.
Proof. unfold sweeps. intros (i & Hi & E)%list_elem_of_omap. exists i. destruct i; by simplify_eq. Qed.

Lemma window_event c ev ins s w s' w' o log :
  (∀ j, j ∈ ins → input_time j ≤ ca_now c) → window_inv ins s log → handle c ev s w = (s', w', o) →
  window_inv (ins ++ [InEvent c ev]) s' (log ++ [(ca_now c, ev, o)]).
Proof.
  intros Hle [I1 I2 I3] Hh. pose proof Hh as Hr.
  assert (∀ t, handled (event_key ev) log t → t ≤ ca_now c) as Hpast
    by (intros t (i & Hi & <-)%I3; by apply Hle).
  destruct (decide (addressed ev)) as [Ha|Ha].
  2:{ assert (s' = s) as ->.
      { apply dec_stable in Ha as [E1 E2]. unfold handle in Hh. rewrite decide_True, decide_True in Hh by done. by simplify_eq. }
      split; try setoid_rewrite sweeps_snoc; try setoid_rewrite app_nil_r; setoid_rewrite handled_app; setoid_rewrite handled_one.
      - intros k t Hk. destruct (I1 k t Hk). auto.
      - intros k t [H|[_ [H _]]]; [eauto|done].
      - intros k t [(i & ? & ?)%I3|[_ [H _]]]; [|done]. exists i. split; [set_solver|done]. }
  apply handle_recent in Hr; [|done]. destruct (sv_recent s !! event_key ev) as [t0|] eqn:E; destruct Hr as [Hr Ho].
  - split; try setoid_rewrite sweeps_snoc; try setoid_rewrite app_nil_r; setoid_rewrite handled_app; setoid_rewrite handled_one;
      rewrite ?Hr.
    + intros k t Hk. destruct (I1 k t Hk). auto.
    + intros k t [H|(_ & _ & _ & H)]; [eauto|done].
    + intros k t [(i & ? & ?)%I3|(_ & _ & _ & H)]; [|done]. exists i. split; [set_solver|done].
  - split; try setoid_rewrite sweeps_snoc; try setoid_rewrite app_nil_r; setoid_rewrite handled_app; setoid_rewrite handled_one;
      rewrite ?Hr.
    + intros k t [[<- <-]|[Hne Hk]]%lookup_insert_Some; [|destruct (I1 k t Hk); auto]. split; [auto 10|].
      intros sw (i & Hi & <-)%elem_of_sweeps. specialize (Hle i Hi). unfold dedupTTL, minute, nanos_per_second. lia.
    + intros k t [H|(-> & _ & <- & _)].
      * destruct (decide (k = event_key ev)) as [->|Hne].
        { left. exists (ca_now c). split; [by apply Hpast|]. by simplify_map_eq. }
        rewrite lookup_insert_ne by done. by apply I2.
      * left. exists (ca_now c). split; [lia|]. by simplify_map_eq.
    + intros k t [(i & ? & ?)%I3|(-> & _)]; [exists i|exists (InEvent c ev)]; (split; [set_solver|done]).
Qed.

Lemma window_sweep now ins (s : Service W) log :
  window_inv ins s log → window_inv (ins ++ [InSweep now]) (sweepRecent now s) (log ++ []).
Proof.
  intros [I1 I2 I3]. split; try setoid_rewrite sweeps_snoc; rewrite app_nil_r; cbn [sweepRecent set_recent sv_recent].
  - intros k t [Hk Ht]%map_lookup_filter_Some. cbn in Ht. destruct (I1 k t Hk) as [? Hs]. split; [done|].
    intros sw [Hsw| ->%list_elem_of_singleton]%elem_of_app; [by apply Hs|lia].
  - intros k t Hh. destruct (I2 k t Hh) as [(t' & Hle & Hk)|(sw & ? & ?)].
    + destruct (decide (t' < now - dedupTTL)); [right; exists now; split; [set_solver|lia]|].
      left. exists t'. split; [done|]. by apply map_lookup_filter_Some.
    + right. exists sw. split; [set_solver|done].
  - intros k t (i & ? & ?)%I3. exists i. split; [set_solver|done].
Qed.

Lemma run_window ins s0 w0 s w log :
  sv_recent s0 = ∅ → in_order ins → run ins s0 w0 = (s, w, log) → window_inv ins s log.
Proof.
  intros H0. revert s w log. induction ins as [|i ins IH] using rev_ind; intros s w log Ho.
  - cbn. intros [= <- _ <-]. split; [by rewrite H0| |]; intros k t (ev & o & H & _); by apply elem_of_nil in H.
  - apply in_order_snoc in Ho as [Ho Hle]. rewrite run_snoc. destruct (run ins s0 w0) as [[s1 w1] log1] eqn:E.
    specialize (IH s1 w1 log1 Ho eq_refl). destruct i as [c ev|now]; cbn [step].
    + destruct (handle c ev s1 w1) as [[s2 w2] o] eqn:Hh. intros [= <- <- <-]. by eapply window_event.
    + intros [= <- <- <-]. by apply window_sweep.
Qed.

(** C39.  How long a host is suppressed.  In any run of events and sweeps from a
    coordinator that remembers nothing, with a clock that does not run
    backwards and whatever the sink does: an event with an address or a MAC
    that is handled comes more than [dedupTTL] after every earlier handled
    event of its key; one that is suppressed follows a handled event of its
    key that every sweep so far came at most [dedupTTL] after; and with a
    sweep in the last [dedupTTL] an event whose key was not handled for twice
    that time is not suppressed.  Between one and two [dedupTTL] it depends on
    the sweeps ([suppressed_beyond_ttl]). *)
Theorem dedup_window ins s0 w0 c ev s w log s' w' o
    (H0 : sv_recent s0 = ∅) (Ho : in_order (ins ++ [InEvent c ev])) (Ha : addressed ev)
    (Hrun : run ins s0 w0 = (s, w, log)) (Hh : handle c ev s w = (s', w', o)) :
  (o ≠ Some "skipped_recent" → ∀ t, handled (event_key ev) log t → dedupTTL < ca_now c - t)
  ∧ (o = Some "skipped_recent" → ∃ t, handled (event_key ev) log t ∧ ∀ sw, sw ∈ sweeps ins → sw ≤ t + dedupTTL)
  ∧ ((∃ sw, sw ∈ sweeps ins ∧ ca_now c - sw ≤ dedupTTL) →
     (∀ t, handled (event_key ev) log t → 2 * dedupTTL < ca_now c - t) → o ≠ Some "skipped_recent").
Proof.
  apply in_order_snoc in Ho as [Ho Hle]. destruct (run_window ins s0 w0 s w log H0 Ho Hrun) as [I1 I2 _].
  apply handle_recent in Hh; [|done]. destruct (sv_recent s !! event_key ev) as [t0|] eqn:E; destruct Hh as [_ Hh].
  - destruct (I1 _ _ E) as [J1 J2]. split_and!; [done|by eauto|]. intros (sw & Hsw & Hlt) Hall _.
    specialize (J2 sw Hsw). specialize (Hall _ J1). lia.
  - split_and!; [|done|done]. intros _ t Ht. destruct (I2 _ _ Ht) as [(t' & _ & E')|(sw & Hsw & Hlt)]; [congruence|].
    apply elem_of_sweeps in Hsw as (i & Hi & <-). specialize (Hle i Hi). cbn in Hle. lia.
Qed.

(** * Counters *)

Definition one (o : option string) (name : string) : Z := if decide (o = Some name) then 1 else 0.

Definition tally (name : string) (log : list entry) : Z := Z.of_nat (length (filter (fun e => e.2 = Some name) log)).

Lemma tally_snoc name log t ev o : tally name (log ++ [(t, ev, o)]) = tally name log + one o name.
Proof.
  unfold tally, one. rewrite list.filter_app, length_app. cbn [filter list_filter snd].
  case_decide; cbn [length]; lia.
Qed.

Definition record_of (e : entry) : option recentEvent :=
  let '(t, ev, o) := e in (fun out => mkRecent (ev_IP ev) (ev_MAC ev) (ev_Source ev) out t) <$> o.

Definition last_n {A} (n : nat) (l : list A) : list A := drop (length l - n) l.

Lemma last_n_snoc {A} n (l : list A) x : (0 < n)%nat → last_n n (last_n n l ++ [x]) = last_n n (l ++ [x]).
Proof.
  intros Hn. unfold last_n. rewrite !length_app, length_drop. cbn [length].
  destruct (decide (length l < n)%nat).
  - replace (length l - n)%nat with 0%nat by lia. rewrite drop_0. f_equal. lia.
  - rewrite <- (drop_app_le l [x]) by lia. rewrite drop_drop. f_equal. lia.
Qed.

(** What one event adds to the counters, by its outcome. *)
Record credited (ev : NewHostEvent) (o : option string) (t t' : statsSnapshot) : Prop := {
  cr_received : st_EventsReceived t' = st_EventsReceived t + if decide (addressed ev) then 1 else 0;
  cr_suppressed : st_SuppressedRecent t' = st_SuppressedRecent t + one o "skipped_recent";
  cr_off_network : st_OffNetworkDropped t' = st_OffNetworkDropped t + one o "skipped_offnetwork";
  cr_anchored : st_MACOnlyAnchored t' = st_MACOnlyAnchored t + one o "anchored_mac";
  cr_recorded : st_DeviceRecorded t' = st_DeviceRecorded t + one o "recorded" + one o "anchored_mac";
  cr_enriched : st_MACOnlyEnriched t' = st_MACOnlyEnriched t + one o "enriched_mac";
  cr_known : st_KnownHostSkipped t ≤ st_KnownHostSkipped t' ≤ st_KnownHostSkipped t + one o "skipped_known";
  cr_identify : st_IdentifyTriggered t' - st_IdentifyAlive t' - st_IdentifyDead t'
                = st_IdentifyTriggered t - st_IdentifyAlive t - st_IdentifyDead t
}.

Ltac credit Ha := split; cbn; unfold one; rewrite ?(decide_True (P := addressed _)) by exact Ha;
  repeat case_decide; simplify_eq/=; lia.

(** The ring after an outcome. *)
Definition ring (e : entry) (l : list recentEvent) : list recentEvent :=
  match record_of e with Some r => last_n maxRecentEvents (l ++ [r]) | None => l end.

Lemma handleMACOnly_credited c ev (s s' : Service W) w w' o : addressed ev →
  handleMACOnly c ev s w = (s', w', o) →
  credited ev o (sv_stats s) (sv_stats s') ∧ sv_lastEvents s' = ring (ca_now c, ev, o) (sv_lastEvents s).
Proof.
  intros Ha H. unfold handleMACOnly, finish in H.
  repeat (case_match; simplify_eq/=); (split; [credit Ha|done]).
Qed.

Lemma handle_credited c ev (s s' : Service W) w w' o :
  handle c ev s w = (s', w', o) →
  credited ev o (sv_stats s) (sv_stats s') ∧ sv_lastEvents s' = ring (ca_now c, ev, o) (sv_lastEvents s).
Proof.
  unfold handle, finish. case_decide as Hi.
  { case_decide as Hm.
    - intros [= <- <- <-]. split; [|done]. split; unfold one; rewrite ?decide_False by (unfold addressed; tauto || done); lia.
    - apply handleMACOnly_credited. by intros []. }
  assert (addressed ev) as Ha by (by intros []).
  destruct (seenRecently _ _). { intros [= <- <- <-]. split; [credit Ha|done]. }
  destruct (ResolveGate _ _ _ _ _) as [nets [nid any]].
  destruct (_ && any). { intros [= <- <- <-]. split; [credit Ha|done]. }
  destruct (if sv_hasDB _ then _ else _) as [[]|]; [intros [= <- <- <-]; split; [credit Ha|done]| |
    intros [= <- <- <-]; split; [credit Ha|done]].
  destruct (identify _ _ _ _) as [[rep s1] w1] eqn:I. apply identify_frame in I as (_ & I1 & I2). cbn in I1, I2.
  destruct (sink_Apply c rep w1) as [w2 []]; intros [= <- <- <-]; cbn; rewrite I1;
    (split; [destruct I2 as [-> | [[] ->]]; credit Ha|done]).
Qed.

(** The counters of the service are those of the log: nothing is counted
    twice or lost, except that a sighting of a known host is not always
    counted as one; the ring holds the last twenty outcomes. *)
Theorem counters_follow_log trigger ident db networkID ins w s w' log
    (Hrun : run ins (New trigger ident db networkID) w = (s, w', log)) :
  let t := sv_stats s in
  st_EventsReceived t = Z.of_nat (length (filter (fun e => addressed e.1.2) log))
  ∧ st_SuppressedRecent t = tally "skipped_recent" log
  ∧ st_OffNetworkDropped t = tally "skipped_offnetwork" log
  ∧ st_DeviceRecorded t = tally "recorded" log + tally "anchored_mac" log
  ∧ st_MACOnlyAnchored t = tally "anchored_mac" log
  ∧ st_MACOnlyEnriched t = tally "enriched_mac" log
  ∧ 0 ≤ st_KnownHostSkipped t ≤ tally "skipped_known" log
  ∧ st_IdentifyTriggered t = st_IdentifyAlive t + st_IdentifyDead t
  ∧ sv_lastEvents s = last_n maxRecentEvents (omap record_of log).
Proof.
  cbv zeta. revert s w' log Hrun. induction ins as [|i ins IH] using rev_ind; intros s w' log.
  { cbn. by intros [= <- _ <-]. }
  rewrite run_snoc. destruct (run ins _ w) as [[s1 w1] log1] eqn:E. specialize (IH s1 w1 log1 eq_refl).
  destruct i as [c ev|now]; cbn [step].
  2:{ intros [= <- <- <-]. by rewrite app_nil_r. }
  destruct (handle c ev s1 w1) as [[s2 w2] o] eqn:Hh. intros [= <- <- <-]. apply handle_credited in Hh as [[] R].
  destruct IH as (I1 & I2 & I3 & I4 & I5 & I6 & I7 & I8 & I9).
  cbn [input_time]. rewrite !tally_snoc, omap_app, R, I9. unfold ring.
  split_and!; try lia.
  - rewrite list.filter_app, length_app. cbn [filter list_filter fst snd]. case_decide; cbn [length]; lia.
  - cbn [omap list_omap]. destruct (record_of _); [apply last_n_snoc; unfold maxRecentEvents; lia|by rewrite app_nil_r].
Qed.

(** * Known hosts *)

Lemma known_mac nid addr mac db row :
  row ∈ dd_rows db → row_MAC row = mac → mac ≠ "" → isKnownHost (fun _ => true) nid addr mac db = Ok true.
Proof.
  intros Hr Hm Hne. unfold isKnownHost. rewrite decide_False by done. cbn [negb].
  assert (existsb (fun r => bool_decide (row_MAC r = mac)) (dd_rows db) = true) as ->; [|done].
  apply existsb_exists. exists row. split; [by apply list_elem_of_In|by apply bool_decide_eq_true].
Qed.

Lemma synthesized_mac ev : NormalizeMAC (ev_MAC ev) = ev_MAC ev → ev_MAC ev ≠ "" → ev_Hints ev !! "mac" = None →
  reportMAC (synthesizeReport ev) = ev_MAC ev.
Proof.
  intros Hn Hne Hh. unfold reportMAC, synthesizeReport. rewrite !(decide_False (P := ev_MAC ev = "")) by done.
  cbn [hr_DeviceFields]. rewrite lookup_union_r, lookup_insert_eq by done. cbn. rewrite Hn. by rewrite decide_False.
Qed.

(** A host that was recorded under a MAC is known from then on, at whatever
    address it appears next: its sightings no longer reach the bridge. *)
Theorem recorded_is_known c ev s w s' w' o
    (Hh : handle c ev s w = (s', w', Some o)) (Ho : o ∈ ["recorded"; "anchored_mac"])
    (Hn : NormalizeMAC (ev_MAC ev) = ev_MAC ev) (Hm : ev_MAC ev ≠ "") (Hf : ev_Hints ev !! "mac" = None)
    (Ht : sv_trigger s = false) nid addr :
  isKnownHost (fun _ => true) nid addr (ev_MAC ev) (sink_db w') = Ok true.
Proof.
  assert (∀ rep, reportMAC rep = ev_MAC ev → ∀ w1, sink_Apply c rep w1 = (w', true) →
    isKnownHost (fun _ => true) nid addr (ev_MAC ev) (sink_db w') = Ok true) as Hnew.
  { intros rep Hrep w1 (row & Hr & _ & Hrm)%sink_new_row. eapply known_mac; [done| |done]. congruence. }
  revert Hh. unfold handle, handleMACOnly, finish. case_decide as Hi.
  - rewrite decide_False by done. intros H. repeat (case_match; simplify_eq/=); try (by vm_compute in Ho; set_solver).
    eapply Hnew; [|done]. by rewrite <- (synthesized_mac ev).
  - destruct (seenRecently _ _). { intros H; simplify_eq. set_solver. }
    destruct (ResolveGate _ _ _ _ _) as [nets [n any]]. destruct (_ && any). { intros H; simplify_eq. set_solver. }
    destruct (if sv_hasDB _ then _ else _) as [[]|]; [intros H; simplify_eq; set_solver| |intros H; simplify_eq; set_solver].
    unfold identify. cbn. rewrite Ht. destruct (sink_Apply c _ w) as [w2 []] eqn:A; intros H; simplify_eq; [|set_solver].
    eapply Hnew; [|done]. by apply synthesized_mac.
Qed.

End run.

(** * Observations *)

Section observations.
Context (first_key : gmap string (list Evidence) → option string).
Hypothesis first_key_in : ∀ m, m ≠ ∅ → ∃ k, first_key m = Some k ∧ is_Some (m !! k).

Notation observed := (list (string * list Evidence)).

Definition observe_all (l : observed) : gmap string (list Evidence) :=
  fold_left (fun m o => Observe first_key o.1 o.2 m) l ∅.

(** Everything that was observed about an address, oldest first. *)
Definition stream (addr : string) (l : observed) : list Evidence := mjoin (snd <$> filter (fun o => o.1 = addr) l).

Definition addresses (l : observed) : gset string := list_to_set (fst <$> l).

Lemma stream_snoc addr l o : stream addr (l ++ [o]) = stream addr l ++ (if decide (o.1 = addr) then o.2 else []).
Proof.
  unfold stream. rewrite list.filter_app, fmap_app, join_app. f_equal. cbn [filter list_filter].
  case_decide; cbn; by rewrite ?app_nil_r.
Qed.

Lemma addresses_snoc l o : addresses (l ++ [o]) = addresses l ∪ {[o.1]}.
Proof. unfold addresses. rewrite fmap_app, list_to_set_app_L. cbn. by rewrite union_empty_r_L. Qed.

Lemma last_n_suffix {A} n (l : list A) : last_n n l `suffix_of` l.
Proof. unfold last_n. exists (take (length l - n) l). by rewrite take_drop. Qed.

Lemma last_n_length {A} n (l : list A) : (length (last_n n l) ≤ n)%nat.
Proof. unfold last_n. rewrite length_drop. lia. Qed.

Lemma last_n_app {A} n (l l' : list A) : last_n n (last_n n l ++ l') = last_n n (l ++ l').
Proof.
  unfold last_n. rewrite !length_app, length_drop. destruct (decide (length l ≤ n)%nat).
  - replace (length l - n)%nat with 0%nat by lia. rewrite drop_0. f_equal. lia.
  - rewrite <- (drop_app_le l l') by lia. rewrite drop_drop. f_equal. lia.
Qed.

Record cache_inv (l : observed) (m : gmap string (list Evidence)) : Prop := {
  ci_size : (size m ≤ maxObservedIPs)%nat;
  ci_dom : dom m ⊆ addresses l;
  ci_named : m !! "" = None;
  ci_entry : ∀ a evs, m !! a = Some evs → (length evs ≤ maxObsPerIP)%nat ∧ evs `suffix_of` stream a l;
  ci_exact : (size (addresses l) ≤ maxObservedIPs)%nat →
             ∀ a, a ≠ "" → EvidenceFor a m = last_n maxObsPerIP (stream a l)
}.

(** The eviction makes room without adding an address. *)
Lemma evict_spec m addr :
  let m' := if (maxObservedIPs <=? size m)%nat && bool_decide (m !! addr = None)
            then match first_key m with Some k => delete k m | None => m end else m in
  (size m ≤ maxObservedIPs)%nat →
  m' ⊆ m ∧ (m' !! addr = None → size m' < maxObservedIPs)%nat
  ∧ (m' = m ∨ m !! addr = None ∧ (maxObservedIPs ≤ size m)%nat).
Proof.
  cbv zeta. intros Hs. destruct (Nat.leb_spec maxObservedIPs (size m)) as [Hge|Hlt]; cbn [andb].
  2:{ split_and!; auto. }
  case_bool_decide as Hn.
  - destruct (first_key_in m) as (k & -> & [v Hk]).
    { intros ->. rewrite map_size_empty in Hge. unfold maxObservedIPs in Hge. lia. }
    split_and!; [apply delete_subseteq| |by right]. intros _. rewrite map_size_delete_Some by eauto.
    assert (size m ≠ 0)%nat by (intros ->%map_size_empty_iff; simplify_map_eq). lia.
  - split_and!; auto. done.
Qed.

Lemma observe_skip l m addr evs : addr = "" ∨ evs = [] → cache_inv l m → cache_inv (l ++ [(addr, evs)]) m.
Proof.
  intros Hd [I1 I2 I0 I3 I4].
  assert (∀ a, a ≠ "" → stream a (l ++ [(addr, evs)]) = stream a l) as Hst.
  { intros a Ha. rewrite stream_snoc. cbn. case_decide; [|by rewrite app_nil_r].
    destruct Hd as [-> | ->]; [congruence|by rewrite app_nil_r]. }
  split; [done|rewrite addresses_snoc; set_solver|done| |].
  - intros a evs' H. destruct (decide (a = "")) as [-> |]; [congruence|]. rewrite Hst by done. by apply I3.
  - rewrite addresses_snoc. intros Hs a Ha. rewrite Hst by done. apply I4; [|done].
    eapply Nat.le_trans; [|exact Hs]. apply subseteq_size. set_solver.
Qed.

Lemma observe_add l m addr evs : addr ≠ "" → evs ≠ [] → cache_inv l m →
  cache_inv (l ++ [(addr, evs)]) (Observe first_key addr evs m).
Proof.
  intros Ha He [I1 I2 I0 I3 I4]. unfold Observe. rewrite decide_False by tauto.
  pose proof (evict_spec m addr) as Hev. cbv zeta in Hev. set (m' := if _ && _ then _ else m) in *.
  destruct (Hev I1) as (Hsub & Hroom & Hcase). clear Hev.
  assert (dom m' ⊆ dom m) as Hdom by (by apply subseteq_dom).
  fold (last_n maxObsPerIP (default [] (m' !! addr) ++ evs)).
  assert (default [] (m' !! addr) `suffix_of` stream addr l) as Hsuf.
  { destruct (m' !! addr) as [e0|] eqn:E; cbn; [|by exists (stream addr l); rewrite app_nil_r].
    apply I3. by eapply lookup_weaken. }
  split.
  - rewrite map_size_insert. case_match eqn:E; [|specialize (Hroom eq_refl); lia].
    etrans; [by apply map_subseteq_size|done].
  - rewrite dom_insert_L, addresses_snoc. cbn. set_solver.
  - rewrite lookup_insert_ne by done. by eapply lookup_weaken_None.
  - intros a evs' [[<- <-]|[Hne H]]%lookup_insert_Some; rewrite stream_snoc; cbn.
    + rewrite decide_True by done. split; [apply last_n_length|]. etrans; [apply last_n_suffix|]. by apply suffix_app.
    + rewrite decide_False, app_nil_r by congruence. apply I3. by eapply lookup_weaken.
  - rewrite addresses_snoc. cbn. intros Hs a Hne. rewrite stream_snoc. cbn.
    assert (m' = m) as E.
    { destruct Hcase as [?|[Hn Hge]]; [done|]. exfalso.
      assert (dom m ∪ {[addr]} ⊆ addresses l ∪ {[addr]}) as Hd by set_solver. apply subseteq_size in Hd.
      rewrite size_union in Hd by (apply not_elem_of_dom in Hn; set_solver). rewrite size_singleton, size_dom in Hd. lia. }
    rewrite E. assert (size (addresses l) ≤ maxObservedIPs)%nat as Hs'.
    { eapply Nat.le_trans; [|exact Hs]. apply subseteq_size. set_solver. }
    unfold EvidenceFor. case_decide as Hk.
    + subst a. rewrite lookup_insert_eq. cbn. specialize (I4 Hs' addr Ha). unfold EvidenceFor in I4. rewrite I4.
      apply last_n_app.
    + rewrite lookup_insert_ne, app_nil_r by done. by apply I4.
Qed.

(** The observation cache stays within 4096 addresses of at most four
    observations each; what it holds for an address are the latest ones, and
    as long as no more addresses are seen it holds the last four of each. *)
Theorem observations_bounded (l : observed) :
  (size (observe_all l) ≤ 4096)%nat
  ∧ (∀ a, (length (EvidenceFor a (observe_all l)) ≤ 4)%nat ∧ EvidenceFor a (observe_all l) `suffix_of` stream a l)
  ∧ ((size (addresses l) ≤ 4096)%nat → ∀ a, a ≠ "" → EvidenceFor a (observe_all l) = last_n 4 (stream a l)).
Proof.
  assert (cache_inv l (observe_all l)) as [I1 _ _ I3 I4].
  { unfold observe_all. induction l as [|[a evs] l IH] using rev_ind.
    - cbn. split; [rewrite map_size_empty; unfold maxObservedIPs; lia|set_solver|done|done|done].
    - rewrite fold_left_app. cbn [fold_left fst snd]. destruct (decide (a = "" ∨ evs = [])) as [Hd|Hd].
      + replace (Observe _ _ _ _) with (fold_left (fun m o => Observe first_key o.1 o.2 m) l ∅)
          by (unfold Observe; by rewrite decide_True). by apply observe_skip.
      + apply observe_add; [tauto..|done]. }
  split_and!; [exact I1| |exact I4]. intros a. unfold EvidenceFor. destruct (observe_all l !! a) as [evs|] eqn:E; cbn.
  - by apply I3.
  - split; [lia|]. exists (stream a l). by rewrite app_nil_r.
Qed.

End observations.

(** * Attribution *)

Lemma byte_ones_nonneg fuel b : 0 ≤ byte_ones fuel b.
Proof. revert b. induction fuel as [|fuel IH]; intros b; cbn; [lia|]. case_match; [lia|]. specialize (IH (u8 (Z.shiftl b 1))). lia. Qed.

Lemma MaskSize_nonneg m : 0 ≤ (MaskSize m).1.
Proof.
  assert (∀ n, simpleMaskLength m = Some n → 0 ≤ n) as H.
  { induction m as [|b m IH]; cbn [simpleMaskLength]; [by intros n [= <-]|]. intros n. case_match.
    - intros (k & Hk & ->)%fmap_Some. specialize (IH k Hk). lia.
    - cbv zeta. case_match; [|done]. intros <-%(inj Some). apply byte_ones_nonneg. }
  unfold MaskSize. destruct (simpleMaskLength m); cbn; [by apply H|lia].
Qed.

Notation prefix_len n := ((MaskSize (net_Mask n)).1).

(** A sighting is attributed to the network with the longest prefix that
    contains its address, and to none only if no network contains it. *)
Theorem longest_prefix (nets : list (Z * IPNet)) (a : ip) :
  match best_net nets a with
  | Some id => ∃ n, (id, n) ∈ nets ∧ Contains n a = true
               ∧ ∀ id' n', (id', n') ∈ nets → Contains n' a = true → prefix_len n' ≤ prefix_len n
  | None => ∀ id' n', (id', n') ∈ nets → Contains n' a = false
  end.
Proof.
  unfold best_net.
  assert (match fold_left (better a) nets (None, -1) with
    | (Some id, b) => ∃ n, (id, n) ∈ nets ∧ Contains n a = true ∧ b = prefix_len n
                      ∧ ∀ id' n', (id', n') ∈ nets → Contains n' a = true → prefix_len n' ≤ b
    | (None, b) => b = -1 ∧ ∀ id' n', (id', n') ∈ nets → Contains n' a = false
    end) as H.
  { induction nets as [|[id n] nets IH] using rev_ind.
    - cbn. split; [done|]. intros ?? H. by apply elem_of_nil in H.
    - rewrite fold_left_app. cbn [fold_left]. unfold better at 1. cbn [fst snd].
      destruct (fold_left (better a) nets (None, -1)) as [[best|] b]; destruct (Contains n a) eqn:C; cbn [negb].
      + destruct IH as (m & Hm & Cm & -> & Hall). cbn [snd]. destruct (Z.ltb_spec (prefix_len m) (prefix_len n)).
        * exists n. split_and!; [set_solver|done..|]. intros id' n' [Hin|Hin]%elem_of_app Hc; [specialize (Hall _ _ Hin Hc); lia|].
          apply list_elem_of_singleton in Hin. simplify_eq. lia.
        * exists m. split_and!; [set_solver|done..|]. intros id' n' [Hin|Hin]%elem_of_app Hc; [by eapply Hall|].
          apply list_elem_of_singleton in Hin. simplify_eq. lia.
      + destruct IH as (m & Hm & Cm & -> & Hall). exists m. split_and!; [set_solver|done..|].
        intros id' n' [Hin|Hin]%elem_of_app Hc; [by eapply Hall|]. apply list_elem_of_singleton in Hin. congruence.
      + destruct IH as [-> Hall]. cbn [snd]. pose proof (MaskSize_nonneg (net_Mask n)).
        destruct (Z.ltb_spec (-1) (prefix_len n)); [|lia]. exists n. split_and!; [set_solver|done..|].
        intros id' n' [Hin|Hin]%elem_of_app Hc; [specialize (Hall _ _ Hin); congruence|].
        apply list_elem_of_singleton in Hin. simplify_eq. lia.
      + destruct IH as [-> Hall]. split; [done|].
        intros id' n' [Hin|Hin]%elem_of_app; [by eapply Hall|]. apply list_elem_of_singleton in Hin. by simplify_eq. }
  destruct (fold_left _ _ _) as [[id|] b]; cbn.
  - destruct H as (n & ? & ? & -> & ?). eauto.
  - tauto.
Qed.

(** * A run *)

(** An outlet that inserts every report as a new row. *)
Definition plain_info : DeviceInfo := mkInfo "" "other" "" "" "" "" "[]" "[]" "" "" [] 0 "" "".

Definition plain_row (id : Z) (addr mac : string) (net : option Z) : DeviceRow :=
  mkRow id "" addr mac net "online" None None None None 0 plain_info.

#[local] Program Instance table_sink : HostSink (device_db * list Network) := {|
  sink_db := fst;
  sink_put_db db w := (db, w.2);
  sink_networks := snd;
  sink_Apply _ rep w :=
    ((mkDeviceDb (dd_rows w.1 ++ [plain_row (dd_seq w.1 + 1) (hr_IP rep) (reportMAC rep) None]) (dd_seq w.1 + 1)
        (dd_presence w.1), w.2), true)
|}.
Next Obligation. done. Qed.
Next Obligation.
  intros c rep [db nets] w' [= <-]. eexists. cbn. split; [apply elem_of_app; right; by apply list_elem_of_singleton|done].
Qed.

Definition calm (now : Z) : call :=
  mkCall now (fun _ => true) (mkBridgeFaults (fun _ => true) true true true (fun _ => true) true true) "".

Definition phone (addr : string) : NewHostEvent := mkSighting addr "aa:bb:cc:dd:ee:ff" "arp_cache" ∅.

Definition lan_world : device_db * list Network :=
  (mkDeviceDb [] 0 [], [mkNetwork 1 "lan" (Some "10.1.0.0/16") None; mkNetwork 2 "lab" (Some "10.1.2.0/24") None]).

Definition quiet : Service (device_db * list Network) := New false None true 0.

(** Two sightings in a burst, a sweep that is due, and one that frees the key. *)
Definition burst : list input :=
  [InEvent (calm 0) (phone "10.1.2.9"); InEvent (calm 1) (phone "10.1.2.9"); InSweep dedupTTL; InSweep (2 * dedupTTL)].

Lemma dedup_window_witness :
  (fun r => r.2) (run burst quiet lan_world)
    = [(0, phone "10.1.2.9", Some "recorded"); (1, phone "10.1.2.9", Some "skipped_recent")]
  ∧ (handle (calm (2 * dedupTTL + 1)) (phone "10.1.2.9") (run burst quiet lan_world).1.1 (run burst quiet lan_world).1.2).2
    ≠ Some "skipped_recent".
Proof.
  split; [vm_compute; reflexivity|].
  destruct (run burst quiet lan_world) as [[s w] log] eqn:Hrun. cbn [fst snd].
  destruct (handle _ _ s w) as [[s' w'] o] eqn:Hh. cbn [snd].
  refine (proj2 (proj2 (dedup_window burst quiet lan_world (calm (2 * dedupTTL + 1)) (phone "10.1.2.9") s w log s' w' o
            eq_refl _ _ Hrun Hh)) _ _).
  - repeat constructor; vm_compute; discriminate.
  - intros [H _]. discriminate H.
  - exists (2 * dedupTTL). split; [vm_compute; right; left|vm_compute; discriminate].
  - intros t (ev & o' & Hin & _ & _ & Ho'). assert (log = [(0, phone "10.1.2.9", Some "recorded"); (1, phone "10.1.2.9", Some "skipped_recent")])
      as -> by (change log with ((s, w, log).2); rewrite <- Hrun; vm_compute; reflexivity).
    repeat (apply elem_of_cons in Hin as [Hin|Hin]); [simplify_eq; vm_compute; reflexivity|by simplify_eq|by apply elem_of_nil in Hin].
Defined.

Lemma counters_follow_log_witness :
  st_SuppressedRecent (sv_stats (run burst quiet lan_world).1.1) = tally "skipped_recent" (run burst quiet lan_world).2
  ∧ tally "skipped_recent" (run burst quiet lan_world).2 = 1.
Proof.
  split; [|vm_compute; reflexivity]. destruct (run burst quiet lan_world) as [[s w] log] eqn:Hrun. cbn [fst snd].
  apply (counters_follow_log false None true 0 burst lan_world s w log Hrun).
Defined.

Lemma recorded_is_known_witness :
  isKnownHost (fun _ => true) (Some 7) "10.9.9.9" "aa:bb:cc:dd:ee:ff"
    (handle (calm 0) (phone "10.1.2.9") quiet lan_world).1.2.1 = Ok true.
Proof.
  destruct (handle (calm 0) (phone "10.1.2.9") quiet lan_world) as [[s w] o] eqn:Hh. cbn [fst snd].
  assert (o = Some "recorded") as -> by (change o with ((s, w, o).2); rewrite <- Hh; vm_compute; reflexivity).
  apply (recorded_is_known (calm 0) (phone "10.1.2.9") quiet lan_world s w "recorded" Hh);
    [set_solver|vm_compute; reflexivity|discriminate|reflexivity|reflexivity].
Defined.

Definition head_key (m : gmap string (list Evidence)) : option string := head (fst <$> map_to_list m).

Lemma head_key_in m : m ≠ ∅ → ∃ k, head_key m = Some k ∧ is_Some (m !! k).
Proof.
  intros Hm. unfold head_key. destruct (map_to_list m) as [|[k v] l] eqn:E.
  - by apply map_to_list_empty_iff in E.
  - exists k. split; [done|]. exists v. apply elem_of_map_to_list. rewrite E. set_solver.
Qed.

Definition heard (k : string) : Evidence := mkEvidence k 0 ∅.

Definition announcements : list (string * list Evidence) :=
  [("10.1.2.9", [heard "a"; heard "b"]); ("10.1.2.8", [heard "x"]); ("10.1.2.9", [heard "c"; heard "d"; heard "e"])].

Lemma observations_bounded_witness :
  EvidenceFor "10.1.2.9" (observe_all head_key announcements) = [heard "b"; heard "c"; heard "d"; heard "e"].
Proof.
  rewrite (proj2 (proj2 (observations_bounded head_key head_key_in announcements)));
    [vm_compute; reflexivity|vm_compute; lia|discriminate].
Defined.

(** * What the statuses and the window do not say *)

(** A sighting older than [dedupTTL] is still suppressed when the sweep came
    just before it was due. *)
Example suppressed_beyond_ttl :
  (handle (calm (2 * dedupTTL - 1)) (phone "10.1.2.9")
     (run [InEvent (calm 1) (phone "10.1.2.9"); InSweep dedupTTL] quiet lan_world).1.1 lan_world).2
  = Some "skipped_recent".
Proof. vm_compute. reflexivity. Qed.

(** One asset without an address makes every unknown chassis a known host. *)
Definition ledger_only : device_db * list Network := (mkDeviceDb [plain_row 1 "" "" None] 1 [], []).
Definition chassis : NewHostEvent := mkSighting "" "00:11:22:33:44:55" "lldp_frame" ∅.

Example addressless_asset_blocks_anchor :
  (handle (calm 0) chassis quiet ledger_only).2 = Some "skipped_known"
  ∧ (handle (calm 0) chassis quiet lan_world).2 = Some "anchored_mac".
Proof. vm_compute. split; reflexivity. Qed.

(** A failed pre-check is recorded as a known host and counted nowhere. *)
Example failed_check_not_counted :
  let c := mkCall 0 (fun st => match st with DsMac => false | _ => true end)
             (mkBridgeFaults (fun _ => true) true true true (fun _ => true) true true) "" in
  let r := handle c (phone "10.1.2.9") quiet lan_world in
  r.2 = Some "skipped_known" ∧ st_KnownHostSkipped (sv_stats r.1.1) = 0.
Proof. vm_compute. split; reflexivity. Qed.
