(* ===== verification/Sources.v ===== *)
(** The discovery sources that read tables and logs of the host
    (src/internal/service/scannerv2/discovery: arp_cache.go, router_arp.go,
    dhcp_leases.go, conntrack.go, dns_log.go, hostapd.go, multicast.go and
    the sweep of arp_scan_real.go; src/internal/service/scannerv2/probe/arp.go).

    A file is its text, [None] when it cannot be opened.  Sources emit into
    the queue of the coordinator; where the code ranges over a map, the events
    are in the order of [map_to_list] or [elements]. *)

From S2P Require Import Prelude Db NetAddr Cidr Report Orchestrator Discovery Frames.

Open Scope Z_scope.

(** * Text *)

Definition newline : ascii := "010"%char.
Definition carriage : ascii := "013"%char.

(** [strings.Fields]. *)
Definition flush (cur : string) : list string := if decide (cur = "") then [] else [String.rev cur].

Fixpoint fields_loop (fuel : nat) (cur s : string) : list string :=
  match fuel with
  | O => flush cur
  | S fuel =>
      match strip_space s with
      | Some rest => flush cur ++ fields_loop fuel "" rest
      | None => match s with
                | EmptyString => flush cur
                | String a rest => fields_loop fuel (String a cur) rest
                end
      end
  end.

Definition Fields (s : string) : list string := fields_loop (S (String.length s)) "" s.

(** [bufio.Scanner] on lines: the tokens, and whether it ended without a line
    over the limit. *)
Definition drop_cr (l : string) : string := if has_suffix (String carriage "") l then String.substring 0 (String.length l - 1) l else l.

Fixpoint scan_parts (max : Z) (parts : list string) : list string * bool :=
  match parts with
  | [] => ([], true)
  | [l] => if decide (l = "") then ([], true)
           else if max <=? Z.of_nat (String.length l) then ([], false) else ([drop_cr l], true)
  | l :: parts =>
      if max <=? Z.of_nat (String.length l) then ([], false)
      else let '(ls, ok) := scan_parts max parts in (drop_cr l :: ls, ok)
  end.

Definition scan_lines (max : Z) (text : string) : list string * bool := scan_parts max (split_on newline text).

(** [strings.Trim] with a one-character cutset. *)
Fixpoint trim_left (c : ascii) (s : string) : string :=
  match s with String a s' => if char_eqb a c then trim_left c s' else s | EmptyString => "" end.
Definition trim_char (c : ascii) (s : string) : string := String.rev (trim_left c (String.rev (trim_left c s))).

(** The text after the first occurrence of [sub]. *)
Fixpoint after_first (sub s : string) : option string :=
  if has_prefix sub s then Some (String.substring (String.length sub) (String.length s - String.length sub) s)
  else match s with EmptyString => None | String _ s' => after_first sub s' end.

(** The text from the first occurrence of [sub] on. *)
Fixpoint from_first (sub s : string) : option string :=
  if has_prefix sub s then Some s else match s with EmptyString => None | String _ s' => from_first sub s' end.

(** The text before and after the last occurrence of [sub]. *)
Fixpoint cut_last (sub s : string) : option (string * string) :=
  match s with
  | EmptyString => None
  | String a s' =>
      match cut_last sub s' with
      | Some (b, r) => Some (String a b, r)
      | None => if has_prefix sub s
                then Some ("", String.substring (String.length sub) (String.length s - String.length sub) s) else None
      end
  end.

Definition upto_char (c : ascii) (s : string) : string := match cut_at c s with Some (b, _) => b | None => s end.

(** * The queue *)

Definition queue_cap : nat := 256.

(** [Emit]: a full channel drops the event. *)
Definition Emit (ev : NewHostEvent) (q : list NewHostEvent) : list NewHostEvent :=
  if (length q <? queue_cap)%nat then q ++ [ev] else q.

Definition emit_all (evs : list NewHostEvent) (q : list NewHostEvent) : list NewHostEvent := fold_left (fun q ev => Emit ev q) evs q.

(** * The ARP table of the host *)

Record arpEntry := mkArp { ar_mac : string; ar_device : string }.

Definition arp_line (line : string) : option (string * arpEntry) :=
  match Fields line with
  | ip :: _ :: _ :: mac :: _ :: device :: _ =>
      if bool_decide (mac = "") || has_prefix "00:00:00:00:00:00" mac then None
      else Some (ip, mkArp (to_lower mac) device)
  | _ => None
  end.

(** Later rows of an address replace earlier ones. *)
Definition parseARPFile (file : option string) : option (gmap string arpEntry * bool) :=
  match file with
  | None => None
  | Some text =>
      let '(lines, ok) := scan_lines 65536 text in
      Some (fold_left (fun m kv => <[kv.1 := kv.2]> m) (omap arp_line (drop 1 lines)) ∅, ok)
  end.

Definition ReadARPTable (file : option string) : option (list (string * string)) :=
  match parseARPFile file with
  | Some (m, true) => Some ((fun kv => (kv.1, ar_mac kv.2)) <$> map_to_list m)
  | _ => None
  end.

(** ** The probe's cached reads *)

Definition arpCacheTTL : Z := nanos_per_second.

(** [cachedARP]: nil entries are [None]. *)
Record arp_cache := mkCache { ac_at : option Z; ac_entries : option (gmap string arpEntry) }.

Definition readARPTable (now : Z) (file : option string) (c : arp_cache) : arp_cache * gmap string arpEntry :=
  match ac_at c, ac_entries c with
  | Some t, Some m => if now - t <? arpCacheTTL then (c, m)
                      else let m := fst <$> parseARPFile file in (mkCache (Some now) m, default ∅ m)
  | _, _ => let m := fst <$> parseARPFile file in (mkCache (Some now) m, default ∅ m)
  end.

Definition lookupMACOnce (now : Z) (file : option string) (addr : string) (c : arp_cache) : arp_cache * (string * string) :=
  let '(c, m) := readARPTable now file c in
  (c, match m !! addr with Some e => (ar_mac e, ar_device e) | None => ("", "") end).

Definition retry_gap : Z := 200 * 1000000.

(** [attempts] tries remain; [file] is the table at a time, [cancelled] the
    context. *)
Fixpoint lookup_retry (attempts : nat) (now : Z) (file : Z → option string) (cancelled : Z → bool) (addr : string)
    (c : arp_cache) : arp_cache * (string * string) :=
  match attempts with
  | O => (c, ("", ""))
  | S attempts =>
      if cancelled now then (c, ("", ""))
      else
        let '(c, (mac, dev)) := lookupMACOnce now (file now) addr c in
        if decide (mac = "") then
          if cancelled (now + retry_gap) then (c, ("", ""))
          else lookup_retry attempts (now + retry_gap) file cancelled addr c
        else (c, (mac, dev))
  end.

Definition lookupMACWithRetry := lookup_retry 3.

(** * Snapshot differences *)

(** The entries of a table that the previous one did not have. *)
Definition appeared {A} (prev cur : gmap string A) : list (string * A) :=
  map_to_list (filter (fun kv => prev !! kv.1 = None) cur).

Definition arp_event (source : string) (kv : string * string) : NewHostEvent := mkSighting kv.1 kv.2 source ∅.

Definition in_local (localNet : option IPNet) (addr : string) : bool :=
  match localNet with
  | None => true
  | Some n => match ParseIP addr with Some a => Contains n a | None => Contains n [] end
  end.

(** [ARPCacheSource.sweepWith]. *)
Definition arp_sweepWith (localNet : option IPNet) (entries : list (string * string)) (prev : gmap string string)
    : gmap string string * list NewHostEvent :=
  let current := fold_left (fun m e => if in_local localNet e.1 then <[e.1 := e.2]> m else m) entries (∅ : gmap string string) in
  (current, arp_event "arp_cache" <$> appeared prev current).

Definition arp_sweep (localNet : option IPNet) (file : option string) (prev : gmap string string)
    : gmap string string * list NewHostEvent :=
  match ReadARPTable file with
  | None => (prev, [])
  | Some entries => arp_sweepWith localNet entries prev
  end.

(** * Router tables *)

Section routers.
(** What an SNMP walk of a router answers. *)
Context (walk : string → result string (gmap string string)).

Definition walkRouters (routers : list string) : gmap string string * gmap string string :=
  fold_left (fun acc r =>
    match walk r with
    | Ok table => (table ∪ acc.1, acc.2)
    | Err e => (acc.1, <[r := e]> acc.2)
    end) routers (∅, ∅).

(** How a failure or recovery is logged. *)
Inductive router_log := WarnFailed (r : string) | DebugFailing (r : string) (n : Z) | InfoRecovered (r : string) (after : Z).

Definition router_line (errs : gmap string string) (streak : gmap string Z) (r : string) : option router_log :=
  let n := default 0 (streak !! r) in
  match errs !! r with
  | Some _ => Some (if n + 1 =? 1 then WarnFailed r else DebugFailing r (n + 1))
  | None => if 0 <? n then Some (InfoRecovered r n) else None
  end.

Definition logRouterErrors (routers : list string) (errs : gmap string string) (streak : gmap string Z)
    : gmap string Z * list router_log :=
  (fold_left (fun m r => match errs !! r with Some _ => <[r := default 0 (streak !! r) + 1]> m | None => m end) routers ∅,
   omap (router_line errs streak) routers).

(** [RouterARPSource.sweep]: an empty table changes nothing. *)
Definition router_sweep (routers : list string) (prev : gmap string string) (streak : gmap string Z)
    : gmap string string * gmap string Z * list NewHostEvent :=
  let '(current, errs) := walkRouters routers in
  let '(streak, _) := logRouterErrors routers errs streak in
  if decide (current = ∅) then (prev, streak, [])
  else (current, streak, arp_event "router_arp" <$> appeared prev current).

End routers.

(** The collecting end of an ARP sweep: the replies read in the window. *)
Definition arp_replies (frames : list bytes) : gmap string string :=
  fold_left (fun m f => match parseARPReply f with Some (Some (addr, mac)) => <[addr := mac]> m | _ => m end) frames ∅.

Definition arp_scan_collect (frames : list bytes) (prev : gmap string string) : gmap string string * list NewHostEvent :=
  let current := arp_replies frames in
  if decide (current = ∅) then (prev, []) else (current, arp_event "arp_scan" <$> appeared prev current).

(** * DHCP leases *)

Record dhcpLease := mkLease {
  dl_expiry : Z;
  dl_mac : string;
  dl_ip : string;
  dl_hostname : string;
  dl_clientID : string
}.

Fixpoint parse_expiry (exp : Z) (s : string) : Z :=
  match s with
  | EmptyString => exp
  | String a s => if is_digit a then parse_expiry (i64 (exp * 10 + (ascii_Z a - 48))) s else 0
  end.

Definition lease_line (now : Z) (line : string) : option dhcpLease :=
  let line := trim_space line in
  if decide (line = "" ∨ has_prefix "#" line = true) then None
  else match Fields line with
       | f0 :: f1 :: f2 :: f3 :: rest =>
           let l := mkLease (parse_expiry 0 f0) (to_lower f1) f2 (trim_char "034"%char f3) (default "" (head rest)) in
           if negb (dl_expiry l =? 0) && (dl_expiry l <? now / nanos_per_second) then None
           else if decide (dl_ip l = "") then None else Some l
       | _ => None
       end.

(** The first file that opens; [None] is an error. *)
Fixpoint readLeases (now : Z) (files : list (option string)) : option (list dhcpLease) :=
  match files with
  | [] => None
  | None :: files => readLeases now files
  | Some text :: _ =>
      let '(lines, ok) := scan_lines 65536 text in
      if ok : bool then Some (omap (lease_line now) lines) else None
  end.

Definition lease_key (l : dhcpLease) : string := dl_ip l +:+ String "000"%char (dl_mac l).

Definition has_name (l : dhcpLease) : bool := negb (bool_decide (dl_hostname l = "")) && negb (bool_decide (dl_hostname l = "*")).

Definition lease_event (l : dhcpLease) : NewHostEvent :=
  let hints : gmap string string := {["discovery_note" := "dhcp"]} in
  mkSighting (dl_ip l) (dl_mac l) "dhcp_leases"
    (if has_name l then <["node_hostname" := dl_hostname l]> hints else hints).

Definition lease_observation (l : dhcpLease) : option (string * Evidence) :=
  if has_name l then Some (dl_ip l, mkEvidence "hostname" 0 {["hostname" := dl_hostname l]}) else None.

(** [DHCPLeasesSource.sweep]: the observations and the events. *)
Definition dhcp_sweep (now : Z) (files : list (option string)) (prev : gset string)
    : gset string * list (string * Evidence) * list NewHostEvent :=
  match readLeases now files with
  | None | Some [] => (prev, [], [])
  | Some leases =>
      (list_to_set (lease_key <$> leases), omap lease_observation leases,
       lease_event <$> filter (fun l => lease_key l ∉ prev) leases)
  end.

(** * Conntrack *)

Definition containsToken (line token : string) : bool := bool_decide (token ∈ Fields line).

Definition tokenValue (line key : string) : string :=
  match after_first (" " +:+ key) line with
  | Some rest => upto_char " "%char rest
  | None => if has_prefix key line
            then upto_char " "%char (String.substring (String.length key) (String.length line - String.length key) line) else ""
  end.

Definition conntrack_line (localNet : IPNet) (line : string) : list string :=
  if negb (containsToken line "ESTABLISHED") && negb (containsToken line "[ASSURED]") then []
  else filter (fun a => a ≠ "" ∧ in_local (Some localNet) a = true) [tokenValue line "src="; tokenValue line "dst="].

Definition readActiveLANHosts (localNet : IPNet) (file : option string) : option (gset string) :=
  match file with
  | None => None
  | Some text =>
      let '(lines, ok) := scan_lines (1024 * 1024) text in
      if ok : bool then Some (list_to_set (mjoin (conntrack_line localNet <$> lines))) else None
  end.

Definition flow_event (addr : string) : NewHostEvent :=
  mkSighting addr "" "conntrack" (<["active_flow" := "true"]> {["discovery_note" := "conntrack"]}).

(** [ConntrackSource.sweep]; an invalid CIDR is [None]. *)
Definition conntrack_sweep (localNet : option IPNet) (file : option string) (prev : gset string) : gset string * list NewHostEvent :=
  match localNet with
  | None => (prev, [])
  | Some n =>
      match readActiveLANHosts n file with
      | None => (prev, [])
      | Some hosts => (hosts, flow_event <$> elements (hosts ∖ prev))
      end
  end.

(** * DNS query log *)

Fixpoint ipv4_shape (octets cur : Z) (s : string) : bool :=
  match s with
  | EmptyString => octets =? 3
  | String c s =>
      if char_eqb c "."%char then
        if (3 <=? octets) || (255 <? cur) then false else ipv4_shape (octets + 1) 0 s
      else if negb (is_digit c) then false
      else let cur := cur * 10 + (ascii_Z c - 48) in if 255 <? cur then false else ipv4_shape octets cur s
  end.

Definition looksLikeIPv4 (s : string) : bool := ipv4_shape 0 0 s.

Definition parseDnsmasqQuery (line : string) : option (string * string) :=
  rest ← from_first "dnsmasq" line;
  rest ← from_first "query[" rest;
  rest ← after_first "]" rest;
  let rest := trim_space rest in
  '(d, a) ← cut_last " from " rest;
  let domain := trim_space d in
  let addr := upto_char " "%char (trim_space a) in
  if decide (domain = "" ∨ addr = "") then None
  else if looksLikeIPv4 addr then Some (addr, domain) else None.

Definition dns_event (q : string * string) : NewHostEvent :=
  mkSighting q.1 "" "discovery:dns_log" (<["dns_query" := q.2]> {["discovery_note" := "dns"]}).

Definition text_from (off : Z) (text : string) : string :=
  String.substring (Z.to_nat off) (String.length text - Z.to_nat off) text.

(** [tailFile] on the text the file has at the sweep: the new offset, and the
    lines read. *)
Definition tail_lines (prevOff : Z) (text : string) : Z * list string :=
  let curSize := Z.of_nat (String.length text) in
  let prevOff := if prevOff =? 0 then curSize else prevOff in
  let prevOff := if curSize <? prevOff then 0 else prevOff in
  let '(lines, _) := scan_lines (1024 * 1024) (text_from prevOff text) in
  (fold_left (fun off l => off + Z.of_nat (String.length l) + 1) lines prevOff, lines).

Definition tailFile (file : option string) (path : string) (offset : gmap string Z) : gmap string Z * list NewHostEvent :=
  match file with
  | None => (offset, [])
  | Some text =>
      let '(off, lines) := tail_lines (default 0 (offset !! path)) text in
      (<[path := off]> offset, dns_event <$> omap parseDnsmasqQuery lines)
  end.

(** The sweep over the candidate files. *)
Definition dns_sweep (files : list (string * option string)) (offset : gmap string Z) : gmap string Z * list NewHostEvent :=
  fold_left (fun acc pf => let '(off, evs) := tailFile pf.2 pf.1 acc.1 in (off, acc.2 ++ evs)) files (offset, []).

(** * WiFi stations *)

Record staInfo := mkSta {
  sta_mac : string;
  sta_iface : string;
  sta_signal : string;
  sta_ssid : string;
  sta_connectTime : string
}.

Definition sta_field (i : staInfo) (line : string) : staInfo :=
  match cut_at "="%char line with
  | None => i
  | Some (k, v) =>
      if decide (k = "addr") then mkSta (to_lower v) (sta_iface i) (sta_signal i) (sta_ssid i) (sta_connectTime i)
      else if decide (k = "signal") then mkSta (sta_mac i) (sta_iface i) v (sta_ssid i) (sta_connectTime i)
      else if decide (k = "connected_time") then mkSta (sta_mac i) (sta_iface i) (sta_signal i) (sta_ssid i) v
      else if decide (k = "ssid") then mkSta (sta_mac i) (sta_iface i) (sta_signal i) v (sta_connectTime i)
      else i
  end.

Definition parseHostapdSTA (resp : string) : staInfo :=
  fold_left sta_field (split_on newline resp) (mkSta "" "" "" "" "").

(** The STA-FIRST and STA-NEXT exchange: [reply cmd] is the answer to a
    command, [None] when the socket fails; at most [fuel] stations. *)
Fixpoint query_stations (fuel : nat) (reply : string → option string) (iface cmd : string) (stas : gmap string staInfo)
    : option (gmap string staInfo) :=
  match fuel with
  | O => None
  | S fuel =>
      match reply cmd with
      | None => Some stas
      | Some resp =>
          if decide (resp = "" ∨ has_prefix "FAIL" resp = true) then Some stas
          else
            let i := parseHostapdSTA resp in
            if decide (sta_mac i = "") then Some stas
            else query_stations fuel reply iface ("STA-NEXT " +:+ sta_mac i)
                   (<[sta_mac i := mkSta (sta_mac i) iface (sta_signal i) (sta_ssid i) (sta_connectTime i)]> stas)
      end
  end.

Definition extractIWStationMAC (line : string) : string :=
  if has_prefix "Station " line then to_lower (upto_char " "%char (String.substring 8 (String.length line - 8) line)) else "".

Definition extractIWStationIface (line : string) : string :=
  match after_first "(on " line with
  | None => ""
  | Some rest => match cut_at ")"%char rest with Some (b, _) => b | None => "" end
  end.

Definition iwValue (line key : string) : string :=
  if has_prefix key line
  then trim_space (String.substring (String.length key) (String.length line - String.length key) line) else "".

Definition trim_suffix (suf s : string) : string :=
  if has_suffix suf s then String.substring 0 (String.length s - String.length suf) s else s.

(** The station block being read, and the finished ones. *)
Definition iw_flush (st : option staInfo * gmap string staInfo) : gmap string staInfo :=
  match st.1 with
  | Some i => if decide (sta_mac i = "") then st.2 else <[sta_mac i := i]> st.2
  | None => st.2
  end.

Definition iw_line (st : option staInfo * gmap string staInfo) (line : string) : option staInfo * gmap string staInfo :=
  if has_prefix "Station " line then
    let mac := extractIWStationMAC line in
    (if decide (mac = "") then None else Some (mkSta mac (extractIWStationIface line) "" "" ""), iw_flush st)
  else match st.1 with
       | None => st
       | Some i =>
           let v := iwValue (trim_space line) "signal:" in
           (Some (if decide (v = "") then i
                  else mkSta (sta_mac i) (sta_iface i) (trim_space (trim_suffix "dBm" v)) (sta_ssid i) (sta_connectTime i)), st.2)
       end.

Definition parseIWStationDump (out : string) : gmap string staInfo :=
  iw_flush (fold_left iw_line (scan_lines 65536 out).1 (None, ∅)).

(** The interface backfilled from the query. *)
Definition queryIW (iface : string) (out : option string) : gmap string staInfo :=
  match out with
  | None => ∅
  | Some out => (fun i => if decide (sta_iface i = "")
                          then mkSta (sta_mac i) iface (sta_signal i) (sta_ssid i) (sta_connectTime i) else i)
                  <$> parseIWStationDump out
  end.

Definition set_hint (k v : string) (m : gmap string string) : gmap string string := if decide (v = "") then m else <[k := v]> m.

Definition station_event (kv : string * staInfo) : NewHostEvent :=
  let i := kv.2 in
  mkSighting "" kv.1 "hostapd"
    (set_hint "wifi_connected_secs" (sta_connectTime i)
       (set_hint "wifi_ssid" (sta_ssid i)
          (set_hint "wifi_signal_dbm" (sta_signal i) {["discovery_note" := "wifi_assoc"]}))).

(** The stations by access point, for the neighbour sink. *)
Definition by_iface (stas : gmap string staInfo) : gmap string (list string) :=
  fold_right (fun kv m => if decide (sta_iface kv.2 = "") then m
                          else <[sta_iface kv.2 := kv.1 :: default [] (m !! sta_iface kv.2)]> m) ∅ (map_to_list stas).

(** [HostapdSource.sweepWith]: an empty list still replaces the previous one. *)
Definition hostapd_sweepWith (stas : gmap string staInfo) (prev : gset string)
    : gset string * list NewHostEvent * gmap string (list string) :=
  (dom stas,
   station_event <$> map_to_list (filter (fun kv => kv.1 ∉ prev) stas),
   by_iface stas).

(** * Announcements *)

Definition type_hint (t : string) : gmap string string := {["inferred_type" := t]}.

Definition mdns_types : list (list string * gmap string string) :=
  [(["_onvif._tcp"], <["discovery_note" := "onvif"]> (type_hint "camera"));
   (["_rtsp._tcp"], <["discovery_note" := "rtsp"]> (type_hint "camera"));
   (["_ipp._tcp"; "_printer._tcp"], type_hint "printer");
   (["_airplay._tcp"], type_hint "appletv");
   (["_googlecast._tcp"], type_hint "chromecast");
   (["_smb._tcp"], type_hint "nas");
   (["_ssh._tcp"], type_hint "server")].

Definition ssdp_types : list (list string * gmap string string) :=
  [(["MediaRenderer"; "DigitalMediaRenderer"], type_hint "mediarenderer");
   (["MediaServer"], type_hint "mediaserver");
   (["InternetGatewayDevice"], type_hint "router");
   (["Printer"], type_hint "printer");
   (["Basic"], {["discovery_note" := "ssdp-basic"]})].

Definition first_hint (table : list (list string * gmap string string)) (s : string) : gmap string string :=
  match List.find (fun row => existsb (fun sub => contains_str sub s) row.1) table with
  | Some row => row.2
  | None => ∅
  end.

Definition parseMDNSHints (pkt : string) : gmap string string := first_hint mdns_types pkt.
Definition parseSSDPHints (pkt : string) : gmap string string := first_hint ssdp_types pkt.
