(* ===== verification/SourcesSpec.v ===== *)
(** Properties of the discovery sources of [Sources]: one event per
    appearance of a neighbour, a log line is read exactly once, what
    [dnsmasq] writes into its lease file is read back, flows report local
    hosts only, and the retries of the ARP probe. *)

From S2P Require Import Prelude Db NetAddr Cidr Report Orchestrator Discovery Frames Sources.

Open Scope Z_scope.

(** * Appearances *)

Lemma elem_of_appeared {A} (prev cur : gmap string A) k v : (k, v) ∈ appeared prev cur ↔ cur !! k = Some v ∧ prev !! k = None.
Proof. unfold appeared. by rewrite elem_of_map_to_list, map_lookup_filter_Some. Qed.

Lemma appeared_keys {A} (prev cur : gmap string A) : NoDup (fst <$> appeared prev cur).
Proof. apply NoDup_fst_map_to_list. Qed.

(** How often a host goes from absent to present. *)
Fixpoint rising (was : bool) (l : list bool) : nat :=
  match l with
  | [] => 0
  | now :: l => (if now && negb was then 1 else 0) + rising now l
  end.

Definition present {A} (addr : string) (m : gmap string A) : bool := bool_decide (is_Some (m !! addr)).

Lemma count_unique {A} (f : A → string) (l : list A) k :
  NoDup (f <$> l) → length (filter (fun x => f x = k) l) = if decide (k ∈ f <$> l) then 1%nat else 0%nat.
Proof.
  induction l as [|x l IH]; cbn [fmap list_fmap].
  - intros _. by rewrite decide_False by (by intros ?%elem_of_nil).
  - intros [Hx Hl]%list.NoDup_cons. rewrite list.filter_cons. specialize (IH Hl). destruct (decide (f x = k)) as [E|E].
    + cbn [length]. rewrite IH. subst k. rewrite decide_False by done. by rewrite decide_True by set_solver.
    + rewrite IH. apply decide_ext. set_solver.
Qed.

Definition events_of (addr : string) (evs : list NewHostEvent) : nat := length (filter (fun ev => ev_IP ev = addr) evs).

Lemma appeared_count source (prev cur : gmap string string) addr :
  events_of addr (arp_event source <$> appeared prev cur)
  = if present addr cur && negb (present addr prev) then 1%nat else 0%nat.
Proof.
  unfold events_of. rewrite (count_unique ev_IP).
  2:{ rewrite <- list_fmap_compose. apply (appeared_keys prev cur). }
  rewrite <- list_fmap_compose. unfold present.
  assert (addr ∈ (ev_IP ∘ arp_event source <$> appeared prev cur) ↔ is_Some (cur !! addr) ∧ prev !! addr = None) as H.
  { rewrite list_elem_of_fmap. split.
    - intros ([k v] & -> & [H1 H2]%elem_of_appeared). cbn. eauto.
    - intros [[v Hv] Hp]. exists (addr, v). split; [done|]. by apply elem_of_appeared. }
  case_decide as D; rewrite H in D.
  - destruct D as [D1 D2]. rewrite bool_decide_true, (bool_decide_false (is_Some (prev !! addr))); [done|rewrite D2; by intros []|done].
  - destruct (cur !! addr); [|done]. destruct (prev !! addr); [done|]. exfalso. apply D. eauto.
Qed.

(** The sweeps of the ARP cache source over a sequence of tables. *)
Fixpoint arp_sweeps (localNet : option IPNet) (tables : list (list (string * string))) (prev : gmap string string) : list NewHostEvent :=
  match tables with
  | [] => []
  | t :: tables => let '(cur, evs) := arp_sweepWith localNet t prev in evs ++ arp_sweeps localNet tables cur
  end.

Definition neighbour (localNet : option IPNet) (addr : string) (t : list (string * string)) : bool :=
  in_local localNet addr && bool_decide (addr ∈ t.*1).

Lemma swept_table localNet t addr :
  present addr (fold_left (fun m e => if in_local localNet e.1 then <[e.1 := e.2]> m else m) t (∅ : gmap string string))
  = neighbour localNet addr t.
Proof.
  unfold neighbour, present. induction t as [|[k v] t IH] using rev_ind.
  - cbn. by rewrite andb_false_r.
  - rewrite fold_left_app. cbn [fold_left fst snd]. rewrite fmap_app. cbn [fmap list_fmap fst].
    destruct (decide (addr = k)) as [<-|Hne].
    + rewrite (bool_decide_true (addr ∈ _)) by set_solver. rewrite andb_true_r. destruct (in_local localNet addr) eqn:L.
      * rewrite lookup_insert_eq. by apply bool_decide_true.
      * rewrite IH. done.
    + replace (bool_decide (addr ∈ t.*1 ++ [k])) with (bool_decide (addr ∈ t.*1)) by (apply bool_decide_ext; set_solver).
      rewrite <- IH. destruct (in_local localNet k); [|done]. by rewrite lookup_insert_ne.
Qed.

(** A neighbour inside the local network is reported once each time it
    appears in the table after not being there, and never otherwise. *)
Theorem one_event_per_appearance localNet tables addr :
  events_of addr (arp_sweeps localNet tables ∅) = rising false (neighbour localNet addr <$> tables).
Proof.
  change false with (present addr (∅ : gmap string string)) at 1. generalize (∅ : gmap string string) as prev.
  induction tables as [|t tables IH]; intros prev; [done|]. cbn [arp_sweeps arp_sweepWith fmap list_fmap rising].
  unfold events_of. rewrite list.filter_app, length_app. fold (events_of addr). 
  rewrite <- swept_table. unfold events_of in IH. rewrite IH. f_equal. apply appeared_count.
Qed.

(** The router source keeps the old table when a sweep finds nothing: a host
    that comes back after an outage is not reported again. *)
Example router_outage_hides_return :
  let table : gmap string string := {["10.1.2.9" := "aa:bb:cc:dd:ee:ff"]} in
  let s1 := router_sweep (fun _ => Ok table) ["gw"] ∅ ∅ in
  let s2 := router_sweep (fun _ => Ok ∅) ["gw"] s1.1.1 s1.1.2 in
  length s1.2 = 1%nat ∧ (router_sweep (fun _ => Ok table) ["gw"] s2.1.1 s2.1.2).2 = []
  ∧ length (arp_sweeps None [[("10.1.2.9", "aa:bb:cc:dd:ee:ff")]; []; [("10.1.2.9", "aa:bb:cc:dd:ee:ff")]] ∅) = 2%nat.
Proof. vm_compute. split_and!; reflexivity. Qed.

(** * The tailed log *)

Fixpoint unlines (ls : list string) : string := match ls with [] => "" | l :: ls => l +:+ String newline (unlines ls) end.

(** A line [dnsmasq] writes: no line break, below the scanner's limit. *)
Definition plain_line (l : string) : Prop :=
  str_mem newline l = false ∧ has_suffix (String carriage "") l = false ∧ Z.of_nat (String.length l) < 1024 * 1024.

Lemma split_on_line l s : str_mem newline l = false → split_on newline (l +:+ String newline s) = l :: split_on newline s.
Proof.
  induction l as [|a l IH]; [done|]. intros [Ha Hl]%orb_false_iff.
  change (String a l +:+ String newline s) with (String a (l +:+ String newline s)). cbn [split_on]. by rewrite Ha, IH.
Qed.

Lemma scan_parts_cons max l p ps :
  scan_parts max (l :: p :: ps)
  = if max <=? Z.of_nat (String.length l) then ([], false)
    else let '(ls, ok) := scan_parts max (p :: ps) in (drop_cr l :: ls, ok).
Proof. reflexivity. Qed.

Lemma scan_unlines ls : Forall plain_line ls → scan_lines (1024 * 1024) (unlines ls) = (ls, true).
Proof.
  unfold scan_lines. induction 1 as [|l ls (H1 & H2 & H3) _ IH]; [done|]. cbn [unlines]. rewrite split_on_line by done.
  assert (∃ p ps, split_on newline (unlines ls) = p :: ps) as (p & ps & E).
  { destruct (unlines ls); cbn [split_on]; [eauto|]. case_match; [eauto|]. case_match; eauto. }
  rewrite E in *. rewrite scan_parts_cons, IH. destruct (Z.leb_spec (1024 * 1024) (Z.of_nat (String.length l))); [lia|].
  unfold drop_cr. by rewrite H2.
Qed.

Lemma substring_all t : String.substring 0 (String.length t) t = t.
Proof. induction t as [|a t IH]; cbn; [done|]. by rewrite IH. Qed.

Lemma text_from_app s t : text_from (Z.of_nat (String.length s)) (s +:+ t) = t.
Proof.
  unfold text_from. rewrite Nat2Z.id, string_app_length, Nat.add_comm, Nat.add_sub.
  induction s as [|a s IH]; [apply substring_all|]. cbn. done.
Qed.

Lemma unlines_offset ls off :
  fold_left (fun off l => off + Z.of_nat (String.length l) + 1) ls off = off + Z.of_nat (String.length (unlines ls)).
Proof.
  revert off. induction ls as [|l ls IH]; intros off; cbn [fold_left unlines]; [cbn; lia|].
  rewrite IH, string_app_length. cbn [String.length]. lia.
Qed.

(** One sweep after the file grew by whole lines. *)
Lemma tail_step c ls : c ≠ "" → Forall plain_line ls →
  tail_lines (Z.of_nat (String.length c)) (c +:+ unlines ls) = (Z.of_nat (String.length (c +:+ unlines ls)), ls).
Proof.
  intros Hc Hls. unfold tail_lines. assert (0 < Z.of_nat (String.length c)) by (destruct c; [done|cbn; lia]).
  destruct (Z.eqb_spec (Z.of_nat (String.length c)) 0); [lia|]. rewrite string_app_length.
  destruct (Z.ltb_spec (Z.of_nat (String.length c + String.length (unlines ls))) (Z.of_nat (String.length c))); [lia|].
  rewrite text_from_app, scan_unlines by done. rewrite unlines_offset. f_equal. lia.
Qed.

(** The sweeps of a growing file: each batch is what was written before one. *)
Fixpoint tail_run (off : Z) (c : string) (batches : list (list string)) : list (list string) :=
  match batches with
  | [] => []
  | b :: batches => let '(off, ls) := tail_lines off (c +:+ unlines b) in ls :: tail_run off (c +:+ unlines b) batches
  end.

(** Once the log has been sighted with some content, every line that is
    written later is read by exactly one sweep, the next one, in order; the
    content at the first sight is skipped. *)
Theorem tail_exactly_once c batches (Hc : c ≠ "") (Hb : Forall (Forall plain_line) batches) :
  tail_lines 0 c = (Z.of_nat (String.length c), []) ∧ tail_run (tail_lines 0 c).1 c batches = batches.
Proof.
  assert (tail_lines 0 c = (Z.of_nat (String.length c), [])) as E.
  { unfold tail_lines. cbn [Z.eqb]. destruct (Z.ltb_spec (Z.of_nat (String.length c)) (Z.of_nat (String.length c))); [lia|].
    pose proof (text_from_app c "") as T. rewrite string_app_nil_r in T. rewrite T. done. }
  split; [done|]. rewrite E. cbn [fst]. clear E. revert c Hc. induction Hb as [|b batches Hb _ IH]; intros c Hc; [done|].
  cbn [tail_run]. rewrite tail_step by done. f_equal. apply IH. destruct c; [done|]. cbn. done.
Qed.

Definition query_line : string := "dnsmasq[7]: query[A] ntp.example.org from 10.1.2.9".

Lemma tail_exactly_once_witness :
  tail_lines 0 "boot" = (4, []) ∧ tail_run (tail_lines 0 "boot").1 "boot" [[query_line; "x"]; []; ["y"]] = [[query_line; "x"]; []; ["y"]].
Proof.
  apply (tail_exactly_once "boot" [[query_line; "x"]; []; ["y"]]); [discriminate|].
  repeat constructor; vm_compute; done.
Defined.

(** A log that was empty at the last sweep loses the lines of the next one. *)
Example empty_log_loses_lines :
  let '(off, _) := tail_lines 9 "" in (tail_lines off (unlines [query_line])).2 = [].
Proof. vm_compute. reflexivity. Qed.

(** A last line without its line break makes the next sweep start over. *)
Example partial_line_replays_log :
  let text := "old" +:+ String newline query_line in
  let '(off, _) := tail_lines 4 text in (tail_lines off text).2 = ["old"; query_line].
Proof. vm_compute. reflexivity. Qed.

(** The check of the querier lets through what is no address. *)
Example not_an_address_accepted : looksLikeIPv4 "1..2.3" = true ∧ ParseIP "1..2.3" = None.
Proof. vm_compute. split; reflexivity. Qed.

(** * Flows *)

(** Whatever the flow table contains, only addresses of the local network
    are reported. *)
Theorem flows_stay_local localNet file prev ev
    (He : ev ∈ (conntrack_sweep localNet file prev).2) :
  ∃ n, localNet = Some n ∧ in_local (Some n) (ev_IP ev) = true ∧ ev_IP ev ∉ prev.
Proof.
  unfold conntrack_sweep in He. destruct localNet as [n|]; [|by apply elem_of_nil in He]. exists n. split; [done|].
  destruct (readActiveLANHosts n file) as [hosts|] eqn:E; [|by apply elem_of_nil in He]. cbn [snd] in He.
  apply list_elem_of_fmap in He as (addr & -> & Ha). apply elem_of_elements, elem_of_difference in Ha as [Ha Hp].
  split; [|done]. cbn [ev_IP flow_event]. unfold readActiveLANHosts in E. destruct file as [text|]; [|done].
  destruct (scan_lines _ text) as [lines []]; [|done]. injection E as <-.
  apply elem_of_list_to_set, list_elem_of_join in Ha as (l & Hl & Hin). apply list_elem_of_fmap in Hin as (line & -> & _).
  unfold conntrack_line in Hl. destruct (_ && _); [by apply elem_of_nil in Hl|].
  by apply list_elem_of_filter in Hl as [[_ ?] _].
Qed.

Definition flow_text : string := "ipv4 2 tcp 6 431999 ESTABLISHED src=10.1.2.9 dst=142.250.187.78 sport=443 [ASSURED]".

Lemma flows_stay_local_witness :
  in_local (ParseCIDR "10.1.2.0/24") "10.1.2.9" = true
  ∧ length (conntrack_sweep (ParseCIDR "10.1.2.0/24") (Some flow_text) ∅).2 = 1%nat.
Proof.
  split; [|vm_compute; reflexivity].
  destruct (flows_stay_local (ParseCIDR "10.1.2.0/24") (Some flow_text) ∅ (flow_event "10.1.2.9")) as (n & -> & H & _).
  - vm_compute. left.
  - exact H.
Defined.

(** * The retries of the ARP probe *)

Lemma cached_read now t m file c : ac_at c = Some t → ac_entries c = Some m → now - t < arpCacheTTL →
  readARPTable now file c = (c, m).
Proof. intros H1 H2 H3. unfold readARPTable. rewrite H1, H2. by rewrite (proj2 (Z.ltb_lt _ _)). Qed.

Lemma lookup_retry_S n now file cancelled addr c :
  lookup_retry (S n) now file cancelled addr c
  = if cancelled now then (c, ("", ""))
    else let '(c, (mac, dev)) := lookupMACOnce now (file now) addr c in
         if decide (mac = "") then
           if cancelled (now + retry_gap) then (c, ("", "")) else lookup_retry n (now + retry_gap) file cancelled addr c
         else (c, (mac, dev)).
Proof. reflexivity. Qed.

Lemma retry_cached n now t file cancelled addr m :
  m !! addr = None → 0 < retry_gap → now - t + Z.of_nat n * retry_gap ≤ arpCacheTTL →
  (lookup_retry n now file cancelled addr (mkCache (Some t) (Some m))).2 = ("", "").
Proof.
  intros Habs Hgap. revert now. induction n as [|n IH]; intros now Hn; cbn [lookup_retry]; [done|].
  destruct (cancelled now); [done|]. unfold lookupMACOnce. rewrite (cached_read _ t m) by (done || lia). rewrite Habs.
  rewrite decide_True by done. destruct (cancelled (now + retry_gap)); [done|]. apply IH. lia.
Qed.

(** The three attempts of the probe lie within the lifetime of the cached
    table: once the first has read it, the others see the same table,
    whatever the kernel has learnt in between. *)
Theorem arp_retry_sees_one_table now file cancelled addr c m ok
    (Hstale : ∀ t, ac_at c = Some t → arpCacheTTL ≤ now - t)
    (Hfile : parseARPFile (file now) = Some (m, ok)) (Habs : m !! addr = None) :
  (lookupMACWithRetry now file cancelled addr c).2 = ("", "").
Proof.
  unfold lookupMACWithRetry. rewrite lookup_retry_S. destruct (cancelled now); [done|]. unfold lookupMACOnce at 1.
  assert (readARPTable now (file now) c = (mkCache (Some now) (Some m), m)) as ->.
  { unfold readARPTable. rewrite Hfile. cbn. destruct (ac_at c) as [t|] eqn:E; [|done]. destruct (ac_entries c); [|done].
    specialize (Hstale t eq_refl). destruct (Z.ltb_spec (now - t) arpCacheTTL); [lia|done]. }
  rewrite Habs, decide_True by done. destruct (cancelled (now + retry_gap)); [done|].
  apply (retry_cached 2); [done|..]; unfold retry_gap, arpCacheTTL, nanos_per_second; lia.
Qed.

Definition arp_header : string := "IP address HW type Flags HW address Mask Device".
Definition arp_row : string := "10.1.2.9 0x1 0x2 AA:bb:cc:dd:ee:ff * eth0".

(** The neighbour appears a tenth of a second after the first attempt. *)
Definition late_neighbour (t : Z) : option string :=
  Some (unlines (arp_header :: if 100000000 <=? t then [arp_row] else [])).

Lemma arp_retry_sees_one_table_witness :
  (lookupMACWithRetry 0 late_neighbour (fun _ => false) "10.1.2.9" (mkCache None None)).2 = ("", "")
  ∧ (lookupMACWithRetry 100000000 late_neighbour (fun _ => false) "10.1.2.9" (mkCache None None)).2 = ("aa:bb:cc:dd:ee:ff", "eth0").
Proof.
  split; [|vm_compute; reflexivity].
  apply (arp_retry_sees_one_table 0 late_neighbour (fun _ => false) "10.1.2.9" (mkCache None None) ∅ true);
    [discriminate|vm_compute; reflexivity|reflexivity].
Defined.

(** * Lease lines *)

Definition graphic (a : ascii) : bool := (33 <=? ascii_Z a) && (ascii_Z a <=? 126).

(** A word of printable characters. *)
Definition word (t : string) : Prop := t ≠ "" ∧ forall_string graphic t = true.

Lemma graphic_no_space a s : graphic a = true → strip_space (String a s) = None ∧ strip_space_rev (String a s) = None.
Proof.
  intros [H1 H2]%andb_true_iff. apply Z.leb_le in H1, H2. unfold strip_space, strip_space_rev.
  rewrite bool_decide_false by (repeat (apply not_elem_of_cons; split; [lia|]); apply not_elem_of_nil).
  assert (∀ z, 127 ≤ z → (ascii_Z a =? z) = false) as F by (intros; apply Z.eqb_neq; lia).
  assert ((128 <=? ascii_Z a) = false) as G by (apply Z.leb_gt; lia).
  rewrite !F, ?G by lia. split; destruct s as [|b s]; try done; cbn [andb orb]; rewrite ?andb_false_r, ?orb_false_r; destruct s;
    rewrite ?andb_false_r; done.
Qed.

Lemma fields_word fuel cur t s : forall_string graphic t = true →
  fields_loop (String.length t + fuel) cur (t +:+ s) = fields_loop fuel (String.rev_app t cur) s.
Proof.
  revert cur. induction t as [|a t IH]; intros cur; [done|]. intros [Ha Ht]%andb_true_iff.
  change (String a t +:+ s) with (String a (t +:+ s)). cbn [String.length Nat.add fields_loop String.rev_app].
  destruct (graphic_no_space a (t +:+ s) Ha) as [-> _]. by apply IH.
Qed.

Lemma forall_rev f t : forall_string f (String.rev t) = forall_string f t.
Proof.
  assert (∀ x y, forall_string f (x +:+ y) = forall_string f x && forall_string f y) as H.
  { intros x y. induction x as [|a x IH]; [done|]. change (String a x +:+ y) with (String a (x +:+ y)). cbn [forall_string].
    by rewrite IH, andb_assoc. }
  induction t as [|a t IH]; [done|]. rewrite string_rev_cons, H, IH. cbn [forall_string]. rewrite andb_true_r. apply andb_comm.
Qed.

Lemma flush_word t : word t → flush (String.rev t) = [t].
Proof.
  intros [Hne _]. unfold flush. rewrite string_rev_involutive, decide_False; [done|]. intros E.
  apply (f_equal String.rev) in E. by rewrite string_rev_involutive in E.
Qed.

Lemma Fields_join l : Forall word l → Fields (join " " l) = l.
Proof.
  unfold Fields. generalize (S (String.length (join " " l))) as fuel, (Nat.lt_succ_diag_r (String.length (join " " l))).
  intros fuel Hf Hl. revert fuel Hf. induction Hl as [|t l Ht Hl IH]; intros fuel Hf; [by destruct fuel|].
  destruct l as [|t' l].
  - cbn [join] in *. replace fuel with (String.length t + S (fuel - String.length t - 1))%nat by lia.
    pose proof (fields_word (S (fuel - String.length t - 1)) "" t "" (proj2 Ht)) as F. rewrite string_app_nil_r in F. rewrite F.
    cbn [fields_loop strip_space].
    rewrite string_rev_app_eq, string_app_nil_r. by apply flush_word.
  - change (join " " (t :: t' :: l)) with (t +:+ " " +:+ join " " (t' :: l)) in *.
    rewrite !string_app_length in Hf. cbn [String.length] in Hf.
    replace fuel with (String.length t + S (fuel - String.length t - 1))%nat by lia.
    rewrite fields_word by apply Ht. cbn [fields_loop].
    change (strip_space (" " +:+ join " " (t' :: l))) with (Some (join " " (t' :: l))). cbv iota beta.
    rewrite string_rev_app_eq, string_app_nil_r, flush_word by done. rewrite IH by lia. done.
Qed.

Lemma trim_words t l : Forall word (t :: l) → trim_space (join " " (t :: l)) = join " " (t :: l).
Proof.
  intros Hl. unfold trim_space.
  assert (∀ l', l' ≠ [] → Forall word l' →
    (∃ a s, join " " l' = String a s ∧ graphic a = true) ∧ ∃ a s, String.rev (join " " l') = String a s ∧ graphic a = true) as H.
  { intros l' Hne. induction 1 as [|x xs [Hx Hg] _ IH]; [done|].
    assert (∃ a s, x = String a s ∧ graphic a = true) as (a & s & Ex & Ha).
    { destruct x as [|a x]; [done|]. apply andb_true_iff in Hg as [? _]. eauto. }
    destruct xs as [|y ys].
    - cbn [join]. split; [eauto|]. assert (forall_string graphic (String.rev x) = true) as Hr by (by rewrite forall_rev).
      destruct (String.rev x) as [|b r] eqn:R.
      + apply (f_equal String.rev) in R. rewrite string_rev_involutive in R. by subst.
      + apply andb_true_iff in Hr as [? _]. eauto.
    - destruct (IH ltac:(done)) as [_ (b & r & R & Hb)].
      change (join " " (x :: y :: ys)) with (x +:+ " " +:+ join " " (y :: ys)). split.
      + subst x. eexists a, _. split; [reflexivity|done].
      + rewrite !string_rev_app, R. eexists b, _. split; [reflexivity|done]. }
  destruct (H (t :: l) ltac:(done) Hl) as [(a & s & E & Ha) (b & r & R & Hb)].
  rewrite (trim_loop_fixed strip_space) by (rewrite E; by apply graphic_no_space).
  rewrite (trim_loop_fixed strip_space_rev) by (rewrite R; by apply graphic_no_space). apply string_rev_involutive.
Qed.

Lemma digits_val_ge s acc e : 0 ≤ acc → digits_val s acc = Some e → acc ≤ e.
Proof.
  revert acc. induction s as [|a s IH]; cbn [digits_val]; intros acc H0; [intros [= <-]; lia|].
  destruct (is_digit a) eqn:D; [|done]. apply is_digit_val in D. intros E%IH; lia.
Qed.

Lemma parse_expiry_val s acc e : 0 ≤ acc → e ≤ max_int64 → digits_val s acc = Some e → parse_expiry acc s = e.
Proof.
  revert acc. induction s as [|a s IH]; cbn [digits_val parse_expiry]; intros acc H0 He; [by intros [= <-]|].
  destruct (is_digit a) eqn:D; [|done]. apply is_digit_val in D. intros E.
  pose proof (digits_val_ge s (acc * 10 + (ascii_Z a - 48)) e ltac:(lia) E). unfold i64, max_int64 in *. rewrite Z.mod_small by lia.
  replace (acc * 10 + (ascii_Z a - 48) + 2 ^ 63 - 2 ^ 63) with (acc * 10 + (ascii_Z a - 48)) by lia. apply IH; [lia|done|done].
Qed.

Definition unquoted (t : string) : Prop := str_mem "034"%char t = false.

Lemma trim_left_other c t : str_mem c t = false → trim_left c t = t.
Proof. destruct t as [|a t]; [done|]. intros [H _]%orb_false_iff. cbn [trim_left]. by rewrite H. Qed.

Lemma mem_rev c t : str_mem c (String.rev t) = str_mem c t.
Proof.
  assert (∀ x y, str_mem c (x +:+ y) = str_mem c x || str_mem c y) as H.
  { intros x y. induction x as [|a x IH]; [done|]. change (String a x +:+ y) with (String a (x +:+ y)). cbn [str_mem].
    by rewrite IH, orb_assoc. }
  induction t as [|a t IH]; [done|]. rewrite string_rev_cons, H, IH. cbn [str_mem]. rewrite orb_false_r. apply orb_comm.
Qed.

Lemma trim_char_other c t : str_mem c t = false → trim_char c t = t.
Proof.
  intros H. unfold trim_char. rewrite (trim_left_other c t) by done.
  rewrite (trim_left_other c (String.rev t)) by (by rewrite mem_rev). apply string_rev_involutive.
Qed.

(** The row [dnsmasq] writes for a lease, read back: every field of a lease
    that has not expired, an expired one is dropped. *)
Theorem lease_reads_back now exp mac addr host client e
    (Hw : Forall word [exp; mac; addr; host; client]) (Hexp : digits_val exp 0 = Some e) (He : e ≤ max_int64)
    (Hh : unquoted host) (Hn : 0 ≤ now) :
  lease_line now (join " " [exp; mac; addr; host; client])
  = if (0 <? e) && (e <? now / nanos_per_second) then None else Some (mkLease e (to_lower mac) addr host client).
Proof.
  unfold lease_line. rewrite trim_words by done. rewrite Fields_join by done.
  assert (word exp ∧ word addr) as [[Hne Hg] [Hna _]]
    by (rewrite !list.Forall_cons in Hw; tauto).
  rewrite decide_False.
  2:{ destruct exp as [|a exp]; [done|]. change (join " " _) with (String a exp +:+ " " +:+ join " " [mac; addr; host; client]).
      change (String a exp +:+ ?x) with (String a (exp +:+ x)). intros [?|H]; [done|].
      cbn [digits_val] in Hexp. cbn [has_prefix] in H. destruct (is_digit a) eqn:D; [|done].
      destruct (char_eqb "#" a) eqn:C; [|done]. apply bool_decide_eq_true in C. subst a. discriminate. }
  cbn [dl_expiry dl_ip dl_mac dl_hostname dl_clientID head default].
  rewrite (parse_expiry_val exp 0 e), trim_char_other by (done || lia). pose proof (digits_val_ge exp 0 e ltac:(lia) Hexp).
  destruct (Z.eqb_spec e 0), (Z.ltb_spec 0 e); try lia; cbn [negb andb]; [by rewrite decide_False|].
  destruct (e <? _); [done|]. by rewrite decide_False.
Qed.

Lemma lease_reads_back_witness :
  lease_line (1700000000 * nanos_per_second) (join " " ["1700003600"; "AA:bb:cc:dd:ee:ff"; "10.1.2.9"; "phone"; "*"])
  = Some (mkLease 1700003600 "aa:bb:cc:dd:ee:ff" "10.1.2.9" "phone" "*").
Proof.
  rewrite (lease_reads_back _ _ _ _ _ _ 1700003600);
    [vm_compute; reflexivity|repeat constructor; discriminate|vm_compute; reflexivity|vm_compute; discriminate
    |vm_compute; reflexivity|vm_compute; discriminate].
Defined.
